(* ===== verification/_CoqProject ===== *)
-Q . S2P
Prelude.v
Util.v
BBuffer.v
Graph.v
GraphRef.v
GraphRead.v
GraphOwned.v
GraphTypes.v
GraphCopy.v
GraphRoundtrip.v
KcpState.v
KcpOps.v
KcpWire.v
KcpRecv.v
KcpInput.v
KcpFlush.v
KcpSender.v
KcpSend.v
KcpConv.v
KcpLink.v
KcpSafe.v
KcpProps.v
Kcp4.v
Kcp4Props.v
Framing.v
KcpPeer.v
UvUdp.v
Rpc.v
HashUtils.v
Dict.v
DictChains.v
DictMap.v
DictOps.v
DictProps.v
DictTable.v
DictEx.v
DictExProps.v
HashSet.v
HashSetProps.v
Queue.v
QueueProps.v
XList.v
XListProps.v
Charsutils.v
CharsutilsProps.v
Bytes.v
BytesProps.v
Random.v
RandomProps.v
MemPool.v
MemPoolProps.v
Pointers.v
PointersProps.v
Timeouts.v
TimeoutsRep.v
TimeoutsProps.v
RpcManager.v
RpcManagerProps.v
Packets.v
PacketsSpec.v
PacketsProps.v
Requests.v
RequestsProps.v
PeerRpc.v
PeerRpcProps.v
PacketsRel.v
UdpPeers.v
UdpPeersProps.v
UdpClient.v
HttpUrl.v
Http.v
HttpProps.v
