(* ===== verification/Prelude.v ===== *)
(** * xxlib: a verification development

    ** The program

    xxlib is a C++ library for game servers: containers, a byte buffer with
    serialisers for scalars and for whole object graphs, the reliable datagram
    protocol KCP, and, over libuv, peers that exchange packages, requests and
    responses on TCP, UDP and KCP.  Two generations of it are modelled: that
    of src/test_uv_3 (header only; buffer, object graphs, KCP, peers), with
    src/gens/output/PKG_class.h, the classes that its generator writes; and
    from src/test_uv_4 what it has of its own: memory pool, hash table, ring
    buffer, pooled byte buffer, number formatting, random numbers, the timing
    wheel, the request manager, and packages with routing; and its copy of KCP.

    How the parts meet: a peer of xx_uv.h puts a four-byte length before a
    package ([Framing]) and hands the bytes to TCP or to the KCP connection it
    owns ([KcpPeer] over [KcpOps]); a listener finds the peer of a datagram by
    the Guid in its first bytes ([UvUdp]); what comes out of the connection is
    collected into packages again, and the request layer ([Rpc]) reads serial
    number and message with the object-graph serialiser ([Graph] over
    [BBuffer]) and calls the callback that waits for that number.  All buffers
    are sized by [Round2n] ([Util]).  In test_uv_4 a package says itself whether
    it is a request, a response, or on its way through a router ([Packets] over
    [Bytes]); the numbers and callbacks of all peers are in one manager
    ([RpcManager] over [Dict] and [Queue]), and [Requests] puts the two together.

    ** The files and the code that they model

    - Prelude: integers at their width, bytes, the outcome monad, the tactics.
    - Util: [Calc2n], [Round2n], [Guid] (test_uv_3/xx_object.h), [MemHeader].
    - BBuffer: test_uv_3/xx_bbuffer.h, buffer and scalar adapters.  The class
      [BFuncs] is the adapter template, [BFuncsSpec] its contract: instances
      for integers, float, double, string, Guid and pairs discharge it, and
      the variadic [Write]/[Read] is proved against it.
    - Graph: [WriteRoot], [ReadRoot], [WritePtr], [ReadPtr] of the same header
      and every class of PKG_class.h, on a heap of objects with shared and weak
      pointers.  The reader fills the fields of objects in place, so that what
      it leaves after a failure is there too, and [ReadRoot] ends with the
      destruction of what nobody owns ([release]), since clearing [objIdxs]
      gives up the last pointers.  GraphRef is a reader that computes contents
      and stores them at the end, GraphRead shows that the code's reader does
      the same ([reader_equals_reference]); GraphOwned says what [release]
      leaves; GraphTypes is about reading arbitrary bytes, GraphCopy and
      GraphRoundtrip about reading what was written.
    - KcpState, KcpOps: test_uv_3/ikcp.h, one definition per function.
      KcpWire (headers, sequence numbers), KcpRecv (reordering), KcpInput and
      KcpSafe (datagrams, well formed and arbitrary), KcpFlush, KcpSender and
      KcpSend (output), KcpLink (two ends and a network), KcpProps (contracts
      of single calls).  The length that the code counts for a header is a
      parameter (class [Overhead]): 36 here, 24 in test_uv_4/ikcp.cpp, which is
      otherwise the same code (Kcp4, Kcp4Props).
    - Framing, KcpPeer, UvUdp, Rpc: test_uv_3/xx_uv.h, in that order the
      reassembly of packages, [UvUdpKcpPeer], [UvUdpKcpListener] and
      [UvUdpKcpDialer], and the request layer of [UvTcpPeer] and
      [UvUdpKcpPeer].
    - XList, XListProps: test_uv_3/xx_list.h.
    - HashUtils, Dict: test_uv_4/xx_hashutils, xx_dict.  DictChains, DictMap,
      DictOps, DictProps prove it to be a finite map.
    - DictTable: a [Dict] by its indices, with the stream of the indices to
      come.  DictEx, DictExProps: test_uv_4/xx_dictex, tables for any list of
      key types.
    - HashSet, HashSetProps: test_uv_4/xx_hashset, followed step by step by a
      [Dict] without values.
    - Queue, QueueProps: test_uv_4/xx_queue.
    - Charsutils, CharsutilsProps: test_uv_4/xx_charsutils, integers.
    - Bytes, BytesProps: test_uv_4/xx_bytesutils, xx_bbuffer and the adapter of
      xx_guid.  [BytesFunc] and [BytesSpec] are the adapter and its contract.
    - Random, RandomProps: test_uv_4/xx_random (that of test_uv_3 is the same).
    - MemPool, MemPoolProps: test_uv_4/xx_mempool, the pool.  Pointers,
      PointersProps: its smart pointers as variables, which are locals or
      members of objects, with the destructors that a [Release] runs.
    - Timeouts, TimeoutsRep, TimeoutsProps: [UvTimeoutManager] and
      [UvTimeouterBase] of test_uv_4/xx_uv, timers in doubly linked slots.
    - RpcManager, RpcManagerProps: [UvRpcManager] of the same files.
    - Packets, PacketsSpec, PacketsProps: sending, [ReceiveImpl] and routing of
      [UvTcpUdpBase] (test_uv_4/xx_uv.cpp, xx_uv.hpp).  Requests,
      RequestsProps: its [SendRequest] with the manager.  PeerRpc, PeerRpcProps:
      [SendRequestEx] and [RpcTraceCallback], with the [HashSet] of the numbers
      that a peer waits for.
    - KcpConv: no operation of KCP changes the number of a connection.
      PacketsRel: related applications are told the same by [ReceiveImpl].
      UdpPeers, UdpPeersProps: [UvUdpListener], [UvUdpPeer] and the timer of the
      loop, on [Kcp4], [Packets] and [Dict]; the class [Peers] is what an
      application may do, with the instances of the code and of its
      specification.  UdpClient: [UvUdpClient], and the lists of the loop whose
      members know their index.
    - HttpUrl: [ParseUrl] and what it calls.  Http, HttpProps: the functions
      that [UvHttpPeer] and [UvHttpClient] (module [Client]) give to
      [http_parser], with their [Dict] of headers, and [SendHttpResponse].

    A record is a class and its fields; a definition has the name of the
    function that it translates.  A call that can fail or go wrong runs in the
    outcome monad [M]: [Done] with a value, [Fail] with the error code that the
    source returns (and the state as the early return leaves it), or [Undef]
    for what C++ leaves undefined (an access outside an allocation, a read of
    memory that was never written, a shift that is too wide, signed overflow)
    and for a failed [assert].  So "is defined" in a theorem is memory safety.

    ** What the theorems show

    - KCP: over a network that loses, repeats, delays and reorders datagrams
      the messages read at one end are the first messages sent at the other
      ([kcp_delivers_messages], [kcp_delivers_prefix]); input is safe on
      arbitrary bytes ([input_safe]) but for one announced length
      ([input_length_check_bypassed]) in test_uv_3, while in test_uv_4 a datagram
      of two segments is read out of bounds ([input_24]); output keeps to the MTU
      ([update_output_fits]) and is accepted by the other end; fragmentation,
      progress, timers and the bounds of the time-out.
    - Peers: the packages handled are those sent ([packages_delivered]);
      reassembly does not depend on how the bytes are cut ([unpack_chunks]) and
      is safe; datagrams reach the peer that they name and no other; each
      request is answered exactly once ([requests_answered_once]), by the
      response that carries its number ([request_response]).
    - Packages of test_uv_4: they arrive in order, once and unchanged for every
      cut of the stream ([packages_arrive]), also through a router
      ([packages_are_routed]); a request finds its server and the response its
      callback ([request_round_trip]); lengths that wrap around
      ([length_wraps_endless]) and addresses of different lengths
      ([route_other_length]) are where this ends.
    - UDP of test_uv_4: the listener with its table, the indices that peers
      remember and the iterators over it does what a map from connection
      numbers to peers does, for every application ([udp_refines_net]); where
      the application must not release, create or close is shown by
      [accept_release_dangles], [create_twice_dangles] and [timer_overruns].
    - HTTP: the application sees each message whole and nothing of the one
      before, however its texts come in pieces ([http_messages],
      [client_messages]); a header that comes twice joins its values and spoils
      the name of the next one ([repeated_header_spoils_next]); an address is
      cut into the parts that it was made of ([url_round_trip]), unless a part
      has an escaped delimiter ([escaped_delimiter_cuts]).
    - When a peer goes, each of its requests has been called back exactly once
      ([peer_requests_answered]), unless a callback sends again
      ([trace_new_request_survives]).
    - Time and requests: the wheel rings as a list of alarms
      ([wheel_refines_clock]) unless a handler sets its own timer again
      ([wheel_rearm_dangles]); the manager calls no callback twice and leaves
      none out ([manager_answers_once]).
    - Serialisers: graphs with sharing and cycles are rebuilt up to renaming of
      addresses, as far as the root owns them ([graph_roundtrip]), so that a
      [Foo] loses the children that only its weak pointers reach
      ([weak_children_expire]); a [Player] cannot be read back
      ([player_not_read_back]); arbitrary bytes give typed objects without
      dangling shared pointers ([graph_reads_typed]) and without garbage
      ([graph_reads_no_leak]), and reading them ends ([graph_reading_ends]);
      scalars round-trip in both buffers, the
      pooled one on the full 64-bit range ([pooled_roundtrip]); readers are
      safe on arbitrary bytes; what [WriteAt] overwrites, and what it loses.
    - Containers: sessions of calls on hash tables, ring buffer and list answer
      as on a finite map, a table of rows, a set and lists
      ([dict_refines_map], [dictex_refines_rows], [hashset_refines_set],
      [queue_refines_list], [list_refines_list]), and no object is leaked,
      destroyed twice or read before it is made.
    - Pool: blocks in use are apart ([pool_blocks_apart]), weak pointers never
      answer for another object ([weak_pointers_exact]); programs on smart
      pointers are defined and reference counts are exact
      ([references_counted]), unless a pointer is assigned from a member of
      the object that it gives up ([assign_own_member]); the search for base
      types ends ([IsBaseOf_is_ancestry]).
    - Text and numbers: table-driven formatting is division by ten on every
      value ([text_is_decimal]); the generator is the lagged subtraction of its
      seed ([random_is_lagged_subtraction]).

    Some theorems state what the code does where it does not do what it
    should; they name the input.

    ** Bounds and fuel

    Recursion that is not structural takes fuel, and the fuel is enough:
    [find_loop] has one round more than the table has elements (a chain visits
    each once); [search_prime] doubles 31 times, more rounds than the search
    has numbers; [recv_loop] is given one round per segment that has arrived
    ([recv_loop_total], [recv_loop_fuel]); [input_loop], [unpack_loop] and [ReadPtr] consume at
    least a byte per round and get one more than the length of the data; [WritePtr] gets two more than the
    number of objects, as every object is written once;
    [release] has a round per object, and a round that destroys nothing is the
    last that matters; the variable-length
    integers take one round per digit; [IsBaseOf] one per type.
    [receive_loop] consumes at least three bytes per round and gets one more
    than there are bytes, but for the lengths of [length_wraps_endless], with
    which the code does not end either; [process_loop] of the wheel and of the
    manager get one more than the timers that live and the entries that are
    queued; releases nest at most as deep as there are blocks; callbacks of the manager nest as deep as a parameter says.  Sizes are
    those of a 64-bit little-endian target; the theorems ask for buffers below
    [2^62] bytes, the sequence theorems for queues that the window bounds keep
    below [2^31], and the pool for fewer than [2^56] allocations (the version
    number shares its word with the list index).

    ** Code that is not under src/

    [malloc] is a parameter: in KCP a predicate that says which allocations
    succeed, in the pool (class [Malloc]) a function with the documented
    property that new memory is apart from the old; both have concrete
    instances in the witnesses.  The conversion of a [double] that is out of
    the range of [int32_t] is a parameter that gives some [int32_t]
    ([FloatToInt]).  libuv is the lists of what is handed to it and the codes
    that it returns; the application behind the handlers is a parameter with a
    state of its own.

    ** Not modelled

    - Text output ([ToString] everywhere, xx_string) and Guid generation: they
      only format, or call the uuid library.
    - The libuv wrappers ([UvLoop], [UvAsync], [UvTimer], [UvResolver], TCP
      listener and dialer): life cycles of handles of a library that is not
      here.
    - The outputs of [Random] that go through [double], whose rounding is the
      platform's; [Realloc], the creators table and the string store of the pool.
    - The rest of test_uv_4's network layer (TCP peers and listeners, timers,
      asyncs, name resolution).  The calls that [http_parser] makes are the input
      of [Http]; [ReceiveImpl] around it is left out.  In [UdpPeers] the event functions
      [OnDispose] are noted and not run, and no event function releases the loop
      or its timer, so the tests for that are left out.
    - Vendored code (http_parser, libuv headers), the coroutine experiments, the
      test programs, the Go and C# sources. *)

From Stdlib Require Import ZArith Lia.
From stdpp Require Import base numbers list gmap.

Open Scope Z_scope.

(** ** Machine integers

    Integers of the source are [Z]; [uint w] and [sint w] are the conversions
    to the unsigned and the (two's complement) signed type of [w] bits. *)

Definition uint (w z : Z) : Z := z mod 2 ^ w.
Definition sint (w z : Z) : Z := (z + 2 ^ (w - 1)) mod 2 ^ w - 2 ^ (w - 1).

Abbreviation u8 := (uint 8).
Abbreviation u16 := (uint 16).
Abbreviation u32 := (uint 32).
Abbreviation u64 := (uint 64).
Abbreviation i32 := (sint 32).

Definition is_uint (w z : Z) : Prop := 0 <= z < 2 ^ w.
Definition is_sint (w z : Z) : Prop := - 2 ^ (w - 1) <= z < 2 ^ (w - 1).

#[export] Instance is_uint_dec w z : Decision (is_uint w z).
Proof. unfold is_uint. apply _. Defined.
#[export] Instance is_sint_dec w z : Decision (is_sint w z).
Proof. unfold is_sint. apply _. Defined.

(** Length of a list as a [Z]. *)
Definition zlen {A} (l : list A) : Z := Z.of_nat (length l).

(** Element of a list at a [Z] position; out of range is [None]. *)
Definition znth {A} (l : list A) (i : Z) : option A :=
  if i <? 0 then None else l !! Z.to_nat i.

(** [n] elements from position [i]; [None] when the range leaves the list. *)
Definition zslice {A} (l : list A) (i n : Z) : option (list A) :=
  if (0 <=? i) && (0 <=? n) && (i + n <=? zlen l)
  then Some (take (Z.to_nat n) (drop (Z.to_nat i) l)) else None.

(** A byte is a [Z] in [0, 256); a byte string is a list of them. *)
Abbreviation byte := Z (only parsing).
Abbreviation bytes := (list Z) (only parsing).
Abbreviation is_byte := (is_uint 8).

(** Little-endian encoding of an unsigned integer on [n] bytes (what [memcpy]
    of an integer reads and writes on the little-endian targets). *)
Fixpoint le_bytes (n : nat) (v : Z) : bytes :=
  match n with
  | O => []
  | S n => v mod 256 :: le_bytes n (v / 256)
  end.

Fixpoint le_val (bs : bytes) : Z :=
  match bs with
  | [] => 0
  | b :: bs => b + 256 * le_val bs
  end.

(** ** Outcomes

    A call on a state [S] finishes with a value ([Done]), returns an error
    code ([Fail], the state keeps what was changed before the error), or does
    something that the C++ standard leaves undefined or that an [assert]
    rejects ([Undef]). *)

Inductive outcome (S A : Type) : Type :=
| Done (a : A) (s : S)
| Fail (code : Z) (s : S)
| Undef.
Arguments Done {S A} a s.
Arguments Fail {S A} code s.
Arguments Undef {S A}.

Definition M (S A : Type) : Type := S -> outcome S A.

#[export] Instance M_ret S : MRet (M S) := fun A a s => Done a s.
#[export] Instance M_bind S : MBind (M S) := fun A B f m s =>
  match m s with
  | Done a s' => f a s'
  | Fail e s' => Fail e s'
  | Undef => Undef
  end.

Definition fail {S A} (code : Z) : M S A := fun s => Fail code s.
Definition undef {S A} : M S A := fun _ => Undef.
Definition get {S} : M S S := fun s => Done s s.
Definition put {S} (s : S) : M S unit := fun _ => Done tt s.
Definition modify {S} (f : S -> S) : M S unit := fun s => Done tt (f s).

(** [if (b) return code;] *)
Definition reject_if {S} (b : bool) (code : Z) : M S unit :=
  if b then fail code else mret tt.

(** Access guarded by the language: the [None] case is undefined behaviour. *)
Definition demand {S A} (o : option A) : M S A :=
  match o with Some a => mret a | None => undef end.

Definition assert_ {S} (b : bool) : M S unit := if b then mret tt else undef.

(** ** Automation *)

Create HintDb xx.
Create Rewrite HintDb xx.

(** Case analysis on the boolean comparisons of a goal or of hypotheses. *)
Ltac zbool1 :=
  match goal with
  | |- context [?a <? ?b] => destruct (Z.ltb_spec a b)
  | |- context [?a <=? ?b] => destruct (Z.leb_spec a b)
  | |- context [?a =? ?b] => destruct (Z.eqb_spec a b)
  | H : context [?a <? ?b] |- _ => destruct (Z.ltb_spec a b)
  | H : context [?a <=? ?b] |- _ => destruct (Z.leb_spec a b)
  | H : context [?a =? ?b] |- _ => destruct (Z.eqb_spec a b)
  end.
Ltac zbool := repeat (zbool1; cbn [andb orb negb] in *; try lia).

(** Unfold the integer range predicates and call [lia]. *)
Ltac rng :=
  unfold is_uint, is_sint in *;
  change (2 ^ 7) with 128 in *; change (2 ^ 8) with 256 in *;
  change (2 ^ 16) with 65536 in *; change (2 ^ 31) with 2147483648 in *;
  change (2 ^ 32) with 4294967296 in *;
  change (2 ^ 63) with 9223372036854775808 in *;
  change (2 ^ 64) with 18446744073709551616 in *; lia.

(** ** Lemmas on machine integers *)

Lemma uint_range w z : 0 <= w -> is_uint w (uint w z).
Proof. intros. apply Z.mod_pos_bound, Z.pow_pos_nonneg; lia. Qed.

Lemma uint_small w z : is_uint w z -> uint w z = z.
Proof. intros. by apply Z.mod_small. Qed.

Lemma uint_uint w z : 0 <= w -> uint w (uint w z) = uint w z.
Proof. intros. by apply uint_small, uint_range. Qed.

Lemma pow2_half w : 1 <= w -> 2 ^ w = 2 * 2 ^ (w - 1).
Proof. intros. rewrite <-Z.pow_succ_r by lia. f_equal; lia. Qed.

Lemma sint_range w z : 1 <= w -> is_sint w (sint w z).
Proof.
  intros. unfold is_sint, sint. pose proof (pow2_half w ltac:(lia)).
  pose proof (Z.mod_pos_bound (z + 2 ^ (w - 1)) (2 ^ w)
    ltac:(apply Z.pow_pos_nonneg; lia)). lia.
Qed.

Lemma sint_small w z : 1 <= w -> is_sint w z -> sint w z = z.
Proof.
  intros ? Hs. unfold is_sint in Hs. unfold sint. pose proof (pow2_half w ltac:(lia)).
  rewrite Z.mod_small; lia.
Qed.

Lemma uint_add_l w a b : 0 <= w -> uint w (uint w a + b) = uint w (a + b).
Proof. intros. apply Z.add_mod_idemp_l. apply Z.pow_nonzero; lia. Qed.

Lemma uint_add_r w a b : 0 <= w -> uint w (a + uint w b) = uint w (a + b).
Proof. intros. apply Z.add_mod_idemp_r. apply Z.pow_nonzero; lia. Qed.

Lemma uint_sub w a b : 0 <= w -> uint w (uint w a - uint w b) = uint w (a - b).
Proof. intros. unfold uint. rewrite <-Zminus_mod. done. Qed.

(** The signed reading depends only on the residue. *)
Lemma sint_mod w a b : 0 <= w -> uint w a = uint w b -> sint w a = sint w b.
Proof.
  unfold sint, uint. intros ? E. f_equal.
  rewrite Z.add_mod, E, <-Z.add_mod by (apply Z.pow_nonzero; lia). done.
Qed.

Lemma sint_uint w z : 0 <= w -> sint w (uint w z) = sint w z.
Proof. intros. by apply sint_mod, uint_uint. Qed.

(** Serial-number comparison: the signed difference of two wrapped counters is
    the true difference while they are less than half the range apart. *)
Lemma sint_diff w a b :
  1 <= w -> is_sint w (a - b) -> sint w (uint w a - uint w b) = a - b.
Proof.
  intros. rewrite (sint_mod _ _ (a - b)) by (try apply uint_sub; lia).
  by apply sint_small.
Qed.

Lemma is_uint_mono w w' z : 0 <= w <= w' -> is_uint w z -> is_uint w' z.
Proof.
  intros ? [? ?]. split; [done|].
  pose proof (Z.pow_le_mono_r 2 w w' ltac:(lia) ltac:(lia)). lia.
Qed.

#[export] Hint Resolve uint_range sint_range : xx.

Lemma and3_intro (P Q R : Prop) : P /\ Q -> R -> P /\ Q /\ R.
Proof. tauto. Qed.

(** ** Bits *)

Lemma land_ones_mod a n : 0 <= n -> Z.land a (2 ^ n - 1) = a mod 2 ^ n.
Proof. intros. rewrite <-Z.land_ones by done. f_equal. rewrite Z.ones_equiv; lia. Qed.

(** Disjoint bits: [lor] of a low part and a shifted high part is a sum. *)
Lemma lor_shiftl_add a b n :
  0 <= n -> 0 <= a < 2 ^ n -> Z.lor a (Z.shiftl b n) = a + 2 ^ n * b.
Proof.
  intros ? Ha.
  assert (Hd : Z.land a (Z.shiftl b n) = 0).
  { apply Z.bits_inj'. intros i Hi. rewrite Z.land_spec, Z.bits_0, Z.shiftl_spec by done.
    destruct (decide (i < n)).
    - rewrite (Z.testbit_neg_r b) by lia. by rewrite andb_false_r.
    - rewrite <-(Z.mod_small a (2 ^ n)) by done. by rewrite Z.mod_pow2_bits_high by lia. }
  rewrite <-Z.lxor_lor, <-Z.add_nocarry_lxor, Z.shiftl_mul_pow2 by done. lia.
Qed.

(** ** Lists *)

Lemma zlen_app {A} (l k : list A) : zlen (l ++ k) = zlen l + zlen k.
Proof. unfold zlen. rewrite length_app. lia. Qed.
Lemma zlen_nil {A} : zlen (@nil A) = 0.
Proof. done. Qed.
Lemma zlen_cons {A} (x : A) l : zlen (x :: l) = 1 + zlen l.
Proof. unfold zlen. simpl. lia. Qed.
Lemma zlen_nonneg {A} (l : list A) : 0 <= zlen l.
Proof. unfold zlen. lia. Qed.
Lemma zlen_0 {A} (l : list A) : zlen l = 0 <-> l = [].
Proof. unfold zlen. destruct l; simpl; split; intros; try done; lia. Qed.
Lemma zlen_fmap {A B} (f : A -> B) (l : list A) : zlen (f <$> l) = zlen l.
Proof. unfold zlen. by rewrite length_fmap. Qed.
#[export] Hint Rewrite @zlen_app @zlen_nil @zlen_cons : xx.

Lemma zlen_take {A} n (l : list A) : zlen (take n l) = Z.min (Z.of_nat n) (zlen l).
Proof. unfold zlen. rewrite length_take. lia. Qed.
Lemma zlen_drop {A} n (l : list A) : zlen (drop n l) = Z.max 0 (zlen l - Z.of_nat n).
Proof. unfold zlen. rewrite length_drop. lia. Qed.

Lemma znth_app_r {A} (l k : list A) i :
  zlen l <= i -> znth (l ++ k) i = znth k (i - zlen l).
Proof.
  unfold znth, zlen. intros. zbool; [].
  rewrite lookup_app_r by lia. f_equal. lia.
Qed.

Lemma znth_app_l {A} (l k : list A) i : i < zlen l -> znth (l ++ k) i = znth l i.
Proof. unfold znth, zlen. intros. zbool; [done|]. by rewrite lookup_app_l by lia. Qed.

Lemma znth_mid {A} (l k : list A) x : znth (l ++ x :: k) (zlen l) = Some x.
Proof. rewrite znth_app_r by done. by rewrite Z.sub_diag. Qed.

Lemma znth_Some_lt {A} (l : list A) i x : znth l i = Some x -> 0 <= i < zlen l.
Proof.
  unfold znth, zlen. intros H. zbool; [done|]. apply lookup_lt_Some in H. lia.
Qed.

Lemma znth_is_Some {A} (l : list A) i : 0 <= i < zlen l -> exists x, znth l i = Some x.
Proof.
  unfold znth, zlen. intros. zbool; []. apply lookup_lt_is_Some_2. lia.
Qed.

Lemma zslice_mid {A} (a b c : list A) : zslice (a ++ b ++ c) (zlen a) (zlen b) = Some b.
Proof.
  unfold zslice. rewrite !zlen_app.
  pose proof (zlen_nonneg a); pose proof (zlen_nonneg b); pose proof (zlen_nonneg c).
  zbool; [].
  unfold zlen. rewrite !Nat2Z.id, drop_app_length, take_app_length. done.
Qed.

Lemma zslice_len {A} (l : list A) i n k : zslice l i n = Some k -> zlen k = n.
Proof.
  unfold zslice. intros H. zbool; try done; []. simplify_eq.
  rewrite zlen_take, zlen_drop. lia.
Qed.

Lemma zlen_insert {A} (l : list A) (n : nat) (x : A) : zlen (<[n := x]> l) = zlen l.
Proof. unfold zlen. by rewrite length_insert. Qed.

Lemma znth_insert {A} (l : list A) (i j : Z) (x : A) :
  0 <= i < zlen l -> znth (<[Z.to_nat i := x]> l) j = if decide (j = i) then Some x else znth l j.
Proof.
  intros Hi. unfold znth, zlen in *. destruct (Z.ltb_spec j 0); [by destruct (decide _); [lia|]|].
  destruct (decide (j = i)) as [->|Hne].
  - apply list_lookup_insert_eq. lia.
  - apply list_lookup_insert_ne. lia.
Qed.

Lemma zslice_is_Some {A} (l : list A) i n :
  0 <= i -> 0 <= n -> i + n <= zlen l -> exists k, zslice l i n = Some k.
Proof. unfold zslice. intros. zbool; []. eauto. Qed.

Lemma NoDup_omap_inj {A B} (f : A -> option B) (l : list A) :
  (forall x y b, x ∈ l -> y ∈ l -> f x = Some b -> f y = Some b -> x = y) -> NoDup l -> NoDup (omap f l).
Proof.
  induction l as [|x l IH]; intros Hf Hnd; [constructor|]. apply NoDup_cons in Hnd as [Hx Hnd].
  cbn. destruct (f x) as [b|] eqn:E; [|apply IH; [intros; eapply Hf; set_solver|done]].
  constructor; [|apply IH; [intros; eapply Hf; set_solver|done]].
  intros (y & Hy & Ey)%list_elem_of_omap. apply Hx. by rewrite (Hf x y b) by set_solver.
Qed.

Lemma omap_none {A B} (f : A -> option B) (l : list A) : (forall x, x ∈ l -> f x = None) -> omap f l = [].
Proof. induction l as [|x l IH]; intros Hl; [done|]. cbn. rewrite Hl by set_solver. apply IH. set_solver. Qed.

Lemma omap_all {A B} (f : A -> option B) (l : list A) : (forall x, x ∈ l -> is_Some (f x)) -> length (omap f l) = length l.
Proof.
  induction l as [|x l IH]; intros Hl; [done|]. cbn. destruct (Hl x) as [e ->]; [set_solver|]. cbn. f_equal. apply IH. set_solver.
Qed.

(** ** Little-endian codec *)

Lemma le_bytes_length n v : length (le_bytes n v) = n.
Proof. revert v. induction n; simpl; auto. Qed.

Lemma le_bytes_zlen n v : zlen (le_bytes n v) = Z.of_nat n.
Proof. unfold zlen. by rewrite le_bytes_length. Qed.

Lemma le_bytes_byte n v : Forall is_byte (le_bytes n v).
Proof.
  revert v. induction n; simpl; constructor; auto.
  apply (Z.mod_pos_bound _ 256). lia.
Qed.

Lemma le_val_bytes n v : le_val (le_bytes n v) = v mod 2 ^ (8 * Z.of_nat n).
Proof.
  revert v. induction n as [|n IH]; intros v; simpl le_bytes; simpl le_val.
  - by rewrite Z.mod_1_r.
  - rewrite IH. replace (8 * Z.of_nat (S n)) with (8 + 8 * Z.of_nat n) by lia.
    rewrite Z.pow_add_r, Z.rem_mul_r by (try apply Z.pow_nonzero; lia). done.
Qed.

Lemma le_val_bytes_small n v : is_uint (8 * Z.of_nat n) v -> le_val (le_bytes n v) = v.
Proof. intros. rewrite le_val_bytes. by apply Z.mod_small. Qed.

Lemma le_val_range bs : Forall is_byte bs -> is_uint (8 * zlen bs) (le_val bs).
Proof.
  induction 1 as [|b bs [Hb1 Hb2] _ [IH1 IH2]]; simpl; [done|].
  rewrite zlen_cons. pose proof (zlen_nonneg bs). unfold is_uint.
  replace (8 * (1 + zlen bs)) with (8 + 8 * zlen bs) by lia.
  rewrite Z.pow_add_r by lia. change (2 ^ 8) with 256 in *. split; nia.
Qed.

Lemma le_bytes_val bs : Forall is_byte bs -> le_bytes (length bs) (le_val bs) = bs.
Proof.
  induction 1 as [|b bs [Hb1 Hb2] _ IH]; simpl; [done|].
  change (2 ^ 8) with 256 in *.
  rewrite (Z.mul_comm 256), Z.mod_add, Z.div_add by lia.
  rewrite Z.mod_small, Z.div_small, Z.add_0_l by lia. by rewrite IH.
Qed.

Arguments le_bytes : simpl never.
Arguments le_val : simpl never.

(** Slices at a known position, with the lengths left as side conditions. *)
Lemma zslice_at {A} (l a b c : list A) i n :
  l = a ++ b ++ c -> i = zlen a -> n = zlen b -> zslice l i n = Some b.
Proof. intros -> -> ->. apply zslice_mid. Qed.

(** Two ways to cut a list: the shorter head is a prefix of the longer. *)
Lemma app_split_at {A} (l more a b : list A) :
  l ++ more = a ++ b -> zlen a <= zlen l -> exists r, l = a ++ r /\ r ++ more = b.
Proof.
  unfold zlen. intros E Hl. exists (drop (length a) l).
  assert (Et : take (length a) l = a).
  { apply (f_equal (take (length a))) in E. rewrite take_app_length, take_app_le in E by lia. done. }
  assert (El : l = a ++ drop (length a) l) by (rewrite <-Et at 1; by rewrite take_drop).
  split; [done|]. rewrite El, <-app_assoc in E. by apply app_inv_head in E.
Qed.

(** ** The outcome monad *)

Section monad.
Context {S A B : Type}.
Implicit Types (m : M S A) (f : A -> M S B).

Lemma bind_done m f s a s' : m s = Done a s' -> (x ← m; f x) s = f a s'.
Proof. unfold mbind, M_bind. by intros ->. Qed.
Lemma bind_fail m f s e s' : m s = Fail e s' -> (x ← m; f x) s = Fail e s'.
Proof. unfold mbind, M_bind. by intros ->. Qed.
Lemma bind_undef m f s : m s = Undef -> (x ← m; f x) s = Undef.
Proof. unfold mbind, M_bind. by intros ->. Qed.

Lemma bind_mret (a : A) f s : (x ← mret a; f x) s = f a s.
Proof. done. Qed.
Lemma bind_get (f : S -> M S B) s : (x ← get; f x) s = f s s.
Proof. done. Qed.
Lemma bind_modify (g : S -> S) (f : unit -> M S B) s : (x ← modify g; f x) s = f tt (g s).
Proof. done. Qed.

Lemma bind_inv_done m f s b s'' :
  (x ← m; f x) s = Done b s'' ->
  exists a s', m s = Done a s' /\ f a s' = Done b s''.
Proof. unfold mbind, M_bind. destruct (m s); naive_solver. Qed.
End monad.

Lemma bind_assoc {S A B C} (m : M S A) (f : A -> M S B) (g : B -> M S C) s :
  (y ← (x ← m; f x); g y) s = (x ← m; y ← f x; g y) s.
Proof. unfold mbind, M_bind. by destruct (m s). Qed.

(** Two continuations that agree on every result. *)
Lemma bind_ext {S A B} (m m' : M S A) (f g : A -> M S B) s :
  m s = m' s -> (forall a s', m s = Done a s' -> f a s' = g a s') ->
  (x ← m; f x) s = (x ← m'; g x) s.
Proof. unfold mbind, M_bind. intros <- H. destruct (m s); auto. Qed.

(** A call is defined when it does not run into undefined behaviour. *)
Definition defined {S A} (o : outcome S A) : Prop := o <> Undef.

Lemma bind_defined {S A B} (m : M S A) (f : A -> M S B) s :
  defined (m s) ->
  (forall a s', m s = Done a s' -> defined (f a s')) ->
  defined ((x ← m; f x) s).
Proof.
  unfold defined, mbind, M_bind. intros Hm Hf.
  destruct (m s) eqn:E; [by eapply Hf | done | done].
Qed.

(** ** Effects of a call on the state

    [after R s o]: whatever the outcome (a value or an error code), the final
    state is related to the initial state [s] by [R]. *)
Definition after {S A} (R : S -> S -> Prop) (s : S) (o : outcome S A) : Prop :=
  match o with
  | Done _ s' | Fail _ s' => R s s'
  | Undef => True
  end.

Section effects.
Context {S : Type} (R : S -> S -> Prop) `{!PreOrder R}.

Lemma after_bind {A B} (m : M S A) (f : A -> M S B) s :
  after R s (m s) -> (forall a s', m s = Done a s' -> after R s' (f a s')) ->
  after R s ((x ← m; f x) s).
Proof.
  unfold mbind, M_bind. intros Hm Hf. destruct (m s) as [a s'|e s'|]; [|done|done].
  specialize (Hf a s' eq_refl). simpl in Hm.
  destruct (f a s'); simpl in *; [by etrans|by etrans|done].
Qed.

Lemma after_ret {A} (a : A) s : after R s (mret (M := M S) a s).
Proof. simpl. reflexivity. Qed.
Lemma after_get s : after R s (get s).
Proof. simpl. reflexivity. Qed.
Lemma after_modify f s : R s (f s) -> after R s (modify f s).
Proof. done. Qed.
Lemma after_assert b s : after R s (assert_ b s).
Proof. destruct b; simpl; [reflexivity|done]. Qed.
Lemma after_reject b e s : after R s (reject_if b e s).
Proof. destruct b; simpl; reflexivity. Qed.
Lemma after_demand {A} (o : option A) s : after R s (demand o s).
Proof. destruct o; simpl; [reflexivity|done]. Qed.
End effects.

(** Step through a call, leaving the state changes as goals. *)
Ltac effects :=
  repeat (cbv beta; match goal with
  | |- after _ _ ((mbind _ _) _) => apply (after_bind _); [|intros ? ? ?]
  | |- after _ _ (mret _ _) => apply (after_ret _)
  | |- after _ _ (get _) => apply (after_get _)
  | |- after _ _ (modify _ _) => apply after_modify
  | |- after _ _ (assert_ _ _) => apply (after_assert _)
  | |- after _ _ (reject_if _ _ _) => apply (after_reject _)
  | |- after _ _ (demand _ _) => apply (after_demand _)
  | H : assert_ ?b ?s = Done ?x ?s' |- _ =>
      assert (s' = s) by (destruct b; by inversion H); subst s'; clear H
  | H : reject_if ?b ?e ?s = Done ?x ?s' |- _ =>
      assert (s' = s) by (destruct b; by inversion H); subst s'; clear H
  | H : get ?s = Done ?x ?s' |- _ => injection H as <- <-
  end).
