(* ===== verification/Util.v ===== *)
(** * Utilities of xx_object.h: power-of-two rounding and [Guid]

    [Calc2n] and [Round2n] size every buffer of the library (in test_uv_4 as
    members of [MemPool], whose block header is here too); [Guid] is the
    128-bit connection identifier that replaces KCP's [conv]. *)

From Stdlib Require Import ZArith Lia.
From stdpp Require Import base numbers list gmap.
From S2P Require Import Prelude.
Open Scope Z_scope.

(** ** Sizes *)

(** [Calc2n]: index of the highest set bit; [assert(n)] rejects zero. *)
Definition Calc2n (n : Z) : option Z :=
  if n =? 0 then None else Some (Z.log2 n).

(** [Round2n]: [size_t(1) << Calc2n(n)], doubled when that is not [n] itself. *)
Definition Round2n (n : Z) : option Z :=
  match Calc2n n with
  | None => None
  | Some c =>
      let rtv := u64 (Z.shiftl 1 c) in
      if rtv =? n then Some n else Some (u64 (Z.shiftl rtv 1))
  end.

Lemma Round2n_pow2 n : 1 <= n < 2 ^ 64 ->
  Round2n n = Some (if 2 ^ Z.log2 n =? n then n else u64 (2 * 2 ^ Z.log2 n)).
Proof.
  intros Hn. unfold Round2n, Calc2n. zbool1; [lia|].
  pose proof (Z.log2_spec n ltac:(lia)). pose proof (Z.log2_nonneg n).
  rewrite !Z.shiftl_mul_pow2, Z.mul_1_l by lia.
  rewrite uint_small by (unfold is_uint; lia).
  destruct (_ =? _); [done|]. do 2 f_equal. lia.
Qed.

(** Least power of two that holds [n], as long as it fits in [size_t]. *)
Lemma Round2n_spec n : 1 <= n <= 2 ^ 63 ->
  exists k, 0 <= k <= 63 /\ Round2n n = Some (2 ^ k) /\ n <= 2 ^ k < 2 * n.
Proof.
  intros Hn. rewrite Round2n_pow2 by rng.
  pose proof (Z.log2_spec n ltac:(lia)) as [L1 L2]. pose proof (Z.log2_nonneg n) as L0.
  assert (Z.log2 n <= 63) by (change 63 with (Z.log2 (2 ^ 63)); apply Z.log2_le_mono; lia).
  rewrite Z.pow_succ_r in L2 by lia.
  destruct (Z.eqb_spec (2 ^ Z.log2 n) n) as [E|E].
  - exists (Z.log2 n). rewrite E. repeat split; lia.
  - assert (Z.log2 n < 63).
    { destruct (decide (Z.log2 n = 63)) as [e|]; [rewrite e in *; lia | lia]. }
    exists (1 + Z.log2 n). rewrite Z.pow_add_r by lia. change (2 ^ 1) with 2.
    repeat split; try lia. f_equal. apply uint_small.
    pose proof (Z.pow_le_mono_r 2 (Z.log2 n) 62 ltac:(lia) ltac:(lia)).
    change (2 ^ 62) with 4611686018427387904 in *. rng.
Qed.

(** Above [2^63] the doubling wraps to zero. *)
Lemma Round2n_wrap n : 2 ^ 63 < n < 2 ^ 64 -> Round2n n = Some 0.
Proof.
  intros Hn. rewrite Round2n_pow2 by rng.
  assert (E : Z.log2 n = 63) by (apply Z.log2_unique; rng).
  rewrite E. zbool1; [rng|]. done.
Qed.

(** ** Memory blocks *)

(** [sizeof(MemHeader)], which precedes every block of the pool. *)
Definition MemHeader_size : Z := 8.

(** ** Guid *)

(** The union is kept by its two 64-bit halves; the [data1..data4] view is
    derived from them (little-endian layout). *)
Record Guid := MkGuid { part1 : Z; part2 : Z }.

#[export] Instance Guid_eq_dec : EqDecision Guid.
Proof. solve_decision. Defined.

Definition Guid_valid (g : Guid) : Prop := is_uint 64 (part1 g) /\ is_uint 64 (part2 g).

(** [explicit Guid(bool gen)] with [gen = false]. *)
Definition Guid_zero : Guid := MkGuid 0 0.

(** [operator==] and [operator!=]. *)
Definition Guid_eqb (a b : Guid) : bool :=
  (part1 a =? part1 b) && (part2 a =? part2 b).
Definition Guid_neqb (a b : Guid) : bool :=
  negb (part1 a =? part1 b) || negb (part2 a =? part2 b).

Definition IsZero (g : Guid) : bool := (part1 g =? 0) && (part2 g =? 0).

(** [memcpy(this, buf, 16)]; reading fewer than 16 bytes is out of bounds. *)
Definition Fill (buf : bytes) : option Guid :=
  match zslice buf 0 8, zslice buf 8 8 with
  | Some a, Some b => Some (MkGuid (le_val a) (le_val b))
  | _, _ => None
  end.

(** The 16 bytes of the object in memory. *)
Definition Guid_bytes (g : Guid) : bytes := le_bytes 8 (part1 g) ++ le_bytes 8 (part2 g).

(** [std::hash<xx::Guid>] on a 64-bit target. *)
Definition Guid_hash (g : Guid) : Z := Z.lxor (part1 g) (part2 g).

Lemma Guid_eqb_spec a b : reflect (a = b) (Guid_eqb a b).
Proof.
  unfold Guid_eqb. destruct a as [a1 a2], b as [b1 b2]; simpl.
  zbool1; zbool1; constructor; congruence.
Qed.

Lemma Guid_neqb_negb a b : Guid_neqb a b = negb (Guid_eqb a b).
Proof. unfold Guid_neqb, Guid_eqb. by rewrite negb_andb. Qed.

Lemma Guid_bytes_len g : zlen (Guid_bytes g) = 16.
Proof. unfold Guid_bytes. by rewrite zlen_app, !le_bytes_zlen. Qed.

Lemma Guid_bytes_byte g : Forall is_byte (Guid_bytes g).
Proof. apply Forall_app; split; apply le_bytes_byte. Qed.

(** Filling a [Guid] from its own bytes (followed by anything) restores it. *)
Lemma Fill_bytes g rest : Guid_valid g -> Fill (Guid_bytes g ++ rest) = Some g.
Proof.
  intros [H1 H2]. unfold Fill, Guid_bytes. rewrite <-app_assoc.
  rewrite (zslice_at _ [] (le_bytes 8 (part1 g)) (le_bytes 8 (part2 g) ++ rest))
    by (rewrite ?le_bytes_zlen; done).
  rewrite (zslice_at _ (le_bytes 8 (part1 g)) (le_bytes 8 (part2 g)) rest)
    by (rewrite ?le_bytes_zlen; done).
  rewrite !le_val_bytes_small by done. by destruct g.
Qed.

Lemma Fill_len buf g : Fill buf = Some g -> 16 <= zlen buf.
Proof.
  unfold Fill, zslice. intros H. zbool; try done; lia.
Qed.
