(* ===== verification/BBuffer.v ===== *)
(** * xx_bbuffer.h: the byte buffer and its scalar codec

    [BBuffer] holds the bytes [buf[0..len)], the capacity of the allocation,
    the read position and the tables used while object graphs are written or
    read.  [BFuncs] is the adapter class of the source: one instance per
    serialisable type; [BFuncsSpec] states what an instance promises to the
    code that composes them.  [size_t] has 64 bits. *)

From Stdlib Require Import ZArith Lia.
From stdpp Require Import base numbers list gmap.
From S2P Require Import Prelude Util.
Open Scope Z_scope.

(** ** Storage *)

Record BBuffer := MkBB {
  data : bytes;               (* buf[0..len) *)
  cap : Z;                    (* allocated bytes *)
  offset : Z;                 (* next byte to read *)
  offsetRoot : Z;             (* position of the current root object *)
  readLengthLimit : Z;        (* 0: no limit *)
  ptrs : gmap Z Z;            (* address -> offset, while writing *)
  objIdxs : gmap Z Z;         (* offset -> object, while reading *)
  strIdxs : gmap Z Z          (* offset -> string, while reading *)
}.

Definition len (bb : BBuffer) : Z := zlen (data bb).

Definition BB_empty : BBuffer := MkBB [] 0 0 0 0 ∅ ∅ ∅.

Definition set_data (d : bytes) (bb : BBuffer) : BBuffer :=
  MkBB d (cap bb) (offset bb) (offsetRoot bb) (readLengthLimit bb)
       (ptrs bb) (objIdxs bb) (strIdxs bb).
Definition set_cap (c : Z) (bb : BBuffer) : BBuffer :=
  MkBB (data bb) c (offset bb) (offsetRoot bb) (readLengthLimit bb)
       (ptrs bb) (objIdxs bb) (strIdxs bb).
Definition set_offset (o : Z) (bb : BBuffer) : BBuffer :=
  MkBB (data bb) (cap bb) o (offsetRoot bb) (readLengthLimit bb)
       (ptrs bb) (objIdxs bb) (strIdxs bb).
Definition set_offsetRoot (o : Z) (bb : BBuffer) : BBuffer :=
  MkBB (data bb) (cap bb) (offset bb) o (readLengthLimit bb)
       (ptrs bb) (objIdxs bb) (strIdxs bb).
Definition set_readLengthLimit (n : Z) (bb : BBuffer) : BBuffer :=
  MkBB (data bb) (cap bb) (offset bb) (offsetRoot bb) n
       (ptrs bb) (objIdxs bb) (strIdxs bb).
Definition set_ptrs (m : gmap Z Z) (bb : BBuffer) : BBuffer :=
  MkBB (data bb) (cap bb) (offset bb) (offsetRoot bb) (readLengthLimit bb)
       m (objIdxs bb) (strIdxs bb).
Definition set_objIdxs (m : gmap Z Z) (bb : BBuffer) : BBuffer :=
  MkBB (data bb) (cap bb) (offset bb) (offsetRoot bb) (readLengthLimit bb)
       (ptrs bb) m (strIdxs bb).
Definition set_strIdxs (m : gmap Z Z) (bb : BBuffer) : BBuffer :=
  MkBB (data bb) (cap bb) (offset bb) (offsetRoot bb) (readLengthLimit bb)
       (ptrs bb) (objIdxs bb) m.

(** [Buffer::RemoveFront]. *)
Definition RemoveFront (n : Z) : M BBuffer unit := fun bb =>
  if n <=? len bb then
    if n =? 0 then Done tt bb
    else Done tt (set_data (drop (Z.to_nat n) (data bb)) bb)
  else Undef.

(** [BBuffer::Reset]: replace the buffer that is read. *)
Definition Reset (buf : bytes) (c off : Z) (bb : BBuffer) : BBuffer :=
  set_offset off (set_cap c (set_data buf bb)).

(** [List<uint8_t>::Reserve]: grow to the next power of two; copying the [len]
    old bytes into a smaller allocation would overrun it. *)
Definition Reserve (c : Z) : M BBuffer unit := fun bb =>
  if c <=? cap bb then Done tt bb
  else match Round2n c with
       | None => Undef
       | Some n => if n <? len bb then Undef else Done tt (set_cap n bb)
       end.

(** [memcpy(buf + len, bs, n); len += n], undefined past the allocation. *)
Definition append (bs : bytes) : M BBuffer unit := fun bb =>
  if len bb + zlen bs <=? cap bb then Done tt (set_data (data bb ++ bs) bb)
  else Undef.

(** [buf[len++] = b]. *)
Definition push (b : Z) : M BBuffer unit := append [b].

(** [List<uint8_t>::AddRange]. *)
Definition AddRange (bs : bytes) : M BBuffer unit :=
  bb ← get; _ ← Reserve (u64 (len bb + zlen bs)); append bs.

(** [memcpy(dst, buf + offset, n); offset += n], undefined out of the data. *)
Definition consume (n : Z) : M BBuffer bytes :=
  bb ← get;
  bs ← demand (zslice (data bb) (offset bb) n);
  _ ← put (set_offset (u64 (offset bb + n)) bb);
  mret bs.

(** ** Integer types *)

Record ity := Ity { bits : Z; signed : bool }.
Definition U8 := Ity 8 false.
Definition I8 := Ity 8 true.
Definition U16 := Ity 16 false.
Definition I16 := Ity 16 true.
Definition U32 := Ity 32 false.
Definition I32 := Ity 32 true.
Definition U64 := Ity 64 false.
Definition I64 := Ity 64 true.

Definition sizeof (t : ity) : Z := bits t / 8.
Definition in_range (t : ity) (v : Z) : Prop :=
  if signed t then is_sint (bits t) v else is_uint (bits t) v.
Definition std_ity (t : ity) : Prop :=
  bits t = 8 \/ bits t = 16 \/ bits t = 32 \/ bits t = 64.

(** Conversion of a bit pattern to the type. *)
Definition of_bits (t : ity) (u : Z) : Z :=
  if signed t then sint (bits t) u else uint (bits t) u.

(** [WriteFixed], [ReadFixed]: the integer as it lies in memory. *)
Definition WriteFixed (t : ity) (v : Z) : M BBuffer unit :=
  bb ← get;
  _ ← Reserve (u64 (len bb + sizeof t));
  append (le_bytes (Z.to_nat (sizeof t)) (uint (bits t) v)).

Definition ReadFixed (t : ity) : M BBuffer Z :=
  bb ← get;
  _ ← reject_if (len bb <? u64 (offset bb + sizeof t)) (-1);
  bs ← consume (sizeof t);
  mret (of_bits t (le_val bs)).

(** ** Variable-length integers *)

Definition ZigZagEncode (w v : Z) : Z :=
  uint w (Z.lxor (Z.shiftl v 1) (Z.shiftr v (w - 1))).
Definition ZigZagDecode (w u : Z) : Z :=
  sint w (Z.lxor (sint w (Z.shiftr u 1)) (- sint w (Z.land u 1))).

(** [while (u >= 1 << 7) { buf[len++] = ...; u >>= 7; } buf[len++] = u] *)
Fixpoint var_write_loop (fuel : nat) (u : Z) : M BBuffer unit :=
  match fuel with
  | O => undef
  | S fuel =>
      if 2 ^ 7 <=? u then
        _ ← push (u8 (Z.lor (Z.land u 127) 128));
        var_write_loop fuel (Z.shiftr u 7)
      else push (u8 u)
  end.

Definition WriteVarIntger (t : ity) (v : Z) : M BBuffer unit :=
  let u := if signed t then ZigZagEncode (bits t) v else uint (bits t) v in
  bb ← get;
  _ ← Reserve (u64 (len bb + sizeof t + 1));
  var_write_loop (Z.to_nat (bits t)) u.

(** The [for] loop of [ReadVarInteger].  [(b & 0x7Fu) << shift] is an
    [unsigned int] shift: undefined from 32 bits on, and its result is cut to
    32 bits whatever the width of [T]. *)
Fixpoint var_read_loop (fuel : nat) (t : ity) (shift u : Z) : M BBuffer Z :=
  match fuel with
  | O => undef
  | S fuel =>
      if shift <? sizeof t * 8 then
        bb ← get;
        _ ← reject_if (offset bb =? len bb) (-9);
        b ← demand (znth (data bb) (offset bb));
        _ ← put (set_offset (u64 (offset bb + 1)) bb);
        _ ← assert_ (shift <? 32);
        let u := uint (bits t) (Z.lor u (u32 (Z.shiftl (Z.land b 127) shift))) in
        if Z.land b 128 =? 0
        then mret (if signed t then ZigZagDecode (bits t) u else u)
        else var_read_loop fuel t (shift + 7) u
      else fail (-10)
  end.

Definition ReadVarInteger (t : ity) : M BBuffer Z :=
  var_read_loop (Z.to_nat (bits t)) t 0 0.

(** ** The adapter class *)

Class BFuncs (T : Type) := {
  WriteTo : T -> M BBuffer unit;
  ReadFrom : M BBuffer T
}.

(** Values of an integer type. *)
Record num (t : ity) := Num { num_val : Z }.
Arguments Num {t} num_val.
Arguments num_val {t}.

(** One byte: copied.  Two bytes and more: variable length. *)
#[export] Instance BFuncs_num t : BFuncs (num t) := {
  WriteTo v :=
    if sizeof t =? 1 then
      bb ← get; _ ← Reserve (u64 (len bb + sizeof t));
      append [uint 8 (num_val v)]
    else WriteVarIntger t (num_val v);
  ReadFrom :=
    if sizeof t =? 1 then
      bb ← get;
      _ ← reject_if (len bb <? u64 (offset bb + sizeof t)) (-12);
      bs ← consume 1;
      mret (Num (of_bits t (le_val bs)))
    else x ← ReadVarInteger t; mret (Num x)
}.

(** [float]: its four bytes. *)
Record float32 := Float32 { f32_bits : Z }.

#[export] Instance BFuncs_float : BFuncs float32 := {
  WriteTo v :=
    bb ← get; _ ← Reserve (u64 (len bb + 4)); append (le_bytes 4 (f32_bits v));
  ReadFrom :=
    bb ← get;
    _ ← reject_if (len bb <? u64 (offset bb + 4)) (-12);
    bs ← consume 4;
    mret (Float32 (le_val bs))
}.

(** [std::string]: length, then the characters. *)
Record xstring := XString { chars : bytes }.

#[export] Instance BFuncs_string : BFuncs xstring := {
  WriteTo v :=
    _ ← WriteTo (Num (t := U64) (zlen (chars v)));
    AddRange (chars v);
  ReadFrom :=
    n ← ReadFrom (T := num U64);
    bb ← get;
    _ ← reject_if (negb (readLengthLimit bb =? 0) &&
                   (readLengthLimit bb <? num_val n)) (-16);
    _ ← reject_if (len bb <? u64 (offset bb + num_val n)) (-17);
    bs ← consume (num_val n);
    mret (XString bs)
}.

(** [Guid]: its sixteen bytes. *)
#[export] Instance BFuncs_Guid : BFuncs Guid := {
  WriteTo g := AddRange (Guid_bytes g);
  ReadFrom :=
    bb ← get;
    _ ← reject_if (len bb <? u64 (offset bb + 16)) (-1);
    bs ← consume 16;
    demand (Fill bs)
}.

(** ** [double]

    A [double] is its 64-bit pattern. *)

Record double := Double { d_bits : Z }.

#[export] Instance double_eq_dec : EqDecision double.
Proof. solve_decision. Defined.

Definition d_sign (d : double) : Z := Z.shiftr (d_bits d) 63.
Definition d_expo (d : double) : Z := Z.land (Z.shiftr (d_bits d) 52) 2047.
Definition d_mant (d : double) : Z := Z.land (d_bits d) (2 ^ 52 - 1).

Definition d_is_zero (d : double) : bool := (d_expo d =? 0) && (d_mant d =? 0).
Definition d_is_nan (d : double) : bool := (d_expo d =? 2047) && negb (d_mant d =? 0).
Definition d_infinity : double := Double (2047 * 2 ^ 52).
Definition d_neg_infinity : double := Double (2 ^ 63 + 2047 * 2 ^ 52).
Definition d_quiet_NaN : double := Double (2047 * 2 ^ 52 + 2 ^ 51).

(** [a == b] on doubles. *)
Definition d_eq (a b : double) : bool :=
  negb (d_is_nan a) && negb (d_is_nan b) &&
  ((d_bits a =? d_bits b) || (d_is_zero a && d_is_zero b)).

(** Truncation towards zero of a finite double. *)
Definition d_trunc (d : double) : Z :=
  let m := if d_expo d =? 0 then d_mant d else d_mant d + 2 ^ 52 in
  let e := if d_expo d =? 0 then -1074 else d_expo d - 1075 in
  let a := if 0 <=? e then m * 2 ^ e else m / 2 ^ (- e) in
  if d_sign d =? 0 then a else - a.

(** [(double)i] for a 32-bit integer: exact. *)
Definition d_of_int (i : Z) : double :=
  if i =? 0 then Double 0 else
  let a := Z.abs i in
  let e := Z.log2 a in
  Double ((if i <? 0 then 2 ^ 63 else 0) + (e + 1023) * 2 ^ 52 + (a - 2 ^ e) * 2 ^ (52 - e)).

(** [(int32_t)d]: out of range the result is the target's; any [int32_t]. *)
Class FloatToInt := {
  cvt_out_of_range : double -> Z;
  cvt_out_of_range_int32 : forall d, is_sint 32 (cvt_out_of_range d)
}.

Definition d_to_int32 `{FloatToInt} (d : double) : Z :=
  if decide (is_sint 32 (d_trunc d)) then d_trunc d else cvt_out_of_range d.

Definition double_WriteTo `{FloatToInt} (v : double) : M BBuffer unit :=
  bb ← get;
  _ ← Reserve (u64 (len bb + 8 + 1));
  if d_is_zero v then push 0
  else if d_is_nan v then push 1
  else if d_eq v d_neg_infinity then push 2
  else if d_eq v d_infinity then push 3
  else
    let i := d_to_int32 v in
    if d_eq v (d_of_int i) then
      _ ← push 4; WriteVarIntger I32 i
    else
      append (5 :: le_bytes 8 (d_bits v)).

Definition double_ReadFrom : M BBuffer double :=
  bb ← get;
  _ ← reject_if (len bb <=? offset bb) (-13);
  tag ← demand (znth (data bb) (offset bb));
  _ ← put (set_offset (u64 (offset bb + 1)) bb);
  if tag =? 0 then mret (Double 0)
  else if tag =? 1 then mret d_quiet_NaN
  else if tag =? 2 then mret d_neg_infinity
  else if tag =? 3 then mret d_infinity
  else if tag =? 4 then i ← ReadFrom (T := num I32); mret (d_of_int (num_val i))
  else if tag =? 5 then
    bb ← get;
    _ ← reject_if (len bb <? u64 (offset bb + 8)) (-14);
    bs ← consume 8;
    mret (Double (le_val bs))
  else fail (-15).

#[export] Instance BFuncs_double `{FloatToInt} : BFuncs double := {
  WriteTo := double_WriteTo;
  ReadFrom := double_ReadFrom
}.

(** [BBuffer::ToBBuffer] and [FromBBuffer]: a nested buffer is its length and
    its bytes. *)
Definition BBuffer_ToBBuffer (self : bytes) : M BBuffer unit :=
  _ ← WriteTo (Num (t := U64) (zlen self));
  AddRange self.

Definition BBuffer_FromBBuffer : M BBuffer bytes :=
  n ← ReadFrom (T := num U64);
  bb ← get;
  _ ← reject_if (len bb <? u64 (offset bb + num_val n)) (-11);
  consume (num_val n).

(** ** Writing: what a successful write does *)

Definition bb_wf (bb : BBuffer) : Prop := len bb <= cap bb <= 2 ^ 63.

(** [wrote bs bb bb']: [bs] was appended, and nothing but the capacity
    changed otherwise. *)
Definition wrote (bs : bytes) (bb bb' : BBuffer) : Prop :=
  bb' = set_cap (cap bb') (set_data (data bb ++ bs) bb) /\ bb_wf bb'.

(** There is room for [n] more bytes in the address space. *)
Definition room (n : Z) (bb : BBuffer) : Prop := len bb + n <= 2 ^ 62.

Lemma wrote_data bs bb bb' : wrote bs bb bb' -> data bb' = data bb ++ bs.
Proof. by intros [-> _]. Qed.
Lemma wrote_len bs bb bb' : wrote bs bb bb' -> len bb' = len bb + zlen bs.
Proof. intros H. unfold len. by rewrite (wrote_data _ _ _ H), zlen_app. Qed.
Lemma wrote_wf bs bb bb' : wrote bs bb bb' -> bb_wf bb'.
Proof. by intros [_ ?]. Qed.
Lemma wrote_ptrs bs bb bb' : wrote bs bb bb' -> ptrs bb' = ptrs bb.
Proof. by intros [-> _]. Qed.
Lemma wrote_offsetRoot bs bb bb' : wrote bs bb bb' -> offsetRoot bb' = offsetRoot bb.
Proof. by intros [-> _]. Qed.

Lemma wrote_trans a b bb bb1 bb2 :
  wrote a bb bb1 -> wrote b bb1 bb2 -> wrote (a ++ b) bb bb2.
Proof.
  intros [E1 W1] [E2 W2]. split; [|done]. rewrite E2, E1.
  unfold set_cap, set_data; simpl. by rewrite app_assoc.
Qed.

Lemma Reserve_spec c bb :
  bb_wf bb -> 0 <= c <= 2 ^ 62 ->
  exists n, Reserve c bb = Done tt (set_cap n bb) /\ c <= n /\ cap bb <= n <= 2 ^ 63.
Proof.
  intros [W1 W2] Hc. unfold Reserve. destruct (Z.leb_spec c (cap bb)).
  - exists (cap bb). destruct bb; simpl in *. done.
  - pose proof (zlen_nonneg (data bb)). unfold len in *.
    destruct (Round2n_spec c ltac:(change (2^62) with 4611686018427387904 in *; rng))
      as (k & Hk & -> & Hb).
    destruct (Z.ltb_spec (2 ^ k) (zlen (data bb))); [lia|].
    eexists. split; [done|]. split; [lia|]. split; [lia|].
    apply Z.pow_le_mono_r; lia.
Qed.

(** Reserving and then appending within what was reserved. *)
Lemma Reserve_append c bs bb :
  bb_wf bb -> 0 <= c <= 2 ^ 62 -> len bb + zlen bs <= c ->
  exists bb', (_ ← Reserve c; append bs) bb = Done tt bb' /\ wrote bs bb bb'.
Proof.
  intros W Hc Hl. destruct (Reserve_spec c bb W Hc) as (n & E & Hn & Hb).
  erewrite bind_done by exact E. unfold append.
  change (len (set_cap n bb)) with (len bb). change (cap (set_cap n bb)) with n.
  destruct (Z.leb_spec (len bb + zlen bs) n); [|lia].
  eexists. split; [done|]. split; [done|].
  unfold bb_wf, len in *. simpl. rewrite zlen_app. lia.
Qed.

Lemma u64_small z : 0 <= z <= 2 ^ 62 -> u64 z = z.
Proof. intros. apply uint_small. change (2^62) with 4611686018427387904 in *. rng. Qed.

Lemma room_len bb n : room n bb -> 0 <= n -> 0 <= len bb /\ len bb + n <= 2 ^ 62.
Proof. intros. split; [apply zlen_nonneg | done]. Qed.

Lemma AddRange_spec bs bb :
  bb_wf bb -> room (zlen bs) bb ->
  exists bb', AddRange bs bb = Done tt bb' /\ wrote bs bb bb'.
Proof.
  intros W R. pose proof (zlen_nonneg bs). destruct (room_len _ _ R ltac:(lia)).
  unfold AddRange. erewrite bind_done by done.
  rewrite u64_small by lia. apply Reserve_append; [done|lia|lia].
Qed.

Lemma push_spec b bb :
  bb_wf bb -> len bb + 1 <= cap bb ->
  push b bb = Done tt (set_data (data bb ++ [b]) bb).
Proof.
  intros W H. unfold push, append. change (zlen [b]) with 1.
  by destruct (Z.leb_spec (len bb + 1) (cap bb)); [|lia].
Qed.

(** ** Variable-length integers: the byte strings *)

(** Base-128 digits, least significant first, high bit set on all but the last. *)
Fixpoint var_enc (fuel : nat) (u : Z) : bytes :=
  match fuel with
  | O => []
  | S fuel => if u <? 128 then [u] else (128 + u mod 128) :: var_enc fuel (u / 128)
  end.

Lemma pow128_S k : 2 ^ (7 * Z.of_nat (S k)) = 128 * 2 ^ (7 * Z.of_nat k).
Proof.
  replace (7 * Z.of_nat (S k)) with (7 + 7 * Z.of_nat k) by lia.
  rewrite Z.pow_add_r by lia. done.
Qed.

Lemma var_enc_len k u : zlen (var_enc k u) <= Z.of_nat k.
Proof.
  revert u. induction k as [|k IH]; intros u; cbn [var_enc]; [done|].
  destruct (u <? 128); autorewrite with xx; [lia|]. specialize (IH (u / 128)). lia.
Qed.

Lemma var_enc_fuel k n u :
  (k <= n)%nat -> 0 <= u < 2 ^ (7 * Z.of_nat k) -> (1 <= k)%nat ->
  var_enc n u = var_enc k u.
Proof.
  revert n u. induction k as [|k IH]; intros n u Hn Hu Hk; [lia|].
  destruct n as [|n]; [lia|]. cbn [var_enc]. rewrite pow128_S in Hu.
  destruct (Z.ltb_spec u 128); [done|]. f_equal.
  assert (0 <= u / 128 < 2 ^ (7 * Z.of_nat k)).
  { split; [apply Z.div_pos; lia | apply Z.div_lt_upper_bound; lia]. }
  apply IH; [lia|done|]. destruct k; [|lia]. simpl in *. lia.
Qed.

Lemma var_enc_bytes k u : 0 <= u -> Forall is_byte (var_enc k u).
Proof.
  revert u. induction k as [|k IH]; intros u Hu; cbn [var_enc]; [constructor|].
  pose proof (Z.mod_pos_bound u 128 ltac:(lia)).
  destruct (Z.ltb_spec u 128); constructor; try rng; [constructor|].
  apply IH, Z.div_pos; lia.
Qed.

Lemma low7 u : u8 (Z.lor (Z.land u 127) 128) = 128 + u mod 128.
Proof.
  pose proof (Z.mod_pos_bound u 128 ltac:(lia)).
  change 127 with (2 ^ 7 - 1). rewrite land_ones_mod by lia.
  change 128 with (Z.shiftl 1 7) at 1. rewrite lor_shiftl_add by (try rng; lia).
  change (2 ^ 7) with 128. rewrite uint_small; [lia|rng].
Qed.

Lemma shiftr7 u : Z.shiftr u 7 = u / 128.
Proof. by rewrite Z.shiftr_div_pow2 by lia. Qed.

(** The loop writes the digits, if they fit in the allocation. *)
Lemma var_write_loop_spec k fuel u bb :
  (k <= fuel)%nat -> (1 <= k)%nat -> 0 <= u < 2 ^ (7 * Z.of_nat k) ->
  bb_wf bb -> len bb + zlen (var_enc k u) <= cap bb ->
  var_write_loop fuel u bb = Done tt (set_data (data bb ++ var_enc k u) bb).
Proof.
  revert fuel u bb. induction k as [|k IH]; intros fuel u bb Hf Hk Hu W Hc; [lia|].
  destruct fuel as [|fuel]; [lia|]. cbn [var_write_loop var_enc] in *.
  change (2 ^ 7) with 128. rewrite pow128_S in Hu.
  rewrite Z.ltb_antisym in *. destruct (Z.leb_spec 128 u); cbn [negb] in *.
  - rewrite low7, shiftr7. rewrite zlen_cons in Hc.
    pose proof (zlen_nonneg (var_enc k (u / 128))).
    erewrite bind_done by (apply push_spec; [done|lia]).
    assert (0 <= u / 128 < 2 ^ (7 * Z.of_nat k)).
    { split; [apply Z.div_pos; lia | apply Z.div_lt_upper_bound; lia]. }
    destruct k as [|k]; [simpl in *; lia|].
    rewrite IH; [unfold set_data; simpl; by rewrite <-app_assoc | lia | lia | done | |];
      unfold bb_wf, len in *; cbn [data cap set_data]; rewrite ?zlen_app, ?zlen_cons, ?zlen_nil; lia.
  - rewrite uint_small by rng. rewrite push_spec; [done|done|].
    change (zlen [u]) with 1 in Hc. lia.
Qed.

Lemma Reserve_var_write c u k fuel bb :
  bb_wf bb -> 0 <= c <= 2 ^ 62 -> len bb + zlen (var_enc k u) <= c ->
  (k <= fuel)%nat -> (1 <= k)%nat -> 0 <= u < 2 ^ (7 * Z.of_nat k) ->
  exists bb', (_ ← Reserve c; var_write_loop fuel u) bb = Done tt bb' /\
              wrote (var_enc k u) bb bb'.
Proof.
  intros W Hc Hl Hf Hk Hu. destruct (Reserve_spec c bb W Hc) as (n & E & Hn & Hb).
  erewrite bind_done by exact E.
  assert (bb_wf (set_cap n bb)) by (unfold bb_wf, len in *; simpl; lia).
  rewrite (var_write_loop_spec k); [|done..|unfold len in *; simpl; lia].
  eexists. split; [done|]. split; [done|].
  unfold bb_wf, len in *; simpl; rewrite zlen_app. lia.
Qed.

(** ** ZigZag *)

Lemma ZigZagEncode_spec w v : 1 <= w -> is_sint w v ->
  ZigZagEncode w v = if v <? 0 then - 2 * v - 1 else 2 * v.
Proof.
  intros Hw [H1 H2]. unfold ZigZagEncode. pose proof (pow2_half w Hw).
  rewrite Z.shiftl_mul_pow2, Z.shiftr_div_pow2 by lia. change (2 ^ 1) with 2.
  destruct (Z.ltb_spec v 0).
  - rewrite <-(Z.div_unique v (2 ^ (w - 1)) (-1) (v + 2 ^ (w - 1))) by lia.
    rewrite Z.lxor_m1_r.
    unfold Z.lnot. rewrite uint_small; unfold is_uint; lia.
  - rewrite Z.div_small by lia. rewrite Z.lxor_0_r. rewrite uint_small; unfold is_uint; lia.
Qed.

Lemma ZigZagDecode_spec w u : 2 <= w -> is_uint w u ->
  ZigZagDecode w u = if Z.even u then u / 2 else - (u / 2) - 1.
Proof.
  intros Hw [H1 H2]. unfold ZigZagDecode. pose proof (pow2_half w ltac:(lia)).
  rewrite Z.shiftr_div_pow2 by lia. change (2 ^ 1) with 2.
  change 1 with (2 ^ 1 - 1) at 1. rewrite land_ones_mod by lia. change (2 ^ 1) with 2.
  rewrite Zmod_even. pose proof (Z.div_mod u 2 ltac:(lia)).
  pose proof (Z.mod_pos_bound u 2 ltac:(lia)).
  rewrite (sint_small w (u / 2)) by (unfold is_sint; lia).
  destruct (Z.even u) eqn:Ev.
  - rewrite (sint_small w 0) by (unfold is_sint; lia). rewrite Z.lxor_0_r.
    rewrite sint_small; unfold is_sint; lia.
  - assert (1 < 2 ^ w).
    { apply Z.pow_gt_1; lia. }
    assert (E : - sint w 1 = -1).
    { rewrite sint_small; [done|lia|]. unfold is_sint.
      assert (1 < 2 ^ (w - 1)) by (apply Z.pow_gt_1; lia). lia. }
    rewrite E.
    rewrite Z.lxor_m1_r. unfold Z.lnot. rewrite sint_small; unfold is_sint; lia.
Qed.

Lemma ZigZagEncode_range w v : 1 <= w -> is_sint w v -> is_uint w (ZigZagEncode w v).
Proof. intros. unfold ZigZagEncode. apply uint_range. lia. Qed.

Lemma ZigZag_encode_decode w v : 2 <= w -> is_sint w v ->
  ZigZagDecode w (ZigZagEncode w v) = v.
Proof.
  intros Hw Hv. rewrite ZigZagDecode_spec by (try apply ZigZagEncode_range; done || lia).
  rewrite ZigZagEncode_spec by (done || lia). destruct (Z.ltb_spec v 0).
  - replace (-2 * v - 1) with (1 + 2 * (- v - 1)) by lia.
    rewrite Z.even_add_mul_2. simpl Z.even.
    rewrite Z.mul_comm, Z.div_add by lia. change (1 / 2) with 0. lia.
  - rewrite Z.even_mul. simpl. rewrite Z.mul_comm, Z.div_mul by lia. done.
Qed.

(** ** Reading *)

(** The value that the reader makes of the collected bits. *)
Definition of_var (t : ity) (u : Z) : Z :=
  if signed t then ZigZagDecode (bits t) u else u.

(** The number the writer puts on the wire. *)
Definition to_var (t : ity) (v : Z) : Z :=
  if signed t then ZigZagEncode (bits t) v else uint (bits t) v.

Lemma of_to_var t v : std_ity t -> in_range t v -> of_var t (to_var t v) = v.
Proof.
  unfold of_var, to_var, in_range, std_ity. intros Ht Hv. destruct (signed t).
  - apply ZigZag_encode_decode; [lia|done].
  - by apply uint_small.
Qed.

Lemma to_var_range t v : std_ity t -> in_range t v -> is_uint (bits t) (to_var t v).
Proof.
  unfold to_var, std_ity. intros Ht Hv. destruct (signed t) eqn:E.
  - apply ZigZagEncode_range; [lia|]. unfold in_range in Hv. by rewrite E in Hv.
  - apply uint_range. lia.
Qed.

(** Bits a variable-length integer of type [t] can carry through the reader. *)
Definition var_width (t : ity) : Z := Z.min (bits t) 32.

Lemma sizeof_bits t : std_ity t -> sizeof t * 8 = bits t.
Proof. unfold sizeof, std_ity. intros [->|[->|[->| ->]]]; done. Qed.

Lemma high_bit b : is_byte b -> (Z.land b 128 =? 0) = (b <? 128).
Proof.
  intros Hb.
  assert (E : Z.land b 128 = 128 * (b / 128)).
  { assert (0 <= b / 128 < 2).
    { split; [apply Z.div_pos; rng | apply Z.div_lt_upper_bound; rng]. }
    pose proof (Z.div_mod b 128 ltac:(lia)) as Hd.
    pose proof (Z.mod_pos_bound b 128 ltac:(lia)) as Hm.
    assert (Hl : b = Z.lor (b mod 128) (Z.shiftl (b / 128) 7)).
    { rewrite lor_shiftl_add; change (2 ^ 7) with 128; lia. }
    rewrite Hl at 1. rewrite Z.land_lor_distr_l.
    assert (Z.land (b mod 128) 128 = 0) as ->.
    { change 128 with (Z.shiftl 1 7) at 2. apply Z.bits_inj'. intros i Hi.
      rewrite Z.land_spec, Z.bits_0, Z.shiftl_spec by done.
      destruct (decide (i < 7)); [by rewrite (Z.testbit_neg_r 1), andb_false_r by lia|].
      change 128 with (2 ^ 7). by rewrite Z.mod_pow2_bits_high by lia. }
    assert (b / 128 = 0 \/ b / 128 = 1) as [->| ->] by lia; done. }
  rewrite E. pose proof (Z.div_mod b 128 ltac:(lia)).
  pose proof (Z.mod_pos_bound b 128 ltac:(lia)).
  zbool; try done; rng.
Qed.

(** One step of the reading loop on a byte [b]. *)
Lemma var_read_step fuel t s a b bb pre post :
  std_ity t -> 0 <= s < var_width t -> is_byte b ->
  data bb = pre ++ b :: post -> offset bb = zlen pre -> len bb <= 2 ^ 62 ->
  var_read_loop (S fuel) t s a bb =
    let u := uint (bits t) (Z.lor a (u32 (Z.shiftl (b mod 128) s))) in
    (if b <? 128 then mret (of_var t u) else var_read_loop fuel t (s + 7) u)
      (set_offset (zlen pre + 1) bb).
Proof.
  intros Ht Hs Hb Hd Ho Hl. cbn [var_read_loop]. rewrite sizeof_bits by done.
  unfold var_width in Hs. unfold len in *. rewrite Hd in Hl.
  rewrite zlen_app, zlen_cons in Hl. pose proof (zlen_nonneg post).
  pose proof (zlen_nonneg pre).
  destruct (Z.ltb_spec s (bits t)); [|lia].
  erewrite bind_done by done. unfold len.
  rewrite Hd, Ho, zlen_app, zlen_cons. destruct (Z.eqb_spec (zlen pre) (zlen pre + (1 + zlen post))); [lia|].
  erewrite bind_done by done. rewrite znth_mid.
  erewrite bind_done by done. rewrite u64_small by lia.
  erewrite bind_done by done. destruct (Z.ltb_spec s 32); [|lia].
  erewrite bind_done by done. cbv zeta.
  change 127 with (2 ^ 7 - 1). rewrite land_ones_mod by lia. change (2 ^ 7) with 128.
  rewrite high_bit by done. destruct (b <? 128); done.
Qed.

(** Collecting a digit: no bit is lost while the value fits. *)
Lemma collect_digit t s a d :
  std_ity t -> 0 <= s -> 0 <= a < 2 ^ s -> 0 <= d -> a + 2 ^ s * d < 2 ^ var_width t ->
  uint (bits t) (Z.lor a (u32 (Z.shiftl d s))) = a + 2 ^ s * d.
Proof.
  intros Ht Hs Ha Hd Hb. unfold var_width in Hb.
  assert (L1 : 2 ^ Z.min (bits t) 32 <= 2 ^ bits t).
  { apply Z.pow_le_mono_r; unfold std_ity in Ht; lia. }
  assert (L2 : 2 ^ Z.min (bits t) 32 <= 2 ^ 32) by (apply Z.pow_le_mono_r; lia).
  assert (0 <= 2 ^ s * d) by (apply Z.mul_nonneg_nonneg; lia).
  rewrite (uint_small 32) by (rewrite Z.shiftl_mul_pow2 by done; unfold is_uint; lia).
  rewrite lor_shiftl_add by done. apply uint_small. unfold is_uint. lia.
Qed.

Lemma shift_in_range t s r :
  128 <= r -> 0 <= s -> 2 ^ s * r < 2 ^ var_width t -> s + 7 < var_width t.
Proof.
  intros Hr Hs Hb. apply (Z.pow_lt_mono_r_iff 2); [lia| |].
  - destruct (decide (0 <= var_width t)); [done|].
    rewrite (Z.pow_neg_r 2 (var_width t)) in Hb by lia.
    pose proof (Z.pow_pos_nonneg 2 s ltac:(lia) Hs). nia.
  - rewrite Z.pow_add_r by lia. change (2 ^ 7) with 128.
    pose proof (Z.pow_pos_nonneg 2 s ltac:(lia) Hs). nia.
Qed.

Lemma var_read_loop_spec k fuel t s a r bb pre post :
  std_ity t -> (k <= fuel)%nat -> (1 <= k)%nat ->
  0 <= r < 2 ^ (7 * Z.of_nat k) ->
  0 <= s < var_width t -> 0 <= a < 2 ^ s -> a + 2 ^ s * r < 2 ^ var_width t ->
  data bb = pre ++ var_enc k r ++ post -> offset bb = zlen pre -> len bb <= 2 ^ 62 ->
  var_read_loop fuel t s a bb =
    Done (of_var t (a + 2 ^ s * r)) (set_offset (zlen pre + zlen (var_enc k r)) bb).
Proof.
  intros Ht. revert fuel s a r bb pre.
  induction k as [|k IH]; intros fuel s a r bb pre Hf Hk Hr Hs Ha Hb Hd Ho Hl; [lia|].
  destruct fuel as [|fuel]; [lia|]. rewrite pow128_S in Hr. cbn [var_enc] in *.
  destruct (Z.ltb_spec r 128).
  - rewrite (var_read_step _ _ _ _ r _ pre post) by (try done; rng). cbv zeta.
    rewrite Z.mod_small by lia. rewrite collect_digit by (done || lia).
    destruct (Z.ltb_spec r 128); [done|lia].
  - pose proof (Z.mod_pos_bound r 128 ltac:(lia)).
    assert (Hdm : r = 128 * (r / 128) + r mod 128) by (apply Z.div_mod; lia).
    pose proof (Z.pow_pos_nonneg 2 s ltac:(lia) ltac:(lia)).
    assert (0 <= r / 128 < 2 ^ (7 * Z.of_nat k)).
    { split; [apply Z.div_pos; lia | apply Z.div_lt_upper_bound; lia]. }
    rewrite (var_read_step _ _ _ _ (128 + r mod 128) _ pre (var_enc k (r / 128) ++ post))
      by (try done; rng). cbv zeta.
    replace ((128 + r mod 128) mod 128) with (r mod 128)
      by (rewrite <-Zplus_mod_idemp_l, Z_mod_same_full, Z.add_0_l, Z.mod_mod by lia; done).
    rewrite collect_digit by (try done; nia).
    destruct (Z.ltb_spec (128 + r mod 128) 128); [lia|].
    assert (s + 7 < var_width t) by (apply (shift_in_range t s r); lia).
    assert (E7 : 2 ^ (s + 7) = 128 * 2 ^ s).
    { rewrite Z.pow_add_r by lia. change (2 ^ 7) with 128. lia. }
    rewrite (IH fuel (s + 7) _ (r / 128) _ (pre ++ [128 + r mod 128])).
    + f_equal; [f_equal; rewrite E7; nia|].
      rewrite zlen_app, !zlen_cons, zlen_nil. unfold set_offset; simpl. f_equal. lia.
    + lia.
    + destruct k; [simpl in *; lia|lia].
    + done.
    + lia.
    + rewrite E7. split; nia.
    + rewrite E7. nia.
    + simpl. rewrite Hd, <-app_assoc. done.
    + simpl. rewrite zlen_app. done.
    + done.
Qed.

(** ** What an adapter promises *)

(** [enc v] is the byte string of [v], [wire_ok v] says that the format can
    carry [v], and [norm v] is the value that comes back. *)
Class BFuncsSpec (T : Type) `{BFuncs T} := {
  enc : T -> bytes;
  wire_ok : T -> Prop;
  norm : T -> T;
  enc_bytes v : wire_ok v -> Forall is_byte (enc v);
  write_spec v bb :
    wire_ok v -> bb_wf bb -> room (zlen (enc v) + 16) bb ->
    exists bb', WriteTo v bb = Done tt bb' /\ wrote (enc v) bb bb';
  read_spec v bb pre post :
    wire_ok v -> data bb = pre ++ enc v ++ post -> offset bb = zlen pre ->
    len bb <= 2 ^ 62 -> readLengthLimit bb = 0 ->
    ReadFrom bb = Done (norm v) (set_offset (zlen pre + zlen (enc v)) bb)
}.

Lemma consume_spec bb pre bs post :
  data bb = pre ++ bs ++ post -> offset bb = zlen pre -> len bb <= 2 ^ 62 ->
  consume (zlen bs) bb = Done bs (set_offset (zlen pre + zlen bs) bb).
Proof.
  intros Hd Ho Hl. unfold consume. erewrite bind_done by done.
  rewrite (zslice_at _ pre bs post) by done. erewrite bind_done by done.
  erewrite bind_done by done. rewrite Ho, u64_small; [done|].
  unfold len in Hl. rewrite Hd, !zlen_app in Hl.
  pose proof (zlen_nonneg pre); pose proof (zlen_nonneg bs); pose proof (zlen_nonneg post). lia.
Qed.

(** The bounds check of a reader passes when the bytes are there. *)
Lemma check_spec bb pre bs post (code : Z) :
  data bb = pre ++ bs ++ post -> offset bb = zlen pre -> len bb <= 2 ^ 62 ->
  reject_if (len bb <? u64 (offset bb + zlen bs)) code bb = Done tt bb.
Proof.
  intros Hd Ho Hl. unfold len in *. rewrite Ho, Hd in *. rewrite !zlen_app in *.
  pose proof (zlen_nonneg pre); pose proof (zlen_nonneg bs); pose proof (zlen_nonneg post).
  rewrite u64_small by lia. by destruct (Z.ltb_spec (zlen pre + (zlen bs + zlen post)) (zlen pre + zlen bs)); [lia|].
Qed.

(** ** The instances *)

Class StdIty (t : ity) := std_ity_pf : std_ity t.
#[export] Instance StdIty_8 s : StdIty (Ity 8 s). Proof. by left. Qed.
#[export] Instance StdIty_16 s : StdIty (Ity 16 s). Proof. by right; left. Qed.
#[export] Instance StdIty_32 s : StdIty (Ity 32 s). Proof. by right; right; left. Qed.
#[export] Instance StdIty_64 s : StdIty (Ity 64 s). Proof. by right; right; right. Qed.
#[export] Hint Extern 1 (StdIty _) => (progress unfold U8, I8, U16, I16, U32, I32, U64, I64) : typeclass_instances.

(** Digits that the widest carried value of a type needs. *)
Definition var_digits (t : ity) : nat := if bits t =? 16 then 3 else 5.

Definition num_enc (t : ity) (v : Z) : bytes :=
  if sizeof t =? 1 then [uint 8 v] else var_enc (var_digits t) (to_var t v).

(** The values of type [t] that survive: all of them up to 32 bits; with 64
    bits those whose wire number is below [2^32]. *)
Definition num_ok (t : ity) (v : Z) : Prop :=
  in_range t v /\ (sizeof t <> 1 -> is_uint (var_width t) (to_var t v)).

Lemma num_ok_32 t v : StdIty t -> bits t <= 32 -> in_range t v -> num_ok t v.
Proof.
  intros Ht Hb Hr. split; [done|]. intros _. unfold var_width. rewrite Z.min_l by done.
  by apply to_var_range.
Qed.

Lemma var_digits_fit t u : std_ity t -> sizeof t <> 1 -> is_uint (var_width t) u ->
  0 <= u < 2 ^ (7 * Z.of_nat (var_digits t)) /\
  Z.of_nat (var_digits t) <= sizeof t + 1 /\
  (1 <= var_digits t <= Z.to_nat (bits t))%nat.
Proof.
  unfold std_ity, sizeof, var_width, var_digits, is_uint. intros H H1 Hu.
  destruct H as [E|[E|[E|E]]]; rewrite E in *; simpl Z.eqb; cbv iota.
  1: by destruct H1.
  all: change (7 * Z.of_nat 3) with 21; change (7 * Z.of_nat 5) with 35;
    change (2 ^ 21) with 2097152; change (2 ^ 35) with 34359738368;
    change (2 ^ 16) with 65536 in *; change (2 ^ 32) with 4294967296 in *.
  all: change (16 / 8) with 2 in *; change (32 / 8) with 4 in *; change (64 / 8) with 8 in *.
  all: change (Z.min 16 32) with 16 in *; change (Z.min 32 32) with 32 in *;
    change (Z.min 64 32) with 32 in *; change (2 ^ 16) with 65536 in *;
    change (2 ^ 32) with 4294967296 in *.
  all: split_and!; lia.
Qed.

Lemma var_write_spec t v bb :
  StdIty t -> sizeof t <> 1 -> num_ok t v -> bb_wf bb -> room 16 bb ->
  exists bb', WriteVarIntger t v bb = Done tt bb' /\
              wrote (var_enc (var_digits t) (to_var t v)) bb bb'.
Proof.
  intros Ht H1 [Hr Hw] W R. specialize (Hw H1).
  destruct (var_digits_fit t _ Ht H1 Hw) as (Hu & Hd & Hk).
  pose proof (var_enc_len (var_digits t) (to_var t v)) as Hlen.
  destruct (room_len _ _ R ltac:(lia)).
  assert (0 <= sizeof t <= 8).
  { unfold sizeof. destruct Ht as [->|[->|[->| ->]]]; done. }
  unfold WriteVarIntger. erewrite bind_done by done.
  change (if signed t then _ else _) with (to_var t v).
  rewrite u64_small by lia.
  apply Reserve_var_write; lia || done.
Qed.

Lemma var_read_spec t v bb pre post :
  StdIty t -> sizeof t <> 1 -> num_ok t v ->
  data bb = pre ++ var_enc (var_digits t) (to_var t v) ++ post ->
  offset bb = zlen pre -> len bb <= 2 ^ 62 ->
  ReadVarInteger t bb =
    Done v (set_offset (zlen pre + zlen (var_enc (var_digits t) (to_var t v))) bb).
Proof.
  intros Ht H1 [Hr Hw] Hd Ho Hl. specialize (Hw H1).
  destruct (var_digits_fit t _ Ht H1 Hw) as (Hu & Hdg & Hk).
  unfold ReadVarInteger.
  rewrite (var_read_loop_spec (var_digits t) _ t 0 0 (to_var t v) bb pre post).
  - change (2 ^ 0) with 1. rewrite Z.mul_1_l, Z.add_0_l, of_to_var by done. done.
  - done.
  - lia.
  - lia.
  - done.
  - unfold var_width. destruct Ht as [E|[E|[E|E]]]; rewrite E; done.
  - done.
  - unfold is_uint in Hw. change (2 ^ 0) with 1. lia.
  - done.
  - done.
  - done.
Qed.

#[export] Program Instance BFuncsSpec_num t `{!StdIty t} : BFuncsSpec (num t) := {
  enc v := num_enc t (num_val v);
  wire_ok v := num_ok t (num_val v);
  norm v := v
}.
Next Obligation.
  intros t Ht [v] [Hr Hw]; unfold num_enc; simpl in *. destruct (Z.eqb_spec (sizeof t) 1).
  - constructor; [|done]. by apply uint_range.
  - apply var_enc_bytes. by apply to_var_range.
Qed.
Next Obligation.
  intros t Ht [v] bb Hok W R. unfold num_enc in *; cbn [num_val WriteTo BFuncs_num] in *.
  destruct (Z.eqb_spec (sizeof t) 1) as [E|E].
  - rewrite E. change (zlen [uint 8 v]) with 1 in R. unfold room in R.
    pose proof (zlen_nonneg (data bb)). unfold len in *.
    erewrite bind_done by done. unfold len. rewrite u64_small by lia.
    apply Reserve_append; [done|lia|]. change (zlen [uint 8 v]) with 1. unfold len. lia.
  - apply var_write_spec; try done.
    pose proof (zlen_nonneg (var_enc (var_digits t) (to_var t v))). unfold room in *. lia.
Qed.
Next Obligation.
  intros t Ht [v] bb pre post Hok Hd Ho Hl Hlim.
  unfold num_enc in *; cbn [num_val ReadFrom BFuncs_num] in *.
  destruct (Z.eqb_spec (sizeof t) 1) as [E|E].
  - erewrite bind_done by done. rewrite E.
    change 1 with (zlen [uint 8 v]).
    erewrite bind_done by (eapply check_spec; done).
    erewrite bind_done by (eapply consume_spec; done).
    unfold mret, M_ret. do 2 f_equal. destruct Hok as [Hr _].
    assert (E8 : bits t = 8).
    { pose proof (sizeof_bits t Ht). lia. }
    unfold of_bits, in_range in *. rewrite E8 in *. unfold le_val. rewrite Z.mul_0_r, Z.add_0_r.
    destruct (signed t).
    + rewrite sint_uint by done. by apply sint_small.
    + rewrite uint_uint by done. by apply uint_small.
  - erewrite bind_done by (by eapply var_read_spec). done.
Qed.

#[export] Program Instance BFuncsSpec_float : BFuncsSpec float32 := {
  enc v := le_bytes 4 (f32_bits v);
  wire_ok v := is_uint 32 (f32_bits v);
  norm v := v
}.
Next Obligation. intros. apply le_bytes_byte. Qed.
Next Obligation.
  intros v bb Hok W R. unfold room in R. rewrite le_bytes_zlen in R.
  pose proof (zlen_nonneg (data bb)). unfold len in *. cbn [WriteTo BFuncs_float].
  erewrite bind_done by done. unfold len. rewrite u64_small by lia.
  apply Reserve_append; [done|lia|]. rewrite le_bytes_zlen. unfold len. lia.
Qed.
Next Obligation.
  intros v bb pre post Hok Hd Ho Hl Hlim. cbn [ReadFrom BFuncs_float].
  erewrite bind_done by done. change 4 with (zlen (le_bytes 4 (f32_bits v))) at 1 2.
  erewrite bind_done by (eapply check_spec; done).
  erewrite bind_done by (eapply consume_spec; done).
  rewrite le_val_bytes_small by done. by destruct v.
Qed.

(** A length prefix on the wire. *)
Definition len_ok (n : Z) : Prop := is_uint 32 n.

Lemma len_num_ok n : len_ok n -> num_ok U64 n.
Proof.
  intros Hn. unfold num_ok, in_range, to_var, var_width; simpl.
  assert (is_uint 64 n) by (eapply is_uint_mono; [|exact Hn]; lia).
  rewrite uint_small by done. done.
Qed.

(** Writing and reading a length followed by that many bytes. *)
Definition counted (bs : bytes) : bytes := num_enc U64 (zlen bs) ++ bs.

Lemma counted_write_spec bs bb :
  len_ok (zlen bs) -> bb_wf bb -> room (zlen (counted bs) + 16) bb ->
  exists bb', (_ ← WriteTo (Num (t := U64) (zlen bs)); AddRange bs) bb = Done tt bb' /\
              wrote (counted bs) bb bb'.
Proof.
  intros Hn W R. unfold room, counted in R. rewrite zlen_app in R.
  pose proof (zlen_nonneg bs). pose proof (zlen_nonneg (num_enc U64 (zlen bs))).
  destruct (write_spec (Num (t := U64) (zlen bs)) bb) as (bb1 & E1 & W1);
    [by apply len_num_ok | done | unfold room; simpl; lia |].
  erewrite bind_done by exact E1.
  destruct (AddRange_spec bs bb1) as (bb2 & E2 & W2); [by eapply wrote_wf| |].
  { unfold room. rewrite (wrote_len _ _ _ W1). simpl. lia. }
  exists bb2. split; [done|]. by eapply wrote_trans.
Qed.

Lemma counted_read_spec bs bb pre post :
  len_ok (zlen bs) -> data bb = pre ++ counted bs ++ post -> offset bb = zlen pre ->
  len bb <= 2 ^ 62 -> readLengthLimit bb = 0 ->
  let bb1 := set_offset (zlen (pre ++ num_enc U64 (zlen bs))) bb in
  ReadFrom (T := num U64) bb = Done (Num (zlen bs)) bb1 /\
  data bb1 = (pre ++ num_enc U64 (zlen bs)) ++ bs ++ post.
Proof.
  intros Hn Hd Ho Hl Hlim. unfold counted in *.
  rewrite (read_spec (Num (t := U64) (zlen bs)) bb pre (bs ++ post)); try done.
  - cbn [enc BFuncsSpec_num num_val norm]. rewrite zlen_app. split; [done|].
    simpl. rewrite Hd, <-!app_assoc. done.
  - by apply len_num_ok.
  - rewrite Hd. simpl. by rewrite <-!app_assoc.
Qed.

#[export] Program Instance BFuncsSpec_string : BFuncsSpec xstring := {
  enc v := counted (chars v);
  wire_ok v := len_ok (zlen (chars v)) /\ Forall is_byte (chars v);
  norm v := v
}.
Next Obligation.
  intros [v] [Hn Hb]; simpl in *. apply Forall_app; split; [|done].
  exact (enc_bytes (Num (t := U64) (zlen v)) (len_num_ok _ Hn)).
Qed.
Next Obligation.
  intros [v] bb [Hn Hb] W R; simpl in *. by apply counted_write_spec.
Qed.
Next Obligation.
  intros [v] bb pre post [Hn Hb] Hd Ho Hl Hlim; cbn [chars ReadFrom BFuncs_string] in *.
  destruct (counted_read_spec v bb pre post) as [E1 E2]; try done.
  erewrite bind_done by exact E1. erewrite bind_done by done.
  cbn [num_val readLengthLimit set_offset]. rewrite Hlim. cbn [Z.eqb negb andb].
  erewrite bind_done by done.
  erewrite bind_done by (eapply check_spec; done).
  erewrite bind_done by (eapply consume_spec; done).
  unfold mret, M_ret, counted, set_offset; cbn. do 2 f_equal. rewrite !zlen_app. lia.
Qed.

#[export] Program Instance BFuncsSpec_Guid : BFuncsSpec Guid := {
  enc v := Guid_bytes v;
  wire_ok v := Guid_valid v;
  norm v := v
}.
Next Obligation. intros. apply Guid_bytes_byte. Qed.
Next Obligation.
  intros g bb Hg W R. apply AddRange_spec; [done|]. unfold room in *. lia.
Qed.
Next Obligation.
  intros g bb pre post Hg Hd Ho Hl Hlim. cbn [ReadFrom BFuncs_Guid].
  erewrite bind_done by done. rewrite <-(Guid_bytes_len g) at 1.
  erewrite bind_done by (eapply check_spec; done).
  change 16 with (16 + 0). rewrite <-(Guid_bytes_len g) at 1. rewrite Z.add_0_r.
  erewrite bind_done by (eapply consume_spec; done).
  rewrite <-(app_nil_r (Guid_bytes g)), Fill_bytes, app_nil_r by done. done.
Qed.

(** ** [double] *)

(** What a [double] comes back as: [-0.0] as [0.0], any NaN as the quiet NaN. *)
Definition d_norm (d : double) : double :=
  if d_is_zero d then Double 0 else if d_is_nan d then d_quiet_NaN else d.

Definition d_enc `{FloatToInt} (d : double) : bytes :=
  if d_is_zero d then [0] else if d_is_nan d then [1]
  else if d_eq d d_neg_infinity then [2] else if d_eq d d_infinity then [3]
  else if d_eq d (d_of_int (d_to_int32 d))
       then 4 :: num_enc I32 (d_to_int32 d)
       else 5 :: le_bytes 8 (d_bits d).

Lemma d_to_int32_range `{FloatToInt} d : is_sint 32 (d_to_int32 d).
Proof. unfold d_to_int32. case_decide; [done|apply cvt_out_of_range_int32]. Qed.

Lemma d_eq_true a b : d_eq a b = true -> d_is_zero a = false -> a = b.
Proof.
  unfold d_eq. intros E Hz. rewrite Hz in E. cbn [andb] in E. rewrite orb_false_r in E.
  apply andb_prop in E as [_ E]. apply Z.eqb_eq in E. destruct a, b; simpl in *. congruence.
Qed.

Lemma i32_num_ok i : is_sint 32 i -> num_ok I32 i.
Proof. intros. apply num_ok_32; [apply _ | done | done]. Qed.

#[export] Program Instance BFuncsSpec_double `{FloatToInt} : BFuncsSpec double := {
  enc := d_enc;
  wire_ok d := is_uint 64 (d_bits d);
  norm := d_norm
}.
Next Obligation.
  intros ? d Hd. unfold d_enc.
  repeat case_match; (apply Forall_cons; split; [done|]);
    first [apply le_bytes_byte | apply Forall_nil; done |
      exact (enc_bytes (Num (t := I32) (d_to_int32 d)) (i32_num_ok _ (d_to_int32_range d)))].
Qed.
Next Obligation.
  intros ? d bb Hd W R. cbn [WriteTo BFuncs_double]. unfold double_WriteTo.
  pose proof (zlen_nonneg (data bb)). pose proof (zlen_nonneg (d_enc d)).
  unfold room, len in R. erewrite bind_done by done.
  unfold len. rewrite u64_small by lia.
  destruct (Reserve_spec (zlen (data bb) + 8 + 1) bb W ltac:(lia)) as (n & E & Hn & Hc).
  erewrite bind_done by exact E. unfold d_enc in *.
  assert (W1 : bb_wf (set_cap n bb)) by (unfold bb_wf, len in *; simpl; lia).
  assert (App : forall bs, zlen bs <= 9 -> exists bb', append bs (set_cap n bb) = Done tt bb' /\
                wrote bs bb bb').
  { intros bs Hbs. unfold append, len. simpl.
    destruct (Z.leb_spec (zlen (data bb) + zlen bs) n); [|lia].
    eexists. split; [done|]. split; [done|]. unfold bb_wf, len. simpl. rewrite zlen_app. lia. }
  repeat case_match; try (apply App; done).
  destruct (App [4]) as (bb1 & E1 & Wr1); [done|]. unfold push.
  erewrite bind_done by exact E1.
  destruct (write_spec (Num (t := I32) (d_to_int32 d)) bb1) as (bb2 & E2 & Wr2).
  - apply i32_num_ok, d_to_int32_range.
  - by eapply wrote_wf.
  - unfold room. rewrite (wrote_len _ _ _ Wr1). rewrite zlen_cons in R.
    change (zlen [4]) with 1. unfold len. simpl. lia.
  - exists bb2. split; [exact E2|]. eapply (wrote_trans [4]); done.
Qed.
Next Obligation.
  intros ? d bb pre post Hd Hdat Ho Hl Hlim. cbn [ReadFrom BFuncs_double].
  unfold double_ReadFrom, d_enc, d_norm in *.
  assert (Tag : forall (tag : Z) (rest : bytes) (k : Z -> M BBuffer double),
    data bb = pre ++ (tag :: rest) ++ post ->
    (bb0 ← get; _ ← reject_if (len bb0 <=? offset bb0) (-13);
     tg ← demand (znth (data bb0) (offset bb0));
     _ ← put (set_offset (u64 (offset bb0 + 1)) bb0); k tg) bb
    = k tag (set_offset (zlen (pre ++ [tag])) bb)).
  { intros tag rest k E. unfold len in Hl. rewrite E, !zlen_app, zlen_cons in Hl.
    pose proof (zlen_nonneg pre); pose proof (zlen_nonneg rest); pose proof (zlen_nonneg post).
    erewrite bind_done by done. unfold len. rewrite Ho, E, !zlen_app, zlen_cons.
    destruct (Z.leb_spec (zlen pre + (1 + zlen rest + zlen post)) (zlen pre)); [lia|].
    erewrite bind_done by done. simpl app. rewrite znth_mid. erewrite bind_done by done.
    erewrite bind_done by done. rewrite u64_small by lia. done. }
  destruct (d_is_zero d) eqn:Hz; [by rewrite (Tag 0 []), zlen_app|].
  destruct (d_is_nan d) eqn:Hn; [by rewrite (Tag 1 []), zlen_app|].
  destruct (d_eq d d_neg_infinity) eqn:Hni.
  { rewrite (Tag 2 []), zlen_app by done. by rewrite (d_eq_true _ _ Hni). }
  destruct (d_eq d d_infinity) eqn:Hi.
  { rewrite (Tag 3 []), zlen_app by done. by rewrite (d_eq_true _ _ Hi). }
  destruct (d_eq d (d_of_int (d_to_int32 d))) eqn:Hint.
  - erewrite Tag by done. cbn [Z.eqb Pos.eqb].
    erewrite bind_done.
    2:{ apply (read_spec (Num (t := I32) (d_to_int32 d)) _ (pre ++ [4]) post);
        [apply i32_num_ok, d_to_int32_range | | done | done | done].
        cbn [data set_offset]. rewrite Hdat. by rewrite <-app_assoc. }
    cbn [norm BFuncsSpec_num num_val enc].
    assert (Ed : d_of_int (d_to_int32 d) = d) by (symmetry; by apply d_eq_true).
    rewrite Ed. unfold mret, M_ret, set_offset. f_equal. cbn [data cap]. f_equal.
    rewrite zlen_app, !zlen_cons, zlen_nil. lia.
  - erewrite Tag by done. cbn [Z.eqb Pos.eqb].
    erewrite bind_done by done.
    assert (Hdat' : data (set_offset (zlen (pre ++ [5])) bb) =
                    (pre ++ [5]) ++ le_bytes 8 (d_bits d) ++ post).
    { cbn [data set_offset]. rewrite Hdat. by rewrite <-app_assoc. }
    change 8 with (zlen (le_bytes 8 (d_bits d))) at 1 2.
    erewrite bind_done by (eapply check_spec; done).
    erewrite bind_done by (eapply consume_spec; done).
    rewrite le_val_bytes_small by done. unfold mret, M_ret, set_offset; cbn [data cap].
    destruct d; f_equal. f_equal. rewrite zlen_app, !zlen_cons, zlen_nil, le_bytes_zlen. lia.
Qed.

(** ** Variadic [Write] and [Read]

    [Write(v, vs...)] calls the adapters in order; [ReadCore] stops at the
    first error. *)

#[export] Instance BFuncs_pair {A B} `{BFuncs A} `{BFuncs B} : BFuncs (A * B) := {
  WriteTo v := _ ← WriteTo v.1; WriteTo v.2;
  ReadFrom := a ← ReadFrom; b ← ReadFrom; mret (a, b)
}.

#[export] Program Instance BFuncsSpec_pair {A B} `{BFuncsSpec A} `{BFuncsSpec B} :
  BFuncsSpec (A * B) := {
  enc v := enc v.1 ++ enc v.2;
  wire_ok v := wire_ok v.1 /\ wire_ok v.2;
  norm v := (norm v.1, norm v.2)
}.
Next Obligation. intros A B ???? v [Ha Hb]. apply Forall_app; split; by apply enc_bytes. Qed.
Next Obligation.
  intros A B ???? [a b] bb [Ha Hb] W R; cbn in *. unfold room in R. rewrite zlen_app in R.
  pose proof (zlen_nonneg (enc a)); pose proof (zlen_nonneg (enc b)).
  destruct (write_spec a bb) as (bb1 & E1 & W1); [done|done|unfold room; lia|].
  erewrite bind_done by exact E1.
  destruct (write_spec b bb1) as (bb2 & E2 & W2); [done|by eapply wrote_wf| |].
  { unfold room. rewrite (wrote_len _ _ _ W1). lia. }
  exists bb2. split; [done|]. by eapply wrote_trans.
Qed.
Next Obligation.
  intros A B ???? [a b] bb pre post [Ha Hb] Hd Ho Hl Hlim; cbn in *.
  rewrite <-app_assoc in Hd.
  erewrite bind_done by (eapply (read_spec a); done).
  erewrite bind_done.
  2:{ apply (read_spec b _ (pre ++ enc a) post); try done.
      - cbn [data set_offset]. by rewrite Hd, <-app_assoc.
      - cbn [offset set_offset]. by rewrite zlen_app. }
  unfold mret, M_ret, set_offset; cbn [data cap offset]. do 2 f_equal. rewrite !zlen_app. lia.
Qed.

(** Writing at the read position and reading back. *)
Lemma write_read {T} `{BFuncsSpec T} (v : T) bb :
  wire_ok v -> bb_wf bb -> room (zlen (enc v) + 16) bb ->
  offset bb = len bb -> readLengthLimit bb = 0 ->
  exists bb', WriteTo v bb = Done tt bb' /\ wrote (enc v) bb bb' /\
              ReadFrom bb' = Done (norm v) (set_offset (len bb') bb').
Proof.
  intros Hv W R Ho Hlim. destruct (write_spec v bb Hv W R) as (bb' & E & Wr).
  exists bb'. split; [done|]. split; [done|].
  pose proof (wrote_len _ _ _ Wr) as Hlen. rewrite Hlen.
  pose proof (proj1 Wr) as Eb. unfold room in R. pose proof (zlen_nonneg (enc v)).
  rewrite (read_spec v bb' (data bb) []); [done|done| | | |].
  - by rewrite (wrote_data _ _ _ Wr), app_nil_r.
  - rewrite Eb. done.
  - lia.
  - rewrite Eb. done.
Qed.

(** ** Robustness of the readers on arbitrary bytes *)

(** A buffer that can be read: the position is inside the data. *)
Definition readable (bb : BBuffer) : Prop :=
  0 <= offset bb <= len bb /\ len bb <= 2 ^ 62.

(** A read only moves the position, forward and inside the data. *)
Definition moved (bb bb' : BBuffer) : Prop :=
  bb' = set_offset (offset bb') bb /\ offset bb <= offset bb' <= len bb.

Lemma moved_refl bb : readable bb -> moved bb bb.
Proof. intros [? ?]. split; [by destruct bb | lia]. Qed.

Lemma moved_trans a b c : moved a b -> moved b c -> moved a c.
Proof.
  intros [E1 H1] [E2 H2]. split.
  - rewrite E2, E1. done.
  - rewrite E1 in H2. unfold len in *. cbn [data set_offset] in H2. rewrite E1 in *. simpl in *. lia.
Qed.

Lemma moved_readable a b : readable a -> moved a b -> readable b.
Proof. intros [? ?] [-> ?]. unfold readable, len in *. cbn in *. lia. Qed.

(** Never undefined; the state only moves; values satisfy [P]. *)
Definition safe_read {T} (P : T -> Prop) (m : M BBuffer T) : Prop :=
  forall bb, readable bb ->
    match m bb with
    | Done v bb' => P v /\ moved bb bb'
    | Fail code bb' => code < 0 /\ moved bb bb'
    | Undef => False
    end.

Lemma safe_ret {T} (P : T -> Prop) v : P v -> safe_read P (mret v).
Proof. intros Hv bb Hb. split; [done|by apply moved_refl]. Qed.

Lemma safe_bind {A B} (P : A -> Prop) (Q : B -> Prop) (m : M BBuffer A) (f : A -> M BBuffer B) :
  safe_read P m -> (forall a, P a -> safe_read Q (f a)) -> safe_read Q (x ← m; f x).
Proof.
  intros Hm Hf bb Hb. specialize (Hm bb Hb). unfold mbind, M_bind.
  destruct (m bb) as [a bb1|e bb1|]; [|done|done].
  destruct Hm as [Ha Hm]. specialize (Hf a Ha bb1 (moved_readable _ _ Hb Hm)).
  destruct (f a bb1); try done; destruct Hf as [? ?]; split; eauto using moved_trans.
Qed.

(** The pattern of every fixed-size reader: bounds check, then copy. *)
Lemma safe_take n code :
  0 <= n <= 2 ^ 61 -> code < 0 ->
  safe_read (fun bs => zlen bs = n)
    (bb ← get; _ ← reject_if (len bb <? u64 (offset bb + n)) code; consume n).
Proof.
  intros Hn Hc bb Hr. pose proof Hr as [Ho Hl].
  change (2^61) with 2305843009213693952 in Hn. change (2^62) with 4611686018427387904 in Hl.
  erewrite bind_done by done. rewrite uint_small by rng.
  destruct (Z.ltb_spec (len bb) (offset bb + n)) as [L|L].
  - erewrite bind_fail by done. split; [done|by apply moved_refl].
  - erewrite bind_done by done. unfold consume. erewrite bind_done by done.
    destruct (zslice_is_Some (data bb) (offset bb) n) as [k Hk]; [lia|lia|done|].
    rewrite Hk. erewrite bind_done by done. erewrite bind_done by done.
    rewrite uint_small by rng.
    split; [by eapply zslice_len|]. split; [done|]. cbn. lia.
Qed.

Lemma safe_take_bind {T} (Q : T -> Prop) n code (k : bytes -> M BBuffer T) :
  0 <= n <= 2 ^ 61 -> code < 0 ->
  (forall bs, zlen bs = n -> safe_read Q (k bs)) ->
  safe_read Q (bb ← get; _ ← reject_if (len bb <? u64 (offset bb + n)) code;
               bs ← consume n; k bs).
Proof.
  intros Hn Hc Hk bb Hr.
  pose proof (safe_bind _ Q _ k (safe_take n code Hn Hc) Hk bb Hr) as H.
  revert H. unfold mbind, M_bind. cbn [get]. destruct (reject_if _ _ _); done.
Qed.

Lemma of_var_range t u : std_ity t -> is_uint (bits t) u -> in_range t (of_var t u).
Proof.
  unfold in_range, of_var, ZigZagDecode, std_ity. intros Ht Hu.
  destruct (signed t); [apply sint_range; lia | done].
Qed.

Lemma safe_var_read_loop fuel t s u :
  std_ity t -> bits t <= 32 -> (1 <= fuel)%nat -> bits t <= s + 7 * (Z.of_nat fuel - 1) ->
  safe_read (in_range t) (var_read_loop fuel t s u).
Proof.
  intros Ht Hb. revert s u. induction fuel as [|fuel IH]; intros s u Hf Hs bb Hr; [lia|].
  pose proof Hr as [Ho Hl].
  change (2^62) with 4611686018427387904 in Hl. cbn [var_read_loop].
  rewrite sizeof_bits by done. destruct (Z.ltb_spec s (bits t)).
  2:{ split; [done|by apply moved_refl]. }
  erewrite bind_done by done. destruct (Z.eqb_spec (offset bb) (len bb)).
  { erewrite bind_fail by done. split; [done|by apply moved_refl]. }
  erewrite bind_done by done.
  destruct (znth_is_Some (data bb) (offset bb)) as [b ->]; [unfold len in *; lia|].
  erewrite bind_done by done. rewrite (uint_small 64) by rng. erewrite bind_done by done.
  destruct (Z.ltb_spec s 32); [|lia]. erewrite bind_done by done. cbv zeta.
  assert (Hm : moved bb (set_offset (offset bb + 1) bb)) by (split; [done | cbn; lia]).
  destruct (Z.land b 128 =? 0).
  - split; [|exact Hm]. apply of_var_range; [done|]. apply uint_range. unfold std_ity in Ht; lia.
  - match goal with |- context [var_read_loop fuel t (s + 7) ?v] =>
      specialize (IH (s + 7) v ltac:(lia) ltac:(lia) _ (moved_readable _ _ Hr Hm));
      destruct (var_read_loop fuel t (s + 7) v _); try done;
      destruct IH; eauto using moved_trans end.
Qed.

Lemma safe_ReadVarInteger t :
  std_ity t -> bits t <= 32 -> safe_read (in_range t) (ReadVarInteger t).
Proof.
  intros Ht Hb. apply safe_var_read_loop; [done|done| |]; unfold std_ity in Ht; lia.
Qed.

Lemma safe_ReadFrom_num t :
  StdIty t -> bits t <= 32 -> safe_read (fun v => in_range t (num_val v)) (ReadFrom (T := num t)).
Proof.
  intros Ht Hb. cbn [ReadFrom BFuncs_num]. destruct (Z.eqb_spec (sizeof t) 1) as [E|E].
  - rewrite E. apply safe_take_bind; [lia|lia|]. intros bs _. apply safe_ret. cbn.
    unfold in_range, of_bits. pose proof (sizeof_bits t Ht).
    destruct (signed t); [apply sint_range|apply uint_range]; lia.
  - apply (safe_bind (in_range t)); [by apply safe_ReadVarInteger|].
    intros. by apply safe_ret.
Qed.

Lemma safe_ReadFrom_Guid : safe_read (fun _ => True) (ReadFrom (T := Guid)).
Proof.
  cbn [ReadFrom BFuncs_Guid]. apply safe_take_bind; [lia|lia|]. intros bs Hbs.
  unfold Fill.
  destruct (zslice_is_Some bs 0 8) as [a ->]; [lia|lia|lia|].
  destruct (zslice_is_Some bs 8 8) as [b ->]; [lia|lia|lia|].
  by apply safe_ret.
Qed.

Lemma safe_double_ReadFrom : safe_read (fun _ => True) double_ReadFrom.
Proof.
  intros bb Hr. pose proof Hr as [Ho Hl]. change (2^62) with 4611686018427387904 in Hl.
  unfold double_ReadFrom. erewrite bind_done by done.
  destruct (Z.leb_spec (len bb) (offset bb)).
  { erewrite bind_fail by done. split; [done|by apply moved_refl]. }
  erewrite bind_done by done.
  destruct (znth_is_Some (data bb) (offset bb)) as [b ->]; [unfold len in *; lia|].
  erewrite bind_done by done. rewrite (uint_small 64) by rng. erewrite bind_done by done.
  assert (Hm : moved bb (set_offset (offset bb + 1) bb)) by (split; [done | cbn; lia]).
  assert (Hk : forall m : M BBuffer double, safe_read (fun _ => True) m ->
    match m (set_offset (offset bb + 1) bb) with
    | Done v bb' => True /\ moved bb bb'
    | Fail code bb' => code < 0 /\ moved bb bb'
    | Undef => False end).
  { intros m Hs. specialize (Hs _ (moved_readable _ _ Hr Hm)).
    destruct (m _); try done; destruct Hs; eauto using moved_trans. }
  apply Hk. clear Hk Hm. do 4 (destruct (b =? _); [by apply (safe_ret (fun _ => True))|]).
  destruct (b =? 4).
  { eapply safe_bind; [apply (safe_ReadFrom_num I32); [apply _|done]|]. intros. by apply (safe_ret (fun _ => True)). }
  destruct (b =? 5).
  - apply safe_take_bind; [lia|lia|]. intros. by apply (safe_ret (fun _ => True)).
  - intros bb' Hr'. split; [done|by apply moved_refl].
Qed.

(** A reader that runs out of bytes in the middle of a number says so. *)
Lemma var_read_truncated k fuel t s a r n bb pre :
  std_ity t -> (k <= fuel)%nat -> 0 <= r ->
  0 <= s -> (n < length (var_enc k r))%nat ->
  s + 7 * Z.of_nat n < var_width t ->
  data bb = pre ++ take n (var_enc k r) -> offset bb = zlen pre -> len bb <= 2 ^ 62 ->
  exists bb', var_read_loop fuel t s a bb = Fail (-9) bb'.
Proof.
  intros Ht. revert fuel s a r n bb pre.
  induction k as [|k IH]; intros fuel s a r n bb pre Hf Hr Hs Hn Hw Hd Ho Hl; [simpl in *; lia|].
  destruct fuel as [|fuel]; [lia|].
  destruct n as [|n].
  - cbn [var_read_loop]. rewrite sizeof_bits by done. unfold var_width in Hw.
    destruct (Z.ltb_spec s (bits t)); [|lia]. erewrite bind_done by done.
    unfold len. rewrite Hd, Ho, take_0, app_nil_r, Z.eqb_refl.
    erewrite bind_fail by done. eauto.
  - cbn [var_enc] in *. destruct (Z.ltb_spec r 128); [simpl in *; lia|].
    pose proof (Z.mod_pos_bound r 128 ltac:(lia)).
    cbn [take length] in *.
    rewrite (var_read_step _ _ _ _ (128 + r mod 128) _ pre (take n (var_enc k (r / 128))))
      by (try done; rng). cbv zeta.
    destruct (Z.ltb_spec (128 + r mod 128) 128); [lia|].
    apply (IH _ _ _ (r / 128) n _ (pre ++ [128 + r mod 128]));
      try lia; try done; [apply Z.div_pos; lia|cbn; by rewrite Hd, <-app_assoc|cbn; by rewrite zlen_app].
Qed.

(** ** Properties *)

(** C39. Whatever sequence of values an adapter composes (an [int32_t], a
    string and a [double] here, through the variadic [Write] and [Read]),
    reading at the position where they were written gives the values back,
    up to the sign of zero and NaN payloads, and consumes exactly the bytes
    that were written. *)
Theorem write_read_message `{FloatToInt} (i : Z) (s : bytes) (d : double) bb :
  is_sint 32 i -> is_uint 32 (zlen s) -> Forall is_byte s -> is_uint 64 (d_bits d) ->
  bb_wf bb -> room (zlen s + 64) bb -> offset bb = len bb -> readLengthLimit bb = 0 ->
  let v := (Num (t := I32) i, (XString s, d)) in
  exists bb', WriteTo v bb = Done tt bb' /\
    ReadFrom bb' = Done (Num (t := I32) i, (XString s, d_norm d)) (set_offset (len bb') bb').
Proof.
  intros Hi Hn Hs Hd W R Ho Hlim v.
  destruct (write_read v bb) as (bb' & E & _ & E'); [| |unfold room in *| | |]; try done.
  - split; [by apply i32_num_ok|]. split; [split; done|done].
  - cbn [enc BFuncsSpec_pair fst snd v]. rewrite !zlen_app.
    assert (zlen (enc (Num (t := I32) i)) <= 5) by apply (var_enc_len 5).
    assert (zlen (enc (XString s)) <= 5 + zlen s).
    { change (enc (XString s)) with (counted s). unfold counted. rewrite zlen_app.
      pose proof (var_enc_len 5 (to_var U64 (zlen s))) as L. change (zlen (num_enc U64 (zlen s)) <= 5) in L. lia. }
    assert (zlen (enc d) <= 9).
    { change (enc d) with (d_enc d). unfold d_enc.
      pose proof (var_enc_len 5 (to_var I32 (d_to_int32 d))) as L.
      change (zlen (num_enc I32 (d_to_int32 d)) <= 5) in L.
      repeat case_match; rewrite ?zlen_cons, ?zlen_nil, ?le_bytes_zlen; lia. }
    lia.
  - exists bb'. split; [done|]. rewrite E'. done.
Qed.

(** Concrete target: [(int32_t)] out of range gives [INT_MIN] (x86-64). *)
#[export] Program Instance cvt_x86 : FloatToInt := { cvt_out_of_range _ := - 2 ^ 31 }.
Next Obligation. intros. unfold is_sint. lia. Qed.

Lemma write_read_message_witness :
  exists bb', WriteTo (Num (t := I32) (-5), (XString [104; 105], Double (2 ^ 63))) BB_empty = Done tt bb' /\
    ReadFrom bb' = Done (Num (t := I32) (-5), (XString [104; 105], d_norm (Double (2 ^ 63))))
                        (set_offset (len bb') bb').
Proof.
  apply (write_read_message (-5) [104; 105] (Double (2 ^ 63)) BB_empty);
    try done; repeat constructor; done.
Defined.

(** Every integer type of the wire format round-trips on its full range up
    to 32 bits, and on 64 bits for the numbers whose wire form is below
    [2^32]; the bytes are exactly [num_enc]. *)
Theorem num_roundtrip t `{!StdIty t} v bb :
  num_ok t v -> bb_wf bb -> room 32 bb -> offset bb = len bb -> readLengthLimit bb = 0 ->
  exists bb', WriteTo (Num (t := t) v) bb = Done tt bb' /\
    data bb' = data bb ++ num_enc t v /\
    ReadFrom bb' = Done (Num (t := t) v) (set_offset (len bb') bb').
Proof.
  intros Hv W R Ho Hlim.
  destruct (write_read (Num (t := t) v) bb) as (bb' & E & Wr & E'); try done.
  - unfold room in *. assert (zlen (enc (Num (t := t) v)) <= 5); [|lia].
    change (enc (Num (t := t) v)) with (num_enc t v). unfold num_enc.
    pose proof (var_enc_len (var_digits t) (to_var t v)) as L.
    destruct (_ =? _); [done|]. unfold var_digits in *. destruct (bits t =? 16); lia.
  - exists bb'. split; [done|]. split; [|done]. by rewrite (wrote_data _ _ _ Wr).
Qed.

Lemma num_roundtrip_witness :
  exists bb', WriteTo (Num (t := U16) 65535) BB_empty = Done tt bb' /\
    data bb' = [] ++ num_enc U16 65535 /\
    ReadFrom bb' = Done (Num (t := U16) 65535) (set_offset (len bb') bb').
Proof. apply (num_roundtrip U16 65535 BB_empty); done. Defined.

(** Reading an integer of at most 32 bits from arbitrary bytes never leaves
    the buffer or does anything undefined: it yields a value of the type or a
    negative error code, and only moves the read position forward. *)
Theorem read_num_safe t `{!StdIty t} bb :
  bits t <= 32 -> readable bb ->
  match ReadFrom (T := num t) bb with
  | Done v bb' => in_range t (num_val v) /\ moved bb bb'
  | Fail code bb' => code < 0 /\ moved bb bb'
  | Undef => False
  end.
Proof. intros Hb Hr. by apply safe_ReadFrom_num. Qed.

Lemma read_num_safe_witness :
  match ReadFrom (T := num I32) (set_data [255; 255; 255] BB_empty) with
  | Done v bb' => in_range I32 (num_val v) /\ moved (set_data [255; 255; 255] BB_empty) bb'
  | Fail code bb' => code < 0 /\ moved (set_data [255; 255; 255] BB_empty) bb'
  | Undef => False
  end.
Proof. apply (read_num_safe I32 (set_data [255; 255; 255] BB_empty)); done. Defined.

(** Reading a [double] from arbitrary bytes is always defined: a value or a
    negative code (-9, -10, -13, -14, -15), with the position inside the data. *)
Theorem read_double_safe bb :
  readable bb ->
  match double_ReadFrom bb with
  | Done _ bb' => moved bb bb'
  | Fail code bb' => code < 0 /\ moved bb bb'
  | Undef => False
  end.
Proof. intros Hr. pose proof (safe_double_ReadFrom bb Hr) as H. destruct (double_ReadFrom bb); [apply H|done|done]. Qed.

Lemma read_double_safe_witness :
  match double_ReadFrom (set_data [5; 1; 2] BB_empty) with
  | Done _ bb' => moved (set_data [5; 1; 2] BB_empty) bb'
  | Fail code bb' => code < 0 /\ moved (set_data [5; 1; 2] BB_empty) bb'
  | Undef => False
  end.
Proof. apply (read_double_safe (set_data [5; 1; 2] BB_empty)). done. Defined.

(** A number whose bytes are cut short is reported as error -9, never as
    another number. *)
Theorem read_truncated t `{!StdIty t} v n bb pre :
  sizeof t <> 1 -> num_ok t v -> (n < length (num_enc t v))%nat ->
  data bb = pre ++ take n (num_enc t v) -> offset bb = zlen pre -> len bb <= 2 ^ 62 ->
  exists bb', ReadFrom (T := num t) bb = Fail (-9) bb'.
Proof.
  intros H1 [Hr Hw] Hn Hd Ho Hl. specialize (Hw H1). unfold num_enc in *.
  destruct (Z.eqb_spec (sizeof t) 1) as [E|_]; [done|].
  destruct (var_digits_fit t _ std_ity_pf H1 Hw) as (Hu & Hdg & Hk).
  pose proof (var_enc_len (var_digits t) (to_var t v)) as L. unfold zlen in L.
  cbn [ReadFrom BFuncs_num]. destruct (Z.eqb_spec (sizeof t) 1) as [E|_]; [done|].
  destruct (var_read_truncated (var_digits t) (Z.to_nat (bits t)) t 0 0 (to_var t v) n bb pre)
    as [bb' E]; try done; try lia.
  - unfold var_width, var_digits, sizeof in *. clear - StdIty0 H1 Hn L.
    destruct (std_ity_pf (t := t)) as [E|[E|[E|E]]]; rewrite E in *; [done|..];
      cbn [Z.eqb Pos.eqb] in *; lia.
  - exists bb'. by erewrite bind_fail by exact E.
Qed.

Lemma read_truncated_witness :
  exists bb', ReadFrom (T := num U16) (set_data [255; 255] BB_empty) = Fail (-9) bb'.
Proof.
  apply (read_truncated U16 65535 2 (set_data [255; 255] BB_empty) []); try done.
  vm_compute. lia.
Defined.

(** The 64-bit reader shifts in 32 bits: [2^32] comes back as 0 and [2^35]
    runs into the undefined shift, although both are written without error. *)
Theorem read_u64_beyond_32 :
  (exists bb, WriteTo (Num (t := U64) (2 ^ 32)) BB_empty = Done tt bb /\
     ReadFrom (T := num U64) bb = Done (Num 0) (set_offset 5 bb)) /\
  (exists bb, WriteTo (Num (t := U64) (2 ^ 35)) BB_empty = Done tt bb /\
     ReadFrom (T := num U64) bb = Undef).
Proof. split; (eexists; split; [vm_compute; reflexivity | vm_compute; reflexivity]). Qed.

(** [WriteVarIntger] reserves [sizeof(T) + 1] bytes; a [uint64_t] from
    [2^63] on takes ten, and with seven bytes in a 16-byte allocation the last
    one is written out of bounds. *)
Theorem write_u64_overruns :
  WriteTo (Num (t := U64) (2 ^ 63)) (set_cap 16 (set_data (replicate 7 0) BB_empty)) = Undef.
Proof. vm_compute. reflexivity. Qed.
