(* ===== verification/Graph.v ===== *)
(** * xx_bbuffer.h and PKG_class.h: object graphs

    [WritePtr] and [ReadPtr] serialise objects that point to each other: the
    first time an object is met its type, its position and its contents are
    written, afterwards only its type and that position, so sharing and cycles
    survive.  The generated classes of PKG_class.h say what their contents
    are.

    Objects live in a heap from addresses to objects.  A [shared_ptr] and a
    [weak_ptr] are both an optional address; locking a weak pointer yields null
    when its object is gone.  An object that is being read is in the heap with
    the fields that have been read so far. *)

From Stdlib Require Import ZArith Lia.
From stdpp Require Import base numbers list gmap.
From S2P Require Import Prelude Util BBuffer.
Open Scope Z_scope.

Abbreviation ptr := (option Z).

(** What [xx::List] is instantiated with. *)
Inductive elem := Foo_w | Monster_s | Player_w | Player_s.

(** The classes below [xx::Object]. *)
Inductive cls := CBBuffer | CFoo | CPlayer | CMonster | CScene | CSync | CList (e : elem).

#[export] Instance elem_eq_dec : EqDecision elem.
Proof. solve_decision. Defined.
#[export] Instance cls_eq_dec : EqDecision cls.
Proof. solve_decision. Defined.

(** The static type [T] of a [shared_ptr<T>] or [weak_ptr<T>]. *)
Inductive ptype := PString | PObject (c : option cls).

Definition elem_type (e : elem) : ptype :=
  PObject (Some match e with Foo_w => CFoo | Monster_s => CMonster | Player_w | Player_s => CPlayer end).
Definition elem_shared (e : elem) : bool :=
  match e with Monster_s | Player_s => true | Foo_w | Player_w => false end.

Inductive object :=
| XStr (s : bytes)
| XBuf (d : bytes)
| Foo (parent childs : ptr)
| Player (id : Z) (token target : ptr)
| Monster
| Scene (monsters players : ptr)
| Sync (players scene : ptr)
| XList (e : elem) (buf : list ptr).

#[export] Instance object_eq_dec : EqDecision object.
Proof. solve_decision. Defined.

(** [None]: a [std::string], which is no [Object]. *)
Definition class_of (o : object) : option cls :=
  match o with
  | XStr _ => None
  | XBuf _ => Some CBBuffer
  | Foo _ _ => Some CFoo
  | Player _ _ _ => Some CPlayer
  | Monster => Some CMonster
  | Scene _ _ => Some CScene
  | Sync _ _ => Some CSync
  | XList e _ => Some (CList e)
  end.

Definition TypeId (c : cls) : Z :=
  match c with
  | CBBuffer => 2 | CFoo => 3 | CList Foo_w => 4 | CPlayer => 5 | CMonster => 6 | CScene => 7
  | CList Monster_s => 8 | CList Player_w => 9 | CSync => 10 | CList Player_s => 11
  end.

(** The table filled by [AllTypesRegister]. *)
Definition creators (typeId : Z) : option cls :=
  if typeId =? 5 then Some CPlayer
  else if typeId =? 6 then Some CMonster
  else if typeId =? 7 then Some CScene
  else if typeId =? 8 then Some (CList Monster_s)
  else if typeId =? 9 then Some (CList Player_w)
  else if typeId =? 10 then Some CSync
  else if typeId =? 11 then Some (CList Player_s)
  else if typeId =? 3 then Some CFoo
  else if typeId =? 4 then Some (CList Foo_w)
  else None.

(** [v->GetTypeId()], 1 for a string. *)
Definition GetTypeId (o : object) : Z :=
  match class_of o with Some c => TypeId c | None => 1 end.

(** A default-constructed object. *)
Definition make (c : cls) : object :=
  match c with
  | CBBuffer => XBuf []
  | CFoo => Foo None None
  | CPlayer => Player 0 None None
  | CMonster => Monster
  | CScene => Scene None None
  | CSync => Sync None None
  | CList e => XList e []
  end.

Abbreviation heap := (gmap Z object).

Definition W16 (v : Z) : M BBuffer unit := WriteTo (Num (t := U16) v).
Definition W64 (v : Z) : M BBuffer unit := WriteTo (Num (t := U64) v).
Definition W32 (v : Z) : M BBuffer unit := WriteTo (Num (t := I32) v).

(** ** Writing *)

Section write.
Context (h : heap).

(** [weak_ptr::lock]. *)
Definition lock (p : ptr) : ptr :=
  a ← p; match h !! a with Some _ => Some a | None => None end.

Section contents.
Context (WritePtr : ptr -> M BBuffer unit).

(** [BFuncs<std::weak_ptr<T>>::WriteTo]. *)
Definition Write_weak (p : ptr) : M BBuffer unit :=
  match lock p with Some a => WritePtr (Some a) | None => W16 0 end.

Fixpoint Write_items (e : elem) (l : list ptr) : M BBuffer unit :=
  match l with
  | [] => mret tt
  | p :: l => _ ← (if elem_shared e then WritePtr p else Write_weak p); Write_items e l
  end.

(** [List<T>::ToBBuffer] for pointers, 16 bytes each. *)
Definition List_ToBBuffer (e : elem) (buf : list ptr) : M BBuffer unit :=
  bb ← get;
  _ ← Reserve (u64 (len bb + 5 + zlen buf * 16));
  _ ← W64 (zlen buf);
  if zlen buf =? 0 then mret tt else Write_items e buf.

Definition Player_ToBBuffer (id : Z) (token target : ptr) : M BBuffer unit :=
  _ ← W32 id; Write_weak target.

Definition Monster_ToBBuffer : M BBuffer unit := mret tt.

Definition Scene_ToBBuffer (monsters players : ptr) : M BBuffer unit :=
  _ ← WritePtr monsters; WritePtr players.

Definition Sync_ToBBuffer (players scene : ptr) : M BBuffer unit :=
  _ ← WritePtr players; WritePtr scene.

Definition Foo_ToBBuffer (parent childs : ptr) : M BBuffer unit :=
  _ ← Write_weak parent; WritePtr childs.

(** The virtual function ([Write] of the characters for a string). *)
Definition ToBBuffer (o : object) : M BBuffer unit :=
  match o with
  | XStr s => WriteTo (XString s)
  | XBuf d => BBuffer_ToBBuffer d
  | Foo parent childs => Foo_ToBBuffer parent childs
  | Player id token target => Player_ToBBuffer id token target
  | Monster => Monster_ToBBuffer
  | Scene monsters players => Scene_ToBBuffer monsters players
  | Sync players scene => Sync_ToBBuffer players scene
  | XList e buf => List_ToBBuffer e buf
  end.
End contents.

Fixpoint WritePtr (fuel : nat) (v : ptr) : M BBuffer unit :=
  match fuel with
  | O => undef
  | S fuel =>
      match v with
      | None => W16 0
      | Some a =>
          o ← demand (h !! a);
          _ ← W16 (GetTypeId o);
          bb ← get;
          match ptrs bb !! a with
          | Some offs => W64 offs
          | None =>
              let offs := u64 (len bb - offsetRoot bb) in
              _ ← put (set_ptrs (<[a := offs]> (ptrs bb)) bb);
              _ ← W64 offs;
              ToBBuffer (WritePtr fuel) o
          end
      end
  end.

(** An object is entered once, so the depth is at most the number of objects. *)
Definition WriteRoot (v : ptr) : M BBuffer unit :=
  bb ← get;
  _ ← put (set_offsetRoot (len bb) bb);
  _ ← assert_ (bool_decide (ptrs bb = ∅));
  _ ← WritePtr (2 + size h) v;
  bb ← get;
  put (set_ptrs ∅ bb).
End write.

(** ** Reading *)

Record reading := MkReading {
  rbb : BBuffer;
  rheap : heap;
  rnext : Z;              (* addresses from here on are free *)
  rroot : ptr             (* the pointer that [ReadRoot] is given to fill *)
}.

Definition set_rbb (bb : BBuffer) (st : reading) := MkReading bb (rheap st) (rnext st) (rroot st).
Definition set_rheap (h : heap) (st : reading) := MkReading (rbb st) h (rnext st) (rroot st).
Definition set_rroot (v : ptr) (st : reading) := MkReading (rbb st) (rheap st) (rnext st) v.

Definition on_bb {A} (m : M BBuffer A) : M reading A := fun st =>
  match m (rbb st) with
  | Done a bb => Done a (set_rbb bb st)
  | Fail e bb => Fail e (set_rbb bb st)
  | Undef => Undef
  end.

Definition R16 : M reading Z := n ← on_bb (ReadFrom (T := num U16)); mret (num_val n).
Definition R64 : M reading Z := n ← on_bb (ReadFrom (T := num U64)); mret (num_val n).
Definition R32 : M reading Z := n ← on_bb (ReadFrom (T := num I32)); mret (num_val n).
Definition no_limit : M reading unit := on_bb (modify (set_readLengthLimit 0)).

(** [xx::TryMake<T>()], and the end of an object that nobody owns. *)
Definition alloc (o : object) : M reading Z := fun st =>
  Done (rnext st) (MkReading (rbb st) (<[rnext st := o]> (rheap st)) (rnext st + 1) (rroot st)).
Definition destroy (a : Z) : M reading unit := modify (fun st => set_rheap (delete a (rheap st)) st).

(** The object at [a] is used, which must be there. *)
Definition update (a : Z) (f : object -> object) : M reading unit :=
  st ← get; o ← demand (rheap st !! a); put (set_rheap (<[a := f o]> (rheap st)) st).

(** Where a pointer is read to: the variable of the caller of [ReadRoot], the
    local variable of [BFuncs<std::weak_ptr<T>>::ReadFrom], or pointer [i] of
    the object at [a]. *)
Inductive place := Root | Local | Field (a : Z) (i : nat).

Definition set_field (i : nat) (p : ptr) (o : object) : object :=
  match o, i with
  | Foo _ c, O => Foo p c
  | Foo f _, S _ => Foo f p
  | Player id _ g, O => Player id p g
  | Player id t _, S _ => Player id t p
  | Scene _ q, O => Scene p q
  | Scene m _, S _ => Scene m p
  | Sync _ s, O => Sync p s
  | Sync q _, S _ => Sync q p
  | XList e buf, _ => XList e (<[i := p]> buf)
  | XStr _, _ | XBuf _, _ | Monster, _ => o
  end.

Definition assign (v : place) (p : ptr) : M reading unit :=
  match v with
  | Root => modify (set_rroot p)
  | Local => mret tt
  | Field a i => update a (set_field i p)
  end.

(** [std::dynamic_pointer_cast<T>(o)] succeeds. *)
Definition cast_ok (T : option cls) (c : option cls) : bool :=
  match T with None => true | Some d => bool_decide (c = Some d) end.

(** *** The virtual [FromBBuffer], for the object at [a]

    The fields are filled one by one, and stay as they are when reading
    fails. *)

Section contents.
Context (ReadPtr : place -> ptype -> M reading ptr).

(** [BFuncs<std::shared_ptr<T>>] and [BFuncs<std::weak_ptr<T>>]. *)
Definition Read_shared (a : Z) (i : nat) (T : ptype) : M reading unit := _ ← ReadPtr (Field a i) T; mret tt.
Definition Read_weak (a : Z) (i : nat) (T : ptype) : M reading unit := p ← ReadPtr Local T; assign (Field a i) p.

(** [n] elements from the [i]-th on. *)
Fixpoint Read_items (e : elem) (a : Z) (i n : nat) : M reading unit :=
  match n with
  | O => mret tt
  | S n => _ ← (if elem_shared e then Read_shared a i (elem_type e) else Read_weak a i (elem_type e)); Read_items e a (S i) n
  end.

(** The list is new and empty: [Resize] makes null pointers. *)
Definition List_FromBBuffer (e : elem) (a : Z) : M reading unit :=
  n ← R64;
  st ← get;
  _ ← reject_if (negb (readLengthLimit (rbb st) =? 0) && (readLengthLimit (rbb st) <? n)) (-1);
  _ ← reject_if (len (rbb st) <? u64 (offset (rbb st) + n)) (-2);
  _ ← update a (fun _ => XList e (replicate (Z.to_nat n) None));
  Read_items e a 0 (Z.to_nat n).

Definition set_id (id : Z) (o : object) : object := match o with Player _ t g => Player id t g | o => o end.

Definition Player_FromBBuffer (a : Z) : M reading unit :=
  id ← R32;
  _ ← update a (set_id id);
  _ ← no_limit;
  _ ← Read_shared a 0 PString;
  Read_weak a 1 (PObject (Some CMonster)).

Definition Scene_FromBBuffer (a : Z) : M reading unit :=
  _ ← no_limit;
  _ ← Read_shared a 0 (PObject (Some (CList Monster_s)));
  _ ← no_limit;
  Read_shared a 1 (PObject (Some (CList Player_w))).

Definition Sync_FromBBuffer (a : Z) : M reading unit :=
  _ ← no_limit;
  _ ← Read_shared a 0 (PObject (Some (CList Player_s)));
  Read_shared a 1 (PObject (Some CScene)).

Definition Foo_FromBBuffer (a : Z) : M reading unit :=
  _ ← Read_weak a 0 (PObject (Some CFoo));
  _ ← no_limit;
  Read_shared a 1 (PObject (Some (CList Foo_w))).

(** The virtual function of class [c]. *)
Definition FromBBuffer (c : cls) (a : Z) : M reading unit :=
  match c with
  | CBBuffer => d ← on_bb BBuffer_FromBBuffer; update a (fun _ => XBuf d)
  | CFoo => Foo_FromBBuffer a
  | CPlayer => Player_FromBBuffer a
  | CMonster => mret tt
  | CScene => Scene_FromBBuffer a
  | CSync => Sync_FromBBuffer a
  | CList e => List_FromBBuffer e a
  end.
End contents.

Definition add_strIdx (o a : Z) : M BBuffer unit := modify (fun bb => set_strIdxs (<[o := a]> (strIdxs bb)) bb).
Definition add_objIdx (o a : Z) : M BBuffer unit := modify (fun bb => set_objIdxs (<[o := a]> (objIdxs bb)) bb).

Definition wrong_type (T : ptype) (typeId : Z) : option Z :=
  match T with
  | PString => if typeId =? 1 then None else Some (-1)
  | PObject _ => if typeId <? 2 then Some (-2) else None
  end.

(** [ReadPtr] after the type has been read; [contents] is the virtual
    [FromBBuffer] of the new object.  It yields what [v] points to. *)
Definition ReadPtr_body (contents : cls -> Z -> M reading unit) (v : place) (T : ptype) (typeId : Z) : M reading ptr :=
  if typeId =? 0 then mret None
  else
    _ ← match wrong_type T typeId with Some e => fail e | None => mret tt end;
    _ ← reject_if ((2 <? typeId) && bool_decide (creators typeId = None)) (-3);
    st ← get;
    let offs := u64 (offset (rbb st) - offsetRoot (rbb st)) in
    ptrOffset ← R64;
    if ptrOffset =? offs then
      match T with
      | PString =>
          a ← alloc (XStr []);
          _ ← assign v (Some a);
          _ ← on_bb (add_strIdx ptrOffset a);
          s ← on_bb (ReadFrom (T := xstring));
          _ ← update a (fun _ => XStr (chars s));
          mret (Some a)
      | PObject T =>
          match (if typeId =? 2 then Some CBBuffer else creators typeId) with
          | None => fail (-3)
          | Some c =>
              a ← alloc (make c);
              if cast_ok T (Some c) then
                _ ← assign v (Some a);
                _ ← on_bb (add_objIdx ptrOffset a);
                _ ← contents c a;
                mret (Some a)
              else _ ← destroy a; fail (-4)
          end
      end
    else
      st ← get;
      match T with
      | PString =>
          match strIdxs (rbb st) !! ptrOffset with
          | None => fail (-5)
          | Some a => _ ← assign v (Some a); mret (Some a)
          end
      | PObject T =>
          match objIdxs (rbb st) !! ptrOffset with
          | None => fail (-6)
          | Some a =>
              o ← demand (rheap st !! a);
              _ ← reject_if (negb (GetTypeId o =? typeId)) (-7);
              _ ← reject_if (negb (cast_ok T (class_of o))) (-8);
              _ ← assign v (Some a);
              mret (Some a)
          end
      end.

Fixpoint ReadPtr (fuel : nat) (v : place) (T : ptype) : M reading ptr :=
  match fuel with
  | O => undef
  | S fuel =>
      _ ← assign v None;
      typeId ← R16;
      ReadPtr_body (FromBBuffer (ReadPtr fuel)) v T typeId
  end.

(** *** The tables are cleared

    While [objIdxs] and [strIdxs] hold what has been read, every object has an
    owner.  When they are cleared, an object goes that no shared pointer points
    to, and with it its own pointers.  Objects below [old] were there before
    and have other owners; [v] is the variable of the caller. *)

Definition shared_ptrs (o : object) : list ptr :=
  match o with
  | Foo _ childs => [childs]
  | Player _ token _ => [token]
  | Scene monsters players => [monsters; players]
  | Sync players scene => [players; scene]
  | XList e buf => if elem_shared e then buf else []
  | XStr _ | XBuf _ | Monster => []
  end.

Definition owned_ptrs (v : ptr) (h : heap) : list ptr := v :: ((map_to_list h).*2 ≫= shared_ptrs).

Definition drop_unowned (old : Z) (v : ptr) (h : heap) : heap :=
  filter (fun x => x.1 < old \/ Some x.1 ∈ owned_ptrs v h) h.

(** A round that destroys nothing ends it: as many rounds as there are objects
    are enough. *)
Definition release (old : Z) (v : ptr) (h : heap) : heap := Nat.iter (size h) (drop_unowned old v) h.

(** [objIdxs.clear(); strIdxs.clear();] *)
Definition clear_tables (old : Z) (st : reading) : reading :=
  MkReading (set_strIdxs ∅ (set_objIdxs ∅ (rbb st))) (release old (rroot st) (rheap st)) (rnext st) (rroot st).

(** Run a reader, then clear the tables, also when it has failed. *)
Definition then_clear {A} (old : Z) (m : M reading A) : M reading A := fun st =>
  match m st with
  | Done v st => Done v (clear_tables old st)
  | Fail e st => Fail e (clear_tables old st)
  | Undef => Undef
  end.

(** Every object takes at least two bytes, so the depth is below the length. *)
Definition ReadRoot (T : ptype) : M reading ptr :=
  _ ← on_bb (modify (fun bb => set_offsetRoot (offset bb) bb));
  st ← get;
  _ ← assert_ (bool_decide (objIdxs (rbb st) = ∅) && bool_decide (strIdxs (rbb st) = ∅));
  then_clear (rnext st) (ReadPtr (S (length (data (rbb st)))) Root T).
