(* ===== verification/GraphRef.v ===== *)
(** * The object-graph reader as a function

    A reference for [ReadPtr]: the contents of an object are read as a value,
    and the object is written once, when its contents are complete; nothing is
    destroyed.  What it leaves when reading fails is of no interest.
    [GraphRead] shows that the reader of the code gives the same results, and
    [GraphRoundtrip] that this one inverts the writer. *)

From Stdlib Require Import ZArith Lia.
From stdpp Require Import base numbers list gmap.
From S2P Require Import Prelude Util BBuffer Graph.
Open Scope Z_scope.

Module Ref.

Record reading := MkReading {
  rbb : BBuffer;
  rheap : heap;
  rnext : Z              (* addresses from here on are free *)
}.

Definition on_bb {A} (m : M BBuffer A) : M reading A := fun st =>
  match m (rbb st) with
  | Done a bb => Done a (MkReading bb (rheap st) (rnext st))
  | Fail e bb => Fail e (MkReading bb (rheap st) (rnext st))
  | Undef => Undef
  end.

Definition R16 : M reading Z := n ← on_bb (ReadFrom (T := num U16)); mret (num_val n).
Definition R64 : M reading Z := n ← on_bb (ReadFrom (T := num U64)); mret (num_val n).
Definition R32 : M reading Z := n ← on_bb (ReadFrom (T := num I32)); mret (num_val n).

(** [xx::TryMake<T>()]. *)
Definition alloc (o : object) : M reading Z := fun st =>
  Done (rnext st) (MkReading (rbb st) (<[rnext st := o]> (rheap st)) (rnext st + 1)).
Definition store (a : Z) (o : object) : M reading unit :=
  modify (fun st => MkReading (rbb st) (<[a := o]> (rheap st)) (rnext st)).
Definition no_limit : M reading unit := on_bb (modify (set_readLengthLimit 0)).

Section contents.
Context (ReadPtr : ptype -> M reading ptr).

Fixpoint Read_items (e : elem) (n : nat) : M reading (list ptr) :=
  match n with
  | O => mret []
  | S n => p ← ReadPtr (elem_type e); l ← Read_items e n; mret (p :: l)
  end.

Definition List_FromBBuffer (e : elem) : M reading object :=
  n ← R64;
  st ← get;
  _ ← reject_if (negb (readLengthLimit (rbb st) =? 0) && (readLengthLimit (rbb st) <? n)) (-1);
  _ ← reject_if (len (rbb st) <? u64 (offset (rbb st) + n)) (-2);
  l ← Read_items e (Z.to_nat n);
  mret (XList e l).

Definition Player_FromBBuffer : M reading object :=
  id ← R32;
  _ ← no_limit;
  token ← ReadPtr PString;
  target ← ReadPtr (PObject (Some CMonster));
  mret (Player id token target).

Definition Scene_FromBBuffer : M reading object :=
  _ ← no_limit;
  monsters ← ReadPtr (PObject (Some (CList Monster_s)));
  _ ← no_limit;
  players ← ReadPtr (PObject (Some (CList Player_w)));
  mret (Scene monsters players).

Definition Sync_FromBBuffer : M reading object :=
  _ ← no_limit;
  players ← ReadPtr (PObject (Some (CList Player_s)));
  scene ← ReadPtr (PObject (Some CScene));
  mret (Sync players scene).

Definition Foo_FromBBuffer : M reading object :=
  parent ← ReadPtr (PObject (Some CFoo));
  _ ← no_limit;
  childs ← ReadPtr (PObject (Some (CList Foo_w)));
  mret (Foo parent childs).

(** The virtual function of class [c]. *)
Definition FromBBuffer (c : cls) : M reading object :=
  match c with
  | CBBuffer => d ← on_bb BBuffer_FromBBuffer; mret (XBuf d)
  | CFoo => Foo_FromBBuffer
  | CPlayer => Player_FromBBuffer
  | CMonster => mret Monster
  | CScene => Scene_FromBBuffer
  | CSync => Sync_FromBBuffer
  | CList e => List_FromBBuffer e
  end.
End contents.

(** [ReadPtr] after the type has been read; [contents] is the virtual
    [FromBBuffer] of the new object. *)
Definition ReadPtr_body (contents : cls -> M reading object) (T : ptype) (typeId : Z) : M reading ptr :=
  if typeId =? 0 then mret None
  else
    _ ← match wrong_type T typeId with Some e => fail e | None => mret tt end;
    _ ← reject_if ((2 <? typeId) && bool_decide (creators typeId = None)) (-3);
    st ← get;
    let offs := u64 (offset (rbb st) - offsetRoot (rbb st)) in
    ptrOffset ← R64;
    if ptrOffset =? offs then
      match T with
      | PString =>
          a ← alloc (XStr []);
          _ ← on_bb (add_strIdx ptrOffset a);
          s ← on_bb (ReadFrom (T := xstring));
          _ ← store a (XStr (chars s));
          mret (Some a)
      | PObject T =>
          match (if typeId =? 2 then Some CBBuffer else creators typeId) with
          | None => fail (-3)
          | Some c =>
              a ← alloc (make c);
              _ ← reject_if (negb (cast_ok T (Some c))) (-4);
              _ ← on_bb (add_objIdx ptrOffset a);
              o ← contents c;
              _ ← store a o;
              mret (Some a)
          end
      end
    else
      st ← get;
      match T with
      | PString =>
          match strIdxs (rbb st) !! ptrOffset with
          | None => fail (-5)
          | Some a => mret (Some a)
          end
      | PObject T =>
          match objIdxs (rbb st) !! ptrOffset with
          | None => fail (-6)
          | Some a =>
              o ← demand (rheap st !! a);
              _ ← reject_if (negb (GetTypeId o =? typeId)) (-7);
              _ ← reject_if (negb (cast_ok T (class_of o))) (-8);
              mret (Some a)
          end
      end.

Fixpoint ReadPtr (fuel : nat) (T : ptype) : M reading ptr :=
  match fuel with
  | O => undef
  | S fuel => typeId ← R16; ReadPtr_body (FromBBuffer (ReadPtr fuel)) T typeId
  end.

End Ref.
