(* ===== verification/GraphRead.v ===== *)
(** * The reader of the code against the reference

    [ReadPtr] fills the fields of an object one by one, through the place that
    it is given; [Ref.ReadPtr] reads the contents as a value.  They give the
    same results and the same errors, and at the end the same objects. *)

From Stdlib Require Import ZArith Lia.
From stdpp Require Import base numbers list gmap.
From S2P Require Import Prelude Util BBuffer Graph GraphRef.
Open Scope Z_scope.

(** ** The relation

    [H]: the objects that are being read, as the code has filled them so far;
    the reference knows no more of them than their class. *)

Definition related (H : heap) (r : ptr) (rs : Ref.reading) (fs : reading) : Prop :=
  Ref.rbb rs = rbb fs /\ Ref.rnext rs = rnext fs /\ rroot fs = r /\
  (forall a, H !! a = None -> rheap fs !! a = Ref.rheap rs !! a) /\
  (forall a o, H !! a = Some o -> rheap fs !! a = Some o /\ a < rnext fs /\ exists o', Ref.rheap rs !! a = Some o' /\ class_of o' = class_of o).

(** The two runs end in the same way. *)
Definition runs {A B} (P : Ref.reading -> reading -> Prop) (m : M Ref.reading A) (m' : M reading B) (Q : A -> B -> Ref.reading -> reading -> Prop) : Prop :=
  forall rs fs, P rs fs ->
    match m rs, m' fs with
    | Done x rs', Done y fs' => Q x y rs' fs'
    | Fail e rs', Fail e' fs' => e' = e /\ Ref.rbb rs' = rbb fs'
    | Undef, Undef => True
    | _, _ => False
    end.

Lemma runs_bind {A B C D} P (m : M Ref.reading A) (m' : M reading B) (f : A -> M Ref.reading C) (f' : B -> M reading D) Q R :
  runs P m m' Q -> (forall x y, runs (Q x y) (f x) (f' y) R) -> runs P (x ← m; f x) (y ← m'; f' y) R.
Proof.
  intros Hm Hf rs fs HP. specialize (Hm rs fs HP). unfold mbind, M_bind. destruct (m rs), (m' fs); try done. by apply Hf.
Qed.

Lemma runs_weaken {A B} P P' (m : M Ref.reading A) (m' : M reading B) Q Q' :
  (forall rs fs, P' rs fs -> P rs fs) -> (forall x y rs fs, Q x y rs fs -> Q' x y rs fs) -> runs P m m' Q -> runs P' m m' Q'.
Proof. intros HP HQ Hm rs fs H. specialize (Hm rs fs (HP _ _ H)). destruct (m rs), (m' fs); try done. by apply HQ. Qed.

Lemma runs_ext {A B} P (m m0 : M Ref.reading A) (m' m0' : M reading B) Q :
  (forall s, m s = m0 s) -> (forall s, m' s = m0' s) -> runs P m0 m0' Q -> runs P m m' Q.
Proof. intros E E' Hm rs fs HP. rewrite E, E'. by apply Hm. Qed.

Lemma runs_ret {A B} (x : A) (y : B) (P : Ref.reading -> reading -> Prop) (Q : A -> B -> Ref.reading -> reading -> Prop) :
  (forall rs fs, P rs fs -> Q x y rs fs) -> runs P (mret x) (mret y) Q.
Proof. intros H rs fs HP. by apply H. Qed.

Lemma runs_left {A B C} P P' (m : M Ref.reading A) (f : A -> M Ref.reading B) (k : M reading C) Q :
  (forall rs fs, P rs fs -> exists x rs', m rs = Done x rs' /\ P' x rs' fs) -> (forall x, runs (P' x) (f x) k Q) -> runs P (x ← m; f x) k Q.
Proof. intros Hm Hf rs fs HP. destruct (Hm rs fs HP) as (x & rs' & E & HP'). rewrite (bind_done _ _ _ _ _ E). by apply Hf. Qed.

(** A step of the code alone. *)
Lemma runs_right {A B C} P P' (m : M reading A) (f : A -> M reading B) (k : M Ref.reading C) Q :
  (forall rs fs, P rs fs -> exists y fs', m fs = Done y fs' /\ P' y rs fs') -> (forall y, runs (P' y) k (f y) Q) -> runs P k (y ← m; f y) Q.
Proof. intros Hm Hf rs fs HP. destruct (Hm rs fs HP) as (y & fs' & E & HP'). rewrite (bind_done _ _ _ _ _ E). by apply Hf. Qed.

Lemma runs_end {A B C} P (m : M Ref.reading A) (m' : M reading B) (y : B -> C) Q :
  runs P m m' (fun x z => Q x (y z)) -> runs P m (z ← m'; mret (y z)) Q.
Proof. intros Hm rs fs HP. specialize (Hm rs fs HP). unfold mbind, M_bind. by destruct (m rs), (m' fs). Qed.

Lemma runs_map {A B C} P (m : M Ref.reading A) (m' : M reading B) (f : A -> C) Q :
  runs P m m' (fun x y => Q (f x) y) -> runs P (x ← m; mret (f x)) m' Q.
Proof. intros Hm rs fs HP. specialize (Hm rs fs HP). unfold mbind, M_bind. by destruct (m rs), (m' fs). Qed.

Lemma runs_get {B D} P (f : Ref.reading -> M Ref.reading B) (f' : reading -> M reading D) R :
  (forall rs fs, P rs fs -> runs P (f rs) (f' fs) R) -> runs P (x ← get; f x) (y ← get; f' y) R.
Proof. intros Hf rs fs HP. by apply (Hf rs fs HP rs fs). Qed.

Section rel.
Context (H : heap) (r : ptr).
Abbreviation rel := (related H r).

Lemma runs_fail {A B} e Q : runs rel (A := A) (B := B) (fail e) (fail e) Q.
Proof. intros rs fs (E & _). by split. Qed.

Lemma runs_reject b e : runs rel (reject_if b e) (reject_if b e) (fun _ _ => rel).
Proof. destruct b; [apply runs_fail|by apply runs_ret]. Qed.

Lemma runs_bb {A} (m : M BBuffer A) : runs rel (Ref.on_bb m) (on_bb m) (fun x y rs fs => y = x /\ rel rs fs).
Proof.
  intros rs fs (E1 & E2 & E3 & E4 & E5). unfold Ref.on_bb, on_bb. rewrite E1. by destruct (m (rbb fs)).
Qed.

Lemma runs_num {A} (m : M BBuffer A) (f : A -> Z) :
  runs rel (n ← Ref.on_bb m; mret (f n)) (n ← on_bb m; mret (f n)) (fun x y rs fs => y = x /\ rel rs fs).
Proof. eapply runs_bind; [apply runs_bb|]. intros x y. apply runs_ret. by intros rs fs [-> Hr]. Qed.

Lemma runs_R16 : runs rel Ref.R16 R16 (fun x y rs fs => y = x /\ rel rs fs).
Proof. apply runs_num. Qed.
Lemma runs_R64 : runs rel Ref.R64 R64 (fun x y rs fs => y = x /\ rel rs fs).
Proof. apply runs_num. Qed.
Lemma runs_R32 : runs rel Ref.R32 R32 (fun x y rs fs => y = x /\ rel rs fs).
Proof. apply runs_num. Qed.
Lemma runs_no_limit : runs rel Ref.no_limit no_limit (fun _ _ => rel).
Proof. eapply runs_weaken; [done| |apply runs_bb]. by intros x y rs fs [_ Hr]. Qed.

(** A result that both have. *)
Lemma runs_eq {A B C} (f : A -> M Ref.reading B) (f' : A -> M reading C) Q :
  (forall x, runs rel (f x) (f' x) Q) -> forall x y, runs (fun rs fs => y = x /\ rel rs fs) (f x) (f' y) Q.
Proof. intros Hf x y rs fs [-> Hr]. by apply Hf. Qed.

Lemma related_object a o : H !! a = Some o -> forall rs fs, rel rs fs -> rheap fs !! a = Some o.
Proof. intros Ha rs fs (_ & _ & _ & _ & E). by apply E. Qed.

Lemma related_update a o f rs fs : H !! a = Some o -> class_of (f o) = class_of o -> rel rs fs ->
  exists fs', update a f fs = Done tt fs' /\ related (<[a := f o]> H) r rs fs'.
Proof.
  intros Ha Hc Hr. pose proof (related_object a o Ha rs fs Hr) as Eo. destruct Hr as (E1 & E2 & E3 & E4 & E5).
  exists (set_rheap (<[a := f o]> (rheap fs)) fs). split; [unfold update, mbind, M_bind, get, demand, put; by rewrite Eo|].
  split_and!; try done; cbn [set_rheap rheap rnext]; intros b.
  - intros [Hb Hne]%lookup_insert_None. rewrite lookup_insert_ne by done. by apply E4.
  - intros o1 [[<- <-]|[Hne Hb]]%lookup_insert_Some.
    + rewrite lookup_insert_eq. split; [done|]. destruct (E5 a o Ha) as (_ & Hn & o' & Eo' & Hc'). split; [done|]. exists o'. by rewrite Hc.
    + rewrite lookup_insert_ne by done. by apply E5.
Qed.
End rel.

(** ** Places *)

Lemma set_field_class i p o : class_of (set_field i p o) = class_of o.
Proof. by destruct o, i. Qed.

Lemma set_field_twice i p q o : set_field i p (set_field i q o) = set_field i p o.
Proof. destruct o, i; try done; cbn; by rewrite list_insert_insert_eq. Qed.

Definition filled (v : place) (p : ptr) (H : heap) : heap :=
  match v with Field a i => alter (set_field i p) a H | Root | Local => H end.
Definition root_of (v : place) (p r : ptr) : ptr := match v with Root => p | Local | Field _ _ => r end.
Definition place_ok (H : heap) (v : place) : Prop := match v with Field a _ => is_Some (H !! a) | Root | Local => True end.

Lemma filled_twice v p q H : filled v p (filled v q H) = filled v p H.
Proof.
  destruct v as [| |a i]; try done. cbn. apply map_eq. intros b. destruct (decide (b = a)) as [->|Hne]; [|by rewrite !lookup_alter_ne].
  rewrite !lookup_alter_eq. destruct (H !! a); cbn; [|done]. by rewrite set_field_twice.
Qed.
Lemma root_twice v p q r : root_of v p (root_of v q r) = root_of v p r.
Proof. by destruct v. Qed.
Lemma place_filled v v' p H : place_ok H v -> place_ok (filled v' p H) v.
Proof.
  destruct v as [| |a i], v' as [| |b j]; try done. cbn. intros [o Ho]. destruct (decide (b = a)) as [->|Hne].
  - rewrite lookup_alter_eq, Ho. by eexists.
  - rewrite lookup_alter_ne by done. by exists o.
Qed.
Lemma filled_fresh v p H a : filled v p H !! a = None <-> H !! a = None.
Proof.
  destruct v as [| |b j]; try done. cbn. destruct (decide (b = a)) as [->|Hne]; [|by rewrite lookup_alter_ne].
  rewrite lookup_alter_eq. by destruct (H !! a).
Qed.
Lemma place_insert H v a o : place_ok H v -> place_ok (<[a := o]> H) v.
Proof. destruct v as [| |b j]; try done. cbn. intros Hb. by apply lookup_insert_is_Some'; right. Qed.
Lemma filled_insert v p a o H : H !! a = None -> place_ok H v -> filled v p (<[a := o]> H) = <[a := o]> (filled v p H).
Proof. destruct v as [| |b i]; try done. cbn. intros Ha [x Hx]. rewrite alter_insert_ne; [done|]. intros ->. congruence. Qed.

Lemma assign_related v p H r rs fs : place_ok H v -> related H r rs fs ->
  exists y fs', assign v p fs = Done y fs' /\ related (filled v p H) (root_of v p r) rs fs'.
Proof.
  intros Hv Hr. destruct v as [| |a i].
  - exists tt, (set_rroot p fs). split; [done|]. destruct Hr as (E1 & E2 & _ & E4 & E5). by split_and!.
  - by exists tt, fs.
  - destruct Hv as [o Ho]. destruct (related_update H r a o (set_field i p) rs fs Ho (set_field_class i p o) Hr) as (fs' & E & Hr').
    exists tt, fs'. split; [exact E|]. cbn. rewrite <-(insert_id H a o Ho) at 1. by rewrite alter_insert_eq.
Qed.

(** ** Contents *)

Section contents.
Context (RP : ptype -> M Ref.reading ptr) (RP' : place -> ptype -> M reading ptr).
Context (HRP : forall H r v T, place_ok H v ->
  runs (related H r) (RP T) (RP' v T) (fun p q rs fs => q = p /\ related (filled v p H) (root_of v p r) rs fs)).

Lemma runs_shared H r a i o T : H !! a = Some o ->
  runs (related H r) (RP T) (Read_shared RP' a i T) (fun p _ => related (<[a := set_field i p o]> H) r).
Proof using HRP.
  intros Ho. unfold Read_shared. apply (runs_end _ _ _ (fun _ => tt)). eapply runs_weaken; [done| |apply (HRP H r (Field a i) T); by exists o].
  cbn. intros p q rs fs [_ Hr]. rewrite <-(insert_id H a o Ho) in Hr. by rewrite alter_insert_eq in Hr.
Qed.

Lemma runs_weak H r a i o T : H !! a = Some o ->
  runs (related H r) (RP T) (Read_weak RP' a i T) (fun p _ => related (<[a := set_field i p o]> H) r).
Proof using HRP.
  intros Ho rs fs Hr. pose proof (HRP H r Local T I rs fs Hr) as Hm. unfold Read_weak, mbind, M_bind.
  destruct (RP T rs) as [p rs'| |], (RP' Local T fs) as [q fs'| |]; try done. destruct Hm as [-> Hr']. cbn in Hr'.
  destruct (related_update H r a o (set_field i p) rs' fs' Ho (set_field_class i p o) Hr') as (fs2 & E & Hr2). cbn. by rewrite E.
Qed.

Lemma runs_items H r a e n : forall l,
  runs (related (<[a := XList e (l ++ replicate n None)]> H) r) (Ref.Read_items RP e n) (Read_items RP' e a (length l) n)
    (fun l' _ => related (<[a := XList e (l ++ l')]> H) r).
Proof using HRP.
  induction n as [|n IH]; intros l; cbn [Ref.Read_items Read_items replicate]; [by apply runs_ret|].
  set (o := XList e (l ++ None :: replicate n None)).
  apply (runs_bind _ _ _ _ _ (fun p _ => related (<[a := XList e ((l ++ [p]) ++ replicate n None)]> H) r)).
  - assert (Eo : forall p, <[a := set_field (length l) p o]> (<[a := o]> H) = <[a := XList e ((l ++ [p]) ++ replicate n None)]> H).
    { intros p. rewrite insert_insert_eq. f_equal. unfold o. cbn. rewrite insert_app_r_alt, Nat.sub_diag by lia. cbn. by rewrite <-app_assoc. }
    destruct (elem_shared e).
    + eapply runs_weaken; [done| |apply runs_shared, lookup_insert_eq]. intros p ? rs fs Hr. cbv beta in Hr. by rewrite Eo in Hr.
    + eapply runs_weaken; [done| |apply runs_weak, lookup_insert_eq]. intros p ? rs fs Hr. cbv beta in Hr. by rewrite Eo in Hr.
  - intros p ?. apply runs_map. specialize (IH (l ++ [p])). rewrite length_app, Nat.add_1_r in IH.
    eapply runs_weaken; [done| |exact IH]. intros l' ? rs fs. cbv beta. by rewrite <-app_assoc.
Qed.

(** The contents as a value, and in the object. *)
Lemma runs_contents H r a c :
  runs (related (<[a := make c]> H) r) (Ref.FromBBuffer RP c) (FromBBuffer RP' c a) (fun o _ rs fs => class_of o = Some c /\ related (<[a := o]> H) r rs fs).
Proof using HRP.
  assert (Hset : forall o i p, <[a := set_field i p o]> (<[a := o]> H) = <[a := set_field i p o]> H) by (intros; apply insert_insert_eq).
  assert (Hsh : forall o i T, runs (related (<[a := o]> H) r) (RP T) (Read_shared RP' a i T) (fun p _ => related (<[a := set_field i p o]> H) r)).
  { intros o i T. eapply runs_weaken; [done| |apply runs_shared, lookup_insert_eq]. intros p ? rs fs Hr. cbv beta in Hr. by rewrite Hset in Hr. }
  assert (Hwk : forall o i T, runs (related (<[a := o]> H) r) (RP T) (Read_weak RP' a i T) (fun p _ => related (<[a := set_field i p o]> H) r)).
  { intros o i T. eapply runs_weaken; [done| |apply runs_weak, lookup_insert_eq]. intros p ? rs fs Hr. cbv beta in Hr. by rewrite Hset in Hr. }
  assert (Hup : forall o f rs fs, class_of (f o) = class_of o -> related (<[a := o]> H) r rs fs -> exists fs', update a f fs = Done tt fs' /\ related (<[a := f o]> H) r rs fs').
  { intros o f rs fs Hc Hr. destruct (related_update _ r a o f rs fs ltac:(apply lookup_insert_eq) Hc Hr) as (fs' & E & Hr'). rewrite insert_insert_eq in Hr'. by exists fs'. }
  destruct c; cbn [Ref.FromBBuffer FromBBuffer make].
  - eapply runs_bind; [apply runs_bb|]. intros d d'. intros rs fs [-> Hr]. destruct (Hup (XBuf []) (fun _ => XBuf d) rs fs eq_refl Hr) as (fs' & E & Hr'). rewrite E. by split.
  - eapply runs_bind; [apply Hwk|]. intros p ?. eapply runs_bind; [apply runs_no_limit|]. intros ? ?.
    apply runs_map. eapply runs_weaken; [done| |apply Hsh]. by intros q ? rs fs Hr.
  - eapply runs_bind; [apply runs_R32|]. apply runs_eq. intros id. apply (runs_right _ (fun _ => related (<[a := Player id None None]> H) r)).
    { intros rs fs Hr. destruct (Hup (Player 0 None None) (set_id id) rs fs eq_refl Hr) as (fs' & E & Hr'). exists tt, fs'. split; [exact E|exact Hr']. }
    intros _. cbn [set_id]. eapply runs_bind; [apply runs_no_limit|]. intros ? ?. eapply runs_bind; [apply Hsh|]. intros p ?.
    apply runs_map. eapply runs_weaken; [done| |apply Hwk]. by intros q ? rs fs Hr.
  - by apply runs_ret.
  - eapply runs_bind; [apply runs_no_limit|]. intros ? ?. eapply runs_bind; [apply Hsh|]. intros p ?. eapply runs_bind; [apply runs_no_limit|]. intros ? ?.
    apply runs_map. eapply runs_weaken; [done| |apply Hsh]. by intros q ? rs fs Hr.
  - eapply runs_bind; [apply runs_no_limit|]. intros ? ?. eapply runs_bind; [apply Hsh|]. intros p ?.
    apply runs_map. eapply runs_weaken; [done| |apply Hsh]. by intros q ? rs fs Hr.
  - eapply runs_bind; [apply runs_R64|]. apply runs_eq. intros n. apply runs_get. intros rs0 fs0 Hr0. pose proof (proj1 Hr0) as Eb. rewrite Eb.
    eapply runs_bind; [apply runs_reject|]. intros ? ?. eapply runs_bind; [apply runs_reject|]. intros ? ?.
    apply (runs_right _ (fun _ => related (<[a := XList e (replicate (Z.to_nat n) None)]> H) r)).
    { intros rs fs Hr. destruct (Hup (XList e []) (fun _ => XList e (replicate (Z.to_nat n) None)) rs fs eq_refl Hr) as (fs' & E & Hr'). exists tt, fs'. split; [exact E|exact Hr']. }
    intros _. cbn beta. apply runs_map. eapply runs_weaken; [done| |apply (runs_items H r a e (Z.to_nat n) [])]. by intros l ? rs fs Hr.
Qed.
End contents.

(** ** Pointers *)

Lemma related_alloc H r o rs fs : related H r rs fs -> H !! rnext fs = None /\ exists rs' fs',
  Ref.alloc o rs = Done (rnext fs) rs' /\ alloc o fs = Done (rnext fs) fs' /\ related (<[rnext fs := o]> H) r rs' fs'.
Proof.
  intros (E1 & E2 & E3 & E4 & E5).
  assert (Hn : H !! rnext fs = None) by (destruct (H !! rnext fs) eqn:E; [|done]; destruct (E5 _ _ E) as (_ & ? & _); lia).
  split; [done|]. unfold Ref.alloc, alloc. rewrite E2. eexists _, _. split; [reflexivity|]. split; [reflexivity|].
  split_and!; cbn; try done; intros b.
  - intros [Hb Hne]%lookup_insert_None. rewrite !lookup_insert_ne by done. by apply E4.
  - intros o1 [[<- <-]|[Hne Hb]]%lookup_insert_Some.
    + rewrite !lookup_insert_eq. split; [done|]. split; [lia|]. by exists o.
    + destruct (E5 _ _ Hb) as (? & ? & ?). rewrite !lookup_insert_ne by done. split; [done|]. split; [lia|done].
Qed.

(** The contents are complete: the reference writes the object. *)
Lemma related_store H r a o rs fs : H !! a = None -> related (<[a := o]> H) r rs fs ->
  exists rs', Ref.store a o rs = Done tt rs' /\ related H r rs' fs.
Proof.
  intros Ha (E1 & E2 & E3 & E4 & E5). eexists. split; [reflexivity|]. split_and!; cbn; try done; intros b.
  - intros Hb. destruct (decide (b = a)) as [->|Hne].
    + rewrite lookup_insert_eq. by apply E5, lookup_insert_eq.
    + rewrite lookup_insert_ne by done. apply E4. by rewrite lookup_insert_ne.
  - intros o1 Hb. assert (b <> a) by congruence. destruct (E5 b o1) as (? & ? & ?); [by rewrite lookup_insert_ne|].
    by rewrite lookup_insert_ne.
Qed.

(** The class of an object that is there. *)
Lemma related_class H r a rs fs : related H r rs fs -> class_of <$> (Ref.rheap rs !! a) = class_of <$> (rheap fs !! a).
Proof.
  intros (_ & _ & _ & E4 & E5). destruct (H !! a) as [o|] eqn:Ha; [|by rewrite (E4 a Ha)].
  destruct (E5 a o Ha) as (-> & _ & o' & -> & Hc). cbn. by rewrite Hc.
Qed.

Section body.
Context (contents : cls -> M Ref.reading object) (contents' : cls -> Z -> M reading unit).
Context (Hcontents : forall H r a c,
  runs (related (<[a := make c]> H) r) (contents c) (contents' c a) (fun o _ rs fs => class_of o = Some c /\ related (<[a := o]> H) r rs fs)).
Context (H : heap) (r : ptr) (v : place) (Hv : place_ok H v).

(** What a reader of a pointer is to do. *)
Definition same_ptr (p q : ptr) (rs : Ref.reading) (fs : reading) : Prop := q = p /\ related (filled v p H) (root_of v p r) rs fs.

Lemma assign_twice p rs fs : related (filled v None H) (root_of v None r) rs fs ->
  exists y fs', assign v p fs = Done y fs' /\ related (filled v p H) (root_of v p r) rs fs'.
Proof using Hv.
  intros Hr. destruct (assign_related v p _ _ rs fs (place_filled v v None H Hv) Hr) as (y & fs' & E & Hr').
  rewrite filled_twice, root_twice in Hr'. by exists y, fs'.
Qed.

(** A new object: [k] and [k'] read its contents. *)
Lemma runs_new o (k : Z -> M Ref.reading object) (k' : Z -> M reading unit) f :
  (forall a H' r', runs (related (<[a := o]> H') r') (k a) (k' a) (fun o' _ rs fs => class_of o' = class_of o /\ related (<[a := o']> H') r' rs fs)) ->
  runs (related (filled v None H) (root_of v None r))
    (a ← Ref.alloc o; _ ← Ref.on_bb (modify (f a)); x ← k a; _ ← Ref.store a x; mret (Some a))
    (a ← alloc o; _ ← assign v (Some a); _ ← on_bb (modify (f a)); _ ← k' a; mret (Some a)) same_ptr.
Proof using Hv.
  intros Hk rs fs Hr. destruct (related_alloc _ _ o rs fs Hr) as (Hn & rs1 & fs1 & E1 & F1 & Hr1).
  set (a := rnext fs) in *. rewrite (bind_done _ _ _ _ _ E1), (bind_done _ _ _ _ _ F1).
  destruct (assign_related v (Some a) _ _ rs1 fs1 (place_insert (filled v None H) v a o (place_filled v v None H Hv)) Hr1) as (y & fs2 & F2 & Hr2).
  rewrite filled_insert, filled_twice, root_twice in Hr2 by (done || by apply place_filled). rewrite (bind_done _ _ _ _ _ F2).
  refine ((_ : runs (related (<[a := o]> (filled v (Some a) H)) (root_of v (Some a) r)) _ _ same_ptr) rs1 fs2 Hr2).
  eapply runs_bind; [apply runs_bb|]. intros ? ?. eapply runs_weaken; [intros ? ? [_ Hr']; exact Hr'|intros ? ? ? ? Hq; exact Hq|].
  eapply runs_bind; [apply Hk|]. intros x' []. apply (runs_left _ (fun _ => related (filled v (Some a) H) (root_of v (Some a) r))).
  { intros rs' fs' [_ Hr']. destruct (related_store _ _ a x' rs' fs' (proj2 (filled_fresh v (Some a) H a) (proj1 (filled_fresh v None H a) Hn)) Hr') as (rs2 & E & Hr3).
    exists tt, rs2. split; [exact E|exact Hr3]. }
  intros _. apply runs_ret. by intros rs' fs' Hr'.
Qed.

Lemma runs_string n :
  runs (related (filled v None H) (root_of v None r))
    (a ← Ref.alloc (XStr []); _ ← Ref.on_bb (add_strIdx n a); s ← Ref.on_bb (ReadFrom (T := xstring)); _ ← Ref.store a (XStr (chars s)); mret (Some a))
    (a ← alloc (XStr []); _ ← assign v (Some a); _ ← on_bb (add_strIdx n a); s ← on_bb (ReadFrom (T := xstring));
     _ ← update a (fun _ => XStr (chars s)); mret (Some a)) same_ptr.
Proof using Hv.
  eapply runs_ext; [| |apply (runs_new (XStr []) (fun a => s ← Ref.on_bb (ReadFrom (T := xstring)); mret (XStr (chars s)))
    (fun a => s ← on_bb (ReadFrom (T := xstring)); update a (fun _ => XStr (chars s))) (fun a bb => set_strIdxs (<[n := a]> (strIdxs bb)) bb))].
  - intros rs. apply bind_ext; [done|]. intros a rs1 _. apply bind_ext; [done|]. intros ? rs2 _. by rewrite bind_assoc.
  - intros fs. apply bind_ext; [done|]. intros a fs1 _. apply bind_ext; [done|]. intros ? fs2 _. apply bind_ext; [done|]. intros ? fs3 _. by rewrite bind_assoc.
  - intros a H' r'. eapply runs_bind; [apply runs_bb|]. apply runs_eq. intros s rs fs Hr.
    destruct (related_update _ r' a (XStr []) (fun _ => XStr (chars s)) rs fs (lookup_insert_eq _ _ _) eq_refl Hr) as (fs' & E & Hr').
    rewrite E, insert_insert_eq in *. by split.
Qed.

Lemma runs_object n T c :
  runs (related (filled v None H) (root_of v None r))
    (a ← Ref.alloc (make c); _ ← reject_if (negb (cast_ok T (Some c))) (-4); _ ← Ref.on_bb (add_objIdx n a); o ← contents c; _ ← Ref.store a o; mret (Some a))
    (a ← alloc (make c);
     if cast_ok T (Some c) then _ ← assign v (Some a); _ ← on_bb (add_objIdx n a); _ ← contents' c a; mret (Some a)
     else _ ← destroy a; fail (-4)) same_ptr.
Proof using Hcontents Hv.
  destruct (cast_ok T (Some c)).
  - pose proof (runs_new (make c) (fun _ => contents c) (contents' c) (fun a bb => set_objIdxs (<[n := a]> (objIdxs bb)) bb)) as Hn.
    apply Hn. intros a H' r'. eapply runs_weaken; [done| |apply Hcontents]. intros o y rs fs [Hc Hr]. split; [|done]. by destruct c.
  - intros rs fs (E1 & _). unfold Ref.alloc, alloc, destroy, modify, fail, mbind, M_bind. cbn. done.
Qed.

Lemma runs_body T typeId :
  runs (related (filled v None H) (root_of v None r)) (Ref.ReadPtr_body contents T typeId) (ReadPtr_body contents' v T typeId) same_ptr.
Proof using Hcontents Hv.
  unfold Ref.ReadPtr_body, ReadPtr_body. destruct (typeId =? 0); [by apply runs_ret|].
  eapply runs_bind; [instantiate (1 := fun _ _ => related (filled v None H) (root_of v None r)); destruct (wrong_type T typeId); [apply runs_fail|by apply runs_ret]|].
  intros ? ?. eapply runs_bind; [apply runs_reject|]. intros ? ?. apply runs_get. intros rs0 fs0 Hr0. rewrite (proj1 Hr0).
  cbv zeta.
  eapply runs_bind; [apply runs_R64|]. apply runs_eq. intros n. destruct (n =? _).
  - destruct T as [|T].
    + apply (runs_string n).
    + destruct (if typeId =? 2 then Some CBBuffer else creators typeId) as [c|]; [|apply runs_fail]. apply (runs_object n T c).
  - apply runs_get. intros rs1 fs1 Hr1. rewrite (proj1 Hr1).
    assert (Hset : forall a, runs (related (filled v None H) (root_of v None r)) (mret (M := M Ref.reading) (Some a)) (_ ← assign v (Some a); mret (M := M reading) (Some a)) same_ptr).
    { intros a. eapply runs_right; [intros rs fs Hr; apply (assign_twice (Some a) rs fs Hr)|]. intros ?. by apply runs_ret. }
    destruct T as [|T].
    + destruct (strIdxs _ !! n) as [a|]; [apply Hset|apply runs_fail].
    + destruct (objIdxs _ !! n) as [a|]; [|apply runs_fail].
      pose proof (related_class _ _ a _ _ Hr1) as Hc.
      destruct (Ref.rheap rs1 !! a) as [o|], (rheap fs1 !! a) as [o'|]; try done. injection Hc as Hc.
      assert (Et : GetTypeId o' = GetTypeId o) by (unfold GetTypeId; by rewrite Hc). cbn [demand].
      eapply (runs_bind _ _ _ _ _ (fun x y => fun rs fs => (x = o /\ y = o') /\ related (filled v None H) (root_of v None r) rs fs)); [by apply runs_ret|].
      intros x2 y2 rs fs [[-> ->] Hr]. revert rs fs Hr. rewrite Et, Hc.
      eapply runs_bind; [apply runs_reject|]. intros ? ?. eapply runs_bind; [apply runs_reject|]. intros ? ?. apply Hset.
Qed.
End body.

Lemma runs_ReadPtr fuel : forall H r v T, place_ok H v -> runs (related H r) (Ref.ReadPtr fuel T) (ReadPtr fuel v T) (same_ptr H r v).
Proof.
  induction fuel as [|fuel IH]; intros H r v T Hv; [by intros rs fs _|]. cbn [Ref.ReadPtr ReadPtr].
  apply (runs_right _ (fun _ => related (filled v None H) (root_of v None r))); [intros rs fs Hr; apply (assign_related v None H r rs fs Hv Hr)|]. intros _.
  eapply runs_bind; [apply runs_R16|]. apply runs_eq. intros typeId. apply runs_body; [|done].
  intros H' r' a c. apply runs_contents. intros H2 r2 v2 T2 Hv2. by apply IH.
Qed.

(** ** The whole reader *)

Definition core (st : reading) : Ref.reading := Ref.MkReading (rbb st) (rheap st) (rnext st).

(** The code's reader of object graphs, which fills fields through
    pointers, and the reference, which computes contents, run alike: the same
    result and the same objects, or the same error, or both are undefined. *)
Theorem reader_equals_reference fuel T st :
  match Ref.ReadPtr fuel T (core st), ReadPtr fuel Root T st with
  | Done p rs, Done q st' => q = p /\ rroot st' = p /\ rs = core st'
  | Fail e rs, Fail e' st' => e' = e /\ Ref.rbb rs = rbb st'
  | Undef, Undef => True
  | _, _ => False
  end.
Proof.
  pose proof (runs_ReadPtr fuel ∅ (rroot st) Root T I (core st) st) as Hr.
  destruct (Ref.ReadPtr fuel T (core st)) as [p rs| |], (ReadPtr fuel Root T st) as [q st'| |]; try (apply Hr; by split_and!).
  destruct Hr as [-> (E1 & E2 & E3 & E4 & _)]; [by split_and!|]. split; [done|]. split; [done|].
  destruct rs as [b h n]. cbn in *. subst. unfold core. f_equal. apply map_eq. intros a. symmetry. apply E4, lookup_empty.
Qed.
