(* ===== verification/GraphOwned.v ===== *)
(** * What survives when the tables of the reader are cleared

    [release] goes by owners, round by round.  What it leaves is the objects
    that were there before, and those that the pointer of the caller reaches
    over shared pointers: the classes own each other without cycles. *)

From Stdlib Require Import ZArith Lia.
From stdpp Require Import base numbers list gmap relations.
From S2P Require Import Prelude Util BBuffer Graph.
Open Scope Z_scope.

Implicit Types (h : heap) (v : ptr) (a b : Z) (o : object).

(** Object [a] has a shared pointer to [b]. *)
Definition owns h a b : Prop := exists o, h !! a = Some o /\ Some b ∈ shared_ptrs o.

(** What is reached from [v] over shared pointers. *)
Definition owned h v a : Prop := exists a0, v = Some a0 /\ is_Some (h !! a0) /\ rtc (owns h) a0 a.

(** No shared pointer dangles. *)
Definition shared_closed h : Prop := forall a b, owns h a b -> is_Some (h !! b).

Lemma owns_mono h h' a b : h ⊆ h' -> owns h a b -> owns h' a b.
Proof. intros Hs (o & Ho & Hb). exists o. split; [by eapply lookup_weaken|done]. Qed.

Lemma owned_mono h h' v a : h ⊆ h' -> owned h v a -> owned h' v a.
Proof.
  intros Hs (a0 & E & [o Ho] & Hr). exists a0. split; [done|]. split; [exists o; by eapply lookup_weaken|].
  eapply rtc_subrel; [|exact Hr]. intros x y. by apply owns_mono.
Qed.

Lemma owned_root h a : is_Some (h !! a) -> owned h (Some a) a.
Proof. intros Ha. exists a. split_and!; done. Qed.

Lemma owned_step h v a b : owned h v a -> owns h a b -> owned h v b.
Proof. intros (a0 & E & Ha & Hr) Hb. exists a0. split_and!; [done|done|]. by eapply rtc_r. Qed.

Lemma owned_alive h v a : shared_closed h -> owned h v a -> is_Some (h !! a).
Proof. intros Hc (a0 & _ & Ha & Hr). induction Hr as [|x y z Hxy _ IH]; [done|]. apply IH. by eapply Hc. Qed.

(** Induction along what is owned. *)
Lemma owned_ind h v (P : Z -> Prop) : (forall a, v = Some a -> is_Some (h !! a) -> P a) -> (forall a b, owned h v a -> P a -> owns h a b -> P b) ->
  forall a, owned h v a -> P a.
Proof.
  intros H0 Hs a (a0 & E & Ha & Hr). assert (Hall : owned h v a0) by by exists a0. pose proof (H0 a0 E Ha) as Hp. clear Ha E.
  induction Hr as [|x y z Hxy _ IH]; [done|]. apply IH; [by eapply owned_step|by apply (Hs x)].
Qed.

(** ** A round *)

Lemma owned_ptrs_spec v h a : Some a ∈ owned_ptrs v h <-> v = Some a \/ exists b, owns h b a.
Proof.
  unfold owned_ptrs. rewrite elem_of_cons, list_elem_of_bind. split.
  - intros [->|(o & Ha & Ho)]; [by left|right]. apply list_elem_of_fmap in Ho as ([b o'] & -> & Hb). exists b, o'. split; [by apply elem_of_map_to_list|done].
  - intros [->|(b & o & Hb & Ha)]; [by left|right]. exists o. split; [done|]. apply list_elem_of_fmap. exists (b, o). split; [done|by apply elem_of_map_to_list].
Qed.

Lemma drop_lookup old v h a o : drop_unowned old v h !! a = Some o <-> h !! a = Some o /\ (a < old \/ v = Some a \/ exists b, owns h b a).
Proof. unfold drop_unowned. rewrite map_lookup_filter_Some. cbn. by rewrite owned_ptrs_spec. Qed.

Lemma drop_subseteq old v h : drop_unowned old v h ⊆ h.
Proof. apply map_filter_subseteq. Qed.

Lemma drop_closed old v h : shared_closed h -> shared_closed (drop_unowned old v h).
Proof.
  intros Hc a b (o & Ho & Hb). apply drop_lookup in Ho as [Ho _]. assert (Hab : owns h a b) by by exists o.
  destruct (Hc a b Hab) as [o' Ho']. exists o'. apply drop_lookup. split; [done|]. right; right. by exists a.
Qed.

(** Objects each of which has an owner among them, or another one. *)
Definition kept old v h (X : Z -> Prop) : Prop :=
  forall a, X a -> is_Some (h !! a) /\ (a < old \/ v = Some a \/ exists b, X b /\ owns h b a).

Lemma drop_kept old v h X : kept old v h X -> kept old v (drop_unowned old v h) X /\ forall a, X a -> drop_unowned old v h !! a = h !! a.
Proof.
  intros Hk. assert (He : forall a, X a -> drop_unowned old v h !! a = h !! a).
  { intros a Ha. destruct (Hk a Ha) as [[o Ho] Hown]. rewrite Ho. apply drop_lookup. split; [done|]. naive_solver. }
  split; [|done]. intros a Ha. destruct (Hk a Ha) as [Ho Hown]. rewrite (He a Ha). split; [done|].
  destruct Hown as [?|[?|(b & Hb & o & Eb & Hp)]]; [auto|auto|]. right; right. exists b. split; [done|]. exists o. by rewrite (He b Hb).
Qed.

(** ** All rounds *)

Lemma release_subseteq old v h : release old v h ⊆ h.
Proof. unfold release. generalize (size h). induction n as [|n IH]; [done|]. cbn. etrans; [apply drop_subseteq|exact IH]. Qed.

Lemma release_closed old v h : shared_closed h -> shared_closed (release old v h).
Proof. intros Hc. unfold release. generalize (size h). induction n as [|n IH]; [done|]. by apply drop_closed. Qed.

Lemma release_kept old v h X a : kept old v h X -> X a -> release old v h !! a = h !! a.
Proof.
  intros Hk Ha. unfold release. generalize (size h). intros n.
  enough (kept old v (Nat.iter n (drop_unowned old v) h) X /\ Nat.iter n (drop_unowned old v) h !! a = h !! a) as [_ E] by done.
  induction n as [|n [IH1 IH2]]; [done|]. rewrite Nat.iter_succ. destruct (drop_kept _ _ _ _ IH1) as [H1 H2]. split; [exact H1|]. rewrite <-IH2. by apply H2.
Qed.

Lemma release_final old v h : drop_unowned old v (release old v h) = release old v h.
Proof.
  unfold release. set (f := drop_unowned old v). assert (Hfix : forall n h, f h = h -> Nat.iter n f h = h) by (intros n h0 E; induction n as [|n IH]; [done|]; by rewrite Nat.iter_succ, IH).
  enough (Hn : forall n h, (size h <= n)%nat -> f (Nat.iter n f h) = Nat.iter n f h) by by apply Hn.
  induction n as [|n IH]; intros h0 Hn.
  - cbn. assert (h0 = ∅) as -> by (apply map_size_empty_inv; lia). apply map_filter_empty.
  - rewrite Nat.iter_succ_r. destruct (decide (f h0 = h0)) as [E|E]; [by rewrite E, Hfix|]. apply IH.
    enough (size (f h0) < size h0)%nat by lia. apply map_subset_size. apply map_subset_alt. split; [apply drop_subseteq|].
    destruct (decide (map_Exists (fun a o => f h0 !! a = None) h0)) as [(a & o & Ho & Ha)|Hno]; [exists a; by rewrite Ho|].
    destruct E. apply map_eq. intros a. destruct (h0 !! a) as [o|] eqn:Ea.
    + destruct (f h0 !! a) as [o'|] eqn:Ef; [apply drop_lookup in Ef as [Ef _]; congruence|]. destruct Hno. by exists a, o.
    + destruct (f h0 !! a) as [o'|] eqn:Ef; [apply drop_lookup in Ef as [Ef _]; congruence|done].
Qed.

(** ** What is left *)

(** How deep objects of a class can own others. *)
Definition rank (o : object) : nat :=
  match o with
  | Sync _ _ => 4
  | Scene _ _ | XList Player_s _ => 3
  | Player _ _ _ | XList Monster_s _ | Foo _ _ => 2
  | _ => 1
  end.

Lemma rank_le o : (rank o <= 4)%nat.
Proof. destruct o as [| | | | | | |[]]; cbn; lia. Qed.

Definition ranked h : Prop := forall a b o o', h !! a = Some o -> Some b ∈ shared_ptrs o -> h !! b = Some o' -> (rank o' < rank o)%nat.

(** The objects that were there before do not point to new ones. *)
Definition old_apart old h : Prop := forall a b, a < old -> owns h a b -> b < old.

Lemma survivor_owned old v h a o : ranked h -> old_apart old h -> release old v h !! a = Some o -> old <= a -> owned (release old v h) v a.
Proof.
  intros Hr Ho. remember (4 - rank o)%nat as n eqn:En. revert a o En. induction n as [n IH] using lt_wf_ind. intros a o -> Ha Hge.
  pose proof Ha as Hf. rewrite <-release_final in Hf. apply drop_lookup in Hf as [_ [Hlt|[->|(b & Hb)]]]; [lia|by apply owned_root; exists o|].
  pose proof Hb as (ob & Eb & Hp). pose proof (release_subseteq old v h) as Hs.
  destruct (decide (b < old)) as [Hlt|Hbge]; [specialize (Ho b a Hlt (owns_mono _ _ _ _ Hs Hb)); lia|].
  apply (owned_step _ _ b); [|done]. pose proof (Hr b a ob o (lookup_weaken _ _ _ _ Eb Hs) Hp (lookup_weaken _ _ _ _ Ha Hs)).
  pose proof (rank_le ob). apply (IH (4 - rank ob)%nat) with ob; [lia|done|done|lia].
Qed.

(** [release] leaves the old objects and those that [v] owns, and nothing
    else. *)
Theorem release_exact old v h : shared_closed h -> ranked h -> old_apart old h ->
  forall a o, release old v h !! a = Some o <-> h !! a = Some o /\ (a < old \/ owned h v a).
Proof.
  intros Hc Hr Ho a o. pose proof (release_subseteq old v h) as Hs. split.
  - intros Ha. split; [by eapply lookup_weaken|]. destruct (decide (a < old)) as [?|Hge]; [by left|right].
    apply (owned_mono (release old v h)); [done|]. apply (survivor_owned old v h a o); [done|done|done|lia].
  - intros [Ha Hx]. rewrite (release_kept old v h (fun a => is_Some (h !! a) /\ (a < old \/ owned h v a))); [done| |split; [by exists o|done]].
    intros x [Hx1 [Hlt|Hown]]; (split; [done|]); [by left|]. destruct Hown as (a0 & -> & Ha0 & Hp).
    destruct (rtc_inv_r _ _ Hp) as [->|(y & Hy & Hyx)]; [by right; left|]. right; right. exists y.
    assert (Hown : owned h (Some a0) y) by by exists a0. split; [|done]. split; [by apply (owned_alive h (Some a0))|by right].
Qed.
