(* ===== verification/GraphTypes.v ===== *)
(** * Object graphs from arbitrary bytes: types, safety and termination

    What [ReadRoot] builds is well typed, whatever bytes it reads and whether it
    succeeds or fails: every shared pointer is null or points to an object of
    the class that its static type asks for, and every weak pointer is null,
    expired or points to such an object.  It is defined unless a number in the
    bytes is too long ([long_number]), and it never runs out of the fuel that it
    is given. *)

From Stdlib Require Import ZArith Lia.
From stdpp Require Import base numbers list gmap relations.
From S2P Require Import Prelude Util BBuffer Graph GraphRef GraphRead GraphOwned.
Open Scope Z_scope.

(** ** Scalars: only the position moves, and forwards *)

Definition at_ok (bb : BBuffer) : Prop := len bb < 2 ^ 63 /\ 0 <= offset bb <= len bb.

Definition reads (bb bb' : BBuffer) : Prop :=
  data bb' = data bb /\ objIdxs bb' = objIdxs bb /\ strIdxs bb' = strIdxs bb /\
  (at_ok bb -> offset bb <= offset bb' <= len bb').

#[export] Instance reads_preorder : PreOrder reads.
Proof.
  split.
  - intros bb. repeat split; try done; apply H.
  - intros a b c (A1 & A2 & A3 & A4) (B1 & B2 & B3 & B4). split_and!; try congruence. intros [H1 H2].
    destruct (A4 (conj H1 H2)) as [A5 A6]. assert (Hl : len b = len a) by (unfold len; by rewrite A1). destruct B4 as [B5 B6]; [split; lia|]. lia.
Qed.

Lemma reads_limit n bb : reads bb (set_readLengthLimit n bb).
Proof. split_and!; try done. intros [_ H]. cbn. exact (proj2 H) || (unfold len in *; cbn; lia). Qed.

Lemma reads_put n bb : (at_ok bb -> offset bb <= n <= len bb) -> reads bb (set_offset n bb).
Proof. intros H. split_and!; try done. Qed.

Lemma u64_at z : 0 <= z < 2 ^ 63 -> u64 z = z.
Proof. intros. apply uint_small. rng. Qed.

Lemma var_read_reads fuel t : forall shift u bb, after reads bb (var_read_loop fuel t shift u bb).
Proof.
  induction fuel as [|fuel IH]; intros shift u bb; cbn [var_read_loop]; [done|].
  destruct (shift <? sizeof t * 8); [|cbn; reflexivity].
  unfold mbind, M_bind, get, reject_if. destruct (Z.eqb_spec (offset bb) (len bb)); [cbn; reflexivity|]. cbn.
  destruct (znth (data bb) (offset bb)) as [b|]; [|done]. cbn.
  assert (R : reads bb (set_offset (u64 (offset bb + 1)) bb)).
  { apply reads_put. intros [H1 H2]. rewrite u64_at by lia. lia. }
  destruct (shift <? 32); [|done]. cbn. destruct (_ =? 0); [exact R|].
  pose proof (IH (shift + 7) (uint (bits t) (Z.lor u (u32 (Z.shiftl (Z.land b 127) shift)))) (set_offset (u64 (offset bb + 1)) bb)) as H.
  destruct (var_read_loop _ _ _ _ _); cbn in *; [by etrans|by etrans|done].
Qed.

(** At least one byte is taken. *)
Lemma var_read_moves fuel t shift u bb v bb' : var_read_loop fuel t shift u bb = Done v bb' -> at_ok bb -> offset bb < offset bb'.
Proof.
  intros E Ha. destruct fuel as [|fuel]; [done|]. cbn [var_read_loop] in E. destruct (shift <? sizeof t * 8); [|done].
  unfold mbind, M_bind, get, reject_if in E. destruct (Z.eqb_spec (offset bb) (len bb)); [done|]. cbn in E.
  destruct (znth (data bb) (offset bb)) as [b|]; [|done]. cbn in E. destruct Ha as [H1 H2].
  destruct (shift <? 32); [|done]. cbn in E. rewrite u64_at in E by lia.
  destruct (_ =? 0); [injection E as <- <-; cbn; lia|].
  match type of E with var_read_loop ?f ?t ?s ?x ?b = _ => pose proof (var_read_reads f t s x b) as H; rewrite E in H end.
  destruct H as (_ & _ & _ & H). cbn in H. destruct H as [H _]; [split; cbn; unfold len in *; cbn in *; lia|]. lia.
Qed.

Lemma num_reads t bb : after reads bb (ReadFrom (T := num t) bb).
Proof.
  cbn. destruct (sizeof t =? 1).
  - unfold mbind, M_bind, get, reject_if, consume. destruct (Z.ltb_spec (len bb) (u64 (offset bb + sizeof t))); [cbn; reflexivity|]. cbn.
    unfold mbind, M_bind, get, demand, put. destruct (zslice (data bb) (offset bb) 1) as [bs|] eqn:E; [|done]. cbn. apply reads_put. intros [H1 H2].
    unfold zslice in E. destruct (_ && _) eqn:Hb in E; [|done]. rewrite !andb_true_iff, !Z.leb_le in Hb. unfold len in *. rewrite u64_at by lia. lia.
  - unfold ReadVarInteger, mbind, M_bind. pose proof (var_read_reads (Z.to_nat (bits t)) t 0 0 bb) as H. by destruct (var_read_loop _ _ _ _ _).
Qed.

Lemma consume_reads n bb : after reads bb (consume n bb).
Proof.
  unfold consume, mbind, M_bind, get, demand, put. destruct (zslice (data bb) (offset bb) n) as [bs|] eqn:E; [|done]. cbn. apply reads_put. intros [H1 H2].
  unfold zslice in E. destruct (_ && _) eqn:Hb in E; [|done]. rewrite !andb_true_iff, !Z.leb_le in Hb. unfold len in *. rewrite u64_at by lia. lia.
Qed.

Lemma xstring_reads bb : after reads bb (ReadFrom (T := xstring) bb).
Proof. cbn [ReadFrom BFuncs_string]. effects; [apply num_reads|apply consume_reads]. Qed.

Lemma buffer_reads bb : after reads bb (BBuffer_FromBBuffer bb).
Proof. unfold BBuffer_FromBBuffer. effects; [apply num_reads|apply consume_reads]. Qed.

(** *** Where reading a scalar is undefined

    Five bytes with the high bit set: the sixth is shifted by 35, in 32 bits. *)

Definition goes_on (l : bytes) (i : Z) : Prop := exists b, znth l i = Some b /\ Z.land b 128 <> 0.
Definition long_number (l : bytes) : Prop := exists i, 0 <= i /\ forall j, 0 <= j < 5 -> goes_on l (i + j).

(** A reader that is defined but for long numbers. *)
Definition defined {A} (m : M BBuffer A) : Prop := forall bb, at_ok bb -> m bb = Undef -> long_number (data bb).

Lemma var_loop_long fuel t : forall k u bb, at_ok bb -> 0 <= k <= 5 -> k <= offset bb -> 5 - k < Z.of_nat fuel ->
  (forall j, 0 <= j < k -> goes_on (data bb) (offset bb - k + j)) -> var_read_loop fuel t (7 * k) u bb = Undef -> long_number (data bb).
Proof.
  induction fuel as [|fuel IH]; intros k u bb [Hl Ho] Hk Hko Hf Hm; [lia|]. cbn [var_read_loop].
  destruct (7 * k <? sizeof t * 8); [|done]. unfold mbind, M_bind, get, reject_if. destruct (Z.eqb_spec (offset bb) (len bb)); [done|]. cbn.
  destruct (znth (data bb) (offset bb)) as [b|] eqn:Eb.
  2:{ destruct (znth_is_Some (data bb) (offset bb)) as [x Ex]; [unfold len in *; lia|congruence]. }
  cbn. rewrite u64_at by lia. destruct (Z.ltb_spec (7 * k) 32) as [Hs|Hs]; cbn.
  - destruct (Z.eqb_spec (Z.land b 128) 0) as [|Hb]; [done|]. replace (7 * k + 7) with (7 * (k + 1)) by lia. intros E.
    refine (IH (k + 1) _ (set_offset (offset bb + 1) bb) _ _ _ _ _ E); cbn; try lia; [split; unfold len in *; cbn in *; lia|].
    intros j Hj. destruct (decide (j = k)) as [->|]; [exists b; replace (offset bb + 1 - (k + 1) + k) with (offset bb) by lia; done|].
    replace (offset bb + 1 - (k + 1) + j) with (offset bb - k + j) by lia. apply Hm. lia.
  - intros _. exists (offset bb - 5). split; [lia|]. intros j Hj. assert (k = 5) as -> by lia. by apply Hm.
Qed.

Lemma num_defined t : StdIty t -> sizeof t <> 1 -> defined (ReadFrom (T := num t)).
Proof.
  intros Ht H1 bb Ha. cbn. destruct (Z.eqb_spec (sizeof t) 1); [done|]. unfold ReadVarInteger, mbind, M_bind.
  destruct (var_read_loop _ t 0 0 bb) eqn:E; try done. intros _.
  refine (var_loop_long (Z.to_nat (bits t)) t 0 0 bb Ha _ _ _ _ E); [lia|apply Ha| |lia]. unfold sizeof in *. destruct Ht as [Hb|[Hb|[Hb|Hb]]]; rewrite Hb in *; [by destruct n|lia..].
Qed.

Lemma lor_below a b n : 0 <= n -> 0 <= a < 2 ^ n -> 0 <= b < 2 ^ n -> 0 <= Z.lor a b < 2 ^ n.
Proof.
  intros Hn Ha Hb. assert (Hz : Z.lor a b / 2 ^ n = 0).
  { rewrite <-Z.shiftr_div_pow2 by done. rewrite Z.shiftr_lor, !Z.shiftr_div_pow2 by done. by rewrite !Z.div_small by lia. }
  assert (0 <= Z.lor a b) by (apply Z.lor_nonneg; lia). split; [done|]. apply Z.div_small_iff in Hz; [|lia]. lia.
Qed.

(** The lengths and positions are 32 bits wide. *)
Lemma u64_loop_below fuel : forall shift u bb v bb', 0 <= u < 2 ^ 32 -> var_read_loop fuel U64 shift u bb = Done v bb' -> 0 <= v < 2 ^ 32.
Proof.
  induction fuel as [|fuel IH]; intros shift u bb v bb' Hu; [done|]. cbn [var_read_loop]. destruct (_ <? _); [|done].
  unfold mbind, M_bind, get, reject_if. destruct (_ =? _); [done|]. cbn. destruct (znth _ _) as [b|]; [|done]. cbn.
  destruct (_ <? _); [|done]. cbn.
  assert (Hw : 0 <= uint 64 (Z.lor u (u32 (Z.shiftl (Z.land b 127) shift))) < 2 ^ 32).
  { pose proof (lor_below u (u32 (Z.shiftl (Z.land b 127) shift)) 32 ltac:(lia) Hu ltac:(apply uint_range; lia)) as Hlor.
    rewrite (uint_small 64) by (unfold is_uint; lia). exact Hlor. }
  destruct (_ =? 0); [by intros [= <- _]|]. by apply IH.
Qed.

Lemma u64_below bb n bb' : ReadFrom (T := num U64) bb = Done n bb' -> 0 <= num_val n < 2 ^ 32.
Proof.
  cbn. unfold ReadVarInteger. intros (v & bb1 & E & [= <- _])%bind_inv_done. cbn. by eapply u64_loop_below; [|exact E].
Qed.

Lemma consume_done bb n : at_ok bb -> 0 <= n < 2 ^ 32 -> (len bb <? u64 (offset bb + n)) = false -> consume n bb <> Undef.
Proof.
  intros [Hl Ho] Hn Hc. apply Z.ltb_ge in Hc. assert (E : u64 (offset bb + n) = offset bb + n) by (apply uint_small; unfold is_uint; lia). rewrite E in Hc.
  unfold consume, mbind, M_bind, get, demand, put. destruct (zslice_is_Some (data bb) (offset bb) n) as [bs Es]; [lia|lia|unfold len in *; lia|]. by rewrite Es.
Qed.

Lemma u64_then {B} (f : num U64 -> M BBuffer B) : (forall n bb, at_ok bb -> 0 <= num_val n < 2 ^ 32 -> f n bb <> Undef) -> defined (n ← ReadFrom (T := num U64); f n).
Proof.
  intros Hf bb Ha. unfold mbind, M_bind. destruct (ReadFrom (T := num U64) bb) as [n bb1| |] eqn:E; [|done|intros _; apply (num_defined U64); [apply _|done|done|exact E]].
  pose proof (num_reads U64 bb) as Hr. rewrite E in Hr. destruct Hr as (Ed & _ & _ & Hr). specialize (Hr Ha). intros Hu. destruct (Hf n bb1); [|exact (u64_below _ _ _ E)|exact Hu].
  assert (len bb1 = len bb) by (unfold len; by rewrite Ed). destruct Ha. split; lia.
Qed.

Lemma xstring_defined : defined (ReadFrom (T := xstring)).
Proof.
  apply u64_then. intros n bb Ha Hn. unfold mbind, M_bind, get, reject_if. destruct (_ && _); [done|]. cbn.
  destruct (len bb <? u64 (offset bb + num_val n)) eqn:Hc; [done|]. cbn. pose proof (consume_done bb _ Ha Hn Hc). by destruct (consume _ bb).
Qed.

Lemma buffer_defined : defined BBuffer_FromBBuffer.
Proof.
  apply u64_then. intros n bb Ha Hn. unfold mbind, M_bind, get, reject_if.
  destruct (len bb <? u64 (offset bb + num_val n)) eqn:Hc; [done|]. by apply consume_done.
Qed.

(** ** Types *)

Definition of_type (T : ptype) (o : object) : Prop :=
  match T with
  | PString => class_of o = None
  | PObject T => is_Some (class_of o) /\ cast_ok T (class_of o) = true
  end.

(** A pointer of static type [T]: null, or to such an object; a weak one may
    also have expired.  Addresses are not used again. *)
Definition points (shared : bool) (T : ptype) (st : reading) (p : ptr) : Prop :=
  match p with
  | None => True
  | Some a => a < rnext st /\ match rheap st !! a with Some o => of_type T o | None => shared = false end
  end.

(** The pointers of an object: whether they are shared, and their types. *)
Definition fields (o : object) : list (bool * ptype * ptr) :=
  match o with
  | XStr _ | XBuf _ | Monster => []
  | Foo parent childs => [(false, PObject (Some CFoo), parent); (true, PObject (Some (CList Foo_w)), childs)]
  | Player _ token target => [(true, PString, token); (false, PObject (Some CMonster), target)]
  | Scene monsters players => [(true, PObject (Some (CList Monster_s)), monsters); (true, PObject (Some (CList Player_w)), players)]
  | Sync players scene => [(true, PObject (Some (CList Player_s)), players); (true, PObject (Some CScene), scene)]
  | XList e buf => (fun p => (elem_shared e, elem_type e, p)) <$> buf
  end.

Definition typed_object (st : reading) (o : object) : Prop := Forall (fun f => points f.1.1 f.1.2 st f.2) (fields o).
Definition typed_heap (st : reading) : Prop := forall a o, rheap st !! a = Some o -> a < rnext st /\ typed_object st o.

(** The type of pointer [i] of an object of class [c]. *)
Definition field_type (c : cls) (i : nat) : option (bool * ptype) :=
  match c, i with
  | CFoo, O => Some (false, PObject (Some CFoo))
  | CFoo, S _ => Some (true, PObject (Some (CList Foo_w)))
  | CPlayer, O => Some (true, PString)
  | CPlayer, S _ => Some (false, PObject (Some CMonster))
  | CScene, O => Some (true, PObject (Some (CList Monster_s)))
  | CScene, S _ => Some (true, PObject (Some (CList Player_w)))
  | CSync, O => Some (true, PObject (Some (CList Player_s)))
  | CSync, S _ => Some (true, PObject (Some CScene))
  | CList e, _ => Some (elem_shared e, elem_type e)
  | CBBuffer, _ | CMonster, _ => None
  end.

Lemma points_weaken sh T st p : points true T st p -> points sh T st p.
Proof. destruct p as [a|]; [|done]. intros [Hn H]. split; [done|]. by destruct (rheap st !! a). Qed.

Lemma set_field_typed st c i sh T p o : class_of o = Some c -> field_type c i = Some (sh, T) -> points sh T st p -> typed_object st o ->
  typed_object st (set_field i p o).
Proof.
  unfold typed_object. intros Hc Hf Hp Ho. destruct o; try discriminate Hc; injection Hc as <-; destruct i; cbn in Hf; try discriminate Hf; injection Hf as <- <-;
    cbn [set_field fields] in *; try (apply Forall_cons in Ho as [H1 [H2 H3]%Forall_cons]; by repeat constructor).
  all: rewrite Forall_fmap in *; apply Forall_insert; done.
Qed.

(** ** Reading ends *)

(** The bytes that are left. *)
Definition left_over (st : reading) : nat := Z.to_nat (len (rbb st) - offset (rbb st)).

Definition forward (st st' : reading) : Prop := at_ok (rbb st') /\ (left_over st' <= left_over st)%nat.

(** Two readers do the same when fewer than [n] bytes are left, and do not go
    back. *)
Definition agree {A} (n : nat) (m m' : M reading A) : Prop :=
  forall st, at_ok (rbb st) -> (left_over st < n)%nat -> m st = m' st /\ forall v st', m st = Done v st' -> forward st st'.

Lemma agree_bind {A B} n (m m' : M reading A) (f f' : A -> M reading B) :
  agree n m m' -> (forall v, agree n (f v) (f' v)) -> agree n (x ← m; f x) (x ← m'; f' x).
Proof.
  intros Hm Hf st Ha Hn. destruct (Hm st Ha Hn) as [E H]. unfold mbind, M_bind. rewrite <-E. destruct (m st) as [v st1|e st1|]; [|done|done].
  destruct (H v st1 eq_refl) as [H1 H2]. destruct (Hf v st1 H1 ltac:(lia)) as [E1 H3]. split; [done|]. intros w st' Ew. destruct (H3 w st' Ew) as [H4 H5].
  split; [done|lia].
Qed.

Lemma agree_ret {A} n (v : A) : agree n (mret v) (mret v).
Proof. intros st Ha _. split; [done|]. intros w st' [= <- <-]. by split. Qed.
Lemma agree_fail {A} n e : agree (A := A) n (fail e) (fail e).
Proof. by intros st Ha _. Qed.
Lemma agree_get {B} n (f f' : reading -> M reading B) : (forall st, agree n (f st) (f' st)) -> agree n (x ← get; f x) (x ← get; f' x).
Proof. intros Hf st. apply Hf. Qed.
Lemma agree_reject n b e : agree n (reject_if b e) (reject_if b e).
Proof. destruct b; [apply agree_fail|apply agree_ret]. Qed.
Lemma agree_demand {A} n (o : option A) : agree n (demand o) (demand o).
Proof. destruct o; [apply agree_ret|by intros st Ha _]. Qed.

Lemma reads_forward st bb : reads (rbb st) bb -> at_ok (rbb st) -> forward st (set_rbb bb st).
Proof.
  intros (E & _ & _ & H) Ha. destruct (H Ha) as [H1 H2]. pose proof Ha as [H3 H4]. assert (El : len bb = len (rbb st)) by (unfold len; by rewrite E).
  split; [split; cbn; lia|]. unfold left_over. cbn. lia.
Qed.

Lemma agree_bb {A} n (m : M BBuffer A) : (forall bb, after reads bb (m bb)) -> agree n (on_bb m) (on_bb m).
Proof.
  intros Hm st Ha _. split; [done|]. intros v st'. unfold on_bb. specialize (Hm (rbb st)). destruct (m (rbb st)); [|done|done].
  intros [= <- <-]. by apply reads_forward.
Qed.

Lemma agree_table n f : (forall bb, data (f bb) = data bb /\ offset (f bb) = offset bb) -> agree n (on_bb (modify f)) (on_bb (modify f)).
Proof.
  intros Hf st Ha _. split; [done|]. intros v st' [= <- <-]. destruct (Hf (rbb st)) as [E1 E2]. unfold forward, at_ok, left_over, len in *. cbn. by rewrite E1, E2.
Qed.

Lemma agree_heap {A} n (m : M reading A) : (forall st v st', m st = Done v st' -> rbb st' = rbb st) -> agree n m m.
Proof. intros Hm st Ha _. split; [done|]. intros v st' E. unfold forward, left_over. by rewrite (Hm _ _ _ E). Qed.

Lemma R16_agree n : agree n R16 R16.
Proof. apply agree_bind; [apply agree_bb, num_reads|intros v; apply agree_ret]. Qed.
Lemma R64_agree n : agree n R64 R64.
Proof. apply agree_bind; [apply agree_bb, num_reads|intros v; apply agree_ret]. Qed.
Lemma R32_agree n : agree n R32 R32.
Proof. apply agree_bind; [apply agree_bb, num_reads|intros v; apply agree_ret]. Qed.
Lemma no_limit_agree n : agree n no_limit no_limit.
Proof. by apply agree_table. Qed.

Lemma alloc_agree n o : agree n (alloc o) (alloc o).
Proof. apply agree_heap. unfold alloc. by intros st v st' [= _ <-]. Qed.
Lemma update_agree n a f : agree n (update a f) (update a f).
Proof. apply agree_heap. intros st v st'. unfold update, mbind, M_bind, get, demand, put. destruct (rheap st !! a); [|done]. by intros [= _ <-]. Qed.
Lemma destroy_agree n a : agree n (destroy a) (destroy a).
Proof. apply agree_heap. unfold destroy, modify. by intros st v st' [= _ <-]. Qed.
Lemma assign_agree n v p : agree n (assign v p) (assign v p).
Proof. destruct v; [|apply agree_ret|apply update_agree]. apply agree_heap. unfold assign, modify. by intros st x st' [= _ <-]. Qed.

Ltac agree_steps :=
  repeat (cbv beta; lazymatch goal with
  | |- agree _ R16 _ => apply R16_agree
  | |- agree _ R64 _ => apply R64_agree
  | |- agree _ R32 _ => apply R32_agree
  | |- agree _ no_limit _ => apply no_limit_agree
  | |- agree _ (mret _) _ => apply agree_ret
  | |- agree _ (fail _) _ => apply agree_fail
  | |- agree _ (reject_if _ _) _ => apply agree_reject
  | |- agree _ (demand _) _ => apply agree_demand
  | |- agree _ (alloc _) _ => apply alloc_agree
  | |- agree _ (update _ _) _ => apply update_agree
  | |- agree _ (destroy _) _ => apply destroy_agree
  | |- agree _ (assign _ _) _ => apply assign_agree
  | |- agree _ (on_bb (add_strIdx _ _)) _ => by apply agree_table
  | |- agree _ (on_bb (add_objIdx _ _)) _ => by apply agree_table
  | |- agree _ (on_bb _) _ => apply agree_bb
  | |- agree _ (mbind _ get) _ => apply agree_get; intros ?
  | |- agree _ (mbind _ _) _ => apply agree_bind; [|intros ?]
  end).

Section ends.
Context (n : nat) (RP RP' : place -> ptype -> M reading ptr) (HRP : forall v T, agree n (RP v T) (RP' v T)).

Lemma Read_shared_agree a i T : agree n (Read_shared RP a i T) (Read_shared RP' a i T).
Proof using HRP. unfold Read_shared. agree_steps. apply HRP. Qed.
Lemma Read_weak_agree a i T : agree n (Read_weak RP a i T) (Read_weak RP' a i T).
Proof using HRP. unfold Read_weak. agree_steps. apply HRP. Qed.

Lemma Read_items_agree e a k : forall i, agree n (Read_items RP e a i k) (Read_items RP' e a i k).
Proof using HRP.
  induction k as [|k IH]; intros i; cbn [Read_items]; agree_steps; [|apply IH]. destruct (elem_shared e); [apply Read_shared_agree|apply Read_weak_agree].
Qed.

Lemma FromBBuffer_agree c a : agree n (FromBBuffer RP c a) (FromBBuffer RP' c a).
Proof using HRP.
  destruct c; cbn [FromBBuffer]; unfold Foo_FromBBuffer, Player_FromBBuffer, Scene_FromBBuffer, Sync_FromBBuffer, List_FromBBuffer; agree_steps;
    first [apply Read_shared_agree|apply Read_weak_agree|apply Read_items_agree|apply buffer_reads].
Qed.
End ends.

Lemma ReadPtr_body_agree n contents contents' v T typeId : (forall c a, agree n (contents c a) (contents' c a)) ->
  agree n (ReadPtr_body contents v T typeId) (ReadPtr_body contents' v T typeId).
Proof.
  intros Hc. unfold ReadPtr_body. destruct (typeId =? 0); [apply agree_ret|]. agree_steps; [destruct (wrong_type T typeId); agree_steps|].
  destruct (_ =? _).
  - destruct T as [|T]; [agree_steps; apply xstring_reads|]. destruct (if typeId =? 2 then Some CBBuffer else creators typeId); agree_steps.
    destruct (cast_ok T (Some _)); agree_steps. apply Hc.
  - agree_steps. destruct T; [destruct (strIdxs _ !! _)|destruct (objIdxs _ !! _)]; agree_steps.
Qed.

Lemma R16_moves st v st' : R16 st = Done v st' -> at_ok (rbb st) -> at_ok (rbb st') /\ (left_over st' < left_over st)%nat.
Proof.
  intros E Ha. destruct (proj2 (R16_agree (S (left_over st)) st Ha ltac:(lia)) v st' E) as [H1 _]. split; [done|].
  apply bind_inv_done in E as (x & st1 & E1 & [= _ <-]). unfold on_bb in E1.
  destruct (ReadFrom (T := num U16) (rbb st)) as [y bb| |] eqn:Er; try discriminate E1. injection E1 as <- <-.
  change (ReadFrom (T := num U16)) with (z ← ReadVarInteger U16; mret (M := M BBuffer) (Num (t := U16) z)) in Er.
  apply bind_inv_done in Er as (z & bb1 & Ev & [= _ <-]). unfold ReadVarInteger in Ev.
  pose proof (var_read_moves _ _ _ _ _ _ _ Ev Ha) as Hm. pose proof (var_read_reads (Z.to_nat (bits U16)) U16 0 0 (rbb st)) as Hr. rewrite Ev in Hr.
  destruct Hr as (Ed & _). destruct H1 as [H1 H2]. unfold left_over, len in *. cbn [rbb set_rbb] in *. rewrite Ed in *. lia.
Qed.

(** [ReadPtr] with something else to do when the fuel is used up. *)
Fixpoint ReadPtr_or (stop : place -> ptype -> M reading ptr) (fuel : nat) (v : place) (T : ptype) : M reading ptr :=
  match fuel with
  | O => stop v T
  | S fuel =>
      _ ← assign v None;
      typeId ← R16;
      ReadPtr_body (FromBBuffer (ReadPtr_or stop fuel)) v T typeId
  end.

Lemma ReadPtr_stop fuel : ReadPtr fuel = ReadPtr_or (fun _ _ => undef) fuel.
Proof. induction fuel as [|fuel IH]; [done|]. cbn [ReadPtr_or]. rewrite <-IH. done. Qed.

Lemma ReadPtr_fuel stop stop' n : forall f g v T, (n <= f)%nat -> (n <= g)%nat -> agree n (ReadPtr_or stop f v T) (ReadPtr_or stop' g v T).
Proof.
  induction n as [|n IH]; intros f g v T Hf Hg; [by intros st Ha Hn; lia|]. destruct f as [|f]; [lia|]. destruct g as [|g]; [lia|]. cbn [ReadPtr_or].
  apply agree_bind; [apply assign_agree|]. intros ? st Ha Hn.
  unfold mbind, M_bind. destruct (R16 st) as [typeId st1|e st1|] eqn:E; [|done|done]. destruct (R16_moves _ _ _ E Ha) as [Ha1 Hl].
  destruct (ReadPtr_body_agree n (FromBBuffer (ReadPtr_or stop f)) (FromBBuffer (ReadPtr_or stop' g)) v T typeId) with (st := st1) as [E1 H1]; [|done|lia|].
  - intros c a. apply FromBBuffer_agree. intros v' T'. apply IH; lia.
  - split; [done|]. intros w st' Ev. destruct (H1 w st' Ev) as [H2 H3]. split; [done|lia].
Qed.

(** ** Steps of the reader

    Objects stay and keep their classes, expired addresses stay expired, and
    the objects below [base] are not touched. *)

Section steps.
Context (base : Z) (D : bytes) (TR : ptype).

Record keeps (st st' : reading) : Prop := {
  k_next : rnext st <= rnext st';
  k_class : forall a o, rheap st !! a = Some o -> exists o', rheap st' !! a = Some o' /\ class_of o' = class_of o;
  k_gone : forall a, a < rnext st -> rheap st !! a = None -> rheap st' !! a = None;
  k_old : forall a, a < base -> rheap st' !! a = rheap st !! a
}.

#[local] Instance keeps_preorder : PreOrder keeps.
Proof.
  split.
  - intros st. split; [lia| |done|done]. intros a o H. by exists o.
  - intros s1 s2 s3 [A1 A2 A3 A4] [B1 B2 B3 B4]. split; [lia| | |].
    + intros a o H. destruct (A2 a o H) as (o1 & E1 & C1). destruct (B2 a o1 E1) as (o2 & E2 & C2). exists o2. split; [done|congruence].
    + intros a Hn H. apply B3; [lia|]. by apply A3.
    + intros a Ha. by rewrite B4, A4.
Qed.

Lemma keeps_trans s1 s2 s3 : keeps s1 s2 -> keeps s2 s3 -> keeps s1 s3.
Proof. intros. by etrans. Qed.

Definition stable (F : reading -> Prop) : Prop := forall st st', keeps st st' -> F st -> F st'.

Lemma of_type_class T o o' : class_of o' = class_of o -> of_type T o -> of_type T o'.
Proof. intros E. destruct T; cbn; by rewrite E. Qed.

Lemma points_stable sh T p : stable (fun st => points sh T st p).
Proof.
  intros st st' [K1 K2 K3 _]. destruct p as [a|]; [|done]. intros [Hn H]. split; [lia|]. destruct (rheap st !! a) as [o|] eqn:E.
  - destruct (K2 a o E) as (o' & -> & Hc). by eapply of_type_class.
  - by rewrite K3.
Qed.

Lemma typed_object_stable o : stable (fun st => typed_object st o).
Proof. intros st st' Hk H. eapply Forall_impl; [exact H|]. intros f. by apply points_stable. Qed.

Lemma stable_true : stable (fun _ => True).
Proof. done. Qed.

Lemma stable_and F G : stable F -> stable G -> stable (fun st => F st /\ G st).
Proof. intros HF HG st st' Hk [H1 H2]. split; [by eapply HF|by eapply HG]. Qed.

(** A new object of static type [T]. *)
Definition made (T : ptype) (st : reading) (p : ptr) : Prop := points true T st p /\ forall a, p = Some a -> base <= a.

Lemma made_stable T p : stable (fun st => made T st p).
Proof. intros st st' Hk [H1 H2]. split; [by eapply points_stable|done]. Qed.

(** An object of class [c] that is being read. *)
Definition has_class (c : option cls) (a : Z) (st : reading) : Prop := base <= a /\ a < rnext st /\ exists o, rheap st !! a = Some o /\ class_of o = c.

Lemma has_class_stable c a : stable (has_class c a).
Proof.
  intros st st' Hk (Hb & Hn & o & E & Hc). destruct (k_class _ _ Hk a o E) as (o' & E' & C). pose proof (k_next _ _ Hk).
  split; [done|]. split; [lia|]. exists o'. split; [done|congruence].
Qed.

Record typed (st : reading) : Prop := {
  ty_at : at_ok (rbb st);
  ty_data : data (rbb st) = D;
  ty_heap : typed_heap st;
  ty_base : base <= rnext st;
  ty_root : made TR st (rroot st);
  ty_str : forall k a, strIdxs (rbb st) !! k = Some a -> made PString st (Some a);
  ty_obj : forall k a, objIdxs (rbb st) !! k = Some a -> made (PObject None) st (Some a)
}.

(** From a typed state in which [P] holds, [m] goes to a typed state, and if it
    ends with a value [Q] holds of it; it is defined but for long numbers. *)
Definition triple {A} (P : reading -> Prop) (m : M reading A) (Q : A -> reading -> Prop) : Prop :=
  forall st, typed st -> P st ->
    match m st with
    | Done v st' => typed st' /\ keeps st st' /\ Q v st'
    | Fail _ st' => typed st' /\ keeps st st'
    | Undef => long_number D
    end.

Lemma triple_bind {A B} P (m : M reading A) (f : A -> M reading B) Q R :
  triple P m Q -> (forall v, triple (Q v) (f v) R) -> triple P (x ← m; f x) R.
Proof.
  intros Hm Hf st Ht HP. specialize (Hm st Ht HP). unfold mbind, M_bind. destruct (m st) as [v st1|e st1|]; [|done|done].
  destruct Hm as (T1 & K1 & Q1). specialize (Hf v st1 T1 Q1). destruct (f v st1) as [w st2|e st2|]; [| |done].
  - destruct Hf as (T2 & K2 & R2). split; [done|]. split; [by etrans|done].
  - destruct Hf as (T2 & K2). split; [done|]. by etrans.
Qed.

Lemma triple_frame {A} P (m : M reading A) Q F : stable F -> triple P m Q -> triple (fun st => P st /\ F st) m (fun v st => Q v st /\ F st).
Proof.
  intros HF Hm st Ht [HP HFs]. specialize (Hm st Ht HP). destruct (m st) as [v st1|e st1|]; [|done|done].
  destruct Hm as (T1 & K1 & Q1). split; [done|]. split; [done|]. split; [done|]. by eapply HF.
Qed.

Lemma triple_weaken {A} P P' (m : M reading A) Q Q' : (forall st, P' st -> P st) -> (forall v st, Q v st -> Q' v st) -> triple P m Q -> triple P' m Q'.
Proof. intros HP HQ Hm st Ht H. specialize (Hm st Ht (HP _ H)). destruct (m st); [|done|done]. naive_solver. Qed.

Lemma triple_ret {A} (v : A) P (Q : A -> reading -> Prop) : (forall st, P st -> Q v st) -> triple P (mret v) Q.
Proof. intros H st Ht HP. split; [done|]. split; [done|by apply H]. Qed.

Lemma triple_fail {A} e P (Q : A -> reading -> Prop) : triple P (fail e) Q.
Proof. intros st Ht HP. by split. Qed.

Lemma triple_get {B} P (f : reading -> M reading B) R : (forall st0, typed st0 -> P st0 -> triple (fun st => st = st0) (f st0) R) -> triple P (x ← get; f x) R.
Proof. intros Hf st Ht HP. exact (Hf st Ht HP st Ht eq_refl). Qed.

Lemma triple_reject b e P : triple P (reject_if b e) (fun _ => P).
Proof. destruct b; [apply triple_fail|by apply triple_ret]. Qed.

Lemma triple_bb {A} (m : M BBuffer A) P : stable P -> (forall bb, after reads bb (m bb)) -> defined m -> triple P (on_bb m) (fun _ => P).
Proof.
  intros HP Hm Hd st [H1 H2 H3 H4 H5 H6 H7] HPs. specialize (Hm (rbb st)). specialize (Hd (rbb st) H1). unfold on_bb.
  assert (Hk : forall bb, keeps st (set_rbb bb st)) by (intros bb; split; cbn; [lia| |done|done]; intros a o H; by exists o).
  assert (Ht : forall bb, reads (rbb st) bb -> typed (set_rbb bb st)).
  { intros bb (E1 & E2 & E3 & Ho). specialize (Ho H1). split; cbn [set_rbb rbb rheap rnext rroot].
    - destruct H1 as [Hl1 Hl2]. split; unfold len in *; rewrite E1 in *; lia.
    - by rewrite E1.
    - exact H3.
    - exact H4.
    - exact H5.
    - rewrite E3. exact H6.
    - rewrite E2. exact H7. }
  destruct (m (rbb st)) as [v bb|e bb|].
  - split; [exact (Ht bb Hm)|]. split; [apply Hk|]. eapply HP; [apply Hk|exact HPs].
  - split; [exact (Ht bb Hm)|apply Hk].
  - rewrite <-H2. by apply Hd.
Qed.

Lemma R16_typed P : stable P -> triple P R16 (fun _ => P).
Proof. intros HP. eapply triple_bind; [apply triple_bb; [done|apply num_reads|apply num_defined; [apply _|done]]|]. intros v. by apply triple_ret. Qed.
Lemma R64_typed P : stable P -> triple P R64 (fun _ => P).
Proof. intros HP. eapply triple_bind; [apply triple_bb; [done|apply num_reads|apply num_defined; [apply _|done]]|]. intros v. by apply triple_ret. Qed.
Lemma R32_typed P : stable P -> triple P R32 (fun _ => P).
Proof. intros HP. eapply triple_bind; [apply triple_bb; [done|apply num_reads|apply num_defined; [apply _|done]]|]. intros v. by apply triple_ret. Qed.
Lemma no_limit_typed P : stable P -> triple P no_limit (fun _ => P).
Proof. intros HP. apply triple_bb; [done|intros bb; apply after_modify, reads_limit|done]. Qed.

(** *** Writing to objects *)

Lemma keeps_update st a o o' : base <= a -> rheap st !! a = Some o -> class_of o' = class_of o -> keeps st (set_rheap (<[a := o']> (rheap st)) st).
Proof.
  intros Hb Ha Hc. split; cbn.
  - lia.
  - intros b x Hx. destruct (decide (b = a)) as [->|Hne]; [exists o'; rewrite lookup_insert_eq; split; congruence|]. exists x. by rewrite lookup_insert_ne.
  - intros b _ Hx. rewrite lookup_insert_ne; [done|congruence].
  - intros b Hlt. rewrite lookup_insert_ne; [done|lia].
Qed.

Lemma typed_keeps st st' : typed st -> keeps st st' -> at_ok (rbb st') -> data (rbb st') = D -> rroot st' = rroot st ->
  objIdxs (rbb st') = objIdxs (rbb st) -> strIdxs (rbb st') = strIdxs (rbb st) -> typed_heap st' -> typed st'.
Proof.
  intros [H1 H2 H3 H4 H5 H6 H7] Hk Ha Hd Er Eo Es Hh. pose proof (k_next _ _ Hk). split; try done.
  - lia.
  - rewrite Er. by eapply made_stable.
  - intros k a. rewrite Es. intros E. eapply made_stable; [exact Hk|by eapply H6].
  - intros k a. rewrite Eo. intros E. eapply made_stable; [exact Hk|by eapply H7].
Qed.

(** An object of class [c] gets contents [f] of that class. *)
Lemma update_typed c a f P : stable P ->
  (forall st o, P st -> class_of o = c -> typed_object st o -> class_of (f o) = c /\ typed_object st (f o)) ->
  triple (fun st => P st /\ has_class c a st) (update a f) (fun _ st => P st /\ has_class c a st).
Proof.
  intros HP Hf st Ht [HPs Hc]. pose proof Hc as (Hb & Hn & o & Eo & Ec). destruct (Hf st o HPs Ec (proj2 (ty_heap _ Ht a o Eo))) as [Efc Hfo].
  unfold update, mbind, M_bind, get, demand, put. rewrite Eo. cbn.
  pose proof (keeps_update st a o (f o) Hb Eo ltac:(congruence)) as Hk. split; [|split; [exact Hk|split; [by eapply HP|by eapply has_class_stable]]].
  eapply typed_keeps; try exact Hk; try done; [apply Ht|apply Ht|]. intros b x. cbn. intros [[<- <-]|[Hne Hx]]%lookup_insert_Some.
  - split; [done|]. eapply typed_object_stable; [exact Hk|exact Hfo].
  - destruct (ty_heap _ Ht b x Hx) as [Hbn Hxo]. split; [done|]. eapply typed_object_stable; [exact Hk|exact Hxo].
Qed.

(** *** Places *)

Definition place_typed (v : place) (sh : bool) (T : ptype) (st : reading) : Prop :=
  match v with
  | Root => T = TR
  | Local => True
  | Field a i => exists c, has_class (Some c) a st /\ field_type c i = Some (sh, T)
  end.

Lemma place_stable v sh T : stable (place_typed v sh T).
Proof. intros st st' Hk. destruct v as [| |a i]; [done|done|]. intros (c & Hc & Hf). exists c. split; [by eapply has_class_stable|done]. Qed.

Lemma points_null sh T st : points sh T st None.
Proof. done. Qed.

(** [P]: what is to be kept. *)
Lemma assign_typed v T p P : stable P -> triple (fun st => P st /\ place_typed v true T st /\ made T st p) (assign v p) (fun _ => P).
Proof.
  intros HP st Ht (HPs & Hv & Hp). destruct v as [| |a i]; cbn [assign].
  - cbn in Hv. subst T. unfold modify. assert (Hk : keeps st (set_rroot p st)) by (split; cbn; [lia|intros a o E; by exists o|done|done]).
    split; [|split; [exact Hk|by eapply HP]]. destruct Ht as [H1 H2 H3 H4 H5 H6 H7]. split; done.
  - split; [done|]. by split.
  - destruct Hv as (c & Hc & Hf). assert (Hset : forall st1 o, P st1 /\ made T st1 p -> class_of o = Some c -> typed_object st1 o ->
      class_of (set_field i p o) = Some c /\ typed_object st1 (set_field i p o)).
    { intros st1 o [_ [Hpt _]] Eo Ho. split; [by destruct o, i|]. by eapply set_field_typed. }
    pose proof (update_typed (Some c) a (set_field i p) _ (stable_and _ _ HP (made_stable T p)) Hset st Ht (conj (conj HPs Hp) Hc)) as Hu. destruct (update a _ st) as [x st'|e st'|]; [|done|done].
    destruct Hu as (T1 & K1 & [[HPs' _] _]). done.
Qed.

Lemma assign_weak_typed a i T c p P : stable P -> field_type c i = Some (false, T) ->
  triple (fun st => P st /\ has_class (Some c) a st /\ made T st p) (assign (Field a i) p) (fun _ st => P st /\ has_class (Some c) a st).
Proof.
  intros HP Hf st Ht (HPs & Hc & Hp). assert (Hset : forall st1 o, P st1 /\ made T st1 p -> class_of o = Some c -> typed_object st1 o ->
    class_of (set_field i p o) = Some c /\ typed_object st1 (set_field i p o)).
  { intros st1 o [_ [Hpt _]] Eo Ho. split; [by destruct o, i|]. eapply set_field_typed; [exact Eo|exact Hf|by apply points_weaken|exact Ho]. }
  pose proof (update_typed (Some c) a (set_field i p) _ (stable_and _ _ HP (made_stable T p)) Hset st Ht (conj (conj HPs Hp) Hc)) as Hu. cbn [assign]. destruct (update a _ st) as [x st'|e st'|]; [|done|done].
  destruct Hu as (T1 & K1 & [[HPs' _] Hc']). done.
Qed.
(** *** Contents *)

Section contents.
Context (RP : place -> ptype -> M reading ptr).
Context (HRP : forall v T P, stable P -> triple (fun st => P st /\ place_typed v true T st) (RP v T) (fun p st => P st /\ made T st p)).
Context (P : reading -> Prop) (HP : stable P).

(** While the object at [a] is being read. *)
Definition during (c : cls) (a : Z) (st : reading) : Prop := P st /\ has_class (Some c) a st.

Lemma during_stable c a : stable (during c a).
Proof using HP. apply stable_and; [done|apply has_class_stable]. Qed.

Lemma shared_typed c a i T : field_type c i = Some (true, T) -> triple (during c a) (Read_shared RP a i T) (fun _ => during c a).
Proof using HP HRP.
  intros Hf. unfold Read_shared. eapply triple_bind.
  - eapply triple_weaken; [| |apply (HRP (Field a i) T (during c a)), during_stable]; [|intros p st H; exact H].
    intros st H. split; [exact H|]. exists c. split; [apply H|done].
  - intros p. apply triple_ret. by intros st [H _].
Qed.

Lemma weak_typed c a i T : field_type c i = Some (false, T) -> triple (during c a) (Read_weak RP a i T) (fun _ => during c a).
Proof using HP HRP.
  intros Hf. unfold Read_weak. eapply triple_bind.
  - eapply triple_weaken; [| |apply (HRP Local T (during c a)), during_stable]; [intros st H; exact (conj H I)|intros p st H; exact H].
  - intros p. eapply triple_weaken; [| |apply (assign_weak_typed a i T c p P HP Hf)]; [|intros x st H; exact H].
    intros st [[H1 H2] H3]. by split_and!.
Qed.

Lemma items_typed e a n : forall i, triple (during (CList e) a) (Read_items RP e a i n) (fun _ => during (CList e) a).
Proof using HP HRP.
  induction n as [|n IH]; intros i; cbn [Read_items]; [by apply triple_ret|]. eapply triple_bind; [|intros ?; apply IH].
  destruct (elem_shared e) eqn:E; [apply shared_typed|apply weak_typed]; cbn; by rewrite E.
Qed.

Lemma contents_typed c a : triple (during c a) (FromBBuffer RP c a) (fun _ => during c a).
Proof using HP HRP.
  destruct c; cbn [FromBBuffer].
  - eapply triple_bind; [apply triple_bb; [apply during_stable|apply buffer_reads|apply buffer_defined]|]. intros d.
    apply update_typed; [done|]. intros st o _ _ _. split; [done|constructor].
  - eapply triple_bind; [by apply weak_typed|]. intros ?. eapply triple_bind; [apply no_limit_typed, during_stable|]. intros ?. by apply shared_typed.
  - eapply triple_bind; [apply R32_typed, during_stable|]. intros id. eapply triple_bind.
    { apply update_typed; [done|]. intros st o _ Ho Hf. destruct o; try discriminate Ho. by split. }
    intros ?. eapply triple_bind; [apply no_limit_typed, during_stable|]. intros ?. eapply triple_bind; [by apply shared_typed|]. intros ?. by apply weak_typed.
  - by apply triple_ret.
  - eapply triple_bind; [apply no_limit_typed, during_stable|]. intros ?. eapply triple_bind; [by apply shared_typed|]. intros ?.
    eapply triple_bind; [apply no_limit_typed, during_stable|]. intros ?. by apply shared_typed.
  - eapply triple_bind; [apply no_limit_typed, during_stable|]. intros ?. eapply triple_bind; [by apply shared_typed|]. intros ?. by apply shared_typed.
  - eapply triple_bind; [apply R64_typed, during_stable|]. intros n. apply triple_get. intros st0 _ Hd.
    eapply triple_weaken; [|intros ? ? H; exact H|]; [intros st ->; exact Hd|].
    eapply triple_bind; [apply triple_reject|]. intros ?. eapply triple_bind; [apply triple_reject|]. intros ?. eapply triple_bind; [|intros ?; apply items_typed].
    apply update_typed; [done|]. intros st o _ Ho _. split; [done|]. unfold typed_object. cbn [fields]. rewrite Forall_fmap. by apply Forall_replicate.
Qed.
End contents.

(** *** Pointers *)

Lemma make_typed c st : typed_object st (make c).
Proof. destruct c as [| | | | | |[]]; repeat constructor. Qed.

Lemma class_make c : class_of (make c) = Some c.
Proof. by destruct c. Qed.

Lemma alloc_typed o P : stable P -> (forall st, typed_object st o) -> triple P (alloc o) (fun a st => P st /\ has_class (class_of o) a st).
Proof.
  intros HP Ho st Ht HPs. unfold alloc. pose proof (ty_base _ Ht) as Hb. set (st' := MkReading _ _ _ _).
  assert (Hn : rheap st !! rnext st = None) by (destruct (rheap st !! rnext st) eqn:E; [|done]; destruct (ty_heap _ Ht _ _ E); lia).
  assert (Hk : keeps st st').
  { split; cbn.
    - lia.
    - intros a x Hx. exists x. rewrite lookup_insert_ne; [done|congruence].
    - intros a Ha Hx. rewrite lookup_insert_ne; [done|lia].
    - intros a Ha. rewrite lookup_insert_ne; [done|lia]. }
  split; [|split; [exact Hk|split; [by eapply HP|]]].
  - eapply typed_keeps; try exact Hk; try done; [apply Ht|apply Ht|]. intros a x. cbn. intros [[<- <-]|[Hne Hx]]%lookup_insert_Some; [split; [lia|apply Ho]|].
    destruct (ty_heap _ Ht a x Hx) as [Ha Hxo]. split; [lia|]. eapply typed_object_stable; [exact Hk|exact Hxo].
  - split; [done|]. split; [cbn; lia|]. exists o. cbn. by rewrite lookup_insert_eq.
Qed.

(** An object that is not kept. *)
Lemma create_typed {B} c P (k : Z -> M reading B) (b : bool) e Q : stable P ->
  (forall a, b = true -> triple (fun st => P st /\ has_class (Some c) a st) (k a) Q) ->
  triple P (a ← alloc (make c); if b then k a else _ ← destroy a; fail e) Q.
Proof.
  intros HP Hk. destruct b.
  - eapply triple_bind; [apply alloc_typed; [done|apply make_typed]|]. intros a. rewrite class_make. by apply Hk.
  - intros st Ht HPs. unfold alloc, destroy, modify, fail, mbind, M_bind. cbn.
    assert (Hn : rheap st !! rnext st = None) by (destruct (rheap st !! rnext st) eqn:E; [|done]; destruct (ty_heap _ Ht _ _ E); lia).
    unfold set_rheap. cbn. rewrite delete_insert_id by done.
    assert (Hkk : keeps st (MkReading (rbb st) (rheap st) (rnext st + 1) (rroot st))) by (split; cbn; [lia|intros a o E; by exists o|done|done]).
    split; [|done]. eapply typed_keeps; try exact Hkk; try done; [apply Ht|apply Ht|]. intros a o Ha. destruct (ty_heap _ Ht a o Ha) as [Hlt Ho].
    split; [cbn; lia|]. eapply typed_object_stable; [exact Hkk|exact Ho].
Qed.

Lemma made_class c a T st : has_class c a st -> match T with PString => c = None | PObject T => is_Some c /\ cast_ok T c = true end -> made T st (Some a).
Proof.
  intros (Hb & Hn & o & Eo & <-) HT. split; [|by intros ? [= <-]]. split; [done|]. rewrite Eo. by destruct T.
Qed.

Lemma add_strIdx_typed k a P : stable P -> triple (fun st => P st /\ has_class None a st) (on_bb (add_strIdx k a)) (fun _ st => P st /\ has_class None a st).
Proof.
  intros HP st [H1 H2 H3 H4 H5 H6 H7] [HPs Ha]. unfold on_bb, add_strIdx, modify. set (st' := set_rbb _ _).
  assert (Hk : keeps st st') by (split; cbn; [lia|intros b o E; by exists o|done|done]).
  split; [|split; [exact Hk|split; [by eapply HP|exact Ha]]]. split; try done. intros k' b. cbn.
  intros [[<- <-]|[_ E]]%lookup_insert_Some; [by apply (made_class None a PString st)|by apply (H6 k')].
Qed.

Lemma add_objIdx_typed k a c P : stable P -> triple (fun st => P st /\ has_class (Some c) a st) (on_bb (add_objIdx k a)) (fun _ st => P st /\ has_class (Some c) a st).
Proof.
  intros HP st [H1 H2 H3 H4 H5 H6 H7] [HPs Ha]. unfold on_bb, add_objIdx, modify. set (st' := set_rbb _ _).
  assert (Hk : keeps st st') by (split; cbn; [lia|intros b o E; by exists o|done|done]).
  split; [|split; [exact Hk|split; [by eapply HP|exact Ha]]]. split; try done. intros k' b. cbn.
  intros [[<- <-]|[_ E]]%lookup_insert_Some; [apply (made_class (Some c) a (PObject None) st); [done|by split]|by apply (H7 k')].
Qed.
Section pointer.
Context (contents : cls -> Z -> M reading unit).
Context (Hcontents : forall c a P, stable P -> triple (fun st => P st /\ has_class (Some c) a st) (contents c a) (fun _ st => P st /\ has_class (Some c) a st)).
Context (v : place) (T : ptype) (P : reading -> Prop) (HP : stable P).

Abbreviation ready_for := (fun st => P st /\ place_typed v true T st).
Abbreviation result := (fun p st => P st /\ made T st p).

Lemma ready_stable : stable ready_for.
Proof using HP. apply stable_and; [done|apply place_stable]. Qed.

(** [v] is made to point to object [a]. *)
Lemma assign_new c a F : stable F -> match T with PString => c = None | PObject T => is_Some c /\ cast_ok T c = true end ->
  triple (fun st => ready_for st /\ F st /\ has_class c a st) (assign v (Some a)) (fun _ st => P st /\ F st /\ has_class c a st).
Proof using HP.
  intros HF HT. eapply triple_weaken; [| |apply (assign_typed v T (Some a) (fun st => P st /\ F st /\ has_class c a st))]; [|by intros ? st H|].
  - intros st ([H1 H2] & H3 & H4). split_and!; try done. by apply (made_class c).
  - apply stable_and; [done|]. apply stable_and; [done|apply has_class_stable].
Qed.

Lemma new_string_typed n : T = PString ->
  triple ready_for (a ← alloc (XStr []); _ ← assign v (Some a); _ ← on_bb (add_strIdx n a); s ← on_bb (ReadFrom (T := xstring));
    _ ← update a (fun _ => XStr (chars s)); mret (Some a)) result.
Proof using HP.
  intros HT. eapply triple_bind; [apply alloc_typed; [apply ready_stable|intros st; constructor]|]. intros a. cbn [class_of].
  assert (Hst : stable (fun st => P st /\ has_class None a st)) by (apply stable_and; [done|apply has_class_stable]).
  eapply triple_bind; [eapply triple_weaken; [| |apply (assign_new None a (fun _ => True)); [done|by rewrite HT]]; [by intros st [H1 H2]|intros ? st (H1 & _ & H2); exact (conj H1 H2)]|].
  intros ?. eapply triple_bind; [by apply add_strIdx_typed|]. intros ?. eapply triple_bind; [apply triple_bb; [done|apply xstring_reads|apply xstring_defined]|].
  intros s. eapply triple_bind; [apply update_typed; [done|]; intros st o _ _ _; split; [done|constructor]|]. intros ?. apply triple_ret.
  intros st [H1 H2]. split; [done|]. apply (made_class None); [done|by rewrite HT].
Qed.

Lemma new_object_typed n Tc c : T = PObject Tc ->
  triple ready_for (a ← alloc (make c);
    if cast_ok Tc (Some c) then _ ← assign v (Some a); _ ← on_bb (add_objIdx n a); _ ← contents c a; mret (Some a)
    else _ ← destroy a; fail (-4)) result.
Proof using HP Hcontents.
  intros HT. apply create_typed; [apply ready_stable|]. intros a Hcast.
  assert (Hm : match T with PString => Some c = None | PObject T => is_Some (Some c) /\ cast_ok T (Some c) = true end) by (rewrite HT; by split).
  eapply triple_bind; [eapply triple_weaken; [| |apply (assign_new (Some c) a (fun _ => True)); done]; [by intros st [H1 H2]|intros ? st (H1 & _ & H2); exact (conj H1 H2)]|].
  intros ?. eapply triple_bind; [by apply add_objIdx_typed|]. intros ?. eapply triple_bind; [by apply Hcontents|]. intros ?. apply triple_ret.
  intros st [H1 H2]. split; [done|]. by apply (made_class (Some c)).
Qed.

Lemma assign_old a : triple (fun st => ready_for st /\ made T st (Some a)) (_ ← assign v (Some a); mret (Some a)) result.
Proof using HP.
  apply (triple_bind _ _ _ (fun _ st => P st /\ made T st (Some a))); [|intros ?; by apply triple_ret].
  eapply triple_weaken; [| |apply (assign_typed v T (Some a) (fun st => P st /\ made T st (Some a)))]; [|by intros ? st H|].
  - intros st [[H1 H2] H3]. by split_and!.
  - apply stable_and; [done|apply made_stable].
Qed.

Lemma old_object_typed a Tc typeId st0 : T = PObject Tc -> typed st0 -> ready_for st0 -> made (PObject None) st0 (Some a) ->
  triple (fun st => st = st0) (o ← demand (rheap st0 !! a); _ ← reject_if (negb (GetTypeId o =? typeId)) (-7);
    _ ← reject_if (negb (cast_ok Tc (class_of o))) (-8); _ ← assign v (Some a); mret (Some a)) result.
Proof using HP.
  intros HT Ht Hr [[Hn Ho] Hb]. destruct (rheap st0 !! a) as [o|] eqn:Eo; [|done]. intros st Hst ->.
  change (demand (Some o)) with (mret (M := M reading) o). rewrite bind_mret. revert Hst. intros Hst.
  destruct (cast_ok Tc (class_of o)) eqn:Hcast; unfold mbind at 1, M_bind at 1, reject_if; destruct (negb (GetTypeId o =? typeId)); cbn; try done.
  apply (assign_old a st0 Ht). split; [done|]. split; [|done]. split; [done|]. rewrite Eo, HT. split; [apply Ho|done].
Qed.

End pointer.

Lemma ReadPtr_body_typed contents v T P typeId : stable P ->
  (forall c a P, stable P -> triple (fun st => P st /\ has_class (Some c) a st) (contents c a) (fun _ st => P st /\ has_class (Some c) a st)) ->
  triple (fun st => P st /\ place_typed v true T st) (ReadPtr_body contents v T typeId) (fun p st => P st /\ made T st p).
Proof.
  intros HP Hcontents.
  unfold ReadPtr_body. destruct (typeId =? 0); [apply triple_ret; by intros st [H _]|].
  eapply triple_bind; [instantiate (1 := fun _ st => P st /\ place_typed v true T st); destruct (wrong_type T typeId); [apply triple_fail|by apply triple_ret]|]. intros ?.
  eapply triple_bind; [apply triple_reject|]. intros ?. apply triple_get. intros st0 _ H0.
  apply (triple_weaken (fun st => P st /\ place_typed v true T st) _ _ (fun p st => P st /\ made T st p)); [by intros st ->|done|]. cbv zeta.
  eapply triple_bind; [apply R64_typed, ready_stable, HP|]. intros n. destruct (n =? _).
  - destruct T as [|Tc].
    + by apply new_string_typed.
    + destruct (if typeId =? 2 then Some CBBuffer else creators typeId) as [c|]; [|apply triple_fail]. by apply new_object_typed.
  - apply triple_get. intros st1 Ht1 H1. destruct T as [|Tc].
    + destruct (strIdxs (rbb st1) !! n) as [a|] eqn:Ea; [|apply triple_fail].
      eapply triple_weaken; [|intros ? ? H; exact H|by apply assign_old]. intros st ->. split; [exact H1|by apply (ty_str _ Ht1 n)].
    + destruct (objIdxs (rbb st1) !! n) as [a|] eqn:Ea; [|apply triple_fail].
      apply old_object_typed; [done|done|done|exact H1|by apply (ty_obj _ Ht1 n)].
Qed.
Lemma ReadPtr_or_typed stop fuel : (forall v T P, triple P (stop v T) (fun p st => P st /\ made T st p)) ->
  forall v T P, stable P -> triple (fun st => P st /\ place_typed v true T st) (ReadPtr_or stop fuel v T) (fun p st => P st /\ made T st p).
Proof.
  intros Hs. induction fuel as [|fuel IH]; intros v T P HP.
  - eapply triple_weaken; [|intros ? ? H; exact H|apply Hs]. by intros st [H _].
  - cbn [ReadPtr_or]. apply (triple_bind _ _ _ (fun _ st => P st /\ place_typed v true T st)).
    + eapply triple_weaken; [|intros ? ? H; exact H|apply (assign_typed v T None), stable_and; [exact HP|apply place_stable]].
      intros st [H1 H2]. split; [done|]. split; [done|]. by split.
    + intros ?. eapply triple_bind; [apply R16_typed, stable_and; [exact HP|apply place_stable]|]. intros typeId. apply ReadPtr_body_typed; [done|].
      intros c a P' HP'. by apply (contents_typed (ReadPtr_or stop fuel)).
Qed.
End steps.

(** ** The whole reader *)

(** Between two readings: the objects are typed and the tables empty. *)
Definition well_typed (st : reading) : Prop :=
  at_ok (rbb st) /\ typed_heap st /\ objIdxs (rbb st) = ∅ /\ strIdxs (rbb st) = ∅.

Lemma shared_field o b : Some b ∈ shared_ptrs o <-> exists T, (true, T, Some b) ∈ fields o.
Proof.
  destruct o; cbn [shared_ptrs fields]; try set_solver. split.
  - destruct (elem_shared e) eqn:E; [|by intros ?%elem_of_nil]. intros Hb. exists (elem_type e). apply list_elem_of_fmap. by exists (Some b).
  - intros (T & (p & [= <- -> <-] & Hp)%list_elem_of_fmap). done.
Qed.

Lemma typed_shared st a o b : typed_heap st -> rheap st !! a = Some o -> Some b ∈ shared_ptrs o ->
  exists T o', (true, T, Some b) ∈ fields o /\ b < rnext st /\ rheap st !! b = Some o' /\ of_type T o'.
Proof.
  intros Hh Ha Hb. apply shared_field in Hb as [T HT]. destruct (Hh a o Ha) as [_ Ho]. unfold typed_object in Ho. rewrite Forall_forall in Ho.
  specialize (Ho _ HT). cbn in Ho. destruct Ho as [Hn Hx]. destruct (rheap st !! b) as [o'|] eqn:E; [|done]. by exists T, o'.
Qed.

Lemma typed_closed st : typed_heap st -> shared_closed (rheap st).
Proof. intros Hh a b (o & Ha & Hb). destruct (typed_shared st a o b Hh Ha Hb) as (_ & o' & _ & _ & E & _). by exists o'. Qed.

Lemma of_type_rank T o : of_type T o -> match T with PString => rank o = 1%nat | PObject (Some c) => rank o = rank (make c) | PObject None => True end.
Proof.
  destruct T as [|[c|]]; [|intros [_ Hc%bool_decide_eq_true]|done].
  - by destruct o.
  - destruct o as [| | | | | | |[]]; try discriminate Hc; by injection Hc as <-.
Qed.

Lemma field_rank o T b o' : (true, T, Some b) ∈ fields o -> of_type T o' -> (rank o' < rank o)%nat.
Proof.
  intros HT Ho%of_type_rank. destruct o as [| |p q|i p q| |p q|p q|e l]; cbn [fields] in HT; rewrite ?elem_of_cons, ?elem_of_nil in HT.
  1,2,5: done.
  5: { apply list_elem_of_fmap in HT as (p & [= He -> _] & _). destruct e; try discriminate He; cbn in *; lia. }
  all: destruct HT as [HT|[HT|[]]]; try discriminate HT; injection HT as -> _; cbn in *; lia.
Qed.

Lemma typed_ranked st : typed_heap st -> ranked (rheap st).
Proof.
  intros Hh a b o o' Ha Hb Eb. destruct (typed_shared st a o b Hh Ha Hb) as (T & x & HT & _ & E & Hx). rewrite Eb in E. injection E as <-. by eapply field_rank.
Qed.

(** What reading has done to [st]: the objects that were there are as they
    were, the others are typed, and so is the pointer of the caller. *)
Definition sound (T : ptype) (st st' : reading) : Prop :=
  (forall a, a < rnext st -> rheap st' !! a = rheap st !! a) /\ well_typed st' /\ points true T st' (rroot st').

(** The reader as [ReadPtr] finds it, the pointer of the caller reset. *)
Definition start (st : reading) : reading := set_rroot None (set_rbb (set_offsetRoot (offset (rbb st)) (rbb st)) st).

(** Of the new objects, those are left that the pointer of the caller owns. *)
Definition owned_survive (st st' : reading) : Prop :=
  forall a, rnext st <= a -> is_Some (rheap st' !! a) <-> owned (rheap st') (rroot st') a.

Lemma clear_sound D T st st2 : typed_heap st -> typed (rnext st) D T st2 -> keeps (rnext st) st st2 -> let st' := clear_tables (rnext st) st2 in
  sound T st st' /\ owned_survive st st' /\ forall a o, rheap st' !! a = Some o <-> rheap st2 !! a = Some o /\ (a < rnext st \/ owned (rheap st2) (rroot st2) a).
Proof.
  intros Hh Ht Hk st'. pose proof (ty_heap _ _ _ _ Ht) as Hh2. pose proof (typed_closed _ Hh2) as Hc. pose proof (typed_ranked _ Hh2) as Hr.
  assert (Hap : old_apart (rnext st) (rheap st2)).
  { intros a b Ha (o & Eo & Hb). rewrite (k_old _ _ _ Hk a Ha) in Eo. by destruct (typed_shared st a o b Hh Eo Hb) as (_ & _ & _ & Hn & _). }
  pose proof (release_exact (rnext st) (rroot st2) (rheap st2) Hc Hr Hap) as Hex.
  pose proof (release_subseteq (rnext st) (rroot st2) (rheap st2)) as Hsub. pose proof (release_closed (rnext st) (rroot st2) (rheap st2) Hc) as Hcl.
  assert (Hpt : forall sh T p, (sh = true -> forall b, p = Some b -> is_Some (rheap st' !! b)) -> points sh T st2 p -> points sh T st' p).
  { intros sh T' [b|] Hal; [|done]. intros [Hn Hb]. split; [done|]. destruct (rheap st' !! b) as [o|] eqn:E.
    - by rewrite (lookup_weaken _ _ _ _ E Hsub) in Hb.
    - destruct sh; [|done]. destruct (Hal eq_refl b eq_refl) as [x Ex]. congruence. }
  assert (Hroot : forall b, rroot st2 = Some b -> is_Some (rheap st2 !! b)).
  { intros b Eb. pose proof (proj1 (ty_root _ _ _ _ Ht)) as Hp. rewrite Eb in Hp. destruct Hp as [_ Hb]. by destruct (rheap st2 !! b). }
  split; [split; [|split; [split; [|split; [|split]]|]]|split; [|exact Hex]].
  - intros a Ha. rewrite <-(k_old _ _ _ Hk a Ha). destruct (rheap st2 !! a) as [o|] eqn:E; [apply Hex; by auto|].
    destruct (rheap st' !! a) as [o|] eqn:E'; [apply Hex in E' as [E' _]; congruence|done].
  - destruct (ty_at _ _ _ _ Ht). by split.
  - intros a o Ha. destruct (Hh2 a o (lookup_weaken _ _ _ _ Ha Hsub)) as [Hn Ho]. split; [done|].
    unfold typed_object in *. rewrite Forall_forall in *. intros [[sh T'] p] Hp. specialize (Ho _ Hp). apply Hpt; [|exact Ho].
    cbn. intros -> b ->. apply (Hcl a b). exists o. split; [exact Ha|]. apply shared_field. by exists T'.
  - done.
  - done.
  - apply Hpt; [|apply Ht]. intros _ b Eb. destruct (Hroot b Eb) as [o Eo]. exists o. apply Hex. split; [done|]. right. rewrite (Eb : rroot st2 = Some b). apply owned_root. by exists o.
  - intros a Ha. split; [intros [o Eo]|].
    + by apply (survivor_owned (rnext st) (rroot st2) (rheap st2) a o).
    + intros Ho. by apply (owned_alive (rheap st') (rroot st')).
Qed.

Lemma start_typed T st : well_typed st -> typed (rnext st) (data (rbb st)) T (set_rroot None (set_rbb (set_offsetRoot (offset (rbb st)) (rbb st)) st)).
Proof. intros (Ha & Hh & Eo & Es). split; try done; cbn; intros k a; [rewrite Es|rewrite Eo]; by rewrite lookup_empty. Qed.

Lemma start_keeps base st bb : keeps base st (set_rroot None (set_rbb bb st)).
Proof. split; cbn; [lia|intros a o E; by exists o|done|done]. Qed.

(** [ReadRoot] is [ReadPtr] and then [clear_tables]. *)
Lemma ReadRoot_runs T st : well_typed st -> let st1 := set_rroot None (set_rbb (set_offsetRoot (offset (rbb st)) (rbb st)) st) in
  ReadRoot T st = then_clear (rnext st) (ReadPtr (S (length (data (rbb st)))) Root T) st1.
Proof.
  intros (Ha & Hh & Eo & Es) st1. unfold ReadRoot, on_bb, modify, mbind at 1 2 3, M_bind at 1 2 3, get. cbn [set_rbb set_offsetRoot rbb objIdxs strIdxs rnext data].
  rewrite Eo, Es, !bool_decide_true by done. reflexivity.
Qed.

Lemma ReadPtr_safe T st : well_typed st -> let st1 := set_rroot None (set_rbb (set_offsetRoot (offset (rbb st)) (rbb st)) st) in
  match ReadPtr (S (length (data (rbb st)))) Root T st1 with
  | Done v st2 => v = rroot st2 /\ typed (rnext st) (data (rbb st)) T st2 /\ keeps (rnext st) st st2
  | Fail _ st2 => typed (rnext st) (data (rbb st)) T st2 /\ keeps (rnext st) st st2
  | Undef => long_number (data (rbb st))
  end.
Proof.
  intros Hw st1. pose proof (start_typed T st Hw) as Ht. fold st1 in Ht. set (n := S (length (data (rbb st)))).
  assert (Hk1 : keeps (rnext st) st st1) by apply start_keeps.
  assert (E : ReadPtr n Root T st1 = ReadPtr_or (fun _ _ => fail 0) n Root T st1).
  { rewrite ReadPtr_stop. apply (ReadPtr_fuel _ _ n n n Root T); [done|done|apply Ht|]. destruct Hw as [[H1 H2] _].
    unfold left_over, n, st1, len, zlen in *. cbn. lia. }
  pose proof (ReadPtr_or_typed (rnext st) (data (rbb st)) T (fun _ _ => fail 0) n (fun v T' P => triple_fail _ _ _ _ _ _) Root T (fun _ => True) (stable_true _) st1 Ht (conj I eq_refl)) as Hr.
  rewrite <-E in Hr. pose proof (reader_equals_reference n T st1) as He. destruct (ReadPtr n Root T st1) as [v st2|e st2|]; [| |done].
  - destruct Hr as (T2 & K2 & _). destruct (Ref.ReadPtr n T (core st1)); [|done|done]. destruct He as (-> & <- & _). split; [done|]. split; [done|].
    exact (keeps_trans _ _ _ _ Hk1 K2).
  - destruct Hr as (T2 & K2). split; [done|]. exact (keeps_trans _ _ _ _ Hk1 K2).
Qed.

(** From [st], reading made [st2], and clearing the tables made [st'] of that:
    the objects that were there are left, and those that the pointer of the
    caller reached over shared pointers, as they were, and nothing else. *)
Definition exactly_owned (st st2 st' : reading) : Prop :=
  rroot st' = rroot st2 /\
  (forall a o, rheap st' !! a = Some o <-> rheap st2 !! a = Some o /\ (a < rnext st \/ owned (rheap st2) (rroot st2) a)) /\
  owned_survive st st'.

Lemma ReadRoot_safe T st : well_typed st ->
  match ReadPtr (S (length (data (rbb st)))) Root T (start st), ReadRoot T st with
  | Done v st2, Done v' st' => v' = v /\ v = rroot st' /\ sound T st st' /\ exactly_owned st st2 st'
  | Fail e st2, Fail e' st' => e' = e /\ sound T st st' /\ exactly_owned st st2 st'
  | Undef, Undef => long_number (data (rbb st))
  | _, _ => False
  end.
Proof.
  intros Hw. pose proof (ReadPtr_safe T st Hw) as Hs. cbv zeta in Hs. fold (start st) in Hs. rewrite (ReadRoot_runs T st Hw). fold (start st). unfold then_clear.
  destruct (ReadPtr _ Root T (start st)) as [v st2|e st2|]; [| |done].
  - destruct Hs as (-> & T2 & K2). split; [done|]. split; [done|]. destruct (clear_sound (data (rbb st)) T st st2) as (? & ? & ?); [apply Hw|done..].
  - destruct Hs as (T2 & K2). split; [done|]. destruct (clear_sound (data (rbb st)) T st st2) as (? & ? & ?); [apply Hw|done..].
Qed.

(** ** Properties *)

(** C10. Whatever bytes are read and whether reading succeeds or fails, after
    [ReadRoot] the objects that were there are as they were, and every shared
    pointer of every object, and that of the caller, is null or points to an
    object of the class that its static type asks for: none dangles.  A weak
    pointer is null, expired, or points to an object of its class.  Reading is
    defined unless five bytes with the high bit stand in a row. *)
Theorem graph_reads_typed T st : well_typed st ->
  match ReadRoot T st with
  | Done v st' => v = rroot st' /\ sound T st st'
  | Fail _ st' => sound T st st'
  | Undef => long_number (data (rbb st))
  end.
Proof.
  intros Hw. pose proof (ReadRoot_safe T st Hw) as Hs.
  destruct (ReadPtr _ Root T _) as [v st2|e st2|], (ReadRoot T st) as [v' st'|e' st'|]; try done; [|apply Hs]. destruct Hs as (-> & -> & Hs & _). by split.
Qed.

(** C29. Clearing the tables leaves no garbage and takes nothing that is in
    use: whether [ReadPtr] succeeds or fails half way, [ReadRoot] answers what
    [ReadPtr] does, and of the objects that have been made exactly those
    remain, as they were, that the pointer of the caller reaches over shared
    pointers. *)
Theorem graph_reads_no_leak T st : well_typed st ->
  match ReadPtr (S (length (data (rbb st)))) Root T (start st), ReadRoot T st with
  | Done v st2, Done v' st' => v' = v /\ exactly_owned st st2 st'
  | Fail e st2, Fail e' st' => e' = e /\ exactly_owned st st2 st'
  | Undef, Undef => long_number (data (rbb st))
  | _, _ => False
  end.
Proof.
  intros Hw. pose proof (ReadRoot_safe T st Hw) as Hs.
  destruct (ReadPtr _ Root T _) as [v st2|e st2|], (ReadRoot T st) as [v' st'|e' st'|]; try done; (split; [apply Hs|]); apply Hs.
Qed.

(** C11. Reading ends: however an object graph is damaged, [ReadPtr] has its
    result before it has used one round more than there are bytes, so that what
    it would do then never matters. *)
Theorem graph_reading_ends stop fuel v T st : at_ok (rbb st) -> (length (data (rbb st)) < fuel)%nat ->
  ReadPtr_or stop fuel v T st = ReadPtr (S (length (data (rbb st)))) v T st.
Proof.
  intros Ha Hf. rewrite ReadPtr_stop. destruct Ha as [H1 H2]. unfold len, zlen in *.
  apply (ReadPtr_fuel stop (fun _ _ => undef) (S (length (data (rbb st)))) fuel (S (length (data (rbb st)))) v T); [lia|lia|split; unfold len, zlen in *; lia|].
  unfold left_over, len, zlen. lia.
Qed.

(** ** Witnesses *)

Definition reading_of (bs : bytes) : reading := MkReading (set_data bs BB_empty) ∅ 0 None.

Lemma reading_of_typed bs : zlen bs < 2 ^ 63 -> well_typed (reading_of bs).
Proof. intros Hl. split; [|split; [|done]]; [split; cbn; [exact Hl|pose proof (zlen_nonneg bs); unfold len; cbn; lia]|]. intros a o. change (rheap (reading_of bs) !! a) with ((∅ : heap) !! a). by rewrite lookup_empty. Qed.

(** A Foo that is its own parent: type 3, position 1; parent: type 3, position
    1; no children. *)
Definition self_parent : bytes := [3; 1; 3; 1; 0].

Lemma graph_reads_typed_witness : exists st',
  ReadRoot (PObject None) (reading_of self_parent) = Done (Some 0) st' /\ rheap st' !! 0 = Some (Foo (Some 0) None) /\ sound (PObject None) (reading_of self_parent) st'.
Proof.
  pose proof (graph_reads_typed (PObject None) (reading_of self_parent) (reading_of_typed self_parent ltac:(by vm_compute))) as H.
  pose (st' := match ReadRoot (PObject None) (reading_of self_parent) with Done _ s => s | _ => reading_of [] end).
  assert (E : ReadRoot (PObject None) (reading_of self_parent) = Done (Some 0) st') by (vm_compute; reflexivity).
  rewrite E in H. exists st'. split; [exact E|]. split; [vm_compute; reflexivity|]. apply H.
Defined.

(** A Scene whose list of two monsters breaks off in the second: reading fails
    with -9, and the caller has the Scene, the list and the first Monster.  A
    Foo whose parent is another one, both with the same list: the parent is gone
    when [ReadRoot] returns. *)
Definition broken_scene : bytes := [7; 1; 8; 3; 2; 6; 6].
Definition foo_with_parent : bytes := [3; 1; 3; 3; 0; 4; 6; 0; 4; 6].
Definition after_read (bs : bytes) : reading :=
  match ReadPtr (S (length bs)) Root (PObject None) (start (reading_of bs)) with Done _ s | Fail _ s => s | Undef => reading_of [] end.

Lemma graph_reads_no_leak_witness :
  (exists st', ReadRoot (PObject None) (reading_of broken_scene) = Fail (-9) st' /\
     exactly_owned (reading_of broken_scene) (after_read broken_scene) st' /\
     rroot st' = Some 0 /\ rheap st' = <[0 := Scene (Some 1) None]> (<[1 := XList Monster_s [Some 2; None]]> (<[2 := Monster]> ∅))) /\
  (exists st', ReadRoot (PObject None) (reading_of foo_with_parent) = Done (Some 0) st' /\
     exactly_owned (reading_of foo_with_parent) (after_read foo_with_parent) st' /\
     is_Some (rheap (after_read foo_with_parent) !! 1) /\ rheap st' !! 1 = None).
Proof.
  split.
  - pose proof (graph_reads_no_leak (PObject None) (reading_of broken_scene) (reading_of_typed broken_scene ltac:(by vm_compute))) as H.
    pose (st' := match ReadRoot (PObject None) (reading_of broken_scene) with Fail _ s => s | _ => reading_of [] end).
    assert (E : ReadRoot (PObject None) (reading_of broken_scene) = Fail (-9) st') by (vm_compute; reflexivity).
    assert (E2 : ReadPtr (S (length broken_scene)) Root (PObject None) (start (reading_of broken_scene)) = Fail (-9) (after_read broken_scene)) by (vm_compute; reflexivity).
    cbn [reading_of rbb data set_data] in H. rewrite E in H.
    change (data (rbb (reading_of broken_scene))) with broken_scene in H. rewrite E2 in H.
    exists st'. split; [exact E|]. split; [apply H|]. split; vm_compute; reflexivity.
  - pose proof (graph_reads_no_leak (PObject None) (reading_of foo_with_parent) (reading_of_typed foo_with_parent ltac:(by vm_compute))) as H.
    pose (st' := match ReadRoot (PObject None) (reading_of foo_with_parent) with Done _ s => s | _ => reading_of [] end).
    assert (E : ReadRoot (PObject None) (reading_of foo_with_parent) = Done (Some 0) st') by (vm_compute; reflexivity).
    assert (E2 : ReadPtr (S (length foo_with_parent)) Root (PObject None) (start (reading_of foo_with_parent)) = Done (Some 0) (after_read foo_with_parent)) by (vm_compute; reflexivity).
    rewrite E in H. change (data (rbb (reading_of foo_with_parent))) with foo_with_parent in H. rewrite E2 in H.
    exists st'. split; [exact E|]. split; [apply H|]. split; [by eexists|]. vm_compute; reflexivity.
Defined.

Lemma graph_reading_ends_witness :
  ReadPtr_or (fun _ _ => fail 7) 1000 Root (PObject None) (reading_of [3; 1; 3; 3; 3; 5; 3; 7]) = ReadPtr 9 Root (PObject None) (reading_of [3; 1; 3; 3; 3; 5; 3; 7]).
Proof. apply (graph_reading_ends (fun _ _ => fail 7) 1000 Root (PObject None) (reading_of [3; 1; 3; 3; 3; 5; 3; 7])); [split; [by vm_compute|by vm_compute]|cbn; lia]. Defined.
