(* ===== verification/GraphCopy.v ===== *)
(** * What [WritePtr] writes, [Ref.ReadPtr] copies

    A simulation between the writer and the reference reader that follows the
    recursion of [WritePtr], proved once for the pointers and composed over the
    contents of the classes. *)

From Stdlib Require Import ZArith Lia.
From stdpp Require Import base numbers list gmap.
From S2P Require Import Prelude Util BBuffer Graph GraphRef.
Import Ref.
Open Scope Z_scope.

(** A nested [BBuffer], as an adapter like that of a string. *)
Record nested := Nested { nbytes : bytes }.

#[local] Instance BFuncs_nested : BFuncs nested := {
  WriteTo v := BBuffer_ToBBuffer (nbytes v);
  ReadFrom := d ← BBuffer_FromBBuffer; mret (Nested d)
}.

#[local] Program Instance BFuncsSpec_nested : BFuncsSpec nested := {
  enc v := counted (nbytes v);
  wire_ok v := len_ok (zlen (nbytes v)) /\ Forall is_byte (nbytes v);
  norm v := v
}.
Next Obligation. intros [v] Hv. exact (enc_bytes (XString v) Hv). Qed.
Next Obligation. intros [v] bb [Hn Hb] W R; simpl in *. by apply counted_write_spec. Qed.
Next Obligation.
  intros [v] bb pre post [Hn Hb] Hd Ho Hl Hlim; cbn [nbytes ReadFrom BFuncs_nested] in *.
  destruct (counted_read_spec v bb pre post) as [E1 E2]; try done.
  unfold BBuffer_FromBBuffer. rewrite bind_assoc. erewrite bind_done by exact E1.
  rewrite bind_assoc. erewrite bind_done by done. cbn [num_val].
  rewrite bind_assoc. erewrite bind_done by (eapply check_spec; done).
  erewrite bind_done by (eapply consume_spec; done).
  unfold mret, M_ret, counted, set_offset; cbn. do 2 f_equal. rewrite !zlen_app. lia.
Qed.

(** ** Round trip

    [writes m]: the writer [m] succeeds within its budget; [reads m r V]: what
    [m] writes, [r] reads back, with a result that satisfies [V].  The
    simulation runs over the objects met so far: [ptrs] of the writer maps
    their addresses to positions and [objIdxs] (or [strIdxs]) of the reader
    maps the positions to the addresses of the copies. *)

Section roundtrip.
Context (h : heap) (K : Z).

Definition idx (o : object) (bb : BBuffer) : gmap Z Z :=
  match o with XStr _ => strIdxs bb | _ => objIdxs bb end.

(** [a'] is the copy of [a]. *)
Definition copy (bb : BBuffer) (st : reading) (a a' : Z) : Prop :=
  exists o n, h !! a = Some o /\ ptrs bb !! a = Some n /\ idx o (rbb st) !! n = Some a'.

Definition ptr_rel (R : Z -> Z -> Prop) (p p' : ptr) : Prop :=
  match lock h p, p' with
  | None, None => True
  | Some a, Some a' => R a a'
  | _, _ => False
  end.

Definition obj_rel (R : Z -> Z -> Prop) (o o' : object) : Prop :=
  match o, o' with
  | XStr s, XStr s' => s' = s
  | XBuf d, XBuf d' => d' = d
  | Foo p c, Foo p' c' => ptr_rel R p p' /\ ptr_rel R c c'
  | Player i t g, Player i' t' g' => i' = i /\ ptr_rel R t t' /\ ptr_rel R g g'
  | Monster, Monster => True
  | Scene m p, Scene m' p' => ptr_rel R m m' /\ ptr_rel R p p'
  | Sync p s, Sync p' s' => ptr_rel R p p' /\ ptr_rel R s s'
  | XList e l, XList e' l' => e' = e /\ Forall2 (ptr_rel R) l l'
  | _, _ => False
  end.

(** What the type system and the life times of C++ guarantee: a shared pointer
    points to a live object, and a pointer to an object of its static type. *)
Definition has_type (T : ptype) (o : object) : Prop :=
  match T with
  | PString => class_of o = None
  | PObject None => is_Some (class_of o)
  | PObject (Some c) => class_of o = Some c
  end.
Definition shared_ok (T : ptype) (p : ptr) : Prop :=
  forall a, p = Some a -> exists o, h !! a = Some o /\ has_type T o.
Definition weak_ok (T : ptype) (p : ptr) : Prop :=
  forall a o, p = Some a -> h !! a = Some o -> has_type T o.

(** Objects that are written as they are read: every class but [Player]. *)
Definition obj_ok (o : object) : Prop :=
  match o with
  | XStr s | XBuf s => len_ok (zlen s) /\ Forall is_byte s
  | Foo p c => weak_ok (PObject (Some CFoo)) p /\ shared_ok (PObject (Some (CList Foo_w))) c
  | Player _ _ _ => False
  | Monster => True
  | Scene m p =>
      shared_ok (PObject (Some (CList Monster_s))) m /\ shared_ok (PObject (Some (CList Player_w))) p
  | Sync p s => shared_ok (PObject (Some (CList Player_s))) p /\ shared_ok (PObject (Some CScene)) s
  | XList e l =>
      len_ok (zlen l) /\ Forall (if elem_shared e then shared_ok (elem_type e) else weak_ok (elem_type e)) l
  end.

(** Bytes that the contents of an object take at most, pointers at 8 bytes. *)
Definition cost (o : object) : Z :=
  match o with
  | XStr s | XBuf s => 5 + zlen s
  | Foo _ _ | Scene _ _ | Sync _ _ => 16
  | Player _ _ _ => 13
  | Monster => 0
  | XList _ l => 5 + 8 * zlen l
  end.

Context (Hok : forall a o, h !! a = Some o -> obj_ok o /\ cost o <= K) (HK : 0 <= K).

(** Objects that are still to be written. *)
Definition todo (bb : BBuffer) : Z := Z.of_nat (size (dom h ∖ dom (ptrs bb))).

(** The position of the next byte. *)
Definition pos (bb : BBuffer) : Z := len bb - offsetRoot bb.

(** The recorded positions lie behind. *)
Definition ptrs_ok (bb : BBuffer) : Prop :=
  forall a n, ptrs bb !! a = Some n -> 0 <= n < len bb - offsetRoot bb.

Definition wr_ok (c : Z) (bb : BBuffer) : Prop :=
  bb_wf bb /\ 0 <= offsetRoot bb <= len bb /\ offsetRoot bb <= 2 ^ 60 /\ ptrs_ok bb /\
  len bb + c + todo bb * K < offsetRoot bb + 2 ^ 32.

Definition wrote_graph (c : Z) (w : bytes) (bb bb' : BBuffer) : Prop :=
  data bb' = data bb ++ w /\ offsetRoot bb' = offsetRoot bb /\ ptrs bb ⊆ ptrs bb' /\ bb_wf bb' /\ ptrs_ok bb' /\
  zlen w <= c + (todo bb - todo bb') * K.

Definition synced (bb : BBuffer) (st : reading) : Prop :=
  (forall a n, ptrs bb !! a = Some n ->
     exists o a' o', h !! a = Some o /\ idx o (rbb st) !! n = Some a' /\
                     rheap st !! a' = Some o' /\ class_of o' = class_of o) /\
  (forall a o, rheap st !! a = Some o -> a < rnext st) /\
  (forall a b a', copy bb st a a' -> copy bb st b a' -> a = b) /\
  (forall k, pos bb <= k -> objIdxs (rbb st) !! k = None /\ strIdxs (rbb st) !! k = None).

(** The reader stands at the bytes [w], at the position where they were written. *)
Definition at_bytes (bb : BBuffer) (st : reading) (w : bytes) : Prop :=
  exists pre post, data (rbb st) = pre ++ w ++ post /\ offset (rbb st) = zlen pre /\
    zlen pre - offsetRoot (rbb st) = len bb - offsetRoot bb /\ len (rbb st) <= 2 ^ 62 /\
    readLengthLimit (rbb st) = 0.

Definition extends (n : Z) (st st' : reading) : Prop :=
  data (rbb st') = data (rbb st) /\ offset (rbb st') = offset (rbb st) + n /\
  offsetRoot (rbb st') = offsetRoot (rbb st) /\ readLengthLimit (rbb st') = readLengthLimit (rbb st) /\
  objIdxs (rbb st) ⊆ objIdxs (rbb st') /\ strIdxs (rbb st) ⊆ strIdxs (rbb st') /\
  rheap st ⊆ rheap st' /\ rnext st <= rnext st'.

(** The objects met by this write have copies with the same contents. *)
Definition copied (bb bb' : BBuffer) (st' : reading) : Prop :=
  forall a a', ptrs bb !! a = None -> copy bb' st' a a' ->
    exists o o', h !! a = Some o /\ rheap st' !! a' = Some o' /\ obj_rel (copy bb' st') o o'.

(** With the address space for [c] bytes and the objects still to be written,
    and recursion [d] deep, [m] writes at least [n] bytes. *)
Definition writes (d : nat) (n c : Z) (m : M BBuffer unit) : Prop :=
  forall bb, wr_ok c bb -> todo bb < Z.of_nat d ->
  exists bb' w, m bb = Done tt bb' /\ wrote_graph c w bb bb' /\ n <= zlen w.

Definition reads {A} (d : nat) (c : Z) (m : M BBuffer unit) (r : nat -> M reading A)
    (V : (Z -> Z -> Prop) -> A -> Prop) : Prop :=
  forall bb bb' w rf st, wr_ok c bb -> todo bb < Z.of_nat d -> m bb = Done tt bb' -> data bb' = data bb ++ w ->
    zlen w < Z.of_nat rf -> at_bytes bb st w -> synced bb st ->
    exists x st', r rf st = Done x st' /\ extends (zlen w) st st' /\ synced bb' st' /\
                  copied bb bb' st' /\ V (copy bb' st') x.

(** *** The relations compose *)

Lemma extends_trans n m a b c : extends n a b -> extends m b c -> extends (n + m) a c.
Proof.
  intros (?&?&?&?&?&?&?&?) (?&?&?&?&?&?&?&?). unfold extends.
  split_and!; try congruence; try lia; etrans; done.
Qed.

Lemma idx_extends n st st' o k a : extends n st st' -> idx o (rbb st) !! k = Some a -> idx o (rbb st') !! k = Some a.
Proof. intros (?&?&?&?&Ho&Hs&_) E. destruct o; cbn in *; by eapply lookup_weaken. Qed.

Lemma copy_mono n bb bb' st st' a a' :
  ptrs bb ⊆ ptrs bb' -> extends n st st' -> copy bb st a a' -> copy bb' st' a a'.
Proof.
  intros Hp He (o & k & H1 & H2 & H3). exists o, k. split; [done|]. split; [by eapply lookup_weaken|].
  by eapply idx_extends.
Qed.

Lemma copy_fun bb st a b c : copy bb st a b -> copy bb st a c -> b = c.
Proof. intros (o & k & H1 & H2 & H3) (o' & k' & H1' & H2' & H3'). congruence. Qed.

Lemma synced_copy bb st a k : synced bb st -> ptrs bb !! a = Some k -> exists a', copy bb st a a'.
Proof.
  intros (Hs & _) E. destruct (Hs _ _ E) as (o & a' & o' & H1 & H2 & _). exists a', o, k. done.
Qed.

Lemma ptr_rel_mono (R R' : Z -> Z -> Prop) p p' : (forall a a', R a a' -> R' a a') -> ptr_rel R p p' -> ptr_rel R' p p'.
Proof. unfold ptr_rel. intros H. destruct (lock h p), p'; auto. Qed.

Lemma obj_rel_mono (R R' : Z -> Z -> Prop) o o' : (forall a a', R a a' -> R' a a') -> obj_rel R o o' -> obj_rel R' o o'.
Proof.
  intros H. pose proof (ptr_rel_mono R R') as Hp. destruct o, o'; cbn; try done; try (intuition eauto; fail).
  intros [-> Hl]. split; [done|]. eapply Forall2_impl; [exact Hl|]. eauto.
Qed.

Lemma copied_trans n bb bb1 bb2 st1 st2 :
  synced bb1 st1 -> ptrs bb1 ⊆ ptrs bb2 -> extends n st1 st2 ->
  copied bb bb1 st1 -> copied bb1 bb2 st2 -> copied bb bb2 st2.
Proof.
  intros Hs Hp He H1 H2 a a' Ha Hc. destruct (ptrs bb1 !! a) as [k|] eqn:E; [|by apply H2].
  destruct (synced_copy bb1 st1 a k Hs E) as [b Hb].
  assert (b = a') as -> by (eapply copy_fun; [by eapply copy_mono|exact Hc]).
  destruct (H1 a a' Ha Hb) as (o & o' & Eo & Eo' & Hr). exists o, o'. split; [done|].
  destruct He as (?&?&?&?&?&?&Hh&?). split; [by eapply lookup_weaken|].
  eapply obj_rel_mono; [|exact Hr]. intros x y. eapply copy_mono; [done|]. by split_and!.
Qed.

Lemma todo_mono bb bb' : ptrs bb ⊆ ptrs bb' -> todo bb' <= todo bb.
Proof.
  intros Hp. unfold todo. apply subseteq_dom in Hp. apply inj_le, subseteq_size. set_solver.
Qed.

Lemma wr_ok_wrote c c' w bb bb' :
  wr_ok (c + c') bb -> wrote_graph c w bb bb' -> wr_ok c' bb'.
Proof.
  intros (W & Ho & Hl & Hpo & Hb) (Hd & Hr & Hp & W' & Hpo' & Hn). unfold wr_ok, len in *. rewrite Hd, Hr, zlen_app in *.
  pose proof (zlen_nonneg w). split_and!; try done; try lia.
Qed.

Lemma at_bytes_app bb bb' st st' c w w' :
  at_bytes bb st (w ++ w') -> wrote_graph c w bb bb' -> extends (zlen w) st st' -> at_bytes bb' st' w'.
Proof.
  intros (pre & post & H1 & H2 & H3 & H4 & H5) (Hd & Hr & _) (E1 & E2 & E3 & E4 & _).
  exists (pre ++ w), post. unfold len in *. rewrite E1, E2, E3, E4, Hd, Hr, !zlen_app.
  split_and!; [by rewrite H1, <-!app_assoc|lia|lia|done|done].
Qed.

Lemma at_bytes_head bb st w w' : at_bytes bb st (w ++ w') -> at_bytes bb st w.
Proof.
  intros (pre & post & H & ?). exists pre, (w' ++ post). by rewrite H, <-app_assoc.
Qed.

Lemma wrote_graph_trans c1 c2 w1 w2 bb bb1 bb2 :
  wrote_graph c1 w1 bb bb1 -> wrote_graph c2 w2 bb1 bb2 -> wrote_graph (c1 + c2) (w1 ++ w2) bb bb2.
Proof.
  intros (D1 & O1 & P1 & W1 & _ & Z1) (D2 & O2 & P2 & W2 & Q2 & Z2). unfold wrote_graph.
  rewrite D2, D1, O2, zlen_app. split_and!; [by rewrite app_assoc|done|by etrans|done|done|lia].
Qed.

Lemma writes_bind d n1 n2 c1 c2 (m1 m2 : M BBuffer unit) :
  0 <= c2 -> writes d n1 c1 m1 -> writes d n2 c2 m2 -> writes d (n1 + n2) (c1 + c2) (_ ← m1; m2).
Proof.
  intros Hc H1 H2 bb Hw Ht. destruct (H1 bb) as (bb1 & w1 & E1 & G1 & N1); [|done|].
  { destruct Hw as (?&?&?&?&?). unfold wr_ok. split_and!; try done; lia. }
  destruct (H2 bb1) as (bb2 & w2 & E2 & G2 & N2); [by eapply wr_ok_wrote| |].
  { pose proof (todo_mono bb bb1 ltac:(apply G1)). lia. }
  exists bb2, (w1 ++ w2). split; [by erewrite bind_done|]. split; [by eapply wrote_graph_trans|].
  rewrite zlen_app. lia.
Qed.

Lemma reads_bind {A B} d n1 n2 c1 c2 (m1 m2 : M BBuffer unit) (r1 : nat -> M reading A) (r2 : A -> nat -> M reading B)
    V1 V2 (V : (Z -> Z -> Prop) -> B -> Prop) :
  0 <= c2 -> writes d n1 c1 m1 -> writes d n2 c2 m2 ->
  reads d c1 m1 r1 V1 -> (forall R x, V1 R x -> reads d c2 m2 (r2 x) (V2 x)) ->
  (forall (R R' : Z -> Z -> Prop) x, (forall a a', R a a' -> R' a a') -> V1 R x -> V1 R' x) ->
  (forall R x y, V1 R x -> V2 x R y -> V R y) ->
  reads d (c1 + c2) (_ ← m1; m2) (fun rf => x ← r1 rf; r2 x rf) V.
Proof.
  intros Hc W1 W2 H1 H2 Hmono HV bb bb2 w rf st Hw Ht E G Hrf Hat Hs.
  assert (Hw1 : wr_ok c1 bb) by (destruct Hw as (?&?&?&?&?); unfold wr_ok; split_and!; try done; lia).
  destruct (W1 bb Hw1 Ht) as (bb1 & w1 & E1 & G1 & N1).
  assert (Hw2 : wr_ok c2 bb1) by (by eapply wr_ok_wrote).
  assert (Ht1 : todo bb1 < Z.of_nat d) by (pose proof (todo_mono bb bb1 ltac:(apply G1)); lia).
  destruct (W2 bb1 Hw2 Ht1) as (bb2' & w2 & E2 & G2 & N2).
  erewrite bind_done in E by exact E1. rewrite E2 in E. injection E as ->.
  pose proof (wrote_graph_trans _ _ _ _ _ _ _ G1 G2) as G'.
  assert (w = w1 ++ w2) as ->.
  { destruct G' as (Dw' & _). rewrite G in Dw'. by apply app_inv_head in Dw'. }
  rewrite zlen_app in Hrf. pose proof (zlen_nonneg w1). pose proof (zlen_nonneg w2).
  destruct (H1 bb bb1 w1 rf st Hw1 Ht E1 (proj1 G1)) as (x & st1 & F1 & X1 & S1 & C1 & R1);
    [lia|by eapply at_bytes_head|done|].
  destruct (H2 _ x R1 bb1 bb2 w2 rf st1 Hw2 Ht1 E2 (proj1 G2)) as (y & st2 & F2 & X2 & S2 & C2 & R2);
    [lia|by eapply at_bytes_app|done|].
  exists y, st2. split; [by erewrite bind_done|]. rewrite zlen_app. split; [by eapply extends_trans|].
  split; [done|]. split; [eapply copied_trans; [exact S1|apply G2|exact X2|done|done]|].
  eapply HV; [|exact R2]. eapply Hmono; [|exact R1]. intros a a'. eapply copy_mono; [apply G2|exact X2].
Qed.

Lemma todo_nonneg bb : 0 <= todo bb.
Proof. unfold todo. lia. Qed.

Lemma wr_ok_le c c' bb : c' <= c -> wr_ok c bb -> wr_ok c' bb.
Proof. intros ? (?&?&?&?&?). unfold wr_ok. split_and!; try done; lia. Qed.

Lemma writes_le d n n' c c' m : n' <= n -> c <= c' -> writes d n c m -> writes d n' c' m.
Proof.
  intros Hn Hc H bb Hw Ht. destruct (H bb) as (bb' & w & E & (?&?&?&?&?&?) & N); [by eapply wr_ok_le|done|].
  exists bb', w. split; [done|]. split; [split_and!; try done; lia|lia].
Qed.

Lemma reads_le {A} d c c' m (r : nat -> M reading A) V : c <= c' -> reads d c m r V -> reads d c' m r V.
Proof. intros Hc H bb bb' w rf st Hw. apply H. by eapply wr_ok_le. Qed.

Lemma reads_weaken {A} d c m (r : nat -> M reading A) (V V' : (Z -> Z -> Prop) -> A -> Prop) :
  (forall R x, V R x -> V' R x) -> reads d c m r V -> reads d c m r V'.
Proof.
  intros HV H bb bb' w rf st Hw Ht E D Hrf Hat Hs.
  destruct (H bb bb' w rf st Hw Ht E D Hrf Hat Hs) as (x & st' & ?&?&?&?&?). exists x, st'. eauto 10.
Qed.

(** *** Scalars *)

Lemma wrote_scalar c w bb bb' : ptrs_ok bb -> wrote w bb bb' -> zlen w <= c -> wrote_graph c w bb bb'.
Proof.
  intros Hpo Hw Hc. assert (Hpo' : ptrs_ok bb').
  { intros a n. rewrite (wrote_ptrs _ _ _ Hw), (wrote_len _ _ _ Hw), (wrote_offsetRoot _ _ _ Hw). intros E.
    pose proof (zlen_nonneg w). specialize (Hpo a n E). lia. } unfold wrote_graph, todo. rewrite (wrote_ptrs _ _ _ Hw). split_and!.
  - by apply wrote_data.
  - by eapply wrote_offsetRoot.
  - done.
  - by eapply wrote_wf.
  - done.
  - lia.
Qed.

Lemma wr_ok_room c n bb : wr_ok c bb -> 0 <= c -> n <= 2 ^ 60 -> room n bb.
Proof.
  intros (W & Ho & Hl & _ & Hb) Hc Hn. pose proof (Z.mul_nonneg_nonneg _ _ (todo_nonneg bb) HK). unfold room.
  change (2 ^ 60) with 1152921504606846976 in *. change (2 ^ 62) with 4611686018427387904 in *.
  change (2 ^ 32) with 4294967296 in *. lia.
Qed.

Lemma writes_scalar {T} `{BFuncsSpec T} d (v : T) :
  wire_ok v -> zlen (enc v) <= 2 ^ 33 -> writes d (zlen (enc v)) (zlen (enc v)) (WriteTo v).
Proof.
  intros Hv Hn bb Hw Ht. pose proof (zlen_nonneg (enc v)).
  destruct (write_spec v bb Hv) as (bb' & E & Hwr).
  - apply Hw.
  - eapply wr_ok_room; [exact Hw|done|]. change (2 ^ 60) with 1152921504606846976.
    change (2 ^ 33) with 8589934592 in *. lia.
  - exists bb', (enc v). split; [done|]. split; [apply wrote_scalar; [apply Hw|done|done]|done].
Qed.

(** A step of the writer without pointers and one of the reader without objects. *)
Lemma synced_scalar bb bb' st bbr :
  synced bb st -> ptrs bb' = ptrs bb -> pos bb <= pos bb' ->
  objIdxs bbr = objIdxs (rbb st) -> strIdxs bbr = strIdxs (rbb st) ->
  synced bb' (MkReading bbr (rheap st) (rnext st)).
Proof.
  intros (H1 & H2 & H3 & H4) Ep Hp Ei Es.
  assert (Hi : forall o, idx o bbr = idx o (rbb st)) by (intros []; done).
  unfold synced, copy in *. cbn [rbb rheap rnext]. rewrite Ep. split_and!.
  - intros a n E. destruct (H1 a n E) as (o & a' & o' & ?&?&?&?).
    exists o, a', o'. by rewrite Hi.
  - done.
  - intros a b a' (o & n & ?&?&Ha) (o2 & n2 & ?&?&Hb). rewrite Hi in Ha, Hb. eapply H3; eauto 10.
  - intros k Hk. rewrite Ei, Es. apply H4. lia.
Qed.

Lemma copied_none bb bb' st : ptrs bb' = ptrs bb -> copied bb bb' st.
Proof. intros E a a' Ha (o & n & _ & Hn & _). congruence. Qed.

Lemma reads_scalar {T} `{BFuncsSpec T} d (v : T) :
  wire_ok v -> zlen (enc v) <= 2 ^ 33 -> norm v = v ->
  reads d (zlen (enc v)) (WriteTo v) (fun _ => on_bb ReadFrom) (fun _ x => x = v).
Proof.
  intros Hv Hn Hnorm bb bb' w rf st Hw Ht E D Hrf (pre & post & P1 & P2 & P3 & P4 & P5) Hs.
  pose proof (zlen_nonneg (enc v)).
  destruct (write_spec v bb Hv) as (bb1 & E1 & Hwr); [apply Hw| |].
  { eapply wr_ok_room; [exact Hw|done|]. change (2 ^ 60) with 1152921504606846976.
    change (2 ^ 33) with 8589934592 in *. lia. }
  rewrite E1 in E. injection E as ->. rewrite (wrote_data _ _ _ Hwr) in D. apply app_inv_head in D as <-.
  exists v, (MkReading (set_offset (zlen pre + zlen (enc v)) (rbb st)) (rheap st) (rnext st)).
  split; [unfold on_bb; by rewrite (read_spec v (rbb st) pre post), Hnorm by done|].
  split; [by split_and!; cbn; try done; rewrite P2|].
  split; [|split; [|done]].
  - eapply synced_scalar; try done; [by eapply wrote_ptrs|].
    unfold pos. rewrite (wrote_len _ _ _ Hwr), (wrote_offsetRoot _ _ _ Hwr). lia.
  - apply copied_none. by eapply wrote_ptrs.
Qed.

Lemma reads_map {A B} d c m (r : nat -> M reading A) (f : A -> B) (V : (Z -> Z -> Prop) -> A -> Prop) V' :
  (forall R x, V R x -> V' R (f x)) -> reads d c m r V -> reads d c m (fun rf => x ← r rf; mret (f x)) V'.
Proof.
  intros HV H bb bb' w rf st Hw Ht E D Hrf Hat Hs.
  destruct (H bb bb' w rf st Hw Ht E D Hrf Hat Hs) as (x & st' & F &?&?&?&?).
  exists (f x), st'. split; [by erewrite bind_done|]. eauto 10.
Qed.

Lemma num_enc_size t v : StdIty t -> sizeof t <> 1 -> 1 <= zlen (num_enc t v) <= Z.of_nat (var_digits t).
Proof.
  intros Ht H1. unfold num_enc. destruct (Z.eqb_spec (sizeof t) 1); [done|]. split; [|apply var_enc_len].
  unfold var_digits. destruct (bits t =? 16); cbn [var_enc]; destruct (_ <? _); rewrite ?zlen_cons;
    match goal with |- context [zlen ?l] => pose proof (zlen_nonneg l) end; lia.
Qed.

Lemma W16_spec d v : is_uint 16 v ->
  writes d 1 3 (W16 v) /\ reads d 3 (W16 v) (fun _ => R16) (fun _ x => x = v).
Proof.
  intros Hv. assert (Hok16 : wire_ok (Num (t := U16) v)) by (apply num_ok_32; [apply _|done|done]).
  destruct (num_enc_size U16 v ltac:(apply _) ltac:(done)) as [N1 N2]. change (Z.of_nat _) with 3 in N2.
  assert (N3 : zlen (num_enc U16 v) <= 2 ^ 33) by (change (2 ^ 33) with 8589934592; lia).
  split.
  - eapply writes_le; [| |by apply (writes_scalar d (Num (t := U16) v))]; done.
  - apply (reads_map _ _ _ (fun _ => on_bb (ReadFrom (T := num U16))) num_val (fun _ x => x = Num v)).
    { by intros _ x ->. }
    eapply reads_le; [|by apply (reads_scalar d (Num (t := U16) v))]. done.
Qed.

Lemma W64_spec d v : len_ok v ->
  writes d 1 5 (W64 v) /\ reads d 5 (W64 v) (fun _ => R64) (fun _ x => x = v).
Proof.
  intros Hv. assert (Hok64 : wire_ok (Num (t := U64) v)) by (by apply len_num_ok).
  destruct (num_enc_size U64 v ltac:(apply _) ltac:(done)) as [N1 N2]. change (Z.of_nat _) with 5 in N2.
  assert (N3 : zlen (num_enc U64 v) <= 2 ^ 33) by (change (2 ^ 33) with 8589934592; lia).
  split.
  - eapply writes_le; [| |by apply (writes_scalar d (Num (t := U64) v))]; done.
  - apply (reads_map _ _ _ (fun _ => on_bb (ReadFrom (T := num U64))) num_val (fun _ x => x = Num v)).
    { by intros _ x ->. }
    eapply reads_le; [|by apply (reads_scalar d (Num (t := U64) v))]. done.
Qed.

(** *** Steps that write or read nothing *)

Lemma writes_ext d n c m m' : (forall bb, m' bb = m bb) -> writes d n c m -> writes d n c m'.
Proof. intros E H bb Hw Ht. destruct (H bb Hw Ht) as (bb' & w & ?). exists bb', w. by rewrite E. Qed.

Lemma reads_ext {A} d c m m' (r r' : nat -> M reading A) V :
  (forall bb, m' bb = m bb) -> (forall rf st, readLengthLimit (rbb st) = 0 -> r' (S rf) st = r (S rf) st) ->
  reads d c m r V -> reads d c m' r' V.
Proof.
  intros E Er H bb bb' w rf st Hw Ht Em D Hrf Hat Hs. rewrite E in Em.
  destruct rf as [|rf]; [pose proof (zlen_nonneg w); lia|]. rewrite Er; [by eapply H|].
  by destruct Hat as (?&?&?&?&?&?&?).
Qed.

Lemma no_limit_id st : readLengthLimit (rbb st) = 0 -> no_limit st = Done tt st.
Proof.
  destruct st as [[? ? ? ? ? ? ? ?] ? ?]. unfold no_limit, on_bb, modify. cbn. by intros ->.
Qed.

Lemma reads_no_limit {A} d c m (r : nat -> M reading A) V :
  reads d c m r V -> reads d c m (fun rf => _ ← no_limit; r rf) V.
Proof. apply reads_ext; [done|]. intros rf st H. by erewrite bind_done by by apply no_limit_id. Qed.

Lemma nothing_spec {A} d (x : A) (V : (Z -> Z -> Prop) -> A -> Prop) : (forall R, V R x) ->
  writes d 0 0 (mret tt) /\ reads d 0 (mret tt) (fun _ => mret x) V.
Proof.
  intros HV. split.
  - intros bb Hw _. exists bb, []. split; [done|]. split; [|done]. unfold wrote_graph. rewrite app_nil_r.
    split_and!; try done; [apply Hw|apply Hw|]. change (zlen []) with 0. lia.
  - intros bb bb' w rf st Hw _ E D _ Hat Hs. injection E as <-.
    rewrite <-(app_nil_r (data bb)) in D at 1. apply app_inv_head in D as <-.
    exists x, st. split; [done|]. split; [unfold extends; split_and!; try done; change (zlen []) with 0; lia|].
    split; [done|]. split; [by apply copied_none|done].
Qed.

(** The length check of a list: every element takes a byte. *)
Lemma reads_guard {A} d n c m (r : nat -> M reading A) V : 0 <= n -> writes d n c m -> reads d c m r V ->
  reads d c m (fun rf => st ← get;
    _ ← reject_if (negb (readLengthLimit (rbb st) =? 0) && (readLengthLimit (rbb st) <? n)) (-1);
    _ ← reject_if (len (rbb st) <? u64 (offset (rbb st) + n)) (-2); r rf) V.
Proof.
  intros Hn Hwr H bb bb' w rf st Hw Ht E D Hrf Hat Hs.
  destruct (Hwr bb Hw Ht) as (bb1 & w1 & E1 & (D1 & _) & N). rewrite E in E1. injection E1 as <-.
  rewrite D in D1. apply app_inv_head in D1 as <-.
  pose proof Hat as (pre & post & P1 & P2 & P3 & P4 & P5).
  assert (Hl : (len (rbb st) <? u64 (offset (rbb st) + n)) = false).
  { pose proof (zlen_nonneg pre). pose proof (zlen_nonneg post).
    assert (Hlen : len (rbb st) = zlen pre + zlen w + zlen post) by (unfold len; rewrite P1, !zlen_app; lia).
    rewrite P2, u64_small by lia. apply Z.ltb_ge. lia. }
  destruct (H bb bb' w rf st Hw Ht E D Hrf Hat Hs) as (x & st' & F & Hrest).
  exists x, st'. split; [|done]. erewrite bind_done by done. cbv beta. rewrite P5, Hl. exact F.
Qed.

Lemma writes_reserve d (f : BBuffer -> Z) :
  (forall bb, wr_ok 0 bb -> 0 <= f bb <= 2 ^ 62) ->
  writes d 0 0 (bb ← get; Reserve (f bb)) /\
  reads d 0 (bb ← get; Reserve (f bb)) (fun _ => mret tt) (fun _ _ => True).
Proof.
  intros Hf. assert (HR : forall bb, wr_ok 0 bb -> exists n, (bb ← get; Reserve (f bb)) bb = Done tt (set_cap n bb) /\ bb_wf (set_cap n bb)).
  { intros bb Hw. destruct (Reserve_spec (f bb) bb) as (n & E & Hn & Hc); [apply Hw|by apply Hf|].
    exists n. split; [by erewrite bind_done|]. destruct Hw as ((? & ?) & _). unfold bb_wf, len in *. cbn. lia. }
  split.
  - intros bb Hw _. destruct (HR bb Hw) as (n & E & Hwf). exists (set_cap n bb), []. split; [done|].
    split; [|done]. unfold wrote_graph. rewrite app_nil_r. split_and!; try done; [apply Hw|]. change (todo (set_cap n bb)) with (todo bb). change (zlen []) with 0. lia.
  - intros bb bb' w rf st Hw _ E D _ Hat Hs. destruct (HR bb Hw) as (n & E1 & Hwf). rewrite E in E1. injection E1 as ->.
    change (data (set_cap n bb)) with (data bb) in D. rewrite <-(app_nil_r (data bb)) in D at 1. apply app_inv_head in D as <-.
    exists tt, st. split; [done|]. split; [unfold extends; split_and!; try done; change (zlen []) with 0; lia|].
    split; [|split; [by apply copied_none|done]]. destruct st as [bbr rh rn].
    by apply (synced_scalar bb _ (MkReading bbr rh rn)).
Qed.

(** *** Contents, given the pointers *)

Lemma lock_shared T p : shared_ok T p -> lock h p = p.
Proof. intros H. destruct p as [a|]; [|done]. destruct (H a eq_refl) as (o & E & _). cbn. by rewrite E. Qed.

Lemma lock_lock p : lock h (lock h p) = lock h p.
Proof. destruct p as [a|]; [|done]. cbn. destruct (h !! a) eqn:E; [|done]. cbn. by rewrite E. Qed.

Lemma weak_shared T p : weak_ok T p -> shared_ok T (lock h p).
Proof.
  intros H b E. destruct p as [a|]; [|done]. cbn in E. destruct (h !! a) as [o|] eqn:Eo; [|done].
  injection E as <-. exists o. split; [done|]. by eapply H.
Qed.

Section contents.
Context (d : nat) (wp : ptr -> M BBuffer unit) (rp : nat -> ptype -> M reading ptr).
Context (wp_null : wp None = W16 0).
Context (wp_writes : forall T p, shared_ok T p -> writes d 1 8 (wp p)).
Context (wp_reads : forall T p, shared_ok T p -> reads d 8 (wp p) (fun rf => rp rf T) (fun R p' => ptr_rel R p p')).

Lemma Write_weak_lock p : Write_weak h wp p = wp (lock h p).
Proof. unfold Write_weak. destruct (lock h p); done. Qed.

Lemma writes_weak T p : weak_ok T p -> writes d 1 8 (Write_weak h wp p).
Proof. intros H. rewrite Write_weak_lock. by eapply wp_writes, weak_shared. Qed.

Lemma reads_weak T p : weak_ok T p ->
  reads d 8 (Write_weak h wp p) (fun rf => rp rf T) (fun R p' => ptr_rel R p p').
Proof.
  intros H. rewrite Write_weak_lock. eapply reads_weaken; [|by eapply wp_reads, weak_shared].
  intros R p'. unfold ptr_rel. by rewrite lock_lock.
Qed.

(** Two pointers; the reader may reset the length limit before the second. *)
Lemma pair_spec {A} m1 m2 T1 r2 p1 p2 (f : ptr -> ptr -> A) (V : (Z -> Z -> Prop) -> A -> Prop) :
  writes d 1 8 m1 -> reads d 8 m1 (fun rf => rp rf T1) (fun R p' => ptr_rel R p1 p') ->
  writes d 1 8 m2 -> reads d 8 m2 r2 (fun R p' => ptr_rel R p2 p') ->
  (forall R x y, ptr_rel R p1 x -> ptr_rel R p2 y -> V R (f x y)) ->
  writes d 0 16 (_ ← m1; m2) /\
  reads d 16 (_ ← m1; m2) (fun rf => x ← rp rf T1; y ← r2 rf; mret (f x y)) V.
Proof.
  intros W1 R1 W2 R2 HV. split; [eapply writes_le; [| |by apply (writes_bind d 1 1 8 8)]; lia|].
  eapply (reads_bind d 1 1 8 8 m1 m2 (fun rf => rp rf T1) (fun x rf => y ← r2 rf; mret (f x y)) _
    (fun x R a => exists y, ptr_rel R p2 y /\ a = f x y)); try done.
  - intros R x _. eapply reads_map; [|exact R2]. intros R' y Hy. by exists y.
  - intros R R' x HR. by apply ptr_rel_mono.
  - intros R x a Hx (y & Hy & ->). by apply HV.
Qed.

Definition item_ok (e : elem) (p : ptr) : Prop :=
  if elem_shared e then shared_ok (elem_type e) p else weak_ok (elem_type e) p.

Lemma items_spec e l : Forall (item_ok e) l ->
  writes d (zlen l) (8 * zlen l) (Write_items h wp e l) /\
  reads d (8 * zlen l) (Write_items h wp e l) (fun rf => Read_items (rp rf) e (length l))
    (fun R l' => Forall2 (ptr_rel R) l l').
Proof.
  induction 1 as [|p l Hp _ [IHw IHr]].
  - by apply nothing_spec.
  - cbn [Write_items length Read_items]. rewrite zlen_cons.
    assert (Hitem : writes d 1 8 (if elem_shared e then wp p else Write_weak h wp p) /\
      reads d 8 (if elem_shared e then wp p else Write_weak h wp p) (fun rf => rp rf (elem_type e)) (fun R p' => ptr_rel R p p')).
    { unfold item_ok in Hp. destruct (elem_shared e); split; eauto using writes_weak, reads_weak. }
    destruct Hitem as [Hw Hr]. pose proof (zlen_nonneg l). replace (8 * (1 + zlen l)) with (8 + 8 * zlen l) by lia.
    split; [apply writes_bind; [lia|done|done]|].
    eapply (reads_bind d 1 (zlen l) 8 (8 * zlen l) _ _ (fun rf => rp rf (elem_type e))
      (fun x rf => l' ← Read_items (rp rf) e (length l); mret (x :: l')) _
      (fun x R l' => exists t, Forall2 (ptr_rel R) l t /\ l' = x :: t)); try done; [lia|..].
    + intros R x _. eapply reads_map; [|exact IHr]. intros R' t Ht. by exists t.
    + intros R R' x HR. by apply ptr_rel_mono.
    + intros R x l' Hx (t & Ht & ->). by constructor.
Qed.

Lemma list_spec e l : len_ok (zlen l) -> Forall (item_ok e) l ->
  writes d 0 (5 + 8 * zlen l) (List_ToBBuffer h wp e l) /\
  reads d (5 + 8 * zlen l) (List_ToBBuffer h wp e l) (fun rf => List_FromBBuffer (rp rf) e)
    (fun R o' => obj_rel R (XList e l) o').
Proof.
  intros Hl Hi. destruct (items_spec e l Hi) as [Iw Ir]. destruct (W64_spec d (zlen l) Hl) as [Lw Lr].
  pose proof (zlen_nonneg l). unfold len_ok, is_uint in Hl. change (2 ^ 32) with 4294967296 in Hl.
  destruct (writes_reserve d (fun bb => u64 (len bb + 5 + zlen l * 16))) as [Rw Rr].
  { intros bb Hw. pose proof (wr_ok_room 0 (5 + zlen l * 16) bb Hw ltac:(done)) as Hroom. unfold room in Hroom.
    change (2 ^ 60) with 1152921504606846976 in *. pose proof (zlen_nonneg (data bb)). unfold len in *.
    specialize (Hroom ltac:(lia)). rewrite u64_small; lia. }
  assert (Em : forall bb, List_ToBBuffer h wp e l bb =
    (_ ← (bb ← get; Reserve (u64 (len bb + 5 + zlen l * 16))); _ ← W64 (zlen l); Write_items h wp e l) bb).
  { intros bb. unfold List_ToBBuffer. rewrite bind_assoc. f_equal. destruct l; [|done]. done. }
  pose proof (writes_bind d 1 (zlen l) 5 (8 * zlen l) _ _ ltac:(lia) Lw Iw) as Bw. split.
  - eapply writes_ext; [exact Em|]. eapply writes_le; [| |eapply (writes_bind d 0 _ 0); [|exact Rw|exact Bw]]; lia.
  - eapply (reads_ext _ _ _ _ (fun rf => _ ← mret tt; List_FromBBuffer (rp rf) e)); [exact Em|done|].
    apply (reads_bind d 0 (1 + zlen l) 0 (5 + 8 * zlen l) _ _ (fun _ => mret tt) (fun _ rf => List_FromBBuffer (rp rf) e)
      (fun _ _ => True) (fun _ R o' => obj_rel R (XList e l) o')); try done; [lia|]. intros _ _ _.
    unfold List_FromBBuffer.
    apply (reads_bind d 1 (zlen l) 5 (8 * zlen l) _ _ (fun _ => R64) _
      (fun _ x => x = zlen l) (fun _ R o' => obj_rel R (XList e l) o')); try done; [lia|].
    intros _ x ->. apply reads_guard; [lia|done|].
    replace (Z.to_nat (zlen l)) with (length l) by (unfold zlen; lia).
    eapply reads_map; [|exact Ir]. done.
Qed.

Lemma contents_spec o : obj_ok o ->
  writes d 0 (cost o) (ToBBuffer h wp o) /\
  forall c, class_of o = Some c ->
    reads d (cost o) (ToBBuffer h wp o) (fun rf => FromBBuffer (rp rf) c) (fun R o' => obj_rel R o o').
Proof.
  assert (Hc : forall s : bytes, zlen (counted s) <= 5 + zlen s).
  { intros s. unfold counted. rewrite zlen_app. pose proof (num_enc_size U64 (zlen s) ltac:(apply _) ltac:(done)) as [_ Hn].
    change (Z.of_nat _) with 5 in Hn. lia. }
  assert (Hb : forall s : bytes, len_ok (zlen s) -> zlen (counted s) <= 2 ^ 33).
  { intros s Hs. specialize (Hc s). unfold len_ok, is_uint in Hs. change (2 ^ 32) with 4294967296 in Hs.
    change (2 ^ 33) with 8589934592. lia. }
  destruct o as [s|s|parent childs|id tok tar| |monsters players|players scene|e l]; cbn [obj_ok cost]; intros H.
  - split; [|done]. eapply writes_le; [| |apply (writes_scalar d (XString s)); [done|apply Hb, H]]; [apply zlen_nonneg|apply Hc].
  - change (ToBBuffer h wp (XBuf s)) with (WriteTo (Nested s)). split.
    + eapply writes_le; [| |apply (writes_scalar d (Nested s)); [done|apply Hb, H]]; [apply zlen_nonneg|apply Hc].
    + intros c [= <-]. eapply reads_le; [apply Hc|].
      eapply (reads_ext _ _ (WriteTo (Nested s)) _ (fun rf => n ← on_bb (ReadFrom (T := nested)); mret (XBuf (nbytes n)))).
      * done.
      * intros rf st _. cbn [FromBBuffer ReadFrom BFuncs_nested]. unfold mbind, M_bind, on_bb.
        by destruct (BBuffer_FromBBuffer (rbb st)).
      * pose proof (reads_scalar d (Nested s) H (Hb s (proj1 H)) eq_refl) as Hr.
        change (zlen (enc (Nested s))) with (zlen (counted s)) in Hr.
        eapply reads_map; [|exact Hr]. by intros R x ->.
  - destruct H as [Hp Hch].
    destruct (pair_spec (Write_weak h wp parent) (wp childs) (PObject (Some CFoo))
      (fun rf => _ ← no_limit; rp rf (PObject (Some (CList Foo_w)))) parent childs Foo
      (fun R o' => obj_rel R (Foo parent childs) o')) as [Pw Pr];
      eauto using writes_weak, reads_weak, reads_no_limit; [done|].
    split; [done|]. intros c [= <-]. eapply reads_ext; [done| |exact Pr].
    intros rf st _. apply bind_ext; [done|]. intros x st' _. by rewrite bind_assoc.
  - done.
  - destruct (nothing_spec d Monster (fun R o' => obj_rel R Monster o')) as [Nw Nr]; [done|].
    split; [exact Nw|]. intros c [= <-]. exact Nr.
  - destruct H as [Hm Hp].
    destruct (pair_spec (wp monsters) (wp players) (PObject (Some (CList Monster_s)))
      (fun rf => _ ← no_limit; rp rf (PObject (Some (CList Player_w)))) monsters players Scene
      (fun R o' => obj_rel R (Scene monsters players) o')) as [Pw Pr]; eauto using reads_no_limit; [done|].
    split; [done|]. intros c [= <-]. apply reads_no_limit. eapply reads_ext; [done| |exact Pr].
    intros rf st _. apply bind_ext; [done|]. intros x st' _. by rewrite bind_assoc.
  - destruct H as [Hp Hs].
    destruct (pair_spec (wp players) (wp scene) (PObject (Some (CList Player_s)))
      (fun rf => rp rf (PObject (Some CScene))) players scene Sync
      (fun R o' => obj_rel R (Sync players scene) o')) as [Pw Pr]; eauto; [done|].
    split; [done|]. intros c [= <-]. by apply reads_no_limit.
  - destruct H as [Hl Hi]. destruct (list_spec e l Hl) as [Lw Lr]; [|split; [done|]; by intros c [= <-]].
    unfold item_ok. by destruct (elem_shared e).
Qed.
End contents.

(** *** Pointers *)

Lemma todo_insert bb a n o : h !! a = Some o -> ptrs bb !! a = None ->
  todo (set_ptrs (<[a := n]> (ptrs bb)) bb) = todo bb - 1.
Proof.
  intros Ha Hn. unfold todo. cbn [ptrs set_ptrs].
  assert (Hin : {[a]} ⊆ dom h ∖ dom (ptrs bb)).
  { intros x Hx%elem_of_singleton. subst x. apply elem_of_difference. split; [by apply elem_of_dom|]. by apply not_elem_of_dom. }
  rewrite dom_insert_L. replace (dom h ∖ ({[a]} ∪ dom (ptrs bb))) with ((dom h ∖ dom (ptrs bb)) ∖ {[a]}) by set_solver.
  rewrite size_difference by done. rewrite size_singleton.
  apply subseteq_size in Hin. rewrite size_singleton in Hin. lia.
Qed.

Lemma GetTypeId_range o : is_uint 16 (GetTypeId o) /\ 1 <= GetTypeId o.
Proof. destruct o as [| | | | | | |[]]; cbn; split; try done; lia. Qed.

Lemma pos_ok c bb : wr_ok c bb -> 0 <= c -> len_ok (pos bb) /\ u64 (len bb - offsetRoot bb) = pos bb.
Proof.
  intros (W & Ho & Hl & _ & Hb) Hc. pose proof (Z.mul_nonneg_nonneg _ _ (todo_nonneg bb) HK).
  assert (Hp : len_ok (pos bb)) by (unfold len_ok, is_uint, pos; lia). split; [done|].
  apply uint_small. eapply is_uint_mono; [|exact Hp]. lia.
Qed.

(** Entering a new object. *)
Definition enter (a : Z) (bb : BBuffer) : BBuffer := set_ptrs (<[a := pos bb]> (ptrs bb)) bb.

Lemma enter_spec a o bb :
  h !! a = Some o -> ptrs bb !! a = None -> wr_ok 5 bb ->
  exists bb1, W64 (pos bb) (enter a bb) = Done tt bb1 /\ wrote (num_enc U64 (pos bb)) (enter a bb) bb1 /\
    wr_ok (cost o) bb1 /\ todo bb1 = todo bb - 1 /\ ptrs bb1 = <[a := pos bb]> (ptrs bb) /\
    data bb1 = data bb ++ num_enc U64 (pos bb) /\ offsetRoot bb1 = offsetRoot bb.
Proof.
  intros Ha Hn Hw. destruct (pos_ok 5 bb Hw ltac:(done)) as [Hp _]. destruct (Hok a o Ha) as [_ HcK].
  pose proof (num_enc_size U64 (pos bb) ltac:(apply _) ltac:(done)) as [N1 N2]. change (Z.of_nat _) with 5 in N2.
  destruct (write_spec (Num (t := U64) (pos bb)) (enter a bb)) as (bb1 & E & Hwr).
  - by apply len_num_ok.
  - apply Hw.
  - pose proof (wr_ok_room 5 (zlen (num_enc U64 (pos bb)) + 16) bb Hw ltac:(done)) as Hr.
    apply Hr. change (2 ^ 60) with 1152921504606846976. lia.
  - change (enc (Num (t := U64) (pos bb))) with (num_enc U64 (pos bb)) in Hwr.
    assert (Et : todo bb1 = todo bb - 1).
    { rewrite <-(todo_insert bb a (pos bb) o) by done. unfold todo. by rewrite (wrote_ptrs _ _ _ Hwr). }
    pose proof (wrote_len _ _ _ Hwr) as El. change (len (enter a bb)) with (len bb) in El.
    exists bb1. split; [done|]. split; [done|].
    rewrite (wrote_data _ _ _ Hwr), (wrote_ptrs _ _ _ Hwr), (wrote_offsetRoot _ _ _ Hwr).
    split; [|done]. destruct Hw as (W & Ho & Hl & Hpo & Hb). unfold wr_ok, ptrs_ok.
    rewrite Et, El, (wrote_offsetRoot _ _ _ Hwr), (wrote_ptrs _ _ _ Hwr). cbn [offsetRoot ptrs enter set_ptrs].
    split_and!; [by eapply wrote_wf|lia|lia|done| |lia].
    intros b k [[<- <-]|[_ Hb']]%lookup_insert_Some; [unfold pos; unfold pos in N1; lia|].
    specialize (Hpo b k Hb'). lia.
Qed.

(** What follows the type of a non-null pointer. *)
Definition tail (fuel : nat) (a : Z) (o : object) : M BBuffer unit :=
  bb ← get;
  match ptrs bb !! a with
  | Some offs => W64 offs
  | None =>
      let offs := u64 (len bb - offsetRoot bb) in
      _ ← put (set_ptrs (<[a := offs]> (ptrs bb)) bb);
      _ ← W64 offs;
      ToBBuffer h (WritePtr h fuel) o
  end.

Lemma tail_new fuel a o bb : ptrs bb !! a = None -> wr_ok 5 bb ->
  tail fuel a o bb = (_ ← W64 (pos bb); ToBBuffer h (WritePtr h fuel) o) (enter a bb).
Proof.
  intros Hn Hw. destruct (pos_ok 5 bb Hw ltac:(done)) as [_ Ep]. unfold tail.
  erewrite bind_done by done. rewrite Hn, Ep. by erewrite bind_done by done.
Qed.

Lemma tail_old fuel a o bb n : ptrs bb !! a = Some n -> tail fuel a o bb = W64 n bb.
Proof. intros Hn. unfold tail. erewrite bind_done by done. by rewrite Hn. Qed.

Lemma WritePtr_some fuel a o bb : h !! a = Some o ->
  WritePtr h (S fuel) (Some a) bb = (_ ← W16 (GetTypeId o); tail fuel a o) bb.
Proof. intros Ha. cbn [WritePtr]. rewrite Ha. done. Qed.

Lemma old_ok c bb a n : wr_ok c bb -> 0 <= c -> ptrs bb !! a = Some n -> len_ok n /\ 0 <= n < pos bb.
Proof.
  intros Hw Hc E. destruct (pos_ok c bb Hw Hc) as [[_ Hp] _]. destruct Hw as (_ & _ & _ & Hpo & _).
  specialize (Hpo a n E). fold (pos bb) in Hpo. unfold len_ok, is_uint. lia.
Qed.

Lemma writes_tail fuel a o :
  h !! a = Some o -> writes fuel 0 (cost o) (ToBBuffer h (WritePtr h fuel) o) -> writes (S fuel) 0 5 (tail fuel a o).
Proof.
  intros Ha Hc bb Hw Ht. destruct (ptrs bb !! a) as [n|] eqn:En.
  - rewrite (tail_old _ _ _ _ n) by done. destruct (old_ok 5 bb a n Hw ltac:(done) En) as [Hn _].
    destruct (proj1 (W64_spec (S fuel) n Hn) bb Hw Ht) as (bb' & w & E & G & N). exists bb', w. split_and!; [done|done|lia].
  - rewrite tail_new by done. destruct (enter_spec a o bb Ha En Hw) as (bb1 & E1 & Hwr & Hw1 & T1 & P1 & D1 & O1).
    destruct (Hc bb1 Hw1) as (bb' & w & E & (D & O & P & Wf & Po & N) & _); [lia|].
    exists bb', (num_enc U64 (pos bb) ++ w). split; [by erewrite bind_done|]. split; [|apply zlen_nonneg].
    pose proof (num_enc_size U64 (pos bb) ltac:(apply _) ltac:(done)) as [N1 N2]. change (Z.of_nat _) with 5 in N2.
    destruct (Hok a o Ha) as [_ HcK]. unfold wrote_graph. rewrite D, D1, O, O1, zlen_app, app_assoc.
    split_and!; [done|done| |done|done|nia]. etrans; [|exact P]. rewrite P1. by apply insert_subseteq.
Qed.

Abbreviation rtail fuel := (ReadPtr_body (FromBBuffer (ReadPtr fuel))).

Lemma ReadPtr_tail fuel T st : ReadPtr (S fuel) T st = (typeId ← R16; rtail fuel T typeId) st.
Proof. done. Qed.

(** The branch for a new object, strings and objects alike. *)
Definition blank (o : object) : object := match class_of o with None => XStr [] | Some c => make c end.
Definition add_idx (o : object) (n a : Z) : M BBuffer unit :=
  match o with XStr _ => add_strIdx n a | _ => add_objIdx n a end.
Definition read_contents (fuel : nat) (o : object) : M reading object :=
  match class_of o with
  | None => s ← on_bb (ReadFrom (T := xstring)); mret (XStr (chars s))
  | Some c => FromBBuffer (ReadPtr fuel) c
  end.
Definition rnew (fuel : nat) (o : object) (n : Z) : M reading ptr :=
  a ← alloc (blank o); _ ← on_bb (add_idx o n a);
  o' ← read_contents fuel o; _ ← store a o'; mret (Some a).

Lemma has_type_cast T o : has_type (PObject T) o -> cast_ok T (class_of o) = true.
Proof. destruct T; cbn; [|done]. intros ->. by rewrite bool_decide_true. Qed.

Lemma rtail_new fuel T o st n st1 :
  has_type T o -> R64 st = Done n st1 -> n = u64 (offset (rbb st) - offsetRoot (rbb st)) ->
  rtail fuel T (GetTypeId o) st = rnew fuel o n st1.
Proof.
  intros HT E En. unfold ReadPtr_body. destruct (GetTypeId_range o) as [_ Hr]. destruct (Z.eqb_spec (GetTypeId o) 0); [lia|].
  destruct T as [|T].
  - cbn in HT. destruct o; try done. unfold rnew, read_contents. cbn [class_of blank add_idx GetTypeId wrong_type Z.eqb Pos.eqb].
    erewrite bind_done by done. erewrite bind_done by done. erewrite bind_done by done. cbv zeta. erewrite bind_done by exact E.
    rewrite (proj2 (Z.eqb_eq _ _) En). apply bind_ext; [done|]. intros a st2 _. apply bind_ext; [done|]. intros [] st3 _.
    by rewrite bind_assoc.
  - pose proof (has_type_cast _ _ HT) as Hc.
    assert (HS : exists c, class_of o = Some c) by (destruct T; [by eexists|exact HT]). destruct HS as [c Ec].
    unfold rnew, read_contents, blank. rewrite Ec in *.
    assert (Hty : wrong_type (PObject T) (GetTypeId o) = None /\
      (2 <? GetTypeId o) && bool_decide (creators (GetTypeId o) = None) = false /\
      (if GetTypeId o =? 2 then Some CBBuffer else creators (GetTypeId o)) = Some c).
    { unfold GetTypeId. rewrite Ec. by destruct c as [| | | | | |[]]. }
    destruct Hty as (-> & -> & ->). erewrite bind_done by done. erewrite bind_done by done. erewrite bind_done by done.
    cbv zeta. erewrite bind_done by exact E. rewrite (proj2 (Z.eqb_eq _ _) En). apply bind_ext; [done|].
    intros a st2 _. rewrite Hc. by destruct o.
Qed.

Lemma rtail_old fuel T o st n st1 a' o' :
  has_type T o -> R64 st = Done n st1 -> n <> u64 (offset (rbb st) - offsetRoot (rbb st)) ->
  idx o (rbb st1) !! n = Some a' -> rheap st1 !! a' = Some o' -> class_of o' = class_of o ->
  rtail fuel T (GetTypeId o) st = Done (Some a') st1.
Proof.
  intros HT E En Hi Hh Hc. unfold ReadPtr_body. destruct (GetTypeId_range o) as [_ Hr]. destruct (Z.eqb_spec (GetTypeId o) 0); [lia|].
  destruct T as [|T].
  - cbn in HT. destruct o; try done. cbn in Hi. cbn [class_of GetTypeId wrong_type Z.eqb Pos.eqb].
    erewrite bind_done by done. erewrite bind_done by done. erewrite bind_done by done. cbv zeta. erewrite bind_done by exact E.
    rewrite (proj2 (Z.eqb_neq _ _) En). erewrite bind_done by done. by rewrite Hi.
  - pose proof (has_type_cast _ _ HT) as Hcast.
    assert (HS : exists c, class_of o = Some c) by (destruct T; [by eexists|exact HT]). destruct HS as [c Ec].
    assert (Hty : wrong_type (PObject T) (GetTypeId o) = None /\
      (2 <? GetTypeId o) && bool_decide (creators (GetTypeId o) = None) = false).
    { unfold GetTypeId. rewrite Ec. by destruct c as [| | | | | |[]]. }
    assert (Eg : GetTypeId o' = GetTypeId o) by (unfold GetTypeId; by rewrite Hc).
    assert (Hi' : objIdxs (rbb st1) !! n = Some a') by (by destruct o).
    destruct Hty as (-> & ->). erewrite bind_done by done. erewrite bind_done by done. erewrite bind_done by done.
    cbv zeta. erewrite bind_done by exact E. rewrite (proj2 (Z.eqb_neq _ _) En). erewrite bind_done by done. rewrite Hi'.
    erewrite bind_done by (by rewrite Hh). rewrite Eg, Z.eqb_refl, Hc, Hcast. done.
Qed.

(** The reader has made a blank object for [a] at address [rnext st]. *)
Definition allocated (o : object) (n : Z) (bb : BBuffer) (st : reading) : reading :=
  MkReading (match o with
             | XStr _ => set_strIdxs (<[n := rnext st]> (strIdxs bb)) bb
             | _ => set_objIdxs (<[n := rnext st]> (objIdxs bb)) bb
             end) (<[rnext st := blank o]> (rheap st)) (rnext st + 1).

Lemma rnew_allocated fuel o n st :
  rnew fuel o n st = (o' ← read_contents fuel o; _ ← store (rnext st) o'; mret (Some (rnext st))) (allocated o n (rbb st) st).
Proof. unfold rnew, allocated. erewrite bind_done by done. erewrite bind_done; [done|]. by destruct o. Qed.

Lemma blank_class o : class_of (blank o) = class_of o.
Proof. by destruct o. Qed.

Lemma idx_allocated o n bb st : idx o (rbb (allocated o n bb st)) !! n = Some (rnext st).
Proof. destruct o; cbn; by rewrite lookup_insert_eq. Qed.

Lemma idx_allocated_ne o n bb st x k : k <> n -> idx x (rbb (allocated o n bb st)) !! k = idx x bb !! k.
Proof. intros Hk. destruct o, x; cbn; try done; by rewrite lookup_insert_ne. Qed.

Section new_object.
Context (a : Z) (o : object) (bb bb1 : BBuffer) (st st1 : reading).
Context (Ha : h !! a = Some o) (Hnew : ptrs bb !! a = None) (Hbehind : forall b k, ptrs bb !! b = Some k -> k <> pos bb).
Context (Hp1 : ptrs bb1 = <[a := pos bb]> (ptrs bb)) (Hpos1 : pos bb < pos bb1).
Context (Hs : synced bb st) (Hst1 : exists bbr, st1 = MkReading bbr (rheap st) (rnext st) /\
  objIdxs bbr = objIdxs (rbb st) /\ strIdxs bbr = strIdxs (rbb st)).
Abbreviation st3 := (allocated o (pos bb) (rbb st1) st1).

Lemma copy_allocated b b' : copy bb1 st3 b b' <-> (b = a /\ b' = rnext st) \/ (b <> a /\ copy bb st b b').
Proof.
  destruct Hst1 as (bbr & -> & Eo & Es). unfold copy. rewrite Hp1.
  assert (Hi : forall x, idx x bbr = idx x (rbb st)) by (intros []; done). split.
  - intros (x & k & Hx & Hk & Hb). destruct (decide (b = a)) as [->|Hne].
    + left. rewrite lookup_insert_eq in Hk. injection Hk as <-. rewrite Ha in Hx. injection Hx as <-.
      rewrite idx_allocated in Hb. by injection Hb as <-.
    + right. split; [done|]. rewrite lookup_insert_ne in Hk by done.
      rewrite idx_allocated_ne in Hb by (by eapply Hbehind). cbn [rbb] in Hb. rewrite Hi in Hb. by exists x, k.
  - intros [[-> ->]|(Hne & x & k & Hx & Hk & Hb)].
    + exists o, (pos bb). by rewrite lookup_insert_eq, idx_allocated.
    + exists x, k. rewrite lookup_insert_ne by done. rewrite idx_allocated_ne by (by eapply Hbehind).
      cbn [rbb]. by rewrite Hi.
Qed.

Lemma copy_known b b' : copy bb st b b' -> exists x', rheap st !! b' = Some x' /\ b' < rnext st.
Proof.
  intros (x & k & Hx & Hk & Hb). destruct Hs as (H1 & H2 & _ & _).
  destruct (H1 b k Hk) as (y & y' & z & Hy & Hy' & Hz & _).
  assert (y' = b') as -> by congruence. exists z. split; [done|]. by eapply H2.
Qed.

Lemma synced_allocated : synced bb1 st3.
Proof.
  assert (Eh : rheap st3 = <[rnext st := blank o]> (rheap st) /\ rnext st3 = rnext st + 1)
    by (by destruct Hst1 as (bbr & -> & _)).
  destruct Eh as [Eh En]. pose proof Hs as (H1 & H2 & H3 & H4). unfold synced. rewrite Eh, En. split_and!.
  - intros b k Hk. rewrite Hp1 in Hk. apply lookup_insert_Some in Hk as [[<- <-]|[Hne Hk]].
    + exists o, (rnext st), (blank o). split; [done|].
      split; [rewrite idx_allocated; by destruct Hst1 as (bbr & -> & _)|]. by rewrite lookup_insert_eq, blank_class.
    + destruct (H1 b k Hk) as (x & b' & x' & Hx & Hb & Hx' & Hc). exists x, b', x'. split; [done|].
      rewrite idx_allocated_ne by (by eapply Hbehind). specialize (H2 _ _ Hx'). rewrite lookup_insert_ne by lia.
      destruct Hst1 as (bbr & -> & Eo & Es). split; [|done]. by destruct x; cbn in *; rewrite ?Eo, ?Es.
  - intros b x [[<- _]|[_ Hb]]%lookup_insert_Some; [lia|]. specialize (H2 _ _ Hb). lia.
  - intros b c b' [[-> ->]|[Hb Hcb]]%copy_allocated [[-> ?]|[Hc Hcc]]%copy_allocated.
    + done.
    + destruct (copy_known _ _ Hcc) as (_ & _ & ?). lia.
    + destruct (copy_known _ _ Hcb) as (_ & _ & ?). lia.
    + by eapply H3.
  - intros k Hk. destruct (H4 k ltac:(lia)) as [K1 K2]. destruct Hst1 as (bbr & -> & Eo & Es).
    destruct o; cbn; rewrite ?lookup_insert_ne, ?Eo, ?Es by lia; done.
Qed.
End new_object.

Lemma obj_rel_class R o o' : obj_rel R o o' -> class_of o' = class_of o.
Proof. destruct o, o'; cbn; try done. by intros [-> _]. Qed.

Definition stored (a' : Z) (o' : object) (st : reading) : reading :=
  MkReading (rbb st) (<[a' := o']> (rheap st)) (rnext st).

Lemma synced_stored a o a' o' R bb st :
  synced bb st -> copy bb st a a' -> h !! a = Some o -> obj_rel R o o' -> synced bb (stored a' o' st).
Proof.
  intros (H1 & H2 & H3 & H4) Hc Ha Hr. split_and!; [| |exact H3|exact H4].
  - intros b k Hk. destruct (H1 b k Hk) as (x & b' & x' & Hx & Hb & Hx' & Hcl). exists x, b'. cbn [rbb rheap stored].
    destruct (decide (b' = a')) as [->|Hne].
    + assert (b = a) as -> by (eapply H3; [|exact Hc]; by exists x, k). exists o'. rewrite lookup_insert_eq.
      assert (x = o) as -> by congruence. split_and!; try done. by eapply obj_rel_class.
    + exists x'. by rewrite lookup_insert_ne.
  - intros b x. cbn [rheap rnext stored]. intros [[<- _]|[_ Hb]]%lookup_insert_Some; [|by eapply H2].
    destruct Hc as (y & k & Hy & Hk & Hb). destruct (H1 a k Hk) as (z & b' & z' & Hz & Hb' & Hz' & _).
    assert (b' = a') as -> by congruence. by eapply H2.
Qed.

Lemma copied_stored a o a' o' bb bb1 bb' st :
  synced bb' st -> copy bb' st a a' -> h !! a = Some o -> obj_rel (copy bb' st) o o' ->
  (forall b, b <> a -> ptrs bb !! b = None -> ptrs bb1 !! b = None) -> copied bb1 bb' st -> copied bb bb' (stored a' o' st).
Proof.
  intros (_ & _ & H3 & _) Hc Ha Hr Hp Hcp b b' Hb Hcb. change (copy bb' (stored a' o' st)) with (copy bb' st) in *.
  destruct (decide (b = a)) as [->|Hne].
  - assert (b' = a') as -> by (by eapply copy_fun). exists o, o'. cbn [rheap stored]. by rewrite lookup_insert_eq.
  - destruct (Hcp b b' (Hp b Hne Hb) Hcb) as (x & x' & Hx & Hx' & Hxr). exists x, x'. split; [done|]. split; [|done].
    cbn [rheap stored]. rewrite lookup_insert_ne; [done|]. intros ->. apply Hne. by eapply H3.
Qed.

Lemma extends_allocated o n c st :
  objIdxs (rbb st) !! c = None -> strIdxs (rbb st) !! c = None -> rheap st !! rnext st = None ->
  extends n st (allocated o c (set_offset (offset (rbb st) + n) (rbb st)) st).
Proof.
  intros Ho Hs Hh. unfold extends, allocated. cbn [rheap rnext rbb].
  split_and!; try (by destruct o); try (by apply insert_subseteq); [| |lia];
    destruct o; cbn; try done; by apply insert_subseteq.
Qed.

(** The new object may be replaced: it is not yet known to the caller. *)
Lemma extends_stored n m a' o' st st1 st2 :
  extends n st st1 -> extends m st1 st2 -> rheap st !! a' = None -> extends (n + m) st (stored a' o' st2).
Proof.
  intros X1 X2 Ha. pose proof (extends_trans _ _ _ _ _ X1 X2) as (?&?&?&?&?&?&Hh&?). unfold extends. cbn [rbb rheap rnext stored].
  split_and!; try done. by apply insert_subseteq_r.
Qed.

(** Reading the position of an object. *)
Lemma R64_at bb st n w : len_ok n -> at_bytes bb st (num_enc U64 n ++ w) ->
  exists st1, R64 st = Done n st1 /\ at_bytes bb st (num_enc U64 n) /\
    st1 = MkReading (set_offset (offset (rbb st) + zlen (num_enc U64 n)) (rbb st)) (rheap st) (rnext st).
Proof.
  intros Hn Hat. pose proof (at_bytes_head _ _ _ _ Hat) as Hh. destruct Hat as (pre & post & P1 & P2 & P3 & P4 & P5).
  eexists. split; [|split; [exact Hh|reflexivity]]. unfold R64.
  erewrite (bind_done _ _ _ (Num n)); [reflexivity|]. unfold on_bb.
  rewrite (read_spec (Num (t := U64) n) (rbb st) pre (w ++ post)); [by rewrite P2|by apply len_num_ok| |done|done|done].
  rewrite P1. cbn [enc BFuncsSpec_num num_val]. by rewrite <-app_assoc.
Qed.

Lemma reads_tail fuel T a o :
  h !! a = Some o -> has_type T o ->
  writes fuel 0 (cost o) (ToBBuffer h (WritePtr h fuel) o) ->
  reads fuel (cost o) (ToBBuffer h (WritePtr h fuel) o) (fun rf => read_contents rf o) (fun R o' => obj_rel R o o') ->
  reads (S fuel) 5 (tail fuel a o) (fun rf => rtail (pred rf) T (GetTypeId o)) (fun R p' => ptr_rel R (Some a) p').
Proof.
  intros Ha HT Hwc Hrc bb bb' w rf st Hw Ht E D Hrf Hat Hs.
  assert (Hoffs : u64 (offset (rbb st) - offsetRoot (rbb st)) = pos bb).
  { destruct Hat as (pre & post & P1 & P2 & P3 & _). rewrite P2, P3. by apply (pos_ok 5). }
  assert (HV : forall R a', R a a' -> ptr_rel R (Some a) (Some a')).
  { intros R a' HR. unfold ptr_rel, lock. cbn. by rewrite Ha. }
  destruct (ptrs bb !! a) as [n|] eqn:En.
  - destruct (old_ok 5 bb a n Hw ltac:(done) En) as [Hn Hlt]. rewrite (tail_old _ _ _ _ n) in E by done.
    destruct (proj2 (W64_spec (S fuel) n Hn) bb bb' w rf st Hw Ht E D Hrf Hat Hs) as (x & st' & F & X & S' & C & ->).
    destruct (proj1 (W64_spec (S fuel) n Hn) bb Hw Ht) as (bb2 & w2 & E2 & G & _). rewrite E in E2. injection E2 as <-.
    assert (En' : ptrs bb' !! a = Some n) by (eapply lookup_weaken; [exact En|apply G]).
    destruct (proj1 S' a n En') as (o2 & a' & o' & Ho2 & Hi & Hh & Hcl). assert (o2 = o) as -> by congruence.
    exists (Some a'), st'. split; [eapply rtail_old; try done; rewrite Hoffs; lia|].
    split_and!; try done. apply HV. by exists o, n.
  - destruct (enter_spec a o bb Ha En Hw) as (bb1 & E1 & Hwr & Hw1 & T1 & P1 & D1 & O1).
    rewrite tail_new in E by done. erewrite bind_done in E by exact E1.
    destruct (Hwc bb1 Hw1) as (bb2 & wc & E2 & G & _); [lia|]. rewrite E in E2. injection E2 as <-.
    assert (w = num_enc U64 (pos bb) ++ wc) as ->.
    { destruct G as (Dg & _). rewrite D, D1, <-app_assoc in Dg. by apply app_inv_head in Dg. }
    destruct (pos_ok 5 bb Hw ltac:(done)) as [Hpos _].
    destruct (R64_at bb st (pos bb) wc Hpos Hat) as (st1 & F1 & Hat1 & Est1).
    pose proof (num_enc_size U64 (pos bb) ltac:(apply _) ltac:(done)) as [N1 _]. rewrite zlen_app in *.
    assert (Hbehind : forall b k, ptrs bb !! b = Some k -> k <> pos bb).
    { intros b k Hk. destruct (old_ok 5 bb b k Hw ltac:(done) Hk) as [_ ?]. lia. }
    assert (Hst1 : exists bbr, st1 = MkReading bbr (rheap st) (rnext st) /\
      objIdxs bbr = objIdxs (rbb st) /\ strIdxs bbr = strIdxs (rbb st)) by (rewrite Est1; by eexists).
    assert (Hpos1 : pos bb < pos bb1) by (unfold pos, len; rewrite D1, O1, zlen_app; lia).
    pose proof (synced_allocated a o bb bb1 st st1 Ha Hbehind P1 Hpos1 Hs Hst1) as Hs3.
    set (st3 := allocated o (pos bb) (rbb st1) st1) in *.
    assert (Hfree : rheap st !! rnext st = None).
    { destruct (rheap st !! rnext st) eqn:Eh; [|done]. apply Hs in Eh. lia. }
    assert (X3 : extends (zlen (num_enc U64 (pos bb))) st st3).
    { unfold st3. rewrite Est1. destruct Hs as (_ & _ & _ & H4). destruct (H4 (pos bb) ltac:(lia)).
      by apply (extends_allocated o (zlen (num_enc U64 (pos bb))) (pos bb) st). }
    assert (Hat3 : at_bytes bb1 st3 wc).
    { destruct Hat as (pre & post & Q1 & Q2 & Q3 & Q4 & Q5), X3 as (Y1 & Y2 & Y3 & Y4 & _).
      exists (pre ++ num_enc U64 (pos bb)), post. unfold len. rewrite Y1, Y2, Y3, Y4, D1, O1, !zlen_app. fold (len bb).
      split_and!; [by rewrite Q1, <-!app_assoc|lia|lia|done|done]. }
    destruct (Hrc bb1 bb' wc (pred rf) st3 Hw1 ltac:(lia) E (proj1 G)) as (o' & st4 & F4 & X4 & S4 & C4 & Hr4); [lia|done|done|].
    assert (Hcp : copy bb' st4 a (rnext st)).
    { eapply copy_mono; [apply G|exact X4|]. eapply copy_allocated; try done. by left. }
    exists (Some (rnext st)), (stored (rnext st) o' st4). split_and!.
    + rewrite (rtail_new _ _ _ _ (pos bb) st1), rnew_allocated by done. fold st3.
      replace (rnext st1) with (rnext st) by (by rewrite Est1). by erewrite bind_done by exact F4.
    + by eapply extends_stored.
    + by eapply synced_stored.
    + eapply (copied_stored a o _ _ bb bb1); try done. intros b Hne Hb. rewrite P1. by rewrite lookup_insert_ne.
    + apply HV. exact Hcp.
Qed.

Lemma string_reads d s wp : len_ok (zlen s) /\ Forall is_byte s ->
  reads d (5 + zlen s) (ToBBuffer h wp (XStr s)) (fun rf => read_contents rf (XStr s)) (fun R o' => obj_rel R (XStr s) o').
Proof.
  intros H. pose proof (num_enc_size U64 (zlen s) ltac:(apply _) ltac:(done)) as [_ Hn]. change (Z.of_nat _) with 5 in Hn.
  assert (Hc : zlen (counted s) <= 5 + zlen s) by (unfold counted; rewrite zlen_app; lia).
  assert (Hb : zlen (counted s) <= 2 ^ 33).
  { destruct H as [Hs _]. unfold len_ok, is_uint in Hs. change (2 ^ 32) with 4294967296 in Hs. change (2 ^ 33) with 8589934592. lia. }
  pose proof (reads_scalar d (XString s) H Hb eq_refl) as Hr.
  change (zlen (enc (XString s))) with (zlen (counted s)) in Hr. eapply reads_le; [exact Hc|].
  eapply reads_map; [|exact Hr]. by intros R x ->.
Qed.

Lemma ptr_spec fuel T p : shared_ok T p ->
  writes fuel 1 8 (WritePtr h fuel p) /\
  reads fuel 8 (WritePtr h fuel p) (fun rf => ReadPtr rf T) (fun R p' => ptr_rel R p p').
Proof.
  revert T p. induction fuel as [|fuel IH]; intros T p Hp.
  { split; [intros bb _ Ht|intros bb bb' w rf st _ Ht]; pose proof (todo_nonneg bb); lia. }
  destruct p as [a|].
  - destruct (Hp a eq_refl) as (o & Ha & HT). destruct (Hok a o Ha) as [Hoo _].
    destruct (W16_spec (S fuel) (GetTypeId o) (proj1 (GetTypeId_range o))) as [Tw Tr].
    assert (Hc : writes fuel 0 (cost o) (ToBBuffer h (WritePtr h fuel) o) /\
      reads fuel (cost o) (ToBBuffer h (WritePtr h fuel) o) (fun rf => read_contents rf o) (fun R o' => obj_rel R o o')).
    { destruct fuel as [|fuel].
      { split; [intros bb _ Ht|intros bb bb' w rf st _ Ht]; pose proof (todo_nonneg bb); lia. }
      destruct (contents_spec (S fuel) (WritePtr h (S fuel)) ReadPtr eq_refl (fun T p H => proj1 (IH T p H))
        (fun T p H => proj2 (IH T p H)) o Hoo) as [Cw Cr].
      split; [done|]. destruct (class_of o) as [c|] eqn:Ec.
      - eapply reads_ext; [done| |exact (Cr c eq_refl)]. intros rf st _. unfold read_contents. by rewrite Ec.
      - destruct o; try done. by apply string_reads. }
    destruct Hc as [Cw Cr]. pose proof (writes_tail fuel a o Ha Cw) as Ww. split.
    + eapply writes_ext; [intros bb; by apply WritePtr_some|]. by apply (writes_bind _ 1 0 3 5).
    + eapply (reads_ext _ _ _ _ (fun rf => typeId ← R16; rtail (pred rf) T typeId));
        [intros bb; by apply WritePtr_some|done|].
      apply (reads_bind (S fuel) 1 0 3 5 _ _ (fun _ => R16) (fun x rf => rtail (pred rf) T x)
        (fun _ x => x = GetTypeId o) (fun _ R p' => ptr_rel R (Some a) p')); try done.
      intros _ x ->. by apply reads_tail.
  - destruct (W16_spec (S fuel) 0 ltac:(done)) as [Tw Tr]. split; [by eapply writes_le; [| |exact Tw]|].
    eapply reads_le with (c := 3); [lia|]. eapply (reads_ext _ _ _ _ (fun rf => typeId ← R16; rtail (pred rf) T typeId)); [done|done|].
    intros bb bb' w rf st Hw Ht E D Hrf Hat Hs.
    destruct (Tr bb bb' w rf st Hw Ht E D Hrf Hat Hs) as (x & st' & F & X & S' & C & ->).
    exists None, st'. split; [by erewrite bind_done by exact F|done].
Qed.
End roundtrip.

