(* ===== verification/GraphRoundtrip.v ===== *)
(** * Round trip of object graphs

    What [WriteRoot] writes, [ReadRoot] rebuilds, up to what the life times of
    the objects allow: [GraphCopy] for the reference reader, [GraphRead] for the
    reader of the code, and [GraphOwned] for the objects that are destroyed when
    the tables are cleared. *)

From Stdlib Require Import ZArith Lia.
From stdpp Require Import base numbers list gmap relations.
From S2P Require Import Prelude Util BBuffer Graph GraphRef GraphRead GraphOwned GraphTypes GraphCopy.
Open Scope Z_scope.

(** ** Two graphs *)

(** A weak pointer and its copy: both are null or expired, or they point to an
    object and its copy, or the copy has expired because its object is not one
    that is copied. *)
Definition weak_rel (h : heap) (R : Z -> Z -> Prop) (h' : heap) (p p' : ptr) : Prop :=
  match lock h p, lock h' p' with
  | None, None => True
  | Some a, Some a' => R a a'
  | Some a, None => forall a', ~ R a a'
  | None, Some _ => False
  end.

(** [o'] of [h'] has the contents of [o] of [h]. *)
Definition twin (h : heap) (R : Z -> Z -> Prop) (h' : heap) (o o' : object) : Prop :=
  let shared := ptr_rel h R in
  let weak := weak_rel h R h' in
  match o, o' with
  | XStr s, XStr s' => s' = s
  | XBuf d, XBuf d' => d' = d
  | Foo p c, Foo p' c' => weak p p' /\ shared c c'
  | Player i t g, Player i' t' g' => i' = i /\ shared t t' /\ weak g g'
  | Monster, Monster => True
  | Scene m p, Scene m' p' => shared m m' /\ shared p p'
  | Sync p s, Sync p' s' => shared p p' /\ shared s s'
  | XList e l, XList e' l' => e' = e /\ Forall2 (if elem_shared e then shared else weak) l l'
  | _, _ => False
  end.

(** The objects of [h] that [v] owns, and the new objects of [h'] — those from
    address [n] on — correspond one to one, with the same contents. *)
Definition rebuilt (h : heap) (v : ptr) (n : Z) (h' : heap) (v' : ptr) : Prop :=
  exists R : Z -> Z -> Prop,
    ptr_rel h R v v' /\
    (forall a b b', R a b -> R a b' -> b = b') /\ (forall a a' b, R a b -> R a' b -> a = a') /\
    (forall a, owned h v a <-> exists a', R a a') /\
    (forall a', (exists a, R a a') <-> n <= a' /\ is_Some (h' !! a')) /\
    (forall a a', R a a' -> exists o o', h !! a = Some o /\ h' !! a' = Some o' /\ twin h R h' o o').

(** A reader that stands at [w]. *)
Definition ready (w : bytes) (st : reading) : Prop :=
  (exists pre post, data (rbb st) = pre ++ w ++ post /\ offset (rbb st) = zlen pre) /\
  len (rbb st) <= 2 ^ 62 /\ readLengthLimit (rbb st) = 0 /\ well_typed st.

(** ** What is owned is copied *)

Section owned.
Context (h h1 : heap) (C : Z -> Z -> Prop) (v v' : ptr).
Context (Hok : forall a o, h !! a = Some o -> obj_ok h o).
Context (Hobj : forall a a', C a a' -> exists o o', h !! a = Some o /\ h1 !! a' = Some o' /\ obj_rel h C o o').
Context (Hfun : forall a b b', C a b -> C a b' -> b = b') (Hinj : forall a a' b, C a b -> C a' b -> a = a').
Context (Hv : ptr_rel h C v v').

Lemma ptr_rel_alive T p p' : shared_ok h T p -> ptr_rel h C p p' ->
  match p, p' with None, None => True | Some a, Some a' => C a a' /\ is_Some (h !! a) | _, _ => False end.
Proof using.
  intros Hs Hp. unfold ptr_rel in Hp. rewrite (lock_shared h T p Hs) in Hp. destruct p as [a|], p' as [a'|]; try done.
  destruct (Hs a eq_refl) as (o & E & _). split; [done|]. by exists o.
Qed.

Definition linked (p p' : ptr) : Prop := match p, p' with None, None => True | Some a, Some a' => C a a' | _, _ => False end.

Lemma shared_linked o o' : obj_ok h o -> obj_rel h C o o' -> Forall2 linked (shared_ptrs o) (shared_ptrs o').
Proof using.
  assert (Hl : forall T p p', shared_ok h T p -> ptr_rel h C p p' -> linked p p').
  { intros T p p' Hs Hp. pose proof (ptr_rel_alive T p p' Hs Hp) as H. unfold linked. destruct p, p'; try done. apply H. }
  intros Ho Hr. destruct o, o'; cbn in Ho, Hr |- *; try done; try (repeat constructor; naive_solver).
  destruct Hr as [-> Hr], Ho as [_ Ho]. destruct (elem_shared e); [|constructor].
  induction Hr as [|p p' l l' Hp Hr IH]; [constructor|]. apply Forall_cons in Ho as [Hs Ho]. constructor; [by apply (Hl (elem_type e))|by apply IH].
Qed.

Lemma linked_forward l l' b : Forall2 linked l l' -> Some b ∈ l -> exists b', Some b' ∈ l' /\ C b b'.
Proof using.
  induction 1 as [|p p' l l' Hp Hl IH]; [by intros ?%elem_of_nil|]. rewrite elem_of_cons. intros [<-|Hb].
  - destruct p' as [b'|]; [|done]. exists b'. split; [left|done].
  - destruct (IH Hb) as (b' & ? & ?). exists b'. split; [by right|done].
Qed.

Lemma linked_backward l l' b' : Forall2 linked l l' -> Some b' ∈ l' -> exists b, Some b ∈ l /\ C b b'.
Proof using.
  induction 1 as [|p p' l l' Hp Hl IH]; [by intros ?%elem_of_nil|]. rewrite elem_of_cons. intros [<-|Hb].
  - destruct p as [b|]; [|done]. exists b. split; [left|done].
  - destruct (IH Hb) as (b & ? & ?). exists b. split; [by right|done].
Qed.

Lemma owned_copied T a : shared_ok h T v -> owned h v a -> exists a', C a a' /\ owned h1 v' a'.
Proof using Hok Hobj Hfun Hv.
  intros Hs. revert a. apply owned_ind.
  - intros a -> _. pose proof (ptr_rel_alive T _ _ Hs Hv) as Hl. destruct v' as [a'|]; [|done]. destruct Hl as [Hc _]. exists a'. split; [done|].
    destruct (Hobj a a' Hc) as (_ & o' & _ & Eo' & _). apply owned_root. by exists o'.
  - intros a b _ (a' & Hc & Ho) (o & Eo & Hb). destruct (Hobj a a' Hc) as (x & o' & Ex & Eo' & Hr). assert (x = o) as -> by congruence.
    destruct (linked_forward _ _ b (shared_linked o o' (Hok a o Eo) Hr) Hb) as (b' & Hb' & Hcb). exists b'. split; [done|].
    apply (owned_step _ _ a'); [done|]. by exists o'.
Qed.

Lemma copy_owned T a' : shared_ok h T v -> owned h1 v' a' -> exists a, C a a' /\ owned h v a.
Proof using Hok Hobj Hinj Hv.
  intros Hs. revert a'. apply owned_ind.
  - intros a' E _. pose proof (ptr_rel_alive T _ _ Hs Hv) as Hl. rewrite E in Hl. destruct v as [a|]; [|done]. destruct Hl as [Hc Ha]. exists a. split; [done|].
    by apply owned_root.
  - intros a' b' _ (a & Hc & Ho) (o' & Eo' & Hb'). destruct (Hobj a a' Hc) as (o & x & Eo & Ex & Hr). assert (x = o') as -> by congruence.
    destruct (linked_backward _ _ b' (shared_linked o o' (Hok a o Eo) Hr) Hb') as (b & Hb & Hcb). exists b. split; [done|].
    apply (owned_step _ _ a); [done|]. by exists o.
Qed.

(** What is left when the objects that [v'] does not own are gone. *)
Context (n : Z) (h2 : heap) (Hnew : forall a a', C a a' -> n <= a').
Context (Hex : forall a o, h2 !! a = Some o <-> h1 !! a = Some o /\ (a < n \/ owned h1 v' a)).

Definition survives (a a' : Z) : Prop := C a a' /\ owned h v a.

Lemma survives_copy T a a' : shared_ok h T v -> C a a' -> is_Some (h2 !! a') <-> owned h v a.
Proof using Hok Hobj Hfun Hinj Hv Hnew Hex.
  intros Hs Hc. split.
  - intros [o [Ho [Hlt|Hown]]%Hex]; [specialize (Hnew a a' Hc); lia|]. destruct (copy_owned T a' Hs Hown) as (b & Hb & Hob). by rewrite (Hinj a b a' Hc Hb).
  - intros Hown. destruct (owned_copied T a Hs Hown) as (b' & Hb & Hob). rewrite (Hfun a a' b' Hc Hb). destruct (Hobj a b' Hb) as (_ & o' & _ & Eo' & _).
    exists o'. apply Hex. by auto.
Qed.

Lemma weak_survives T p p' : shared_ok h T v -> ptr_rel h C p p' -> weak_rel h survives h2 p p'.
Proof using Hok Hobj Hfun Hinj Hv Hnew Hex.
  intros Hs Hp. unfold ptr_rel in Hp. unfold weak_rel. destruct (lock h p) as [a|], p' as [a'|]; try done.
  pose proof (survives_copy T a a' Hs Hp) as Ha. cbn. destruct (h2 !! a') as [o|].
  - split; [done|]. apply Ha. by exists o.
  - intros b [_ Hb]. apply Ha in Hb as [x Hx]. done.
Qed.

Lemma shared_survives T T' p p' a o : shared_ok h T v -> owned h v a -> h !! a = Some o -> p ∈ shared_ptrs o -> shared_ok h T' p -> ptr_rel h C p p' -> ptr_rel h survives p p'.
Proof using.
  intros Hs Ha Eo Hp Hps Hr. pose proof (ptr_rel_alive T' _ _ Hps Hr) as Hl. unfold ptr_rel. rewrite (lock_shared h T' p Hps).
  destruct p as [b|], p' as [b'|]; try done. split; [apply Hl|]. apply (owned_step _ _ a); [done|]. by exists o.
Qed.

Lemma twin_survives T a o o' : shared_ok h T v -> owned h v a -> h !! a = Some o -> obj_rel h C o o' -> twin h survives h2 o o'.
Proof using Hok Hobj Hfun Hinj Hv Hnew Hex.
  intros Hs Ha Eo Hr. pose proof (Hok a o Eo) as Ho. pose proof (fun p p' => weak_survives T p p' Hs) as Hw.
  pose proof (fun T' p p' => shared_survives T T' p p' a o Hs Ha Eo) as Hsh.
  destruct o, o'; cbn in Ho, Hr, Hsh |- *; try done; rewrite ?elem_of_cons in Hsh.
  - split; [apply Hw, Hr|]. eapply Hsh; [set_solver|apply Ho|apply Hr].
  - split; (eapply Hsh; [set_solver|apply Ho|apply Hr]).
  - split; (eapply Hsh; [set_solver|apply Ho|apply Hr]).
  - destruct Hr as [-> Hr]. split; [done|]. destruct Ho as [_ Ho]. destruct (elem_shared e).
    + assert (Hl : forall l l', Forall2 (ptr_rel h C) l l' -> Forall (shared_ok h (elem_type e)) l -> (forall p, p ∈ l -> p ∈ buf) -> Forall2 (ptr_rel h survives) l l').
      { induction 1 as [|p p' l l' Hp _ IH]; [constructor|]. intros [Hps Hos]%Forall_cons Hin.
        constructor; [eapply Hsh; [apply Hin; left|exact Hps|exact Hp]|]. apply IH; [done|]. intros x Hx. apply Hin. by right. }
      by apply Hl.
    + eapply Forall2_impl; [exact Hr|]. intros p p'. apply Hw.
Qed.

Lemma rebuilt_survives T : shared_ok h T v -> rebuilt h v n h2 v'.
Proof using Hok Hobj Hfun Hinj Hv Hnew Hex.
  intros Hs. exists survives. split_and!.
  - pose proof (ptr_rel_alive T _ _ Hs Hv) as Hl. unfold ptr_rel. rewrite (lock_shared h T v Hs). destruct v as [a|] eqn:Ev, v' as [a'|]; try done.
    split; [apply Hl|]. rewrite Ev. apply owned_root, Hl.
  - intros a b b' [H1 _] [H2 _]. by apply (Hfun a).
  - intros a a' b [H1 _] [H2 _]. by apply (Hinj a a' b).
  - intros a. split; [intros Ha; destruct (owned_copied T a Hs Ha) as (a' & Hc & _); by exists a'|by intros (a' & _ & Ha)].
  - intros a'. split.
    + intros (a & Hc & Ha). split; [by apply (Hnew a)|]. by apply (survives_copy T a).
    + intros [Hn [o [Ho [Hlt|Hown]]%Hex]]; [lia|]. destruct (copy_owned T a' Hs Hown) as (a & Hc & Ha). by exists a.
  - intros a a' [Hc Ha]. destruct (Hobj a a' Hc) as (o & o' & Eo & Eo' & Hr). exists o, o'. split; [done|]. split.
    + destruct (proj2 (survives_copy T a a' Hs Hc) Ha) as [x Hx]. pose proof Hx as [Ex _]%Hex. congruence.
    + by apply (twin_survives T a).
Qed.
End owned.

(** ** Whole graphs *)

Lemma root_written h K v T bb :
  (forall a o, h !! a = Some o -> obj_ok h o /\ cost o <= K) -> 0 <= K -> 8 + Z.of_nat (size h) * K < 2 ^ 32 ->
  shared_ok h T v -> bb_wf bb -> len bb <= 2 ^ 60 -> ptrs bb = ∅ ->
  let bb0 := set_offsetRoot (len bb) bb in
  exists bb' w, WriteRoot h v bb = Done tt (set_ptrs ∅ bb') /\ WritePtr h (2 + size h) v bb0 = Done tt bb' /\
    wr_ok h K 8 bb0 /\ todo h bb0 < Z.of_nat (2 + size h) /\ wrote_graph h K 8 w bb0 bb'.
Proof.
  intros Hok HK Hsz Hv W Hl Hp bb0.
  assert (Et : todo h bb0 = Z.of_nat (size h)).
  { unfold todo, bb0. cbn [ptrs set_offsetRoot]. rewrite Hp, dom_empty_L, difference_empty_L. by rewrite size_dom. }
  assert (Hw : wr_ok h K 8 bb0).
  { unfold wr_ok, ptrs_ok. rewrite Et. change (len bb0) with (len bb). pose proof (zlen_nonneg (data bb)) as H0.
    fold (len bb) in H0. change (offsetRoot bb0) with (len bb). change (ptrs bb0) with (ptrs bb). rewrite Hp.
    split_and!; try done; lia. }
  destruct (proj1 (ptr_spec h K Hok HK (2 + size h) T v Hv) bb0 Hw ltac:(lia)) as (bb' & w & E & G & _).
  exists bb', w. split_and!; try done; [|lia]. unfold WriteRoot. erewrite bind_done by done. erewrite bind_done by done.
  fold bb0. rewrite Hp, bool_decide_true by done. erewrite bind_done by done. erewrite bind_done by exact E. done.
Qed.

(** The copies are new objects. *)
Lemma copy_new h base D T bb st a a' : typed base D T st -> copy h bb (core st) a a' -> base <= a'.
Proof.
  intros Ht (o & n & _ & _ & Hi). unfold idx in Hi. cbn in Hi.
  destruct o; first [exact (proj2 (ty_str _ _ _ _ Ht n a' Hi) a' eq_refl)|exact (proj2 (ty_obj _ _ _ _ Ht n a' Hi) a' eq_refl)].
Qed.

Lemma root_copied h K v T bb bb' w st :
  (forall a o, h !! a = Some o -> obj_ok h o /\ cost o <= K) -> 0 <= K -> shared_ok h T v -> ptrs bb = ∅ ->
  let bb0 := set_offsetRoot (len bb) bb in
  WritePtr h (2 + size h) v bb0 = Done tt bb' -> wr_ok h K 8 bb0 -> todo h bb0 < Z.of_nat (2 + size h) -> data bb' = data bb ++ w -> ready w st ->
  exists v' st', ReadRoot T st = Done v' st' /\ rroot st' = v' /\ offset (rbb st') = offset (rbb st) + zlen w /\
    (forall a, a < rnext st -> rheap st' !! a = rheap st !! a) /\ rebuilt h v (rnext st) (rheap st') v'.
Proof.
  intros Hok HK Hv Hp bb0 Ew Hw Ht Ed ((pre & post & P1 & P2) & P3 & P4 & Hwt). pose proof Hwt as (_ & Hth & P5 & P6).
  pose proof (ReadPtr_safe T st Hwt) as Hsafe. rewrite (ReadRoot_runs T st Hwt). cbv zeta in *.
  set (st1 := set_rroot None (set_rbb (set_offsetRoot (offset (rbb st)) (rbb st)) st)) in *.
  destruct (proj2 (ptr_spec h K Hok HK (2 + size h) T v Hv) bb0 bb' w (S (length (data (rbb st)))) (core st1) Hw Ht Ew Ed) as (v' & rs & F & X & (S1 & S2 & S3 & S4) & Cp & HV).
  - rewrite P1. unfold zlen. rewrite !length_app. lia.
  - exists pre, post. cbn. split_and!; try done. rewrite P2. unfold len. cbn. lia.
  - assert (Hnone : forall a a', ~ copy h bb0 (core st1) a a') by (intros a a' (o & n & _ & Hn & _); cbn in Hn; by rewrite Hp in Hn).
    split_and!; cbn; try done; [by rewrite Hp|intros a o Ha; apply (Hth a o Ha)|by intros ? ? ? ?%Hnone|by rewrite P5, P6].
  - pose proof (reader_equals_reference (S (length (data (rbb st)))) T st1) as He. rewrite F in He.
    destruct (ReadPtr _ Root T st1) as [q st2|e st2|] eqn:Er; [|done|done]. destruct He as (-> & Eroot & ->). destruct Hsafe as (_ & T2 & K2).
    destruct (clear_sound (data (rbb st)) T st st2 Hth T2 K2) as ((Hold & _) & _ & Hex). exists v', (clear_tables (rnext st) st2).
    split; [unfold then_clear; by rewrite Er|]. split; [exact Eroot|]. split; [apply X|]. split; [exact Hold|]. rewrite Eroot in Hex.
    apply (rebuilt_survives h (rheap st2) (copy h bb' (core st2)) v v') with T; try done.
    + intros a o Ha. exact (proj1 (Hok a o Ha)).
    + intros a a' Hc. apply Cp; [|done]. cbn. by rewrite Hp.
    + apply copy_fun.
    + intros a a' Hc. by apply (copy_new h (rnext st) (data (rbb st)) T bb' st2 a a').
Qed.

Lemma root_roundtrip h K v T bb :
  (forall a o, h !! a = Some o -> obj_ok h o /\ cost o <= K) -> 0 <= K -> 8 + Z.of_nat (size h) * K < 2 ^ 32 ->
  shared_ok h T v -> bb_wf bb -> len bb <= 2 ^ 60 -> ptrs bb = ∅ ->
  exists bb' w, WriteRoot h v bb = Done tt bb' /\ data bb' = data bb ++ w /\ ptrs bb' = ∅ /\ zlen w < 2 ^ 32 /\
    forall st, ready w st ->
    exists v' st', ReadRoot T st = Done v' st' /\ rroot st' = v' /\ offset (rbb st') = offset (rbb st) + zlen w /\
      (forall a, a < rnext st -> rheap st' !! a = rheap st !! a) /\ rebuilt h v (rnext st) (rheap st') v'.
Proof.
  intros Hok HK Hsz Hv W Hl Hp.
  destruct (root_written h K v T bb Hok HK Hsz Hv W Hl Hp) as (bb' & w & E & Ew & Hw & Ht & G).
  exists (set_ptrs ∅ bb'), w. split; [done|]. split; [apply G|]. split; [done|]. split.
  - destruct Hw as (_ & _ & _ & _ & Hb), G as (_ & _ & _ & _ & _ & Hn). pose proof (todo_nonneg h bb').
    change (len (set_offsetRoot (len bb) bb)) with (len bb) in Hb. change (offsetRoot (set_offsetRoot (len bb) bb)) with (len bb) in Hb. nia.
  - intros st Hst. apply (root_copied h K v T bb bb' w st); try done. apply G.
Qed.

(** ** Properties *)

(** C9. Object graphs round-trip.  [WriteRoot] of any well-typed graph without
    a [Player], with sharing and cycles, succeeds, and [ReadRoot] of the bytes
    it appended consumes exactly these bytes and makes new objects that
    correspond one to one to those that the root owns over shared pointers,
    with the same contents: pointers between them are kept, weak ones too, and
    a weak pointer to an object that nobody owns has expired.  The contents
    must fit below [2^32] bytes; after a [Player] the reader is lost
    ([player_not_read_back]). *)
Theorem graph_roundtrip h K v T bb :
  (forall a o, h !! a = Some o -> obj_ok h o /\ cost o <= K) -> 0 <= K -> 8 + Z.of_nat (size h) * K < 2 ^ 32 ->
  shared_ok h T v -> bb_wf bb -> len bb <= 2 ^ 60 -> ptrs bb = ∅ ->
  exists bb' w, WriteRoot h v bb = Done tt bb' /\ data bb' = data bb ++ w /\ ptrs bb' = ∅ /\
    forall st, ready w st ->
    exists v' st', ReadRoot T st = Done v' st' /\ rroot st' = v' /\ offset (rbb st') = offset (rbb st) + zlen w /\
      (forall a, a < rnext st -> rheap st' !! a = rheap st !! a) /\ rebuilt h v (rnext st) (rheap st') v'.
Proof.
  intros Hok HK Hsz Hv W Hl Hp.
  destruct (root_roundtrip h K v T bb Hok HK Hsz Hv W Hl Hp) as (bb' & w & E & D & Hp' & _ & Hr). by exists bb', w.
Qed.

Module GraphDemo.
(** A [Foo] with a child that points back to it. *)
Definition h : heap := <[1 := Foo None (Some 2)]> (<[2 := XList Foo_w [Some 3; Some 3]]> (<[3 := Foo (Some 1) None]> ∅)).
Definition st0 : reading := MkReading BB_empty ∅ 100 None.
Definition out : bytes := match WriteRoot h (Some 1) BB_empty with Done _ bb => data bb | _ => [] end.
Definition st : reading := MkReading (set_data out BB_empty) ∅ 100 None.

Lemma ok a o : h !! a = Some o -> obj_ok h o /\ cost o <= 30.
Proof.
  unfold h. intros [[<- <-]|[_ [[<- <-]|[_ [[<- <-]|[_ ?]]%lookup_insert_Some]]%lookup_insert_Some]]%lookup_insert_Some; [..|done].
  - split; [split; [by intros ? ? ?|]|done]. intros ? [= <-]. by eexists.
  - split; [split; [done|]|done]. repeat constructor; intros ? ? [= <-] [= <-]; done.
  - split; [split|done]; [|by intros ? ?]. intros ? ? [= <-] [= <-]; done.
Qed.
End GraphDemo.

Lemma graph_roundtrip_witness :
  exists bb' w, WriteRoot GraphDemo.h (Some 1) BB_empty = Done tt bb' /\ data bb' = data BB_empty ++ w /\ ptrs bb' = ∅ /\
    forall st, ready w st ->
    exists v' st', ReadRoot (PObject None) st = Done v' st' /\ rroot st' = v' /\ offset (rbb st') = offset (rbb st) + zlen w /\
      (forall a, a < rnext st -> rheap st' !! a = rheap st !! a) /\ rebuilt GraphDemo.h (Some 1) (rnext st) (rheap st') v'.
Proof.
  apply (graph_roundtrip GraphDemo.h 30 (Some 1) (PObject None) BB_empty GraphDemo.ok); try done.
  intros a [= <-]. eexists. split; [done|by eexists].
Defined.

(** What only weak pointers reach does not survive: a [Foo] and its child, which
    nobody owns, are written, but of the copies only the first and its list are
    left, and the links to the child have expired. *)
Theorem weak_children_expire : exists st',
  ReadRoot (PObject None) GraphDemo.st = Done (Some 100) st' /\
  rheap st' = <[100 := Foo None (Some 101)]> (<[101 := XList Foo_w [Some 102; Some 102]]> ∅) /\ lock (rheap st') (Some 102) = None.
Proof. eexists. split; [vm_compute; reflexivity|]. split; [vm_compute; reflexivity|]. by vm_compute. Qed.

(** A [Player] does not round-trip: [ToBBuffer] leaves out the token that
    [FromBBuffer] expects, so a [Player] that was written alone cannot be read
    (-9: out of data). *)
Theorem player_not_read_back :
  exists bb st', WriteRoot (<[1 := Player 7 None None]> ∅) (Some 1) BB_empty = Done tt bb /\
    ReadRoot (PObject None) (MkReading (set_data (data bb) BB_empty) ∅ 100 None) = Fail (-9) st'.
Proof. eexists _, _. split; [vm_compute; reflexivity|vm_compute; reflexivity]. Qed.
