(* ===== verification/KcpState.v ===== *)
(** * ikcp.h: the segment and the control block

    [IKCPSEG] is one KCP segment and [IKCPCB] one KCP connection.  The four
    [IQUEUEHEAD] queues are lists in queue order (the macros of the linked
    nodes are their operations); [seg->len] is the length of [sdata]; the ack array
    keeps its (sn, ts) pairs; [sent] records what was handed to the output
    callback.  Logging ([logmask], [writelog]) and the opaque [user] pointer
    are left out. *)

From Stdlib Require Import ZArith Lia.
From stdpp Require Import base numbers list gmap.
From S2P Require Import Prelude Util.
Open Scope Z_scope.

Record IKCPSEG := MkSeg {
  seg_conv : Guid;
  cmd : Z;
  frg : Z;
  wnd : Z;
  ts : Z;
  sn : Z;
  una : Z;
  resendts : Z;
  rto : Z;
  fastack : Z;
  seg_xmit : Z;
  sdata : bytes
}.

(** [seg->len]. *)
Definition slen (s : IKCPSEG) : Z := zlen (sdata s).

Record IKCPCB := MkCB {
  conv : Guid;
  mtu : Z;
  mss : Z;
  state : Z;  (* 0xffffffff: dead link *)
  snd_una : Z;
  snd_nxt : Z;
  rcv_nxt : Z;
  ts_recent : Z;
  ts_lastack : Z;
  ssthresh : Z;
  rx_rttval : Z;
  rx_srtt : Z;
  rx_rto : Z;
  rx_minrto : Z;
  snd_wnd : Z;
  rcv_wnd : Z;
  rmt_wnd : Z;
  cwnd : Z;
  probe : Z;
  current : Z;
  interval : Z;
  ts_flush : Z;
  xmit : Z;
  nrcv_buf : Z;
  nsnd_buf : Z;
  nrcv_que : Z;
  nsnd_que : Z;
  nodelay : Z;
  updated : Z;
  ts_probe : Z;
  probe_wait : Z;
  dead_link : Z;
  incr : Z;
  snd_queue : list IKCPSEG;
  rcv_queue : list IKCPSEG;
  snd_buf : list IKCPSEG;
  rcv_buf : list IKCPSEG;
  acklist : list (Z * Z);  (* (sn, ts) pairs *)
  ackcount : Z;
  ackblock : Z;
  fastresend : Z;
  nocwnd : Z;
  stream : Z;
  bufsize : Z;  (* bytes allocated at [buffer] *)
  output : bool;  (* is the output callback set? *)
  sent : list bytes  (* datagrams handed to [output], oldest first *)
}.

(** Assignment to one field. *)
Definition set_conv (v : Guid) (k : IKCPCB) : IKCPCB :=
  MkCB v (mtu k) (mss k) (state k) (snd_una k) (snd_nxt k) (rcv_nxt k) (ts_recent k) (ts_lastack
    k) (ssthresh k) (rx_rttval k) (rx_srtt k) (rx_rto k) (rx_minrto k) (snd_wnd k) (rcv_wnd k)
    (rmt_wnd k) (cwnd k) (probe k) (current k) (interval k) (ts_flush k) (xmit k) (nrcv_buf k)
    (nsnd_buf k) (nrcv_que k) (nsnd_que k) (nodelay k) (updated k) (ts_probe k) (probe_wait k)
    (dead_link k) (incr k) (snd_queue k) (rcv_queue k) (snd_buf k) (rcv_buf k) (acklist k)
    (ackcount k) (ackblock k) (fastresend k) (nocwnd k) (stream k) (bufsize k) (output k) (sent
    k).
Definition set_mtu (v : Z) (k : IKCPCB) : IKCPCB :=
  MkCB (conv k) v (mss k) (state k) (snd_una k) (snd_nxt k) (rcv_nxt k) (ts_recent k)
    (ts_lastack k) (ssthresh k) (rx_rttval k) (rx_srtt k) (rx_rto k) (rx_minrto k) (snd_wnd k)
    (rcv_wnd k) (rmt_wnd k) (cwnd k) (probe k) (current k) (interval k) (ts_flush k) (xmit k)
    (nrcv_buf k) (nsnd_buf k) (nrcv_que k) (nsnd_que k) (nodelay k) (updated k) (ts_probe k)
    (probe_wait k) (dead_link k) (incr k) (snd_queue k) (rcv_queue k) (snd_buf k) (rcv_buf k)
    (acklist k) (ackcount k) (ackblock k) (fastresend k) (nocwnd k) (stream k) (bufsize k)
    (output k) (sent k).
Definition set_mss (v : Z) (k : IKCPCB) : IKCPCB :=
  MkCB (conv k) (mtu k) v (state k) (snd_una k) (snd_nxt k) (rcv_nxt k) (ts_recent k)
    (ts_lastack k) (ssthresh k) (rx_rttval k) (rx_srtt k) (rx_rto k) (rx_minrto k) (snd_wnd k)
    (rcv_wnd k) (rmt_wnd k) (cwnd k) (probe k) (current k) (interval k) (ts_flush k) (xmit k)
    (nrcv_buf k) (nsnd_buf k) (nrcv_que k) (nsnd_que k) (nodelay k) (updated k) (ts_probe k)
    (probe_wait k) (dead_link k) (incr k) (snd_queue k) (rcv_queue k) (snd_buf k) (rcv_buf k)
    (acklist k) (ackcount k) (ackblock k) (fastresend k) (nocwnd k) (stream k) (bufsize k)
    (output k) (sent k).
Definition set_state (v : Z) (k : IKCPCB) : IKCPCB :=
  MkCB (conv k) (mtu k) (mss k) v (snd_una k) (snd_nxt k) (rcv_nxt k) (ts_recent k) (ts_lastack
    k) (ssthresh k) (rx_rttval k) (rx_srtt k) (rx_rto k) (rx_minrto k) (snd_wnd k) (rcv_wnd k)
    (rmt_wnd k) (cwnd k) (probe k) (current k) (interval k) (ts_flush k) (xmit k) (nrcv_buf k)
    (nsnd_buf k) (nrcv_que k) (nsnd_que k) (nodelay k) (updated k) (ts_probe k) (probe_wait k)
    (dead_link k) (incr k) (snd_queue k) (rcv_queue k) (snd_buf k) (rcv_buf k) (acklist k)
    (ackcount k) (ackblock k) (fastresend k) (nocwnd k) (stream k) (bufsize k) (output k) (sent
    k).
Definition set_snd_una (v : Z) (k : IKCPCB) : IKCPCB :=
  MkCB (conv k) (mtu k) (mss k) (state k) v (snd_nxt k) (rcv_nxt k) (ts_recent k) (ts_lastack k)
    (ssthresh k) (rx_rttval k) (rx_srtt k) (rx_rto k) (rx_minrto k) (snd_wnd k) (rcv_wnd k)
    (rmt_wnd k) (cwnd k) (probe k) (current k) (interval k) (ts_flush k) (xmit k) (nrcv_buf k)
    (nsnd_buf k) (nrcv_que k) (nsnd_que k) (nodelay k) (updated k) (ts_probe k) (probe_wait k)
    (dead_link k) (incr k) (snd_queue k) (rcv_queue k) (snd_buf k) (rcv_buf k) (acklist k)
    (ackcount k) (ackblock k) (fastresend k) (nocwnd k) (stream k) (bufsize k) (output k) (sent
    k).
Definition set_snd_nxt (v : Z) (k : IKCPCB) : IKCPCB :=
  MkCB (conv k) (mtu k) (mss k) (state k) (snd_una k) v (rcv_nxt k) (ts_recent k) (ts_lastack k)
    (ssthresh k) (rx_rttval k) (rx_srtt k) (rx_rto k) (rx_minrto k) (snd_wnd k) (rcv_wnd k)
    (rmt_wnd k) (cwnd k) (probe k) (current k) (interval k) (ts_flush k) (xmit k) (nrcv_buf k)
    (nsnd_buf k) (nrcv_que k) (nsnd_que k) (nodelay k) (updated k) (ts_probe k) (probe_wait k)
    (dead_link k) (incr k) (snd_queue k) (rcv_queue k) (snd_buf k) (rcv_buf k) (acklist k)
    (ackcount k) (ackblock k) (fastresend k) (nocwnd k) (stream k) (bufsize k) (output k) (sent
    k).
Definition set_rcv_nxt (v : Z) (k : IKCPCB) : IKCPCB :=
  MkCB (conv k) (mtu k) (mss k) (state k) (snd_una k) (snd_nxt k) v (ts_recent k) (ts_lastack k)
    (ssthresh k) (rx_rttval k) (rx_srtt k) (rx_rto k) (rx_minrto k) (snd_wnd k) (rcv_wnd k)
    (rmt_wnd k) (cwnd k) (probe k) (current k) (interval k) (ts_flush k) (xmit k) (nrcv_buf k)
    (nsnd_buf k) (nrcv_que k) (nsnd_que k) (nodelay k) (updated k) (ts_probe k) (probe_wait k)
    (dead_link k) (incr k) (snd_queue k) (rcv_queue k) (snd_buf k) (rcv_buf k) (acklist k)
    (ackcount k) (ackblock k) (fastresend k) (nocwnd k) (stream k) (bufsize k) (output k) (sent
    k).
Definition set_ts_recent (v : Z) (k : IKCPCB) : IKCPCB :=
  MkCB (conv k) (mtu k) (mss k) (state k) (snd_una k) (snd_nxt k) (rcv_nxt k) v (ts_lastack k)
    (ssthresh k) (rx_rttval k) (rx_srtt k) (rx_rto k) (rx_minrto k) (snd_wnd k) (rcv_wnd k)
    (rmt_wnd k) (cwnd k) (probe k) (current k) (interval k) (ts_flush k) (xmit k) (nrcv_buf k)
    (nsnd_buf k) (nrcv_que k) (nsnd_que k) (nodelay k) (updated k) (ts_probe k) (probe_wait k)
    (dead_link k) (incr k) (snd_queue k) (rcv_queue k) (snd_buf k) (rcv_buf k) (acklist k)
    (ackcount k) (ackblock k) (fastresend k) (nocwnd k) (stream k) (bufsize k) (output k) (sent
    k).
Definition set_ts_lastack (v : Z) (k : IKCPCB) : IKCPCB :=
  MkCB (conv k) (mtu k) (mss k) (state k) (snd_una k) (snd_nxt k) (rcv_nxt k) (ts_recent k) v
    (ssthresh k) (rx_rttval k) (rx_srtt k) (rx_rto k) (rx_minrto k) (snd_wnd k) (rcv_wnd k)
    (rmt_wnd k) (cwnd k) (probe k) (current k) (interval k) (ts_flush k) (xmit k) (nrcv_buf k)
    (nsnd_buf k) (nrcv_que k) (nsnd_que k) (nodelay k) (updated k) (ts_probe k) (probe_wait k)
    (dead_link k) (incr k) (snd_queue k) (rcv_queue k) (snd_buf k) (rcv_buf k) (acklist k)
    (ackcount k) (ackblock k) (fastresend k) (nocwnd k) (stream k) (bufsize k) (output k) (sent
    k).
Definition set_ssthresh (v : Z) (k : IKCPCB) : IKCPCB :=
  MkCB (conv k) (mtu k) (mss k) (state k) (snd_una k) (snd_nxt k) (rcv_nxt k) (ts_recent k)
    (ts_lastack k) v (rx_rttval k) (rx_srtt k) (rx_rto k) (rx_minrto k) (snd_wnd k) (rcv_wnd k)
    (rmt_wnd k) (cwnd k) (probe k) (current k) (interval k) (ts_flush k) (xmit k) (nrcv_buf k)
    (nsnd_buf k) (nrcv_que k) (nsnd_que k) (nodelay k) (updated k) (ts_probe k) (probe_wait k)
    (dead_link k) (incr k) (snd_queue k) (rcv_queue k) (snd_buf k) (rcv_buf k) (acklist k)
    (ackcount k) (ackblock k) (fastresend k) (nocwnd k) (stream k) (bufsize k) (output k) (sent
    k).
Definition set_rx_rttval (v : Z) (k : IKCPCB) : IKCPCB :=
  MkCB (conv k) (mtu k) (mss k) (state k) (snd_una k) (snd_nxt k) (rcv_nxt k) (ts_recent k)
    (ts_lastack k) (ssthresh k) v (rx_srtt k) (rx_rto k) (rx_minrto k) (snd_wnd k) (rcv_wnd k)
    (rmt_wnd k) (cwnd k) (probe k) (current k) (interval k) (ts_flush k) (xmit k) (nrcv_buf k)
    (nsnd_buf k) (nrcv_que k) (nsnd_que k) (nodelay k) (updated k) (ts_probe k) (probe_wait k)
    (dead_link k) (incr k) (snd_queue k) (rcv_queue k) (snd_buf k) (rcv_buf k) (acklist k)
    (ackcount k) (ackblock k) (fastresend k) (nocwnd k) (stream k) (bufsize k) (output k) (sent
    k).
Definition set_rx_srtt (v : Z) (k : IKCPCB) : IKCPCB :=
  MkCB (conv k) (mtu k) (mss k) (state k) (snd_una k) (snd_nxt k) (rcv_nxt k) (ts_recent k)
    (ts_lastack k) (ssthresh k) (rx_rttval k) v (rx_rto k) (rx_minrto k) (snd_wnd k) (rcv_wnd k)
    (rmt_wnd k) (cwnd k) (probe k) (current k) (interval k) (ts_flush k) (xmit k) (nrcv_buf k)
    (nsnd_buf k) (nrcv_que k) (nsnd_que k) (nodelay k) (updated k) (ts_probe k) (probe_wait k)
    (dead_link k) (incr k) (snd_queue k) (rcv_queue k) (snd_buf k) (rcv_buf k) (acklist k)
    (ackcount k) (ackblock k) (fastresend k) (nocwnd k) (stream k) (bufsize k) (output k) (sent
    k).
Definition set_rx_rto (v : Z) (k : IKCPCB) : IKCPCB :=
  MkCB (conv k) (mtu k) (mss k) (state k) (snd_una k) (snd_nxt k) (rcv_nxt k) (ts_recent k)
    (ts_lastack k) (ssthresh k) (rx_rttval k) (rx_srtt k) v (rx_minrto k) (snd_wnd k) (rcv_wnd
    k) (rmt_wnd k) (cwnd k) (probe k) (current k) (interval k) (ts_flush k) (xmit k) (nrcv_buf
    k) (nsnd_buf k) (nrcv_que k) (nsnd_que k) (nodelay k) (updated k) (ts_probe k) (probe_wait
    k) (dead_link k) (incr k) (snd_queue k) (rcv_queue k) (snd_buf k) (rcv_buf k) (acklist k)
    (ackcount k) (ackblock k) (fastresend k) (nocwnd k) (stream k) (bufsize k) (output k) (sent
    k).
Definition set_rx_minrto (v : Z) (k : IKCPCB) : IKCPCB :=
  MkCB (conv k) (mtu k) (mss k) (state k) (snd_una k) (snd_nxt k) (rcv_nxt k) (ts_recent k)
    (ts_lastack k) (ssthresh k) (rx_rttval k) (rx_srtt k) (rx_rto k) v (snd_wnd k) (rcv_wnd k)
    (rmt_wnd k) (cwnd k) (probe k) (current k) (interval k) (ts_flush k) (xmit k) (nrcv_buf k)
    (nsnd_buf k) (nrcv_que k) (nsnd_que k) (nodelay k) (updated k) (ts_probe k) (probe_wait k)
    (dead_link k) (incr k) (snd_queue k) (rcv_queue k) (snd_buf k) (rcv_buf k) (acklist k)
    (ackcount k) (ackblock k) (fastresend k) (nocwnd k) (stream k) (bufsize k) (output k) (sent
    k).
Definition set_snd_wnd (v : Z) (k : IKCPCB) : IKCPCB :=
  MkCB (conv k) (mtu k) (mss k) (state k) (snd_una k) (snd_nxt k) (rcv_nxt k) (ts_recent k)
    (ts_lastack k) (ssthresh k) (rx_rttval k) (rx_srtt k) (rx_rto k) (rx_minrto k) v (rcv_wnd k)
    (rmt_wnd k) (cwnd k) (probe k) (current k) (interval k) (ts_flush k) (xmit k) (nrcv_buf k)
    (nsnd_buf k) (nrcv_que k) (nsnd_que k) (nodelay k) (updated k) (ts_probe k) (probe_wait k)
    (dead_link k) (incr k) (snd_queue k) (rcv_queue k) (snd_buf k) (rcv_buf k) (acklist k)
    (ackcount k) (ackblock k) (fastresend k) (nocwnd k) (stream k) (bufsize k) (output k) (sent
    k).
Definition set_rcv_wnd (v : Z) (k : IKCPCB) : IKCPCB :=
  MkCB (conv k) (mtu k) (mss k) (state k) (snd_una k) (snd_nxt k) (rcv_nxt k) (ts_recent k)
    (ts_lastack k) (ssthresh k) (rx_rttval k) (rx_srtt k) (rx_rto k) (rx_minrto k) (snd_wnd k) v
    (rmt_wnd k) (cwnd k) (probe k) (current k) (interval k) (ts_flush k) (xmit k) (nrcv_buf k)
    (nsnd_buf k) (nrcv_que k) (nsnd_que k) (nodelay k) (updated k) (ts_probe k) (probe_wait k)
    (dead_link k) (incr k) (snd_queue k) (rcv_queue k) (snd_buf k) (rcv_buf k) (acklist k)
    (ackcount k) (ackblock k) (fastresend k) (nocwnd k) (stream k) (bufsize k) (output k) (sent
    k).
Definition set_rmt_wnd (v : Z) (k : IKCPCB) : IKCPCB :=
  MkCB (conv k) (mtu k) (mss k) (state k) (snd_una k) (snd_nxt k) (rcv_nxt k) (ts_recent k)
    (ts_lastack k) (ssthresh k) (rx_rttval k) (rx_srtt k) (rx_rto k) (rx_minrto k) (snd_wnd k)
    (rcv_wnd k) v (cwnd k) (probe k) (current k) (interval k) (ts_flush k) (xmit k) (nrcv_buf k)
    (nsnd_buf k) (nrcv_que k) (nsnd_que k) (nodelay k) (updated k) (ts_probe k) (probe_wait k)
    (dead_link k) (incr k) (snd_queue k) (rcv_queue k) (snd_buf k) (rcv_buf k) (acklist k)
    (ackcount k) (ackblock k) (fastresend k) (nocwnd k) (stream k) (bufsize k) (output k) (sent
    k).
Definition set_cwnd (v : Z) (k : IKCPCB) : IKCPCB :=
  MkCB (conv k) (mtu k) (mss k) (state k) (snd_una k) (snd_nxt k) (rcv_nxt k) (ts_recent k)
    (ts_lastack k) (ssthresh k) (rx_rttval k) (rx_srtt k) (rx_rto k) (rx_minrto k) (snd_wnd k)
    (rcv_wnd k) (rmt_wnd k) v (probe k) (current k) (interval k) (ts_flush k) (xmit k) (nrcv_buf
    k) (nsnd_buf k) (nrcv_que k) (nsnd_que k) (nodelay k) (updated k) (ts_probe k) (probe_wait
    k) (dead_link k) (incr k) (snd_queue k) (rcv_queue k) (snd_buf k) (rcv_buf k) (acklist k)
    (ackcount k) (ackblock k) (fastresend k) (nocwnd k) (stream k) (bufsize k) (output k) (sent
    k).
Definition set_probe (v : Z) (k : IKCPCB) : IKCPCB :=
  MkCB (conv k) (mtu k) (mss k) (state k) (snd_una k) (snd_nxt k) (rcv_nxt k) (ts_recent k)
    (ts_lastack k) (ssthresh k) (rx_rttval k) (rx_srtt k) (rx_rto k) (rx_minrto k) (snd_wnd k)
    (rcv_wnd k) (rmt_wnd k) (cwnd k) v (current k) (interval k) (ts_flush k) (xmit k) (nrcv_buf
    k) (nsnd_buf k) (nrcv_que k) (nsnd_que k) (nodelay k) (updated k) (ts_probe k) (probe_wait
    k) (dead_link k) (incr k) (snd_queue k) (rcv_queue k) (snd_buf k) (rcv_buf k) (acklist k)
    (ackcount k) (ackblock k) (fastresend k) (nocwnd k) (stream k) (bufsize k) (output k) (sent
    k).
Definition set_current (v : Z) (k : IKCPCB) : IKCPCB :=
  MkCB (conv k) (mtu k) (mss k) (state k) (snd_una k) (snd_nxt k) (rcv_nxt k) (ts_recent k)
    (ts_lastack k) (ssthresh k) (rx_rttval k) (rx_srtt k) (rx_rto k) (rx_minrto k) (snd_wnd k)
    (rcv_wnd k) (rmt_wnd k) (cwnd k) (probe k) v (interval k) (ts_flush k) (xmit k) (nrcv_buf k)
    (nsnd_buf k) (nrcv_que k) (nsnd_que k) (nodelay k) (updated k) (ts_probe k) (probe_wait k)
    (dead_link k) (incr k) (snd_queue k) (rcv_queue k) (snd_buf k) (rcv_buf k) (acklist k)
    (ackcount k) (ackblock k) (fastresend k) (nocwnd k) (stream k) (bufsize k) (output k) (sent
    k).
Definition set_interval (v : Z) (k : IKCPCB) : IKCPCB :=
  MkCB (conv k) (mtu k) (mss k) (state k) (snd_una k) (snd_nxt k) (rcv_nxt k) (ts_recent k)
    (ts_lastack k) (ssthresh k) (rx_rttval k) (rx_srtt k) (rx_rto k) (rx_minrto k) (snd_wnd k)
    (rcv_wnd k) (rmt_wnd k) (cwnd k) (probe k) (current k) v (ts_flush k) (xmit k) (nrcv_buf k)
    (nsnd_buf k) (nrcv_que k) (nsnd_que k) (nodelay k) (updated k) (ts_probe k) (probe_wait k)
    (dead_link k) (incr k) (snd_queue k) (rcv_queue k) (snd_buf k) (rcv_buf k) (acklist k)
    (ackcount k) (ackblock k) (fastresend k) (nocwnd k) (stream k) (bufsize k) (output k) (sent
    k).
Definition set_ts_flush (v : Z) (k : IKCPCB) : IKCPCB :=
  MkCB (conv k) (mtu k) (mss k) (state k) (snd_una k) (snd_nxt k) (rcv_nxt k) (ts_recent k)
    (ts_lastack k) (ssthresh k) (rx_rttval k) (rx_srtt k) (rx_rto k) (rx_minrto k) (snd_wnd k)
    (rcv_wnd k) (rmt_wnd k) (cwnd k) (probe k) (current k) (interval k) v (xmit k) (nrcv_buf k)
    (nsnd_buf k) (nrcv_que k) (nsnd_que k) (nodelay k) (updated k) (ts_probe k) (probe_wait k)
    (dead_link k) (incr k) (snd_queue k) (rcv_queue k) (snd_buf k) (rcv_buf k) (acklist k)
    (ackcount k) (ackblock k) (fastresend k) (nocwnd k) (stream k) (bufsize k) (output k) (sent
    k).
Definition set_xmit (v : Z) (k : IKCPCB) : IKCPCB :=
  MkCB (conv k) (mtu k) (mss k) (state k) (snd_una k) (snd_nxt k) (rcv_nxt k) (ts_recent k)
    (ts_lastack k) (ssthresh k) (rx_rttval k) (rx_srtt k) (rx_rto k) (rx_minrto k) (snd_wnd k)
    (rcv_wnd k) (rmt_wnd k) (cwnd k) (probe k) (current k) (interval k) (ts_flush k) v (nrcv_buf
    k) (nsnd_buf k) (nrcv_que k) (nsnd_que k) (nodelay k) (updated k) (ts_probe k) (probe_wait
    k) (dead_link k) (incr k) (snd_queue k) (rcv_queue k) (snd_buf k) (rcv_buf k) (acklist k)
    (ackcount k) (ackblock k) (fastresend k) (nocwnd k) (stream k) (bufsize k) (output k) (sent
    k).
Definition set_nrcv_buf (v : Z) (k : IKCPCB) : IKCPCB :=
  MkCB (conv k) (mtu k) (mss k) (state k) (snd_una k) (snd_nxt k) (rcv_nxt k) (ts_recent k)
    (ts_lastack k) (ssthresh k) (rx_rttval k) (rx_srtt k) (rx_rto k) (rx_minrto k) (snd_wnd k)
    (rcv_wnd k) (rmt_wnd k) (cwnd k) (probe k) (current k) (interval k) (ts_flush k) (xmit k) v
    (nsnd_buf k) (nrcv_que k) (nsnd_que k) (nodelay k) (updated k) (ts_probe k) (probe_wait k)
    (dead_link k) (incr k) (snd_queue k) (rcv_queue k) (snd_buf k) (rcv_buf k) (acklist k)
    (ackcount k) (ackblock k) (fastresend k) (nocwnd k) (stream k) (bufsize k) (output k) (sent
    k).
Definition set_nsnd_buf (v : Z) (k : IKCPCB) : IKCPCB :=
  MkCB (conv k) (mtu k) (mss k) (state k) (snd_una k) (snd_nxt k) (rcv_nxt k) (ts_recent k)
    (ts_lastack k) (ssthresh k) (rx_rttval k) (rx_srtt k) (rx_rto k) (rx_minrto k) (snd_wnd k)
    (rcv_wnd k) (rmt_wnd k) (cwnd k) (probe k) (current k) (interval k) (ts_flush k) (xmit k)
    (nrcv_buf k) v (nrcv_que k) (nsnd_que k) (nodelay k) (updated k) (ts_probe k) (probe_wait k)
    (dead_link k) (incr k) (snd_queue k) (rcv_queue k) (snd_buf k) (rcv_buf k) (acklist k)
    (ackcount k) (ackblock k) (fastresend k) (nocwnd k) (stream k) (bufsize k) (output k) (sent
    k).
Definition set_nrcv_que (v : Z) (k : IKCPCB) : IKCPCB :=
  MkCB (conv k) (mtu k) (mss k) (state k) (snd_una k) (snd_nxt k) (rcv_nxt k) (ts_recent k)
    (ts_lastack k) (ssthresh k) (rx_rttval k) (rx_srtt k) (rx_rto k) (rx_minrto k) (snd_wnd k)
    (rcv_wnd k) (rmt_wnd k) (cwnd k) (probe k) (current k) (interval k) (ts_flush k) (xmit k)
    (nrcv_buf k) (nsnd_buf k) v (nsnd_que k) (nodelay k) (updated k) (ts_probe k) (probe_wait k)
    (dead_link k) (incr k) (snd_queue k) (rcv_queue k) (snd_buf k) (rcv_buf k) (acklist k)
    (ackcount k) (ackblock k) (fastresend k) (nocwnd k) (stream k) (bufsize k) (output k) (sent
    k).
Definition set_nsnd_que (v : Z) (k : IKCPCB) : IKCPCB :=
  MkCB (conv k) (mtu k) (mss k) (state k) (snd_una k) (snd_nxt k) (rcv_nxt k) (ts_recent k)
    (ts_lastack k) (ssthresh k) (rx_rttval k) (rx_srtt k) (rx_rto k) (rx_minrto k) (snd_wnd k)
    (rcv_wnd k) (rmt_wnd k) (cwnd k) (probe k) (current k) (interval k) (ts_flush k) (xmit k)
    (nrcv_buf k) (nsnd_buf k) (nrcv_que k) v (nodelay k) (updated k) (ts_probe k) (probe_wait k)
    (dead_link k) (incr k) (snd_queue k) (rcv_queue k) (snd_buf k) (rcv_buf k) (acklist k)
    (ackcount k) (ackblock k) (fastresend k) (nocwnd k) (stream k) (bufsize k) (output k) (sent
    k).
Definition set_nodelay (v : Z) (k : IKCPCB) : IKCPCB :=
  MkCB (conv k) (mtu k) (mss k) (state k) (snd_una k) (snd_nxt k) (rcv_nxt k) (ts_recent k)
    (ts_lastack k) (ssthresh k) (rx_rttval k) (rx_srtt k) (rx_rto k) (rx_minrto k) (snd_wnd k)
    (rcv_wnd k) (rmt_wnd k) (cwnd k) (probe k) (current k) (interval k) (ts_flush k) (xmit k)
    (nrcv_buf k) (nsnd_buf k) (nrcv_que k) (nsnd_que k) v (updated k) (ts_probe k) (probe_wait
    k) (dead_link k) (incr k) (snd_queue k) (rcv_queue k) (snd_buf k) (rcv_buf k) (acklist k)
    (ackcount k) (ackblock k) (fastresend k) (nocwnd k) (stream k) (bufsize k) (output k) (sent
    k).
Definition set_updated (v : Z) (k : IKCPCB) : IKCPCB :=
  MkCB (conv k) (mtu k) (mss k) (state k) (snd_una k) (snd_nxt k) (rcv_nxt k) (ts_recent k)
    (ts_lastack k) (ssthresh k) (rx_rttval k) (rx_srtt k) (rx_rto k) (rx_minrto k) (snd_wnd k)
    (rcv_wnd k) (rmt_wnd k) (cwnd k) (probe k) (current k) (interval k) (ts_flush k) (xmit k)
    (nrcv_buf k) (nsnd_buf k) (nrcv_que k) (nsnd_que k) (nodelay k) v (ts_probe k) (probe_wait
    k) (dead_link k) (incr k) (snd_queue k) (rcv_queue k) (snd_buf k) (rcv_buf k) (acklist k)
    (ackcount k) (ackblock k) (fastresend k) (nocwnd k) (stream k) (bufsize k) (output k) (sent
    k).
Definition set_ts_probe (v : Z) (k : IKCPCB) : IKCPCB :=
  MkCB (conv k) (mtu k) (mss k) (state k) (snd_una k) (snd_nxt k) (rcv_nxt k) (ts_recent k)
    (ts_lastack k) (ssthresh k) (rx_rttval k) (rx_srtt k) (rx_rto k) (rx_minrto k) (snd_wnd k)
    (rcv_wnd k) (rmt_wnd k) (cwnd k) (probe k) (current k) (interval k) (ts_flush k) (xmit k)
    (nrcv_buf k) (nsnd_buf k) (nrcv_que k) (nsnd_que k) (nodelay k) (updated k) v (probe_wait k)
    (dead_link k) (incr k) (snd_queue k) (rcv_queue k) (snd_buf k) (rcv_buf k) (acklist k)
    (ackcount k) (ackblock k) (fastresend k) (nocwnd k) (stream k) (bufsize k) (output k) (sent
    k).
Definition set_probe_wait (v : Z) (k : IKCPCB) : IKCPCB :=
  MkCB (conv k) (mtu k) (mss k) (state k) (snd_una k) (snd_nxt k) (rcv_nxt k) (ts_recent k)
    (ts_lastack k) (ssthresh k) (rx_rttval k) (rx_srtt k) (rx_rto k) (rx_minrto k) (snd_wnd k)
    (rcv_wnd k) (rmt_wnd k) (cwnd k) (probe k) (current k) (interval k) (ts_flush k) (xmit k)
    (nrcv_buf k) (nsnd_buf k) (nrcv_que k) (nsnd_que k) (nodelay k) (updated k) (ts_probe k) v
    (dead_link k) (incr k) (snd_queue k) (rcv_queue k) (snd_buf k) (rcv_buf k) (acklist k)
    (ackcount k) (ackblock k) (fastresend k) (nocwnd k) (stream k) (bufsize k) (output k) (sent
    k).
Definition set_dead_link (v : Z) (k : IKCPCB) : IKCPCB :=
  MkCB (conv k) (mtu k) (mss k) (state k) (snd_una k) (snd_nxt k) (rcv_nxt k) (ts_recent k)
    (ts_lastack k) (ssthresh k) (rx_rttval k) (rx_srtt k) (rx_rto k) (rx_minrto k) (snd_wnd k)
    (rcv_wnd k) (rmt_wnd k) (cwnd k) (probe k) (current k) (interval k) (ts_flush k) (xmit k)
    (nrcv_buf k) (nsnd_buf k) (nrcv_que k) (nsnd_que k) (nodelay k) (updated k) (ts_probe k)
    (probe_wait k) v (incr k) (snd_queue k) (rcv_queue k) (snd_buf k) (rcv_buf k) (acklist k)
    (ackcount k) (ackblock k) (fastresend k) (nocwnd k) (stream k) (bufsize k) (output k) (sent
    k).
Definition set_incr (v : Z) (k : IKCPCB) : IKCPCB :=
  MkCB (conv k) (mtu k) (mss k) (state k) (snd_una k) (snd_nxt k) (rcv_nxt k) (ts_recent k)
    (ts_lastack k) (ssthresh k) (rx_rttval k) (rx_srtt k) (rx_rto k) (rx_minrto k) (snd_wnd k)
    (rcv_wnd k) (rmt_wnd k) (cwnd k) (probe k) (current k) (interval k) (ts_flush k) (xmit k)
    (nrcv_buf k) (nsnd_buf k) (nrcv_que k) (nsnd_que k) (nodelay k) (updated k) (ts_probe k)
    (probe_wait k) (dead_link k) v (snd_queue k) (rcv_queue k) (snd_buf k) (rcv_buf k) (acklist
    k) (ackcount k) (ackblock k) (fastresend k) (nocwnd k) (stream k) (bufsize k) (output k)
    (sent k).
Definition set_snd_queue (v : list IKCPSEG) (k : IKCPCB) : IKCPCB :=
  MkCB (conv k) (mtu k) (mss k) (state k) (snd_una k) (snd_nxt k) (rcv_nxt k) (ts_recent k)
    (ts_lastack k) (ssthresh k) (rx_rttval k) (rx_srtt k) (rx_rto k) (rx_minrto k) (snd_wnd k)
    (rcv_wnd k) (rmt_wnd k) (cwnd k) (probe k) (current k) (interval k) (ts_flush k) (xmit k)
    (nrcv_buf k) (nsnd_buf k) (nrcv_que k) (nsnd_que k) (nodelay k) (updated k) (ts_probe k)
    (probe_wait k) (dead_link k) (incr k) v (rcv_queue k) (snd_buf k) (rcv_buf k) (acklist k)
    (ackcount k) (ackblock k) (fastresend k) (nocwnd k) (stream k) (bufsize k) (output k) (sent
    k).
Definition set_rcv_queue (v : list IKCPSEG) (k : IKCPCB) : IKCPCB :=
  MkCB (conv k) (mtu k) (mss k) (state k) (snd_una k) (snd_nxt k) (rcv_nxt k) (ts_recent k)
    (ts_lastack k) (ssthresh k) (rx_rttval k) (rx_srtt k) (rx_rto k) (rx_minrto k) (snd_wnd k)
    (rcv_wnd k) (rmt_wnd k) (cwnd k) (probe k) (current k) (interval k) (ts_flush k) (xmit k)
    (nrcv_buf k) (nsnd_buf k) (nrcv_que k) (nsnd_que k) (nodelay k) (updated k) (ts_probe k)
    (probe_wait k) (dead_link k) (incr k) (snd_queue k) v (snd_buf k) (rcv_buf k) (acklist k)
    (ackcount k) (ackblock k) (fastresend k) (nocwnd k) (stream k) (bufsize k) (output k) (sent
    k).
Definition set_snd_buf (v : list IKCPSEG) (k : IKCPCB) : IKCPCB :=
  MkCB (conv k) (mtu k) (mss k) (state k) (snd_una k) (snd_nxt k) (rcv_nxt k) (ts_recent k)
    (ts_lastack k) (ssthresh k) (rx_rttval k) (rx_srtt k) (rx_rto k) (rx_minrto k) (snd_wnd k)
    (rcv_wnd k) (rmt_wnd k) (cwnd k) (probe k) (current k) (interval k) (ts_flush k) (xmit k)
    (nrcv_buf k) (nsnd_buf k) (nrcv_que k) (nsnd_que k) (nodelay k) (updated k) (ts_probe k)
    (probe_wait k) (dead_link k) (incr k) (snd_queue k) (rcv_queue k) v (rcv_buf k) (acklist k)
    (ackcount k) (ackblock k) (fastresend k) (nocwnd k) (stream k) (bufsize k) (output k) (sent
    k).
Definition set_rcv_buf (v : list IKCPSEG) (k : IKCPCB) : IKCPCB :=
  MkCB (conv k) (mtu k) (mss k) (state k) (snd_una k) (snd_nxt k) (rcv_nxt k) (ts_recent k)
    (ts_lastack k) (ssthresh k) (rx_rttval k) (rx_srtt k) (rx_rto k) (rx_minrto k) (snd_wnd k)
    (rcv_wnd k) (rmt_wnd k) (cwnd k) (probe k) (current k) (interval k) (ts_flush k) (xmit k)
    (nrcv_buf k) (nsnd_buf k) (nrcv_que k) (nsnd_que k) (nodelay k) (updated k) (ts_probe k)
    (probe_wait k) (dead_link k) (incr k) (snd_queue k) (rcv_queue k) (snd_buf k) v (acklist k)
    (ackcount k) (ackblock k) (fastresend k) (nocwnd k) (stream k) (bufsize k) (output k) (sent
    k).
Definition set_acklist (v : list (Z * Z)) (k : IKCPCB) : IKCPCB :=
  MkCB (conv k) (mtu k) (mss k) (state k) (snd_una k) (snd_nxt k) (rcv_nxt k) (ts_recent k)
    (ts_lastack k) (ssthresh k) (rx_rttval k) (rx_srtt k) (rx_rto k) (rx_minrto k) (snd_wnd k)
    (rcv_wnd k) (rmt_wnd k) (cwnd k) (probe k) (current k) (interval k) (ts_flush k) (xmit k)
    (nrcv_buf k) (nsnd_buf k) (nrcv_que k) (nsnd_que k) (nodelay k) (updated k) (ts_probe k)
    (probe_wait k) (dead_link k) (incr k) (snd_queue k) (rcv_queue k) (snd_buf k) (rcv_buf k) v
    (ackcount k) (ackblock k) (fastresend k) (nocwnd k) (stream k) (bufsize k) (output k) (sent
    k).
Definition set_ackcount (v : Z) (k : IKCPCB) : IKCPCB :=
  MkCB (conv k) (mtu k) (mss k) (state k) (snd_una k) (snd_nxt k) (rcv_nxt k) (ts_recent k)
    (ts_lastack k) (ssthresh k) (rx_rttval k) (rx_srtt k) (rx_rto k) (rx_minrto k) (snd_wnd k)
    (rcv_wnd k) (rmt_wnd k) (cwnd k) (probe k) (current k) (interval k) (ts_flush k) (xmit k)
    (nrcv_buf k) (nsnd_buf k) (nrcv_que k) (nsnd_que k) (nodelay k) (updated k) (ts_probe k)
    (probe_wait k) (dead_link k) (incr k) (snd_queue k) (rcv_queue k) (snd_buf k) (rcv_buf k)
    (acklist k) v (ackblock k) (fastresend k) (nocwnd k) (stream k) (bufsize k) (output k) (sent
    k).
Definition set_ackblock (v : Z) (k : IKCPCB) : IKCPCB :=
  MkCB (conv k) (mtu k) (mss k) (state k) (snd_una k) (snd_nxt k) (rcv_nxt k) (ts_recent k)
    (ts_lastack k) (ssthresh k) (rx_rttval k) (rx_srtt k) (rx_rto k) (rx_minrto k) (snd_wnd k)
    (rcv_wnd k) (rmt_wnd k) (cwnd k) (probe k) (current k) (interval k) (ts_flush k) (xmit k)
    (nrcv_buf k) (nsnd_buf k) (nrcv_que k) (nsnd_que k) (nodelay k) (updated k) (ts_probe k)
    (probe_wait k) (dead_link k) (incr k) (snd_queue k) (rcv_queue k) (snd_buf k) (rcv_buf k)
    (acklist k) (ackcount k) v (fastresend k) (nocwnd k) (stream k) (bufsize k) (output k) (sent
    k).
Definition set_fastresend (v : Z) (k : IKCPCB) : IKCPCB :=
  MkCB (conv k) (mtu k) (mss k) (state k) (snd_una k) (snd_nxt k) (rcv_nxt k) (ts_recent k)
    (ts_lastack k) (ssthresh k) (rx_rttval k) (rx_srtt k) (rx_rto k) (rx_minrto k) (snd_wnd k)
    (rcv_wnd k) (rmt_wnd k) (cwnd k) (probe k) (current k) (interval k) (ts_flush k) (xmit k)
    (nrcv_buf k) (nsnd_buf k) (nrcv_que k) (nsnd_que k) (nodelay k) (updated k) (ts_probe k)
    (probe_wait k) (dead_link k) (incr k) (snd_queue k) (rcv_queue k) (snd_buf k) (rcv_buf k)
    (acklist k) (ackcount k) (ackblock k) v (nocwnd k) (stream k) (bufsize k) (output k) (sent
    k).
Definition set_nocwnd (v : Z) (k : IKCPCB) : IKCPCB :=
  MkCB (conv k) (mtu k) (mss k) (state k) (snd_una k) (snd_nxt k) (rcv_nxt k) (ts_recent k)
    (ts_lastack k) (ssthresh k) (rx_rttval k) (rx_srtt k) (rx_rto k) (rx_minrto k) (snd_wnd k)
    (rcv_wnd k) (rmt_wnd k) (cwnd k) (probe k) (current k) (interval k) (ts_flush k) (xmit k)
    (nrcv_buf k) (nsnd_buf k) (nrcv_que k) (nsnd_que k) (nodelay k) (updated k) (ts_probe k)
    (probe_wait k) (dead_link k) (incr k) (snd_queue k) (rcv_queue k) (snd_buf k) (rcv_buf k)
    (acklist k) (ackcount k) (ackblock k) (fastresend k) v (stream k) (bufsize k) (output k)
    (sent k).
Definition set_stream (v : Z) (k : IKCPCB) : IKCPCB :=
  MkCB (conv k) (mtu k) (mss k) (state k) (snd_una k) (snd_nxt k) (rcv_nxt k) (ts_recent k)
    (ts_lastack k) (ssthresh k) (rx_rttval k) (rx_srtt k) (rx_rto k) (rx_minrto k) (snd_wnd k)
    (rcv_wnd k) (rmt_wnd k) (cwnd k) (probe k) (current k) (interval k) (ts_flush k) (xmit k)
    (nrcv_buf k) (nsnd_buf k) (nrcv_que k) (nsnd_que k) (nodelay k) (updated k) (ts_probe k)
    (probe_wait k) (dead_link k) (incr k) (snd_queue k) (rcv_queue k) (snd_buf k) (rcv_buf k)
    (acklist k) (ackcount k) (ackblock k) (fastresend k) (nocwnd k) v (bufsize k) (output k)
    (sent k).
Definition set_bufsize (v : Z) (k : IKCPCB) : IKCPCB :=
  MkCB (conv k) (mtu k) (mss k) (state k) (snd_una k) (snd_nxt k) (rcv_nxt k) (ts_recent k)
    (ts_lastack k) (ssthresh k) (rx_rttval k) (rx_srtt k) (rx_rto k) (rx_minrto k) (snd_wnd k)
    (rcv_wnd k) (rmt_wnd k) (cwnd k) (probe k) (current k) (interval k) (ts_flush k) (xmit k)
    (nrcv_buf k) (nsnd_buf k) (nrcv_que k) (nsnd_que k) (nodelay k) (updated k) (ts_probe k)
    (probe_wait k) (dead_link k) (incr k) (snd_queue k) (rcv_queue k) (snd_buf k) (rcv_buf k)
    (acklist k) (ackcount k) (ackblock k) (fastresend k) (nocwnd k) (stream k) v (output k)
    (sent k).
Definition set_output (v : bool) (k : IKCPCB) : IKCPCB :=
  MkCB (conv k) (mtu k) (mss k) (state k) (snd_una k) (snd_nxt k) (rcv_nxt k) (ts_recent k)
    (ts_lastack k) (ssthresh k) (rx_rttval k) (rx_srtt k) (rx_rto k) (rx_minrto k) (snd_wnd k)
    (rcv_wnd k) (rmt_wnd k) (cwnd k) (probe k) (current k) (interval k) (ts_flush k) (xmit k)
    (nrcv_buf k) (nsnd_buf k) (nrcv_que k) (nsnd_que k) (nodelay k) (updated k) (ts_probe k)
    (probe_wait k) (dead_link k) (incr k) (snd_queue k) (rcv_queue k) (snd_buf k) (rcv_buf k)
    (acklist k) (ackcount k) (ackblock k) (fastresend k) (nocwnd k) (stream k) (bufsize k) v
    (sent k).
Definition set_sent (v : list bytes) (k : IKCPCB) : IKCPCB :=
  MkCB (conv k) (mtu k) (mss k) (state k) (snd_una k) (snd_nxt k) (rcv_nxt k) (ts_recent k)
    (ts_lastack k) (ssthresh k) (rx_rttval k) (rx_srtt k) (rx_rto k) (rx_minrto k) (snd_wnd k)
    (rcv_wnd k) (rmt_wnd k) (cwnd k) (probe k) (current k) (interval k) (ts_flush k) (xmit k)
    (nrcv_buf k) (nsnd_buf k) (nrcv_que k) (nsnd_que k) (nodelay k) (updated k) (ts_probe k)
    (probe_wait k) (dead_link k) (incr k) (snd_queue k) (rcv_queue k) (snd_buf k) (rcv_buf k)
    (acklist k) (ackcount k) (ackblock k) (fastresend k) (nocwnd k) (stream k) (bufsize k)
    (output k) v.

(** ** Constants *)

Definition IKCP_RTO_NDL := 30.
Definition IKCP_RTO_MIN := 100.
Definition IKCP_RTO_DEF := 200.
Definition IKCP_RTO_MAX := 60000.
Definition IKCP_CMD_PUSH := 81.
Definition IKCP_CMD_ACK := 82.
Definition IKCP_CMD_WASK := 83.
Definition IKCP_CMD_WINS := 84.
Definition IKCP_ASK_SEND := 1.
Definition IKCP_ASK_TELL := 2.
Definition IKCP_WND_SND := 32.
Definition IKCP_WND_RCV := 128.
Definition IKCP_MTU_DEF := 1400.
Definition IKCP_INTERVAL := 17.
Definition IKCP_DEADLINK := 20.
Definition IKCP_THRESH_INIT := 2.
Definition IKCP_THRESH_MIN := 2.
Definition IKCP_PROBE_INIT := 7000.
Definition IKCP_PROBE_LIMIT := 120000.

(** The bytes that the code counts for a segment header.  It writes 36; the
    copy of these files in src/test_uv_4 has the same code with another
    number. *)
Class Overhead := IKCP_OVERHEAD : Z.
#[export] Instance Overhead_36 : Overhead := 36.

(** ** Arithmetic helpers *)

Definition imin (a b : Z) : Z := if a <=? b then a else b.
Definition imax (a b : Z) : Z := if b <=? a then a else b.
Definition ibound (lower middle upper : Z) : Z := imin (imax lower middle) upper.

(** [(int)(later - earlier)] of two [uint32_t]. *)
Definition itimediff (later earlier : Z) : Z := i32 (u32 (later - earlier)).

(** ** Wire format *)

Definition ikcp_encode8u (c : Z) : bytes := le_bytes 1 (u8 c).
Definition ikcp_encode16u (w : Z) : bytes := le_bytes 2 (u16 w).
Definition ikcp_encode32u (l : Z) : bytes := le_bytes 4 (u32 l).
Definition ikcp_encodeGuid (g : Guid) : bytes := Guid_bytes g.

(** The decoders return the value and the rest; too few bytes is a read out of
    bounds. *)
Definition decode_le (n : nat) (p : bytes) : option (Z * bytes) :=
  match zslice p 0 (Z.of_nat n) with
  | Some bs => Some (le_val bs, drop n p)
  | None => None
  end.
Definition ikcp_decode8u := decode_le 1.
Definition ikcp_decode16u := decode_le 2.
Definition ikcp_decode32u := decode_le 4.
Definition ikcp_decodeGuid (p : bytes) : option (Guid * bytes) :=
  match Fill p with Some g => Some (g, drop 16 p) | None => None end.

(** [ikcp_encode_seg]: the 36-byte header, narrowing as the casts do. *)
Definition ikcp_encode_seg (s : IKCPSEG) : bytes :=
  ikcp_encodeGuid (seg_conv s) ++ ikcp_encode8u (cmd s) ++ ikcp_encode8u (frg s) ++
  ikcp_encode16u (wnd s) ++ ikcp_encode32u (ts s) ++ ikcp_encode32u (sn s) ++
  ikcp_encode32u (una s) ++ ikcp_encode32u (slen s).

(** The header fields in the order [ikcp_input] decodes them. *)
Record header := MkHdr {
  h_conv : Guid; h_cmd : Z; h_frg : Z; h_wnd : Z;
  h_ts : Z; h_sn : Z; h_una : Z; h_len : Z
}.

Definition ikcp_decode_seg (p : bytes) : option (header * bytes) :=
  '(conv, p) ← ikcp_decodeGuid p;
  '(cmd, p) ← ikcp_decode8u p;
  '(frg, p) ← ikcp_decode8u p;
  '(wnd, p) ← ikcp_decode16u p;
  '(ts, p) ← ikcp_decode32u p;
  '(sn, p) ← ikcp_decode32u p;
  '(una, p) ← ikcp_decode32u p;
  '(len, p) ← ikcp_decode32u p;
  Some (MkHdr conv cmd frg wnd ts sn una len, p).
