(* ===== verification/KcpOps.v ===== *)
(** * ikcp.h: the operations of a KCP connection

    One definition per function of the source.  Functions that can only change
    the control block are pure; those that return an [int] code, call the
    output callback or touch raw memory run in the outcome monad over
    [IKCPCB].  [malloc n] says whether an allocation of [n] bytes succeeds. *)

From Stdlib Require Import ZArith Lia.
From stdpp Require Import base numbers list gmap.
From S2P Require Import Prelude Util KcpState.
Open Scope Z_scope.

Section kcp.
Context {overhead : Overhead}.

(** ** Creation, release and settings *)

Definition sizeof_IKCPCB := 272.
Definition sizeof_IKCPSEG := 80.

Definition ikcp_create (malloc : Z -> bool) (cnv : Guid) : option IKCPCB :=
  if malloc sizeof_IKCPCB then
    let mtu := IKCP_MTU_DEF in
    if malloc ((mtu + IKCP_OVERHEAD) * 3) then
      Some {| conv := cnv; snd_una := 0; snd_nxt := 0; rcv_nxt := 0; ts_recent := 0;
              ts_lastack := 0; ts_probe := 0; probe_wait := 0; snd_wnd := IKCP_WND_SND;
              rcv_wnd := IKCP_WND_RCV; rmt_wnd := IKCP_WND_RCV; cwnd := 0; incr := 0;
              probe := 0; mtu := mtu; mss := u32 (mtu - IKCP_OVERHEAD); stream := 0;
              bufsize := (mtu + IKCP_OVERHEAD) * 3;
              snd_queue := []; rcv_queue := []; snd_buf := []; rcv_buf := [];
              nrcv_buf := 0; nsnd_buf := 0; nrcv_que := 0; nsnd_que := 0; state := 0;
              acklist := []; ackblock := 0; ackcount := 0; rx_srtt := 0; rx_rttval := 0;
              rx_rto := IKCP_RTO_DEF; rx_minrto := IKCP_RTO_MIN; current := 0;
              interval := IKCP_INTERVAL; ts_flush := IKCP_INTERVAL; nodelay := 0;
              updated := 0; ssthresh := IKCP_THRESH_INIT; fastresend := 0; nocwnd := 0;
              xmit := 0; dead_link := IKCP_DEADLINK; output := false; sent := [] |}
    else None
  else None.

(** [ikcp_release]: the contents of the block just before it is freed. *)
Definition ikcp_release (k : IKCPCB) : IKCPCB :=
  let k := set_snd_buf [] k in
  let k := set_rcv_buf [] k in
  let k := set_snd_queue [] k in
  let k := set_rcv_queue [] k in
  let k := set_nrcv_buf 0 k in
  let k := set_nsnd_buf 0 k in
  let k := set_nrcv_que 0 k in
  let k := set_nsnd_que 0 k in
  let k := set_ackcount 0 k in
  let k := set_bufsize 0 k in
  set_acklist [] k.

Definition ikcp_setoutput (k : IKCPCB) : IKCPCB := set_output true k.

Definition ikcp_setmtu (malloc : Z -> bool) (m : Z) : M IKCPCB unit :=
  _ ← reject_if ((m <? 50) || (m <? IKCP_OVERHEAD)) (-1);
  let n := u32 ((m + IKCP_OVERHEAD) * 3) in
  _ ← reject_if (negb (malloc n)) (-2);
  modify (fun k => set_bufsize n (set_mss (u32 (m - IKCP_OVERHEAD)) (set_mtu m k))).

Definition clamp_interval (i : Z) : Z :=
  if 5000 <? i then 5000 else if i <? 10 then 10 else i.

Definition ikcp_interval (i : Z) (k : IKCPCB) : IKCPCB := set_interval (clamp_interval i) k.

Definition ikcp_nodelay (nd itv resend nc : Z) (k : IKCPCB) : IKCPCB :=
  let k := if 0 <=? nd then
             set_rx_minrto (if nd =? 0 then IKCP_RTO_MIN else IKCP_RTO_NDL) (set_nodelay nd k)
           else k in
  let k := if 0 <=? itv then set_interval (clamp_interval itv) k else k in
  let k := if 0 <=? resend then set_fastresend resend k else k in
  if 0 <=? nc then set_nocwnd nc k else k.

Definition ikcp_wndsize (sndwnd rcvwnd : Z) (k : IKCPCB) : IKCPCB :=
  let k := if 0 <? sndwnd then set_snd_wnd sndwnd k else k in
  if 0 <? rcvwnd then set_rcv_wnd (imax rcvwnd IKCP_WND_RCV) k else k.

Definition ikcp_waitsnd (k : IKCPCB) : Z := i32 (u32 (nsnd_buf k + nsnd_que k)).

(** ** Receiving messages *)

(** The summing loop of [ikcp_peeksize]; [length] is an [int]. *)
Fixpoint peek_loop (q : list IKCPSEG) (length : Z) : Z :=
  match q with
  | [] => length
  | s :: q =>
      let length := i32 (u32 (length + slen s)) in
      if frg s =? 0 then length else peek_loop q length
  end.

Definition ikcp_peeksize (k : IKCPCB) : Z :=
  match rcv_queue k with
  | [] => -1
  | s :: _ =>
      if frg s =? 0 then i32 (slen s)
      else if nrcv_que k <? u32 (frg s + 1) then -1
      else peek_loop (rcv_queue k) 0
  end.

(** The merging loop of [ikcp_recv]: the bytes copied out, their count, the
    queue that is left and the number of segments taken off it. *)
Fixpoint recv_merge (q : list IKCPSEG) : bytes * Z * list IKCPSEG * Z :=
  match q with
  | [] => ([], 0, [], 0)
  | s :: q =>
      if frg s =? 0 then (sdata s, slen s, q, 1)
      else let '(d, n, q', c) := recv_merge q in (sdata s ++ d, slen s + n, q', 1 + c)
  end.

(** [while (!iqueue_is_empty(&kcp->rcv_buf)) ...]: move what is next in order
    from [rcv_buf] to [rcv_queue] while the queue has room. *)
Fixpoint move_loop (fuel : nat) (k : IKCPCB) : IKCPCB :=
  match fuel, rcv_buf k with
  | S fuel, s :: rest =>
      if (sn s =? rcv_nxt k) && (nrcv_que k <? rcv_wnd k) then
        let k := set_rcv_buf rest k in
        let k := set_nrcv_buf (u32 (nrcv_buf k - 1)) k in
        let k := set_rcv_queue (rcv_queue k ++ [s]) k in
        let k := set_nrcv_que (u32 (nrcv_que k + 1)) k in
        move_loop fuel (set_rcv_nxt (u32 (rcv_nxt k + 1)) k)
      else k
  | _, _ => k
  end.

Definition move_available (k : IKCPCB) : IKCPCB := move_loop (length (rcv_buf k)) k.

(** [ikcp_recv] with a buffer of [len] bytes; a negative [len] only peeks.
    Returns the length and the bytes written to the buffer. *)
Definition ikcp_recv (len : Z) : M IKCPCB (Z * bytes) :=
  k ← get;
  _ ← reject_if (match rcv_queue k with [] => true | _ => false end) (-1);
  let ispeek := len <? 0 in
  let len := if len <? 0 then - len else len in
  let peeksize := ikcp_peeksize k in
  _ ← reject_if (peeksize <? 0) (-2);
  _ ← reject_if (len <? peeksize) (-3);
  let recover := rcv_wnd k <=? nrcv_que k in
  let '(d, n, q, c) := recv_merge (rcv_queue k) in
  let k := if ispeek then k
           else set_nrcv_que (u32 (nrcv_que k - c)) (set_rcv_queue q k) in
  _ ← assert_ (n =? peeksize);
  let k := move_available k in
  let k := if (nrcv_que k <? rcv_wnd k) && recover
           then set_probe (Z.lor (probe k) IKCP_ASK_TELL) k else k in
  _ ← put k;
  mret (n, d).

(** ** Sending messages *)

Definition new_seg (d : bytes) (f : Z) : IKCPSEG :=
  MkSeg Guid_zero 0 f 0 0 0 0 0 0 0 0 d.

(** The [for (i = 0; i < count; i++)] loop: [n] fragments are left. *)
Fixpoint fragment_loop (malloc : Z -> bool) (n : nat) (buf : bytes) : M IKCPCB unit :=
  match n with
  | O => mret tt
  | S n =>
      k ← get;
      let size := if i32 (mss k) <? zlen buf then i32 (mss k) else zlen buf in
      _ ← assert_ (malloc (sizeof_IKCPSEG + size));
      let s := new_seg (take (Z.to_nat size) buf)
                       (if stream k =? 0 then Z.of_nat n else 0) in
      _ ← put (set_nsnd_que (u32 (nsnd_que k + 1)) (set_snd_queue (snd_queue k ++ [s]) k));
      fragment_loop malloc n (drop (Z.to_nat size) buf)
  end.

(** Streaming mode: fill up the last queued segment; returns what is left. *)
Definition stream_append (malloc : Z -> bool) (buf : bytes) : M IKCPCB bytes :=
  k ← get;
  match last (snd_queue k) with
  | None => mret buf
  | Some old =>
      if slen old <? mss k then
        let capacity := mss k - slen old in
        let extend := if zlen buf <? capacity then zlen buf else capacity in
        _ ← assert_ (malloc (sizeof_IKCPSEG + slen old + extend));
        let s := new_seg (sdata old ++ take (Z.to_nat extend) buf) 0 in
        _ ← put (set_snd_queue (removelast (snd_queue k) ++ [s]) k);
        mret (drop (Z.to_nat extend) buf)
      else mret buf
  end.

Definition fragment (malloc : Z -> bool) (buf : bytes) : M IKCPCB unit :=
  k ← get;
  let len := zlen buf in
  let count := if len <=? i32 (mss k) then 1
               else i32 (u32 (len + mss k - 1) / mss k) in
  _ ← reject_if (IKCP_WND_RCV <=? u32 count) (-2);
  let count := if count =? 0 then 1 else count in
  fragment_loop malloc (Z.to_nat count) buf.

Definition ikcp_send (malloc : Z -> bool) (buf : bytes) : M IKCPCB unit :=
  k ← get;
  _ ← assert_ (0 <? mss k);
  if stream k =? 0 then fragment malloc buf
  else
    buf ← stream_append malloc buf;
    if zlen buf <=? 0 then mret tt else fragment malloc buf.

(** ** Acknowledgements *)

(** Signed arithmetic is taken to wrap around (a round-trip time of several
    days is needed to leave the range of [int]). *)
Definition ikcp_update_ack (rtt : Z) (k : IKCPCB) : IKCPCB :=
  let k :=
    if rx_srtt k =? 0 then set_rx_rttval (Z.quot rtt 2) (set_rx_srtt rtt k)
    else
      let delta := i32 (rtt - rx_srtt k) in
      let delta := if delta <? 0 then i32 (- delta) else delta in
      let k := set_rx_rttval (Z.quot (i32 (3 * rx_rttval k + delta)) 4) k in
      let k := set_rx_srtt (Z.quot (i32 (7 * rx_srtt k + rtt)) 8) k in
      if rx_srtt k <? 1 then set_rx_srtt 1 k else k in
  let r := i32 (u32 (rx_srtt k + imax (interval k) (u32 (i32 (4 * rx_rttval k))))) in
  set_rx_rto (i32 (ibound (u32 (rx_minrto k)) (u32 r) IKCP_RTO_MAX)) k.

Definition ikcp_shrink_buf (k : IKCPCB) : IKCPCB :=
  match snd_buf k with
  | s :: _ => set_snd_una (sn s) k
  | [] => set_snd_una (snd_nxt k) k
  end.

(** The scan of [snd_buf] for an acknowledged segment: what is left and
    whether a segment was taken out. *)
Fixpoint ack_scan (n : Z) (l : list IKCPSEG) : list IKCPSEG * bool :=
  match l with
  | [] => ([], false)
  | s :: rest =>
      if n =? sn s then (rest, true)
      else if itimediff n (sn s) <? 0 then (l, false)
      else let '(r, b) := ack_scan n rest in (s :: r, b)
  end.

Definition out_of_flight (n : Z) (k : IKCPCB) : bool :=
  (itimediff n (snd_una k) <? 0) || (0 <=? itimediff n (snd_nxt k)).

Definition ikcp_parse_ack (n : Z) (k : IKCPCB) : IKCPCB :=
  if out_of_flight n k then k
  else
    let '(l, removed) := ack_scan n (snd_buf k) in
    let k := set_snd_buf l k in
    if removed then set_nsnd_buf (u32 (nsnd_buf k - 1)) k else k.

Fixpoint una_scan (u : Z) (l : list IKCPSEG) : list IKCPSEG * Z :=
  match l with
  | [] => ([], 0)
  | s :: rest =>
      if 0 <? itimediff u (sn s)
      then let '(r, c) := una_scan u rest in (r, 1 + c)
      else (l, 0)
  end.

Definition ikcp_parse_una (u : Z) (k : IKCPCB) : IKCPCB :=
  let '(l, c) := una_scan u (snd_buf k) in
  set_nsnd_buf (u32 (nsnd_buf k - c)) (set_snd_buf l k).

Definition set_fastack (v : Z) (s : IKCPSEG) : IKCPSEG :=
  MkSeg (seg_conv s) (cmd s) (frg s) (wnd s) (ts s) (sn s) (una s)
        (resendts s) (rto s) v (seg_xmit s) (sdata s).

Fixpoint fastack_scan (n : Z) (l : list IKCPSEG) : list IKCPSEG :=
  match l with
  | [] => []
  | s :: rest =>
      if itimediff n (sn s) <? 0 then l
      else (if negb (n =? sn s) then set_fastack (u32 (fastack s + 1)) s else s)
           :: fastack_scan n rest
  end.

Definition ikcp_parse_fastack (n : Z) (k : IKCPCB) : IKCPCB :=
  if out_of_flight n k then k else set_snd_buf (fastack_scan n (snd_buf k)) k.

(** [for (newblock = 8; newblock < newsize; newblock <<= 1);] *)
Fixpoint newblock_loop (fuel : nat) (newblock newsize : Z) : option Z :=
  match fuel with
  | O => None
  | S fuel => if newblock <? newsize then newblock_loop fuel (u32 (Z.shiftl newblock 1)) newsize
              else Some newblock
  end.

(** [ikcp_ack_push]: grow the array if it is full, then store at [ackcount]. *)
Definition ikcp_ack_push (malloc : Z -> bool) (n t : Z) : M IKCPCB unit :=
  k ← get;
  let newsize := u32 (ackcount k + 1) in
  k ← (if ackblock k <? newsize then
         nb ← demand (newblock_loop 32 8 newsize);
         _ ← assert_ (malloc (nb * 4 * 2));
         mret (set_ackblock nb (set_acklist (take (Z.to_nat (ackcount k)) (acklist k)) k))
       else mret k);
  _ ← assert_ (ackcount k <? ackblock k);
  put (set_ackcount (u32 (ackcount k + 1))
        (set_acklist (take (Z.to_nat (ackcount k)) (acklist k) ++ [(n, t)]) k)).

(** ** Incoming data *)

(** Backward scan of [rcv_buf]: insert after the last segment that precedes
    [newseg]; [None] when its number is already there.  The list is given in
    reverse. *)
Fixpoint insert_rev (newseg : IKCPSEG) (rl : list IKCPSEG) : option (list IKCPSEG) :=
  match rl with
  | [] => Some [newseg]
  | s :: rest =>
      if sn s =? sn newseg then None
      else if 0 <? itimediff (sn newseg) (sn s) then Some (newseg :: rl)
      else match insert_rev newseg rest with
           | Some r => Some (s :: r)
           | None => None
           end
  end.

Definition insert_seg (newseg : IKCPSEG) (l : list IKCPSEG) : option (list IKCPSEG) :=
  match insert_rev newseg (rev l) with
  | Some r => Some (rev r)
  | None => None
  end.

Definition ikcp_parse_data (newseg : IKCPSEG) (k : IKCPCB) : IKCPCB :=
  if (0 <=? itimediff (sn newseg) (u32 (rcv_nxt k + rcv_wnd k))) ||
     (itimediff (sn newseg) (rcv_nxt k) <? 0)
  then k
  else
    let k := match insert_seg newseg (rcv_buf k) with
             | Some l => set_nrcv_buf (u32 (nrcv_buf k + 1)) (set_rcv_buf l k)
             | None => k
             end in
    move_available k.

(** [ikcp_input], command PUSH: acknowledge what is below the window's end and
    keep what is inside the window.  [rest] is the memory after the header. *)
Definition input_push (malloc : Z -> bool) (h : header) (rest : bytes) : M IKCPCB unit :=
  k ← get;
  if itimediff (h_sn h) (u32 (rcv_nxt k + rcv_wnd k)) <? 0 then
    _ ← ikcp_ack_push malloc (h_sn h) (h_ts h);
    k ← get;
    if 0 <=? itimediff (h_sn h) (rcv_nxt k) then
      _ ← assert_ (malloc (u64 (sizeof_IKCPSEG + i32 (h_len h))));
      d ← (if 0 <? h_len h then demand (zslice rest 0 (h_len h)) else mret []);
      modify (ikcp_parse_data
                (MkSeg (h_conv h) (h_cmd h) (h_frg h) (h_wnd h) (h_ts h) (h_sn h) (h_una h)
                       0 0 0 0 d))
    else mret tt
  else mret tt.

(** Command ACK: round-trip time, the acknowledged segment, the highest
    acknowledged number so far ([None]: no ACK yet, [flag == 0]). *)
Definition input_ack (h : header) (maxack : option Z) : M IKCPCB (option Z) :=
  _ ← modify (fun k =>
        if 0 <=? itimediff (current k) (h_ts h)
        then ikcp_update_ack (itimediff (current k) (h_ts h)) k else k);
  _ ← modify (ikcp_parse_ack (h_sn h));
  _ ← modify ikcp_shrink_buf;
  mret (match maxack with
        | None => Some (h_sn h)
        | Some m => if 0 <? itimediff (h_sn h) m then Some (h_sn h) else Some m
        end).

Definition known_cmd (c : Z) : bool :=
  (c =? IKCP_CMD_PUSH) || (c =? IKCP_CMD_ACK) || (c =? IKCP_CMD_WASK) || (c =? IKCP_CMD_WINS).

(** The [while (1)] loop: [data] is the memory from the read pointer on and
    [size] the counter the code keeps of it. *)
Fixpoint input_loop (malloc : Z -> bool) (fuel : nat) (data : bytes) (size : Z)
    (maxack : option Z) : M IKCPCB (option Z) :=
  match fuel with
  | O => undef
  | S fuel =>
      if size <? IKCP_OVERHEAD then mret maxack
      else
        '(h, rest) ← demand (ikcp_decode_seg data);
        k ← get;
        _ ← reject_if (Guid_neqb (h_conv h) (conv k)) (-1);
        let size := i32 (size - IKCP_OVERHEAD) in
        _ ← reject_if (size <? i32 (h_len h)) (-2);
        _ ← reject_if (negb (known_cmd (h_cmd h))) (-3);
        _ ← modify (set_rmt_wnd (h_wnd h));
        _ ← modify (ikcp_parse_una (h_una h));
        _ ← modify ikcp_shrink_buf;
        maxack ← (if h_cmd h =? IKCP_CMD_ACK then input_ack h maxack
                  else if h_cmd h =? IKCP_CMD_PUSH then
                    _ ← input_push malloc h rest; mret maxack
                  else if h_cmd h =? IKCP_CMD_WASK then
                    _ ← modify (fun k => set_probe (Z.lor (probe k) IKCP_ASK_TELL) k);
                    mret maxack
                  else mret maxack);
        _ ← assert_ (h_len h <=? zlen rest);
        input_loop malloc fuel (drop (Z.to_nat (h_len h)) rest) (i32 (size - h_len h)) maxack
  end.

(** Congestion window growth at the end of [ikcp_input], when [snd_una] moved
    past the value [una0] it had on entry. *)
Definition grow_cwnd (una0 : Z) : M IKCPCB unit :=
  k ← get;
  if (0 <? itimediff (snd_una k) una0) && (cwnd k <? rmt_wnd k) then
    let m := mss k in
    k ← (if cwnd k <? ssthresh k then
           mret (set_incr (u32 (incr k + m)) (set_cwnd (u32 (cwnd k + 1)) k))
         else
           let k := if incr k <? m then set_incr m k else k in
           _ ← assert_ (negb (incr k =? 0));
           let k := set_incr (u32 (incr k + u32 (m * m) / incr k + m / 16)) k in
           mret (if u32 (u32 (cwnd k + 1) * m) <=? incr k
                 then set_cwnd (u32 (cwnd k + 1)) k else k));
    put (if rmt_wnd k <? cwnd k
         then set_incr (u32 (rmt_wnd k * m)) (set_cwnd (rmt_wnd k) k) else k)
  else mret tt.

Definition ikcp_input (malloc : Z -> bool) (data : bytes) : M IKCPCB unit :=
  k ← get;
  let una0 := snd_una k in
  let size := zlen data in
  _ ← reject_if (size <? IKCP_OVERHEAD) (-1);
  maxack ← input_loop malloc (S (length data)) data size None;
  _ ← modify (fun k => match maxack with Some m => ikcp_parse_fastack m k | None => k end);
  grow_cwnd una0.

(** ** Output *)

Definition ikcp_wnd_unused (k : IKCPCB) : Z :=
  if nrcv_que k <? rcv_wnd k then u32 (rcv_wnd k - nrcv_que k) else 0.

(** [ikcp_output]: hand a datagram to the callback. *)
Definition ikcp_output (pkt : bytes) : M IKCPCB unit :=
  k ← get;
  _ ← assert_ (output k);
  if zlen pkt =? 0 then mret tt else put (set_sent (sent k ++ [pkt]) k).

(** [if (size + need > (int)kcp->mtu) { ikcp_output(...); ptr = buffer; }];
    [pkt] is what lies between [buffer] and [ptr]. *)
Definition make_room (need : Z) (pkt : bytes) : M IKCPCB bytes :=
  k ← get;
  if i32 (mtu k) <? zlen pkt + need then _ ← ikcp_output pkt; mret []
  else mret pkt.

(** Write at [ptr]; past the allocation it is undefined. *)
Definition emit (bs pkt : bytes) : M IKCPCB bytes :=
  k ← get;
  _ ← assert_ (zlen pkt + zlen bs <=? bufsize k);
  mret (pkt ++ bs).

(** The local [seg] of [ikcp_flush]. *)
Definition flush_seg (k : IKCPCB) : IKCPSEG :=
  MkSeg (conv k) IKCP_CMD_ACK 0 (ikcp_wnd_unused k) 0 0 (rcv_nxt k) 0 0 0 0 [].

Definition set_sn_ts (n t : Z) (s : IKCPSEG) : IKCPSEG :=
  MkSeg (seg_conv s) (cmd s) (frg s) (wnd s) t n (una s)
        (resendts s) (rto s) (fastack s) (seg_xmit s) (sdata s).

Definition set_cmd (c : Z) (s : IKCPSEG) : IKCPSEG :=
  MkSeg (seg_conv s) c (frg s) (wnd s) (ts s) (sn s) (una s)
        (resendts s) (rto s) (fastack s) (seg_xmit s) (sdata s).

(** Flush acknowledgements: [i] runs over the ack array. *)
Fixpoint flush_acks (acks : list (Z * Z)) (seg : IKCPSEG) (pkt : bytes)
    : M IKCPCB (IKCPSEG * bytes) :=
  match acks with
  | [] => mret (seg, pkt)
  | (n, t) :: acks =>
      pkt ← make_room IKCP_OVERHEAD pkt;
      let seg := set_sn_ts n t seg in
      pkt ← emit (ikcp_encode_seg seg) pkt;
      flush_acks acks seg pkt
  end.

(** Probe timer (remote window is zero). *)
Definition flush_probe (k : IKCPCB) : IKCPCB :=
  if rmt_wnd k =? 0 then
    if probe_wait k =? 0 then
      let k := set_probe_wait IKCP_PROBE_INIT k in
      set_ts_probe (u32 (current k + probe_wait k)) k
    else if 0 <=? itimediff (current k) (ts_probe k) then
      let k := if probe_wait k <? IKCP_PROBE_INIT then set_probe_wait IKCP_PROBE_INIT k else k in
      let k := set_probe_wait (u32 (probe_wait k + probe_wait k / 2)) k in
      let k := if IKCP_PROBE_LIMIT <? probe_wait k then set_probe_wait IKCP_PROBE_LIMIT k else k in
      let k := set_ts_probe (u32 (current k + probe_wait k)) k in
      set_probe (Z.lor (probe k) IKCP_ASK_SEND) k
    else k
  else set_probe_wait 0 (set_ts_probe 0 k).

(** A probing command, when its bit is set in [probe]. *)
Definition flush_cmd (bit c : Z) (sp : IKCPSEG * bytes) : M IKCPCB (IKCPSEG * bytes) :=
  k ← get;
  if Z.land (probe k) bit =? 0 then mret sp
  else
    let seg := set_cmd c sp.1 in
    pkt ← make_room IKCP_OVERHEAD sp.2;
    pkt ← emit (ikcp_encode_seg seg) pkt;
    mret (seg, pkt).

Definition flush_cwnd (k : IKCPCB) : Z :=
  let w := imin (snd_wnd k) (rmt_wnd k) in
  if nocwnd k =? 0 then imin (cwnd k) w else w.

(** Move data from [snd_queue] to [snd_buf] while the window is open. *)
Fixpoint flush_move (fuel : nat) (w wn now : Z) (k : IKCPCB) : IKCPCB :=
  match fuel, snd_queue k with
  | S fuel, s :: rest =>
      if itimediff (snd_nxt k) (u32 (snd_una k + w)) <? 0 then
        let s := MkSeg (conv k) IKCP_CMD_PUSH (frg s) wn now (snd_nxt k) (rcv_nxt k)
                       now (u32 (rx_rto k)) 0 0 (sdata s) in
        let k := set_snd_queue rest k in
        let k := set_snd_buf (snd_buf k ++ [s]) k in
        let k := set_nsnd_que (u32 (nsnd_que k - 1)) k in
        let k := set_nsnd_buf (u32 (nsnd_buf k + 1)) k in
        flush_move fuel w wn now (set_snd_nxt (u32 (snd_nxt k + 1)) k)
      else k
  | _, _ => k
  end.

(** What the flush loop decides for one segment: not due, first transmission,
    timeout ([lost]) or fast retransmission ([change]). *)
Inductive due := NotDue | First | Timeout | Fast.

Definition seg_due (now resent : Z) (s : IKCPSEG) : due :=
  if seg_xmit s =? 0 then First
  else if 0 <=? itimediff now (resendts s) then Timeout
  else if resent <=? fastack s then Fast
  else NotDue.

(** Its new timer fields. *)
Definition seg_resend (k : IKCPCB) (now rtomin : Z) (d : due) (s : IKCPSEG) : IKCPSEG :=
  let set (rto' fa rts : Z) :=
    MkSeg (seg_conv s) (cmd s) (frg s) (wnd s) (ts s) (sn s) (una s)
          rts rto' fa (u32 (seg_xmit s + 1)) (sdata s) in
  match d with
  | NotDue => s
  | First => let r := u32 (rx_rto k) in set r (fastack s) (u32 (now + r + rtomin))
  | Timeout =>
      let r := u32 (rto s + (if nodelay k =? 0 then rx_rto k else Z.quot (rx_rto k) 2)) in
      set r (fastack s) (u32 (now + r))
  | Fast => set (rto s) 0 (u32 (now + rto s))
  end.

Definition set_ts_wnd_una (t w u : Z) (s : IKCPSEG) : IKCPSEG :=
  MkSeg (seg_conv s) (cmd s) (frg s) w t (sn s) u
        (resendts s) (rto s) (fastack s) (seg_xmit s) (sdata s).

(** Flush data segments. *)
Fixpoint flush_data (now resent rtomin wn : Z) (l : list IKCPSEG) (pkt : bytes)
    (lost : bool) (change : Z) : M IKCPCB (list IKCPSEG * bytes * bool * Z) :=
  match l with
  | [] => mret ([], pkt, lost, change)
  | s :: l =>
      k ← get;
      let d := seg_due now resent s in
      let s := seg_resend k now rtomin d s in
      _ ← (match d with
           | Timeout => put (set_xmit (u32 (xmit k + 1)) k)
           | _ => mret tt
           end);
      let lost := match d with Timeout => true | _ => lost end in
      let change := match d with Fast => change + 1 | _ => change end in
      '(s, pkt) ← (match d with
           | NotDue => mret (s, pkt)
           | _ =>
               let s := set_ts_wnd_una now wn (rcv_nxt k) s in
               pkt ← make_room (IKCP_OVERHEAD + slen s) pkt;
               pkt ← emit (ikcp_encode_seg s) pkt;
               pkt ← emit (sdata s) pkt;
               _ ← modify (fun k => if dead_link k <=? seg_xmit s then set_state (u32 (-1)) k else k);
               mret (s, pkt)
           end);
      '(l, pkt, lost, change) ← flush_data now resent rtomin wn l pkt lost change;
      mret (s :: l, pkt, lost, change)
  end.

(** Update of [ssthresh] and [cwnd] after the data was flushed. *)
Definition flush_ssthresh (resent w : Z) (lost : bool) (change : Z) (k : IKCPCB) : IKCPCB :=
  let at_least_min k :=
    if ssthresh k <? IKCP_THRESH_MIN then set_ssthresh IKCP_THRESH_MIN k else k in
  let k :=
    if change =? 0 then k
    else
      let inflight := u32 (snd_nxt k - snd_una k) in
      let k := at_least_min (set_ssthresh (inflight / 2) k) in
      let k := set_cwnd (u32 (ssthresh k + resent)) k in
      set_incr (u32 (cwnd k * mss k)) k in
  let k :=
    if lost then
      let k := at_least_min (set_ssthresh (w / 2) k) in
      set_incr (mss k) (set_cwnd 1 k)
    else k in
  if cwnd k <? 1 then set_incr (mss k) (set_cwnd 1 k) else k.

(** The control part of [ikcp_flush]: pending acknowledgements, then the
    probing commands; returns what is left between [buffer] and [ptr]. *)
Definition flush_ctl (seg : IKCPSEG) : M IKCPCB bytes :=
  k ← get;
  let count := i32 (ackcount k) in
  _ ← assert_ (count <=? zlen (acklist k));
  sp ← flush_acks (take (Z.to_nat count) (acklist k)) seg [];
  _ ← modify (set_ackcount 0);
  _ ← modify flush_probe;
  sp ← flush_cmd IKCP_ASK_SEND IKCP_CMD_WASK sp;
  sp ← flush_cmd IKCP_ASK_TELL IKCP_CMD_WINS sp;
  _ ← modify (set_probe 0);
  mret sp.2.

Definition ikcp_flush : M IKCPCB unit :=
  k ← get;
  if updated k =? 0 then mret tt
  else
    let now := current k in
    let seg := flush_seg k in
    pkt ← flush_ctl seg;
    k ← get;
    let w := flush_cwnd k in
    _ ← modify (fun k => flush_move (length (snd_queue k)) w (wnd seg) now k);
    k ← get;
    let resent := if 0 <? fastresend k then u32 (fastresend k) else 4294967295 in
    let rtomin := if nodelay k =? 0 then u32 (Z.shiftr (rx_rto k) 3) else 0 in
    '(l, pkt, lost, change) ← flush_data now resent rtomin (wnd seg) (snd_buf k) pkt false 0;
    _ ← modify (set_snd_buf l);
    _ ← (if 0 <? zlen pkt then ikcp_output pkt else mret tt);
    modify (flush_ssthresh resent w lost change).

(** ** Clock *)

Definition ikcp_update (now : Z) : M IKCPCB unit :=
  _ ← modify (set_current now);
  _ ← modify (fun k => if updated k =? 0 then set_ts_flush (current k) (set_updated 1 k) else k);
  k ← get;
  let slap := itimediff (current k) (ts_flush k) in
  let reset := (10000 <=? slap) || (slap <? -10000) in
  let k := if reset then set_ts_flush (current k) k else k in
  let slap := if reset then 0 else slap in
  _ ← put k;
  if 0 <=? slap then
    let k := set_ts_flush (u32 (ts_flush k + interval k)) k in
    let k := if 0 <=? itimediff (current k) (ts_flush k)
             then set_ts_flush (u32 (current k + interval k)) k else k in
    _ ← put k;
    ikcp_flush
  else mret tt.

(** Earliest retransmission among [snd_buf]: [None] when one is due now. *)
Fixpoint check_loop (now : Z) (l : list IKCPSEG) (tm_packet : Z) : option Z :=
  match l with
  | [] => Some tm_packet
  | s :: l =>
      let diff := itimediff (resendts s) now in
      if diff <=? 0 then None
      else check_loop now l (if diff <? tm_packet then diff else tm_packet)
  end.

Definition ikcp_check (now : Z) (k : IKCPCB) : Z :=
  if updated k =? 0 then now
  else
    let tf := if (10000 <=? itimediff now (ts_flush k)) || (itimediff now (ts_flush k) <? -10000)
              then now else ts_flush k in
    if 0 <=? itimediff now tf then now
    else
      let tm_flush := itimediff tf now in
      match check_loop now (snd_buf k) 2147483647 with
      | None => now
      | Some tm_packet =>
          let minimal := u32 (if tm_packet <? tm_flush then tm_packet else tm_flush) in
          let minimal := if interval k <=? minimal then interval k else minimal in
          u32 (now + minimal)
      end.
End kcp.
