(* ===== verification/KcpWire.v ===== *)
(** * KCP on the wire: segment headers and sequence arithmetic

    The 36-byte header round-trips; serial-number comparison agrees with
    unbounded sequence numbers that are less than [2^31] apart. *)

From Stdlib Require Import ZArith Lia.
From stdpp Require Import base numbers list gmap.
From S2P Require Import Prelude Util KcpState KcpOps.
Open Scope Z_scope.

(** ** Headers *)

Lemma decode_le_app n v rest :
  decode_le n (le_bytes n v ++ rest) = Some (v mod 2 ^ (8 * Z.of_nat n), rest).
Proof.
  unfold decode_le. rewrite (zslice_at _ [] (le_bytes n v) rest) by (rewrite ?le_bytes_zlen; done).
  rewrite le_val_bytes. do 2 f_equal.
  rewrite <-(le_bytes_length n v) at 1. apply drop_app_length.
Qed.

Lemma decode_le_uint n w v rest :
  w = 8 * Z.of_nat n ->
  decode_le n (le_bytes n (uint w v) ++ rest) = Some (uint w v, rest).
Proof.
  intros ->. rewrite decode_le_app. do 2 f_equal. apply (uint_uint (8 * Z.of_nat n)). lia.
Qed.

Lemma ikcp_decodeGuid_app g rest :
  Guid_valid g -> ikcp_decodeGuid (Guid_bytes g ++ rest) = Some (g, rest).
Proof.
  intros Hg. unfold ikcp_decodeGuid. by rewrite Fill_bytes by done.
Qed.

(** The header that arrives: the fields cut to their width on the wire. *)
Definition wire_header (s : IKCPSEG) : header :=
  MkHdr (seg_conv s) (u8 (cmd s)) (u8 (frg s)) (u16 (wnd s)) (u32 (ts s)) (u32 (sn s))
        (u32 (una s)) (u32 (slen s)).

Lemma ikcp_encode_seg_len s : zlen (ikcp_encode_seg s) = 36.
Proof. done. Qed.

Lemma decode_encode_seg s rest : Guid_valid (seg_conv s) ->
  ikcp_decode_seg (ikcp_encode_seg s ++ rest) = Some (wire_header s, rest).
Proof.
  intros Hc. unfold ikcp_decode_seg, ikcp_encode_seg, ikcp_encodeGuid.
  rewrite <-!app_assoc, ikcp_decodeGuid_app by done. cbn [mbind option_bind].
  unfold ikcp_decode8u, ikcp_decode16u, ikcp_decode32u,
    ikcp_encode8u, ikcp_encode16u, ikcp_encode32u.
  repeat (rewrite decode_le_uint by reflexivity; cbn [mbind option_bind]).
  reflexivity.
Qed.

Lemma ikcp_decode_seg_len p h rest :
  ikcp_decode_seg p = Some (h, rest) -> zlen rest = zlen p - 36.
Proof.
  unfold ikcp_decode_seg, ikcp_decodeGuid, ikcp_decode8u, ikcp_decode16u, ikcp_decode32u.
  intros H.
  destruct (Fill p) eqn:EF; [|done]. apply Fill_len in EF. simpl in H.
  assert (D : forall n q v r, decode_le n q = Some (v, r) -> zlen r = zlen q - Z.of_nat n).
  { clear. unfold decode_le. intros n q v r. destruct (zslice _ _ _) eqn:E; [|done].
    intros; simplify_eq. rewrite zlen_drop. unfold zslice in E.
    destruct (_ && _) eqn:E2; [|done]. apply andb_prop in E2 as [_ E2].
    apply Z.leb_le in E2. lia. }
  repeat match type of H with
  | context [decode_le ?n ?q] =>
      let E := fresh "E" in destruct (decode_le n q) as [[? ?]|] eqn:E; [|done];
      apply D in E; simpl in H
  end.
  simplify_eq. rewrite zlen_drop in *. lia.
Qed.

Lemma decode_le_is_Some n p : Z.of_nat n <= zlen p ->
  exists v, decode_le n p = Some (v, drop n p).
Proof.
  intros H. unfold decode_le.
  destruct (zslice_is_Some p 0 (Z.of_nat n)) as [k ->]; [lia|lia|lia|]. eauto.
Qed.

Lemma ikcp_decode_seg_is_Some p : 36 <= zlen p -> exists h rest, ikcp_decode_seg p = Some (h, rest).
Proof.
  intros H. unfold ikcp_decode_seg, ikcp_decodeGuid, Fill.
  destruct (zslice_is_Some p 0 8) as [a ->]; [lia..|].
  destruct (zslice_is_Some p 8 8) as [b ->]; [lia..|]. simpl.
  unfold ikcp_decode8u, ikcp_decode16u, ikcp_decode32u.
  repeat match goal with
  | |- context [decode_le ?n ?q] =>
      let v := fresh "v" in let E := fresh "E" in
      destruct (decode_le_is_Some n q) as [v E];
        [rewrite ?zlen_drop; lia | rewrite E; simpl; clear E]
  end. eauto.
Qed.

Lemma decode_le_range n p v r : Forall is_byte p ->
  decode_le n p = Some (v, r) -> is_uint (8 * Z.of_nat n) v /\ Forall is_byte r.
Proof.
  intros Hp. unfold decode_le. destruct (zslice _ _ _) as [bs|] eqn:E; [|done].
  intros; simplify_eq. split; [|by apply Forall_drop].
  pose proof (zslice_len _ _ _ _ E) as L. rewrite <-L. apply le_val_range.
  unfold zslice in E. destruct (_ && _); simplify_eq. by apply Forall_take, Forall_drop.
Qed.

(** The decoded length is a [uint32_t]. *)
Lemma ikcp_decode_seg_bytes p h rest : Forall is_byte p ->
  ikcp_decode_seg p = Some (h, rest) -> is_uint 32 (h_len h) /\ Forall is_byte rest.
Proof.
  unfold ikcp_decode_seg, ikcp_decodeGuid, ikcp_decode8u, ikcp_decode16u, ikcp_decode32u.
  intros Hp H. destruct (Fill p); [|done]. simpl in H. apply (Forall_drop _ 16) in Hp.
  do 7 match type of H with
  | context [decode_le ?n ?q] =>
      let E := fresh "E" in destruct (decode_le n q) as [[? ?]|] eqn:E; [|done];
      apply decode_le_range in E as [? ?]; [|assumption]; simpl in H
  end.
  by simplify_eq.
Qed.

(** ** Sequence numbers *)

Lemma itimediff_i32 a b : itimediff a b = i32 (a - b).
Proof. unfold itimediff. by rewrite sint_uint by lia. Qed.

(** Wire numbers of unbounded [a] and [b] compare as [a] and [b] do. *)
Lemma itimediff_wrap a b :
  - 2 ^ 31 <= a - b < 2 ^ 31 -> itimediff (u32 a) (u32 b) = a - b.
Proof. intros. rewrite itimediff_i32. by apply sint_diff. Qed.

Lemma u32_succ a : u32 (u32 a + 1) = u32 (a + 1).
Proof. by apply uint_add_l. Qed.

Lemma u32_inj a b : - 2 ^ 31 <= a - b < 2 ^ 31 -> u32 a = u32 b -> a = b.
Proof.
  intros H E. pose proof (itimediff_wrap a b H) as D. rewrite E in D.
  rewrite itimediff_i32, Z.sub_diag in D. change (i32 0) with 0 in D. lia.
Qed.

(** A segment as [ikcp_flush] lays it out: header, then data. *)
Definition wire_seg (s : IKCPSEG) : bytes := ikcp_encode_seg s ++ sdata s.
Definition wire (l : list IKCPSEG) : bytes := concat (wire_seg <$> l).

Lemma wire_seg_len s : zlen (wire_seg s) = 36 + slen s.
Proof. unfold wire_seg. by rewrite zlen_app, ikcp_encode_seg_len. Qed.

Lemma wire_app a b : wire (a ++ b) = wire a ++ wire b.
Proof. unfold wire. by rewrite fmap_app, concat_app. Qed.

(** ** Properties *)

(** A segment header written by [ikcp_encode_seg] is decoded to the same
    fields, whatever follows it, when the fields fit their wire width. *)
Theorem header_roundtrip s rest :
  Guid_valid (seg_conv s) -> is_uint 8 (cmd s) -> is_uint 8 (frg s) -> is_uint 16 (wnd s) ->
  is_uint 32 (ts s) -> is_uint 32 (sn s) -> is_uint 32 (una s) -> is_uint 32 (slen s) ->
  ikcp_decode_seg (ikcp_encode_seg s ++ rest) =
    Some (MkHdr (seg_conv s) (cmd s) (frg s) (wnd s) (ts s) (sn s) (una s) (slen s), rest).
Proof.
  intros. rewrite decode_encode_seg by done. unfold wire_header. rewrite !uint_small by done. done.
Qed.

Lemma header_roundtrip_witness :
  let s := MkSeg (MkGuid 7 9) 81 0 128 5 6 7 0 0 0 0 [1; 2] in
  ikcp_decode_seg (ikcp_encode_seg s ++ [1; 2]) = Some (MkHdr (MkGuid 7 9) 81 0 128 5 6 7 2, [1; 2]).
Proof.
  apply (header_roundtrip (MkSeg (MkGuid 7 9) 81 0 128 5 6 7 0 0 0 0 [1; 2]) [1; 2]);
    try (by split); done.
Defined.
