(* ===== verification/KcpRecv.v ===== *)
(** * KCP receiver: reordering, duplicate removal and in-order delivery

    The receive side keeps [rcv_buf], the segments that arrived out of order,
    and [rcv_queue], the segments ready for the application.  The sequence
    numbers on the wire are those of an unbounded stream, cut to 32 bits. *)

From Stdlib Require Import ZArith Lia Sorted.
From stdpp Require Import base numbers list gmap sorting.
From S2P Require Import Prelude Util KcpState KcpOps KcpWire.
Open Scope Z_scope.

(** What the application sees of a segment. *)
Definition payload (s : IKCPSEG) : Z * bytes := (frg s, sdata s).

(** ** Sorted insertion *)

Lemma SSorted_snoc (l : list Z) m :
  StronglySorted Z.lt l -> Forall (fun x => x < m) l -> StronglySorted Z.lt (l ++ [m]).
Proof.
  induction 1 as [|a l Hl IH Ha]; intros Hm; simpl; [repeat constructor|].
  apply Forall_cons in Hm as [? ?]. constructor; [by apply IH|].
  apply Forall_app; split; [done|]. by repeat constructor.
Qed.

Lemma SSorted_snoc_inv (l : list Z) m :
  StronglySorted Z.lt (l ++ [m]) -> StronglySorted Z.lt l /\ Forall (fun x => x < m) l.
Proof.
  intros H. split; [by eapply StronglySorted_app_1_l|].
  apply Forall_forall. intros x Hx. eapply StronglySorted_app_1_elem_of; [exact H|done|].
  by apply list_elem_of_singleton.
Qed.

Lemma insert_seg_snoc new l s :
  insert_seg new (l ++ [s]) =
    if sn s =? sn new then None
    else if 0 <? itimediff (sn new) (sn s) then Some (l ++ [s; new])
    else match insert_seg new l with Some r => Some (r ++ [s]) | None => None end.
Proof.
  unfold insert_seg. rewrite rev_app_distr. simpl.
  destruct (sn s =? sn new); [done|]. destruct (0 <? _).
  - simpl. rewrite rev_involutive, <-app_assoc. done.
  - destruct (insert_rev new (rev l)); done.
Qed.

Section stream.
(** [msg n] is what the peer sends under the unbounded number [n]; so far it
    has sent the numbers below [limit]. *)
Context (msg : Z -> Z * bytes) (limit : Z).

(** Segment [s] carries item [n] of the stream. *)
Definition carries (n : Z) (s : IKCPSEG) : Prop :=
  sn s = u32 n /\ payload s = msg n /\ n < limit.

Lemma insert_seg_spec n new ns l :
  StronglySorted Z.lt ns -> Forall2 carries ns l -> carries n new ->
  Forall (fun m => - 2 ^ 31 <= n - m < 2 ^ 31) ns ->
  match insert_seg new l with
  | None => n ∈ ns
  | Some l' => (n ∉ ns) /\ exists ns', StronglySorted Z.lt ns' /\ (ns' ≡ₚ n :: ns) /\ Forall2 carries ns' l'
  end.
Proof.
  intros Hs Hl Hn. revert l Hs Hl.
  induction ns as [|m ns IH] using rev_ind; intros l Hs Hl Hb.
  { destruct l; [|by inversion Hl]. unfold insert_seg; simpl. split; [set_solver|].
    exists [n]. split; [apply (SSorted_snoc []); constructor|]. split; [done|].
    constructor; [done|constructor]. }
  apply Forall2_app_inv_l in Hl as (l1 & l2 & Hl1 & Hl2 & ->).
  destruct l2 as [|s [|]]; [by inversion Hl2| |by inversion Hl2 as [|????? Hl3]; inversion Hl3].
  apply Forall2_cons_iff in Hl2 as [Hc _].
  apply SSorted_snoc_inv in Hs as [Hs Hm]. apply Forall_app in Hb as [Hb Hbm].
  rewrite Forall_singleton in Hbm. rewrite insert_seg_snoc.
  pose proof Hn as (Esn & Ep & El). pose proof Hc as (Es & Eps & Elm). rewrite Es, Esn.
  destruct (Z.eqb_spec (u32 m) (u32 n)) as [E|E].
  { assert (n = m) as -> by (by apply u32_inj). apply elem_of_app. right. by apply list_elem_of_singleton. }
  rewrite itimediff_wrap by done.
  assert (Hnm : n <> m) by (intros ->; done).
  destruct (Z.ltb_spec 0 (n - m)).
  - split.
    { rewrite elem_of_app, list_elem_of_singleton. intros [Hin|?]; [|done].
      rewrite Forall_forall in Hm. specialize (Hm _ Hin). simpl in Hm. lia. }
    exists (ns ++ [m; n]). split_and!.
    + change [m; n] with ([m] ++ [n]). rewrite app_assoc. apply SSorted_snoc; [by apply SSorted_snoc|].
      apply Forall_app. split; [eapply Forall_impl; [exact Hm|simpl; lia]|].
      apply Forall_singleton. lia.
    + change [m; n] with ([m] ++ [n]). rewrite app_assoc, Permutation_app_comm. done.
    + apply Forall2_app; [done|]. repeat constructor; done.
  - specialize (IH l1 Hs Hl1 Hb). destruct (insert_seg new l1) as [r|].
    + destruct IH as (Hnin & ns' & Hs' & Hp & Hf). split.
      { rewrite elem_of_app, list_elem_of_singleton. intros [?|?]; [by apply Hnin|by apply Hnm]. }
      exists (ns' ++ [m]). split_and!.
      * apply SSorted_snoc; [done|]. rewrite Hp. apply Forall_cons. split; [lia|done].
      * by rewrite Hp.
      * apply Forall2_app; [done|]. repeat constructor; done.
    + apply elem_of_app. by left.
Qed.

(** ** The receive-side invariant *)

(** [N] items were put in order so far; [rcv_buf] holds later ones, sorted,
    without duplicates and within half the number space. *)
Definition rcv_inv (N : Z) (k : IKCPCB) : Prop :=
  0 <= N <= limit /\ rcv_nxt k = u32 N /\ 0 <= rcv_wnd k < 2 ^ 31 /\
  nrcv_que k = u32 (zlen (rcv_queue k)) /\ nrcv_buf k = u32 (zlen (rcv_buf k)) /\
  exists ns, StronglySorted Z.lt ns /\ Forall (fun n => N <= n < N + 2 ^ 31) ns /\
             Forall2 carries ns (rcv_buf k).

(** The next item waits in [rcv_buf] only while [rcv_queue] is full. *)
Definition drained (k : IKCPCB) : Prop :=
  match rcv_buf k with
  | [] => True
  | s :: _ => sn s <> rcv_nxt k \/ rcv_wnd k <= nrcv_que k
  end.

Lemma seqZ_snoc N n : 0 <= n -> seqZ N (n + 1) = N :: seqZ (N + 1) n.
Proof. intros. rewrite seqZ_cons by lia. f_equal; f_equal; lia. Qed.

(** One step of the loop. *)
Definition moved (s : IKCPSEG) (rest : list IKCPSEG) (k : IKCPCB) : IKCPCB :=
  set_rcv_nxt (u32 (rcv_nxt k + 1)) (set_nrcv_que (u32 (nrcv_que k + 1))
    (set_rcv_queue (rcv_queue k ++ [s]) (set_nrcv_buf (u32 (nrcv_buf k - 1)) (set_rcv_buf rest k)))).

Lemma moved_inv N s rest k :
  rcv_inv N k -> rcv_buf k = s :: rest -> sn s = rcv_nxt k ->
  rcv_inv (N + 1) (moved s rest k) /\ payload s = msg N.
Proof.
  intros (HN & Hnx & Hw & Hq & Hb & ns & Hs & Hr & Hc) E C1. rewrite E in Hc, Hb.
  apply Forall2_cons_inv_r in Hc as (n & ns' & (Hsn & Hp & Hlim) & Hc & ->).
  apply Forall_cons in Hr as [Hn Hr]. apply StronglySorted_cons in Hs as [Hlt Hs].
  assert (n = N) as -> by (apply u32_inj; [lia|congruence]). split; [|done].
  unfold rcv_inv, moved. cbn. split_and!; [lia|lia| |lia|lia| | |].
  - by rewrite Hnx, u32_succ.
  - by rewrite Hq, zlen_app, u32_succ.
  - rewrite Hb, zlen_cons. unfold uint. rewrite Zminus_mod_idemp_l. f_equal. lia.
  - exists ns'. split_and!; [done| |done].
    apply Forall_forall. intros x Hx. rewrite Forall_forall in Hlt, Hr.
    specialize (Hlt x Hx). specialize (Hr x Hx). simpl in *. lia.
Qed.

Lemma move_loop_spec fuel N k :
  rcv_inv N k -> (length (rcv_buf k) <= fuel)%nat ->
  let k' := move_loop fuel k in
  exists N', N <= N' /\ N' + zlen (rcv_buf k') = N + zlen (rcv_buf k) /\
    rcv_inv N' k' /\ drained k' /\
    payload <$> rcv_queue k' = (payload <$> rcv_queue k) ++ (msg <$> seqZ N (N' - N)).
Proof.
  revert N k. induction fuel as [|fuel IH]; intros N k Hinv Hf; cbn [move_loop].
  { exists N. destruct (rcv_buf k) eqn:E; [|simpl in Hf; lia].
    split_and!; [lia|by rewrite ?E|done| |].
    - unfold drained. by rewrite E.
    - rewrite Z.sub_diag, app_nil_r. done. }
  destruct (rcv_buf k) as [|s rest] eqn:E.
  { exists N. split_and!; [lia|by rewrite ?E|done| |].
    - unfold drained. by rewrite E.
    - rewrite Z.sub_diag, app_nil_r. done. }
  destruct ((sn s =? rcv_nxt k) && (nrcv_que k <? rcv_wnd k)) eqn:C.
  - apply andb_prop in C as [C1 C2]. apply Z.eqb_eq in C1. apply Z.ltb_lt in C2.
    destruct (moved_inv N s rest k Hinv E C1) as [Hinv1 Hp].
    match goal with |- context [move_loop fuel ?x] => change x with (moved s rest k) end.
    destruct (IH (N + 1) (moved s rest k) Hinv1) as (N' & Hle & Hlen & Hinv' & Hdr & Hpq).
    + cbn. simpl in Hf. lia.
    + exists N'. change (rcv_buf (moved s rest k)) with rest in Hlen.
      change (rcv_queue (moved s rest k)) with (rcv_queue k ++ [s]) in Hpq. rewrite zlen_cons.
      split_and!; [lia|lia|done|done|].
      rewrite Hpq, fmap_app, <-app_assoc. f_equal. simpl.
      replace (N' - N) with (N' - (N + 1) + 1) by lia. rewrite seqZ_snoc by lia. simpl. by rewrite Hp.
  - exists N. split_and!; [lia|by rewrite ?E|done| |].
    + unfold drained. rewrite E. apply andb_false_iff in C as [C|C];
        [left; by apply Z.eqb_neq|right; by apply Z.ltb_ge].
    + rewrite Z.sub_diag, app_nil_r. done.
Qed.

Lemma move_available_spec N k :
  rcv_inv N k ->
  exists N', N <= N' /\ N' + zlen (rcv_buf (move_available k)) = N + zlen (rcv_buf k) /\
    rcv_inv N' (move_available k) /\ drained (move_available k) /\
    payload <$> rcv_queue (move_available k) = (payload <$> rcv_queue k) ++ (msg <$> seqZ N (N' - N)).
Proof. intros. by apply move_loop_spec. Qed.

(** Two control blocks with the same receive side. *)
Definition same_rcv (k k' : IKCPCB) : Prop :=
  rcv_nxt k' = rcv_nxt k /\ rcv_wnd k' = rcv_wnd k /\ nrcv_que k' = nrcv_que k /\
  nrcv_buf k' = nrcv_buf k /\ rcv_queue k' = rcv_queue k /\ rcv_buf k' = rcv_buf k.

Lemma rcv_inv_same N k k' : same_rcv k k' -> rcv_inv N k -> rcv_inv N k'.
Proof. unfold rcv_inv. by intros (-> & -> & -> & -> & -> & ->). Qed.

Lemma rcv_inv_bound N k :
  rcv_inv N k -> exists ns, Forall (fun n => N <= n < N + 2 ^ 31) ns /\ Forall2 carries ns (rcv_buf k).
Proof. intros (_ & _ & _ & _ & _ & ns & _ & ? & ?). eauto. Qed.

(** [ikcp_parse_data]: accepted exactly when inside the window and new; then
    everything that became consecutive moves on. *)
Lemma parse_data_spec N n s k :
  rcv_inv N k -> carries n s -> - 2 ^ 31 <= n - N < 2 ^ 31 ->
  exists N', N <= N' /\ rcv_inv N' (ikcp_parse_data s k) /\
    payload <$> rcv_queue (ikcp_parse_data s k) =
      (payload <$> rcv_queue k) ++ (msg <$> seqZ N (N' - N)).
Proof.
  intros Hinv Hc Hn. pose proof Hinv as (HN & Hnx & Hw & Hq & Hb & ns & Hs & Hr & Hf).
  assert (Stay : exists N', N <= N' /\ rcv_inv N' k /\
    payload <$> rcv_queue k = (payload <$> rcv_queue k) ++ (msg <$> seqZ N (N' - N))).
  { exists N. rewrite Z.sub_diag, app_nil_r. split_and!; try lia; done. }
  unfold ikcp_parse_data. pose proof Hc as (Esn & Ep & El). rewrite Esn, Hnx.
  rewrite (itimediff_wrap n N) by done.
  destruct (_ || _) eqn:C; [exact Stay|]. clear Stay.
  apply orb_false_iff in C as [_ C]. apply Z.ltb_ge in C.
  pose proof (insert_seg_spec n s ns (rcv_buf k) Hs Hf Hc) as Hins.
  destruct (insert_seg s (rcv_buf k)) as [l|].
  - destruct Hins as (Hnin & ns' & Hs' & Hp & Hf').
    { eapply Forall_impl; [exact Hr|]. simpl. lia. }
    set (k1 := set_nrcv_buf _ _).
    assert (Hlen : zlen l = zlen (rcv_buf k) + 1).
    { unfold zlen. rewrite <-(Forall2_length _ _ _ Hf'), <-(Forall2_length _ _ _ Hf).
      rewrite Hp. simpl. lia. }
    destruct (move_available_spec N k1) as (N' & Hle & _ & Hi & _ & Hpq).
    + unfold rcv_inv, k1. cbn. split_and!; [lia|lia|done|lia|lia|done| |].
      * rewrite Hb, u32_succ. by rewrite Hlen.
      * exists ns'. split_and!; [done| |done]. rewrite Hp. apply Forall_cons. split; [lia|done].
    + exists N'. split_and!; [lia|done|exact Hpq].
  - destruct (move_available_spec N k Hinv) as (N' & Hle & _ & Hi & _ & Hpq).
    exists N'. split_and!; [lia|done|done].
Qed.

Lemma sorted_head (N : Z) ns l :
  StronglySorted Z.lt ns -> Forall (fun n => N <= n < N + 2 ^ 31) ns -> N ∈ ns -> Forall2 carries ns l ->
  exists s rest, l = s :: rest /\ sn s = u32 N.
Proof.
  intros Hs Hr Hin Hc. destruct ns as [|n ns]; [by apply not_elem_of_nil in Hin|].
  apply Forall2_cons_inv_l in Hc as (s & rest & (Hsn & _) & _ & ->). exists s, rest. split; [done|].
  apply StronglySorted_cons in Hs as [Hlt _]. apply Forall_cons in Hr as [Hn _].
  apply elem_of_cons in Hin as [->|Hin]; [done|].
  rewrite Forall_forall in Hlt. specialize (Hlt N Hin). simpl in Hlt. lia.
Qed.

Lemma move_available_progress N k s rest :
  rcv_inv N k -> rcv_buf k = s :: rest -> sn s = u32 N -> nrcv_que k < rcv_wnd k ->
  exists N', N + 1 <= N' /\ rcv_inv N' (move_available k).
Proof.
  intros Hi E Hs Hq. unfold move_available. rewrite E. cbn [length move_loop]. rewrite E.
  assert (C : sn s = rcv_nxt k) by (destruct Hi as (_ & -> & _); done).
  rewrite C, Z.eqb_refl. destruct (Z.ltb_spec (nrcv_que k) (rcv_wnd k)); [|lia]. cbn [andb].
  destruct (moved_inv N s rest k Hi E C) as [Hi1 _].
  destruct (move_loop_spec (length rest) (N + 1) (moved s rest k) Hi1) as (N' & ? & _ & ? & _); [done|]. eauto.
Qed.

(** The next item of the stream is taken as soon as it arrives, if the queue
    has room. *)
Lemma parse_data_progress N s k :
  rcv_inv N k -> carries N s -> nrcv_que k < rcv_wnd k ->
  exists N', N + 1 <= N' /\ rcv_inv N' (ikcp_parse_data s k).
Proof.
  intros Hinv Hc Hroom. pose proof Hinv as (HN & Hnx & Hw & Hq & Hb & ns & Hs & Hr & Hf).
  pose proof Hc as (Esn & _ & _). unfold ikcp_parse_data. rewrite Esn, Hnx.
  rewrite (uint_add_l 32), (itimediff_wrap N N), (itimediff_wrap N (N + rcv_wnd k)) by lia.
  assert (0 <= nrcv_que k) by (rewrite Hq; apply uint_range; lia).
  destruct (Z.leb_spec 0 (N - (N + rcv_wnd k))); [lia|]. destruct (Z.ltb_spec (N - N) 0); [lia|]. cbn [orb].
  pose proof (insert_seg_spec N s ns (rcv_buf k) Hs Hf Hc) as Hins.
  assert (Hd : Forall (fun m => - 2 ^ 31 <= N - m < 2 ^ 31) ns) by (eapply Forall_impl; [exact Hr|simpl; lia]).
  destruct (insert_seg s (rcv_buf k)) as [l|].
  - destruct (Hins Hd) as (Hnin & ns' & Hs' & Hp & Hf').
    assert (Hr' : Forall (fun n => N <= n < N + 2 ^ 31) ns') by (rewrite Hp; apply Forall_cons; split; [lia|done]).
    destruct (sorted_head N ns' l Hs' Hr') as (s0 & rest & -> & Es0); [rewrite Hp; by left|done|].
    apply (move_available_progress N _ s0 rest); [|done|done|done].
    unfold rcv_inv. cbn. split_and!; [lia|lia|done|lia|lia|done| |eauto].
    rewrite Hb, u32_succ. f_equal.
    pose proof (Forall2_length _ _ _ Hf') as L1. pose proof (Forall2_length _ _ _ Hf) as L2.
    pose proof (Permutation_length Hp) as L3. unfold zlen in *. simpl in *. lia.
  - destruct (sorted_head N ns (rcv_buf k) Hs Hr (Hins Hd) Hf) as (s0 & rest & E & Es0).
    by apply (move_available_progress N k s0 rest).
Qed.

(** An item that was already put in order is dropped. *)
Lemma parse_data_old N n s k :
  rcv_inv N k -> carries n s -> - 2 ^ 31 <= n - N < 0 -> ikcp_parse_data s k = k.
Proof.
  intros (HN & Hnx & _) (Esn & _) Hn. unfold ikcp_parse_data. rewrite Esn, Hnx.
  rewrite (itimediff_wrap n N) by lia.
  replace (n - N <? 0) with true by (symmetry; apply Z.ltb_lt; lia). by rewrite orb_true_r.
Qed.

(** ** Reading messages *)

Lemma recv_merge_spec q d n q' c :
  recv_merge q = (d, n, q', c) ->
  exists taken, q = taken ++ q' /\ d = concat (sdata <$> taken) /\ n = zlen d /\ c = zlen taken.
Proof.
  revert d n q' c. induction q as [|s q IH]; intros d n q' c; simpl.
  { intros; simplify_eq. exists []. done. }
  destruct (frg s =? 0).
  { intros; simplify_eq. exists [s]. simpl. rewrite app_nil_r. done. }
  destruct (recv_merge q) as [[[d1 n1] q1] c1] eqn:E. intros; simplify_eq.
  destruct (IH _ _ _ _ eq_refl) as (taken & -> & -> & -> & ->).
  exists (s :: taken). simpl. rewrite zlen_app, zlen_cons. done.
Qed.

(** The segments the next [ikcp_recv] takes off [rcv_queue]. *)
Definition taken (k : IKCPCB) : list IKCPSEG :=
  take (Z.to_nat (recv_merge (rcv_queue k)).2) (rcv_queue k).

Lemma taken_spec k d n q c :
  recv_merge (rcv_queue k) = (d, n, q, c) ->
  rcv_queue k = taken k ++ q /\ d = concat (sdata <$> taken k) /\ c = zlen (taken k).
Proof.
  intros E. unfold taken. rewrite E. cbn [snd].
  apply recv_merge_spec in E as (t & -> & -> & _ & ->).
  unfold zlen. rewrite Nat2Z.id, take_app_length. done.
Qed.

(** [ikcp_recv] hands out a prefix of [rcv_queue], whole segments in order;
    peeking leaves it in place. *)
Lemma ikcp_recv_spec N len k n d k' :
  rcv_inv N k -> ikcp_recv len k = Done (n, d) k' ->
  exists rest N',
    rcv_queue k = taken k ++ rest /\ d = concat (sdata <$> taken k) /\ n = zlen d /\
    N <= N' /\ rcv_inv N' k' /\
    payload <$> rcv_queue k' =
      (payload <$> (if len <? 0 then rcv_queue k else rest)) ++ (msg <$> seqZ N (N' - N)).
Proof.
  intros Hinv. unfold ikcp_recv, mbind, M_bind, get, reject_if, assert_, put, mret, M_ret, fail, undef.
  destruct (rcv_queue k) as [|s0 q0] eqn:Eq; [done|]. rewrite <-Eq. clear s0 q0 Eq.
  destruct (ikcp_peeksize k <? 0); [done|].
  destruct (_ <? ikcp_peeksize k); [done|].
  destruct (recv_merge (rcv_queue k)) as [[[d1 n1] q1] c1] eqn:E.
  destruct (n1 =? ikcp_peeksize k); [|done].
  destruct (taken_spec _ _ _ _ _ E) as (Eq & Ed & Ec).
  apply recv_merge_spec in E as (_ & _ & _ & En & _).
  set (k1 := if len <? 0 then k else _).
  intros Hd. injection Hd as <- <- <-.
  assert (Hk1 : rcv_inv N k1).
  { unfold k1. destruct (len <? 0); [done|].
    destruct Hinv as (HN & Hnx & Hw & Hq & Hb & Hex). unfold rcv_inv. cbn.
    split_and!; [lia|lia|done|lia|lia| |done|done].
    rewrite Hq, Eq, Ec, zlen_app. unfold uint. rewrite Zminus_mod_idemp_l. f_equal. lia. }
  destruct (move_available_spec N k1 Hk1) as (N' & Hle & _ & Hi & _ & Hpq).
  exists q1, N'.
  assert (Hq1 : rcv_queue k1 = if len <? 0 then rcv_queue k else q1) by (unfold k1; by destruct (len <? 0)).
  split_and!; [done|done|done|lia| |].
  - eapply rcv_inv_same; [|exact Hi]. destruct (_ && _); done.
  - rewrite <-Hq1, <-Hpq. destruct (_ && _); done.
Qed.

(** ** Runs of the receiver *)

(** Items put in order so far, when [items] were read by the application. *)
Definition in_order (k : IKCPCB) (items : list (Z * bytes)) : Z :=
  zlen items + zlen (rcv_queue k).

(** [rcv_run k items got]: a state of the receive side after any interleaving
    of arriving segments (in any order, repeated or missing; each less than
    [2^31] numbers away from the current one), reads and peeks by the
    application, and operations of the other components.  [items] are the
    segments read by the application, [got] the bytes it was given. *)
Inductive rcv_run : IKCPCB -> list (Z * bytes) -> bytes -> Prop :=
| run_init k : rcv_inv 0 k -> rcv_queue k = [] -> rcv_run k [] []
| run_arrive k items got n s :
    rcv_run k items got -> 0 <= n -> carries n s -> - 2 ^ 31 <= n - in_order k items < 2 ^ 31 ->
    rcv_run (ikcp_parse_data s k) items got
| run_recv k items got len n d k' :
    rcv_run k items got -> 0 <= len -> ikcp_recv len k = Done (n, d) k' ->
    rcv_run k' (items ++ (payload <$> taken k)) (got ++ d)
| run_peek k items got len n d k' :
    rcv_run k items got -> len < 0 -> ikcp_recv len k = Done (n, d) k' ->
    rcv_run k' items got
| run_wnd k items got w :
    rcv_run k items got -> 0 <= w < 2 ^ 31 -> rcv_run (set_rcv_wnd w k) items got
| run_other k items got k' :
    rcv_run k items got -> same_rcv k k' -> rcv_run k' items got.

(** What every run maintains. *)
Definition run_inv (k : IKCPCB) (items : list (Z * bytes)) (got : bytes) : Prop :=
  rcv_inv (in_order k items) k /\
  items ++ (payload <$> rcv_queue k) = msg <$> seqZ 0 (in_order k items) /\
  got = concat (snd <$> items).

Lemma run_inv_extend items q N N' k' :
  items ++ (payload <$> q) = msg <$> seqZ 0 N -> 0 <= N <= N' ->
  payload <$> rcv_queue k' = (payload <$> q) ++ (msg <$> seqZ N (N' - N)) ->
  N = zlen items + zlen q -> rcv_inv N' k' ->
  rcv_inv (in_order k' items) k' /\
  items ++ (payload <$> rcv_queue k') = msg <$> seqZ 0 (in_order k' items).
Proof.
  intros Hi HN Hq HNq Hinv.
  assert (E : in_order k' items = N').
  { unfold in_order. apply (f_equal length) in Hq.
    rewrite length_app, !length_fmap, length_seqZ in Hq. unfold zlen in *. lia. }
  rewrite E. split; [done|]. rewrite Hq, app_assoc, Hi, <-fmap_app. f_equal.
  replace N' with (N + (N' - N)) at 2 by lia. rewrite seqZ_app by lia. done.
Qed.

Lemma concat_payload (l : list IKCPSEG) : concat (snd <$> (payload <$> l)) = concat (sdata <$> l).
Proof. induction l; simpl; [done|]. by f_equal. Qed.

Lemma rcv_run_inv k items got : rcv_run k items got -> run_inv k items got.
Proof.
  induction 1 as [k H0 Hq|k items got n s _ (Hi & Hs & Hg) _ Hc Hn
    |k items got len n d k' _ (Hi & Hs & Hg) Hl Hr|k items got len n d k' _ (Hi & Hs & Hg) Hl Hr
    |k items got w _ (Hi & Hs & Hg) Hw|k items got k' _ (Hi & Hs & Hg) Hsame].
  - unfold run_inv, in_order. rewrite Hq. done.
  - destruct (parse_data_spec _ n s k Hi Hc Hn) as (N' & HN & Hi' & Hq').
    pose proof (proj1 Hi).
    apply and3_intro; [|done].
    apply (run_inv_extend _ (rcv_queue k) (in_order k items) N'); [done|lia|done|done|done].
  - destruct (ikcp_recv_spec _ len k n d k' Hi Hr) as (rest & N' & Eq & Ed & _ & HN & Hi' & Hq').
    pose proof (proj1 Hi). destruct (Z.ltb_spec len 0); [lia|].
    apply and3_intro.
    + apply (run_inv_extend _ rest (in_order k items) N'); [|lia|done| |done].
      * rewrite <-app_assoc, <-fmap_app, <-Eq. done.
      * unfold in_order. rewrite Eq, !zlen_app. unfold zlen. rewrite !length_fmap. lia.
    + rewrite fmap_app, concat_app, concat_payload, Hg, Ed. done.
  - destruct (ikcp_recv_spec _ len k n d k' Hi Hr) as (rest & N' & Eq & Ed & _ & HN & Hi' & Hq').
    pose proof (proj1 Hi). destruct (Z.ltb_spec len 0); [|lia].
    apply and3_intro; [|done].
    apply (run_inv_extend _ (rcv_queue k) (in_order k items) N'); [done|lia|done|done|done].
  - destruct Hi as (H1 & H2 & _ & H3). done.
  - assert (E : in_order k' items = in_order k items).
    { unfold in_order. destruct Hsame as (_ & _ & _ & _ & -> & _). done. }
    unfold run_inv. rewrite E. split_and!; [by eapply rcv_inv_same| |done].
    destruct Hsame as (_ & _ & _ & _ & -> & _). done.
Qed.
End stream.
