(* ===== verification/KcpInput.v ===== *)
(** * KCP input: parsing datagrams

    [ikcp_input] on a datagram that is a sequence of well-formed segments
    handles them one by one; everything but PUSH leaves the receive side
    alone. *)

From Stdlib Require Import ZArith Lia.
From stdpp Require Import base numbers list gmap.
From S2P Require Import Prelude Util KcpState KcpOps KcpWire KcpRecv.
Open Scope Z_scope.

(** The body of the loop for one segment with header [h] and data [d]. *)
Definition input_one (malloc : Z -> bool) (h : header) (d : bytes) (maxack : option Z)
    : M IKCPCB (option Z) :=
  _ ← modify (set_rmt_wnd (h_wnd h));
  _ ← modify (ikcp_parse_una (h_una h));
  _ ← modify ikcp_shrink_buf;
  if h_cmd h =? IKCP_CMD_ACK then input_ack h maxack
  else if h_cmd h =? IKCP_CMD_PUSH then _ ← input_push malloc h d; mret maxack
  else if h_cmd h =? IKCP_CMD_WASK then
    _ ← modify (fun k => set_probe (Z.lor (probe k) IKCP_ASK_TELL) k); mret maxack
  else mret maxack.

Lemma zslice_prefix {A} (d rest : list A) : zslice (d ++ rest) 0 (zlen d) = Some d.
Proof. by apply (zslice_at _ [] d rest). Qed.

Lemma input_push_app malloc h d rest k :
  h_len h = zlen d -> input_push malloc h (d ++ rest) k = input_push malloc h d k.
Proof.
  intros Hl. unfold input_push. rewrite Hl, zslice_prefix.
  replace (zslice d 0 (zlen d)) with (Some d); [done|].
  rewrite <-(app_nil_r d) at 2. by rewrite zslice_prefix.
Qed.

(** One well-formed segment at the front of the memory that is read, whatever
    the code counts for a header and takes as the number of bytes left. *)
Lemma input_loop_seg_at {o : Overhead} malloc fuel s rest size m k :
  Guid_valid (seg_conv s) -> seg_conv s = conv k -> known_cmd (u8 (cmd s)) = true ->
  0 <= IKCP_OVERHEAD -> IKCP_OVERHEAD + slen s <= size < 2 ^ 31 ->
  input_loop malloc (S fuel) (wire_seg s ++ rest) size m k =
    (m' ← input_one malloc (wire_header s) (sdata s) m;
     input_loop malloc fuel rest (size - IKCP_OVERHEAD - slen s) m') k.
Proof.
  intros Hg Hc Hcmd Ho Hsz. pose proof (zlen_nonneg rest). pose proof (zlen_nonneg (sdata s)).
  unfold slen in *. cbn [input_loop].
  destruct (Z.ltb_spec size IKCP_OVERHEAD); [lia|].
  unfold wire_seg. rewrite <-app_assoc, decode_encode_seg by done.
  erewrite bind_done by done. cbn iota. erewrite bind_done by done.
  rewrite Guid_neqb_negb. cbn [h_conv wire_header]. rewrite Hc.
  destruct (Guid_eqb_spec (conv k) (conv k)); [|done].
  erewrite bind_done by done.
  assert (El : u32 (slen s) = zlen (sdata s)) by (apply uint_small; unfold slen; rng).
  cbn [h_len h_cmd wire_header]. rewrite El, Hcmd.
  rewrite (sint_small 32 (zlen (sdata s))) by (lia || rng).
  rewrite (sint_small 32 (size - IKCP_OVERHEAD)) by (lia || rng).
  destruct (Z.ltb_spec (size - IKCP_OVERHEAD) (zlen (sdata s))); [lia|].
  do 2 erewrite bind_done by done.
  unfold input_one. cbn [h_wnd h_una h_cmd wire_header].
  do 3 (rewrite bind_assoc; apply bind_ext; [done|intros _ ? _]).
  apply bind_ext.
  - repeat case_match; try done. unfold mbind, M_bind. rewrite input_push_app; [done|].
    cbn. by rewrite El.
  - intros m' k' _. destruct (Z.leb_spec (zlen (sdata s)) (zlen (sdata s ++ rest))).
    2:{ rewrite zlen_app in *. lia. }
    erewrite bind_done by done.
    replace (Z.to_nat (zlen (sdata s))) with (length (sdata s)) by (unfold zlen; lia).
    by rewrite drop_app_length, (sint_small 32 (size - IKCP_OVERHEAD - zlen (sdata s))) by (lia || rng).
Qed.

(** One well-formed segment at the front of the datagram. *)
Lemma input_loop_seg malloc fuel s rest m k :
  Guid_valid (seg_conv s) -> seg_conv s = conv k -> known_cmd (u8 (cmd s)) = true ->
  36 + slen s + zlen rest < 2 ^ 31 ->
  input_loop malloc (S fuel) (wire_seg s ++ rest) (36 + slen s + zlen rest) m k =
    (m' ← input_one malloc (wire_header s) (sdata s) m;
     input_loop malloc fuel rest (zlen rest) m') k.
Proof.
  intros Hg Hc Hcmd Hsz. pose proof (zlen_nonneg rest).
  rewrite input_loop_seg_at by (done || (unfold IKCP_OVERHEAD, Overhead_36; lia)).
  apply bind_ext; [done|]. intros m' k' _. do 2 f_equal. unfold IKCP_OVERHEAD, Overhead_36. lia.
Qed.

(** ** The receive side under the other operations *)

Lemma same_rcv_refl k : same_rcv k k.
Proof. done. Qed.

Lemma same_rcv_trans a b c : same_rcv a b -> same_rcv b c -> same_rcv a c.
Proof. unfold same_rcv. intuition congruence. Qed.

Lemma parse_una_rcv u k : same_rcv k (ikcp_parse_una u k).
Proof. unfold ikcp_parse_una. by destruct (una_scan u (snd_buf k)). Qed.

Lemma shrink_buf_rcv k : same_rcv k (ikcp_shrink_buf k).
Proof. unfold ikcp_shrink_buf. by destruct (snd_buf k). Qed.

Lemma parse_ack_rcv n k : same_rcv k (ikcp_parse_ack n k).
Proof. unfold ikcp_parse_ack. destruct (out_of_flight n k); [done|]. destruct (ack_scan _ _) as [l []]; done. Qed.

Lemma parse_fastack_rcv n k : same_rcv k (ikcp_parse_fastack n k).
Proof. unfold ikcp_parse_fastack. by destruct (out_of_flight n k). Qed.

Lemma update_ack_rcv rtt k : same_rcv k (ikcp_update_ack rtt k).
Proof. unfold ikcp_update_ack. destruct (rx_srtt k =? 0); [done|]. by destruct (_ <? 1). Qed.

Lemma ack_push_rcv malloc n t k k' : ikcp_ack_push malloc n t k = Done tt k' -> same_rcv k k'.
Proof.
  unfold ikcp_ack_push, mbind, M_bind, get, put, demand, assert_, mret, M_ret, undef.
  destruct (ackblock k <? _).
  - destruct (newblock_loop _ _ _); [|done]. destruct (malloc _); [|done].
    destruct (_ <? _); [|done]. intros; simplify_eq; done.
  - destruct (_ <? _); [|done]. intros; simplify_eq; done.
Qed.

Lemma grow_cwnd_rcv u k k' : grow_cwnd u k = Done tt k' -> same_rcv k k'.
Proof.
  unfold grow_cwnd, mbind, M_bind, get, put, assert_, mret, M_ret, undef.
  destruct (_ && _); [|intros; simplify_eq; done].
  destruct (cwnd k <? ssthresh k).
  - intros E. injection E as <-. by destruct (_ <? _).
  - destruct (incr k <? mss k); (destruct (negb _); [|done]); intros E; injection E as <-;
      destruct (_ <=? _), (_ <? _); done.
Qed.

(** The segment that [ikcp_input] builds from a PUSH. *)
Definition push_seg (h : header) (d : bytes) : IKCPSEG :=
  MkSeg (h_conv h) (h_cmd h) (h_frg h) (h_wnd h) (h_ts h) (h_sn h) (h_una h) 0 0 0 0 d.

(** Effect of one segment on the receive side: none, or [ikcp_parse_data]. *)
Definition rcv_effect (h : header) (d : bytes) (k k' : IKCPCB) : Prop :=
  same_rcv k k' \/
  h_cmd h = IKCP_CMD_PUSH /\ exists k1, same_rcv k k1 /\ k' = ikcp_parse_data (push_seg h d) k1.

Lemma input_push_effect malloc h d k k' :
  h_cmd h = IKCP_CMD_PUSH -> h_len h = zlen d ->
  input_push malloc h d k = Done tt k' -> rcv_effect h d k k'.
Proof.
  intros Hc Hl. unfold input_push. erewrite bind_done by done.
  destruct (itimediff _ _ <? 0); [|intros E; injection E as <-; by left].
  intros E. apply bind_inv_done in E as ([] & k1 & Ea & E).
  apply ack_push_rcv in Ea. erewrite bind_done in E by done.
  destruct (0 <=? _); [|injection E as <-; by left].
  apply bind_inv_done in E as ([] & k1' & Em & E).
  assert (k1' = k1) as -> by (by unfold assert_ in Em; destruct (malloc _); inversion Em).
  apply bind_inv_done in E as (d' & k2 & Ed & E).
  assert (d' = d /\ k2 = k1) as [-> ->].
  { destruct (Z.ltb_spec 0 (h_len h)).
    - rewrite Hl in Ed. rewrite <-(app_nil_r d) in Ed at 1. rewrite zslice_prefix in Ed.
      by injection Ed as -> ->.
    - injection Ed as <- ->. split; [|done]. symmetry. apply zlen_0.
      pose proof (zlen_nonneg d). lia. }
  injection E as <-. right. split; [done|]. eauto.
Qed.

Lemma input_one_effect malloc h d m k m' k' :
  h_len h = zlen d -> input_one malloc h d m k = Done m' k' -> rcv_effect h d k k'.
Proof.
  intros Hl. unfold input_one. do 3 erewrite bind_done by done.
  set (k1 := ikcp_shrink_buf _).
  assert (Hs : same_rcv k k1).
  { unfold k1. eapply same_rcv_trans; [|apply shrink_buf_rcv].
    eapply same_rcv_trans; [|apply parse_una_rcv]. done. }
  destruct (h_cmd h =? IKCP_CMD_ACK).
  { unfold input_ack. do 3 erewrite bind_done by done. intros E. injection E as <- <-. left.
    eapply same_rcv_trans; [|apply shrink_buf_rcv].
    eapply same_rcv_trans; [|apply parse_ack_rcv].
    eapply same_rcv_trans; [exact Hs|]. destruct (0 <=? _); [apply update_ack_rcv|done]. }
  destruct (Z.eqb_spec (h_cmd h) IKCP_CMD_PUSH) as [Hc|].
  { intros E. apply bind_inv_done in E as ([] & k2 & Ep & E). injection E as <- <-.
    apply input_push_effect in Ep as [Hs2|(_ & k3 & Hs3 & ->)]; [| |done|done].
    - left. by eapply same_rcv_trans.
    - right. split; [done|]. exists k3. split; [|done]. by eapply same_rcv_trans. }
  destruct (h_cmd h =? IKCP_CMD_WASK); intros E.
  - erewrite bind_done in E by done. injection E as <- <-. left. by eapply same_rcv_trans.
  - injection E as <- <-. by left.
Qed.

(** ** Datagrams of genuine segments *)

Lemma input_loop_conv malloc fuel s rest size m k r k' :
  Guid_valid (seg_conv s) -> 36 <= size ->
  input_loop malloc (S fuel) (wire_seg s ++ rest) size m k = Done r k' -> seg_conv s = conv k.
Proof.
  intros Hg Hs. cbn [input_loop]. unfold IKCP_OVERHEAD, Overhead_36. destruct (Z.ltb_spec size 36); [lia|].
  unfold wire_seg. rewrite <-app_assoc, decode_encode_seg by done.
  erewrite bind_done by done. cbn iota. erewrite bind_done by done.
  rewrite Guid_neqb_negb. cbn [h_conv wire_header].
  destruct (Guid_eqb_spec (seg_conv s) (conv k)); [done|].
  by erewrite bind_fail by done.
Qed.

Section datagram.
Context (cnv : Guid) (msg : Z -> Z * bytes) (limit : Z).

(** A segment of the peer of connection [cnv]: a control segment, or item [n]
    of its stream. *)
Definition genuine (s : IKCPSEG) : Prop :=
  (Guid_valid cnv /\ seg_conv s = cnv) /\ is_uint 8 (cmd s) /\ known_cmd (cmd s) = true /\
  (cmd s = IKCP_CMD_PUSH ->
   is_uint 8 (frg s) /\ exists n, 0 <= n /\ carries msg limit n s).

Lemma genuine_push_seg s :
  genuine s -> cmd s = IKCP_CMD_PUSH -> exists n, 0 <= n /\
    carries msg limit n (push_seg (wire_header s) (sdata s)).
Proof.
  intros (_ & _ & _ & H) Hc. destruct (H Hc) as (Hf & n & Hn & Hsn & Hp & Hl).
  exists n. split; [done|]. split_and!; [|unfold payload in *; cbn; by rewrite uint_small|done].
  cbn. rewrite Hsn. by apply uint_uint.
Qed.

(** Handling one genuine segment extends the run, while the stream is shorter
    than [2^31] items. *)
Lemma input_one_run malloc s m k m' k' items got :
  limit <= 2 ^ 31 -> slen s < 2 ^ 31 ->
  rcv_run msg limit k items got -> genuine s ->
  input_one malloc (wire_header s) (sdata s) m k = Done m' k' ->
  rcv_run msg limit k' items got.
Proof.
  intros Hlim Hl Hrun Hg E. pose proof Hg as (_ & Hcmd & _ & _).
  apply input_one_effect in E as [Hs|(Hc & k1 & Hs & ->)].
  - by eapply run_other.
  - destruct (genuine_push_seg s Hg) as (n & Hn & Hcar).
    { cbn in Hc. by rewrite uint_small in Hc. }
    assert (Hrun1 : rcv_run msg limit k1 items got) by (by eapply run_other).
    eapply run_arrive; [exact Hrun1|exact Hn|exact Hcar|].
    destruct (rcv_run_inv _ _ _ _ _ Hrun1) as (((H0 & H1) & _) & _).
    destruct Hcar as (_ & _ & Hn2). lia.
  - cbn. apply uint_small. unfold slen in *. pose proof (zlen_nonneg (sdata s)). rng.
Qed.

Lemma input_loop_run malloc segs fuel m k m' k' items got :
  limit <= 2 ^ 31 -> zlen (wire segs) < 2 ^ 31 ->
  rcv_run msg limit k items got -> Forall genuine segs ->
  input_loop malloc fuel (wire segs) (zlen (wire segs)) m k = Done m' k' ->
  rcv_run msg limit k' items got.
Proof.
  intros Hlim Hl Hrun Hg. revert fuel m k Hl Hrun.
  induction Hg as [|s segs Hs Hg IH]; intros fuel m k Hl Hrun E.
  { destruct fuel; [done|]. by injection E as <- <-. }
  destruct fuel as [|fuel]; [done|].
  change (wire (s :: segs)) with (wire_seg s ++ wire segs) in *.
  rewrite zlen_app, wire_seg_len in *.
  pose proof (zlen_nonneg (wire segs)). pose proof (zlen_nonneg (sdata s)).
  pose proof Hs as ((Hgu & Hgc) & Hcb & Hkn & _). rewrite <-Hgc in Hgu.
  assert (E0 : seg_conv s = conv k).
  { eapply input_loop_conv; [done| |exact E]. unfold slen. lia. }
  rewrite input_loop_seg in E; [|done|done|by rewrite uint_small|done].
  apply bind_inv_done in E as (m1 & k1 & E1 & E2).
  apply (IH fuel m1 k1); [unfold slen in *; lia| |done].
  eapply input_one_run; [done| |exact Hrun|done|exact E1]. lia.
Qed.

Lemma ikcp_input_run malloc segs k k' items got :
  limit <= 2 ^ 31 -> zlen (wire segs) < 2 ^ 31 ->
  rcv_run msg limit k items got -> Forall genuine segs ->
  ikcp_input malloc (wire segs) k = Done tt k' ->
  rcv_run msg limit k' items got.
Proof.
  intros Hlim Hl Hrun Hg E. unfold ikcp_input in E. erewrite bind_done in E by done.
  destruct (zlen (wire segs) <? IKCP_OVERHEAD); [by erewrite bind_fail in E by done|].
  erewrite bind_done in E by done.
  apply bind_inv_done in E as (m & k1 & E1 & E). erewrite bind_done in E by done.
  apply grow_cwnd_rcv in E. apply input_loop_run with (items := items) (got := got) in E1; try done.
  eapply run_other; [exact E1|]. eapply same_rcv_trans; [|exact E].
  destruct m; [apply parse_fastack_rcv|done].
Qed.
End datagram.
