(* ===== verification/KcpFlush.v ===== *)
(** * KCP output: what [ikcp_flush] puts on the network

    Every datagram that [ikcp_flush] hands to the output callback is a
    sequence of whole segments no longer than the MTU; the working buffer is
    never overrun; and nothing but the send side changes. *)

From Stdlib Require Import ZArith Lia.
From stdpp Require Import base numbers list gmap.
From S2P Require Import Prelude Util KcpState KcpOps KcpWire KcpRecv.
Open Scope Z_scope.

(** Settings under which output is possible. *)
Definition tx_ok (k : IKCPCB) : Prop :=
  output k = true /\ 36 <= mtu k < 2 ^ 31 /\ mtu k <= bufsize k.

(** Segments that differ in timers and piggybacked state only. *)
Definition same_core (s s' : IKCPSEG) : Prop :=
  seg_conv s' = seg_conv s /\ cmd s' = cmd s /\ frg s' = frg s /\ sn s' = sn s /\
  sdata s' = sdata s.

Lemma same_core_refl s : same_core s s.
Proof. done. Qed.

Section emission.
(** [G] is a property of the segments put on the wire that does not depend on
    timers or piggybacked state. *)
Context (G : IKCPSEG -> Prop) (G_core : forall s s', same_core s s' -> G s -> G s').

(** A datagram of segments in [G], at most [m] bytes. *)
Definition good (m : Z) (pkt : bytes) : Prop :=
  exists segs, pkt = wire segs /\ Forall G segs /\ zlen pkt <= m.

(** From [k] to [k'] only good datagrams were sent; the transmission counter
    and the link state may have changed as well. *)
Definition emitted (k k' : IKCPCB) : Prop :=
  k' = set_state (state k') (set_xmit (xmit k') (set_sent (sent k') k)) /\
  exists l, sent k' = sent k ++ l /\ Forall (good (mtu k)) l.

Lemma emitted_refl k : emitted k k.
Proof. split; [by destruct k|]. exists []. by rewrite app_nil_r. Qed.

Lemma emitted_trans a b c : emitted a b -> emitted b c -> emitted a c.
Proof.
  intros [E1 (l1 & S1 & F1)] [E2 (l2 & S2 & F2)]. split.
  - rewrite E2, E1. done.
  - exists (l1 ++ l2). rewrite S2, S1, app_assoc. split; [done|].
    apply Forall_app. split; [done|].
    assert (mtu b = mtu a) as <- by (by rewrite E1). done.
Qed.

Lemma emitted_tx k k' : emitted k k' -> tx_ok k -> tx_ok k'.
Proof. intros [-> _]. done. Qed.

Lemma emitted_mtu k k' : emitted k k' -> mtu k' = mtu k.
Proof. by intros [-> _]. Qed.

Lemma good_nil m : 0 <= m -> good m [].
Proof. intros. exists []. done. Qed.

Lemma good_snoc m pkt s :
  good m pkt -> G s -> zlen pkt + 36 + slen s <= m -> good m (pkt ++ wire_seg s).
Proof.
  intros (segs & -> & Hs & _) Hg Hl. exists (segs ++ [s]). split_and!.
  - rewrite wire_app. unfold wire at 3. simpl. by rewrite app_nil_r.
  - apply Forall_app. split; [done|]. by apply Forall_singleton.
  - rewrite zlen_app, wire_seg_len. lia.
Qed.

Lemma ikcp_output_spec k pkt :
  tx_ok k -> good (mtu k) pkt ->
  exists k', ikcp_output pkt k = Done tt k' /\ emitted k k'.
Proof.
  intros (Ho & _) Hp. unfold ikcp_output. erewrite bind_done by done. rewrite Ho.
  erewrite bind_done by done. destruct (zlen pkt =? 0).
  - exists k. split; [done|apply emitted_refl].
  - eexists. split; [done|]. split; [by destruct k|]. exists [pkt]. split; [done|].
    by apply Forall_singleton.
Qed.

Lemma make_room_spec need k pkt :
  tx_ok k -> good (mtu k) pkt -> 0 <= need <= mtu k ->
  exists p k', make_room need pkt k = Done p k' /\ emitted k k' /\ good (mtu k) p /\
    zlen p + need <= mtu k.
Proof.
  intros Ht Hp Hn. pose proof Ht as (Ho & Hm & Hb). unfold make_room.
  erewrite bind_done by done. rewrite sint_small by (lia || rng).
  destruct (Z.ltb_spec (mtu k) (zlen pkt + need)).
  - destruct (ikcp_output_spec k pkt Ht Hp) as (k' & E & He).
    erewrite bind_done by exact E. exists [], k'. split; [done|]. split; [done|].
    split; [apply good_nil; lia|]. rewrite zlen_nil. lia.
  - exists pkt, k. split; [done|]. split; [apply emitted_refl|]. done.
Qed.

Lemma emit_spec bs p k : zlen p + zlen bs <= bufsize k -> emit bs p k = Done (p ++ bs) k.
Proof.
  intros H. unfold emit. erewrite bind_done by done.
  destruct (Z.leb_spec (zlen p + zlen bs) (bufsize k)); [|lia]. by erewrite bind_done by done.
Qed.

(** Room for a segment, then its header and data. *)
Lemma send_seg_spec s k pkt :
  tx_ok k -> good (mtu k) pkt -> G s -> 36 + slen s <= mtu k ->
  exists p k', make_room (IKCP_OVERHEAD + slen s) pkt k = Done p k' /\ emitted k k' /\
    emit (ikcp_encode_seg s) p k' = Done (p ++ ikcp_encode_seg s) k' /\
    emit (sdata s) (p ++ ikcp_encode_seg s) k' = Done (p ++ wire_seg s) k' /\
    good (mtu k) (p ++ wire_seg s).
Proof.
  intros Ht Hp Hg Hl. pose proof (zlen_nonneg (sdata s)). unfold slen, IKCP_OVERHEAD, Overhead_36 in *.
  destruct (make_room_spec (36 + zlen (sdata s)) k pkt Ht Hp ltac:(lia)) as (p & k' & E & He & Hgp & Hz).
  destruct (emitted_tx _ _ He Ht) as (_ & _ & Hb'). rewrite (emitted_mtu _ _ He) in Hb'.
  exists p, k'. split_and!; [done|done| | |].
  - apply emit_spec. rewrite ikcp_encode_seg_len. lia.
  - unfold wire_seg. rewrite app_assoc. apply emit_spec.
    rewrite zlen_app, ikcp_encode_seg_len. lia.
  - apply good_snoc; [done|done|]. unfold slen. lia.
Qed.

Lemma wire_seg_empty s : sdata s = [] -> wire_seg s = ikcp_encode_seg s.
Proof. intros E. unfold wire_seg. by rewrite E, app_nil_r. Qed.

(** A control segment (no data). *)
Lemma send_ctl_spec s k pkt :
  tx_ok k -> good (mtu k) pkt -> G s -> sdata s = [] ->
  exists p k', make_room IKCP_OVERHEAD pkt k = Done p k' /\ emitted k k' /\
    emit (ikcp_encode_seg s) p k' = Done (p ++ ikcp_encode_seg s) k' /\
    good (mtu k) (p ++ ikcp_encode_seg s).
Proof.
  intros Ht Hp Hg Hd. assert (Hl : slen s = 0) by (unfold slen; by rewrite Hd).
  pose proof Ht as (_ & Hm & _).
  destruct (send_seg_spec s k pkt Ht Hp Hg ltac:(lia)) as (p & k' & E & He & E1 & _ & Hgd).
  rewrite Hl, Z.add_0_r in E. rewrite wire_seg_empty in Hgd by done. eauto 10.
Qed.

Lemma flush_acks_spec acks seg pkt k :
  tx_ok k -> good (mtu k) pkt -> sdata seg = [] -> (forall n t, G (set_sn_ts n t seg)) ->
  exists seg' p k', flush_acks acks seg pkt k = Done (seg', p) k' /\ emitted k k' /\
    good (mtu k) p /\ sdata seg' = [] /\ seg_conv seg' = seg_conv seg /\ wnd seg' = wnd seg.
Proof.
  revert seg pkt k. induction acks as [|[n t] acks IH]; intros seg pkt k Ht Hp Hd Hg; cbn [flush_acks].
  { exists seg, pkt, k. split_and!; try done. apply emitted_refl. }
  destruct (send_ctl_spec (set_sn_ts n t seg) k pkt Ht Hp (Hg n t) Hd) as (p & k1 & E & He & E1 & Hgd).
  erewrite bind_done by exact E. cbv zeta. erewrite bind_done by exact E1.
  destruct (IH (set_sn_ts n t seg) (p ++ ikcp_encode_seg (set_sn_ts n t seg)) k1)
    as (seg' & p' & k' & E' & He' & Hg' & Hd' & Hc' & Hw').
  - by eapply emitted_tx.
  - by rewrite (emitted_mtu _ _ He).
  - done.
  - intros n' t'. apply (G_core (set_sn_ts n' t' seg)); [done|apply Hg].
  - exists seg', p', k'. rewrite (emitted_mtu _ _ He) in Hg'.
    split_and!; try done. by eapply emitted_trans.
Qed.

Lemma flush_cmd_spec bit c seg pkt k :
  tx_ok k -> good (mtu k) pkt -> sdata seg = [] ->
  (forall n t, G (set_sn_ts n t (set_cmd c seg))) ->
  exists seg' p k', flush_cmd bit c (seg, pkt) k = Done (seg', p) k' /\ emitted k k' /\
    good (mtu k) p /\ sdata seg' = [] /\ seg_conv seg' = seg_conv seg /\ wnd seg' = wnd seg.
Proof.
  intros Ht Hp Hd Hg. unfold flush_cmd. erewrite bind_done by done. cbn [fst snd].
  destruct (Z.land (probe k) bit =? 0).
  { exists seg, pkt, k. split_and!; try done. apply emitted_refl. }
  assert (HG : G (set_cmd c seg)).
  { apply (G_core (set_sn_ts (sn seg) (ts seg) (set_cmd c seg))); [by destruct seg|apply Hg]. }
  destruct (send_ctl_spec (set_cmd c seg) k pkt Ht Hp HG Hd) as (p & k1 & E & He & E1 & Hgd).
  erewrite bind_done by exact E. erewrite bind_done by exact E1.
  eexists _, _, k1. split_and!; try done.
Qed.

Lemma seg_resend_core k now rtomin d s : same_core s (seg_resend k now rtomin d s).
Proof. by destruct d. Qed.

Lemma emitted_xmit_state k x st : emitted k (set_state st (set_xmit x k)).
Proof. split; [by destruct k|]. exists []. by rewrite app_nil_r. Qed.

(** One segment of the flush loop: counters, and transmission when it is due. *)
Definition flush_one {overhead : Overhead} (now resent rtomin wn : Z) (s : IKCPSEG) (pkt : bytes)
    : M IKCPCB (IKCPSEG * bytes) :=
  k ← get;
  let d := seg_due now resent s in
  let s := seg_resend k now rtomin d s in
  _ ← (match d with
       | Timeout => put (set_xmit (u32 (xmit k + 1)) k)
       | _ => mret tt
       end);
  match d with
  | NotDue => mret (s, pkt)
  | _ =>
      let s := set_ts_wnd_una now wn (rcv_nxt k) s in
      pkt ← make_room (IKCP_OVERHEAD + slen s) pkt;
      pkt ← emit (ikcp_encode_seg s) pkt;
      pkt ← emit (sdata s) pkt;
      _ ← modify (fun k => if dead_link k <=? seg_xmit s then set_state (u32 (-1)) k else k);
      mret (s, pkt)
  end.

Lemma flush_data_cons {overhead : Overhead} now resent rtomin wn s l pkt lost change k :
  flush_data now resent rtomin wn (s :: l) pkt lost change k =
    ('(s', pkt) ← flush_one now resent rtomin wn s pkt;
     let d := seg_due now resent s in
     let lost := match d with Timeout => true | _ => lost end in
     let change := match d with Fast => change + 1 | _ => change end in
     '(l, pkt, lost, change) ← flush_data now resent rtomin wn l pkt lost change;
     mret (s' :: l, pkt, lost, change)) k.
Proof.
  cbn [flush_data]. unfold flush_one. rewrite bind_assoc. apply bind_ext; [done|].
  intros ? k1 _. cbv zeta. rewrite bind_assoc. apply bind_ext; done.
Qed.

Lemma flush_one_spec now resent rtomin wn s pkt k :
  tx_ok k -> good (mtu k) pkt -> G s -> 36 + slen s <= mtu k ->
  exists s' p k', flush_one now resent rtomin wn s pkt k = Done (s', p) k' /\
    emitted k k' /\ good (mtu k) p /\ same_core s s'.
Proof.
  intros Ht Hp Hg Hl. unfold flush_one. erewrite bind_done by done. cbv zeta.
  set (d := seg_due now resent s). set (s1 := seg_resend k now rtomin d s).
  assert (Hcore1 : same_core s s1) by apply seg_resend_core.
  set (s2 := set_ts_wnd_una now wn (rcv_nxt k) s1).
  assert (Hcore : same_core s s2) by exact Hcore1.
  assert (Hl2 : slen s2 = slen s) by (unfold slen; by destruct Hcore as (_ & _ & _ & _ & ->)).
  assert (Send : forall k1, emitted k k1 ->
    exists s' p k',
      (pkt ← make_room (IKCP_OVERHEAD + slen s2) pkt;
       pkt ← emit (ikcp_encode_seg s2) pkt;
       pkt ← emit (sdata s2) pkt;
       _ ← modify (fun k => if dead_link k <=? seg_xmit s2 then set_state (u32 (-1)) k else k);
       mret (s2, pkt)) k1 = Done (s', p) k' /\ emitted k k' /\ good (mtu k) p /\ same_core s s').
  { intros k1 He1. pose proof (emitted_mtu _ _ He1) as Em.
    destruct (send_seg_spec s2 k1 pkt) as (p & k2 & E & He2 & E1 & E2 & Hgd).
    - by eapply emitted_tx.
    - by rewrite Em.
    - by eapply G_core.
    - rewrite Hl2, Em. done.
    - erewrite bind_done by exact E. erewrite bind_done by exact E1. erewrite bind_done by exact E2.
      erewrite bind_done by done. eexists s2, _, _. split; [done|]. rewrite Em in Hgd. split_and!; [|done|done].
      eapply emitted_trans; [exact He1|]. eapply emitted_trans; [exact He2|].
      destruct (_ <=? _); [|apply emitted_refl]. split; [by destruct k2|]. exists []. by rewrite app_nil_r. }
  destruct d eqn:Ed.
  - erewrite bind_done by done. exists s1, pkt, k. split_and!; try done. apply emitted_refl.
  - erewrite bind_done by done. apply Send, emitted_refl.
  - erewrite bind_done by done. apply Send. split; [by destruct k|]. exists []. by rewrite app_nil_r.
  - erewrite bind_done by done. apply Send, emitted_refl.
Qed.

Lemma flush_data_spec now resent rtomin wn l pkt lost change k :
  tx_ok k -> good (mtu k) pkt -> Forall (fun s => G s /\ 36 + slen s <= mtu k) l ->
  exists l' p lost' change' k',
    flush_data now resent rtomin wn l pkt lost change k = Done (l', p, lost', change') k' /\
    emitted k k' /\ good (mtu k) p /\ Forall2 same_core l l'.
Proof.
  intros Ht Hp Hl. revert pkt lost change k Ht Hp Hl.
  induction l as [|s l IH]; intros pkt lost change k Ht Hp Hl.
  { exists [], pkt, lost, change, k. split_and!; try done. apply emitted_refl. }
  apply Forall_cons in Hl as [[Hg Hs] Hl]. rewrite flush_data_cons.
  destruct (flush_one_spec now resent rtomin wn s pkt k Ht Hp Hg Hs) as (s' & p & k1 & E & He & Hgd & Hc).
  erewrite bind_done by exact E. cbn iota. cbv zeta.
  pose proof (emitted_mtu _ _ He) as Em.
  edestruct (IH p) as (l' & p' & lost' & change' & k' & E' & He' & Hg' & Hcs).
  - by eapply emitted_tx.
  - by rewrite Em.
  - by rewrite Em.
  - erewrite bind_done by exact E'. eexists (s' :: l'), p', lost', change', k'.
    split; [done|]. rewrite Em in Hg'. split_and!; [by eapply emitted_trans|done|by constructor].
Qed.
End emission.
