(* ===== verification/KcpSender.v ===== *)
(** * KCP sender: the stream of segments and the whole of [ikcp_flush]

    [hist] is the list of payloads that [ikcp_flush] has numbered so far; item
    [n] of it travels under the wire number [n mod 2^32].  Everything in
    [snd_buf] and everything ever sent is an item of [hist] or a control
    segment. *)

From Stdlib Require Import ZArith Lia.
From stdpp Require Import base numbers list gmap.
From S2P Require Import Prelude Util KcpState KcpOps KcpWire KcpRecv KcpInput KcpFlush.
Open Scope Z_scope.

(** The stream of a sender with history [hist]. *)
Definition msg_of (hist : list (Z * bytes)) (n : Z) : Z * bytes :=
  default (0, []) (hist !! Z.to_nat n).

Abbreviation of_hist c hist := (genuine c (msg_of hist) (zlen hist)).

Lemma msg_of_app hist more n : 0 <= n < zlen hist -> msg_of (hist ++ more) n = msg_of hist n.
Proof. intros H. unfold msg_of. rewrite lookup_app_l; [done|]. unfold zlen in H. lia. Qed.

Lemma carries_app hist more n s :
  0 <= n -> carries (msg_of hist) (zlen hist) n s ->
  carries (msg_of (hist ++ more)) (zlen (hist ++ more)) n s.
Proof.
  intros Hn (H1 & H2 & H3). pose proof (zlen_nonneg more).
  split_and!; [done| |rewrite zlen_app; lia]. by rewrite msg_of_app by lia.
Qed.

Lemma of_hist_app c hist more s : of_hist c hist s -> of_hist c (hist ++ more) s.
Proof.
  intros ([G1 G2] & H2 & H3 & H4). split_and!; try done. intros Hc.
  destruct (H4 Hc) as (Hf & n & Hn & Hcar). split; [done|]. exists n. split; [done|].
  by apply carries_app.
Qed.

Lemma of_hist_core c hist s s' : same_core s s' -> of_hist c hist s -> of_hist c hist s'.
Proof.
  intros (E1 & E2 & E3 & E4 & E5) (H1 & H2 & H3 & H4).
  unfold genuine, carries, payload. rewrite E1, E2, E3, E4, E5. done.
Qed.

(** A control segment is genuine whatever the history. *)
Lemma of_hist_ctl c hist s :
  Guid_valid c -> seg_conv s = c -> is_uint 8 (cmd s) -> known_cmd (cmd s) = true ->
  cmd s <> IKCP_CMD_PUSH -> of_hist c hist s.
Proof. intros. split_and!; done. Qed.

(** ** The send-side invariant *)

Definition in_flight (hist : list (Z * bytes)) (k : IKCPCB) (s : IKCPSEG) : Prop :=
  seg_conv s = conv k /\ cmd s = IKCP_CMD_PUSH /\ is_uint 8 (frg s) /\
  exists n, 0 <= n /\ carries (msg_of hist) (zlen hist) n s.

(** The counters are the lengths of the queues. *)
Definition snd_counts (k : IKCPCB) : Prop :=
  nsnd_que k = u32 (zlen (snd_queue k)) /\ nsnd_buf k = u32 (zlen (snd_buf k)).

(** The ack array holds what [ackcount] says. *)
Definition ack_ok (k : IKCPCB) : Prop :=
  0 <= ackcount k <= zlen (acklist k) /\ ackcount k <= ackblock k.

Definition snd_inv (hist : list (Z * bytes)) (k : IKCPCB) : Prop :=
  Guid_valid (conv k) /\ snd_nxt k = u32 (zlen hist) /\ snd_counts k /\
  Forall (fun s => is_uint 8 (frg s)) (snd_queue k) /\
  Forall (in_flight hist k) (snd_buf k).

(** Every queued segment fits in a datagram. *)
Definition size_inv (k : IKCPCB) : Prop :=
  Forall (fun s => 36 + slen s <= mtu k) (snd_queue k) /\
  Forall (fun s => 36 + slen s <= mtu k) (snd_buf k).

Lemma in_flight_genuine hist k s :
  Guid_valid (conv k) -> in_flight hist k s -> of_hist (conv k) hist s.
Proof.
  intros Hg (Hc & Hcmd & Hf & n & Hn & Hcar). split_and!; [done|done|by rewrite Hcmd..|].
  intros _. split; [done|]. eauto.
Qed.

(** Same settings, queues and receive side; only good datagrams were added. *)
Definition tx_step (G : IKCPSEG -> Prop) (k k' : IKCPCB) : Prop :=
  (output k' = output k /\ mtu k' = mtu k /\ bufsize k' = bufsize k /\ conv k' = conv k /\
   mss k' = mss k /\ stream k' = stream k) /\
  same_rcv k k' /\
  (snd_queue k' = snd_queue k /\ snd_buf k' = snd_buf k /\ snd_nxt k' = snd_nxt k /\
   nsnd_que k' = nsnd_que k /\ nsnd_buf k' = nsnd_buf k) /\ (ack_ok k -> ack_ok k') /\
  exists l, sent k' = sent k ++ l /\ Forall (good G (mtu k)) l.

Lemma tx_step_refl G k : tx_step G k k.
Proof. split_and!; try done; [].  exists []. by rewrite app_nil_r. Qed.

Lemma tx_step_trans G a b c : tx_step G a b -> tx_step G b c -> tx_step G a c.
Proof.
  intros ((A1 & A2 & A3 & A4 & Am & As) & A5 & (A6 & A7 & A8 & A81 & A82) & A83 & l1 & A9 & A10)
         ((B1 & B2 & B3 & B4 & Bm & Bs) & B5 & (B6 & B7 & B8 & B81 & B82) & B83 & l2 & B9 & B10).
  split_and!; try congruence; try (eapply same_rcv_trans; eassumption); [auto|].
  exists (l1 ++ l2). rewrite B9, A9, app_assoc. split; [done|].
  rewrite A2 in B10. by apply Forall_app.
Qed.

Lemma emitted_step G k k' : emitted G k k' -> tx_step G k k'.
Proof.
  intros [E H]. split_and!; by rewrite E || done.
Qed.

Lemma step_silent G k k' :
  output k' = output k -> mtu k' = mtu k -> bufsize k' = bufsize k -> conv k' = conv k ->
  mss k' = mss k -> stream k' = stream k ->
  same_rcv k k' -> snd_queue k' = snd_queue k -> snd_buf k' = snd_buf k ->
  snd_nxt k' = snd_nxt k -> nsnd_que k' = nsnd_que k -> nsnd_buf k' = nsnd_buf k ->
  (ack_ok k -> ack_ok k') -> sent k' = sent k -> tx_step G k k'.
Proof. intros. split_and!; try done. exists []. by rewrite app_nil_r. Qed.

Lemma flush_probe_step G k : tx_step G k (flush_probe k).
Proof.
  unfold flush_probe. destruct (rmt_wnd k =? 0); [|by apply step_silent].
  destruct (probe_wait k =? 0); [by apply step_silent|].
  destruct (0 <=? _); [|apply tx_step_refl].
  destruct (probe_wait k <? _), (IKCP_PROBE_LIMIT <? _); by apply step_silent.
Qed.

Lemma flush_ssthresh_step G resent w lost change k :
  tx_step G k (flush_ssthresh resent w lost change k).
Proof.
  apply step_silent; unfold flush_ssthresh; destruct (change =? 0), lost;
    repeat case_match; done.
Qed.

Lemma tx_step_ok G k k' : tx_step G k k' -> tx_ok k -> tx_ok k'.
Proof. intros ((E1 & E2 & E3 & _) & _). unfold tx_ok. by rewrite E1, E2, E3. Qed.

(** ** Moving segments into the window *)

Definition move_frame (k k' : IKCPCB) : Prop :=
  k' = set_snd_nxt (snd_nxt k') (set_nsnd_buf (nsnd_buf k') (set_nsnd_que (nsnd_que k')
         (set_snd_buf (snd_buf k') (set_snd_queue (snd_queue k') k)))).

Lemma flush_move_spec fuel w wn now hist k :
  snd_inv hist k -> size_inv k ->
  let k' := flush_move fuel w wn now k in
  exists l, snd_queue k = l ++ snd_queue k' /\ snd_inv (hist ++ (payload <$> l)) k' /\
    size_inv k' /\ move_frame k k'.
Proof.
  revert hist k. induction fuel as [|fuel IH]; intros hist k Hi Hs; cbn [flush_move].
  { exists []. rewrite app_nil_r. split_and!; try done. by destruct k. }
  destruct (snd_queue k) as [|s rest] eqn:Eq.
  { exists []. rewrite app_nil_r. split_and!; try done. by destruct k. }
  destruct (_ <? 0).
  2:{ exists []. rewrite app_nil_r. split_and!; try done. by destruct k. }
  match goal with |- context [flush_move fuel w wn now ?x] => set (k1 := x) end.
  set (s1 := MkSeg _ _ _ _ _ _ _ _ _ _ _ _) in (value of k1).
  pose proof Hi as (Hg & Hn & [Hc1 Hc2] & Hq & Hb). pose proof Hs as [Hsq Hsb].
  rewrite Eq in Hq, Hsq, Hc1. apply Forall_cons in Hq as [Hf Hq]. apply Forall_cons in Hsq as [Hl Hsq].
  destruct (IH (hist ++ [payload s]) k1) as (l & El & Hi' & Hs' & Hfr).
  - unfold snd_inv, k1. cbn [conv snd_nxt snd_queue snd_buf set_snd_nxt set_nsnd_buf set_nsnd_que set_snd_buf set_snd_queue].
    split_and!; [done| |split| |]; cbn.
    + by rewrite Hn, u32_succ, zlen_app.
    + rewrite Hc1, zlen_cons. unfold uint. rewrite Zminus_mod_idemp_l. f_equal. lia.
    + by rewrite Hc2, u32_succ, zlen_app.
    + done.
    + apply Forall_app. split.
      * eapply Forall_impl; [exact Hb|]. intros x (X1 & X2 & X3 & n & X4 & X5).
        split_and!; try done. exists n. split; [done|]. by apply carries_app.
      * apply Forall_singleton. split_and!; try done. exists (zlen hist).
        split; [apply zlen_nonneg|]. split_and!; [by rewrite <-Hn| |rewrite zlen_app; change (zlen [payload s]) with 1; lia].
        unfold msg_of. rewrite lookup_app_r by (unfold zlen; lia).
        replace (Z.to_nat (zlen hist) - length hist)%nat with 0%nat by (unfold zlen; lia). done.
  - split; [done|]. apply Forall_app. split; [done|]. by apply Forall_singleton.
  - exists (s :: l). change (snd_queue k1) with rest in El.
    replace (hist ++ (payload <$> s :: l)) with ((hist ++ [payload s]) ++ (payload <$> l)) by (by rewrite <-app_assoc).
    split_and!; [by rewrite El|done|done|]. unfold move_frame in *. rewrite Hfr. done.
Qed.

(** ** One whole flush *)

Lemma set_silent G k k' : tx_step G k k' -> forall m, mtu k = m ->
  tx_ok k -> tx_ok k' /\ mtu k' = m /\ conv k' = conv k.
Proof. intros H m <- Ht. pose proof H as ((_ & ? & _ & ? & _) & _). eauto using tx_step_ok. Qed.

Lemma flush_ctl_spec c hist k :
  tx_ok k -> conv k = c -> Guid_valid c -> ackcount k <= zlen (acklist k) -> 0 <= ackcount k ->
  exists pkt k', flush_ctl (flush_seg k) k = Done pkt k' /\ tx_step (of_hist c hist) k k' /\
    good (of_hist c hist) (mtu k) pkt.
Proof.
  intros Ht Hcv Hg Ha Ha0. pose proof Ht as (_ & Hm & _).
  assert (Hctl : forall x n t s, seg_conv s = c -> is_uint 8 x -> known_cmd x = true ->
    x <> IKCP_CMD_PUSH -> of_hist c hist (set_sn_ts n t (set_cmd x s))).
  { intros. by apply of_hist_ctl. }
  unfold flush_ctl. erewrite bind_done by done. cbv zeta.
  assert (Hcnt : i32 (ackcount k) <= zlen (acklist k)).
  { etrans; [|exact Ha]. unfold sint. change (2 ^ (32 - 1)) with 2147483648.
    pose proof (Z.mod_le (ackcount k + 2147483648) (2 ^ 32)). lia. }
  destruct (Z.leb_spec (i32 (ackcount k)) (zlen (acklist k))); [|lia].
  erewrite bind_done by done.
  destruct (flush_acks_spec (of_hist c hist) (of_hist_core c hist)
    (take (Z.to_nat (i32 (ackcount k))) (acklist k)) (flush_seg k) [] k)
    as (s1 & p1 & k1 & E1 & He1 & Hg1 & Hd1 & Hc1 & _); [done|apply good_nil; lia|done| |].
  { intros n t. apply (Hctl IKCP_CMD_ACK n t (flush_seg k)); done. }
  erewrite bind_done by exact E1. do 2 erewrite bind_done by done.
  apply emitted_step in He1. set (k2 := flush_probe _).
  assert (H2 : tx_step (of_hist c hist) k k2).
  { eapply tx_step_trans; [exact He1|]. eapply tx_step_trans; [|apply flush_probe_step].
    apply step_silent; try done. intros [[? ?] ?]. repeat split; cbn; try lia; apply zlen_nonneg. }
  destruct (set_silent _ _ _ H2 _ eq_refl Ht) as (Ht2 & Hm2 & _).
  destruct (flush_cmd_spec (of_hist c hist) (of_hist_core c hist) IKCP_ASK_SEND IKCP_CMD_WASK s1 p1 k2)
    as (s3 & p3 & k3 & E3 & He3 & Hg3 & Hd3 & Hc3 & _); [done|by rewrite Hm2|done|intros; apply Hctl; try done; by rewrite Hc1|].
  erewrite bind_done by exact E3. rewrite Hm2 in Hg3.
  assert (H3 : tx_step (of_hist c hist) k k3) by (eapply tx_step_trans; [exact H2|by apply emitted_step]).
  destruct (set_silent _ _ _ H3 _ eq_refl Ht) as (Ht3 & Hm3 & _).
  destruct (flush_cmd_spec (of_hist c hist) (of_hist_core c hist) IKCP_ASK_TELL IKCP_CMD_WINS s3 p3 k3)
    as (s4 & p4 & k4 & E4 & He4 & Hg4 & Hd4 & Hc4 & _); [done|by rewrite Hm3|done| |].
  { intros. apply Hctl; try done. by rewrite Hc3, Hc1. }
  erewrite bind_done by exact E4. rewrite Hm3 in Hg4. erewrite bind_done by done.
  exists p4, (set_probe 0 k4). split_and!; [done| |done].
  eapply tx_step_trans; [exact H3|]. eapply tx_step_trans; [by apply emitted_step|by apply step_silent].
Qed.

Lemma good_weaken (G G' : IKCPSEG -> Prop) m p :
  (forall s, G s -> G' s) -> good G m p -> good G' m p.
Proof. intros H (segs & -> & Hs & ?). exists segs. split_and!; [done|by eapply Forall_impl|done]. Qed.

Lemma tx_step_inv G k k' hist :
  tx_step G k k' -> snd_inv hist k -> size_inv k -> snd_inv hist k' /\ size_inv k'.
Proof.
  intros ((_ & Em & _ & Ec & _) & _ & (Eq & Eb & En & Eq' & Eb') & _) (H1 & H2 & H2' & H3 & H4) (H5 & H6).
  unfold snd_inv, size_inv, in_flight, snd_counts. rewrite Em, Ec, Eq, Eb, En, Eq', Eb'. done.
Qed.

(** The timers of [snd_buf] may change, not what its segments carry. *)
Lemma snd_buf_core hist k l :
  Forall2 same_core (snd_buf k) l -> snd_inv hist k -> size_inv k ->
  snd_inv hist (set_snd_buf l k) /\ size_inv (set_snd_buf l k).
Proof.
  intros Hl (H1 & H2 & [Hc1 Hc2] & H3 & H4) (H5 & H6).
  assert (Hc : snd_counts (set_snd_buf l k)).
  { split; [done|]. cbn. rewrite Hc2. unfold zlen. by rewrite (Forall2_length _ _ _ Hl). }
  assert (Hin : Forall (in_flight hist k) l /\ Forall (fun s => 36 + slen s <= mtu k) l); [|done || by destruct Hin].
  clear H5 Hc Hc2. induction Hl as [|s s' l l' (E1 & E2 & E3 & E4 & E5) _ IH]; [done|].
  apply Forall_cons in H4 as [(F1 & F2 & F3 & n & F4 & F5) H4]. apply Forall_cons in H6 as [F6 H6].
  destruct (IH H4 H6) as [IH1 IH2]. split; constructor; try done.
  - unfold in_flight, carries, payload. rewrite E1, E2, E3, E4, E5. split_and!; try done. eauto.
  - unfold slen. by rewrite E5.
Qed.

(** What a flush may do, from [k] to [k'], on a sender with history [hist]:
    segments [l] left [snd_queue] and joined the history; every datagram
    fits the MTU and is a sequence of genuine segments. *)
Definition flushed (hist : list (Z * bytes)) (l : list IKCPSEG) (k k' : IKCPCB) : Prop :=
  snd_queue k = l ++ snd_queue k' /\
  snd_inv (hist ++ (payload <$> l)) k' /\ size_inv k' /\ tx_ok k' /\ ack_ok k' /\ same_rcv k k' /\
  mtu k' = mtu k /\ conv k' = conv k /\ mss k' = mss k /\ stream k' = stream k /\
  exists pkts, sent k' = sent k ++ pkts /\
    Forall (good (of_hist (conv k) (hist ++ (payload <$> l))) (mtu k)) pkts.

(** Two stages: the segments move, then the datagrams go out. *)
Lemma flushed_intro c hist l k k1 k2 k3 k4 b :
  conv k = c -> tx_ok k -> ack_ok k -> tx_step (of_hist c hist) k k1 -> snd_queue k1 = l ++ snd_queue k2 -> move_frame k1 k2 ->
  snd_inv (hist ++ (payload <$> l)) k2 -> size_inv k2 ->
  tx_step (of_hist c (hist ++ (payload <$> l))) k2 k3 ->
  Forall2 same_core (snd_buf k2) b ->
  tx_step (of_hist c (hist ++ (payload <$> l))) (set_snd_buf b k3) k4 ->
  flushed hist l k k4.
Proof.
  intros <- Ht Ha H1 El Hf Hi Hs H3 Hb H4.
  pose proof H1 as ((O1 & M1 & B1 & C1 & Z1 & T1) & R1 & (Q1 & _) & A1 & l1 & S1 & F1).
  pose proof H3 as ((O3 & M3 & B3 & C3 & Z3 & T3) & R3 & (Q3 & Bf3 & _) & A3 & l3 & S3 & F3).
  pose proof H4 as ((O4 & M4 & B4 & C4 & Z4 & T4) & R4 & (Q4 & _) & A4 & l4 & S4 & F4).
  destruct (tx_step_inv _ _ _ _ H3 Hi Hs) as [Hi3 Hs3]. rewrite <-Bf3 in Hb.
  destruct (snd_buf_core _ _ _ Hb Hi3 Hs3) as [Hi3' Hs3'].
  destruct (tx_step_inv _ _ _ _ H4 Hi3' Hs3') as [Hi4 Hs4]. cbn in *.
  assert (M2 : mtu k2 = mtu k1) by (by rewrite Hf).
  assert (C2 : conv k2 = conv k1) by (by rewrite Hf).
  assert (Z2 : mss k2 = mss k1) by (by rewrite Hf).
  assert (T2 : stream k2 = stream k1) by (by rewrite Hf).
  split_and!; [congruence|done|done| | | |congruence..|].
  - eapply tx_step_ok; [exact H4|]. change (tx_ok k3). eapply tx_step_ok; [exact H3|].
    rewrite Hf. change (tx_ok k1). by eapply tx_step_ok.
  - apply A4. change (ack_ok k3). apply A3. rewrite Hf. change (ack_ok k1). auto.
  - eapply same_rcv_trans; [exact R1|]. eapply (same_rcv_trans _ k2); [by rewrite Hf|].
    eapply same_rcv_trans; [exact R3|]. exact R4.
  - assert (S2 : sent k2 = sent k1) by (by rewrite Hf).
    exists (l1 ++ l3 ++ l4). rewrite S4, S3, S2, S1, <-!app_assoc. split; [done|].
    rewrite M3 in F4. rewrite M2, M1 in F3, F4. rewrite !Forall_app. split_and!; try done.
    eapply Forall_impl; [exact F1|]. intros p. apply good_weaken. intros. by apply of_hist_app.
Qed.

Lemma ikcp_flush_spec hist k :
  tx_ok k -> snd_inv hist k -> size_inv k -> ack_ok k ->
  exists l k', ikcp_flush k = Done tt k' /\ flushed hist l k k'.
Proof.
  intros Ht Hi Hs Ha. unfold ikcp_flush. erewrite bind_done by done.
  destruct (updated k =? 0).
  { exists [], k. split; [done|]. unfold flushed. rewrite app_nil_r. split_and!; try done.
    exists []. by rewrite app_nil_r. }
  cbv zeta. set (c := conv k).
  destruct (flush_ctl_spec c hist k Ht eq_refl (proj1 Hi) (proj2 (proj1 Ha)) (proj1 (proj1 Ha))) as (pkt & k1 & E1 & H1 & Hg1).
  erewrite bind_done by exact E1. do 2 erewrite bind_done by done.
  destruct (set_silent _ _ _ H1 _ eq_refl Ht) as (Ht1 & Hm1 & Hc1).
  destruct (tx_step_inv _ _ _ _ H1 Hi Hs) as [Hi1 Hs1].
  destruct (flush_move_spec (length (snd_queue k1)) (flush_cwnd k1) (wnd (flush_seg k)) (current k) hist k1 Hi1 Hs1)
    as (l & El & Hi2 & Hs2 & Hf2).
  set (k2 := flush_move _ _ _ _ k1) in *. erewrite bind_done by done.
  assert (Em2 : mtu k2 = mtu k) by (rewrite Hf2; exact Hm1).
  assert (Ht2 : tx_ok k2) by (rewrite Hf2; exact Ht1).
  set (hist' := hist ++ (payload <$> l)) in *.
  destruct (flush_data_spec (of_hist c hist') (of_hist_core c hist') (current k)
    (if 0 <? fastresend k2 then u32 (fastresend k2) else 4294967295)
    (if nodelay k2 =? 0 then u32 (Z.shiftr (rx_rto k2) 3) else 0) (wnd (flush_seg k))
    (snd_buf k2) pkt false 0 k2) as (b & p & lost & change & k3 & E3 & He3 & Hg3 & Hb).
  { done. }
  { rewrite Em2. eapply good_weaken; [|exact Hg1]. intros. by apply of_hist_app. }
  { destruct Hi2 as (Hv & _ & _ & _ & Hfl), Hs2 as [_ Hsz]. apply Forall_forall. intros x Hx.
    rewrite Forall_forall in Hfl, Hsz. split; [|by apply Hsz].
    assert (Ec : conv k2 = c) by (rewrite Hf2; exact Hc1). rewrite <-Ec.
    eapply in_flight_genuine; [exact Hv|by apply Hfl]. }
  erewrite bind_done by exact E3. cbn iota. erewrite bind_done by done.
  pose proof (emitted_step _ _ _ He3) as H3.
  assert (exists k4, (if 0 <? zlen p then ikcp_output p else mret tt) (set_snd_buf b k3) = Done tt k4 /\
    tx_step (of_hist c hist') (set_snd_buf b k3) k4) as (k4 & E4 & H4).
  { destruct (0 <? zlen p); [|eexists; split; [done|apply tx_step_refl]].
    destruct (ikcp_output_spec (of_hist c hist') (set_snd_buf b k3) p) as (k4 & E4 & H4).
    - change (tx_ok k3). by eapply tx_step_ok.
    - change (mtu (set_snd_buf b k3)) with (mtu k3). by rewrite (emitted_mtu _ _ _ He3).
    - exists k4. split; [done|]. by apply emitted_step. }
  erewrite bind_done by exact E4. eexists l, _. split; [done|].
  eapply (flushed_intro c hist l k k1 k2 k3 _ b); try done.
  eapply tx_step_trans; [exact H4|apply flush_ssthresh_step].
Qed.
