(* ===== verification/KcpSend.v ===== *)
(** * KCP: [ikcp_send] and the effect of input on the send side

    [ikcp_send] cuts a message into fragments of at most [mss] bytes, numbered
    downwards; [ikcp_input] only takes acknowledged segments out of
    [snd_buf]. *)

From Stdlib Require Import ZArith Lia.
From stdpp Require Import base numbers list gmap.
From S2P Require Import Prelude Util KcpState KcpOps KcpWire KcpRecv KcpInput KcpFlush KcpSender.
Open Scope Z_scope.

(** ** Fragmentation *)

(** [n] fragments of [buf] of at most [m] bytes; the last one is number 0 (in
    streaming mode all are). *)
Fixpoint frag_segs (n : nat) (m : Z) (st : bool) (buf : bytes) : list IKCPSEG :=
  match n with
  | O => []
  | S n =>
      let size := Z.to_nat (Z.min m (zlen buf)) in
      new_seg (take size buf) (if st then 0 else Z.of_nat n) :: frag_segs n m st (drop size buf)
  end.

Lemma frag_segs_length n m st buf : length (frag_segs n m st buf) = n.
Proof. revert buf. induction n; intros buf; simpl; auto. Qed.

Lemma frag_segs_zlen n m st buf : zlen (frag_segs n m st buf) = Z.of_nat n.
Proof. unfold zlen. by rewrite frag_segs_length. Qed.

Lemma frag_segs_data n m st buf :
  0 <= m -> zlen buf <= Z.of_nat n * m -> concat (sdata <$> frag_segs n m st buf) = buf.
Proof.
  intros Hm. revert buf. induction n as [|n IH]; intros buf Hl; simpl.
  { symmetry. apply zlen_0. pose proof (zlen_nonneg buf). lia. }
  rewrite IH; [apply take_drop|]. rewrite zlen_drop. lia.
Qed.

Lemma frag_segs_size n m st buf : 0 <= m -> Forall (fun s => slen s <= m) (frag_segs n m st buf).
Proof.
  intros Hm. revert buf. induction n as [|n IH]; intros buf; simpl; constructor; [|apply IH].
  unfold slen. simpl. rewrite zlen_take. lia.
Qed.

Lemma frag_segs_frg n m st buf :
  Forall (fun s => 0 <= frg s < Z.max 1 (Z.of_nat n)) (frag_segs n m st buf).
Proof.
  revert buf. induction n as [|n IH]; intros buf; simpl; constructor.
  - destruct st; simpl; lia.
  - eapply Forall_impl; [apply IH|]. simpl. lia.
Qed.

(** Message mode numbers the fragments down to 0. *)
Lemma frag_segs_countdown n m buf : frg <$> frag_segs n m false buf = rev (seqZ 0 (Z.of_nat n)).
Proof.
  revert buf. induction n as [|n IH]; intros buf; [done|]. cbn [frag_segs]. rewrite fmap_cons, IH. cbn.
  replace (Z.of_nat (S n)) with (Z.of_nat n + 1) by lia. rewrite seqZ_app, rev_app_distr by lia. done.
Qed.

(** Allocation of every segment of a list succeeds. *)
Definition segs_fit (malloc : Z -> bool) (l : list IKCPSEG) : bool :=
  forallb (fun s => malloc (sizeof_IKCPSEG + slen s)) l.

(** Queue [l] behind what is there. *)
Definition enqueue (l : list IKCPSEG) (k : IKCPCB) : IKCPCB :=
  set_nsnd_que (u32 (nsnd_que k + zlen l)) (set_snd_queue (snd_queue k ++ l) k).

Lemma fragment_loop_eq malloc n buf k :
  0 <= mss k < 2 ^ 31 -> is_uint 32 (nsnd_que k) ->
  let l := frag_segs n (mss k) (negb (stream k =? 0)) buf in
  fragment_loop malloc n buf k = if segs_fit malloc l then Done tt (enqueue l k) else Undef.
Proof.
  intros Hm. revert buf k Hm. induction n as [|n IH]; intros buf k Hm Hn; cbn [frag_segs fragment_loop].
  { cbn. unfold enqueue. rewrite zlen_nil, Z.add_0_r, app_nil_r, uint_small by done. by destruct k. }
  erewrite bind_done by done. rewrite sint_small by (lia || rng).
  replace (if mss k <? zlen buf then mss k else zlen buf) with (Z.min (mss k) (zlen buf)) by (zbool; lia).
  set (s := new_seg _ _). cbv zeta.
  replace (new_seg _ _) with s by (unfold s; by destruct (stream k =? 0)).
  unfold segs_fit. cbn [forallb]. fold (segs_fit malloc).
  replace (slen s) with (Z.min (mss k) (zlen buf)).
  2:{ unfold slen, s. cbn. rewrite zlen_take. pose proof (zlen_nonneg buf). lia. }
  unfold assert_. destruct (malloc _); [|done]. erewrite bind_done by done. erewrite bind_done by done.
  rewrite IH; [|done|apply uint_range; lia]. cbn [mss stream set_nsnd_que set_snd_queue].
  unfold segs_fit. simpl andb. destruct (forallb _ _); [|done]. f_equal.
  unfold enqueue. cbn [nsnd_que snd_queue set_nsnd_que set_snd_queue]. rewrite uint_add_l, <-app_assoc by lia.
  rewrite zlen_cons, Z.add_assoc. done.
Qed.

(** The number of fragments. *)
Definition frag_count (m len : Z) : Z := if len <=? m then 1 else (len + m - 1) / m.

Lemma frag_count_bounds m len : 0 < m -> 0 <= len ->
  1 <= frag_count m len <= len + 1 /\ len <= frag_count m len * m.
Proof.
  intros Hm Hl. unfold frag_count. destruct (Z.leb_spec len m); [nia|].
  pose proof (Z.div_mod (len + m - 1) m ltac:(lia)).
  pose proof (Z.mod_pos_bound (len + m - 1) m ltac:(lia)). split; [|nia].
  split; [nia|]. assert ((len + m - 1) / m < len + 1); [|lia]. apply Z.div_lt_upper_bound; nia.
Qed.

(** The fragments of a whole message. *)
Definition frags (m : Z) (st : bool) (buf : bytes) : list IKCPSEG :=
  frag_segs (Z.to_nat (frag_count m (zlen buf))) m st buf.

Lemma fragment_eq malloc buf k :
  0 < mss k < 2 ^ 31 -> is_uint 32 (nsnd_que k) -> zlen buf < 2 ^ 31 ->
  let l := frags (mss k) (negb (stream k =? 0)) buf in
  fragment malloc buf k =
    if 128 <=? frag_count (mss k) (zlen buf) then Fail (-2) k
    else if segs_fit malloc l then Done tt (enqueue l k) else Undef.
Proof.
  intros Hm Hn Hl. cbv zeta. unfold fragment. erewrite bind_done by done.
  rewrite sint_small by (lia || rng).
  pose proof (zlen_nonneg buf). pose proof (frag_count_bounds (mss k) (zlen buf) ltac:(lia) ltac:(lia)) as [Hb _].
  assert (Ec : (if zlen buf <=? mss k then 1 else i32 (u32 (zlen buf + mss k - 1) / mss k)) =
               frag_count (mss k) (zlen buf)).
  { unfold frag_count in *. destruct (zlen buf <=? mss k) eqn:E; [done|]. apply Z.leb_gt in E.
    rewrite uint_small by rng. apply sint_small; [lia|].
    split; [rng|]. apply Z.div_lt_upper_bound; rng. }
  cbv zeta. rewrite Ec. rewrite (uint_small 32 (frag_count _ _)) by rng. unfold IKCP_WND_RCV.
  destruct (128 <=? frag_count (mss k) (zlen buf)); [done|]. erewrite bind_done by done.
  destruct (Z.eqb_spec (frag_count (mss k) (zlen buf)) 0); [lia|].
  apply fragment_loop_eq; [lia|done].
Qed.

(** ** [ikcp_send] *)

(** Queued segments are well-formed: at most [m] bytes, fragment number a byte. *)
Definition seg_ok (m : Z) (s : IKCPSEG) : Prop := slen s <= m /\ is_uint 8 (frg s).

(** What a successful send of [buf] does: [q] replaces [snd_queue]. *)
Definition queued (buf : bytes) (k k' : IKCPCB) : Prop :=
  k' = set_nsnd_que (u32 (zlen (snd_queue k'))) (set_snd_queue (snd_queue k') k) /\
  concat (sdata <$> snd_queue k') = concat (sdata <$> snd_queue k) ++ buf /\
  zlen (snd_queue k') <= zlen (snd_queue k) + zlen buf + 1 /\
  (Forall (seg_ok (mss k)) (snd_queue k) -> Forall (seg_ok (mss k)) (snd_queue k')) /\
  (stream k = 0 -> snd_queue k' = snd_queue k ++ frags (mss k) false buf).

Lemma frags_ok m st buf :
  0 < m -> frag_count m (zlen buf) < 128 -> Forall (seg_ok m) (frags m st buf).
Proof.
  intros Hm Hc. unfold frags. pose proof (zlen_nonneg buf) as Hl.
  destruct (frag_count_bounds m (zlen buf) Hm Hl) as [[H1 _] _].
  apply Forall_and. split; [apply frag_segs_size; lia|].
  eapply Forall_impl; [apply frag_segs_frg|]. simpl. intros s Hs. rng.
Qed.

Lemma frags_data m st buf : 0 < m -> concat (sdata <$> frags m st buf) = buf.
Proof.
  intros Hm. pose proof (zlen_nonneg buf). unfold frags.
  destruct (frag_count_bounds m (zlen buf)) as [? ?]; [done|done|]. apply frag_segs_data; lia.
Qed.

Lemma frags_zlen m st buf : 0 < m -> 1 <= zlen (frags m st buf) <= zlen buf + 1.
Proof.
  intros Hm. pose proof (zlen_nonneg buf). unfold frags. rewrite frag_segs_zlen.
  destruct (frag_count_bounds m (zlen buf)) as [? ?]; [done|done|]. lia.
Qed.

Lemma snd_counts_uint k : snd_counts k -> is_uint 32 (nsnd_que k).
Proof. intros [-> _]. apply uint_range. lia. Qed.

Lemma fragment_done malloc buf k k' :
  0 < mss k < 2 ^ 31 -> zlen buf < 2 ^ 31 -> snd_counts k ->
  fragment malloc buf k = Done tt k' -> queued buf k k'.
Proof.
  intros Hm Hl Hc E. rewrite fragment_eq in E by eauto using snd_counts_uint.
  destruct (Z.leb_spec 128 (frag_count (mss k) (zlen buf))); [done|].
  destruct (segs_fit _ _); [|done]. injection E as <-. unfold queued, enqueue.
  cbn [snd_queue set_nsnd_que set_snd_queue]. rewrite fmap_app, concat_app, frags_data, zlen_app by lia.
  pose proof (frags_zlen (mss k) (negb (stream k =? 0)) buf ltac:(lia)).
  split_and!; [|done|lia| |].
  - destruct Hc as [-> _]. by rewrite uint_add_l.
  - intros. apply Forall_app. split; [done|]. apply frags_ok; lia.
  - by intros ->.
Qed.

Lemma last_removelast {A} (l : list A) x : last l = Some x -> l = removelast l ++ [x].
Proof.
  induction l as [|y [|z l] IH]; intros E; [done|by injection E as ->|].
  change (last (y :: z :: l)) with (last (z :: l)) in E.
  change (removelast (y :: z :: l)) with (y :: removelast (z :: l)). simpl app. f_equal. by apply IH.
Qed.

(** The streaming append leaves [rest] to be sent. *)
Lemma stream_append_done malloc buf k rest k1 :
  0 < mss k < 2 ^ 31 -> snd_counts k -> stream_append malloc buf k = Done rest k1 ->
  exists now, buf = now ++ rest /\
    k1 = set_snd_queue (snd_queue k1) k /\ zlen (snd_queue k1) = zlen (snd_queue k) /\
    concat (sdata <$> snd_queue k1) = concat (sdata <$> snd_queue k) ++ now /\
    (Forall (seg_ok (mss k)) (snd_queue k) -> Forall (seg_ok (mss k)) (snd_queue k1)).
Proof.
  intros Hm Hc. unfold stream_append. erewrite bind_done by done.
  assert (Nothing : forall r q, Done buf k = @Done IKCPCB bytes r q -> exists now, buf = now ++ r /\
    q = set_snd_queue (snd_queue q) k /\ zlen (snd_queue q) = zlen (snd_queue k) /\
    concat (sdata <$> snd_queue q) = concat (sdata <$> snd_queue k) ++ now /\
    (Forall (seg_ok (mss k)) (snd_queue k) -> Forall (seg_ok (mss k)) (snd_queue q))).
  { intros r q E. injection E as <- <-. exists []. rewrite app_nil_r. split_and!; try done. by destruct k. }
  destruct (last (snd_queue k)) as [old|] eqn:El; [|apply Nothing].
  destruct (Z.ltb_spec (slen old) (mss k)); [|apply Nothing]. clear Nothing.
  apply last_removelast in El. set (ql := removelast (snd_queue k)) in *.
  cbv zeta. set (ext := if zlen buf <? mss k - slen old then _ else _).
  intros E. apply bind_inv_done in E as ([] & k2 & Ea & E).
  assert (k2 = k) as -> by (unfold assert_ in Ea; destruct (malloc _); by inversion Ea).
  injection E as <- <-. exists (take (Z.to_nat ext) buf). cbn [snd_queue set_snd_queue].
  rewrite El, !fmap_app, !concat_app, !zlen_app. cbn. rewrite !app_nil_r.
  split_and!; [by rewrite take_drop|done|done|by rewrite app_assoc|].
  rewrite !Forall_app, !Forall_singleton. intros [? _]. split; [done|]. split; [|by split].
  unfold slen. cbn. rewrite zlen_app, zlen_take. change (zlen (sdata old)) with (slen old).
  pose proof (zlen_nonneg buf). unfold ext. zbool; lia.
Qed.

Lemma ikcp_send_done malloc buf k k' :
  0 < mss k < 2 ^ 31 -> zlen buf < 2 ^ 31 -> snd_counts k ->
  ikcp_send malloc buf k = Done tt k' -> queued buf k k'.
Proof.
  intros Hm Hl Hc. unfold ikcp_send. erewrite bind_done by done.
  destruct (Z.ltb_spec 0 (mss k)); [|lia]. erewrite bind_done by done.
  destruct (Z.eqb_spec (stream k) 0) as [|Hst]; [by apply fragment_done|].
  intros E. apply bind_inv_done in E as (rest & k1 & E1 & E).
  destruct (stream_append_done _ _ _ _ _ Hm Hc E1) as (now & Hb & Hk1 & Hlen & Hcat & Hok).
  pose proof (zlen_nonneg now). pose proof (zlen_nonneg rest).
  assert (Hz : zlen buf = zlen now + zlen rest) by (by rewrite Hb, zlen_app).
  assert (Em : mss k1 = mss k) by (by rewrite Hk1).
  destruct Hc as [Hc1 Hc2].
  destruct (Z.leb_spec (zlen rest) 0).
  - injection E as <-. assert (rest = []) as -> by (apply zlen_0; lia). rewrite app_nil_r in Hb.
    subst now. split_and!; [|done|lia|done|done].
    rewrite Hlen, <-Hc1. rewrite Hk1 at 1. by destruct k.
  - assert (Hc' : snd_counts k1).
    { split; [rewrite Hk1 at 1; cbn; by rewrite Hlen|by rewrite Hk1]. }
    apply fragment_done in E as (Q1 & Q2 & Q3 & Q4 & _); [|by rewrite Em|lia|done].
    rewrite Em in Q4. split_and!; [|by rewrite Q2, Hcat, Hb, app_assoc|lia|auto|done].
    rewrite Q1 at 1. rewrite Hk1. done.
Qed.

(** ** The send side under input *)

(** [ikcp_input] (and [ikcp_recv]) on the send side: nothing but the removal
    of segments from [snd_buf] and timer changes. *)
Definition rx_frame (k k' : IKCPCB) : Prop :=
  (output k' = output k /\ mtu k' = mtu k /\ mss k' = mss k /\ bufsize k' = bufsize k /\
   conv k' = conv k /\ stream k' = stream k /\ sent k' = sent k) /\
  (snd_queue k' = snd_queue k /\ snd_nxt k' = snd_nxt k /\ nsnd_que k' = nsnd_que k) /\
  (forall s', s' ∈ snd_buf k' -> exists s, s ∈ snd_buf k /\ same_core s s') /\
  (snd_counts k -> snd_counts k') /\ (ack_ok k -> ack_ok k').

#[export] Instance rx_frame_preorder : PreOrder rx_frame.
Proof.
  split.
  - intros k. split_and!; try done. intros s Hs. exists s. split; [done|apply same_core_refl].
  - intros a b c ((A1 & A2 & A3 & A4 & A5 & A6 & A7) & (A8 & A9 & A10) & A11 & A12 & A13)
                 ((B1 & B2 & B3 & B4 & B5 & B6 & B7) & (B8 & B9 & B10) & B11 & B12 & B13).
    split_and!; try congruence; auto. intros s Hs.
    destruct (B11 s Hs) as (s1 & Hs1 & C1). destruct (A11 s1 Hs1) as (s2 & Hs2 & C2).
    exists s2. split; [done|]. unfold same_core in *. intuition congruence.
Qed.

(** Changes that do not concern the send side. *)
Lemma rx_frame_set k k' :
  output k' = output k -> mtu k' = mtu k -> mss k' = mss k -> bufsize k' = bufsize k ->
  conv k' = conv k -> stream k' = stream k -> sent k' = sent k ->
  snd_queue k' = snd_queue k -> snd_nxt k' = snd_nxt k -> nsnd_que k' = nsnd_que k ->
  snd_buf k' = snd_buf k -> nsnd_buf k' = nsnd_buf k ->
  ackcount k' = ackcount k -> acklist k' = acklist k -> ackblock k' = ackblock k -> rx_frame k k'.
Proof.
  intros ??????? Hq Hn Hnq Hb Hnb Ha Hl Hbl. split_and!; try done.
  - rewrite Hb. intros s Hs. exists s. split; [done|apply same_core_refl].
  - unfold snd_counts. by rewrite Hq, Hnq, Hb, Hnb.
  - unfold ack_ok. by rewrite Ha, Hl, Hbl.
Qed.

(** New contents [l] of [snd_buf], [c] segments fewer. *)
Lemma rx_frame_buf k l c :
  (forall s', s' ∈ l -> exists s, s ∈ snd_buf k /\ same_core s s') ->
  zlen l = zlen (snd_buf k) - c ->
  rx_frame k (set_nsnd_buf (u32 (nsnd_buf k - c)) (set_snd_buf l k)).
Proof.
  intros Hl Hc. split_and!; try done. intros [H1 H2]. split; [done|]. cbn.
  rewrite H2, Hc. unfold uint. by rewrite Zminus_mod_idemp_l.
Qed.

Lemma elem_core (l : list IKCPSEG) s : s ∈ l -> exists s0, s0 ∈ l /\ same_core s0 s.
Proof. intros. exists s. split; [done|apply same_core_refl]. Qed.

Lemma una_scan_spec u l r c : una_scan u l = (r, c) -> zlen r = zlen l - c /\ forall s, s ∈ r -> s ∈ l.
Proof.
  revert r c. induction l as [|s l IH]; intros r c; simpl; [intros; by simplify_eq|].
  destruct (0 <? _); [|intros; simplify_eq; split; [lia|done]].
  destruct (una_scan u l) as [r1 c1]. intros; simplify_eq.
  destruct (IH r c1 eq_refl) as [? ?]. rewrite zlen_cons. split; [lia|]. intros. right. auto.
Qed.

Lemma parse_una_frame u k : rx_frame k (ikcp_parse_una u k).
Proof.
  unfold ikcp_parse_una. destruct (una_scan u (snd_buf k)) as [r c] eqn:E.
  apply una_scan_spec in E as [? ?]. apply rx_frame_buf; [|done]. intros. apply elem_core. auto.
Qed.

Lemma shrink_buf_frame k : rx_frame k (ikcp_shrink_buf k).
Proof. unfold ikcp_shrink_buf. destruct (snd_buf k); by apply rx_frame_set. Qed.

Lemma ack_scan_spec n l r b : ack_scan n l = (r, b) ->
  zlen r = zlen l - (if b then 1 else 0) /\ forall s, s ∈ r -> s ∈ l.
Proof.
  revert r b. induction l as [|s l IH]; intros r b; cbn [ack_scan]; [intros; by simplify_eq|].
  destruct (n =? sn s); [intros; simplify_eq; rewrite zlen_cons; split; [lia|]; intros; by right|].
  destruct (_ <? 0); [intros; simplify_eq; split; [lia|done]|].
  destruct (ack_scan n l) as [r1 b1]. intros; simplify_eq.
  destruct (IH r1 b eq_refl) as [? ?]. rewrite !zlen_cons. split; [lia|].
  intros x [->|Hx]%elem_of_cons; [by left|right; auto].
Qed.

(** New contents of [snd_buf] of the same length. *)
Lemma rx_frame_same k l :
  (forall s', s' ∈ l -> exists s, s ∈ snd_buf k /\ same_core s s') ->
  zlen l = zlen (snd_buf k) -> rx_frame k (set_snd_buf l k).
Proof.
  intros Hl Hc. split_and!; try done. intros [H1 H2]. split; [done|]. cbn. by rewrite H2, Hc.
Qed.

Lemma parse_ack_frame n k : rx_frame k (ikcp_parse_ack n k).
Proof.
  unfold ikcp_parse_ack. destruct (out_of_flight n k); [reflexivity|].
  destruct (ack_scan n (snd_buf k)) as [r b] eqn:E. apply ack_scan_spec in E as [Hz Hin].
  assert (Hc : forall s', s' ∈ r -> exists s, s ∈ snd_buf k /\ same_core s s').
  { intros. apply elem_core. auto. }
  destruct b; [by apply (rx_frame_buf k r 1)|]. apply rx_frame_same; [done|lia].
Qed.

Lemma fastack_scan_core n l : Forall2 same_core l (fastack_scan n l).
Proof.
  assert (Hrefl : forall l, Forall2 same_core l l) by (induction l0; constructor; done).
  induction l as [|s l IH]; simpl; [constructor|]. destruct (_ <? 0); [apply Hrefl|].
  constructor; [by destruct (negb _)|done].
Qed.

Lemma parse_fastack_frame n k : rx_frame k (ikcp_parse_fastack n k).
Proof.
  unfold ikcp_parse_fastack. destruct (out_of_flight n k); [reflexivity|].
  pose proof (fastack_scan_core n (snd_buf k)) as H. apply rx_frame_same.
  - intros s' Hs. apply list_elem_of_lookup in Hs as [i Hi].
    destruct (Forall2_lookup_r _ _ _ _ _ H Hi) as (s & Hs & Hc). exists s. split; [|done].
    by eapply list_elem_of_lookup_2.
  - unfold zlen. by rewrite (Forall2_length _ _ _ H).
Qed.

Lemma update_ack_frame rtt k : rx_frame k (ikcp_update_ack rtt k).
Proof.
  unfold ikcp_update_ack. apply rx_frame_set; destruct (rx_srtt k =? 0); try done; by destruct (_ <? 1).
Qed.

Lemma move_loop_frame fuel k : rx_frame k (move_loop fuel k).
Proof.
  revert k. induction fuel as [|fuel IH]; intros k; cbn [move_loop]; [reflexivity|].
  destruct (rcv_buf k); [reflexivity|]. destruct (_ && _); [|reflexivity].
  etrans; [|apply IH]. by apply rx_frame_set.
Qed.

Lemma parse_data_frame s k : rx_frame k (ikcp_parse_data s k).
Proof.
  unfold ikcp_parse_data. destruct (_ || _); [reflexivity|].
  etrans; [|apply move_loop_frame]. destruct (insert_seg s (rcv_buf k)); [by apply rx_frame_set|reflexivity].
Qed.

Lemma ack_push_frame malloc n t k : after rx_frame k (ikcp_ack_push malloc n t k).
Proof.
  unfold ikcp_ack_push, mbind, M_bind, get, put, demand, assert_, mret, M_ret, undef.
  assert (Hpush : forall k1, rx_frame k k1 -> ackcount k1 = ackcount k ->
    take (Z.to_nat (ackcount k)) (acklist k1) = take (Z.to_nat (ackcount k)) (acklist k) ->
    ackcount k < ackblock k1 ->
    rx_frame k (set_ackcount (u32 (ackcount k1 + 1))
      (set_acklist (take (Z.to_nat (ackcount k1)) (acklist k1) ++ [(n, t)]) k1))).
  { intros k1 (A1 & A2 & A3 & A4 & A5) Ec El Hlt. split_and!; try apply A1; try apply A2; try done.
    intros [[H0 H1] H2]. rewrite Ec, El. unfold ack_ok. cbn. rewrite zlen_app, zlen_take.
    change (zlen [(n, t)]) with 1. pose proof (uint_range 32 (ackcount k + 1) ltac:(lia)) as [? _].
    assert (u32 (ackcount k + 1) <= ackcount k + 1) by (apply Z.mod_le; lia). lia. }
  destruct (ackblock k <? _).
  - destruct (newblock_loop _ _ _); [|done]. destruct (malloc _); [|done].
    destruct (Z.ltb_spec (ackcount (set_ackblock z (set_acklist (take (Z.to_nat (ackcount k)) (acklist k)) k)))
      (ackblock (set_ackblock z (set_acklist (take (Z.to_nat (ackcount k)) (acklist k)) k)))); [|done]. simpl.
    apply (Hpush (set_ackblock z (set_acklist (take (Z.to_nat (ackcount k)) (acklist k)) k))); [|done| |done].
    + split_and!; try done; [apply elem_core|]. intros [[H0 H1] H2]. unfold ack_ok. cbn in *.
      rewrite zlen_take. lia.
    + cbn. by rewrite take_take, Nat.min_id.
  - destruct (Z.ltb_spec (ackcount k) (ackblock k)); [|done]. simpl. apply (Hpush k); [reflexivity|done|done|done].
Qed.

Lemma input_push_frame malloc h rest k : after rx_frame k (input_push malloc h rest k).
Proof.
  unfold input_push. effects. destruct (_ <? 0); effects; [apply ack_push_frame|].
  destruct (0 <=? _); effects; [|apply parse_data_frame]. destruct (0 <? _); effects.
Qed.

Lemma input_ack_frame h m k : after rx_frame k (input_ack h m k).
Proof.
  unfold input_ack. effects.
  - destruct (0 <=? _); [apply update_ack_frame|reflexivity].
  - apply parse_ack_frame.
  - apply shrink_buf_frame.
Qed.

Lemma grow_cwnd_frame u k : after rx_frame k (grow_cwnd u k).
Proof.
  unfold grow_cwnd, mbind, M_bind, get, put, assert_, mret, M_ret, undef.
  destruct (_ && _); [|simpl; reflexivity]. cbv zeta.
  destruct (cwnd k <? ssthresh k).
  - simpl. destruct (_ <? _); by apply rx_frame_set.
  - destruct (incr k <? mss k); (destruct (negb _); [|done]); simpl;
      destruct (_ <=? _), (_ <? _); by apply rx_frame_set.
Qed.

Lemma input_one_frame malloc h d m k : after rx_frame k (input_one malloc h d m k).
Proof.
  unfold input_one. effects; [by apply rx_frame_set|apply parse_una_frame|apply shrink_buf_frame|].
  destruct (h_cmd h =? IKCP_CMD_ACK); [apply input_ack_frame|].
  destruct (h_cmd h =? IKCP_CMD_PUSH); [effects; apply input_push_frame|].
  destruct (h_cmd h =? IKCP_CMD_WASK); effects. by apply rx_frame_set.
Qed.

Lemma input_loop_frame {overhead : Overhead} malloc fuel data size m k :
  after rx_frame k (input_loop malloc fuel data size m k).
Proof.
  revert data size m k. induction fuel as [|fuel IH]; intros data size m k; cbn [input_loop]; [done|].
  destruct (size <? IKCP_OVERHEAD); [effects|].
  apply (after_bind _); [apply (after_demand _)|]. intros [h rest] k0 _. cbn iota.
  effects; try (by apply rx_frame_set); try apply parse_una_frame; try apply shrink_buf_frame; [|apply IH].
  destruct (h_cmd h =? IKCP_CMD_ACK); [apply input_ack_frame|].
  destruct (h_cmd h =? IKCP_CMD_PUSH); [effects; apply input_push_frame|].
  destruct (h_cmd h =? IKCP_CMD_WASK); effects. by apply rx_frame_set.
Qed.

Lemma ikcp_input_frame {overhead : Overhead} malloc data k : after rx_frame k (ikcp_input malloc data k).
Proof.
  unfold ikcp_input. effects.
  - apply input_loop_frame.
  - match goal with |- context [match ?m with Some _ => _ | None => _ end] => destruct m end;
      [apply parse_fastack_frame|reflexivity].
  - apply grow_cwnd_frame.
Qed.

Lemma ikcp_recv_frame len k : after rx_frame k (ikcp_recv len k).
Proof.
  unfold ikcp_recv. effects. destruct (recv_merge _) as [[[d n] q] c].
  effects. simpl. set (k1 := if len <? 0 then _ else _).
  match goal with |- rx_frame ?a _ => assert (Hk1 : rx_frame a k1) end.
  { unfold k1. destruct (len <? 0); [reflexivity|by apply rx_frame_set]. }
  etrans; [exact Hk1|]. etrans; [apply move_loop_frame|].
  fold (move_available k1). destruct (_ && _); [by apply rx_frame_set|reflexivity].
Qed.

(** Nothing of the send-side invariants is lost. *)
Lemma rx_frame_inv hist k k' :
  rx_frame k k' -> snd_inv hist k -> size_inv k -> snd_inv hist k' /\ size_inv k'.
Proof.
  intros ((_ & Em & _ & _ & Ec & _) & (Eq & En & Enq) & Hb & Hcnt & _) (H1 & H2 & H3 & H4 & H5) (H6 & H7).
  rewrite Forall_forall in H5, H7. unfold snd_inv, size_inv. rewrite Ec, En, Eq, Em.
  split_and!; auto; apply Forall_forall; intros s' Hs;
    destruct (Hb s' Hs) as (s & Hin & (E1 & E2 & E3 & E4 & E5)).
  - destruct (H5 s Hin) as (F1 & F2 & F3 & n & F4 & F5).
    unfold in_flight, carries, payload. rewrite E1, E2, E3, E4, E5, Ec. split_and!; try done. eauto.
  - unfold slen. rewrite E5. by apply H7.
Qed.
