(* ===== verification/KcpConv.v ===== *)
(** * The connection number of a KCP connection

    No operation changes [conv], and sending leaves what was received alone. *)

From Stdlib Require Import ZArith Lia.
From stdpp Require Import base numbers list gmap.
From S2P Require Import Prelude Util KcpState KcpOps KcpWire KcpRecv KcpInput KcpFlush KcpSender KcpSend.
Open Scope Z_scope.

Definition same_conv (k k' : IKCPCB) : Prop := conv k' = conv k.

#[export] Instance same_conv_preorder : PreOrder same_conv.
Proof. split; [done|]. unfold same_conv. intros a b c; congruence. Qed.

Section conv.
Context {overhead : Overhead}.

Lemma output_conv pkt k : after same_conv k (ikcp_output pkt k).
Proof. unfold ikcp_output. effects. destruct (_ =? 0); [effects|]. done. Qed.

Lemma make_room_conv n pkt k : after same_conv k (make_room n pkt k).
Proof. unfold make_room. effects. destruct (_ <? _); effects. apply output_conv. Qed.

Lemma emit_conv bs pkt k : after same_conv k (emit bs pkt k).
Proof. unfold emit. effects. Qed.

Lemma flush_acks_conv acks s pkt k : after same_conv k (flush_acks acks s pkt k).
Proof.
  revert s pkt k. induction acks as [|[n t] acks IH]; intros s pkt k; cbn [flush_acks]; effects;
    [apply make_room_conv|apply emit_conv|apply IH].
Qed.

Lemma flush_cmd_conv bit c sp k : after same_conv k (flush_cmd bit c sp k).
Proof. unfold flush_cmd. effects. destruct (_ =? 0); effects; [apply make_room_conv|apply emit_conv]. Qed.

Lemma flush_probe_conv k : same_conv k (flush_probe k).
Proof.
  unfold flush_probe, same_conv. destruct (rmt_wnd k =? 0); [|done]. destruct (probe_wait k =? 0); [done|].
  destruct (0 <=? _); [|done]. by destruct (probe_wait k <? _), (IKCP_PROBE_LIMIT <? _).
Qed.

Lemma flush_ctl_conv s k : after same_conv k (flush_ctl s k).
Proof.
  unfold flush_ctl. effects; [apply flush_acks_conv|done|apply flush_probe_conv|apply flush_cmd_conv|apply flush_cmd_conv|done].
Qed.

Lemma flush_move_conv fuel w wn now k : same_conv k (flush_move fuel w wn now k).
Proof.
  revert k. induction fuel as [|fuel IH]; intros k; cbn [flush_move]; [done|].
  destruct (snd_queue k); [done|]. destruct (_ <? 0); [|done]. etrans; [|apply IH]. done.
Qed.

Lemma flush_one_conv now resent rtomin wn s pkt k : after same_conv k (flush_one now resent rtomin wn s pkt k).
Proof.
  unfold flush_one. effects. cbv zeta. effects.
  - destruct (seg_due now resent s); done.
  - destruct (seg_due now resent s); effects; try apply make_room_conv; try apply emit_conv; by destruct (_ <=? _).
Qed.

Lemma flush_data_conv now resent rtomin wn l pkt lost change k :
  after same_conv k (flush_data now resent rtomin wn l pkt lost change k).
Proof.
  revert pkt lost change k. induction l as [|s l IH]; intros pkt lost change k; [done|].
  rewrite flush_data_cons. apply (after_bind _); [apply flush_one_conv|]. intros [s' p] k1 _. cbv zeta.
  apply (after_bind _); [apply IH|]. intros [[[l' p'] lo] ch] k2 _. effects.
Qed.

Lemma flush_ssthresh_conv resent w lost change k : same_conv k (flush_ssthresh resent w lost change k).
Proof. unfold flush_ssthresh, same_conv. destruct (change =? 0), lost; repeat case_match; done. Qed.

Lemma ikcp_flush_conv k : after same_conv k (ikcp_flush k).
Proof.
  unfold ikcp_flush. effects. destruct (updated _ =? 0); [effects|]. cbv zeta. effects.
  - apply flush_ctl_conv.
  - apply flush_move_conv.
  - apply flush_data_conv.
  - match goal with x : _ * _ * _ * _ |- _ => destruct x as [[[? ?] ?] ?] end. effects; [done| |apply flush_ssthresh_conv].
    destruct (0 <? zlen _); [apply output_conv|done].
Qed.

Lemma ikcp_update_conv now k : after same_conv k (ikcp_update now k).
Proof.
  unfold ikcp_update. effects; [done|by destruct (updated _ =? 0)|..]; cbv zeta.
  - unfold put, after. by destruct (_ || _).
  - match goal with H : put _ _ = Done _ _ |- _ => unfold put in H; injection H as _ <- end.
    destruct (_ || _); (destruct (0 <=? _); [|done]); effects; try apply ikcp_flush_conv;
      unfold put, after; by destruct (0 <=? _).
Qed.

Lemma fragment_loop_conv malloc n buf k : after same_conv k (fragment_loop malloc n buf k).
Proof.
  revert buf k. induction n as [|n IH]; intros buf k; cbn [fragment_loop]; effects; [done|apply IH].
Qed.

Lemma fragment_conv malloc buf k : after same_conv k (fragment malloc buf k).
Proof. unfold fragment. effects. cbv zeta. effects. apply fragment_loop_conv. Qed.

Lemma ikcp_send_conv malloc buf k : after same_conv k (ikcp_send malloc buf k).
Proof.
  unfold ikcp_send. effects. destruct (stream _ =? 0); [apply fragment_conv|]. effects.
  - unfold stream_append. effects. repeat case_match; effects; cbv zeta; effects; done.
  - destruct (_ <=? 0); [effects|apply fragment_conv].
Qed.

Lemma ikcp_input_conv malloc data k : after same_conv k (ikcp_input malloc data k).
Proof. pose proof (ikcp_input_frame malloc data k) as H. destruct (ikcp_input malloc data k); try done; apply H. Qed.
End conv.

Lemma ikcp_recv_conv len k : after same_conv k (ikcp_recv len k).
Proof. pose proof (ikcp_recv_frame len k) as H. destruct (ikcp_recv len k); try done; apply H. Qed.

(** ** Sending and the receiving side *)

Definition same_rcv (k k' : IKCPCB) : Prop := rcv_queue k' = rcv_queue k /\ rcv_buf k' = rcv_buf k.

#[export] Instance same_rcv_preorder : PreOrder same_rcv.
Proof. split; [done|]. unfold same_rcv. intros a b c [? ?] [? ?]. split; congruence. Qed.

Lemma fragment_loop_rcv malloc n buf k : after same_rcv k (fragment_loop malloc n buf k).
Proof.
  revert buf k. induction n as [|n IH]; intros buf k; cbn [fragment_loop]; effects; [done|apply IH].
Qed.

Lemma fragment_rcv malloc buf k : after same_rcv k (fragment malloc buf k).
Proof. unfold fragment. effects. cbv zeta. effects. apply fragment_loop_rcv. Qed.

Lemma ikcp_send_rcv malloc buf k : after same_rcv k (ikcp_send malloc buf k).
Proof.
  unfold ikcp_send. effects. destruct (stream _ =? 0); [apply fragment_rcv|]. effects.
  - unfold stream_append. effects. repeat case_match; effects; cbv zeta; effects; done.
  - destruct (_ <=? 0); [effects|apply fragment_rcv].
Qed.
