(* ===== verification/KcpLink.v ===== *)
(** * KCP end to end: reliable, ordered delivery over an unreliable network

    Two connections with the same [conv] exchange datagrams over a network
    that may lose, repeat, delay and reorder them: a datagram handed to the
    output callback of one end can be given to the other end any number of
    times, at any later moment. *)

From Stdlib Require Import ZArith Lia.
From stdpp Require Import base numbers list gmap.
From S2P Require Import Prelude Util KcpState KcpOps KcpWire KcpRecv KcpInput KcpFlush KcpSender KcpSend.
Open Scope Z_scope.

(** One end: the control block, the messages the application passed to
    [ikcp_send] and those it got from [ikcp_recv]. *)
Record peer := MkPeer { pk : IKCPCB; wrote : list bytes; got : list bytes }.

(** A connection just set up, with MTU [m] and streaming mode [st]. *)
Definition fresh (malloc : Z -> bool) (cnv : Guid) (m st : Z) (k : IKCPCB) : Prop :=
  exists k0 k1, ikcp_create malloc cnv = Some k0 /\ ikcp_setmtu malloc m k0 = Done tt k1 /\
    k = set_stream st (ikcp_setoutput k1).

(** One call at one end; [net] holds the datagrams of the other end. *)
Inductive call (malloc : Z -> bool) (net : list bytes) : peer -> peer -> Prop :=
| call_send k w g buf k' :
    zlen buf < 2 ^ 31 -> ikcp_send malloc buf k = Done tt k' ->
    call malloc net (MkPeer k w g) (MkPeer k' (w ++ [buf]) g)
| call_recv k w g len n d k' :
    0 <= len -> ikcp_recv len k = Done (n, d) k' ->
    call malloc net (MkPeer k w g) (MkPeer k' w (g ++ [d]))
| call_peek k w g len n d k' :
    len < 0 -> ikcp_recv len k = Done (n, d) k' ->
    call malloc net (MkPeer k w g) (MkPeer k' w g)
| call_input k w g pkt k' :
    pkt ∈ net -> ikcp_input malloc pkt k = Done tt k' ->
    call malloc net (MkPeer k w g) (MkPeer k' w g)
| call_update k w g now k' :
    ikcp_update now k = Done tt k' -> call malloc net (MkPeer k w g) (MkPeer k' w g)
| call_flush k w g k' :
    ikcp_flush k = Done tt k' -> call malloc net (MkPeer k w g) (MkPeer k' w g)
| call_nodelay k w g nd itv resend nc :
    call malloc net (MkPeer k w g) (MkPeer (ikcp_nodelay nd itv resend nc k) w g)
| call_interval k w g i :
    call malloc net (MkPeer k w g) (MkPeer (ikcp_interval i k) w g)
| call_minrto k w g v :
    call malloc net (MkPeer k w g) (MkPeer (set_rx_minrto v k) w g)
| call_wndsize k w g sw rw :
    rw < 2 ^ 31 -> call malloc net (MkPeer k w g) (MkPeer (ikcp_wndsize sw rw k) w g).

(** All interleavings of calls at both ends. *)
Inductive link (malloc : Z -> bool) (cnv : Guid) : peer -> peer -> Prop :=
| link_init ka kb ma mb sta stb :
    Guid_valid cnv -> ma < 2 ^ 16 -> mb < 2 ^ 16 ->
    fresh malloc cnv ma sta ka -> fresh malloc cnv mb stb kb ->
    link malloc cnv (MkPeer ka [] []) (MkPeer kb [] [])
| link_call p q p' :
    link malloc cnv p q -> call malloc (sent (pk q)) p p' -> link malloc cnv p' q
| link_sym p q : link malloc cnv p q -> link malloc cnv q p.

(** ** The invariant of one direction *)

Definition total (p : peer) : Z := zlen (concat (wrote p)) + zlen (wrote p).

(** What the receiver sees of a message sent with [mss] = [m]. *)
Definition mfrags (m : Z) (buf : bytes) : list (Z * bytes) := payload <$> frags m false buf.

(** Send side: [hist] is what was numbered so far, the rest is in [snd_queue]. *)
Record snd_side (p : peer) (hist : list (Z * bytes)) : Prop := MkSide {
  side_tx : tx_ok (pk p);
  side_snd : snd_inv hist (pk p);
  side_size : size_inv (pk p);
  side_ack : ack_ok (pk p);
  side_mss : mss (pk p) = mtu (pk p) - 36 /\ 50 <= mtu (pk p);
  side_sent : Forall (good (of_hist (conv (pk p)) hist) (mtu (pk p))) (sent (pk p));
  side_bytes : concat (wrote p) = concat (snd <$> hist) ++ concat (sdata <$> snd_queue (pk p));
  side_count : zlen hist + zlen (snd_queue (pk p)) <= total p;
  side_msgs : stream (pk p) = 0 ->
    hist ++ (payload <$> snd_queue (pk p)) = concat (mfrags (mss (pk p)) <$> wrote p)
}.

(** Message mode: [items], read by [q], are the fragments of the messages in
    [got q], which are the first that [p] wrote. *)
Definition whole_msgs (p q : peer) (items : list (Z * bytes)) : Prop :=
  exists rest, wrote p = got q ++ rest /\ items = concat (mfrags (mss (pk p)) <$> got q).

(** From [p] to [q], while [p] has sent less than [2^31] segments. *)
Definition dir (p q : peer) : Prop :=
  exists hist, snd_side p hist /\
    (total p <= 2 ^ 31 ->
     exists items, rcv_run (msg_of hist) (zlen hist) (pk q) items (concat (got q)) /\
       (stream (pk p) = 0 -> whole_msgs p q items)).

Lemma rcv_run_mono hist more k items g :
  rcv_run (msg_of hist) (zlen hist) k items g ->
  rcv_run (msg_of (hist ++ more)) (zlen (hist ++ more)) k items g.
Proof.
  induction 1 as [k (H1 & H2 & H3 & H4 & H5 & ns & H6 & H7 & H8) Hq|k items got n s Hr IH Hp Hc Hn
    |k items got len n d k' Hr IH Hl He|k items got len n d k' Hr IH Hl He|k items got w Hr IH Hw
    |k items got k' Hr IH Hs].
  - apply run_init; [|done]. pose proof (zlen_nonneg more).
    split_and!; try done; try lia; try (rewrite zlen_app; lia).
    exists ns. split_and!; try done. clear H6 H5. revert H7.
    induction H8 as [|n s ns l Hc _ IH]; [constructor|]. intros [Hn ?]%Forall_cons.
    constructor; [apply carries_app; [lia|done]|auto].
  - eapply run_arrive; [done|done|by apply carries_app|done].
  - by eapply run_recv.
  - by eapply run_peek.
  - by apply run_wnd.
  - by eapply run_other.
Qed.

(** ** Steps of the sending end *)

(** Operations that leave the send side in place. *)
Lemma snd_side_frame k w g k' g' hist :
  rx_frame k k' -> snd_side (MkPeer k w g) hist -> snd_side (MkPeer k' w g') hist.
Proof.
  intros Hf [H1 H2 H3 H4 H5 H6 H7 H8 H9]. cbn in *.
  destruct (rx_frame_inv _ _ _ Hf H2 H3) as [H2' H3'].
  destruct Hf as ((O & Em & Es & B & C & T & St) & (Q & _) & _ & _ & A).
  split; cbn; try done; rewrite ?Em, ?Es, ?St, ?Q, ?T, ?C; auto.
  unfold tx_ok. by rewrite O, Em, B.
Qed.

Lemma snd_side_send malloc k w g buf k' hist :
  zlen buf < 2 ^ 31 -> ikcp_send malloc buf k = Done tt k' ->
  snd_side (MkPeer k w g) hist -> snd_side (MkPeer k' (w ++ [buf]) g) hist.
Proof.
  intros Hl E [H1 H2 H3 H4 [H5 H5'] H6 H7 H8 H9]. cbn in *.
  pose proof H1 as (_ & Hm & _). pose proof H2 as (I1 & I2 & I3 & I4 & I5).
  apply ikcp_send_done in E as (Q1 & Q2 & Q3 & Q4 & Q5); [|rewrite H5; lia|done|done].
  assert (Hok : Forall (seg_ok (mss k)) (snd_queue k')).
  { apply Q4. apply Forall_and. split; [|done]. eapply Forall_impl; [apply H3|]. intros s. simpl. lia. }
  apply Forall_and in Hok as [Hok1 Hok2].
  assert (Em : mtu k' = mtu k) by (by rewrite Q1).
  split; cbn; rewrite ?Em; try done.
  - rewrite Q1. done.
  - rewrite Q1. split_and!; try done. split; [done|]. apply I3.
  - split; [|by rewrite Q1; apply H3]. rewrite Em. eapply Forall_impl; [exact Hok1|]. intros s. simpl. lia.
  - by rewrite Q1.
  - split; [|done]. by rewrite Q1.
  - by rewrite Q1.
  - rewrite concat_app, Q2, H7. cbn. by rewrite app_nil_r, <-app_assoc.
  - unfold total in *. cbn in *. rewrite concat_app, !zlen_app. cbn. rewrite app_nil_r.
    change (zlen [buf]) with 1. lia.
  - assert (mss k' = mss k) as -> by (by rewrite Q1). assert (stream k' = stream k) as -> by (by rewrite Q1).
    intros Hst. rewrite (Q5 Hst), !fmap_app, concat_app, app_assoc, H9 by done. cbn. by rewrite app_nil_r.
Qed.

Lemma snd_side_flushed k w g l k' hist :
  flushed hist l k k' -> snd_side (MkPeer k w g) hist ->
  snd_side (MkPeer k' w g) (hist ++ (payload <$> l)).
Proof.
  intros (F1 & F2 & F3 & F4 & F5 & F6 & F7 & F8 & Es & Et & pkts & F9 & F10) [H1 H2 H3 H4 H5 H6 H7 H8 H9].
  cbn in *. split; cbn; try done; rewrite ?F7, ?Es, ?Et, ?F8; try done.
  - rewrite F9. apply Forall_app. split; [|done]. eapply Forall_impl; [exact H6|].
    intros p. apply good_weaken. intros. by apply of_hist_app.
  - rewrite H7, F1, !fmap_app, !concat_app, concat_payload, app_assoc. done.
  - rewrite F1, zlen_app in H8. rewrite zlen_app, zlen_fmap. unfold total in *. cbn in *. lia.
  - rewrite F1, fmap_app, app_assoc in H9. done.
Qed.

(** [ikcp_update] is a clock update and possibly a flush. *)
Lemma ikcp_update_spec hist now k :
  tx_ok k -> snd_inv hist k -> size_inv k -> ack_ok k ->
  exists l k', ikcp_update now k = Done tt k' /\ flushed hist l k k'.
Proof.
  intros Ht Hi Hs Ha. unfold ikcp_update. do 3 erewrite bind_done by done.
  set (k1 := if updated _ =? 0 then _ else _).
  assert (E1 : exists t u c, k1 = set_ts_flush t (set_updated u (set_current c k))).
  { unfold k1. destruct (updated _ =? 0); repeat eexists. }
  clearbody k1. destruct E1 as (t & u & c & ->). cbv zeta.
  set (slap := itimediff _ _). set (reset := _ || _).
  set (k2 := if reset then set_ts_flush _ _ else _).
  assert (E2 : exists t', k2 = set_ts_flush t' (set_updated u (set_current c k))).
  { unfold k2. destruct reset; by eexists. }
  clearbody k2. destruct E2 as (t' & ->). erewrite bind_done by done.
  destruct (0 <=? _).
  - erewrite bind_done by done. set (k3 := if 0 <=? _ then set_ts_flush _ _ else _).
    assert (E3 : exists t'', k3 = set_ts_flush t'' (set_updated u (set_current c k))).
    { unfold k3. destruct (0 <=? _); by eexists. }
    clearbody k3. destruct E3 as (t'' & ->).
    apply (ikcp_flush_spec hist (set_ts_flush t'' (set_updated u (set_current c k)))); done.
  - exists [], (set_ts_flush t' (set_updated u (set_current c k))). split; [done|].
    unfold flushed. rewrite app_nil_r. split_and!; try done. exists []. by rewrite app_nil_r.
Qed.

(** Settings in place, and nothing that was written is taken back. *)
Definition grows (p p' : peer) : Prop :=
  (mss (pk p') = mss (pk p) /\ stream (pk p') = stream (pk p) /\ conv (pk p') = conv (pk p)) /\
  exists more, wrote p' = wrote p ++ more.

(** Every call of the sender keeps the send side; the history only grows. *)
Lemma call_snd_side malloc net p p' hist :
  call malloc net p p' -> snd_side p hist ->
  grows p p' /\ exists more, snd_side p' (hist ++ more).
Proof.
  intros Hc Hs. assert (Frame : forall k w g k' g', p = MkPeer k w g -> p' = MkPeer k' w g' ->
    rx_frame k k' -> grows p p' /\ exists more, snd_side p' (hist ++ more)).
  { intros k w g k' g' -> -> Hf. split; [|exists []; rewrite app_nil_r; by eapply snd_side_frame].
    destruct Hf as ((_ & _ & Em & _ & Ec & Est & _) & _). split_and!; try done. exists []. by rewrite app_nil_r. }
  assert (Flush : forall k w g l k', p = MkPeer k w g -> p' = MkPeer k' w g ->
    flushed hist l k k' -> grows p p' /\ exists more, snd_side p' (hist ++ more)).
  { intros k w g l k' -> -> Hf. split; [|exists (payload <$> l); by eapply snd_side_flushed].
    destruct Hf as (_ & _ & _ & _ & _ & _ & _ & Ec & Em & Est & _). split_and!; try done.
    exists []. by rewrite app_nil_r. }
  destruct Hc as [k w g buf k' Hl E|k w g len n d k' Hl E|k w g len n d k' Hl E|k w g pkt k' Hl E
    |k w g now k' E|k w g k' E|k w g nd itv re nc|k w g i|k w g v|k w g sw rw Hr].
  - split; [|exists []; rewrite app_nil_r; by eapply snd_side_send].
    destruct Hs as [(_ & Ht & _) (_ & _ & Hcnt & _) _ _ [Hm Hm'] _ _ _ _]. cbn in *.
    apply ikcp_send_done in E as (-> & _); [|lia|done|done]. split_and!; try done. by eexists.
  - eapply Frame; [done|done|]. pose proof (ikcp_recv_frame len k) as H. by rewrite E in H.
  - eapply Frame; [done|done|]. pose proof (ikcp_recv_frame len k) as H. by rewrite E in H.
  - eapply Frame; [done|done|]. pose proof (ikcp_input_frame malloc pkt k) as H. by rewrite E in H.
  - destruct (ikcp_update_spec hist now k) as (l & k2 & E2 & Hf); try apply Hs.
    rewrite E2 in E. injection E as <-. by eapply Flush.
  - destruct (ikcp_flush_spec hist k) as (l & k2 & E2 & Hf); try apply Hs.
    rewrite E2 in E. injection E as <-. by eapply Flush.
  - eapply Frame; [done|done|]. unfold ikcp_nodelay.
    apply rx_frame_set; destruct (0 <=? nd), (0 <=? itv), (0 <=? re), (0 <=? nc); done.
  - eapply Frame; [done|done|]. by apply rx_frame_set.
  - eapply Frame; [done|done|]. by apply rx_frame_set.
  - eapply Frame; [done|done|]. unfold ikcp_wndsize. apply rx_frame_set; destruct (0 <? sw), (0 <? rw); done.
Qed.

(** ** Steps of the receiving end *)

(** Either nothing was read, or one [ikcp_recv] took [taken] off the queue. *)
Definition read_step (q q' : peer) (items items' : list (Z * bytes)) : Prop :=
  (items' = items /\ got q' = got q) \/
  exists len n d, ikcp_recv len (pk q) = Done (n, d) (pk q') /\
    items' = items ++ (payload <$> taken (pk q)) /\ got q' = got q ++ [d].

Lemma call_rcv malloc p q q' hist hq items :
  call malloc (sent (pk p)) q q' -> snd_side p hist -> snd_side q hq -> zlen hist <= 2 ^ 31 ->
  rcv_run (msg_of hist) (zlen hist) (pk q) items (concat (got q)) ->
  exists items', rcv_run (msg_of hist) (zlen hist) (pk q') items' (concat (got q')) /\
    read_step q q' items items'.
Proof.
  intros Hc Hp Hq Hlim Hr.
  assert (Other : same_rcv (pk q) (pk q') -> got q' = got q ->
    exists items', rcv_run (msg_of hist) (zlen hist) (pk q') items' (concat (got q')) /\
      read_step q q' items items').
  { intros Hsame Hg. exists items. rewrite Hg. split; [by eapply run_other|by left]. }
  destruct Hc as [k w g buf k' Hl E|k w g len n d k' Hl E|k w g len n d k' Hl E|k w g pkt k' Hin E
    |k w g now k' E|k w g k' E|k w g nd itv re nc|k w g i|k w g v|k w g sw rw Hw]; cbn in *.
  - apply Other; [|done]. destruct Hq as [(_ & Ht & _) (_ & _ & Hcnt & _) _ _ [Hm Hm'] _ _ _ _]. cbn in *.
    apply ikcp_send_done in E as (-> & _); [done|lia|done|done].
  - exists (items ++ (payload <$> taken k)). split; [|right; by exists len, n, d].
    rewrite concat_app. cbn. rewrite app_nil_r. by eapply run_recv.
  - exists items. split; [by eapply run_peek|by left].
  - exists items. split; [|by left]. destruct Hp as [(_ & Hm & _) _ _ _ _ Hs _ _ _].
    rewrite Forall_forall in Hs. destruct (Hs pkt Hin) as (segs & -> & Hg & Hz).
    eapply ikcp_input_run; [done| |done|exact Hg|exact E]. lia.
  - destruct Hq as [H1 H2 H3 H4 _ _ _ _ _].
    destruct (ikcp_update_spec hq now k H1 H2 H3 H4) as (l & k2 & E2 & Hf).
    rewrite E2 in E. injection E as <-. apply Other; [apply Hf|done].
  - destruct Hq as [H1 H2 H3 H4 _ _ _ _ _].
    destruct (ikcp_flush_spec hq k H1 H2 H3 H4) as (l & k2 & E2 & Hf).
    rewrite E2 in E. injection E as <-. apply Other; [apply Hf|done].
  - apply Other; [|done]. unfold ikcp_nodelay.
    destruct (0 <=? nd), (0 <=? itv), (0 <=? re), (0 <=? nc); done.
  - by apply Other.
  - by apply Other.
  - destruct (0 <? rw) eqn:Erw.
    2:{ apply Other; [|done]. unfold ikcp_wndsize. rewrite Erw. by destruct (0 <? sw). }
    exists items. split; [|by left]. unfold ikcp_wndsize. rewrite Erw. apply run_wnd; [|unfold imax, IKCP_WND_RCV; zbool; lia].
    eapply run_other; [exact Hr|]. by destruct (0 <? sw).
Qed.

(** ** Both directions *)

Lemma fresh_side malloc cnv m st k :
  Guid_valid cnv -> m < 2 ^ 16 -> fresh malloc cnv m st k ->
  snd_side (MkPeer k [] []) [] /\ rcv_inv (msg_of []) 0 0 k /\ rcv_queue k = [].
Proof.
  intros Hg Hm (k0 & k1 & Hc & Hs & ->). unfold ikcp_create in Hc.
  destruct (malloc _); [|done]. destruct (malloc _); [|done]. injection Hc as <-.
  unfold ikcp_setmtu in Hs. destruct (Z.ltb_spec m 50); [done|].
  unfold IKCP_OVERHEAD, Overhead_36 in Hs. destruct (Z.ltb_spec m 36); [lia|].
  erewrite bind_done in Hs by done. cbv zeta in Hs.
  destruct (malloc _); [|done]. erewrite bind_done in Hs by done. injection Hs as <-.
  change (2 ^ 16) with 65536 in Hm.
  assert (E1 : u32 (m - 36) = m - 36) by (apply uint_small; rng).
  assert (E2 : u32 ((m + 36) * 3) = (m + 36) * 3) by (apply uint_small; rng).
  split; [|split; [|done]].
  - split; cbn -[uint]; rewrite ?E1, ?E2; try done.
    split_and!; [done| | |]; cbn; lia.
  - split_and!; try done. exists []. repeat constructor.
Qed.

Lemma fresh_conv malloc cnv m st k : fresh malloc cnv m st k -> conv k = cnv.
Proof.
  intros (k0 & k1 & Hc & Hs & ->). unfold ikcp_create in Hc.
  destruct (malloc _); [|done]. destruct (malloc _); [|done]. injection Hc as <-.
  unfold ikcp_setmtu in Hs. destruct (_ || _); [done|]. erewrite bind_done in Hs by done.
  cbv zeta in Hs. destruct (malloc _); [|done]. erewrite bind_done in Hs by done. by injection Hs as <-.
Qed.

Lemma total_mono malloc net p p' : call malloc net p p' -> total p <= total p'.
Proof.
  intros []; unfold total; cbn; try lia. rewrite concat_app, !zlen_app.
  pose proof (zlen_nonneg (concat [buf])). pose proof (zlen_nonneg [buf]). lia.
Qed.

(** The first [N] items of a stream are a prefix of its history. *)
Lemma msg_of_seqZ hist N : 0 <= N <= zlen hist -> msg_of hist <$> seqZ 0 N = take (Z.to_nat N) hist.
Proof.
  intros HN. apply list_eq. intros i. rewrite list_lookup_fmap.
  destruct (decide (i < Z.to_nat N)%nat).
  - rewrite lookup_seqZ_lt, lookup_take_lt by lia. cbn. unfold msg_of.
    replace (Z.to_nat (0 + Z.of_nat i)) with i by lia.
    destruct (lookup_lt_is_Some_2 hist i) as [x ->]; [unfold zlen in HN; lia|done].
  - rewrite lookup_seqZ_ge, lookup_take_ge by lia. done.
Qed.

Lemma prefix_of_stream hist items queue N :
  0 <= N <= zlen hist -> items ++ queue = msg_of hist <$> seqZ 0 N ->
  exists rest, hist = items ++ queue ++ rest.
Proof.
  intros HN E. rewrite msg_of_seqZ in E by done. exists (drop (Z.to_nat N) hist).
  by rewrite app_assoc, E, take_drop.
Qed.

(** *** Reading a whole message *)

Lemma merge_frags n m buf q rest tl :
  (payload <$> q) ++ rest = (payload <$> frag_segs (S n) m false buf) ++ tl ->
  (S n <= length q)%nat ->
  exists t q' z, q = t ++ q' /\ payload <$> t = payload <$> frag_segs (S n) m false buf /\
    recv_merge q = (concat (sdata <$> t), z, q', zlen t).
Proof.
  revert buf q. induction n as [|n IH]; intros buf [|s q] E Hl; try (simpl in Hl; lia).
  - cbn in E. injection E as Ef Ed E. exists [s], q, (slen s). split; [done|].
    split; [cbn; by rewrite <-Ef, <-Ed|]. cbn [recv_merge]. rewrite Ef. cbn. by rewrite app_nil_r.
  - remember (S n) as n1 eqn:En. cbn [frag_segs] in E. cbn in E. injection E as Ef Ed E.
    subst n1. destruct (IH _ _ E ltac:(simpl in Hl; lia)) as (t & q' & z & -> & Ht & Hr).
    exists (s :: t), q', (slen s + z). split; [done|]. split.
    + rewrite fmap_cons, Ht. remember (S n) as n1. cbn [frag_segs]. rewrite fmap_cons. f_equal.
      unfold payload. by rewrite Ef, Ed.
    + cbn [recv_merge]. rewrite Hr, Ef, zlen_cons. done.
Qed.

(** When [rcv_queue] starts with the fragments of [b], [ikcp_recv] returns
    exactly [b]. *)
Lemma recv_message msg limit N k len n d k' m b rest tl :
  rcv_inv msg limit N k -> ikcp_recv len k = Done (n, d) k' -> 0 < m -> zlen (mfrags m b) < 2 ^ 32 ->
  (payload <$> rcv_queue k) ++ rest = mfrags m b ++ tl ->
  payload <$> taken k = mfrags m b /\ d = b.
Proof.
  intros Hinv E Hm Hlen Eq. pose proof (ikcp_recv_spec _ _ _ _ _ _ _ _ Hinv E) as (r & N' & Hq & Hd & _).
  assert (Hpeek : 0 <= ikcp_peeksize k).
  { unfold ikcp_recv, mbind, M_bind, get, reject_if, mret, M_ret, fail in E.
    destruct (rcv_queue k); [done|]. destruct (Z.ltb_spec (ikcp_peeksize k) 0); [done|lia]. }
  destruct Hinv as (_ & _ & _ & Hnq & _). pose proof (zlen_nonneg b) as Hb.
  destruct (frag_count_bounds m (zlen b) Hm Hb) as [Hc _].
  assert (exists c, Z.to_nat (frag_count m (zlen b)) = S c) as [c Ec].
  { destruct (Z.to_nat (frag_count m (zlen b))) eqn:?; [lia|eauto]. }
  unfold mfrags, frags in *. rewrite Ec in *. rewrite zlen_fmap, frag_segs_zlen in Hlen.
  assert (Hlq : (S c <= length (rcv_queue k))%nat).
  { unfold ikcp_peeksize in Hpeek. destruct (rcv_queue k) as [|s q]; [done|].
    cbn [frag_segs] in Eq. cbn in Eq. injection Eq as Ef _ _. rewrite Ef in Hpeek.
    destruct (Z.eqb_spec (Z.of_nat c) 0); [simpl; lia|].
    destruct (Z.ltb_spec (nrcv_que k) (u32 (Z.of_nat c + 1))); [lia|].
    rewrite uint_small in * by rng.
    assert (u32 (zlen (s :: q)) <= zlen (s :: q)) by (apply Z.mod_le; [apply zlen_nonneg|done]).
    unfold zlen in *. lia. }
  destruct (merge_frags _ _ _ _ _ _ Eq Hlq) as (t & q' & z & Hqt & Ht & Hr).
  destruct (taken_spec _ _ _ _ _ Hr) as (Hq2 & _ & Hz).
  assert (taken k = t) as Htk.
  { unfold taken. rewrite Hr. cbn [snd]. unfold zlen. rewrite Nat2Z.id, Hqt. apply take_app_length. }
  rewrite Htk in *. split; [done|]. rewrite Hd, <-concat_payload, Ht, concat_payload.
  rewrite <-Ec. by apply (frags_data m false b).
Qed.

Lemma whole_msgs_step q p p' hq items items' :
  snd_side q hq -> total q <= 2 ^ 31 -> stream (pk q) = 0 ->
  rcv_run (msg_of hq) (zlen hq) (pk p) items (concat (got p)) ->
  read_step p p' items items' -> whole_msgs q p items -> whole_msgs q p' items'.
Proof.
  intros Hq Hlim Hst Hr [[-> Hg]|(len & n & d & E & -> & Hg)] (rest & Hw & Hi);
    [unfold whole_msgs; rewrite Hg; eauto|].
  pose proof (rcv_run_inv _ _ _ _ _ Hr) as (Hinv & Hs & _). pose proof (proj1 Hinv) as HN.
  destruct (prefix_of_stream _ _ _ _ HN Hs) as (more & Eh).
  pose proof (side_msgs _ _ Hq Hst) as Hm. rewrite Eh, Hw, Hi, fmap_app, concat_app, <-!app_assoc in Hm.
  apply app_inv_head in Hm.
  destruct rest as [|b rest].
  { exfalso. unfold ikcp_recv in E. destruct (rcv_queue (pk p)) eqn:Eq; [|done].
    unfold mbind, M_bind, get in E. by rewrite Eq in E. }
  pose proof (side_mss _ _ Hq) as [Em Em'].
  assert (Hlen : zlen (mfrags (mss (pk q)) b) < 2 ^ 32).
  { pose proof (f_equal zlen (side_msgs _ _ Hq Hst)) as Hz. rewrite zlen_app, zlen_fmap in Hz.
    pose proof (side_count _ _ Hq). rewrite Hw, fmap_app, concat_app, zlen_app in Hz. cbn in Hz.
    rewrite zlen_app in Hz. pose proof (zlen_nonneg (concat (mfrags (mss (pk q)) <$> got p))).
    pose proof (zlen_nonneg (concat (mfrags (mss (pk q)) <$> rest))). rng. }
  assert (Hpos : 0 < mss (pk q)) by lia.
  destruct (recv_message _ _ _ _ _ _ _ _ _ _ _ _ Hinv E Hpos Hlen Hm) as [Ht ->].
  exists rest. rewrite Hg, Hw, fmap_app, concat_app, <-app_assoc, Ht, <-Hi. cbn. by rewrite app_nil_r.
Qed.

Lemma link_dir malloc cnv p q : link malloc cnv p q -> dir p q /\ dir q p.
Proof.
  induction 1 as [ka kb ma mb sta stb Hg Hma Hmb Ha Hb|p q p' _ [(hp & Hp & Rq) (hq & Hq & Rp)] Hc
    |p q _ [? ?]]; [| |done].
  - destruct (fresh_side _ _ _ _ _ Hg Hma Ha) as (Sa & Ra & Qa).
    destruct (fresh_side _ _ _ _ _ Hg Hmb Hb) as (Sb & Rb & Qb).
    split; exists []; (split; [done|]); intros _; exists []; (split; [by apply run_init|]);
      intros _; by exists [].
  - pose proof (total_mono _ _ _ _ Hc) as Ht.
    destruct (call_snd_side _ _ _ _ _ Hc Hp) as (((Em & Est & _) & w & Ew) & more & Hp'). split.
    + exists (hp ++ more). split; [done|]. intros Hlim. destruct Rq as (items & Hr & Hw); [lia|].
      exists items. split; [by apply rcv_run_mono|]. rewrite Est. intros Hst.
      destruct (Hw Hst) as (rest & Hwr & ->). unfold whole_msgs. rewrite Em, Ew, Hwr, <-app_assoc. eauto.
    + exists hq. split; [done|]. intros Hlim. destruct (Rp Hlim) as (items & Hr & Hw).
      pose proof (side_count _ _ Hq) as Hcnt. pose proof (zlen_nonneg (snd_queue (pk q))).
      destruct (call_rcv _ _ _ _ _ _ _ Hc Hq Hp ltac:(lia) Hr) as (items' & Hr' & Hstep).
      exists items'. split; [done|]. intros Hst.
      eapply whole_msgs_step; [exact Hq|lia|exact Hst|exact Hr|exact Hstep|by apply Hw].
Qed.

(** Both ends keep the connection number. *)
Lemma link_conv malloc cnv p q : link malloc cnv p q -> conv (pk p) = cnv /\ conv (pk q) = cnv.
Proof.
  induction 1 as [ka kb ma mb sta stb Hg Hma Hmb Ha Hb|p q p' Hl [IHp IHq] Hc|p q _ [? ?]]; [| |done].
  - split; [exact (fresh_conv _ _ _ _ _ Ha)|exact (fresh_conv _ _ _ _ _ Hb)].
  - destruct (link_dir _ _ _ _ Hl) as [(hp & Hp & _) _].
    destruct (call_snd_side _ _ _ _ _ Hc Hp) as (((_ & _ & ->) & _) & _). done.
Qed.

Lemma link_prefix malloc cnv p q :
  link malloc cnv p q -> total p <= 2 ^ 31 ->
  exists rest, concat (wrote p) = concat (got q) ++ rest.
Proof.
  intros [(hist & Hp & Hr) _]%link_dir Ht. destruct (Hr Ht) as (items & Hrun & _).
  destruct (rcv_run_inv _ _ _ _ _ Hrun) as (((H0 & Hle) & _) & Hi & ->).
  destruct (prefix_of_stream hist items (payload <$> rcv_queue (pk q)) (in_order (pk q) items))
    as (rest & E); [lia|done|].
  rewrite (side_bytes _ _ Hp), E, fmap_app, concat_app, <-app_assoc. eauto.
Qed.

(** C2. Reliable ordered delivery.  Whatever the network loses, repeats, delays
    or reorders, in both modes and in any interleaving of calls at both ends
    that succeed, the bytes one end has read are a prefix of the bytes the other
    end has written, while the writer has used at most [2^31] sequence numbers.
    A streaming send that is refused is not such a call: it has queued the first
    of its bytes already (stream_send_partial in KcpProps). *)
Theorem kcp_delivers_prefix malloc cnv p q :
  link malloc cnv p q -> total p <= 2 ^ 31 ->
  exists rest, concat (wrote p) = concat (got q) ++ rest.
Proof. apply link_prefix. Qed.

(** C1. Message boundaries.  In message mode ([stream] = 0) the messages one end
    has read are, one by one and whole, the first messages the other end has
    written. *)
Theorem kcp_delivers_messages malloc cnv p q :
  link malloc cnv p q -> stream (pk p) = 0 -> total p <= 2 ^ 31 ->
  exists rest, wrote p = got q ++ rest.
Proof.
  intros [(hist & Hp & Hr) _]%link_dir Hst Ht. destruct (Hr Ht) as (items & _ & Hw).
  destruct (Hw Hst) as (rest & -> & _). eauto.
Qed.

(** ** A concrete exchange

    A message of 30 bytes travels in two datagrams that arrive in the wrong
    order, the second one twice. *)

Module Demo.
Definition mall (n : Z) : bool := true.
Definition cnv : Guid := MkGuid 7 9.
Definition buf : bytes := Z.of_nat <$> seq 0 30.

Definition final {A} (o : outcome IKCPCB A) (k : IKCPCB) : IKCPCB :=
  match o with Done _ k' | Fail _ k' => k' | Undef => k end.
Definition start : option IKCPCB :=
  k ← ikcp_create mall cnv;
  match ikcp_setmtu mall 60 k with
  | Done _ k => Some (set_stream 0 (ikcp_setoutput k))
  | _ => None
  end.
Definition k0 : IKCPCB := Eval vm_compute in default (MkCB Guid_zero 0 0 0 0 0 0 0 0 0 0 0 0 0 0 0 0 0 0 0 0 0 0 0
  0 0 0 0 0 0 0 0 0 [] [] [] [] [] 0 0 0 0 0 0 false []) start.
Definition a1 : IKCPCB := Eval vm_compute in ikcp_nodelay 1 10 2 1 k0.
Definition a2 : IKCPCB := Eval vm_compute in final (ikcp_send mall buf a1) a1.
Definition a3 : IKCPCB := Eval vm_compute in final (ikcp_update 1000 a2) a2.
Definition pkt (i : nat) : bytes := default [] (sent a3 !! i).
Definition b1 : IKCPCB := Eval vm_compute in final (ikcp_input mall (pkt 1) k0) k0.
Definition b2 : IKCPCB := Eval vm_compute in final (ikcp_input mall (pkt 1) b1) b1.
Definition b3 : IKCPCB := Eval vm_compute in final (ikcp_input mall (pkt 0) b2) b2.
Definition b4 : IKCPCB := Eval vm_compute in final (ikcp_recv 100 b3) b3.

Lemma start_fresh : fresh mall cnv 60 0 k0.
Proof. do 2 eexists. split; [vm_compute; reflexivity|]. split; vm_compute; reflexivity. Qed.

Lemma exchange : link mall cnv (MkPeer a3 [buf] []) (MkPeer b4 [] [buf]).
Proof.
  assert (L0 : link mall cnv (MkPeer k0 [] []) (MkPeer k0 [] [])).
  { apply (link_init _ _ _ _ 60 60 0 0); [split; split; vm_compute; congruence|done|done| |]; apply start_fresh. }
  assert (L3 : link mall cnv (MkPeer a3 [buf] []) (MkPeer k0 [] [])).
  { eapply link_call; [|apply (call_update _ _ a2 _ _ 1000); vm_compute; reflexivity].
    eapply link_call; [|apply (call_send _ _ a1 [] _ buf); vm_compute; reflexivity].
    eapply link_call; [exact L0|]. apply (call_nodelay _ _ k0 _ _ 1 10 2 1). }
  apply link_sym. apply link_sym in L3.
  eapply link_call; [|apply (call_recv _ _ b3 _ [] 100 30 buf); [done|vm_compute; reflexivity]].
  assert (In : forall i, (i < 2)%nat -> pkt i ∈ sent a3).
  { intros i Hi. unfold pkt. destruct (lookup_lt_is_Some_2 (sent a3) i Hi) as [x E]. rewrite E.
    by eapply list_elem_of_lookup_2. }
  eapply link_call; [|apply (call_input _ _ b2 _ _ (pkt 0)); [apply In; lia|vm_compute; reflexivity]].
  eapply link_call; [|apply (call_input _ _ b1 _ _ (pkt 1)); [apply In; lia|vm_compute; reflexivity]].
  eapply link_call; [exact L3|]. apply (call_input _ _ k0 _ _ (pkt 1)); [apply In; lia|vm_compute; reflexivity].
Qed.
End Demo.

Lemma kcp_delivers_prefix_witness :
  exists rest, concat [Demo.buf] = concat [Demo.buf] ++ rest.
Proof.
  apply (kcp_delivers_prefix Demo.mall Demo.cnv (MkPeer Demo.a3 [Demo.buf] []) (MkPeer Demo.b4 [] [Demo.buf])).
  - exact Demo.exchange.
  - vm_compute. congruence.
Defined.

Lemma kcp_delivers_messages_witness :
  exists rest, [Demo.buf] = [Demo.buf] ++ rest.
Proof.
  apply (kcp_delivers_messages Demo.mall Demo.cnv (MkPeer Demo.a3 [Demo.buf] []) (MkPeer Demo.b4 [] [Demo.buf])).
  - exact Demo.exchange.
  - reflexivity.
  - vm_compute. congruence.
Defined.
