(* ===== verification/KcpSafe.v ===== *)
(** * KCP: [ikcp_input] on arbitrary bytes

    A datagram from the network is parsed without reading outside it and
    without writing outside the ack array, whatever its contents, as long as
    no header announces a length of [2^31] or more; the property that fails
    beyond that bound is shown as well. *)

From Stdlib Require Import ZArith Lia.
From stdpp Require Import base numbers list gmap.
From S2P Require Import Prelude Util KcpState KcpOps KcpWire KcpRecv KcpInput KcpSend.
Open Scope Z_scope.

(** Every header that the loop of [ikcp_input] can reach announces less than
    [2^31] bytes. *)
Fixpoint small_lens (fuel : nat) (data : bytes) : bool :=
  match fuel with
  | O => true
  | S fuel =>
      match ikcp_decode_seg data with
      | None => true
      | Some (h, rest) => (h_len h <? 2 ^ 31) && small_lens fuel (drop (Z.to_nat (h_len h)) rest)
      end
  end.

(** ** The ack array *)

Lemma newblock_loop_spec fuel e n :
  0 <= e <= 31 -> 32 <= e + Z.of_nat fuel -> n <= 2 ^ 31 ->
  exists nb, newblock_loop fuel (2 ^ e) n = Some nb /\ n <= nb.
Proof.
  revert e. induction fuel as [|fuel IH]; intros e He Hf Hn; [lia|]. cbn [newblock_loop].
  destruct (Z.ltb_spec (2 ^ e) n) as [Hlt|]; [|eauto].
  assert (e < 31). { destruct (Z.eq_dec e 31) as [->|]; lia. }
  replace (u32 (Z.shiftl (2 ^ e) 1)) with (2 ^ (e + 1)); [apply IH; lia|].
  rewrite Z.shiftl_mul_pow2, <-Z.pow_add_r by lia. symmetry. apply uint_small.
  split; [apply Z.pow_nonneg; lia|apply Z.pow_lt_mono_r; lia].
Qed.

(** What the ack array and the window computation rely on; [n] more acks. *)
Definition ack_room (n : Z) (k : IKCPCB) : Prop :=
  0 <= ackcount k <= ackblock k /\ ackcount k + n < 2 ^ 31 /\ 0 < mss k.

Definition same_ack (k k' : IKCPCB) : Prop :=
  ackcount k' = ackcount k /\ ackblock k' = ackblock k /\ mss k' = mss k.

#[export] Instance same_ack_preorder : PreOrder same_ack.
Proof. split; [done|]. unfold same_ack. intros a b c; intuition congruence. Qed.

Lemma same_ack_room n k k' : same_ack k k' -> ack_room n k -> ack_room n k'.
Proof. unfold ack_room. by intros (-> & -> & ->). Qed.

Lemma parse_una_same u k : same_ack k (ikcp_parse_una u k).
Proof. unfold ikcp_parse_una. by destruct (una_scan u (snd_buf k)). Qed.
Lemma shrink_buf_same k : same_ack k (ikcp_shrink_buf k).
Proof. unfold ikcp_shrink_buf. by destruct (snd_buf k). Qed.
Lemma parse_ack_same n k : same_ack k (ikcp_parse_ack n k).
Proof. unfold ikcp_parse_ack. destruct (out_of_flight n k); [done|]. by destruct (ack_scan _ _) as [l []]. Qed.
Lemma update_ack_same rtt k : same_ack k (ikcp_update_ack rtt k).
Proof. unfold ikcp_update_ack. destruct (rx_srtt k =? 0); [done|]. by destruct (_ <? 1). Qed.
Lemma move_loop_same fuel k : same_ack k (move_loop fuel k).
Proof.
  revert k. induction fuel as [|fuel IH]; intros k; cbn [move_loop]; [done|].
  destruct (rcv_buf k); [done|]. destruct (_ && _); [|done]. etrans; [|apply IH]. done.
Qed.
Lemma parse_data_same s k : same_ack k (ikcp_parse_data s k).
Proof.
  unfold ikcp_parse_data. destruct (_ || _); [done|]. etrans; [|apply move_loop_same].
  by destruct (insert_seg s (rcv_buf k)).
Qed.
#[local] Hint Resolve parse_una_same shrink_buf_same parse_ack_same update_ack_same parse_data_same : xx.

Section safety.
(** Allocation succeeds. *)
Context (malloc : Z -> bool) (malloc_ok : forall n, malloc n = true).

Lemma ack_push_safe n s t k :
  1 <= n -> ack_room n k -> exists k', ikcp_ack_push malloc s t k = Done tt k' /\ ack_room (n - 1) k'.
Proof.
  intros Hn (Ha & Hr & Hm). unfold ikcp_ack_push. erewrite bind_done by done. cbv zeta.
  rewrite (uint_small 32 (ackcount k + 1)) by rng.
  destruct (Z.ltb_spec (ackblock k) (ackcount k + 1)).
  - destruct (newblock_loop_spec 32 3 (ackcount k + 1)) as (nb & E & Hle); [lia|lia|lia|].
    change (2 ^ 3) with 8 in E. rewrite E, bind_assoc. erewrite bind_done by done.
    rewrite bind_assoc, malloc_ok. do 2 erewrite bind_done by done.
    cbn [ackcount ackblock set_ackblock set_acklist].
    destruct (Z.ltb_spec (ackcount k) nb); [|lia]. erewrite bind_done by done.
    eexists. split; [done|]. unfold ack_room. cbn. rewrite uint_small by rng. lia.
  - erewrite bind_done by done. unfold assert_. destruct (Z.ltb_spec (ackcount k) (ackblock k)); [|lia].
    erewrite bind_done by done. eexists. split; [done|]. unfold ack_room. cbn. rewrite uint_small by rng. lia.
Qed.

Lemma input_push_safe n h rest k :
  1 <= n -> ack_room n k -> 0 <= h_len h <= zlen rest ->
  exists k', input_push malloc h rest k = Done tt k' /\ ack_room (n - 1) k'.
Proof.
  intros Hn Hr Hl. unfold input_push. erewrite bind_done by done.
  assert (Hr' : ack_room (n - 1) k) by (unfold ack_room in *; lia).
  destruct (_ <? 0); [|eauto].
  destruct (ack_push_safe n (h_sn h) (h_ts h) k Hn Hr) as (k1 & E1 & Hr1).
  erewrite bind_done by exact E1. erewrite bind_done by done. destruct (0 <=? _); [|eauto].
  rewrite malloc_ok. erewrite bind_done by done.
  destruct (zslice_is_Some rest 0 (h_len h)) as [d Ed]; [lia|lia|lia|]. rewrite Ed.
  destruct (0 <? h_len h); erewrite bind_done by done; eexists; (split; [done|]);
    (eapply same_ack_room; [apply parse_data_same|done]).
Qed.

Lemma input_ack_safe n h m k :
  ack_room n k -> exists m' k', input_ack h m k = Done m' k' /\ ack_room n k'.
Proof.
  intros Hr. unfold input_ack. do 3 erewrite bind_done by done. do 2 eexists. split; [done|].
  eapply same_ack_room; [|exact Hr]. etrans; [|apply shrink_buf_same]. etrans; [|apply parse_ack_same].
  destruct (0 <=? _); [apply update_ack_same|done].
Qed.

Lemma input_one_safe n h rest m k :
  1 <= n -> ack_room n k -> 0 <= h_len h <= zlen rest ->
  exists m' k', input_one malloc h rest m k = Done m' k' /\ ack_room (n - 1) k'.
Proof.
  intros Hn Hr Hl. unfold input_one. do 3 erewrite bind_done by done.
  set (k1 := ikcp_shrink_buf _).
  assert (Hr1 : ack_room n k1).
  { eapply same_ack_room; [|exact Hr]. unfold k1. etrans; [|apply shrink_buf_same].
    etrans; [|apply parse_una_same]. done. }
  assert (Hw : forall k, ack_room n k -> ack_room (n - 1) k) by (unfold ack_room; intros; lia).
  destruct (h_cmd h =? IKCP_CMD_ACK).
  { destruct (input_ack_safe n h m k1 Hr1) as (m' & k2 & E & Hr2). eauto. }
  destruct (h_cmd h =? IKCP_CMD_PUSH).
  { destruct (input_push_safe n h rest k1 Hn Hr1 Hl) as (k2 & E & Hr2).
    erewrite bind_done by exact E. eauto. }
  destruct (h_cmd h =? IKCP_CMD_WASK); [erewrite bind_done by done|]; do 2 eexists; (split; [done|]); auto.
Qed.

Lemma input_loop_safe fuel data m k :
  Forall is_byte data -> zlen data < 2 ^ 31 -> (length data < fuel)%nat ->
  small_lens fuel data = true -> ack_room (zlen data) k ->
  defined (input_loop malloc fuel data (zlen data) m k) /\
  forall m' k', input_loop malloc fuel data (zlen data) m k = Done m' k' -> ack_room 0 k'.
Proof.
  revert data m k. induction fuel as [|fuel IH]; intros data m k Hb Hz Hf Hl Hr; [lia|].
  cbn [input_loop]. unfold IKCP_OVERHEAD, Overhead_36. destruct (Z.ltb_spec (zlen data) 36).
  { split; [done|]. intros m' k' E. injection E as <- <-. unfold ack_room in *.
    pose proof (zlen_nonneg data). lia. }
  destruct (ikcp_decode_seg_is_Some data) as (h & rest & Ed); [done|].
  cbn [small_lens] in Hl. rewrite Ed in Hl |- *. apply andb_prop in Hl as [Hl1 Hl2].
  apply Z.ltb_lt in Hl1. pose proof (ikcp_decode_seg_len _ _ _ Ed) as Hrest.
  destruct (ikcp_decode_seg_bytes _ _ _ Hb Ed) as [Hh Hbr].
  erewrite bind_done by done. cbn iota. erewrite bind_done by done. cbv zeta.
  destruct (Guid_neqb _ _); [split; [done|]; done|]. erewrite bind_done by done.
  rewrite (sint_small 32 (zlen data - 36)) by (lia || rng).
  rewrite (sint_small 32 (h_len h)) by (lia || rng).
  destruct (Z.ltb_spec (zlen data - 36) (h_len h)); [split; [done|]; done|]. erewrite bind_done by done.
  destruct (negb (known_cmd _)); [split; [done|]; done|]. erewrite bind_done by done.
  destruct (input_one_safe (zlen data) h rest m k) as (m1 & k1 & E1 & Hr1); [lia|done|rng|].
  do 3 erewrite bind_done by done. erewrite bind_done by exact E1.
  destruct (Z.leb_spec (h_len h) (zlen rest)); [|lia]. erewrite bind_done by done.
  assert (Hz' : zlen (drop (Z.to_nat (h_len h)) rest) = zlen data - 36 - h_len h).
  { rewrite zlen_drop. rng. }
  rewrite sint_small, <-Hz' by (lia || rng). apply IH.
  - by apply Forall_drop.
  - rng.
  - unfold zlen in *. rng.
  - done.
  - unfold ack_room in *. rng.
Qed.

Lemma grow_cwnd_safe u k : 0 < mss k -> defined (grow_cwnd u k).
Proof.
  intros Hm. unfold grow_cwnd, mbind, M_bind, get, put, assert_, mret, M_ret, undef.
  destruct (_ && _); [|done]. cbv zeta. destruct (cwnd k <? ssthresh k); [done|].
  destruct (Z.ltb_spec (incr k) (mss k)).
  - cbn. destruct (Z.eqb_spec (mss k) 0); [lia|done].
  - destruct (Z.eqb_spec (incr k) 0); [lia|done].
Qed.
End safety.

(** ** Properties *)

(** C3. No datagram, however malformed, makes [ikcp_input] read outside it,
    overrun the ack array or divide by zero, as long as the headers in it
    announce lengths below [2^31] and allocation succeeds. *)
Theorem input_safe malloc data k :
  (forall n, malloc n = true) -> Forall is_byte data -> zlen data < 2 ^ 31 ->
  small_lens (S (length data)) data = true -> ack_room (zlen data) k ->
  defined (ikcp_input malloc data k).
Proof.
  intros Hm Hb Hz Hl Hr. unfold ikcp_input. erewrite bind_done by done. cbv zeta.
  destruct (zlen data <? IKCP_OVERHEAD); [done|]. erewrite bind_done by done.
  destruct (input_loop_safe malloc Hm (S (length data)) data None k) as [Hd Ha]; [done|done|lia|done|done|].
  apply bind_defined; [done|]. intros m k1 E. apply Ha in E as (_ & _ & Hms).
  erewrite bind_done by done. apply grow_cwnd_safe. destruct m; [|done].
  unfold ikcp_parse_fastack. by destruct (out_of_flight _ k1).
Qed.

(** A PUSH header that announces [2^31] bytes on a datagram of 36 bytes. *)
Definition evil_datagram (cnv : Guid) : bytes :=
  Guid_bytes cnv ++ le_bytes 1 81 ++ le_bytes 1 0 ++ le_bytes 2 128 ++ le_bytes 4 0 ++
  le_bytes 4 0 ++ le_bytes 4 0 ++ le_bytes 4 (2 ^ 31).

(** The length check [size < (int)len] lets a length of [2^31] through: a
    36-byte datagram from the network makes a fresh connection copy [2^31]
    bytes from outside the datagram. *)
Theorem input_length_check_bypassed malloc cnv k :
  (forall n, malloc n = true) -> Guid_valid cnv -> ikcp_create malloc cnv = Some k ->
  zlen (evil_datagram cnv) = 36 /\ ikcp_input malloc (evil_datagram cnv) k = Undef.
Proof.
  intros Hm Hg Hc. unfold ikcp_create in Hc. rewrite !Hm in Hc. injection Hc as <-.
  split; [done|]. unfold ikcp_input. erewrite bind_done by done. cbv zeta.
  change (zlen (evil_datagram cnv)) with 36. erewrite bind_done by done. apply bind_undef.
  generalize (length (evil_datagram cnv)) as fuel. intros fuel. cbn [input_loop].
  change (36 <? IKCP_OVERHEAD) with false. cbn iota.
  replace (ikcp_decode_seg (evil_datagram cnv)) with
    (Some (MkHdr cnv 81 0 128 0 0 0 (2 ^ 31), [] : bytes)).
  2:{ unfold evil_datagram, ikcp_decode_seg. rewrite ikcp_decodeGuid_app by done. reflexivity. }
  erewrite bind_done by done. cbn iota. erewrite bind_done by done. cbn [h_conv conv].
  rewrite Guid_neqb_negb. destruct (Guid_eqb_spec cnv cnv); [|done].
  do 6 erewrite bind_done by done. apply bind_undef. apply bind_undef.
  match goal with |- input_push _ ?h ?r ?k = _ => set (k1 := k) end.
  destruct (ack_push_safe malloc Hm 1 0 0 k1) as (k2 & E2 & _); [lia|by repeat split|].
  assert (E3 : rcv_nxt k2 = 0) by (apply ack_push_rcv in E2 as (-> & _); done).
  unfold input_push. erewrite bind_done by done. change (itimediff _ _ <? 0) with true. cbn iota.
  erewrite bind_done by exact E2. erewrite bind_done by done. cbn [h_sn]. rewrite E3, Hm. reflexivity.
Qed.

Lemma input_length_check_bypassed_witness :
  exists k, ikcp_create (fun _ => true) (MkGuid 7 9) = Some k /\
    ikcp_input (fun _ => true) (evil_datagram (MkGuid 7 9)) k = Undef.
Proof.
  eexists. split; [reflexivity|].
  apply (input_length_check_bypassed (fun _ => true) (MkGuid 7 9)); [done|by repeat split|reflexivity].
Defined.

(** An empty PUSH and four stray bytes, on a connection with one pending ack. *)
Lemma input_safe_witness :
  let k := set_ackblock 8 (set_ackcount 1 (set_acklist [(5, 6)] (set_mss 1364
    (MkCB (MkGuid 7 9) 0 0 0 0 0 0 0 0 0 0 0 0 0 0 0 0 0 0 0 0 0 0 0 0 0 0 0 0 0 0 0 0
      [] [] [] [] [] 0 0 0 0 0 0 false [])))) in
  defined (ikcp_input (fun _ => true) (Guid_bytes (MkGuid 7 9) ++ [81] ++ replicate 23 0) k).
Proof.
  apply input_safe; [done|repeat constructor; vm_compute; congruence|vm_compute; reflexivity|vm_compute; reflexivity|].
  repeat split; vm_compute; congruence.
Defined.
