(* ===== verification/KcpProps.v ===== *)
(** * KCP: contracts of the single operations

    Output, acceptance of the peer's datagrams, fragmentation, timers, and the
    settings that break an invariant. *)

From Stdlib Require Import ZArith Lia.
From stdpp Require Import base numbers list gmap.
From S2P Require Import Prelude Util KcpState KcpOps KcpWire KcpRecv KcpInput KcpFlush KcpSender KcpSend KcpLink KcpSafe.
Open Scope Z_scope.

(** ** Output *)

(** C4. On every connection that calls and network can produce, [ikcp_update]
    runs without overrunning the working buffer, and every datagram it hands
    to the output callback is a sequence of whole segments of at most [mtu]
    bytes. *)
Theorem update_output_fits malloc cnv p q now :
  link malloc cnv p q ->
  exists k' pkts, ikcp_update now (pk p) = Done tt k' /\ sent k' = sent (pk p) ++ pkts /\
    Forall (fun pkt => zlen pkt <= mtu (pk p) /\ exists segs, pkt = wire segs) pkts.
Proof.
  intros [(hist & Hp & _) _]%link_dir.
  destruct (ikcp_update_spec hist now (pk p)) as (l & k' & E & Hf); try apply Hp.
  destruct Hf as (_ & _ & _ & _ & _ & _ & _ & _ & _ & _ & pkts & Hs & Hg).
  exists k', pkts. split_and!; [done|done|]. eapply Forall_impl; [exact Hg|].
  intros pkt (segs & Hw & _ & Hz). eauto.
Qed.

Lemma update_output_fits_witness :
  exists k' pkts, ikcp_update 1000 Demo.a3 = Done tt k' /\ sent k' = sent Demo.a3 ++ pkts /\
    Forall (fun pkt => zlen pkt <= 60 /\ exists segs, pkt = wire segs) pkts.
Proof.
  apply (update_output_fits Demo.mall Demo.cnv (MkPeer Demo.a3 [Demo.buf] []) (MkPeer Demo.b4 [] [Demo.buf]) 1000
    Demo.exchange).
Defined.

(** ** Acceptance *)

Lemma input_loop_accepts malloc cnv msg limit segs fuel m k :
  (forall n, malloc n = true) -> Forall (genuine cnv msg limit) segs -> conv k = cnv ->
  zlen (wire segs) < 2 ^ 31 -> (length (wire segs) < fuel)%nat -> ack_room (zlen (wire segs)) k ->
  exists m' k', input_loop malloc fuel (wire segs) (zlen (wire segs)) m k = Done m' k' /\ 0 < mss k'.
Proof.
  intros Hm Hg. revert fuel m k.
  induction Hg as [|s segs ((Hgv & Hgc) & Hcb & Hkn & _) Hg IH]; intros fuel m k Hc Hz Hf Hr.
  { destruct fuel; [simpl in Hf; lia|]. do 2 eexists. split; [done|]. apply Hr. }
  destruct fuel as [|fuel]; [lia|]. change (wire (s :: segs)) with (wire_seg s ++ wire segs) in *.
  rewrite zlen_app, wire_seg_len in *. rewrite length_app in Hf.
  pose proof (zlen_nonneg (wire segs)). pose proof (zlen_nonneg (sdata s)).
  assert (El : length (wire_seg s) = Z.to_nat (36 + slen s)) by (rewrite <-wire_seg_len; unfold zlen; lia).
  rewrite input_loop_seg; [|by rewrite Hgc|congruence|by rewrite uint_small|done].
  destruct (input_one_safe malloc Hm (36 + slen s + zlen (wire segs)) (wire_header s) (sdata s) m k)
    as (m1 & k1 & E1 & Hr1).
  { unfold slen. lia. }
  { done. }
  { cbn. rewrite uint_small; unfold slen in *; [lia|rng]. }
  erewrite bind_done by exact E1. pose proof (input_one_frame malloc (wire_header s) (sdata s) m k) as Hfr.
  rewrite E1 in Hfr. destruct Hfr as ((_ & _ & _ & _ & Ec & _) & _). apply IH.
  - congruence.
  - unfold slen in *. lia.
  - unfold slen in *. lia.
  - unfold ack_room, slen in *. lia.
Qed.

(** C5. Every datagram that one end has emitted is accepted by the other end,
    at whatever later moment it arrives: [ikcp_input] returns 0. *)
Theorem peer_datagram_accepted malloc cnv p q pkt :
  link malloc cnv p q -> (forall n, malloc n = true) -> pkt ∈ sent (pk p) -> 36 <= zlen pkt ->
  ackcount (pk q) + zlen pkt < 2 ^ 31 ->
  exists k', ikcp_input malloc pkt (pk q) = Done tt k'.
Proof.
  intros Hl Hm Hin H36 Ha. destruct (link_conv _ _ _ _ Hl) as [Ep Eq].
  destruct (link_dir _ _ _ _ Hl) as [(hist & Hp & _) (hq & Hq & _)].
  pose proof (side_sent _ _ Hp) as Hs. rewrite Forall_forall in Hs.
  destruct (Hs pkt Hin) as (segs & -> & Hg & Hz). pose proof (side_tx _ _ Hp) as (_ & Hmt & _).
  unfold ikcp_input. erewrite bind_done by done. cbv zeta. unfold IKCP_OVERHEAD, Overhead_36.
  destruct (Z.ltb_spec (zlen (wire segs)) 36); [lia|]. erewrite bind_done by done.
  destruct (side_ack _ _ Hq) as [[? ?] ?]. destruct (side_mss _ _ Hq).
  rewrite Ep in Hg.
  destruct (input_loop_accepts malloc cnv _ _ segs (S (length (wire segs))) None (pk q) Hm Hg)
    as (m & k1 & E1 & Hmss); [done|lia|lia|unfold ack_room; lia|].
  erewrite bind_done by exact E1. erewrite bind_done by done.
  match goal with |- exists k', grow_cwnd ?u ?k = _ => pose proof (grow_cwnd_safe u k) as Hd;
    destruct (grow_cwnd u k) as [[] k2|e k2|] eqn:E; [eauto|exfalso|exfalso; apply Hd; [|done]] end.
  - revert E. unfold grow_cwnd, mbind, M_bind, get, put, assert_, mret, M_ret, undef.
    destruct (_ && _); [|done]. cbv zeta. destruct (_ <? _); [done|]. destruct (_ <? _), (negb _); done.
  - destruct m; [|done]. unfold ikcp_parse_fastack. by destruct (out_of_flight _ k1).
Qed.

Lemma peer_datagram_accepted_witness :
  exists k', ikcp_input Demo.mall (Demo.pkt 0) Demo.b4 = Done tt k'.
Proof.
  apply (peer_datagram_accepted Demo.mall Demo.cnv (MkPeer Demo.a3 [Demo.buf] []) (MkPeer Demo.b4 [] [Demo.buf])).
  - exact Demo.exchange.
  - done.
  - by left.
  - vm_compute. congruence.
  - vm_compute. congruence.
Defined.

(** ** Sending *)

(** C6. [ikcp_send] in message mode: a message that needs 128 fragments or more
    is refused with -2 and changes nothing; otherwise its fragments, at most
    [mss] bytes each and numbered down to 0, are queued behind what is there,
    and concatenate to the message. *)
Theorem send_fragments malloc buf k :
  (forall n, malloc n = true) -> stream k = 0 -> 0 < mss k < 2 ^ 31 -> zlen buf < 2 ^ 31 ->
  is_uint 32 (nsnd_que k) ->
  if 127 * mss k <? zlen buf then ikcp_send malloc buf k = Fail (-2) k
  else exists l, ikcp_send malloc buf k = Done tt (enqueue l k) /\
    concat (sdata <$> l) = buf /\ Forall (fun s => slen s <= mss k) l /\
    frg <$> l = rev (seqZ 0 (zlen l)) /\ zlen l = Z.max 1 ((zlen buf + mss k - 1) / mss k).
Proof.
  intros Hm Hst Hmss Hl Hn. unfold ikcp_send. erewrite bind_done by done.
  destruct (Z.ltb_spec 0 (mss k)); [|lia]. erewrite bind_done by done. rewrite Hst.
  change (0 =? 0) with true. cbn iota. rewrite fragment_eq by (done || lia).
  pose proof (zlen_nonneg buf) as Hz. destruct (frag_count_bounds (mss k) (zlen buf)) as [Hc1 Hc2]; [lia|lia|].
  assert (Hdiv : (zlen buf + mss k - 1) / mss k <= 127 <-> zlen buf <= 127 * mss k).
  { split; intros.
    - pose proof (Z.div_mod (zlen buf + mss k - 1) (mss k) ltac:(lia)).
      pose proof (Z.mod_pos_bound (zlen buf + mss k - 1) (mss k) ltac:(lia)). nia.
    - apply Z.lt_succ_r, Z.div_lt_upper_bound; lia. }
  assert (Hcnt : frag_count (mss k) (zlen buf) = Z.max 1 ((zlen buf + mss k - 1) / mss k)).
  { unfold frag_count in *. destruct (Z.leb_spec (zlen buf) (mss k)); [|lia].
    assert ((zlen buf + mss k - 1) / mss k < 2) by (apply Z.div_lt_upper_bound; lia). lia. }
  destruct (Z.ltb_spec (127 * mss k) (zlen buf)), (Z.leb_spec 128 (frag_count (mss k) (zlen buf))); try lia; [done|].
  rewrite Hst. change (negb (0 =? 0)) with false.
  replace (segs_fit malloc (frags (mss k) false buf)) with true.
  2:{ symmetry. unfold segs_fit. apply forallb_forall. intros. apply Hm. }
  exists (frags (mss k) false buf). split_and!; [done|by apply frags_data; lia|apply frag_segs_size; lia| |].
  - unfold frags. rewrite frag_segs_zlen, frag_segs_countdown. done.
  - unfold frags. rewrite frag_segs_zlen. lia.
Qed.

Lemma send_fragments_witness :
  exists l, ikcp_send Demo.mall Demo.buf Demo.a1 = Done tt (enqueue l Demo.a1) /\
    concat (sdata <$> l) = Demo.buf /\ Forall (fun s => slen s <= 24) l /\
    frg <$> l = rev (seqZ 0 (zlen l)) /\ zlen l = 2.
Proof.
  apply (send_fragments Demo.mall Demo.buf Demo.a1); [done|done|by split|done|by split].
Defined.

(** The streaming mode keeps part of a message that it refuses: the first bytes
    are already merged into the last queued segment when -2 is returned. *)
Definition stream_sender : IKCPCB :=
  set_stream 1 (set_mss 14 (set_snd_queue [new_seg [1; 2; 3; 4] 0] (set_nsnd_que 1 Demo.k0))).

(** In streaming mode a send that fails with -2 has already queued the first
    bytes of the buffer. *)
Theorem stream_send_partial :
  exists k', ikcp_send Demo.mall (replicate 1800 7) stream_sender = Fail (-2) k' /\
    sdata <$> snd_queue k' = [[1; 2; 3; 4; 7; 7; 7; 7; 7; 7; 7; 7; 7; 7]].
Proof. eexists. split; vm_compute; reflexivity. Qed.

(** A connection with the default MTU, ready to send. *)
Definition mtu_sender : IKCPCB :=
  ikcp_nodelay 1 10 2 1 (ikcp_setoutput (set_mss 1364 (set_mtu 1400 (set_bufsize 4308 Demo.k0)))).

(** Lowering the MTU while larger segments are queued makes the next flush
    write past the working buffer: every call succeeds up to [ikcp_setmtu], and
    [ikcp_update] is undefined. *)
Theorem setmtu_after_send_overruns :
  let before := (_ ← ikcp_send Demo.mall (replicate 1300 7); ikcp_setmtu Demo.mall 50) mtu_sender in
  (exists k, before = Done tt k) /\
  (_ ← ikcp_send Demo.mall (replicate 1300 7); _ ← ikcp_setmtu Demo.mall 50; ikcp_update 1000) mtu_sender = Undef.
Proof. split; [eexists|]; vm_compute; reflexivity. Qed.

(** [ikcp_waitsnd] is the number of segments waiting in [snd_buf] and
    [snd_queue]. *)
Theorem waitsnd_counts malloc cnv p q :
  link malloc cnv p q -> zlen (snd_buf (pk p)) + zlen (snd_queue (pk p)) < 2 ^ 31 ->
  ikcp_waitsnd (pk p) = zlen (snd_buf (pk p)) + zlen (snd_queue (pk p)).
Proof.
  intros [(hist & Hp & _) _]%link_dir Hlt. destruct (side_snd _ _ Hp) as (_ & _ & [E1 E2] & _).
  pose proof (zlen_nonneg (snd_buf (pk p))). pose proof (zlen_nonneg (snd_queue (pk p))).
  unfold ikcp_waitsnd. rewrite E1, E2, uint_add_l, uint_add_r by lia. rewrite sint_uint by lia.
  apply sint_small; [lia|rng].
Qed.

Lemma waitsnd_counts_witness : ikcp_waitsnd Demo.a3 = 2.
Proof.
  apply (waitsnd_counts Demo.mall Demo.cnv (MkPeer Demo.a3 [Demo.buf] []) (MkPeer Demo.b4 [] [Demo.buf]) Demo.exchange).
  vm_compute. reflexivity.
Defined.

(** ** Timers *)

(** Every round-trip sample leaves the retransmission timeout between
    [rx_minrto] and 60 seconds. *)
Theorem rto_bounds rtt k :
  0 <= rx_minrto k <= IKCP_RTO_MAX ->
  rx_minrto k <= rx_rto (ikcp_update_ack rtt k) <= IKCP_RTO_MAX.
Proof.
  intros H. unfold IKCP_RTO_MAX in *. unfold ikcp_update_ack. cbv zeta.
  set (k1 := if rx_srtt k =? 0 then _ else _).
  assert (E : rx_minrto k1 = rx_minrto k).
  { unfold k1. destruct (rx_srtt k =? 0); [done|]. by destruct (_ <? 1). }
  cbn [rx_rto set_rx_rto]. rewrite E, (uint_small 32 (rx_minrto k)) by rng.
  set (r := u32 (i32 _)). assert (0 <= r) by (apply uint_range; lia).
  unfold IKCP_RTO_MAX, ibound, imin, imax. rewrite sint_small; zbool; rng.
Qed.

Lemma rto_bounds_witness : 100 <= rx_rto (ikcp_update_ack 50000 Demo.k0) <= 60000.
Proof. apply (rto_bounds 50000 Demo.k0). by split. Defined.

Lemma check_loop_spec now l t t' :
  check_loop now l t = Some t' ->
  t' <= t /\ Forall (fun s => t' <= itimediff (resendts s) now) l /\ (0 < t -> 0 < t').
Proof.
  revert t. induction l as [|s l IH]; intros t E; cbn [check_loop] in E.
  { injection E as <-. done. }
  destruct (Z.leb_spec (itimediff (resendts s) now) 0); [done|].
  destruct (IH _ E) as (H1 & H2 & H3).
  destruct (Z.ltb_spec (itimediff (resendts s) now) t);
    (split; [lia|split; [constructor; [lia|done]|lia]]).
Qed.

(** [ikcp_check] answers a time between now and one interval from now, and
    not after the retransmission of a segment that is still ahead. *)
Theorem check_in_time now k :
  is_uint 32 now -> 0 <= interval k <= 5000 ->
  let d := itimediff (ikcp_check now k) now in
  0 <= d <= interval k /\
  Forall (fun s => 0 < itimediff (resendts s) now -> d <= itimediff (resendts s) now) (snd_buf k).
Proof.
  intros Hnow Hint. cbv zeta.
  assert (Now : 0 <= itimediff now now <= interval k /\ Forall (fun s => 0 < itimediff (resendts s) now ->
    itimediff now now <= itimediff (resendts s) now) (snd_buf k)).
  { rewrite itimediff_i32, Z.sub_diag. change (i32 0) with 0. split; [lia|]. apply Forall_true. lia. }
  unfold ikcp_check. destruct (updated k =? 0); [exact Now|]. cbv zeta.
  set (tf := if _ || _ then now else ts_flush k). destruct (Z.leb_spec 0 (itimediff now tf)) as [|Hneg]; [exact Now|].
  destruct (check_loop now (snd_buf k) 2147483647) as [t|] eqn:E; [|exact Now].
  apply check_loop_spec in E as (Ht & Hall & Hpos). specialize (Hpos ltac:(lia)).
  assert (Hge : -10000 <= itimediff now tf).
  { unfold tf. destruct (_ || _) eqn:C; [rewrite itimediff_i32, Z.sub_diag; done|].
    apply orb_false_iff in C as [_ C]. by apply Z.ltb_ge in C. }
  assert (Hflush : 0 < itimediff tf now).
  { clear Now. rewrite itimediff_i32 in *. unfold sint in *. change (2 ^ (32 - 1)) with 2147483648 in *.
    change (2 ^ 32) with 4294967296 in *.
    pose proof (Z.div_mod (now - tf + 2147483648) 4294967296 ltac:(lia)).
    pose proof (Z.mod_pos_bound (now - tf + 2147483648) 4294967296 ltac:(lia)).
    pose proof (Z.div_mod (tf - now + 2147483648) 4294967296 ltac:(lia)).
    pose proof (Z.mod_pos_bound (tf - now + 2147483648) 4294967296 ltac:(lia)). lia. }
  set (mn := if t <? itimediff tf now then t else itimediff tf now).
  assert (Hmn : 0 < mn <= t) by (unfold mn; destruct (Z.ltb_spec t (itimediff tf now)); lia).
  rewrite (uint_small 32 mn) by rng. set (r := if interval k <=? mn then interval k else mn).
  assert (Hr : 0 <= r <= interval k /\ r <= t) by (unfold r; destruct (Z.leb_spec (interval k) mn); lia).
  rewrite itimediff_i32. rewrite (sint_mod 32 (u32 (now + r) - now) r), sint_small;
    [|lia|rng|lia|unfold uint; rewrite Zminus_mod_idemp_l; f_equal; lia].
  split; [lia|]. eapply Forall_impl; [exact Hall|]. simpl. lia.
Qed.

Lemma check_in_time_witness :
  let d := itimediff (ikcp_check 1005 Demo.a3) 1005 in
  0 <= d <= 10 /\ Forall (fun s => 0 < itimediff (resendts s) 1005 -> d <= itimediff (resendts s) 1005) (snd_buf Demo.a3).
Proof. apply (check_in_time 1005 Demo.a3); by split. Defined.

(** ** Progress *)

(** C7. The next segment of the stream is never left waiting: when it arrives
    and [rcv_queue] has room, [ikcp_parse_data] advances [rcv_nxt] past it, and
    past everything behind it that had arrived before. *)
Theorem next_segment_advances msg limit N s k :
  rcv_inv msg limit N k -> carries msg limit N s -> nrcv_que k < rcv_wnd k ->
  exists N', N + 1 <= N' /\ rcv_nxt (ikcp_parse_data s k) = u32 N' /\
    rcv_inv msg limit N' (ikcp_parse_data s k).
Proof.
  intros Hi Hc Hq. destruct (parse_data_progress _ _ _ _ _ Hi Hc Hq) as (N' & Hle & Hi').
  exists N'. split_and!; [done| |done]. by destruct Hi' as (_ & -> & _).
Qed.

Lemma next_segment_advances_witness :
  let s := MkSeg Demo.cnv 81 0 0 0 0 0 0 0 0 0 [5] in
  exists N', 0 + 1 <= N' /\ rcv_nxt (ikcp_parse_data s Demo.k0) = u32 N' /\
    rcv_inv (fun _ => (0, [5])) 10 N' (ikcp_parse_data s Demo.k0).
Proof.
  apply (next_segment_advances (fun _ => (0, [5])) 10 0 (MkSeg Demo.cnv 81 0 0 0 0 0 0 0 0 0 [5]) Demo.k0).
  - split_and!; try done. exists []. repeat constructor.
  - split_and!; done.
  - done.
Defined.
