(* ===== verification/Kcp4.v ===== *)
(** * ikcp.h, ikcp.cpp of test_uv_4: the second copy of KCP

    The files of src/test_uv_4 hold the code of src/test_uv_3/ikcp.h once more;
    the two differ in layout, in the width of a loop counter, and in one number:
    [IKCP_OVERHEAD] is still 24 here, the length of a header whose connection
    number has four bytes, while the headers that are written and read carry a
    [Guid] and have 36.  So every function is that of [KcpOps], at 24. *)

From Stdlib Require Import ZArith Lia.
From stdpp Require Import base numbers list gmap.
From S2P Require Import Prelude Util KcpState KcpOps.
Open Scope Z_scope.

Definition Overhead_24 : Overhead := 24.

Definition ikcp_create : (Z -> bool) -> Guid -> option IKCPCB := KcpOps.ikcp_create (overhead := Overhead_24).
Definition ikcp_release : IKCPCB -> IKCPCB := KcpOps.ikcp_release.
Definition ikcp_setoutput : IKCPCB -> IKCPCB := KcpOps.ikcp_setoutput.
Definition ikcp_recv : Z -> M IKCPCB (Z * bytes) := KcpOps.ikcp_recv.
Definition ikcp_peeksize : IKCPCB -> Z := KcpOps.ikcp_peeksize.
Definition ikcp_send : (Z -> bool) -> bytes -> M IKCPCB unit := KcpOps.ikcp_send.
Definition ikcp_input : (Z -> bool) -> bytes -> M IKCPCB unit := KcpOps.ikcp_input (overhead := Overhead_24).
Definition ikcp_flush : M IKCPCB unit := KcpOps.ikcp_flush (overhead := Overhead_24).
Definition ikcp_update : Z -> M IKCPCB unit := KcpOps.ikcp_update (overhead := Overhead_24).
Definition ikcp_check : Z -> IKCPCB -> Z := KcpOps.ikcp_check.
Definition ikcp_setmtu : (Z -> bool) -> Z -> M IKCPCB unit := KcpOps.ikcp_setmtu (overhead := Overhead_24).
Definition ikcp_interval : Z -> IKCPCB -> IKCPCB := KcpOps.ikcp_interval.
Definition ikcp_nodelay : Z -> Z -> Z -> Z -> IKCPCB -> IKCPCB := KcpOps.ikcp_nodelay.
Definition ikcp_wndsize : Z -> Z -> IKCPCB -> IKCPCB := KcpOps.ikcp_wndsize.
Definition ikcp_waitsnd : IKCPCB -> Z := KcpOps.ikcp_waitsnd.
