(* ===== verification/Kcp4Props.v ===== *)
(** * What the number 24 does to KCP *)

From Stdlib Require Import ZArith Lia.
From stdpp Require Import base numbers list gmap.
From S2P Require Import Prelude Util KcpState KcpOps KcpWire KcpRecv KcpInput KcpSend Kcp4.
Open Scope Z_scope.

(** ** Segments are handled without an error code *)

Definition no_fail {S A} (o : outcome S A) : Prop := match o with Fail _ _ => False | _ => True end.

Lemma no_fail_bind {S A B} (m : M S A) (f : A -> M S B) s :
  no_fail (m s) -> (forall a s', m s = Done a s' -> no_fail (f a s')) -> no_fail ((x ← m; f x) s).
Proof. unfold mbind, M_bind. intros Hm Hf. destruct (m s); [by eapply Hf|done|done]. Qed.

Lemma input_one_no_fail malloc h d m k : no_fail (input_one malloc h d m k).
Proof.
  unfold input_one. do 3 (apply no_fail_bind; [done|intros [] ? _]).
  destruct (h_cmd h =? IKCP_CMD_ACK); [done|]. destruct (h_cmd h =? IKCP_CMD_PUSH); [|by destruct (h_cmd h =? IKCP_CMD_WASK)].
  apply no_fail_bind; [|done]. unfold input_push. apply no_fail_bind; [done|]. intros k1 ? _. destruct (_ <? 0); [|done].
  apply no_fail_bind.
  - unfold ikcp_ack_push, mbind, M_bind, get, put, demand, assert_, mret, M_ret, undef.
    destruct (_ <? u32 _); [destruct (newblock_loop _ _ _); [|done]; destruct (malloc _); [|done]|]; by destruct (_ <? _).
  - intros [] k2 _. apply no_fail_bind; [done|]. intros k3 ? _. destruct (0 <=? _); [|done].
    apply no_fail_bind; [by unfold assert_; destruct (malloc _)|]. intros [] ? _. apply no_fail_bind; [|done].
    destruct (0 <? _); [|done]. unfold demand. by destruct (zslice _ _ _).
Qed.

Lemma input_one_conv malloc h d m k m' k' : input_one malloc h d m k = Done m' k' -> conv k' = conv k.
Proof. intros E. pose proof (input_one_frame malloc h d m k) as H. rewrite E in H. by destruct H as [(_ & _ & _ & _ & H & _) _]. Qed.

(** ** Datagrams of well-formed segments *)

Definition well_formed (c : Guid) (s : IKCPSEG) : Prop := Guid_valid c /\ seg_conv s = c /\ known_cmd (u8 (cmd s)) = true.

(** With [k] segments handled before, the counter is [12 * k] too large. *)
Lemma input_loop_24 malloc segs : forall fuel j m k c,
  Forall (well_formed c) segs -> conv k = c -> 0 <= j -> 2 <= j + zlen segs -> zlen (wire segs) + 12 * j < 2 ^ 31 ->
  (length segs < fuel)%nat ->
  input_loop (overhead := Overhead_24) malloc fuel (wire segs) (zlen (wire segs) + 12 * j) m k = Undef.
Proof.
  induction segs as [|s segs IH]; intros fuel j m k c Hw Hc Hj Hn Hl Hf; (destruct fuel as [|fuel]; [cbn in Hf; lia|]).
  - change (zlen []) with 0 in Hn. cbn [wire fmap list_fmap concat input_loop]. change (wire []) with (@nil Z). change (zlen []) with 0.
    unfold IKCP_OVERHEAD, Overhead_24. by destruct (Z.ltb_spec (0 + 12 * j) 24); [lia|].
  - apply Forall_cons in Hw as [(Hg & Hs & Hcmd) Hw]. change (wire (s :: segs)) with (wire_seg s ++ wire segs) in *. rewrite zlen_app, wire_seg_len in *.
    rewrite zlen_cons in Hn. pose proof (zlen_nonneg (wire segs)). pose proof (zlen_nonneg (sdata s)). cbn [length] in Hf.
    rewrite (input_loop_seg_at (o := Overhead_24)); [|by rewrite Hs|by rewrite Hs|done|done|unfold IKCP_OVERHEAD, Overhead_24, slen in *; lia].
    unfold mbind, M_bind. pose proof (input_one_no_fail malloc (wire_header s) (sdata s) m k) as Hnf.
    destruct (input_one malloc (wire_header s) (sdata s) m k) as [m' k'|e k'|] eqn:E; [|done|done].
    replace (36 + slen s + zlen (wire segs) + 12 * j - IKCP_OVERHEAD - slen s) with (zlen (wire segs) + 12 * (j + 1)) by (unfold IKCP_OVERHEAD, Overhead_24; lia).
    unfold slen in Hl. apply (IH fuel (j + 1) m' k' c); try done; try lia. by rewrite (input_one_conv _ _ _ _ _ _ _ E).
Qed.

(** C8. With 24 in the place of 36 a datagram of one segment is handled as the
    other copy handles it, but one of two or more makes [ikcp_input] read on
    behind the end of the datagram. *)
Theorem input_24 malloc segs k :
  Forall (well_formed (conv k)) segs -> zlen (wire segs) + 12 * zlen segs < 2 ^ 31 ->
  (forall s, segs = [s] -> Kcp4.ikcp_input malloc (wire segs) k = KcpOps.ikcp_input malloc (wire segs) k) /\
  (2 <= zlen segs -> Kcp4.ikcp_input malloc (wire segs) k = Undef).
Proof.
  intros Hw Hl. split.
  - intros s ->. apply Forall_singleton in Hw as (Hg & Hs & Hcmd). change (wire [s]) with (wire_seg s ++ []) in *. change (zlen [s]) with 1 in Hl.
    rewrite zlen_app, wire_seg_len in Hl. change (zlen []) with 0 in Hl. pose proof (zlen_nonneg (sdata s)). unfold slen in *.
    unfold Kcp4.ikcp_input, KcpOps.ikcp_input. rewrite !bind_get, zlen_app, wire_seg_len. change (zlen []) with 0. unfold slen.
    unfold IKCP_OVERHEAD at 1 2, Overhead_24, Overhead_36. destruct (Z.ltb_spec (36 + zlen (sdata s) + 0) 24); [lia|]. destruct (Z.ltb_spec (36 + zlen (sdata s) + 0) 36); [lia|].
    unfold reject_if at 1 2. rewrite !bind_mret. apply bind_ext; [|done].
    rewrite (input_loop_seg_at (o := Overhead_24)); [|rewrite Hs; exact Hg|exact Hs|exact Hcmd|unfold IKCP_OVERHEAD, Overhead_24; lia|unfold IKCP_OVERHEAD, Overhead_24, slen; lia].
    rewrite (input_loop_seg_at (o := Overhead_36)); [|rewrite Hs; exact Hg|exact Hs|exact Hcmd|unfold IKCP_OVERHEAD, Overhead_36; lia|unfold IKCP_OVERHEAD, Overhead_36, slen; lia].
    apply bind_ext; [done|]. intros m' k' _. unfold slen, IKCP_OVERHEAD, Overhead_24, Overhead_36.
    replace (36 + zlen (sdata s) + 0 - 24 - zlen (sdata s)) with 12 by lia. replace (36 + zlen (sdata s) + 0 - 36 - zlen (sdata s)) with 0 by lia.
    by destruct (length (wire_seg s ++ [])).
  - intros Hn. unfold Kcp4.ikcp_input, KcpOps.ikcp_input. rewrite bind_get.
    assert (H36 : forall l : list IKCPSEG, 36 * zlen l <= zlen (wire l)).
    { induction l as [|s l IH]; [done|]. change (wire (s :: l)) with (wire_seg s ++ wire l). rewrite zlen_app, zlen_cons, wire_seg_len. unfold slen. pose proof (zlen_nonneg (sdata s)). lia. }
    pose proof (H36 segs). change (@IKCP_OVERHEAD Overhead_24) with 24. destruct (Z.ltb_spec (zlen (wire segs)) 24); [lia|]. unfold reject_if at 1. rewrite bind_mret.
    pose proof (input_loop_24 malloc segs (S (length (wire segs))) 0 None k (conv k) Hw eq_refl ltac:(lia) ltac:(lia) ltac:(lia)) as Hu.
    replace (zlen (wire segs) + 12 * 0) with (zlen (wire segs)) in Hu by lia. unfold mbind at 1, M_bind at 1. rewrite Hu; [done|]. unfold zlen in *. lia.
Qed.

(** ** A connection as the peers make it *)

Definition some_guid : Guid := MkGuid 7 9.
Definition peer_kcp : option IKCPCB :=
  k ← Kcp4.ikcp_create (fun _ => true) some_guid;
  Some (Kcp4.ikcp_setoutput (set_rx_minrto 100 (Kcp4.ikcp_nodelay 1 10 2 1 (Kcp4.ikcp_wndsize 128 128 k)))).

(** Two messages that are sent in one interval go into one datagram, which the
    other end cannot read. *)
Lemma two_messages_break : exists k0 k1 d,
  peer_kcp = Some k0 /\
  (_ ← Kcp4.ikcp_send (fun _ => true) [1]; _ ← Kcp4.ikcp_send (fun _ => true) [2]; Kcp4.ikcp_update 0) k0 = Done tt k1 /\
  sent k1 = [d] /\ zlen d = 74 /\ Kcp4.ikcp_input (fun _ => true) d k0 = Undef.
Proof. eexists _, _, _. split; [vm_compute; reflexivity|]. split; [vm_compute; reflexivity|]. split; [reflexivity|]. split; [reflexivity|]. vm_compute. reflexivity. Qed.

(** A full segment makes a datagram of 12 bytes more than the MTU. *)
Lemma datagram_above_mtu : exists k0 k1 d,
  peer_kcp = Some k0 /\
  (_ ← Kcp4.ikcp_send (fun _ => true) (replicate 1376 0); Kcp4.ikcp_update 0) k0 = Done tt k1 /\
  sent k1 = [d] /\ mtu k1 = 1400 /\ zlen d = 1412.
Proof. eexists _, _, _. split; [vm_compute; reflexivity|]. split; [vm_compute; reflexivity|]. split; [reflexivity|]. split; vm_compute; reflexivity. Qed.

Definition ack_seg (n : Z) : IKCPSEG := MkSeg some_guid IKCP_CMD_ACK 0 128 0 n 0 0 0 0 0 [].

Lemma input_24_witness : exists k, peer_kcp = Some k /\
  Kcp4.ikcp_input (fun _ => true) (wire [ack_seg 0]) k = KcpOps.ikcp_input (fun _ => true) (wire [ack_seg 0]) k /\
  Kcp4.ikcp_input (fun _ => true) (wire [ack_seg 0; ack_seg 1]) k = Undef.
Proof.
  assert (H : exists k, peer_kcp = Some k /\ conv k = some_guid) by (eexists; split; vm_compute; reflexivity). destruct H as (k & Ek & Ec).
  exists k. split; [exact Ek|].
  assert (Hw : forall n, well_formed (conv k) (ack_seg n)) by (intros n; rewrite Ec; split; [|by split]; split; unfold is_uint; cbn; lia).
  split.
  - apply (input_24 (fun _ => true) [ack_seg 0] k ltac:(apply Forall_singleton, Hw) ltac:(by vm_compute)) with (s := ack_seg 0). reflexivity.
  - apply (input_24 (fun _ => true) [ack_seg 0; ack_seg 1] k ltac:(apply Forall_cons; split; [apply Hw|apply Forall_singleton, Hw]) ltac:(by vm_compute)). by vm_compute.
Defined.
