(* ===== verification/Framing.v ===== *)
(** * xx_uv.h: packages on a byte stream

    A package is a 4-byte little-endian length and that many bytes.  [Unpack]
    collects what arrives in [buf] and hands every complete package to
    [HandlePack]; the same code serves [UvTcpBasePeer], [UvUdpBasePeer] and
    [UvUdpKcpPeer].  The handler is a parameter: a call on the state [S] of
    the peer that returns an [int]. *)

From Stdlib Require Import ZArith Lia.
From stdpp Require Import base numbers list gmap.
From S2P Require Import Prelude Util BBuffer.
Open Scope Z_scope.

(** [reqbuf[...+0] = uint8_t(len); ...; reqbuf[...+3] = uint8_t(len >> 24)]:
    what [SendReqAndData] sends for a package of content [d]. *)
Definition SendReqAndData (d : bytes) : bytes :=
  let len := u32 (zlen d) in
  [u8 len; u8 (Z.shiftr len 8); u8 (Z.shiftr len 16); u8 (Z.shiftr len 24)] ++ d.

(** The copy in [UvUdpBasePeer]. *)
Definition Udp_SendReqAndData (d : bytes) : bytes := SendReqAndData d.

(** [buf[offset + 0] + (buf[offset + 1] << 8) + ...], an [int]. *)
Definition pack_len (d : bytes) (offset : Z) : option Z :=
  b0 ← znth d (u32 (offset + 0));
  b1 ← znth d (u32 (offset + 1));
  b2 ← znth d (u32 (offset + 2));
  b3 ← znth d (u32 (offset + 3));
  Some (i32 (b0 + Z.shiftl b1 8 + Z.shiftl b2 16 + Z.shiftl b3 24)).

Section unpack.
Context {S : Type} (HandlePack : bytes -> M S Z).

(** State of a peer: its receive buffer and the rest. *)
Definition on_buf {A} (m : M BBuffer A) : M (BBuffer * S) A := fun st =>
  match m st.1 with
  | Done a b => Done a (b, st.2)
  | Fail e b => Fail e (b, st.2)
  | Undef => Undef
  end.
Definition on_peer {A} (m : M S A) : M (BBuffer * S) A := fun st =>
  match m st.2 with
  | Done a s => Done a (st.1, s)
  | Fail e s => Fail e (st.1, s)
  | Undef => Undef
  end.

(** The [while] loop; returns the final [offset]. *)
Fixpoint unpack_loop (fuel : nat) (offset : Z) : M (BBuffer * S) Z :=
  match fuel with
  | O => undef
  | Datatypes.S fuel =>
      st ← get;
      let b := st.1 in
      if u32 (offset + 4) <=? len b then
        l ← demand (pack_len (data b) offset);
        _ ← reject_if (l <=? 0) (-1);
        if len b <? u32 (offset + 4 + l) then mret offset
        else
          let offset := u32 (offset + 4) in
          pack ← demand (zslice (data b) offset l);
          r ← on_peer (HandlePack pack);
          _ ← reject_if (negb (r =? 0)) r;
          unpack_loop fuel (u32 (offset + l))
      else mret offset
  end.

Definition Unpack (recv : bytes) : M (BBuffer * S) Z :=
  _ ← on_buf (AddRange recv);
  st ← get;
  offset ← unpack_loop (Datatypes.S (length (data st.1))) 0;
  _ ← on_buf (RemoveFront offset);
  mret 0.

(** The copies of the loop in [UvUdpBasePeer] and [UvUdpKcpPeer]. *)
Definition Udp_Unpack : bytes -> M (BBuffer * S) Z := Unpack.
Definition Kcp_Unpack : bytes -> M (BBuffer * S) Z := Unpack.

(** What arrives, piece by piece. *)
Fixpoint feed (chunks : list bytes) : M (BBuffer * S) unit :=
  match chunks with
  | [] => mret tt
  | c :: cs => _ ← Unpack c; feed cs
  end.
End unpack.

(** ** The header *)

Definition frame (m : bytes) : bytes := le_bytes 4 (zlen m) ++ m.
Definition frames (ms : list bytes) : bytes := concat (frame <$> ms).

(** A package that can be framed. *)
Definition pack_ok (m : bytes) : Prop := 0 < zlen m < 2 ^ 31.

Lemma frame_zlen m : zlen (frame m) = 4 + zlen m.
Proof. unfold frame. by rewrite zlen_app, le_bytes_zlen. Qed.

Lemma le_bytes_S n v : le_bytes (S n) v = v mod 256 :: le_bytes n (v / 256).
Proof. done. Qed.

Lemma SendReqAndData_frame m : zlen m < 2 ^ 32 -> SendReqAndData m = frame m.
Proof.
  intros H. pose proof (zlen_nonneg m). unfold SendReqAndData, frame. rewrite (uint_small 32) by rng.
  rewrite !le_bytes_S. change (le_bytes 0 ?v) with (@nil Z).
  rewrite !Z.shiftr_div_pow2 by lia. unfold uint. change (2 ^ 8) with 256.
  change (2 ^ 16) with (256 * 256). change (2 ^ 24) with (256 * 256 * 256).
  rewrite !Z.div_div by lia. done.
Qed.

Lemma pack_len_header (pre hdr post : bytes) :
  zlen pre + 4 < 2 ^ 32 -> zlen hdr = 4 -> Forall is_byte hdr ->
  pack_len (pre ++ hdr ++ post) (zlen pre) = Some (i32 (le_val hdr)).
Proof.
  intros Hp H4 Hb. pose proof (zlen_nonneg pre).
  destruct hdr as [|b0 [|b1 [|b2 [|b3 [|]]]]]; try done; [|unfold zlen in H4; simpl in H4; lia].
  unfold pack_len. rewrite !uint_small by rng. cbn [app]. rewrite !znth_app_r by lia.
  replace (zlen pre + 0 - zlen pre) with 0 by lia. replace (zlen pre + 1 - zlen pre) with 1 by lia.
  replace (zlen pre + 2 - zlen pre) with 2 by lia. replace (zlen pre + 3 - zlen pre) with 3 by lia.
  unfold znth. change (Z.to_nat 0) with 0%nat. change (Z.to_nat 1) with 1%nat.
  change (Z.to_nat 2) with 2%nat. change (Z.to_nat 3) with 3%nat.
  cbn -[Z.shiftl sint Z.mul Z.add]. rewrite !Z.shiftl_mul_pow2 by lia. do 2 f_equal.
  change (le_val [b0; b1; b2; b3]) with (b0 + 256 * (b1 + 256 * (b2 + 256 * (b3 + 256 * 0)))). lia.
Qed.

Lemma pack_len_frame (pre m post : bytes) :
  zlen pre + 4 < 2 ^ 32 -> zlen m < 2 ^ 31 ->
  pack_len (pre ++ le_bytes 4 (zlen m) ++ post) (zlen pre) = Some (zlen m).
Proof.
  intros Hp Hm. pose proof (zlen_nonneg m).
  rewrite pack_len_header by (done || apply le_bytes_byte || apply le_bytes_zlen).
  rewrite le_val_bytes_small by rng. f_equal. apply sint_small; [lia|rng].
Qed.

(** ** The loop *)

Section spec.
Context {S : Type} (HandlePack : bytes -> M S Z) (h : bytes -> S -> S).
(** A handler that accepts every package (returns 0); [h] is its effect. *)
Context (accepts : forall m s, HandlePack m s = Done 0 (h m s)).

Definition handle_all (ms : list bytes) (s : S) : S := foldl (fun s m => h m s) s ms.

(** [left] is a proper prefix of the frame of the next package. *)
Definition incomplete (left : bytes) (todo : list bytes) : Prop :=
  match todo with
  | [] => left = []
  | m :: _ => zlen left < 4 + zlen m
  end.

(** One iteration on a complete package. *)
Lemma unpack_loop_step fuel pre m rest b s :
  data b = pre ++ frame m ++ rest -> len b < 2 ^ 31 -> pack_ok m ->
  unpack_loop HandlePack (Datatypes.S fuel) (zlen pre) (b, s) =
    unpack_loop HandlePack fuel (zlen (pre ++ frame m)) (b, h m s).
Proof.
  intros Hd Hl [Hm1 Hm2].
  assert (Hlen : len b = zlen pre + (4 + zlen m) + zlen rest).
  { unfold len. rewrite Hd, !zlen_app, frame_zlen. lia. }
  pose proof (zlen_nonneg pre). pose proof (zlen_nonneg rest).
  cbn [unpack_loop]. erewrite bind_done by done. cbv zeta. cbn [fst].
  rewrite (uint_small 32 (zlen pre + 4)) by rng. rewrite Hlen.
  destruct (Z.leb_spec (zlen pre + 4) (zlen pre + (4 + zlen m) + zlen rest)); [|lia].
  rewrite Hd. unfold frame. rewrite <-app_assoc, pack_len_frame by rng. erewrite bind_done by done.
  destruct (Z.leb_spec (zlen m) 0); [lia|]. erewrite bind_done by done.
  rewrite (uint_small 32 (zlen pre + 4 + zlen m)) by rng.
  destruct (Z.ltb_spec (zlen pre + (4 + zlen m) + zlen rest) (zlen pre + 4 + zlen m)); [lia|].
  rewrite (zslice_at _ (pre ++ le_bytes 4 (zlen m)) m rest); [|by rewrite <-!app_assoc|by rewrite zlen_app, le_bytes_zlen|done].
  erewrite bind_done by done. unfold on_peer at 1. erewrite bind_done by (cbn [snd fst]; rewrite accepts; done).
  change (negb (0 =? 0)) with false. erewrite bind_done by done.
  rewrite !zlen_app, le_bytes_zlen. change (Z.of_nat 4) with 4. by rewrite Z.add_assoc.
Qed.

(** The loop stops before a package that is not complete. *)
Lemma unpack_loop_stop fuel pre rest more m ms b s :
  data b = pre ++ rest -> len b < 2 ^ 31 -> pack_ok m -> rest ++ more = frames (m :: ms) ->
  zlen rest < 4 + zlen m ->
  unpack_loop HandlePack (Datatypes.S fuel) (zlen pre) (b, s) = Done (zlen pre) (b, s).
Proof.
  intros Hd Hl [Hm1 Hm2] Hr Hz.
  assert (Hlen : len b = zlen pre + zlen rest) by (unfold len; by rewrite Hd, zlen_app).
  pose proof (zlen_nonneg pre). pose proof (zlen_nonneg rest).
  cbn [unpack_loop]. erewrite bind_done by done. cbv zeta. cbn [fst].
  rewrite (uint_small 32 (zlen pre + 4)) by rng. rewrite Hlen.
  destruct (Z.leb_spec (zlen pre + 4) (zlen pre + zlen rest)); [|done].
  change (frames (m :: ms)) with (frame m ++ frames ms) in Hr. unfold frame in Hr. rewrite <-app_assoc in Hr.
  destruct (app_split_at rest more (le_bytes 4 (zlen m)) (m ++ frames ms) Hr) as (r1 & -> & Hr1).
  { rewrite le_bytes_zlen. lia. }
  rewrite Hd, pack_len_frame by rng. erewrite bind_done by done.
  destruct (Z.leb_spec (zlen m) 0); [lia|]. erewrite bind_done by done.
  rewrite (uint_small 32 (zlen pre + 4 + zlen m)) by rng.
  destruct (Z.ltb_spec (zlen pre + zlen (le_bytes 4 (zlen m) ++ r1)) (zlen pre + 4 + zlen m)); [done|lia].
Qed.

Lemma unpack_loop_end fuel pre b s :
  data b = pre -> len b < 2 ^ 31 ->
  unpack_loop HandlePack (Datatypes.S fuel) (zlen pre) (b, s) = Done (zlen pre) (b, s).
Proof.
  intros Hd Hl. cbn [unpack_loop]. erewrite bind_done by done. cbv zeta. cbn [fst]. unfold len in *.
  rewrite Hd in *. pose proof (zlen_nonneg pre). rewrite (uint_small 32 (zlen pre + 4)) by rng.
  destruct (Z.leb_spec (zlen pre + 4) (zlen pre)); [lia|done].
Qed.

Lemma unpack_loop_spec fuel pre rest more ms b s :
  data b = pre ++ rest -> len b < 2 ^ 31 -> rest ++ more = frames ms -> Forall pack_ok ms ->
  (length rest < fuel)%nat ->
  exists ok todo left, ms = ok ++ todo /\ rest = frames ok ++ left /\ incomplete left todo /\
    unpack_loop HandlePack fuel (zlen pre) (b, s) = Done (zlen pre + zlen (frames ok)) (b, handle_all ok s).
Proof.
  revert pre rest ms s. induction fuel as [|fuel IH]; intros pre rest ms s Hd Hl Hr Hok Hf; [lia|].
  destruct ms as [|m ms].
  { apply app_nil in Hr as [-> ->]. rewrite app_nil_r in Hd. exists [], [], [].
    rewrite unpack_loop_end, Z.add_0_r by done. done. }
  apply Forall_cons in Hok as [Hm Hok]. destruct (Z.lt_ge_cases (zlen rest) (4 + zlen m)).
  { exists [], (m :: ms), rest. rewrite (unpack_loop_stop _ _ _ _ _ _ _ _ Hd Hl Hm Hr), Z.add_0_r by done. done. }
  change (frames (m :: ms)) with (frame m ++ frames ms) in Hr.
  destruct (app_split_at rest more (frame m) (frames ms) Hr) as (r & -> & Hr2); [rewrite frame_zlen; lia|].
  destruct (IH (pre ++ frame m) r ms (h m s)) as (ok & todo & left & -> & -> & Hinc & E); try done.
  - by rewrite <-app_assoc.
  - rewrite length_app in Hf. unfold frame in Hf. rewrite length_app, le_bytes_length in Hf. lia.
  - exists (m :: ok), todo, left. rewrite (unpack_loop_step _ _ _ _ _ _ Hd Hl Hm), E.
    change (frames (m :: ok)) with (frame m ++ frames ok). rewrite !zlen_app, <-app_assoc, Z.add_assoc. done.
Qed.

(** A header that announces no bytes, or [2^31] or more. *)
Lemma unpack_loop_bad fuel pre ms hdr rest b s :
  data b = pre ++ frames ms ++ hdr ++ rest -> len b < 2 ^ 31 -> Forall pack_ok ms ->
  zlen hdr = 4 -> Forall is_byte hdr -> i32 (le_val hdr) <= 0 -> (length (frames ms) < fuel)%nat ->
  unpack_loop HandlePack fuel (zlen pre) (b, s) = Fail (-1) (b, handle_all ms s).
Proof.
  intros Hd Hl Hok H4 Hb Hv. revert pre ms s Hd Hok.
  induction fuel as [|fuel IH]; intros pre [|m ms] s Hd Hok Hf; try lia.
  - cbn [frames fmap list_fmap concat app] in Hd.
    assert (Hlen : len b = zlen pre + 4 + zlen rest) by (unfold len; rewrite Hd, !zlen_app; lia).
    pose proof (zlen_nonneg pre). pose proof (zlen_nonneg rest).
    cbn [unpack_loop]. erewrite bind_done by done. cbv zeta. cbn [fst].
    rewrite (uint_small 32 (zlen pre + 4)) by rng. rewrite Hlen.
    destruct (Z.leb_spec (zlen pre + 4) (zlen pre + 4 + zlen rest)); [|lia].
    rewrite Hd, pack_len_header by (done || rng). erewrite bind_done by done.
    destruct (Z.leb_spec (i32 (le_val hdr)) 0); [|lia]. by erewrite bind_fail by done.
  - apply Forall_cons in Hok as [Hm Hok]. change (frames (m :: ms)) with (frame m ++ frames ms) in *.
    rewrite <-app_assoc in Hd. rewrite (unpack_loop_step _ _ _ _ _ _ Hd Hl Hm).
    apply (IH (pre ++ frame m) ms (h m s)); [by rewrite <-app_assoc|done|].
    rewrite length_app in Hf. unfold frame in Hf. rewrite length_app, le_bytes_length in Hf. lia.
Qed.

Lemma RemoveFront_spec b pre left :
  data b = pre ++ left -> bb_wf b ->
  exists b', RemoveFront (zlen pre) b = Done tt b' /\ data b' = left /\ bb_wf b'.
Proof.
  intros Hd Hwf. unfold RemoveFront, len. rewrite Hd, zlen_app. pose proof (zlen_nonneg left).
  destruct (Z.leb_spec (zlen pre) (zlen pre + zlen left)); [|lia].
  destruct (Z.eqb_spec (zlen pre) 0) as [E|].
  - apply zlen_0 in E as ->. exists b. done.
  - eexists. split; [done|]. cbn [data set_data]. unfold zlen. rewrite Nat2Z.id, drop_app_length.
    split; [done|]. unfold bb_wf, len in *. cbn. rewrite Hd, zlen_app in Hwf. pose proof (zlen_nonneg pre). lia.
Qed.

(** A receive buffer whose contents stay below [n] bytes. *)
Definition buf_ok (n : Z) (b : BBuffer) : Prop := bb_wf b /\ len b + n < 2 ^ 31.

Lemma Unpack_spec c more ms b s :
  buf_ok (zlen c) b -> (data b ++ c) ++ more = frames ms -> Forall pack_ok ms ->
  exists ok todo b', ms = ok ++ todo /\ Unpack HandlePack c (b, s) = Done 0 (b', handle_all ok s) /\
    data b ++ c = frames ok ++ data b' /\ incomplete (data b') todo /\ bb_wf b'.
Proof.
  intros [Hwf Hn] Hr Hok. unfold Unpack.
  destruct (AddRange_spec c b) as (b1 & E1 & Hw); [done|unfold room; rng|].
  erewrite bind_done by (unfold on_buf; cbn [fst snd]; rewrite E1; done).
  erewrite bind_done by done. cbn [fst].
  pose proof (wrote_data _ _ _ Hw) as Hd. pose proof (wrote_len _ _ _ Hw) as Hl.
  destruct (unpack_loop_spec (Datatypes.S (length (data b1))) [] (data b ++ c) more ms b1 s)
    as (ok & todo & left & Hms & Hrest & Hinc & E); [done|lia|done|done|rewrite Hd; lia|].
  rewrite zlen_nil in E. erewrite bind_done by exact E. rewrite Z.add_0_l.
  assert (Hdl : data b1 = frames ok ++ left) by congruence.
  destruct (RemoveFront_spec b1 (frames ok) left Hdl (wrote_wf _ _ _ Hw)) as (b2 & E2 & Hd2 & Hwf2).
  erewrite bind_done by (unfold on_buf; cbn [fst snd]; rewrite E2; done).
  exists ok, todo, b2. rewrite Hd2. split_and!; done.
Qed.

(** The receive buffer can hold what is coming. *)
Lemma feed_spec chunks more ms b s :
  bb_wf b -> len b + zlen (concat chunks) < 2 ^ 31 -> (data b ++ concat chunks) ++ more = frames ms ->
  Forall pack_ok ms -> (chunks = [] -> incomplete (data b) ms) ->
  exists ok todo b', ms = ok ++ todo /\ feed HandlePack chunks (b, s) = Done tt (b', handle_all ok s) /\
    data b ++ concat chunks = frames ok ++ data b' /\ incomplete (data b') todo /\ bb_wf b'.
Proof.
  revert ms b s. induction chunks as [|c cs IH]; intros ms b s Hwf Hl Hr Hok Hinc.
  { exists [], ms, b. cbn [concat] in *. rewrite app_nil_r. split_and!; try done. by apply Hinc. }
  cbn [concat] in *. rewrite app_assoc in Hr. rewrite zlen_app in Hl. pose proof (zlen_nonneg (concat cs)).
  destruct (Unpack_spec c (concat cs ++ more) ms b s) as (ok & todo & b1 & -> & E & Hd & Hi & Hwf1).
  - split; [done|lia].
  - by rewrite app_assoc.
  - done.
  - cbn [feed]. erewrite bind_done by exact E. apply Forall_app in Hok as [_ Hok].
    pose proof (f_equal zlen Hd) as Hz. rewrite !zlen_app in Hz. pose proof (zlen_nonneg (frames ok)).
    destruct (IH todo b1 (handle_all ok s)) as (ok2 & todo2 & b2 & -> & E2 & Hd2 & Hi2 & Hwf2).
    + done.
    + unfold len in *. lia.
    + rewrite Hd, <-!app_assoc in Hr. unfold frames in Hr at 2. rewrite fmap_app, concat_app in Hr.
      apply app_inv_head in Hr. by rewrite <-app_assoc.
    + done.
    + done.
    + exists (ok ++ ok2), todo2, b2. split_and!; [by rewrite app_assoc| | |done|done].
      * rewrite E2. unfold handle_all. by rewrite foldl_app.
      * rewrite app_assoc, Hd, <-app_assoc, Hd2. unfold frames. by rewrite fmap_app, concat_app, <-app_assoc.
Qed.
End spec.

(** ** Arbitrary bytes *)

Section safety.
Context {S : Type} (HandlePack : bytes -> M S Z) (handler_ok : forall m s, defined (HandlePack m s)).

Lemma pack_len_bytes (d : bytes) offset :
  Forall is_byte d -> 0 <= offset -> offset + 4 <= zlen d -> zlen d < 2 ^ 31 ->
  exists l, pack_len d offset = Some l /\ is_sint 32 l.
Proof.
  intros Hb H0 Hl Hz. unfold pack_len. rewrite !uint_small by rng.
  destruct (znth_is_Some d (offset + 0)) as [b0 ->]; [lia|]. destruct (znth_is_Some d (offset + 1)) as [b1 ->]; [lia|].
  destruct (znth_is_Some d (offset + 2)) as [b2 ->]; [lia|]. destruct (znth_is_Some d (offset + 3)) as [b3 ->]; [lia|].
  eexists. split; [reflexivity|]. apply sint_range. lia.
Qed.

Lemma unpack_loop_safe fuel offset b s :
  Forall is_byte (data b) -> len b < 2 ^ 31 -> 0 <= offset <= len b ->
  len b - offset < Z.of_nat fuel ->
  match unpack_loop HandlePack fuel offset (b, s) with
  | Done o (b', _) => b' = b /\ 0 <= o <= len b
  | Fail _ (b', _) => b' = b
  | Undef => False
  end.
Proof.
  intros Hb Hl. revert offset s. induction fuel as [|fuel IH]; intros offset s Ho Hf; [lia|].
  unfold len in *. cbn [unpack_loop]. erewrite bind_done by done. cbv zeta. cbn [fst]. unfold len.
  rewrite (uint_small 32 (offset + 4)) by rng.
  destruct (Z.leb_spec (offset + 4) (zlen (data b))); [|done].
  destruct (pack_len_bytes (data b) offset) as (l & -> & Hr); [done|lia|lia|done|].
  erewrite bind_done by done. destruct (Z.leb_spec l 0); [by erewrite bind_fail by done|].
  erewrite bind_done by done. rewrite (uint_small 32 (offset + 4 + l)) by rng.
  destruct (Z.ltb_spec (zlen (data b)) (offset + 4 + l)); [done|].
  destruct (zslice_is_Some (data b) (offset + 4) l) as [m ->]; [lia|lia|lia|].
  erewrite bind_done by done. unfold mbind, M_bind, on_peer at 1. cbn [fst snd].
  pose proof (handler_ok m s) as Hd. destruct (HandlePack m s) as [r s'|e s'|]; [|done|done].
  unfold reject_if. destruct (negb (r =? 0)); [done|]. cbn. apply IH; lia.
Qed.

Lemma Unpack_safe c b s :
  Forall is_byte (data b) -> Forall is_byte c -> bb_wf b -> len b + zlen c < 2 ^ 31 ->
  match Unpack HandlePack c (b, s) with
  | Done r (b', _) => r = 0 /\ Forall is_byte (data b') /\ bb_wf b' /\ len b' <= len b + zlen c
  | Fail _ _ => True
  | Undef => False
  end.
Proof.
  intros Hb Hc Hwf Hl. unfold Unpack.
  destruct (AddRange_spec c b) as (b1 & E1 & Hw); [done|unfold room; rng|].
  erewrite bind_done by (unfold on_buf; cbn [fst snd]; rewrite E1; done).
  erewrite bind_done by done. cbn [fst].
  pose proof (wrote_data _ _ _ Hw) as Hd. pose proof (wrote_len _ _ _ Hw) as Hl1.
  assert (Hb1 : Forall is_byte (data b1)) by (rewrite Hd; by apply Forall_app).
  pose proof (unpack_loop_safe (Datatypes.S (length (data b1))) 0 b1 s Hb1 ltac:(lia)) as Hs.
  unfold mbind, M_bind. destruct (unpack_loop _ _ _ _) as [o [b2 s2]|e [b2 s2]|].
  - destruct Hs as [-> Ho]; [pose proof (zlen_nonneg (data b1)); unfold len; lia|unfold len, zlen; lia|].
    destruct (RemoveFront_spec b1 (take (Z.to_nat o) (data b1)) (drop (Z.to_nat o) (data b1)))
      as (b3 & E3 & Hd3 & Hwf3); [by rewrite take_drop|by eapply wrote_wf|].
    assert (Ez : zlen (take (Z.to_nat o) (data b1)) = o) by (rewrite zlen_take; unfold len in *; lia).
    rewrite Ez in E3. unfold on_buf. cbn [fst snd]. rewrite E3. split_and!; [done| |done|].
    + rewrite Hd3. by apply Forall_drop.
    + unfold len in *. rewrite Hd3, zlen_drop. lia.
  - done.
  - destruct Hs; [pose proof (zlen_nonneg (data b1)); unfold len; lia|unfold len, zlen; lia].
Qed.
End safety.

(** ** Properties *)

(** C33. Chunking does not matter: in whatever pieces the bytes of a sequence of
    packages arrive, [Unpack] hands exactly the complete packages to
    [HandlePack], in order, each once, and keeps the incomplete rest. *)
Theorem unpack_chunks {S} (HandlePack : bytes -> M S Z) (h : bytes -> S -> S) chunks more ms b s :
  (forall m s, HandlePack m s = Done 0 (h m s)) ->
  bb_wf b -> data b = [] -> zlen (concat chunks) < 2 ^ 31 -> Forall pack_ok ms ->
  concat chunks ++ more = frames ms -> chunks <> [] ->
  exists ok todo b', ms = ok ++ todo /\
    feed HandlePack chunks (b, s) = Done tt (b', foldl (fun s m => h m s) s ok) /\
    concat chunks = frames ok ++ data b' /\ incomplete (data b') todo.
Proof.
  intros Ha Hwf Hd Hl Hok Hr Hne.
  destruct (feed_spec HandlePack h Ha chunks more ms b s) as (ok & todo & b' & Hms & E & Hc & Hi & _).
  - done.
  - unfold len. rewrite Hd. done.
  - by rewrite Hd.
  - done.
  - by intros ->.
  - exists ok, todo, b'. rewrite Hd in Hc. done.
Qed.

Lemma unpack_chunks_witness :
  exists ok todo b', [[1; 2; 3]; [4]] = ok ++ todo /\
    feed (fun m l => Done 0 (l ++ [m])) [[3; 0]; [0; 0; 1]; [2; 3; 1; 0; 0; 0]; [4]] (BB_empty, []) =
      Done tt (b', foldl (fun s m => s ++ [m]) [] ok) /\
    concat [[3; 0]; [0; 0; 1]; [2; 3; 1; 0; 0; 0]; [4]] = frames ok ++ data b' /\ incomplete (data b') todo.
Proof.
  apply (unpack_chunks (fun m l => Done 0 (l ++ [m])) (fun m s => s ++ [m])
    [[3; 0]; [0; 0; 1]; [2; 3; 1; 0; 0; 0]; [4]] []); try done.
  repeat constructor; done.
Defined.

(** C40. A header announcing zero bytes, or [2^31] or more, closes the stream: the
    packages before it are handled, nothing after it, and [Unpack] returns -1. *)
Theorem unpack_bad_length {S} (HandlePack : bytes -> M S Z) (h : bytes -> S -> S) c ms hdr rest b s :
  (forall m s, HandlePack m s = Done 0 (h m s)) ->
  bb_wf b -> len b + zlen c < 2 ^ 31 -> data b ++ c = frames ms ++ hdr ++ rest -> Forall pack_ok ms ->
  zlen hdr = 4 -> Forall is_byte hdr -> i32 (le_val hdr) <= 0 ->
  exists b', Unpack HandlePack c (b, s) = Fail (-1) (b', foldl (fun s m => h m s) s ms).
Proof.
  intros Ha Hwf Hn Hd Hok H4 Hb Hv. unfold Unpack.
  destruct (AddRange_spec c b) as (b1 & E1 & Hw); [done|unfold room; rng|].
  erewrite bind_done by (unfold on_buf; cbn [fst snd]; rewrite E1; done).
  erewrite bind_done by done. cbn [fst]. exists b1. apply bind_fail.
  apply (unpack_loop_bad HandlePack h Ha _ [] ms hdr rest); try done.
  - rewrite (wrote_data _ _ _ Hw). done.
  - rewrite (wrote_len _ _ _ Hw). done.
  - rewrite (wrote_data _ _ _ Hw), Hd, length_app. lia.
Qed.

(** On arbitrary bytes [Unpack] ends, never reads or removes outside the
    buffer, and returns 0 or an error code, if the handler is defined. *)
Theorem unpack_safe {S} (HandlePack : bytes -> M S Z) c b s :
  (forall m s, defined (HandlePack m s)) ->
  Forall is_byte (data b) -> Forall is_byte c -> bb_wf b -> len b + zlen c < 2 ^ 31 ->
  defined (Unpack HandlePack c (b, s)).
Proof.
  intros Hh Hb Hc Hwf Hl. pose proof (Unpack_safe HandlePack Hh c b s Hb Hc Hwf Hl) as H.
  intros E. by rewrite E in H.
Qed.

Lemma unpack_safe_witness :
  defined (Unpack (fun m l => Done 0 (l ++ [m])) [255; 255; 255; 127; 1] (BB_empty, [])).
Proof.
  apply (unpack_safe (fun m l => Done 0 (l ++ [m])) [255; 255; 255; 127; 1] BB_empty []); try done.
  repeat constructor; vm_compute; congruence.
Defined.

Lemma unpack_bad_length_witness :
  exists b', Unpack (fun m l => Done 0 (l ++ [m])) [1; 0; 0; 0; 9; 0; 0; 0; 128; 5] (BB_empty, []) = Fail (-1) (b', [[9]]).
Proof.
  apply (unpack_bad_length (fun m l => Done 0 (l ++ [m])) (fun m s => s ++ [m])
    [1; 0; 0; 0; 9; 0; 0; 0; 128; 5] [[9]] [0; 0; 0; 128] [5]); try done;
    repeat constructor; vm_compute; congruence.
Defined.
