(* ===== verification/KcpPeer.v ===== *)
(** * xx_uv.h: KCP peers over UDP

    [UvUdpKcpPeer] drives one KCP connection: it frames what is sent, passes
    datagrams to [ikcp_input], and on the timer calls [ikcp_update],
    [ikcp_check] and [ikcp_recv], feeding what arrives to [Unpack].
    [UvUdpKcpListener] routes the datagrams of one socket to its peers by the
    Guid in their first 16 bytes; [UvUdpKcpDialer] owns a single peer.

    The application behind [HandlePack] is a parameter acting on its own state
    [S]; libuv's socket is the list of datagrams recorded by the KCP output
    callback. *)

From Stdlib Require Import ZArith Lia.
From stdpp Require Import base numbers list gmap.
From S2P Require Import Prelude Util BBuffer KcpState KcpOps KcpWire KcpRecv KcpInput KcpFlush KcpSender KcpSend KcpLink Framing.
Open Scope Z_scope.

Section peer.
Context {S : Type} (malloc : Z -> bool) (HandlePack : bytes -> M S Z).

Record KcpPeer := MkKcpPeer {
  kcp : option IKCPCB;          (* nullptr: disposed *)
  createMS : Z;
  currentMS : Z;
  nextUpdateMS : Z;
  receiveTimeoutMS : Z;
  lastReceiveMS : Z;
  pbuf : BBuffer;
  guid : Guid;
  addr : Z;
  app : S
}.

Definition set_kcp (k : option IKCPCB) (p : KcpPeer) : KcpPeer :=
  MkKcpPeer k (createMS p) (currentMS p) (nextUpdateMS p) (receiveTimeoutMS p) (lastReceiveMS p)
            (pbuf p) (guid p) (addr p) (app p).
Definition set_times (c n : Z) (p : KcpPeer) : KcpPeer :=
  MkKcpPeer (kcp p) (createMS p) c n (receiveTimeoutMS p) (lastReceiveMS p)
            (pbuf p) (guid p) (addr p) (app p).
Definition set_rcv (b : BBuffer) (s : S) (p : KcpPeer) : KcpPeer :=
  MkKcpPeer (kcp p) (createMS p) (currentMS p) (nextUpdateMS p) (receiveTimeoutMS p) (lastReceiveMS p)
            b (guid p) (addr p) s.
Definition set_addr (a : Z) (p : KcpPeer) : KcpPeer :=
  MkKcpPeer (kcp p) (createMS p) (currentMS p) (nextUpdateMS p) (receiveTimeoutMS p) (lastReceiveMS p)
            (pbuf p) (guid p) a (app p).
Definition set_createMS (c : Z) (p : KcpPeer) : KcpPeer :=
  MkKcpPeer (kcp p) c (currentMS p) (nextUpdateMS p) (receiveTimeoutMS p) (lastReceiveMS p)
            (pbuf p) (guid p) (addr p) (app p).

(** The constructor; [None]: it throws. *)
Definition new_KcpPeer (g : Guid) (s : S) : option KcpPeer :=
  k ← ikcp_create malloc g;
  let k := ikcp_wndsize 128 128 k in
  let k := ikcp_nodelay 1 10 2 1 k in
  let k := set_rx_minrto 10 k in
  let k := ikcp_setoutput k in
  Some (MkKcpPeer (Some k) 0 0 0 0 0 BB_empty g 0 s).

(** Run an operation of the connection; a disposed peer answers -1. *)
Definition on_kcp {A} (m : M IKCPCB A) : M KcpPeer A := fun p =>
  match kcp p with
  | None => Fail (-1) p
  | Some k =>
      match m k with
      | Done a k' => Done a (set_kcp (Some k') p)
      | Fail e k' => Fail e (set_kcp (Some k') p)
      | Undef => Undef
      end
  end.

Definition SetReceiveTimeoutMS (ms : Z) (p : KcpPeer) : KcpPeer :=
  MkKcpPeer (kcp p) (createMS p) (currentMS p) (nextUpdateMS p) ms (lastReceiveMS p)
            (pbuf p) (guid p) (addr p) (app p).
Definition ResetLastReceiveMS (p : KcpPeer) : KcpPeer :=
  MkKcpPeer (kcp p) (createMS p) (currentMS p) (nextUpdateMS p) (receiveTimeoutMS p) (currentMS p)
            (pbuf p) (guid p) (addr p) (app p).

Definition Flush (p : KcpPeer) : outcome KcpPeer unit :=
  match kcp p with None => Done tt p | Some _ => on_kcp ikcp_flush p end.

(** [Send] and the framing part of [SendPackage] for serialised contents [d]. *)
Definition SendPackage (d : bytes) : M KcpPeer unit :=
  p ← get;
  match kcp p with
  | None => fail (-1)
  | Some _ => on_kcp (ikcp_send malloc (SendReqAndData d))
  end.

Definition Input (recv : bytes) : M KcpPeer unit := on_kcp (ikcp_input malloc recv).

(** [Dispose], [flag] apart (the callbacks are modelled in Rpc.v). *)
Definition Dispose (p : KcpPeer) : KcpPeer :=
  match kcp p with None => p | Some _ => set_kcp None p end.

(** [do { recvLen = ikcp_recv(...); if (recvLen <= 0) break; Unpack(...) } while (true)] *)
Fixpoint recv_loop (fuel : nat) : M KcpPeer Z :=
  match fuel with
  | O => undef
  | Datatypes.S fuel => fun p =>
      match on_kcp (ikcp_recv 65536) p with
      | Undef => Undef
      | Fail _ p => Done 0 p
      | Done (n, d) p =>
          if n <=? 0 then Done 0 p
          else match Unpack HandlePack d (pbuf p, app p) with
               | Done _ (b, s) => recv_loop fuel (set_rcv b s p)
               | Fail e (b, s) => Fail e (set_rcv b s p)
               | Undef => Undef
               end
      end
  end.

(** Enough iterations: every one but the last takes a segment. *)
Definition recv_fuel (p : KcpPeer) : nat :=
  match kcp p with
  | None => 1
  | Some k => Datatypes.S (length (rcv_queue k) + length (rcv_buf k))
  end.

Definition Update (nowMS : Z) : M KcpPeer Z :=
  p ← get;
  let cur := u64 (nowMS - createMS p) in
  _ ← put (set_times cur (nextUpdateMS p) p);
  _ ← reject_if (negb (receiveTimeoutMS p =? 0) &&
                 (u64 (receiveTimeoutMS p + lastReceiveMS p) <? cur)) (-1);
  if cur <? nextUpdateMS p then mret 0
  else
    _ ← assert_ (match kcp p with None => false | Some _ => true end);
    _ ← on_kcp (ikcp_update (u32 cur));
    p ← get;
    _ ← put (set_times cur (match kcp p with Some k => ikcp_check (u32 cur) k | None => 0 end) p);
    p ← get;
    recv_loop (recv_fuel p).
End peer.
Arguments KcpPeer : clear implicits.

(** ** Runs of two peers *)

Section runs.
Context {S : Type} (malloc : Z -> bool) (HandlePack : bytes -> M S Z) (g : Guid).

(** An end of the link: the peer and the packages it was asked to send. *)
Definition endpoint : Type := KcpPeer S * list bytes.

Definition datagrams (e : endpoint) : list bytes :=
  match kcp e.1 with Some k => sent k | None => [] end.

(** One call that succeeds; [net] holds the datagrams of the other end. *)
Inductive peer_call (net : list bytes) : endpoint -> endpoint -> Prop :=
| pc_send p w d p' :
    zlen d + 4 < 2 ^ 31 -> SendPackage malloc d p = Done tt p' ->
    peer_call net (p, w) (p', w ++ [d])
| pc_input p w pkt p' :
    pkt ∈ net -> Input malloc pkt p = Done tt p' -> peer_call net (p, w) (p', w)
| pc_update p w now p' :
    Update HandlePack now p = Done 0 p' -> peer_call net (p, w) (p', w)
| pc_flush p w p' :
    Flush p = Done tt p' -> peer_call net (p, w) (p', w).

Inductive peers (sa sb : S) : endpoint -> endpoint -> Prop :=
| peers_new p q :
    new_KcpPeer malloc g sa = Some p -> new_KcpPeer malloc g sb = Some q ->
    peers sa sb (p, []) (q, [])
| peers_a a b a' : peers sa sb a b -> peer_call (datagrams b) a a' -> peers sa sb a' b
| peers_b a b b' : peers sa sb a b -> peer_call (datagrams a) b b' -> peers sa sb a b'.

(** What an endpoint is in terms of the KCP link: its connection, the frames
    it wrote, and a receive buffer and application state that are the result
    of unpacking what it read. *)
Definition sim (s0 : S) (e : endpoint) (l : peer) : Prop :=
  kcp e.1 = Some (pk l) /\ wrote l = SendReqAndData <$> e.2 /\
  exists chunks, concat chunks = concat (got l) /\
    feed HandlePack chunks (BB_empty, s0) = Done tt (pbuf e.1, app e.1).

Lemma feed_app {T} (H : bytes -> M T Z) a b st : feed H (a ++ b) st = (_ ← feed H a; feed H b) st.
Proof.
  revert st. induction a as [|c a IH]; intros st; [done|]. cbn [feed app].
  rewrite bind_assoc. apply bind_ext; [done|]. intros r st' _. apply IH.
Qed.

(** Several calls of the KCP link in a row. *)
Definition calls (net : list bytes) : peer -> peer -> Prop := rtc (call malloc net).

Lemma ikcp_recv_len len k n d k' : ikcp_recv len k = Done (n, d) k' -> n = zlen d.
Proof.
  unfold ikcp_recv, mbind, M_bind, get, reject_if, assert_, put, mret, M_ret, fail, undef.
  destruct (match rcv_queue k with [] => true | _ => false end); [done|].
  destruct (ikcp_peeksize k <? 0); [done|]. destruct (_ <? ikcp_peeksize k); [done|].
  destruct (recv_merge (rcv_queue k)) as [[[d1 n1] q1] c1] eqn:E.
  destruct (n1 =? ikcp_peeksize k); [|done]. intros Hd. injection Hd as <- <- _.
  by apply recv_merge_spec in E as (_ & _ & _ & -> & _).
Qed.

Lemma ikcp_recv_fail len k e k' : ikcp_recv len k = Fail e k' -> k' = k.
Proof.
  unfold ikcp_recv, mbind, M_bind, get, reject_if, assert_, put, mret, M_ret, fail, undef.
  destruct (match rcv_queue k with [] => true | _ => false end); [by intros [= _ <-]|].
  destruct (ikcp_peeksize k <? 0); [by intros [= _ <-]|].
  destruct (_ <? ikcp_peeksize k); [by intros [= _ <-]|].
  destruct (recv_merge (rcv_queue k)) as [[[d1 n1] q1] c1]. by destruct (n1 =? ikcp_peeksize k).
Qed.

Lemma recv_loop_sim net fuel s0 p w l r p' :
  sim s0 (p, w) l -> recv_loop HandlePack fuel p = Done r p' ->
  r = 0 /\ exists l', calls net l l' /\ sim s0 (p', w) l'.
Proof.
  revert p l. induction fuel as [|fuel IH]; intros p l Hsim E; [done|].
  pose proof Hsim as (Hk & Hw & chunks & Hc & Hf). cbn [fst snd] in *.
  cbn [recv_loop] in E. unfold on_kcp in E. rewrite Hk in E.
  destruct (ikcp_recv 65536 (pk l)) as [[n d] k'|e k'|] eqn:Er; [| |done].
  - assert (Hcall : call malloc net l (MkPeer k' (wrote l) (got l ++ [d]))).
    { destruct l as [k wl gl]. by apply (call_recv malloc net k wl gl 65536 n d k'). }
    pose proof (ikcp_recv_len _ _ _ _ _ Er) as Hn. destruct (Z.leb_spec n 0).
    + injection E as <- <-. split; [done|]. exists (MkPeer k' (wrote l) (got l ++ [d])).
      split; [by apply rtc_once|]. split_and!; [done|done|].
      assert (d = []) as -> by (apply zlen_0; pose proof (zlen_nonneg d); lia).
      exists chunks. cbn [got pbuf app set_kcp fst]. by rewrite concat_app, app_nil_r.
    + cbn [pbuf app set_kcp] in E.
      destruct (Unpack HandlePack d (pbuf p, app p)) as [z [b s]|z [b s]|] eqn:Eu; [|done|done].
      destruct (IH (set_rcv b s (set_kcp (Some k') p)) (MkPeer k' (wrote l) (got l ++ [d])))
        as (-> & l' & Hl & Hs); [|done|].
      * split_and!; [done|done|]. exists (chunks ++ [d]). cbn [got pbuf app set_rcv set_kcp fst].
        rewrite !concat_app, Hc. split; [done|]. rewrite feed_app. erewrite bind_done by exact Hf.
        cbn [feed]. by erewrite bind_done by exact Eu.
      * split; [done|]. exists l'. split; [|done]. by eapply rtc_l.
  - injection E as <- <-. split; [done|]. apply ikcp_recv_fail in Er as ->. exists l. split; [done|].
    split_and!; try done. by exists chunks.
Qed.

(** An operation of the connection that is one call of the link. *)
Lemma on_kcp_sim s0 p w l (m : M IKCPCB unit) p' :
  sim s0 (p, w) l -> on_kcp m p = Done tt p' ->
  exists k', m (pk l) = Done tt k' /\ sim s0 (p', w) (MkPeer k' (wrote l) (got l)).
Proof.
  intros (Hk & Hw & chunks & Hc & Hf) E. unfold on_kcp in E. cbn [fst snd] in *. rewrite Hk in E.
  destruct (m (pk l)) as [[] k'|e k'|]; [|done|done]. injection E as <-.
  exists k'. split; [done|]. split_and!; try done. by exists chunks.
Qed.

Lemma Update_sim net s0 p w l now p' :
  sim s0 (p, w) l -> Update HandlePack now p = Done 0 p' ->
  exists l', calls net l l' /\ sim s0 (p', w) l'.
Proof.
  intros Hsim E. unfold Update in E. erewrite bind_done in E by done. cbv zeta in E.
  erewrite bind_done in E by done. apply bind_inv_done in E as ([] & p1 & E1 & E).
  assert (p1 = set_times (u64 (now - createMS p)) (nextUpdateMS p) p) as ->.
  { unfold reject_if in E1. destruct (_ && _); [done|]. by injection E1 as <-. }
  clear E1. set (p1 := set_times _ _ p) in E.
  assert (Hsim1 : sim s0 (p1, w) l) by exact Hsim. clearbody p1.
  destruct (_ <? nextUpdateMS p); [injection E as <-; by exists l|].
  apply bind_inv_done in E as ([] & p2 & E1 & E).
  assert (p2 = p1) as -> by (unfold assert_ in E1; by destruct (kcp p); inversion E1). clear E1.
  apply bind_inv_done in E as ([] & p2 & E1 & E).
  destruct (on_kcp_sim _ _ _ _ _ _ Hsim1 E1) as (k' & Ek & Hsim2).
  erewrite bind_done in E by done. erewrite bind_done in E by done. erewrite bind_done in E by done.
  match type of E with recv_loop _ _ ?x = _ => assert (Hsim3 : sim s0 (x, w) (MkPeer k' (wrote l) (got l))) by exact Hsim2 end.
  destruct (recv_loop_sim net _ _ _ _ _ _ _ Hsim3 E) as (_ & l' & Hc & Hs). exists l'. split; [|done].
  eapply rtc_l; [|exact Hc]. destruct l as [k wl gl]. by apply (call_update malloc net k wl gl (u32 (u64 (now - createMS p)))).
Qed.

Lemma peer_call_sim net s0 e e' l :
  peer_call net e e' -> sim s0 e l -> exists l', calls net l l' /\ sim s0 e' l'.
Proof.
  intros [p w d p' Hd E|p w pkt p' Hin E|p w now p' E|p w p' E] Hsim.
  - unfold SendPackage in E. erewrite bind_done in E by done. pose proof Hsim as (Hk & _). cbn in Hk.
    rewrite Hk in E. destruct (on_kcp_sim _ _ _ _ _ _ Hsim E) as (k' & Ek & (H1 & H2 & H3)).
    exists (MkPeer k' (wrote l ++ [SendReqAndData d]) (got l)). split.
    + apply rtc_once. destruct l as [k wl gl]. apply call_send; [|done].
      unfold SendReqAndData. rewrite zlen_app. unfold zlen at 1. cbn [length]. lia.
    + split_and!; [done| |done]. cbn [wrote snd] in *. by rewrite fmap_app, H2.
  - destruct (on_kcp_sim _ _ _ _ _ _ Hsim E) as (k' & Ek & Hs).
    exists (MkPeer k' (wrote l) (got l)). split; [|done]. apply rtc_once. destruct l as [k wl gl].
    by apply (call_input malloc net k wl gl pkt).
  - by eapply Update_sim.
  - unfold Flush in E. pose proof Hsim as (Hk & _). cbn in Hk. rewrite Hk in E.
    destruct (on_kcp_sim _ _ _ _ _ _ Hsim E) as (k' & Ek & Hs).
    exists (MkPeer k' (wrote l) (got l)). split; [|done]. apply rtc_once. destruct l as [k wl gl].
    by apply (call_flush malloc net k wl gl).
Qed.

(** The KCP link behind two peers. *)
Lemma calls_link cnv net p q p' :
  link malloc cnv p q -> net = sent (pk q) -> calls net p p' -> link malloc cnv p' q.
Proof.
  intros Hl -> Hc. induction Hc as [|x y z Hxy _ IH]; [done|]. apply IH. by eapply link_call.
Qed.

Lemma create_stream k : ikcp_create malloc g = Some k -> stream k = 0.
Proof.
  unfold ikcp_create. destruct (malloc _); [|done]. destruct (malloc _); [|done]. by intros [= <-].
Qed.

(** The default MTU is what [ikcp_setmtu] would set. *)
Lemma create_setmtu k : ikcp_create malloc g = Some k -> ikcp_setmtu malloc 1400 k = Done tt k.
Proof.
  unfold ikcp_create. destruct (malloc sizeof_IKCPCB); [|done]. unfold ikcp_setmtu.
  change ((1400 <? 50) || (1400 <? IKCP_OVERHEAD)) with false. erewrite bind_done by done. cbv zeta.
  assert (E : u32 ((1400 + IKCP_OVERHEAD) * 3) = (IKCP_MTU_DEF + IKCP_OVERHEAD) * 3) by (vm_compute; reflexivity).
  rewrite E. destruct (malloc ((IKCP_MTU_DEF + IKCP_OVERHEAD) * 3)); [|done].
  intros [= <-]. erewrite bind_done by done. reflexivity.
Qed.

Lemma setup_commutes k : stream k = 0 ->
  ikcp_setoutput (set_rx_minrto 10 (ikcp_nodelay 1 10 2 1 (ikcp_wndsize 128 128 k))) =
  set_rx_minrto 10 (ikcp_nodelay 1 10 2 1 (ikcp_wndsize 128 128 (set_stream 0 (ikcp_setoutput k)))).
Proof. intros H. destruct k. cbn in H. subst. reflexivity. Qed.

Lemma new_sim s p : new_KcpPeer malloc g s = Some p ->
  exists k0, fresh malloc g 1400 0 k0 /\ forall net, exists l, calls net (MkPeer k0 [] []) l /\ sim s (p, []) l.
Proof.
  intros E. unfold new_KcpPeer in E. destruct (ikcp_create malloc g) as [k|] eqn:Ec; [|done].
  cbn [mbind option_bind] in E. cbv zeta in E. rewrite setup_commutes in E by (by apply create_stream).
  set (k0 := set_stream 0 (ikcp_setoutput k)) in *.
  exists k0. split; [exists k, k; auto using create_setmtu|].
  intros net. exists (MkPeer (set_rx_minrto 10 (ikcp_nodelay 1 10 2 1 (ikcp_wndsize 128 128 k0))) [] []). split.
  - eapply rtc_l; [apply (call_wndsize malloc net k0 [] [] 128 128); done|].
    eapply rtc_l; [apply (call_nodelay malloc net _ [] [] 1 10 2 1)|].
    apply rtc_once. apply (call_minrto malloc net _ [] [] 10).
  - clearbody k0. injection E as <-. split; [done|]. split; [done|]. by exists [].
Qed.

Lemma peers_sim sa sb a b :
  Guid_valid g -> peers sa sb a b -> exists la lb, link malloc g la lb /\ sim sa a la /\ sim sb b lb.
Proof.
  intros Hg. induction 1 as [p q Ep Eq|a b a' _ (la & lb & Hl & Ha & Hb) Hc|a b b' _ (la & lb & Hl & Ha & Hb) Hc].
  - destruct (new_sim _ _ Ep) as (ka & Fa & Ca). destruct (new_sim _ _ Eq) as (kb & Fb & Cb).
    assert (L0 : link malloc g (MkPeer ka [] []) (MkPeer kb [] [])) by (by apply (link_init _ _ _ _ 1400 1400 0 0)).
    destruct (Ca (sent kb)) as (la & Hca & Hsa). pose proof (calls_link _ _ _ _ _ L0 eq_refl Hca) as L1.
    destruct (Cb (sent (pk la))) as (lb & Hcb & Hsb). apply link_sym in L1.
    pose proof (calls_link _ _ _ _ _ L1 eq_refl Hcb) as L2. exists la, lb. split_and!; [by apply link_sym|done|done].
  - destruct (peer_call_sim _ sa _ _ la Hc Ha) as (la' & Hla & Ha').
    exists la', lb. split_and!; [|done|done]. eapply calls_link; [exact Hl| |exact Hla].
    unfold datagrams. by destruct Hb as (-> & _).
  - destruct (peer_call_sim _ sb _ _ lb Hc Hb) as (lb' & Hlb & Hb').
    exists la, lb'. split_and!; [|done|done]. apply link_sym. eapply calls_link; [by apply link_sym| |exact Hlb].
    unfold datagrams. by destruct Ha as (-> & _).
Qed.
End runs.

(** C32. Application to application.  Two KCP peers over an unreliable network:
    the packages that reach the handler of one end are, in order and each
    once, the first packages that the other end has sent. *)
Theorem packages_delivered {S} malloc (HandlePack : bytes -> M S Z) (h : bytes -> S -> S) g sa sb a b :
  (forall m s, HandlePack m s = Done 0 (h m s)) -> Guid_valid g ->
  peers malloc HandlePack g sa sb a b -> Forall pack_ok a.2 ->
  zlen (concat (SendReqAndData <$> a.2)) + zlen a.2 < 2 ^ 31 ->
  exists ok todo, a.2 = ok ++ todo /\ app b.1 = foldl (fun s m => h m s) sb ok.
Proof.
  intros Hacc Hg Hp Hok Hlim.
  destruct (peers_sim malloc HandlePack g sa sb a b Hg Hp) as (la & lb & Hl & Ha & Hb).
  destruct Ha as (_ & Hwa & _), Hb as (_ & _ & chunks & Hc & Hf).
  destruct (link_prefix _ _ _ _ Hl) as (rest & Hr).
  { unfold total. rewrite Hwa, zlen_fmap. lia. }
  assert (Hfr : SendReqAndData <$> a.2 = frame <$> a.2).
  { apply list_fmap_ext. intros i m Him. apply SendReqAndData_frame.
    rewrite Forall_lookup in Hok. destruct (Hok _ _ Him). rng. }
  rewrite Hwa, Hfr, <-Hc in Hr. rewrite Hfr in Hlim.
  pose proof (f_equal zlen Hr) as Hz. rewrite zlen_app in Hz. pose proof (zlen_nonneg rest). pose proof (zlen_nonneg a.2).
  destruct (feed_spec HandlePack h Hacc chunks rest a.2 BB_empty sb) as (ok & todo & b' & Hms & E & _).
  - split; [done|]. done.
  - change (len BB_empty) with 0. lia.
  - exact (eq_sym Hr).
  - done.
  - intros _. destruct a.2 as [|m ms]; [done|]. pose proof (zlen_nonneg m). change (0 < 4 + zlen m). lia.
  - exists ok, todo. split; [done|]. rewrite E in Hf. by injection Hf as _ <-.
Qed.

(** ** A concrete exchange *)

Module PeerDemo.
Definition mall (n : Z) : bool := true.
Definition g : Guid := MkGuid 7 9.
Definition H : bytes -> M (list bytes) Z := fun m l => Done 0 (l ++ [m]).
Abbreviation P := (KcpPeer (list bytes)).

Definition nobody : P := MkKcpPeer None 0 0 0 0 0 BB_empty g 0 [].
Definition final {A} (o : outcome P A) : P :=
  match o with Done _ p | Fail _ p => p | Undef => nobody end.
Definition p0 : P := Eval vm_compute in default nobody (new_KcpPeer mall g []).
Definition a1 : P := Eval vm_compute in final (SendPackage mall [1; 2; 3] p0).
Definition a2 : P := Eval vm_compute in final (Update H 1000 a1).
Definition pkt : bytes := Eval vm_compute in default [] (datagrams (a2, []) !! 0%nat).
Definition b1 : P := Eval vm_compute in final (Input mall pkt p0).
Definition b2 : P := Eval vm_compute in final (Update H 1000 b1).

Lemma run : peers mall H g [] [] (a2, [[1; 2; 3]]) (b2, []).
Proof.
  eapply peers_b; [|apply (pc_update _ _ _ b1 [] 1000); vm_compute; reflexivity].
  eapply peers_b; [|apply (pc_input _ _ _ p0 [] pkt); [by left|vm_compute; reflexivity]].
  eapply peers_a; [|apply (pc_update _ _ _ a1 _ 1000); vm_compute; reflexivity].
  eapply peers_a; [|apply (pc_send _ _ _ p0 [] [1; 2; 3]); vm_compute; reflexivity].
  apply peers_new; vm_compute; reflexivity.
Qed.
End PeerDemo.

Lemma packages_delivered_witness :
  exists ok todo, [[1; 2; 3]] = ok ++ todo /\ app PeerDemo.b2 = foldl (fun s m => s ++ [m]) [] ok.
Proof.
  apply (packages_delivered PeerDemo.mall PeerDemo.H (fun m s => s ++ [m]) PeerDemo.g [] []
    (PeerDemo.a2, [[1; 2; 3]]) (PeerDemo.b2, [])).
  - done.
  - split; split; vm_compute; congruence.
  - exact PeerDemo.run.
  - repeat constructor.
  - vm_compute. reflexivity.
Defined.

(** ** Packages larger than the receive buffer *)

Lemma ikcp_recv_too_small len k :
  0 <= len -> rcv_queue k <> [] -> len < ikcp_peeksize k -> ikcp_recv len k = Fail (-3) k.
Proof.
  intros H0 Hq Hp. unfold ikcp_recv, mbind, M_bind, get, reject_if, mret, M_ret, fail.
  destruct (rcv_queue k); [done|]. destruct (Z.ltb_spec len 0); [lia|].
  destruct (Z.ltb_spec (ikcp_peeksize k) 0); [lia|]. destruct (Z.ltb_spec len (ikcp_peeksize k)); [done|lia].
Qed.

Lemma new_send {S} malloc g s p d :
  (forall n, malloc n = true) -> @new_KcpPeer S malloc g s = Some p -> zlen d + 4 <= 127 * 1364 ->
  exists p', SendPackage malloc d p = Done tt p'.
Proof.
  intros Hm E Hd. unfold new_KcpPeer in E. destruct (ikcp_create malloc g) as [k|] eqn:Ec; [|done].
  unfold ikcp_create in Ec. rewrite !Hm in Ec. injection Ec as <-. cbn [mbind option_bind] in E. injection E as <-.
  unfold SendPackage. erewrite bind_done by done. cbn [kcp]. unfold on_kcp. cbn [kcp].
  pose proof (zlen_nonneg d).
  assert (Hz : zlen (SendReqAndData d) = 4 + zlen d).
  { unfold SendReqAndData. by rewrite zlen_app. }
  match goal with |- context [ikcp_send malloc ?b ?k] => set (k1 := k); set (b1 := b) in * end.
  assert (Hk : mss k1 = 1364 /\ stream k1 = 0 /\ nsnd_que k1 = 0) by (vm_compute; done).
  destruct Hk as (Hk1 & Hk2 & Hk3). clearbody k1. unfold ikcp_send. erewrite bind_done by done.
  rewrite Hk1, Hk2. erewrite bind_done by done. change (0 =? 0) with true. cbn iota.
  rewrite fragment_eq; [|rewrite Hk1; lia|rewrite Hk3; done|rng]. rewrite Hk1, Hk2.
  assert (Hc : frag_count 1364 (zlen b1) < 128).
  { unfold frag_count. destruct (_ <=? _); [lia|]. apply Z.div_lt_upper_bound; lia. }
  destruct (Z.leb_spec 128 (frag_count 1364 (zlen b1))); [lia|].
  replace (segs_fit malloc _) with true; [eauto|]. symmetry. apply forallb_forall. intros. apply Hm.
Qed.

(** A package of more than 65532 bytes (up to 127 fragments) is accepted by
    [SendPackage], but once it is complete at the other end every [Update]
    leaves it, and all that follows it, in the queue: the receive buffer of
    65536 bytes is too small and the failed [ikcp_recv] is taken for an empty
    queue. *)
Theorem oversize_package_stalls {S} malloc (HandlePack : bytes -> M S Z) g s (p q : KcpPeer S) d k fuel :
  (forall n, malloc n = true) -> new_KcpPeer malloc g s = Some p -> 65532 < zlen d <= 127 * 1364 - 4 ->
  kcp q = Some k -> rcv_queue k <> [] -> 65536 < ikcp_peeksize k ->
  (exists p', SendPackage malloc d p = Done tt p') /\
  recv_loop HandlePack (Datatypes.S fuel) q = Done 0 q.
Proof.
  intros Hm Hp Hd Hk Hq Hs. split; [apply (new_send malloc g s p d Hm Hp); lia|].
  cbn [recv_loop]. unfold on_kcp. rewrite Hk, ikcp_recv_too_small by (done || lia).
  f_equal. destruct q. cbn in *. by subst.
Qed.

Lemma oversize_package_stalls_witness :
  let k := set_nrcv_que 1 (set_rcv_queue [new_seg (replicate (Z.to_nat 65537) 0) 0] KcpLink.Demo.k0) in
  let q := set_kcp (Some k) PeerDemo.p0 in
  (exists p', SendPackage PeerDemo.mall (replicate (Z.to_nat 65533) 7) PeerDemo.p0 = Done tt p') /\
  recv_loop PeerDemo.H 5 q = Done 0 q.
Proof.
  apply (oversize_package_stalls PeerDemo.mall PeerDemo.H PeerDemo.g [] PeerDemo.p0
    (set_kcp (Some (set_nrcv_que 1 (set_rcv_queue [new_seg (replicate (Z.to_nat 65537) 0) 0] KcpLink.Demo.k0))) PeerDemo.p0)
    (replicate (Z.to_nat 65533) 7)
    (set_nrcv_que 1 (set_rcv_queue [new_seg (replicate (Z.to_nat 65537) 0) 0] KcpLink.Demo.k0)) 4).
  - done.
  - vm_compute. reflexivity.
  - vm_compute. split; congruence.
  - done.
  - done.
  - vm_compute. reflexivity.
Defined.

(** ** The receive loop ends *)

(** Bytes held on the receive side of a connection. *)
Definition held (k : IKCPCB) : Z := zlen (concat (sdata <$> rcv_queue k ++ rcv_buf k)).

Lemma peek_loop_spec q acc d n q' c :
  recv_merge q = (d, n, q', c) -> 0 <= acc -> acc + zlen (concat (sdata <$> q)) < 2 ^ 31 ->
  peek_loop q acc = acc + n /\ 0 <= n.
Proof.
  revert acc d n q' c. induction q as [|s q IH]; intros acc d n q' c E Ha Hb; cbn [recv_merge peek_loop] in *.
  { injection E as <- <- <- <-. lia. }
  cbn in Hb. rewrite zlen_app in Hb. change (zlen (sdata s)) with (slen s) in Hb.
  pose proof (zlen_nonneg (sdata s)) as Hs. change (zlen (sdata s)) with (slen s) in Hs.
  pose proof (zlen_nonneg (concat (sdata <$> q))).
  assert (E1 : i32 (u32 (acc + slen s)) = acc + slen s).
  { rewrite sint_uint by lia. apply sint_small; [lia|rng]. }
  rewrite E1. destruct (frg s =? 0); [injection E as <- <- <- <-; lia|].
  destruct (recv_merge q) as [[[d1 n1] q1] c1] eqn:Em. injection E as <- <- <- <-.
  destruct (IH (acc + slen s) _ _ _ _ eq_refl) as [-> ?]; lia.
Qed.

Lemma peeksize_merge k d n q c :
  recv_merge (rcv_queue k) = (d, n, q, c) -> zlen (concat (sdata <$> rcv_queue k)) < 2 ^ 31 ->
  0 <= ikcp_peeksize k -> n = ikcp_peeksize k.
Proof.
  intros E Hb Hp. unfold ikcp_peeksize in *. destruct (rcv_queue k) as [|s l] eqn:Eq; [lia|].
  destruct (Z.eqb_spec (frg s) 0) as [E0|E0].
  - cbn [recv_merge] in E. rewrite E0 in E. injection E as <- <- <- <-. cbn in Hb. rewrite zlen_app in Hb.
    pose proof (zlen_nonneg (sdata s)). pose proof (zlen_nonneg (concat (sdata <$> l))).
    unfold slen in *. symmetry. apply sint_small; [lia|rng].
  - destruct (_ <? _); [lia|]. destruct (peek_loop_spec _ 0 _ _ _ _ E); lia.
Qed.

(** Moving segments on does not change the sequence. *)
Lemma move_loop_app fuel k :
  rcv_queue (move_loop fuel k) ++ rcv_buf (move_loop fuel k) = rcv_queue k ++ rcv_buf k.
Proof.
  revert k. induction fuel as [|fuel IH]; intros k; cbn [move_loop]; [done|].
  destruct (rcv_buf k) as [|s rest] eqn:E; [by rewrite E|].
  destruct (_ && _); [|by rewrite E]. rewrite IH. cbn. by rewrite <-app_assoc.
Qed.

Lemma ikcp_recv_bytes len k :
  Forall (fun s => Forall is_byte (sdata s)) (rcv_queue k ++ rcv_buf k) ->
  match ikcp_recv len k with
  | Done (_, d) k' => Forall is_byte d /\ Forall (fun s => Forall is_byte (sdata s)) (rcv_queue k' ++ rcv_buf k')
  | _ => True
  end.
Proof.
  intros Hb. unfold ikcp_recv, mbind, M_bind, get, reject_if, assert_, put, mret, M_ret, fail, undef.
  destruct (match rcv_queue k with [] => true | _ => false end); [done|].
  destruct (ikcp_peeksize k <? 0); [done|]. destruct (_ <? ikcp_peeksize k); [done|].
  destruct (recv_merge (rcv_queue k)) as [[[d n] q] c] eqn:E. destruct (n =? _); [|done].
  apply recv_merge_spec in E as (t & Et & -> & _ & _).
  pose proof Hb as Hb2. rewrite Et, <-app_assoc in Hb2. apply Forall_app in Hb2 as [Ht Hrest]. split.
  - clear -Ht. induction Ht; cbn; [constructor|]. by apply Forall_app.
  - set (k1 := if len <? 0 then k else _).
    assert (H1 : Forall (fun s => Forall is_byte (sdata s)) (rcv_queue k1 ++ rcv_buf k1)).
    { unfold k1. by destruct (len <? 0). }
    assert (H2 : Forall (fun s => Forall is_byte (sdata s)) (rcv_queue (move_available k1) ++ rcv_buf (move_available k1))).
    { unfold move_available. by rewrite move_loop_app. }
    by destruct (_ && _).
Qed.

(** What [ikcp_recv] does when it succeeds: at least one segment leaves. *)
Lemma ikcp_recv_total len k :
  held k < 2 ^ 31 -> 0 <= len ->
  match ikcp_recv len k with
  | Undef => False
  | Fail _ k' => k' = k
  | Done (n, d) k' =>
      held k = zlen d + held k' /\
      (length (rcv_queue k') + length (rcv_buf k') < length (rcv_queue k) + length (rcv_buf k))%nat
  end.
Proof.
  intros Hb Hl. pose proof (ikcp_recv_fail len k) as Hfail.
  unfold ikcp_recv in *. unfold mbind, M_bind, get, reject_if, assert_, put, mret, M_ret, fail, undef in *.
  destruct (rcv_queue k) as [|s0 q0] eqn:Eq; [by eapply Hfail|].
  destruct (Z.ltb_spec (ikcp_peeksize k) 0); [by eapply Hfail|].
  destruct (_ <? ikcp_peeksize k) eqn:Ep; [by eapply Hfail|]. clear Hfail.
  destruct (recv_merge (s0 :: q0)) as [[[d n] q] c] eqn:E.
  assert (Hq : zlen (concat (sdata <$> rcv_queue k)) < 2 ^ 31).
  { unfold held in Hb. rewrite fmap_app, concat_app, zlen_app in Hb.
    pose proof (zlen_nonneg (concat (sdata <$> rcv_buf k))). lia. }
  rewrite <-Eq in E. rewrite (peeksize_merge _ _ _ _ _ E Hq) by lia. rewrite Z.eqb_refl.
  destruct (Z.ltb_spec len 0); [lia|].
  assert (Hc : c <> 0).
  { rewrite Eq in E. cbn [recv_merge] in E. destruct (frg s0 =? 0); [by simplify_eq|].
    destruct (recv_merge q0) as [[[d1 n1] q1] c1] eqn:E1. injection E as <- <- <- <-.
    apply recv_merge_spec in E1 as (t & _ & _ & _ & ->). pose proof (zlen_nonneg t). lia. }
  apply recv_merge_spec in E as (t & Et & -> & _ & ->).
  set (k1 := set_nrcv_que _ _).
  assert (Hm : forall k2, rcv_queue (if (nrcv_que k2 <? rcv_wnd k2) && (rcv_wnd k <=? nrcv_que k)
      then set_probe (Z.lor (probe k2) IKCP_ASK_TELL) k2 else k2) = rcv_queue k2 /\
    rcv_buf (if (nrcv_que k2 <? rcv_wnd k2) && (rcv_wnd k <=? nrcv_que k)
      then set_probe (Z.lor (probe k2) IKCP_ASK_TELL) k2 else k2) = rcv_buf k2).
  { intros k2. by destruct (_ && _). }
  destruct (Hm (move_available k1)) as [M1 M2]. unfold held. rewrite M1, M2.
  assert (Hmv : rcv_queue (move_available k1) ++ rcv_buf (move_available k1) = rcv_queue k1 ++ rcv_buf k1)
    by apply move_loop_app.
  rewrite Hmv. cbn [rcv_queue rcv_buf k1 set_nrcv_que set_rcv_queue]. rewrite Et, <-app_assoc, !fmap_app, !concat_app, !zlen_app.
  split; [done|]. apply (f_equal length) in Hmv. cbn [rcv_queue rcv_buf k1 set_nrcv_que set_rcv_queue] in Hmv.
  rewrite !length_app in Hmv. rewrite Hmv, <-Eq, Et, length_app. unfold zlen in Hc. lia.
Qed.

(** The receive loop of [Update] ends: with the fuel of the model it always
    returns, with 0 or the code of the package that the application refused. *)
Theorem recv_loop_total {S} (HandlePack : bytes -> M S Z) p k :
  (forall m s, defined (HandlePack m s)) -> kcp p = Some k ->
  bb_wf (pbuf p) -> Forall is_byte (data (pbuf p)) -> Forall (fun s => Forall is_byte (sdata s)) (rcv_queue k ++ rcv_buf k) ->
  len (pbuf p) + held k < 2 ^ 31 ->
  defined (recv_loop HandlePack (recv_fuel p) p).
Proof.
  intros Hh. unfold recv_fuel. intros Hk. rewrite Hk.
  assert (Hf : (length (rcv_queue k) + length (rcv_buf k) < Datatypes.S (length (rcv_queue k) + length (rcv_buf k)))%nat) by lia.
  revert Hf. generalize (Datatypes.S (length (rcv_queue k) + length (rcv_buf k))) as fuel. intros fuel.
  revert p k Hk. induction fuel as [|fuel IH]; intros p k Hk Hf Hwf Hb Hbs Hl; [lia|].
  cbn [recv_loop]. unfold on_kcp. rewrite Hk. pose proof (zlen_nonneg (data (pbuf p))) as Hp. unfold len in Hl.
  pose proof (ikcp_recv_total 65536 k ltac:(lia) ltac:(lia)) as Ht.
  pose proof (ikcp_recv_bytes 65536 k Hbs) as Hby.
  destruct (ikcp_recv 65536 k) as [[n d] k'|e k'|]; [|done|done].
  destruct Ht as [Hheld Hlt]. destruct Hby as [Hbd Hbs']. destruct (n <=? 0); [done|]. cbn [pbuf app set_kcp].
  pose proof (zlen_nonneg (concat (sdata <$> rcv_queue k' ++ rcv_buf k'))) as Hh0. fold (held k') in Hh0.
  pose proof (Unpack_safe HandlePack Hh d (pbuf p) (app p) Hb Hbd Hwf ltac:(unfold len; lia)) as Hu.
  destruct (Unpack HandlePack d (pbuf p, app p)) as [r [b s]|e [b s]|]; [|done|done].
  destruct Hu as (_ & Hb' & Hwf' & Hle). apply (IH (set_rcv b s (set_kcp (Some k') p)) k'); try done; [lia|].
  cbn [pbuf set_rcv]. unfold len in *. lia.
Qed.

Lemma recv_loop_total_witness : defined (recv_loop PeerDemo.H (recv_fuel PeerDemo.b1) PeerDemo.b1).
Proof.
  eapply (recv_loop_total PeerDemo.H PeerDemo.b1); [done|reflexivity|vm_compute; split; congruence|constructor| |reflexivity].
  vm_compute. repeat constructor; congruence.
Defined.
