(* ===== verification/UvUdp.v ===== *)
(** * xx_uv.h: UDP sockets that carry KCP peers

    [UvUdpKcpListener] keeps a map from connection Guids to peers held by the
    application; [UvUdpKcpDialer] has one peer.  Creating and accepting a peer
    are the application's virtual functions, so they are parameters. *)

From Stdlib Require Import ZArith Lia.
From stdpp Require Import base numbers list gmap countable.
From S2P Require Import Prelude Util BBuffer KcpState KcpOps KcpWire KcpRecv KcpInput KcpFlush KcpSender KcpSend KcpConv KcpLink Framing KcpPeer.
Open Scope Z_scope.

#[export] Instance Guid_countable : Countable Guid :=
  inj_countable' (fun g => (part1 g, part2 g)) (fun p => MkGuid p.1 p.2) (fun g => match g with MkGuid _ _ => eq_refl end).

Section listener.
Context {S : Type} (malloc : Z -> bool) (HandlePack : bytes -> M S Z).
(** [CreatePeer] may fail; [Accept] may use the peer (send, set a timeout,
    dispose it) and tells whether the application keeps it: the map only holds
    a weak pointer. *)
Context (CreatePeer : Guid -> option (KcpPeer S)) (Accept : KcpPeer S -> KcpPeer S * bool).

(** A slot is [None] when the weak pointer has expired. *)
Record Listener := MkListener {
  lpeers : gmap Guid (option (KcpPeer S));
  lnow : Z;
  echoed : list (Z * bytes)
}.

Definition set_lpeers (m : gmap Guid (option (KcpPeer S))) (l : Listener) : Listener :=
  MkListener m (lnow l) (echoed l).

(** [if (p->Disposed()) return 0; if (p->Input(...)) p->Dispose();] *)
Definition deliver (recv : bytes) (p : KcpPeer S) : option (KcpPeer S) :=
  match kcp p with
  | None => Some p
  | Some _ =>
      match Input malloc recv p with
      | Done _ p => Some p
      | Fail _ p => Some (Dispose p)
      | Undef => None
      end
  end.

(** [UvUdpKcpListener::Unpack] for a datagram from address [from]. *)
Definition listener_Unpack (recv : bytes) (from : Z) : M Listener Z :=
  l ← get;
  if zlen recv <? 36 then
    _ ← put (MkListener (lpeers l) (lnow l) (echoed l ++ [(from, recv)])); mret 0
  else
    g ← demand (Fill recv);
    let found := lpeers l !! g in
    let live := default None found in
    let p := match live with
             | Some p => Some p
             | None => set_createMS (lnow l) <$> CreatePeer g
             end in
    match p with
    | None => mret 0
    | Some p =>
        let p := set_addr from p in
        let r := match found, live with
                 | None, _ => Accept p
                 | Some _, Some _ => (p, true)
                 | Some _, None => (p, false)
                 end in
        p ← demand (deliver recv r.1);
        _ ← put (set_lpeers (<[g := if r.2 : bool then Some p else None]> (lpeers l)) l);
        mret 0
    end.

(** The timer: [Update] every live peer; a peer that fails, is disposed or has
    expired leaves the map. *)
Definition tick_slot (now : Z) (slot : option (KcpPeer S)) : outcome unit (option (KcpPeer S)) :=
  match slot with
  | None => Done None tt
  | Some p =>
      match kcp p with
      | None => Done None tt
      | Some _ =>
          match Update HandlePack now p with
          | Done r p => if r =? 0 then Done (Some p) tt else Done None tt
          | Fail _ _ => Done None tt
          | Undef => Undef
          end
      end
  end.

Definition ticked (o : outcome unit (option (KcpPeer S))) : option (option (KcpPeer S)) :=
  match o with Done (Some p) _ => Some (Some p) | _ => None end.

#[local] Instance tick_undef_dec now slot : Decision (tick_slot now slot = Undef).
Proof. destruct (tick_slot now slot); [right|right|left]; done. Defined.

Definition listener_tick (now : Z) : M Listener unit := fun l =>
  if decide (map_Exists (fun _ slot => tick_slot now slot = Undef) (lpeers l)) then Undef
  else Done tt (MkListener (omap (fun slot => ticked (tick_slot now slot)) (lpeers l)) now (echoed l)).

(** [UvUdpKcpListener::Dispose]: every peer is disposed. *)
Definition listener_Dispose (l : Listener) : Listener :=
  set_lpeers ((fun slot => match slot with Some p => Some (Dispose p) | None => None end) <$> lpeers l) l.
End listener.
Arguments Listener : clear implicits.

Section dialer.
Context {S : Type} (malloc : Z -> bool) (HandlePack : bytes -> M S Z).
Context (CreatePeer : Guid -> option (KcpPeer S)).

Record Dialer := MkDialer { dguid : Guid; dpeer : option (KcpPeer S); dnow : Z }.

(** The delayed part of [UvUdpKcpDialer::Dial]: [fresh] is what [g.Gen()]
    returns and [target] the parsed address ([None]: it does not parse). *)
Definition dialer_Dial (fresh : Guid) (target : option Z) (d : Dialer) : Dialer :=
  let d := MkDialer fresh (CreatePeer fresh) (dnow d) in
  match dpeer d with
  | None => d
  | Some p =>
      match target with
      | None => MkDialer (dguid d) None (dnow d)
      | Some a => MkDialer (dguid d) (Some (set_createMS (dnow d) (set_addr a p))) (dnow d)
      end
  end.

(** [UvUdpKcpDialer::Unpack]. *)
Definition dialer_Unpack (recv : bytes) : M Dialer Z :=
  d ← get;
  match dpeer d with
  | None => mret 0
  | Some p =>
      match kcp p with
      | None => mret 0
      | Some _ =>
          if zlen recv <? 36 then mret 0
          else
            g ← demand (Fill recv);
            if Guid_neqb (dguid d) g then mret 0
            else
              p ← demand (deliver malloc recv p);
              _ ← put (MkDialer (dguid d) (Some p) (dnow d));
              mret 0
      end
  end.

(** The timer. *)
Definition dialer_tick (now : Z) : M Dialer unit :=
  d ← get;
  match dpeer d with
  | None => put (MkDialer (dguid d) None now)
  | Some p =>
      match kcp p with
      | None => put (MkDialer (dguid d) (Some p) now)
      | Some _ =>
          match Update HandlePack now p with
          | Done r p => put (MkDialer (dguid d) (if r =? 0 then Some p else None) now)
          | Fail _ _ => put (MkDialer (dguid d) None now)
          | Undef => undef
          end
      end
  end.

Definition dialer_Dispose (d : Dialer) : Dialer := MkDialer (dguid d) None (dnow d).
End dialer.
Arguments Dialer : clear implicits.

(** ** Peers keep their connection number *)

Section numbered.
Context {S : Type} (malloc : Z -> bool) (HandlePack : bytes -> M S Z).

(** The connection of a peer, if any, has number [g]. *)
Definition numbered (g : Guid) (p : KcpPeer S) : Prop :=
  match kcp p with Some k => conv k = g | None => True end.

Lemma on_kcp_numbered {A} g (m : M IKCPCB A) p :
  (forall k, after same_conv k (m k)) -> numbered g p ->
  match on_kcp m p with Done _ p' | Fail _ p' => numbered g p' | Undef => True end.
Proof.
  intros Hm Hn. unfold on_kcp, numbered in *. destruct (kcp p) as [k|] eqn:E; [|by rewrite E].
  specialize (Hm k). destruct (m k); cbn in *; unfold same_conv in *; try done; congruence.
Qed.

Lemma input_numbered g recv p : numbered g p ->
  match Input malloc recv p with Done _ p' | Fail _ p' => numbered g p' | Undef => True end.
Proof.
  apply on_kcp_numbered, ikcp_input_conv.
Qed.

Lemma Dispose_numbered g p : numbered g (Dispose p).
Proof. unfold Dispose, numbered. destruct (kcp p) eqn:E; [done|]. by rewrite E. Qed.

Lemma deliver_numbered g recv p p' : deliver malloc recv p = Some p' -> numbered g p -> numbered g p'.
Proof.
  unfold deliver. intros E Hn. destruct (kcp p) eqn:Ek; [|by injection E as <-].
  pose proof (input_numbered g recv p Hn) as H.
  destruct (Input malloc recv p); [| |done]; injection E as <-; [done|apply Dispose_numbered].
Qed.

Lemma recv_loop_numbered g fuel p : numbered g p ->
  match recv_loop HandlePack fuel p with Done _ p' | Fail _ p' => numbered g p' | Undef => True end.
Proof.
  revert p. induction fuel as [|fuel IH]; intros p Hn; cbn [recv_loop]; [done|].
  pose proof (on_kcp_numbered g (ikcp_recv 65536) p) as H.
  destruct (on_kcp (ikcp_recv 65536) p) as [[n d] p1|e p1|]; [| |done].
  - assert (Hn1 : numbered g p1).
    { apply H; [|done]. intros k. pose proof (ikcp_recv_frame 65536 k) as Hf. destruct (ikcp_recv 65536 k); try done; apply Hf. }
    destruct (n <=? 0); [done|]. destruct (Unpack HandlePack d (pbuf p1, app p1)) as [r [b s]|r [b s]|]; [|done|done].
    by apply IH.
  - apply H; [|done]. intros k. pose proof (ikcp_recv_frame 65536 k) as Hf. destruct (ikcp_recv 65536 k); try done; apply Hf.
Qed.

Lemma Update_numbered g now p : numbered g p ->
  match Update HandlePack now p with Done _ p' | Fail _ p' => numbered g p' | Undef => True end.
Proof.
  intros Hn. unfold Update. erewrite bind_done by done. cbv zeta. erewrite bind_done by done.
  set (p1 := set_times _ _ p). assert (Hn1 : numbered g p1) by exact Hn. clearbody p1.
  unfold reject_if. destruct (_ && _); [done|]. erewrite bind_done by done.
  destruct (_ <? nextUpdateMS p); [done|]. unfold assert_. destruct (kcp p); [|done].
  erewrite bind_done by done. set (m := ikcp_update _).
  pose proof (on_kcp_numbered g m p1 (ikcp_update_conv _) Hn1) as H. clearbody m.
  unfold mbind at 1, M_bind at 1. destruct (on_kcp m p1) as [[] p2|e p2|]; [|done|done].
  do 3 erewrite bind_done by done. by apply recv_loop_numbered.
Qed.

(** What the application does with a peer it holds. *)
Inductive app_call : KcpPeer S -> KcpPeer S -> Prop :=
| app_send p d p' : (SendPackage malloc d p = Done tt p' \/ exists e, SendPackage malloc d p = Fail e p') -> app_call p p'
| app_flush p p' : Flush p = Done tt p' -> app_call p p'
| app_timeout p ms : app_call p (SetReceiveTimeoutMS ms p)
| app_alive p : app_call p (ResetLastReceiveMS p)
| app_dispose p : app_call p (Dispose p).

Lemma app_call_numbered g p p' : app_call p p' -> numbered g p -> numbered g p'.
Proof.
  intros Hc Hn. destruct Hc as [p d p' E|p p' E|p ms|p|p]; [| |done|done|apply Dispose_numbered].
  - unfold SendPackage in E. erewrite !bind_done in E by done.
    destruct (kcp p) as [k|] eqn:Ek; [|by destruct E as [E|[e E]]; inversion E; subst].
    pose proof (on_kcp_numbered g (ikcp_send malloc (SendReqAndData d)) p) as H.
    specialize (H (ikcp_send_conv _ _) Hn). destruct E as [E|[e E]]; rewrite E in H; exact H.
  - unfold Flush in E. destruct (kcp p) as [k|] eqn:Ek; [|by injection E as <-].
    pose proof (on_kcp_numbered g ikcp_flush p ikcp_flush_conv Hn) as H. by rewrite E in H.
Qed.

Lemma app_calls_numbered g p p' : rtc app_call p p' -> numbered g p -> numbered g p'.
Proof. induction 1; eauto using app_call_numbered. Qed.
End numbered.

(** ** Properties *)

Section routing.
Context {S : Type} (malloc : Z -> bool) (HandlePack : bytes -> M S Z)
  (CreatePeer : Guid -> option (KcpPeer S)) (Accept : KcpPeer S -> KcpPeer S * bool).

(** The states a listener can reach. *)
Inductive listening : Listener S -> Prop :=
| lis_start now : listening (MkListener ∅ now [])
| lis_datagram l recv from r l' :
    listening l -> listener_Unpack malloc CreatePeer Accept recv from l = Done r l' -> listening l'
| lis_tick l now l' :
    listening l -> listener_tick HandlePack now l = Done tt l' -> listening l'
| lis_use l g p p' :
    listening l -> lpeers l !! g = Some (Some p) -> app_call malloc p p' ->
    listening (set_lpeers (<[g := Some p']> (lpeers l)) l)
| lis_drop l g :
    listening l -> listening (set_lpeers (alter (fun _ => None) g (lpeers l)) l)
| lis_close l : listening l -> listening (listener_Dispose l).

(** C34. A listener routes by connection number: in every reachable state the
    peer found under a Guid runs the connection with that number, so a
    datagram is only ever given to the connection it names. *)
Theorem listener_routes l :
  (forall g p, CreatePeer g = Some p -> numbered g p) ->
  (forall p, rtc (app_call malloc) p (Accept p).1) ->
  listening l -> forall g p, lpeers l !! g = Some (Some p) -> numbered g p.
Proof.
  intros Hnew Hacc. induction 1 as [now|l recv from r l' _ IH E|l now l' _ IH E|l g0 p0 p0' _ IH El Hc|l g0 _ IH|l _ IH]; intros g p.
  - done.
  - unfold listener_Unpack in E. erewrite bind_done in E by done.
    destruct (zlen recv <? 36); [injection E as _ <-; apply IH|].
    apply bind_inv_done in E as (g1 & l1 & E1 & E).
    assert (l1 = l) as -> by (unfold demand in E1; by destruct (Fill recv); inversion E1). cbv zeta in E.
    destruct (match default None (lpeers l !! g1) with Some p => Some p | None => _ end) as [p1|] eqn:Ep;
      [|injection E as _ <-; apply IH].
    assert (Hp1 : numbered g1 p1).
    { destruct (lpeers l !! g1) as [[p2|]|] eqn:El; cbn in Ep.
      - injection Ep as <-. by apply IH.
      - destruct (CreatePeer g1) as [p2|] eqn:Ec; [|done]. injection Ep as <-. exact (Hnew _ _ Ec).
      - destruct (CreatePeer g1) as [p2|] eqn:Ec; [|done]. injection Ep as <-. exact (Hnew _ _ Ec). }
    apply bind_inv_done in E as (p2 & l2 & E2 & E).
    match type of E2 with demand (deliver _ _ (fst ?r)) _ = _ => set (r1 := r) in * end.
    assert (Hr : numbered g1 r1.1).
    { unfold r1. destruct (lpeers l !! g1) as [[|]|]; [done|done|].
      eapply app_calls_numbered; [apply Hacc|exact Hp1]. }
    clearbody r1. destruct (deliver malloc recv r1.1) as [p3|] eqn:Ed; [|done]. injection E2 as -> <-.
    injection E as _ <-. cbn [lpeers set_lpeers]. intros Hg. apply lookup_insert_Some in Hg as [[<- Hg]|[_ Hg]]; [|by apply IH].
    destruct r1.2; [|done]. injection Hg as <-. by eapply deliver_numbered.
  - unfold listener_tick in E. destruct (decide _); [done|]. injection E as <-. cbn [lpeers].
    intros Hg. rewrite lookup_omap in Hg. destruct (lpeers l !! g) as [[p1|]|] eqn:El; [|done|done]. cbn in Hg.
    destruct (kcp p1) eqn:Ek; [|done]. pose proof (Update_numbered HandlePack g now p1 (IH _ _ El)) as Hu.
    destruct (Update HandlePack now p1) as [r p2|e p2|]; [|done|done]. destruct (r =? 0); [|done].
    by injection Hg as <-.
  - cbn [lpeers set_lpeers]. intros Hg. apply lookup_insert_Some in Hg as [[<- Hg]|[_ Hg]]; [|by apply IH].
    injection Hg as <-. eapply app_call_numbered; [exact Hc|by apply IH].
  - cbn [lpeers set_lpeers]. rewrite lookup_alter_Some. intros [(<- & x & _ & Hx)|[_ Hg]]; [done|by apply IH].
  - cbn [lpeers listener_Dispose set_lpeers]. rewrite lookup_fmap. destruct (lpeers l !! g) as [[p1|]|]; [|done|done].
    intros [= <-]. apply Dispose_numbered.
Qed.

(** A datagram touches no other peer: only the slot of the Guid in its first
    16 bytes can change, and a datagram shorter than a KCP header is echoed to
    its sender and changes no peer at all. *)
Theorem listener_isolates recv from l r l' :
  listener_Unpack malloc CreatePeer Accept recv from l = Done r l' ->
  (zlen recv < 36 -> lpeers l' = lpeers l /\ echoed l' = echoed l ++ [(from, recv)]) /\
  forall g, Fill recv <> Some g -> lpeers l' !! g = lpeers l !! g.
Proof.
  intros E. unfold listener_Unpack in E. erewrite bind_done in E by done.
  destruct (Z.ltb_spec (zlen recv) 36); [injection E as _ <-; done|]. split; [lia|]. intros g Hg.
  apply bind_inv_done in E as (g1 & l1 & E1 & E). unfold demand in E1.
  destruct (Fill recv) as [g2|]; [|done]. injection E1 as -> <-. cbv zeta in E.
  destruct (match default None (lpeers l !! g1) with Some p => Some p | None => _ end) as [p1|];
    [|by injection E as _ <-].
  apply bind_inv_done in E as (p2 & l2 & E2 & E).
  destruct (deliver malloc recv _) as [p3|]; [|done]. injection E2 as -> <-.
  injection E as _ <-. cbn [lpeers set_lpeers]. apply lookup_insert_ne. congruence.
Qed.
End routing.

Lemma new_numbered {S} malloc (s : S) g p : new_KcpPeer malloc g s = Some p -> numbered g p.
Proof.
  unfold new_KcpPeer, numbered. destruct (ikcp_create malloc g) as [k|] eqn:E; [|done]. intros [= <-]. cbn.
  unfold ikcp_create in E. destruct (malloc _); [|done]. destruct (malloc _); [|done]. by injection E as <-.
Qed.

Module UdpDemo.
Definition create (g : Guid) : option PeerDemo.P := new_KcpPeer PeerDemo.mall g [].
Definition keep (p : PeerDemo.P) : PeerDemo.P * bool := (SetReceiveTimeoutMS 5000 p, true).
Definition l0 : Listener (list bytes) := MkListener ∅ 0 [].
Definition run : outcome (Listener (list bytes)) Z :=
  listener_Unpack PeerDemo.mall create keep PeerDemo.pkt 5 l0.
Definition l1 : Listener (list bytes) := match run with Done _ l => l | _ => l0 end.

Lemma run_done : exists r, run = Done r l1.
Proof.
  assert (H : match run with Done _ _ => true | _ => false end = true) by (vm_compute; reflexivity).
  unfold l1. destruct run; [eauto|done|done].
Qed.
End UdpDemo.

Lemma listener_routes_witness :
  exists p, lpeers UdpDemo.l1 !! PeerDemo.g = Some (Some p) /\ numbered PeerDemo.g p.
Proof.
  assert (H : match lpeers UdpDemo.l1 !! PeerDemo.g with Some (Some _) => true | _ => false end = true)
    by (vm_compute; reflexivity).
  destruct (lpeers UdpDemo.l1 !! PeerDemo.g) as [[p|]|] eqn:El; [|discriminate|discriminate].
  exists p. split; [reflexivity|].
  apply (listener_routes PeerDemo.mall PeerDemo.H UdpDemo.create UdpDemo.keep UdpDemo.l1).
  - intros g q. apply new_numbered.
  - intros q. apply rtc_once, app_timeout.
  - destruct UdpDemo.run_done as [r E].
    eapply (lis_datagram _ _ _ _ UdpDemo.l0 PeerDemo.pkt 5); [apply (lis_start _ _ _ _ 0)|exact E].
  - exact El.
Defined.

Lemma listener_isolates_witness :
  (zlen PeerDemo.pkt < 36 -> lpeers UdpDemo.l1 = lpeers UdpDemo.l0 /\ echoed UdpDemo.l1 = [(5, PeerDemo.pkt)]) /\
  forall g, Fill PeerDemo.pkt <> Some g -> lpeers UdpDemo.l1 !! g = lpeers UdpDemo.l0 !! g.
Proof.
  destruct UdpDemo.run_done as [r E].
  apply (listener_isolates PeerDemo.mall UdpDemo.create UdpDemo.keep PeerDemo.pkt 5 UdpDemo.l0 r UdpDemo.l1 E).
Defined.
