(* ===== verification/Rpc.v ===== *)
(** * xx_uv.h: requests, responses and pushes

    [UvTcpPeer] and [UvUdpKcpPeer] number their requests and keep a callback
    per number until the response, the time-out or the end of the connection
    calls it.  A package holds a serial number (0: push, negative: request,
    positive: response) and a message.

    The message type is any [RootCodec], the interface that the object-graph
    serialiser fulfils.  The application is a parameter: [react] is what it
    does when one of its functions is called, with the integer it returns, and
    may itself use the peer.  libuv and KCP are parameters too: the codes that
    sending and starting timers return. *)

From Stdlib Require Import ZArith Lia.
From stdpp Require Import base numbers list gmap.
From S2P Require Import Prelude Util BBuffer Graph GraphTypes GraphCopy GraphRoundtrip.
Open Scope Z_scope.

(** What [WriteRoot] and [ReadRoot] promise: a message [m] that can be sent is
    read back as a message that is the [same]. *)
Class RootCodec (Msg : Type) := {
  write_root : Msg -> M BBuffer unit;
  read_root : M BBuffer Msg;
  msg_ok : Msg -> Prop;
  same : Msg -> Msg -> Prop;
  root_codec m bb :
    msg_ok m -> bb_wf bb -> len bb <= 2 ^ 60 -> ptrs bb = ∅ ->
    exists bb' w, write_root m bb = Done tt bb' /\ data bb' = data bb ++ w /\ zlen w < 2 ^ 32 /\
      forall rb pre post, data rb = pre ++ w ++ post -> offset rb = zlen pre -> len rb <= 2 ^ 62 ->
        readLengthLimit rb = 0 -> objIdxs rb = ∅ -> strIdxs rb = ∅ ->
      exists m' rb', read_root rb = Done m' rb' /\ same m m'
}.

Section rpc.
Context {Msg K : Type} `{RootCodec Msg}.

(** What the application sees: a callback with its request number, a push, a
    request, the end of the connection. *)
Inductive event :=
| Called (serial : Z) (cb : K) (msg : option Msg)
| Pushed (msg : Msg)
| Requested (serial : Z) (msg : Msg)
| Disconnected.

Record Rpc := MkRpc {
  open : bool;                      (* uvTcp or kcp is not null *)
  serial : Z;
  callbacks : gmap Z (K * bool);    (* with a timer or without *)
  gen : Z;                          (* bumped when iterators of callbacks become invalid *)
  hooks : bool;                     (* OnReceivePush, OnReceiveRequest and OnDisconnect are set *)
  sent : list bytes;                (* contents of the packages handed to the transport *)
  log : list event
}.

Definition new_Rpc : Rpc := MkRpc true 0 ∅ 0 true [] [].

Definition set_open (b : bool) (s : Rpc) : Rpc := MkRpc b (serial s) (callbacks s) (gen s) (hooks s) (sent s) (log s).
Definition set_serial (n : Z) (s : Rpc) : Rpc := MkRpc (open s) n (callbacks s) (gen s) (hooks s) (sent s) (log s).
Definition set_callbacks (m : gmap Z (K * bool)) (g : Z) (s : Rpc) : Rpc :=
  MkRpc (open s) (serial s) m g (hooks s) (sent s) (log s).
Definition set_hooks (b : bool) (s : Rpc) : Rpc := MkRpc (open s) (serial s) (callbacks s) (gen s) b (sent s) (log s).
Definition add_sent (d : bytes) (s : Rpc) : Rpc :=
  MkRpc (open s) (serial s) (callbacks s) (gen s) (hooks s) (sent s ++ [d]) (log s).
Definition add_log (e : event) (s : Rpc) : Rpc :=
  MkRpc (open s) (serial s) (callbacks s) (gen s) (hooks s) (sent s) (log s ++ [e]).

(** [tcp]: [UvTcpPeer], otherwise [UvUdpKcpPeer].  [prefix]: bytes before the
    contents in the send buffer.  [send_code n]: what the transport returns for
    the [n]-th package; [timer_code n]: what making and starting the timer of
    request [n] returns; [rehashes n]: a hash table of [n] elements is
    reorganised by an insertion, which invalidates its iterators. *)
Context (tcp : bool) (prefix : nat) (send_code : nat -> Z) (timer_code : Z -> Z) (rehashes : nat -> bool).
Context (react : event -> M Rpc Z).

Definition notify (e : event) : M Rpc Z := _ ← modify (add_log e); react e.

(** [for (auto& kv : callbacks) kv.second.first(nullptr);] in some order. *)
Fixpoint call_all (l : list (Z * (K * bool))) (g : Z) : M Rpc unit :=
  match l with
  | [] => mret tt
  | (n, (cb, _)) :: l =>
      _ ← notify (Called n cb None);
      s ← get;
      _ ← assert_ (gen s =? g);
      call_all l g
  end.

Definition Dispose (flag : bool) : M Rpc unit :=
  s ← get;
  if negb (open s) then mret tt
  else
    _ ← (if tcp then mret tt else modify (set_open false));
    s ← get;
    _ ← call_all (map_to_list (callbacks s)) (gen s);
    _ ← modify (fun s => set_callbacks ∅ (gen s + 1) s);
    _ ← (if tcp then modify (set_open false) else mret tt);
    if flag then
      s ← get;
      _ ← (if hooks s then notify Disconnected else mret 0);
      modify (set_hooks false)
    else mret tt.

(** The contents of a package. *)
Definition package (tar ser : Z) (m : Msg) : option bytes :=
  let start := MkBB (replicate prefix 0) (Z.of_nat prefix) 0 0 0 ∅ ∅ ∅ in
  let w := _ ← (if tar =? 0 then mret tt else WriteFixed I32 tar);
           _ ← WriteTo (Num (t := I32) ser);
           write_root m in
  match w start with Done _ bb => Some (drop prefix (data bb)) | _ => None end.

Definition SendPackage (m : Msg) (ser tar : Z) : M Rpc unit :=
  s ← get;
  _ ← reject_if (negb (open s)) (-1);
  d ← demand (package tar ser m);
  let r := send_code (length (sent s)) in
  if r =? 0 then modify (add_sent d)
  else
    _ ← (if tcp then Dispose false else mret tt);
    fail r.

Definition SendPush (m : Msg) : M Rpc unit := SendPackage m 0 0.
Definition SendResponse (n : Z) (m : Msg) : M Rpc unit := SendPackage m n 0.

(** [++serial] must not overflow. *)
Definition SendRequest (m : Msg) (tar : Z) (cb : K) (timeoutMS : Z) : M Rpc unit :=
  s ← get;
  _ ← reject_if (negb (open s)) (-1);
  _ ← assert_ (serial s + 1 <? 2 ^ 31);
  let n := serial s + 1 in
  _ ← modify (set_serial n);
  _ ← reject_if (negb (timeoutMS =? 0) && negb (timer_code n =? 0)) (timer_code n);
  _ ← SendPackage m (- n) tar;
  modify (fun s =>
    set_callbacks (<[n := (cb, negb (timeoutMS =? 0))]> (callbacks s))
      (if rehashes (size (callbacks s)) then gen s + 1 else gen s) s).

(** Call the callback at an iterator and erase it. *)
Definition call_erase (n : Z) (cb : K) (m : option Msg) : M Rpc Z :=
  s ← get;
  r ← notify (Called n cb m);
  s' ← get;
  _ ← assert_ (gen s' =? gen s);
  _ ← put (set_callbacks (delete n (callbacks s')) (gen s') s');
  mret r.

Definition TimeoutCallback (n : Z) : M Rpc unit :=
  s ← get;
  match callbacks s !! n with
  | None => mret tt
  | Some (cb, _) => _ ← call_erase n cb None; mret tt
  end.

(** [recvBB] has empty tables and no length limit between two packages. *)
Definition parse (d : bytes) : outcome BBuffer (Z * Msg) :=
  (n ← ReadFrom (T := num I32); m ← read_root; mret (num_val n, m)) (Reset d 0 0 BB_empty).

Definition HandlePack (d : bytes) : M Rpc Z :=
  match parse d with
  | Undef => undef
  | Fail e _ => fail e
  | Done (n, m) _ =>
      s ← get;
      if n =? 0 then (if hooks s then notify (Pushed m) else mret 0)
      else if n <? 0 then
        _ ← assert_ (- 2 ^ 31 <? n);
        if hooks s then notify (Requested (- n) m) else mret 0
      else
        match callbacks s !! n with
        | None => mret 0
        | Some (cb, _) => call_erase n cb (Some m)
        end
  end.
End rpc.
Arguments Rpc : clear implicits.
Arguments event : clear implicits.

(** The two classes: the same code over the two transports. *)
Section classes.
Context {Msg K : Type} `{RootCodec Msg}.
Context (send_code : nat -> Z) (timer_code : Z -> Z) (rehashes : nat -> bool) (react : event Msg K -> M (Rpc Msg K) Z).

(** [sizeof(uv_write_t_ex) + 4] bytes come first in a TCP send buffer. *)
Context (uv_write_t_ex : nat).
Definition Tcp_Dispose := Dispose true react.
Definition Tcp_HandlePack := HandlePack react.
Definition Tcp_SendPackage := SendPackage true (uv_write_t_ex + 4) send_code react.
Definition Tcp_SendRequest := SendRequest true (uv_write_t_ex + 4) send_code timer_code rehashes react.
Definition Tcp_SendPush := SendPush true (uv_write_t_ex + 4) send_code react.
Definition Tcp_SendResponse := SendResponse true (uv_write_t_ex + 4) send_code react.
Definition Tcp_TimeoutCallback := TimeoutCallback react.

(** Only the length header comes first over KCP. *)
Definition Kcp_Dispose := Dispose false react.
Definition Kcp_HandlePack := HandlePack react.
Definition Kcp_SendPackage := SendPackage false 4 send_code react.
Definition Kcp_SendRequest := SendRequest false 4 send_code timer_code rehashes react.
Definition Kcp_SendPush := SendPush false 4 send_code react.
Definition Kcp_SendResponse := SendResponse false 4 send_code react.
Definition Kcp_TimeoutCallback := TimeoutCallback react.
End classes.

(** ** Every request is answered once *)

Section once.
Context {Msg K : Type} `{RootCodec Msg}.
Context (tcp : bool) (prefix : nat) (send_code : nat -> Z) (timer_code : Z -> Z) (rehashes : nat -> bool).
Context (react : event Msg K -> M (Rpc Msg K) Z).

(** An application whose functions may send, but start no request and do not
    close the peer that called them. *)
Definition calm (e : event Msg K) : Prop := forall s : Rpc Msg K, exists c l,
  react e s = Done c (MkRpc (open s) (serial s) (callbacks s) (gen s) (hooks s) l (log s)).

(** The requests [issued] so far, by number, and the state of the peer. *)
Inductive rpc_run : gmap Z K -> Rpc Msg K -> Prop :=
| run_new : rpc_run ∅ new_Rpc
| run_request i s m tar cb ms s' :
    rpc_run i s -> SendRequest tcp prefix send_code timer_code rehashes react m tar cb ms s = Done tt s' ->
    rpc_run (<[serial s' := cb]> i) s'
| run_refused i s m tar cb ms e s' :
    rpc_run i s -> SendRequest tcp prefix send_code timer_code rehashes react m tar cb ms s = Fail e s' -> rpc_run i s'
| run_send i s m n tar s' :
    rpc_run i s -> after (fun _ s2 => s2 = s') s (SendPackage tcp prefix send_code react m n tar s) ->
    SendPackage tcp prefix send_code react m n tar s <> Undef -> rpc_run i s'
| run_package i s d s' :
    rpc_run i s -> after (fun _ s2 => s2 = s') s (HandlePack react d s) -> HandlePack react d s <> Undef -> rpc_run i s'
| run_timeout i s n cb s' :
    rpc_run i s -> callbacks s !! n = Some (cb, true) -> TimeoutCallback react n s = Done tt s' -> rpc_run i s'
| run_dispose i s flag s' :
    rpc_run i s -> Dispose tcp react flag s = Done tt s' -> rpc_run i s'.

(** How often the callback of request [n] has been called. *)
Definition is_call (n : Z) (e : event Msg K) : bool := match e with Called m _ _ => m =? n | _ => false end.
Definition calls_of (n : Z) (s : Rpc Msg K) : nat := length (List.filter (is_call n) (log s)).

(** Waiting and not called, or called once; numbers are not used twice. *)
Definition once_inv (i : gmap Z K) (s : Rpc Msg K) : Prop :=
  (forall n cb, i !! n = Some cb ->
     (exists t, callbacks s !! n = Some (cb, t)) /\ calls_of n s = 0%nat \/
     callbacks s !! n = None /\ calls_of n s = 1%nat) /\
  (forall n, i !! n = None -> callbacks s !! n = None /\ calls_of n s = 0%nat) /\
  (forall n cb, i !! n = Some cb -> 1 <= n <= serial s) /\
  0 <= serial s /\ (open s = false -> callbacks s = ∅) /\
  (forall n cb m, Called n cb m ∈ log s -> i !! n = Some cb).

Context (Hcalm : forall e, calm e).

Lemma notify_calm e s : exists c l,
  notify react e s = Done c (MkRpc (open s) (serial s) (callbacks s) (gen s) (hooks s) l (log s ++ [e])).
Proof. unfold notify. erewrite bind_done by done. destruct (Hcalm e (add_log e s)) as (c & l & ->). by exists c, l. Qed.

Lemma calls_of_app n s e l :
  calls_of n (MkRpc (open s) (serial s) (callbacks s) (gen s) (hooks s) l (log s ++ [e])) =
  (calls_of n s + if is_call n e then 1 else 0)%nat.
Proof. unfold calls_of. cbn [log]. rewrite List.filter_app, length_app. cbn. destruct (is_call n e); done. Qed.

(** A notification that is no callback changes nothing that counts. *)
Lemma once_notify i s c e s' :
  once_inv i s -> (forall n, is_call n e = false) -> notify react e s = Done c s' -> once_inv i s'.
Proof.
  intros Hi He E. destruct (notify_calm e s) as (c' & l & E'). rewrite E in E'. injection E' as -> ->.
  destruct Hi as (H1 & H2 & H3 & H4 & H5 & H6).
  assert (Hc : forall n, calls_of n (MkRpc (open s) (serial s) (callbacks s) (gen s) (hooks s) l (log s ++ [e])) = calls_of n s).
  { intros n. rewrite calls_of_app, He. lia. }
  split_and!; try done; intros n.
  - intros cb Hn. rewrite Hc. by apply H1.
  - intros Hn. rewrite Hc. by apply H2.
  - intros cb m. cbn [log]. rewrite elem_of_app, list_elem_of_singleton. intros [Hin|<-]; [by eapply H6|].
    specialize (He n). cbn in He. by rewrite Z.eqb_refl in He.
Qed.

Lemma call_erase_once i s n cb t m c s' :
  once_inv i s -> callbacks s !! n = Some (cb, t) -> call_erase react n cb m s = Done c s' -> once_inv i s'.
Proof.
  intros (H1 & H2 & H3 & H4 & H5 & H6) Hn. unfold call_erase. erewrite bind_done by done.
  destruct (notify_calm (Called n cb m) s) as (c' & l & E). erewrite bind_done by exact E.
  erewrite bind_done by done. cbn [gen]. rewrite Z.eqb_refl. erewrite !bind_done by done. intros [= <- <-].
  assert (Hin : i !! n = Some cb).
  { destruct (i !! n) as [cb'|] eqn:Ei; [|destruct (H2 n Ei); congruence]. destruct (H1 n cb' Ei) as [[[t' ?] _]|[? _]]; congruence. }
  assert (Hcnt : forall k, calls_of k (set_callbacks (delete n (callbacks s)) (gen s)
      (MkRpc (open s) (serial s) (callbacks s) (gen s) (hooks s) l (log s ++ [Called n cb m]))) =
      (calls_of k s + if (n =? k)%Z then 1 else 0)%nat) by (intros k; exact (calls_of_app k s (Called n cb m) l)).
  cbn [callbacks gen]. split_and!; cbn [callbacks serial open set_callbacks]; try done.
  - intros k cb' Hk. rewrite Hcnt. destruct (Z.eqb_spec n k) as [<-|Hne].
    + right. rewrite lookup_delete_eq. split; [done|]. destruct (H1 n cb' Hk) as [[_ ->]|[? _]]; [done|congruence].
    + rewrite lookup_delete_ne by done. rewrite Nat.add_0_r. by apply H1.
  - intros k Hk. rewrite Hcnt. destruct (Z.eqb_spec n k) as [<-|Hne]; [congruence|].
    rewrite lookup_delete_ne by done. rewrite Nat.add_0_r. by apply H2.
  - intros Ho. specialize (H5 Ho). by rewrite H5 in Hn.
  - intros k cb' m'. cbn [log set_callbacks]. rewrite elem_of_app, list_elem_of_singleton. intros [?|[= -> -> ->]]; [by eapply H6|done].
Qed.

Definition nulled (x : Z * (K * bool)) : event Msg K := Called x.1 x.2.1 None.

Lemma call_all_calm l s : exists l',
  call_all react l (gen s) s =
    Done tt (MkRpc (open s) (serial s) (callbacks s) (gen s) (hooks s) l' (log s ++ (nulled <$> l))).
Proof.
  revert s. induction l as [|[n [cb t]] l IH]; intros s; cbn [call_all].
  - exists (sent s). cbn. rewrite app_nil_r. by destruct s.
  - destruct (notify_calm (Called n cb None) s) as (c & l1 & E). erewrite bind_done by exact E.
    erewrite bind_done by done. cbn [gen]. rewrite Z.eqb_refl. erewrite bind_done by done.
    destruct (IH (MkRpc (open s) (serial s) (callbacks s) (gen s) (hooks s) l1 (log s ++ [Called n cb None]))) as (l' & E').
    cbn [gen] in E'. rewrite E'. exists l'. cbn. by rewrite <-app_assoc.
Qed.

Lemma nulled_count n (l : list (Z * (K * bool))) : NoDup l.*1 ->
  length (List.filter (is_call n) (nulled <$> l)) = if bool_decide (n ∈ l.*1) then 1%nat else 0%nat.
Proof.
  induction l as [|[k v] l IH]; intros Hnd; [done|]. rewrite fmap_cons in Hnd. apply NoDup_cons in Hnd as [Hk Hnd].
  specialize (IH Hnd). rewrite !fmap_cons. cbn [List.filter is_call nulled fst] in *. destruct (Z.eqb_spec k n) as [->|Hne].
  - cbn [length]. rewrite IH, (bool_decide_false (n ∈ l.*1)) by done.
    rewrite bool_decide_true; [done|]. apply elem_of_cons. by left.
  - rewrite IH. apply f_equal with (f := fun b : bool => if b then 1%nat else 0%nat).
    apply bool_decide_ext. rewrite elem_of_cons. split; [by right|]. by intros [->|?].
Qed.

Lemma nulled_callbacks n (m : gmap Z (K * bool)) :
  length (List.filter (is_call n) (nulled <$> map_to_list m)) = match m !! n with Some _ => 1%nat | None => 0%nat end.
Proof.
  rewrite nulled_count by apply NoDup_fst_map_to_list.
  destruct (m !! n) as [v|] eqn:E.
  - rewrite bool_decide_true; [done|]. apply list_elem_of_fmap. exists (n, v). by rewrite elem_of_map_to_list.
  - rewrite bool_decide_false; [done|]. rewrite list_elem_of_fmap. intros ([k v] & -> & Hk%elem_of_map_to_list). cbn in E. congruence.
Qed.

(** After the callbacks have been called with null and cleared. *)
Lemma once_cleared i s l o g hk :
  once_inv i s ->
  once_inv i (MkRpc o (serial s) ∅ g hk l (log s ++ (nulled <$> map_to_list (callbacks s)))).
Proof.
  intros (H1 & H2 & H3 & H4 & H5 & H6).
  assert (Hc : forall n, calls_of n (MkRpc o (serial s) ∅ g hk l (log s ++ (nulled <$> map_to_list (callbacks s)))) =
    (calls_of n s + match callbacks s !! n with Some _ => 1 | None => 0 end)%nat).
  { intros n. unfold calls_of. cbn [log]. by rewrite List.filter_app, length_app, nulled_callbacks. }
  split_and!; cbn [callbacks serial open]; try done; intros n.
  - intros cb Hn. right. rewrite Hc. split; [done|]. by destruct (H1 n cb Hn) as [[[t ->] ->]|[-> ->]].
  - intros Hn. rewrite Hc. by destruct (H2 n Hn) as [-> ->].
  - intros cb m. cbn [log]. rewrite elem_of_app. intros [?|Hin]; [by eapply H6|].
    apply list_elem_of_fmap in Hin as ([k [cb' t]] & [= -> -> ->] & Hk%elem_of_map_to_list).
    destruct (i !! k) as [cb2|] eqn:Ei; [|destruct (H2 k Ei); congruence].
    destruct (H1 k cb2 Ei) as [[[t' ?] _]|[? _]]; congruence.
Qed.

Lemma Dispose_once i s flag : once_inv i s -> exists s', Dispose tcp react flag s = Done tt s' /\ once_inv i s' /\ open s' = false.
Proof.
  intros Hi. unfold Dispose. erewrite bind_done by done. destruct (open s) eqn:Eo; cbn [negb]; [|by exists s].
  assert (Hb : exists s1, (_ ← (if tcp then mret tt else modify (set_open false));
      s ← get; _ ← call_all react (map_to_list (callbacks s)) (gen s);
      _ ← modify (fun s => set_callbacks ∅ (gen s + 1) s);
      (if tcp then modify (set_open false) else mret tt)) s = Done tt s1 /\ once_inv i s1 /\ open s1 = false).
  { destruct tcp.
    - erewrite bind_done by done. erewrite bind_done by done.
      destruct (call_all_calm (map_to_list (callbacks s)) s) as (l & E). erewrite bind_done by exact E.
      erewrite bind_done by done. eexists. split; [reflexivity|]. split; [|done]. exact (once_cleared i s l false (gen s + 1) (hooks s) Hi).
    - erewrite bind_done by done. erewrite bind_done by done.
      destruct (call_all_calm (map_to_list (callbacks s)) (set_open false s)) as (l & E). erewrite bind_done by exact E.
      erewrite bind_done by done. eexists. split; [reflexivity|]. split; [|done]. exact (once_cleared i s l false (gen s + 1) (hooks s) Hi). }
  destruct Hb as (s1 & E & Hi1 & Ho1).
  assert (Hsplit : forall (k : M (Rpc Msg K) unit) s2, k s1 = Done tt s2 ->
    (_ ← (if tcp then mret tt else modify (set_open false));
      s ← get; _ ← call_all react (map_to_list (callbacks s)) (gen s);
      _ ← modify (fun s => set_callbacks ∅ (gen s + 1) s);
      _ ← (if tcp then modify (set_open false) else mret tt); k) s = Done tt s2).
  { intros k s2 Hk. rewrite <-Hk. clear Hk. revert E. unfold mbind, M_bind, get.
    destruct ((if tcp then mret tt else modify (set_open false)) s) as [? sa|? sa|]; [|done|done].
    destruct (call_all react _ _ sa) as [? sb|? sb|]; [|done|done]. unfold modify at 1 3.
    destruct ((if tcp then modify (set_open false) else mret tt) _) as [? sc|? sc|]; [|done|done]. by intros [= _ ->]. }
  destruct flag; [|exists s1; split; [by apply Hsplit|done]].
  destruct (hooks s1) eqn:Eh.
  - destruct (notify_calm Disconnected s1) as (c & l & En). eexists. split; [apply Hsplit|].
    + erewrite bind_done by done. rewrite Eh. erewrite bind_done by exact En. reflexivity.
    + split; [|done]. apply (once_notify i s1 c Disconnected) in En; [|done|done]. exact En.
  - eexists. split; [apply Hsplit|].
    + erewrite bind_done by done. rewrite Eh. erewrite bind_done by done. reflexivity.
    + split; [|done]. exact Hi1.
Qed.

Lemma SendPackage_once i s m n tar :
  once_inv i s ->
  match SendPackage tcp prefix send_code react m n tar s with
  | Done _ s' => exists d, s' = add_sent d s /\ open s = true
  | Fail _ s' => once_inv i s'
  | Undef => True
  end.
Proof.
  intros Hi. unfold SendPackage. erewrite bind_done by done. destruct (open s) eqn:Eo; cbn [negb]; [|done].
  erewrite bind_done by done. destruct (package prefix tar n m) as [d|]; [|done]. erewrite bind_done by done.
  cbv zeta. destruct (_ =? 0); [by exists d|]. destruct (Dispose_once i s false Hi) as (s' & E & Hi' & _).
  destruct tcp; [by erewrite bind_done by exact E|by erewrite bind_done by done].
Qed.

Lemma once_serial i s n : once_inv i s -> serial s <= n -> once_inv i (set_serial n s).
Proof.
  intros (H1 & H2 & H3 & H4 & H5 & H6) Hn. split_and!; try done; cbn [serial set_serial]; [|lia].
  intros k cb Hk. specialize (H3 k cb Hk). lia.
Qed.

Lemma once_register i s cb t g :
  once_inv i s -> open s = true -> i !! serial s = None -> 1 <= serial s ->
  once_inv (<[serial s := cb]> i) (set_callbacks (<[serial s := (cb, t)]> (callbacks s)) g s).
Proof.
  intros (H1 & H2 & H3 & H4 & H5 & H6) Ho Hn Hs. split_and!; cbn [callbacks serial open set_callbacks log]; [..|congruence|].
  - intros k cb' [[<- <-]|[Hne Hk]]%lookup_insert_Some.
    + left. rewrite lookup_insert_eq. split; [by eexists|]. by apply H2.
    + rewrite lookup_insert_ne by done. by apply H1.
  - intros k [Hk Hne]%lookup_insert_None. rewrite lookup_insert_ne by done. by apply H2.
  - intros k cb' [[<- <-]|[Hne Hk]]%lookup_insert_Some; [lia|by eapply H3].
  - done.
  - intros k cb' m Hin. specialize (H6 k cb' m Hin). rewrite lookup_insert_ne; [done|]. congruence.
Qed.

Lemma SendRequest_once i s m tar cb ms :
  once_inv i s ->
  match SendRequest tcp prefix send_code timer_code rehashes react m tar cb ms s with
  | Done _ s' => once_inv (<[serial s' := cb]> i) s'
  | Fail _ s' => once_inv i s'
  | Undef => True
  end.
Proof.
  intros Hi. unfold SendRequest. erewrite bind_done by done. destruct (open s) eqn:Eo; cbn [negb]; [|done].
  erewrite bind_done by done. destruct (_ <? 2 ^ 31); [|done]. erewrite bind_done by done. cbv zeta.
  erewrite bind_done by done. assert (Hi1 : once_inv i (set_serial (serial s + 1) s)) by (apply once_serial; [done|lia]).
  unfold reject_if. destruct (_ && _); [done|]. erewrite bind_done by done.
  pose proof (SendPackage_once i (set_serial (serial s + 1) s) m (- (serial s + 1)) tar Hi1) as Hp. unfold mbind, M_bind.
  destruct (SendPackage tcp prefix send_code react m (- (serial s + 1)) tar (set_serial (serial s + 1) s)) as [[] s2|e s2|]; [|done|done].
  destruct Hp as (d & -> & _). unfold modify. cbn [serial set_callbacks].
  apply (once_register i (add_sent d (set_serial (serial s + 1) s))); [exact Hi1|done| |];
    cbn [serial add_sent set_serial]; destruct Hi as (_ & _ & H3 & H4 & _); [|lia].
  destruct (i !! (serial s + 1)) as [cb'|] eqn:E; [|done]. specialize (H3 _ _ E). lia.
Qed.

Lemma HandlePack_once i s d : once_inv i s ->
  match HandlePack react d s with Done _ s' | Fail _ s' => once_inv i s' | Undef => True end.
Proof.
  intros Hi. unfold HandlePack. destruct (parse d) as [[n m] b|e b|]; [|done|done]. erewrite bind_done by done.
  assert (Hn : forall e, (forall n, is_call n e = false) ->
    match (if hooks s then notify react e else mret 0) s with Done _ s' | Fail _ s' => once_inv i s' | Undef => True end).
  { intros e He. destruct (hooks s); [|done]. destruct (notify_calm e s) as (c & l & E). rewrite E.
    by apply (once_notify i s c e). }
  destruct (n =? 0); [by apply Hn|]. destruct (n <? 0).
  - unfold assert_. destruct (_ <? n); [|done]. erewrite bind_done by done. by apply Hn.
  - destruct (callbacks s !! n) as [[cb t]|] eqn:E; [|done].
    destruct (call_erase react n cb (Some m) s) as [c s'|c s'|] eqn:Ec; [by eapply call_erase_once| |done].
    unfold call_erase in Ec. erewrite bind_done in Ec by done. destruct (notify_calm (Called n cb (Some m)) s) as (c' & l & En).
    erewrite bind_done in Ec by exact En. erewrite bind_done in Ec by done. cbn [gen] in Ec. by rewrite Z.eqb_refl in Ec.
Qed.

Lemma run_once i s : rpc_run i s -> once_inv i s.
Proof.
  induction 1 as [|i s m tar cb ms s' _ IH E|i s m tar cb ms e s' _ IH E|i s m n tar s' _ IH Ea Eu|i s d s' _ IH Ea Eu
    |i s n cb s' _ IH Ec E|i s flag s' _ IH E].
  - split_and!; try done. by intros n cb m Hin%elem_of_nil.
  - pose proof (SendRequest_once i s m tar cb ms IH) as Hp. by rewrite E in Hp.
  - pose proof (SendRequest_once i s m tar cb ms IH) as Hp. by rewrite E in Hp.
  - pose proof (SendPackage_once i s m n tar IH) as Hp.
    destruct (SendPackage tcp prefix send_code react m n tar s) as [[] s2|e s2|]; [| |done]; cbn in Ea; subst s'; [|done].
    by destruct Hp as (d & -> & _).
  - pose proof (HandlePack_once i s d IH) as Hp. destruct (HandlePack react d s); [| |done]; cbn in Ea; by subst s'.
  - unfold TimeoutCallback in E. erewrite bind_done in E by done. rewrite Ec in E.
    apply bind_inv_done in E as (c & s1 & Ec1 & [= <-]). by eapply call_erase_once.
  - destruct (Dispose_once i s flag IH) as (s2 & E2 & Hi & _). congruence.
Qed.
End once.

(** ** Packages *)

Section packages.
Context {Msg : Type} `{RootCodec Msg}.

(** What one side packs, the other side parses. *)
Lemma package_parse prefix ser m :
  msg_ok m -> is_sint 32 ser -> Z.of_nat prefix <= 2 ^ 32 ->
  exists d m' rb, package prefix 0 ser m = Some d /\ parse d = Done (ser, m') rb /\ same m m'.
Proof.
  intros Hm Hs Hp. unfold package. set (start := MkBB _ _ _ _ _ _ _ _). cbn [Z.eqb].
  assert (Hl0 : len start = Z.of_nat prefix) by (unfold len, zlen; cbn; by rewrite length_replicate).
  change (2 ^ 32) with 4294967296 in *.
  destruct (write_spec (Num (t := I32) ser) start) as (bb1 & E1 & W1).
  { by apply i32_num_ok. }
  { split; [rewrite Hl0; done|]. cbn. change (2 ^ 63) with 9223372036854775808. lia. }
  { pose proof (num_enc_size I32 ser ltac:(apply _) ltac:(done)) as [_ Hn]. change (Z.of_nat (var_digits I32)) with 5 in Hn.
    unfold room. rewrite Hl0. change (2 ^ 62) with 4611686018427387904. cbn [enc BFuncsSpec_num num_val]. lia. }
  change (enc _) with (num_enc I32 ser) in W1.
  pose proof (num_enc_size I32 ser ltac:(apply _) ltac:(done)) as [_ Hn]. change (Z.of_nat (var_digits I32)) with 5 in Hn.
  destruct (root_codec m bb1) as (bb2 & w & E2 & D2 & Hw & Hr); [done|by eapply wrote_wf| |by rewrite (wrote_ptrs _ _ _ W1)|].
  { rewrite (wrote_len _ _ _ W1), Hl0. change (2 ^ 60) with 1152921504606846976. lia. }
  erewrite bind_done by done. erewrite bind_done by exact E1. rewrite E2, D2, (wrote_data _ _ _ W1), <-app_assoc.
  cbn [data start]. rewrite drop_app_length' by (by rewrite length_replicate).
  set (d := num_enc I32 ser ++ w). set (rb0 := Reset d 0 0 BB_empty).
  assert (Hd : zlen d <= 2 ^ 62) by (unfold d; rewrite zlen_app; change (2 ^ 62) with 4611686018427387904; change (2 ^ 32) with 4294967296 in Hw; lia).
  destruct (Hr (set_offset (zlen (num_enc I32 ser)) rb0) (num_enc I32 ser) []) as (m' & rb & E3 & Hsame); try done.
  { cbn. unfold d. by rewrite app_nil_r. }
  exists d, m', rb. split_and!; try done. unfold parse. fold rb0.
  rewrite (bind_done _ _ _ (Num ser) (set_offset (zlen (num_enc I32 ser)) rb0)).
  - by erewrite bind_done by exact E3.
  - rewrite (read_spec (Num (t := I32) ser) rb0 [] w); try done. by apply i32_num_ok.
Qed.
End packages.

(** The object-graph serialiser as a message codec: a message is a heap and a
    root; what is read is the objects that the root owns. *)
Record message := Message { mheap : heap; mroot : ptr }.

#[export] Program Instance graph_codec : RootCodec message := {
  write_root m := WriteRoot (mheap m) (mroot m);
  read_root bb :=
    match ReadRoot (PObject None) (MkReading bb ∅ 0 None) with
    | Done v st => Done (Message (rheap st) v) (rbb st)
    | Fail e st => Fail e (rbb st)
    | Undef => Undef
    end;
  msg_ok m :=
    (exists k, (forall a o, mheap m !! a = Some o -> obj_ok (mheap m) o /\ cost o <= k) /\ 0 <= k /\
               8 + Z.of_nat (size (mheap m)) * k < 2 ^ 32) /\
    shared_ok (mheap m) (PObject None) (mroot m);
  same m m' := rebuilt (mheap m) (mroot m) 0 (mheap m') (mroot m')
}.
Next Obligation.
  intros [h v] bb [(k & Hok & Hk & Hsz) Hv] W Hl Hp. cbn [mheap mroot] in *.
  destruct (root_roundtrip h k v (PObject None) bb Hok Hk Hsz Hv W Hl Hp) as (bb' & w & E & D & _ & Hw & Hr).
  exists bb', w. split_and!; try done. intros rb pre post P1 P2 P3 P4 P5 P6.
  destruct (Hr (MkReading rb ∅ 0 None)) as (v' & st' & F & _ & _ & _ & Hsame).
  { split_and!; try done; [by exists pre, post|]. split; [|split_and!; try done; intros a o; cbn; by rewrite lookup_empty].
    split; [cbn; lia|]. cbn. rewrite P2. unfold len. rewrite P1, !zlen_app. pose proof (zlen_nonneg pre). pose proof (zlen_nonneg w). pose proof (zlen_nonneg post). lia. }
  rewrite F. eexists _, _. split; [done|exact Hsame].
Qed.

(** ** Properties *)

(** C30. Every request is answered exactly once.  On every run of a peer (TCP or
    KCP) whose application neither starts requests nor closes the peer from
    inside its functions: a request that was accepted is waiting and its
    callback has not been called, or its callback has been called exactly
    once; when the peer is closed, all have; and nothing but the callback of a
    request is ever called under its number. *)
Theorem requests_answered_once {Msg K} `{RootCodec Msg} tcp prefix send_code timer_code rehashes
    (react : event Msg K -> M (Rpc Msg K) Z) i s :
  (forall e, calm react e) -> rpc_run tcp prefix send_code timer_code rehashes react i s ->
  (forall n cb, i !! n = Some cb ->
     (exists t, callbacks s !! n = Some (cb, t)) /\ calls_of n s = 0%nat \/
     callbacks s !! n = None /\ calls_of n s = 1%nat) /\
  (open s = false -> forall n cb, i !! n = Some cb -> calls_of n s = 1%nat) /\
  (forall n cb m, Called n cb m ∈ log s -> i !! n = Some cb).
Proof.
  intros Hc Hr. destruct (run_once tcp prefix send_code timer_code rehashes react Hc i s Hr) as (H1 & H2 & H3 & H4 & H5 & H6).
  split_and!; [done| |done]. intros Ho n cb Hn. rewrite (H5 Ho) in H1. by destruct (H1 n cb Hn) as [[[t ?] _]|[_ ?]].
Qed.

(** A codec for small examples: strings. *)
#[local] Program Instance string_codec : RootCodec xstring := {
  write_root := WriteTo;
  read_root := ReadFrom;
  msg_ok s := len_ok (zlen (chars s)) /\ Forall is_byte (chars s) /\ zlen (chars s) < 2 ^ 31;
  same s s' := s' = s
}.
Next Obligation.
  intros [s] bb (Hn & Hb & Hl) W Hlen Hp. cbn [chars] in *.
  pose proof (num_enc_size U64 (zlen s) ltac:(apply _) ltac:(done)) as [_ Hs]. change (Z.of_nat _) with 5 in Hs.
  assert (Hc : zlen (counted s) < 2 ^ 32).
  { unfold counted. rewrite zlen_app. change (2 ^ 31) with 2147483648 in Hl. change (2 ^ 32) with 4294967296. lia. }
  destruct (write_spec (XString s) bb) as (bb' & E & Wr); [done|done| |].
  { unfold room. change (enc (XString s)) with (counted s). change (2 ^ 60) with 1152921504606846976 in *.
    change (2 ^ 62) with 4611686018427387904. change (2 ^ 32) with 4294967296 in *. lia. }
  change (enc (XString s)) with (counted s) in Wr.
  exists bb', (counted s). split_and!; [done|by apply wrote_data|done|]. intros rb pre post P1 P2 P3 P4 _ _.
  eexists _, _. split; [by apply (read_spec (XString s) rb pre post)|done].
Qed.

Module RpcDemo.
Definition quiet (e : event xstring nat) : M (Rpc xstring nat) Z := mret 0.
Definition request := SendRequest (Msg := xstring) true 44 (fun _ => 0) (fun _ => 0) (fun _ => false) quiet (XString [1; 2]) 0 7%nat 0.
Definition s1 : Rpc xstring nat := match request new_Rpc with Done _ s => s | _ => new_Rpc end.
Definition s2 : Rpc xstring nat := match Dispose true quiet true s1 with Done _ s => s | _ => new_Rpc end.

Lemma calm_quiet e : calm quiet e.
Proof. intros s. exists 0, (sent s). by destruct s. Qed.

Lemma demo_run : rpc_run true 44 (fun _ => 0) (fun _ => 0) (fun _ => false) quiet (<[1 := 7%nat]> ∅) s2.
Proof.
  assert (E1 : request new_Rpc = Done tt s1) by (vm_compute; reflexivity).
  assert (E2 : Dispose true quiet true s1 = Done tt s2) by (vm_compute; reflexivity).
  eapply run_dispose; [|exact E2]. change 1 with (serial s1). eapply run_request; [apply run_new|exact E1].
Qed.
End RpcDemo.

Lemma requests_answered_once_witness :
  open RpcDemo.s2 = false /\ calls_of 1 RpcDemo.s2 = 1%nat.
Proof.
  split; [vm_compute; reflexivity|].
  destruct (requests_answered_once true 44 (fun _ => 0) (fun _ => 0) (fun _ => false) RpcDemo.quiet _ _
    RpcDemo.calm_quiet RpcDemo.demo_run) as (_ & H & _).
  apply (H eq_refl 1 7%nat). reflexivity.
Defined.

(** C31. Request and response meet.  A request that is accepted reaches the other
    side as a request with its number and the same message; the response sent
    under that number reaches, at the requesting side, exactly the callback
    of that request, with the same reply.  Between the two the requesting side
    may be in any state in which the callback is still registered. *)
Theorem request_response {Msg K} `{RootCodec Msg} tcpa tcpb pa pb codea codeb timer rehashes
    (ra rb : event Msg K -> M (Rpc Msg K) Z) m reply cb sa :
  msg_ok m -> msg_ok reply -> (forall n, codea n = 0) -> (forall n, codeb n = 0) ->
  Z.of_nat pa <= 2 ^ 32 -> Z.of_nat pb <= 2 ^ 32 -> open sa = true -> 0 <= serial sa < 2 ^ 31 - 1 ->
  let n := serial sa + 1 in
  exists sa' d, SendRequest tcpa pa codea timer rehashes ra m 0 cb 0 sa = Done tt sa' /\
    sent sa' = sent sa ++ [d] /\ callbacks sa' !! n = Some (cb, false) /\
    (forall sb, hooks sb = true -> exists m', same m m' /\ HandlePack rb d sb = notify rb (Requested n m') sb) /\
    (forall sb, open sb = true -> exists d' reply', same reply reply' /\
       SendResponse tcpb pb codeb rb n reply sb = Done tt (add_sent d' sb) /\
       forall sa2 t, callbacks sa2 !! n = Some (cb, t) -> HandlePack ra d' sa2 = call_erase ra n cb (Some reply') sa2).
Proof.
  intros Hm Hr Ha Hb Hpa Hpb Ho Hs n.
  destruct (package_parse pa (- n) m Hm) as (d & m' & b1 & P1 & Q1 & S1); [unfold is_sint; change (2 ^ (32 - 1)) with (2 ^ 31); lia|done|].
  destruct (package_parse pb n reply Hr) as (d' & r' & b2 & P2 & Q2 & S2); [unfold is_sint; change (2 ^ (32 - 1)) with (2 ^ 31); lia|done|].
  eexists _, d. split_and!.
  - unfold SendRequest. erewrite bind_done by done. rewrite Ho. erewrite bind_done by done.
    rewrite (proj2 (Z.ltb_lt _ _)) by lia. erewrite bind_done by done. cbv zeta. fold n. erewrite bind_done by done.
    erewrite bind_done by done. unfold SendPackage. erewrite bind_done.
    2: { erewrite bind_done by done. cbn [open set_serial]. rewrite Ho. erewrite bind_done by done. rewrite P1.
         erewrite bind_done by done. cbv zeta. rewrite Ha. reflexivity. }
    reflexivity.
  - done.
  - cbn. by rewrite lookup_insert_eq.
  - intros sb Hh. exists m'. split; [done|]. unfold HandlePack. rewrite Q1. erewrite bind_done by done.
    destruct (Z.eqb_spec (- n) 0); [lia|]. destruct (Z.ltb_spec (- n) 0); [|lia]. rewrite (proj2 (Z.ltb_lt _ _)) by lia.
    erewrite bind_done by done. by rewrite Hh, Z.opp_involutive.
  - intros sb Hob. exists d', r'. split; [done|]. split.
    + unfold SendResponse, SendPackage. erewrite bind_done by done. rewrite Hob. erewrite bind_done by done. rewrite P2.
      erewrite bind_done by done. cbv zeta. by rewrite Hb.
    + intros sa2 t Hc. unfold HandlePack. rewrite Q2. erewrite bind_done by done.
      destruct (Z.eqb_spec n 0); [lia|]. destruct (Z.ltb_spec n 0); [lia|]. by rewrite Hc.
Qed.

Lemma request_response_witness :
  exists sa' d, RpcDemo.request new_Rpc = Done tt sa' /\ sent sa' = [] ++ [d].
Proof.
  destruct (request_response true true 44 44 (fun _ => 0) (fun _ => 0) (fun _ => 0) (fun _ => false)
    RpcDemo.quiet RpcDemo.quiet (XString [1; 2]) (XString [3]) 7%nat new_Rpc) as (sa' & d & E & Hs & _);
    [split_and!; [done|repeat constructor; done|done]|split_and!; [done|repeat constructor; done|done]|done|done|done|done|done|done|].
  exists sa', d. split; [exact E|exact Hs].
Defined.

(** A callback that closes its own peer runs into undefined behaviour: the
    response calls it, [Dispose] inside it calls it a second time (with null)
    and clears the table, and the iterator that is erased afterwards is no
    longer valid. *)
Theorem callback_dispose_undefined :
  let react (e : event xstring nat) : M (Rpc xstring nat) Z :=
    match e with Called _ _ (Some _) => _ ← Dispose true RpcDemo.quiet true; mret 0 | _ => mret 0 end in
  exists d, package 44 0 1 (XString [3]) = Some d /\ HandlePack react d RpcDemo.s1 = Undef /\
    exists s, notify react (Called 1 7%nat (Some (XString [3]))) RpcDemo.s1 = Done 0 s /\ calls_of 1 s = 2%nat.
Proof.
  cbv zeta. eexists. split; [vm_compute; reflexivity|]. split; [vm_compute; reflexivity|].
  eexists. split; [vm_compute; reflexivity|vm_compute; reflexivity].
Qed.
