(* ===== verification/Dict.v ===== *)
(** * xx_dict: the hash table

    [Dict] keeps its elements in an array without holes ([items], with the
    hash codes and chain links of [nodes] beside it), a doubly linked chain
    per bucket, and the free elements in a list through [next].

    Arrays are maps from the indices that have been written to their contents;
    access outside the allocated length or to an element that was never
    written is undefined.  A destroyed key and value are [None]. *)

From Stdlib Require Import ZArith Lia.
From stdpp Require Import base numbers list gmap.
From S2P Require Import Prelude Util HashUtils.
Open Scope Z_scope.

Record Node := MkNode { hashCode : Z; next : Z }.
Record Data (K V : Type) := MkData { kv : option (K * V); prev : Z }.
Arguments MkData {K V}.
Arguments kv {K V}.
Arguments prev {K V}.

Record Dict (K V : Type) := MkDict {
  freeList : Z;
  freeCount : Z;
  count : Z;
  bucketsLen : Z;
  buckets : gmap Z Z;
  nodes : gmap Z Node;
  items : gmap Z (Data K V)
}.
Arguments MkDict {K V}.
Arguments freeList {K V}.
Arguments freeCount {K V}.
Arguments count {K V}.
Arguments bucketsLen {K V}.
Arguments buckets {K V}.
Arguments nodes {K V}.
Arguments items {K V}.

(** [memset(buckets, -1, n * sizeof(int))]. *)
Definition blank_buckets (n : Z) : gmap Z Z := gset_to_gmap (-1) (list_to_set (seqZ 0 n)).

Section dict.
Context {K V : Type} `{!EqDecision K} `{!HashFunc K}.
(** [sizeof(Data)] and [TV()]. *)
Context (dataSize : Z) (vdefault : V).
Implicit Types d : Dict K V.

Definition set_free (l c : Z) d := MkDict l c (count d) (bucketsLen d) (buckets d) (nodes d) (items d).
Definition set_count (c : Z) d := MkDict (freeList d) (freeCount d) c (bucketsLen d) (buckets d) (nodes d) (items d).
Definition set_buckets (n : Z) (m : gmap Z Z) d :=
  MkDict (freeList d) (freeCount d) (count d) n m (nodes d) (items d).
Definition set_nodes (m : gmap Z Node) d :=
  MkDict (freeList d) (freeCount d) (count d) (bucketsLen d) (buckets d) m (items d).
Definition set_items (m : gmap Z (Data K V)) d :=
  MkDict (freeList d) (freeCount d) (count d) (bucketsLen d) (buckets d) (nodes d) m.

(** Array accesses. *)
Definition in_array (i : Z) d : bool := (0 <=? i) && (i <? bucketsLen d).
Definition bucket (b : Z) : M (Dict K V) Z := d ← get; demand (buckets d !! b).
Definition node (i : Z) : M (Dict K V) Node := d ← get; demand (nodes d !! i).
Definition item (i : Z) : M (Dict K V) (Data K V) := d ← get; demand (items d !! i).
Definition put_bucket (b v : Z) : M (Dict K V) unit :=
  d ← get; _ ← assert_ (in_array b d); put (set_buckets (bucketsLen d) (<[b := v]> (buckets d)) d).
Definition put_node (i : Z) (x : Node) : M (Dict K V) unit :=
  d ← get; _ ← assert_ (in_array i d); put (set_nodes (<[i := x]> (nodes d)) d).
Definition put_item (i : Z) (x : Data K V) : M (Dict K V) unit :=
  d ← get; _ ← assert_ (in_array i d); put (set_items (<[i := x]> (items d)) d).

(** [nodes[i].next = n] and [items[i].prev = p]. *)
Definition put_next (i n : Z) : M (Dict K V) unit := x ← node i; put_node i (MkNode (hashCode x) n).
Definition put_prev (i p : Z) : M (Dict K V) unit := x ← item i; put_item i (MkData (kv x) p).

(** The constructor; [None]: no bucket count. *)
Definition new_Dict (capacity : Z) : option (Dict K V) :=
  n ← GetPrime capacity dataSize;
  Some (MkDict (-1) 0 0 n (blank_buckets n) ∅ ∅).

(** [hashCode % bucketsLen], unsigned. *)
Definition bucket_of (h : Z) : M (Dict K V) Z :=
  d ← get; _ ← assert_ (0 <? bucketsLen d); mret (h mod bucketsLen d).

(** [for (int i = start; i >= 0; i = nodes[i].next) if (equal) return i;], at
    most [count] rounds. *)
Fixpoint find_loop (fuel : nat) (h : Z) (k : K) (i : Z) : M (Dict K V) Z :=
  match fuel with
  | O => undef
  | S fuel =>
      if i <? 0 then mret (-1)
      else
        nd ← node i;
        if hashCode nd =? h then
          it ← item i;
          e ← demand (kv it);
          if decide (e.1 = k) then mret i else find_loop fuel h k (next nd)
        else find_loop fuel h k (next nd)
  end.

Definition find_from (h : Z) (k : K) (i : Z) : M (Dict K V) Z :=
  d ← get; find_loop (S (Z.to_nat (count d))) h k i.

Definition Find (k : K) : M (Dict K V) Z :=
  b ← bucket_of (GetHashCode k); i ← bucket b; find_from (GetHashCode k) k i.

(** Put element [i] at the head of bucket [b]:
    [nodes[i].next = buckets[b]; if (buckets[b] >= 0) items[buckets[b]].prev = i; buckets[b] = i;]. *)
Definition link (i h b : Z) : M (Dict K V) unit :=
  s ← bucket b;
  _ ← put_node i (MkNode h s);
  _ ← (if 0 <=? s then put_prev s i else mret tt);
  put_bucket b i.

(** One round of the loop that rebuilds the chains. *)
Definition relink (i : Z) : M (Dict K V) unit :=
  nd ← node i;
  b ← bucket_of (hashCode nd);
  s ← bucket b;
  _ ← (if 0 <=? s then put_prev s i else mret tt);
  _ ← put_prev i (-1);
  _ ← put_next i s;
  put_bucket b i.

Fixpoint relink_all (l : list Z) : M (Dict K V) unit :=
  match l with
  | [] => mret tt
  | i :: l => _ ← relink i; relink_all l
  end.

(** [Reserve(capacity)]; [Realloc] and the moves keep the elements. *)
Definition Reserve (capacity : Z) : M (Dict K V) unit :=
  d ← get;
  _ ← assert_ ((count d =? 0) || (count d =? bucketsLen d));
  let capacity := if capacity =? 0 then count d * 2 else capacity in
  if capacity <=? bucketsLen d then mret tt
  else
    n ← demand (GetPrime capacity dataSize);
    _ ← put (set_buckets n (blank_buckets n) d);
    relink_all (seqZ 0 (count d)).

(** Where a new element goes. *)
Definition take_index : M (Dict K V) Z :=
  d ← get;
  if 0 <? freeCount d then
    let index := freeList d in
    nd ← node index;
    _ ← modify (set_free (next nd) (freeCount d - 1));
    mret index
  else
    _ ← (if count d =? bucketsLen d then Reserve 0 else mret tt);
    d ← get;
    _ ← put (set_count (count d + 1) d);
    mret (count d).

(** [Add(k, v, override)]: whether it succeeded, and the index. *)
Definition Add (k : K) (v : V) (override : bool) : M (Dict K V) (bool * Z) :=
  let h := GetHashCode k in
  b ← bucket_of h;
  s ← bucket b;
  i ← find_from h k s;
  if 0 <=? i then
    if override then
      it ← item i;
      _ ← put_item i (MkData (Some (k, v)) (prev it));
      mret (true, i)
    else mret (false, i)
  else
    index ← take_index;
    b ← bucket_of h;
    _ ← link index h b;
    _ ← put_item index (MkData (Some (k, v)) (-1));
    mret (true, index).

(** Take element [idx] out of its chain. *)
Definition unlink (idx : Z) : M (Dict K V) unit :=
  it ← item idx;
  nd ← node idx;
  _ ← (if prev it <? 0 then b ← bucket_of (hashCode nd); put_bucket b (next nd)
       else put_next (prev it) (next nd));
  if 0 <=? next nd then put_prev (next nd) (prev it) else mret tt.

Definition IndexExists (idx : Z) : M (Dict K V) bool :=
  d ← get;
  if (0 <=? idx) && (idx <? count d) then it ← item idx; mret (negb (prev it =? -2))
  else mret false.

Definition RemoveAt (idx : Z) : M (Dict K V) unit :=
  e ← IndexExists idx;
  _ ← assert_ e;
  _ ← unlink idx;
  d ← get;
  _ ← put_next idx (freeList d);
  _ ← modify (set_free idx (freeCount d + 1));
  it ← item idx;
  _ ← demand (kv it);
  put_item idx (MkData None (-2)).

Definition Remove (k : K) : M (Dict K V) unit :=
  idx ← Find k;
  if idx =? -1 then mret tt else RemoveAt idx.

Fixpoint DeleteKVs_loop (l : list Z) : M (Dict K V) unit :=
  match l with
  | [] => mret tt
  | i :: l =>
      it ← item i;
      _ ← (if prev it =? -2 then mret tt else _ ← demand (kv it); put_item i (MkData None (-2)));
      DeleteKVs_loop l
  end.
Definition DeleteKVs : M (Dict K V) unit := d ← get; DeleteKVs_loop (seqZ 0 (count d)).

Definition Clear : M (Dict K V) unit :=
  d ← get;
  if count d =? 0 then mret tt
  else
    _ ← DeleteKVs;
    d ← get;
    put (MkDict (-1) 0 0 (bucketsLen d) (blank_buckets (bucketsLen d)) (nodes d) (items d)).

Definition Count : M (Dict K V) Z := d ← get; mret (u32 (count d - freeCount d)).
Definition Empty : M (Dict K V) bool := n ← Count; mret (n =? 0).

Definition ValueAt (idx : Z) : M (Dict K V) V :=
  e ← IndexExists idx;
  _ ← assert_ e;
  it ← item idx;
  e ← demand (kv it);
  mret e.2.

Definition KeyAt (idx : Z) : M (Dict K V) K :=
  e ← IndexExists idx;
  _ ← assert_ e;
  it ← item idx;
  e ← demand (kv it);
  mret e.1.

Definition TryGetValue (k : K) : M (Dict K V) (option V) :=
  idx ← Find k;
  if 0 <=? idx then it ← item idx; e ← demand (kv it); mret (Some e.2)
  else mret None.

(** [operator[]] (and [At]): the index of the element, made if need be. *)
Definition subscript (k : K) : M (Dict K V) V :=
  idx ← Find k;
  idx ← (if idx <? 0 then r ← Add k vdefault true; mret r.2 else mret idx);
  it ← item idx; e ← demand (kv it); mret e.2.

Definition UpdateAt (idx : Z) (newKey : K) : M (Dict K V) bool :=
  e ← IndexExists idx;
  _ ← assert_ e;
  nd ← node idx;
  it ← item idx;
  e ← demand (kv it);
  let newHash := GetHashCode newKey in
  if hashCode nd =? newHash then
    _ ← put_item idx (MkData (Some (newKey, e.2)) (prev it)); mret true
  else
    b ← bucket_of (hashCode nd);
    b' ← bucket_of newHash;
    if b =? b' then
      _ ← put_node idx (MkNode newHash (next nd));
      _ ← put_item idx (MkData (Some (newKey, e.2)) (prev it)); mret true
    else
      s ← bucket b';
      i ← find_from newHash newKey s;
      if 0 <=? i then mret false
      else
        _ ← unlink idx;
        _ ← link idx newHash b';
        _ ← put_item idx (MkData (Some (newKey, e.2)) (-1)); mret true.

Definition Update (oldKey newKey : K) : M (Dict K V) bool :=
  idx ← Find oldKey;
  if idx =? -1 then mret false else UpdateAt idx newKey.

(** ** Iteration *)

(** The first index from [i] on of an element that is in use, or [count]. *)
Fixpoint next_element (fuel : nat) (i : Z) : M (Dict K V) Z :=
  d ← get;
  if i <? count d then
    match fuel with
    | O => undef
    | S fuel => it ← item i; if prev it =? -2 then next_element fuel (i + 1) else mret i
    end
  else mret i.

Definition Iter_end : M (Dict K V) Z := d ← get; mret (count d).
Definition Iter_begin : M (Dict K V) Z :=
  e ← Empty; if e : bool then Iter_end else d ← get; next_element (Z.to_nat (count d)) 0.
(** [operator++]. *)
Definition Iter_incr (i : Z) : M (Dict K V) Z := d ← get; next_element (Z.to_nat (count d)) (i + 1).
End dict.
