(* ===== verification/DictChains.v ===== *)
(** * The bucket chains of a hash table

    [chains d ch]: in the table [d] every bucket [b] holds the doubly linked
    chain of the elements [ch b].  [push] and [cut] are the two changes the
    table makes to a chain; the operations of [Dict] that touch chains compute
    them, and they keep [chains]. *)

From Stdlib Require Import ZArith Lia.
From stdpp Require Import functions base numbers list gmap.
From S2P Require Import Prelude Util HashUtils Dict.
Open Scope Z_scope.

(** First and last element of a list of indices. *)
Definition hdz (l : list Z) (e : Z) : Z := default e (head l).
Fixpoint lastz (p : Z) (l : list Z) : Z :=
  match l with
  | [] => p
  | i :: l => lastz i l
  end.

Lemma hdz_app l k e : hdz (l ++ k) e = hdz l (hdz k e).
Proof. by destruct l. Qed.
Lemma lastz_snoc p l i : lastz p (l ++ [i]) = i.
Proof. revert p. induction l as [|j l IH]; intros p; cbn; [done|apply IH]. Qed.

Section chains.
Context {K V : Type} `{!EqDecision K} `{!HashFunc K}.
Implicit Types (d : Dict K V) (ch : Z -> list Z) (e : K * V) (l : list Z).

(** ** Elements and segments *)

Definition nxt d (i : Z) : option Z := next <$> nodes d !! i.
Definition prv d (i : Z) : option Z := prev <$> items d !! i.
Definition hsh d (i : Z) : option Z := hashCode <$> nodes d !! i.
Definition val d (i : Z) : option (option (K * V)) := kv <$> items d !! i.

(** Element [i] holds [e]. *)
Definition entry d i e : Prop := hsh d i = Some (GetHashCode e.1) /\ val d i = Some (Some e).

(** The elements [l] are linked, [p] before the first and [q] after the last. *)
Fixpoint seg d (p : Z) l (q : Z) : Prop :=
  match l with
  | [] => True
  | i :: l => nxt d i = Some (hdz l q) /\ prv d i = Some p /\ seg d i l q
  end.

Lemma seg_app d p l k q : seg d p (l ++ k) q <-> seg d p l (hdz k q) /\ seg d (lastz p l) k q.
Proof.
  revert p. induction l as [|i l IH]; intros p; cbn [app seg]; [cbn; naive_solver|].
  cbn [lastz]. rewrite IH, hdz_app. naive_solver.
Qed.

Lemma seg_frame d d' p l q :
  (forall i, i ∈ l -> nxt d' i = nxt d i /\ prv d' i = prv d i) -> seg d p l q -> seg d' p l q.
Proof.
  revert p. induction l as [|i l IH]; intros p Hf; cbn [seg]; [done|]. intros (H1 & H2 & H3).
  destruct (Hf i) as [-> ->]; [set_solver|]. split; [done|]. split; [done|]. apply IH; [set_solver|done].
Qed.

Record chains d ch : Prop := {
  chains_len : 0 < bucketsLen d;
  chains_head b : 0 <= b < bucketsLen d -> buckets d !! b = Some (hdz (ch b) (-1));
  chains_seg b : 0 <= b < bucketsLen d -> seg d (-1) (ch b) (-1);
  chains_in b i : 0 <= b < bucketsLen d -> i ∈ ch b ->
    0 <= i < bucketsLen d /\ exists e, entry d i e /\ GetHashCode e.1 mod bucketsLen d = b;
  chains_nodup b : 0 <= b < bucketsLen d -> NoDup (ch b)
}.

Lemma entry_inj d i e e' : entry d i e -> entry d i e' -> e = e'.
Proof. unfold entry. naive_solver congruence. Qed.

Lemma chains_disjoint d ch b b' i : chains d ch ->
  0 <= b < bucketsLen d -> 0 <= b' < bucketsLen d -> i ∈ ch b -> i ∈ ch b' -> b = b'.
Proof.
  intros H Hb Hb' Hi Hi'. destruct (chains_in _ _ H b i Hb Hi) as (_ & e & He & <-).
  destruct (chains_in _ _ H b' i Hb' Hi') as (_ & e' & He' & <-). by rewrite (entry_inj _ _ _ _ He He').
Qed.

(** The bucket of an element, and the head of its chain. *)
Lemma bucket_range d h : 0 < bucketsLen d -> 0 <= h mod bucketsLen d < bucketsLen d.
Proof. intros. by apply Z.mod_pos_bound. Qed.

Lemma chains_head_cases d ch b : chains d ch -> 0 <= b < bucketsLen d ->
  (ch b = [] /\ buckets d !! b = Some (-1)) \/
  exists s l x, ch b = s :: l /\ buckets d !! b = Some s /\ 0 <= s < bucketsLen d /\ items d !! s = Some x.
Proof.
  intros H Hb. pose proof (chains_head _ _ H b Hb) as Eh.
  destruct (ch b) as [|s l] eqn:Ec; [by left|right].
  destruct (chains_in _ _ H b s Hb) as (Hs & e & [_ He] & _); [rewrite Ec; set_solver|].
  unfold val in He. destruct (items d !! s) as [x|] eqn:Ex; [|done]. by exists s, l, x.
Qed.

(** ** Putting an element at the head of a chain *)

Definition set_prev (p : Z) (x : Data K V) : Data K V := MkData (kv x) p.
Definition set_next (n : Z) (x : Node) : Node := MkNode (hashCode x) n.

Definition push (i h : Z) (e : option (K * V)) (b : Z) d : Dict K V :=
  let s := default (-1) (buckets d !! b) in
  MkDict (freeList d) (freeCount d) (count d) (bucketsLen d)
    (<[b := i]> (buckets d)) (<[i := MkNode h s]> (nodes d))
    (<[i := MkData e (-1)]> (if 0 <=? s then alter (set_prev i) s (items d) else items d)).

Lemma alter_insert_eq {A} (f : A -> A) (m : gmap Z A) i x : m !! i = Some x -> alter f i m = <[i := f x]> m.
Proof.
  intros E. apply map_eq. intros j. destruct (decide (i = j)) as [<-|].
  - by rewrite lookup_alter_eq, lookup_insert_eq, E.
  - by rewrite lookup_alter_ne, lookup_insert_ne.
Qed.

Lemma push_other i h (eo : option (K * V)) b d j :
  j <> i -> hsh (push i h eo b d) j = hsh d j /\ val (push i h eo b d) j = val d j /\ nxt (push i h eo b d) j = nxt d j /\
  (buckets d !! b <> Some j -> nodes (push i h eo b d) !! j = nodes d !! j /\ items (push i h eo b d) !! j = items d !! j).
Proof.
  intros Hj. unfold hsh, val, nxt, push. cbn [nodes items].
  rewrite !(lookup_insert_ne _ i j) by done.
  destruct (buckets d !! b) as [s|] eqn:E; cbn [from_option id]; [|done].
  destruct (_ <=? _); [|done]. destruct (decide (s = j)) as [->|].
  - rewrite lookup_alter_eq. destruct (items d !! j); (split; [done|]; split; [done|]; split; [done|]; by intros []).
  - rewrite lookup_alter_ne by done. done.
Qed.

Lemma push_same i h (eo : option (K * V)) b d :
  hsh (push i h eo b d) i = Some h /\ val (push i h eo b d) i = Some eo /\ prv (push i h eo b d) i = Some (-1) /\
  nxt (push i h eo b d) i = Some (default (-1) (buckets d !! b)).
Proof. unfold hsh, val, prv, nxt, push. cbn [nodes items]. by rewrite !lookup_insert_eq. Qed.

Lemma push_prv i h (eo : option (K * V)) b d j : j <> i -> buckets d !! b <> Some j -> prv (push i h eo b d) j = prv d j.
Proof. intros Hj Hs. destruct (push_other i h eo b d j Hj) as (_ & _ & _ & H). unfold prv. by destruct (H Hs) as [_ ->]. Qed.

Lemma push_prv_head i h (eo : option (K * V)) b d s : 0 <= s -> s <> i -> buckets d !! b = Some s -> is_Some (items d !! s) ->
  prv (push i h eo b d) s = Some i.
Proof.
  intros Hs Hne Eb [x Ex]. unfold prv, push. cbn [items]. rewrite Eb. cbn [from_option id].
  rewrite lookup_insert_ne by done. destruct (Z.leb_spec 0 s); [|lia]. cbn. by rewrite lookup_alter_eq, Ex.
Qed.

Lemma entry_push i e b d j e' : j <> i -> entry (push i (GetHashCode e.1) (Some e) b d) j e' <-> entry d j e'.
Proof. intros Hj. unfold entry. by destruct (push_other i (GetHashCode e.1) (Some e) b d j Hj) as (-> & -> & _). Qed.

Lemma chains_push d ch i e b : chains d ch -> 0 <= i < bucketsLen d ->
  (forall b', 0 <= b' < bucketsLen d -> i ∉ ch b') -> b = GetHashCode e.1 mod bucketsLen d ->
  chains (push i (GetHashCode e.1) (Some e) b d) (<[b := i :: ch b]> ch).
Proof.
  intros H Hi Hni ->. set (b := _ mod _). assert (Hb : 0 <= b < bucketsLen d) by apply bucket_range, H.
  set (d' := push _ _ _ _ _). destruct (push_same i (GetHashCode e.1) (Some e) b d) as (Sh & Sv & Sp & Sn).
  fold d' in Sh, Sv, Sp, Sn.
  assert (Hne : forall b' j, 0 <= b' < bucketsLen d -> j ∈ ch b' -> j <> i) by (intros b' j Hb' Hj ->; by apply (Hni b')).
  split; cbn [bucketsLen]; fold (bucketsLen d).
  - apply H.
  - intros b' Hb'. cbn [buckets d' push]. destruct (decide (b = b')) as [<-|].
    + by rewrite lookup_insert_eq, fn_lookup_insert.
    + rewrite lookup_insert_ne, fn_lookup_insert_ne by done. by apply H.
  - intros b' Hb'. destruct (decide (b = b')) as [<-|Hbb].
    + rewrite fn_lookup_insert. cbn [seg]. rewrite Sn, Sp, (chains_head _ _ H b Hb). do 2 (split; [done|]).
      destruct (chains_head_cases _ _ b H Hb) as [[-> _]|(s & l & x & Ec & Eb & Hs & Ex)]; [done|].
      pose proof (chains_seg _ _ H b Hb) as Hsg. pose proof (chains_nodup _ _ H b Hb) as Hnd. rewrite Ec in *.
      cbn [seg] in *. destruct Hsg as (N1 & _ & N3). apply NoDup_cons in Hnd as [Hsl _].
      assert (Hsi : s <> i) by (apply (Hne b); [done|rewrite Ec; set_solver]).
      destruct (push_other i (GetHashCode e.1) (Some e) b d s Hsi) as (_ & _ & En & _). unfold d' at 1. rewrite En.
      split; [done|]. split; [apply push_prv_head; [lia|done|done|by rewrite Ex]|].
      eapply seg_frame; [|exact N3]. intros j Hj.
      assert (Hji : j <> i) by (apply (Hne b); [done|rewrite Ec; set_solver]).
      split; [by apply push_other|]. apply push_prv; [done|]. rewrite Eb. intros [= ->]. done.
    + rewrite fn_lookup_insert_ne by done. eapply seg_frame; [|by apply H]. intros j Hj.
      assert (Hji : j <> i) by by apply (Hne b').
      split; [by apply push_other|]. apply push_prv; [done|]. intros Eb.
      destruct (chains_head_cases _ _ b H Hb) as [[_ Eb']|(s & l & x & Ec & Eb' & _)]; rewrite Eb in Eb'; injection Eb' as ->.
      * destruct (chains_in _ _ H b' (-1) Hb' Hj) as [? _]. lia.
      * apply Hbb. apply (chains_disjoint _ _ b b' s H Hb Hb'); [rewrite Ec; set_solver|done].
  - intros b' j Hb' Hj.
    assert (Hold : j ∈ ch b' -> 0 <= j < bucketsLen d' /\ exists e0, entry d' j e0 /\ GetHashCode e0.1 mod bucketsLen d' = b').
    { intros Hj'. destruct (chains_in _ _ H b' j Hb' Hj') as (Hr & e' & He & Em). split; [done|].
      exists e'. split; [|done]. apply entry_push; [by apply (Hne b')|done]. }
    destruct (decide (b = b')) as [<-|]; [|rewrite fn_lookup_insert_ne in Hj by done; by apply Hold].
    rewrite fn_lookup_insert in Hj. apply elem_of_cons in Hj as [->|Hj]; [|by apply Hold].
    split; [done|]. exists e. split; [|done]. by split.
  - intros b' Hb'. destruct (decide (b = b')) as [<-|]; [|rewrite fn_lookup_insert_ne by done; by apply H].
    rewrite fn_lookup_insert. constructor; [by apply Hni|by apply H].
Qed.

(** ** Taking an element out of its chain *)

(** [d'] has the elements of [d], with other links. *)
Definition same_elements d d' : Prop :=
  freeList d' = freeList d /\ freeCount d' = freeCount d /\ count d' = count d /\ bucketsLen d' = bucketsLen d /\
  forall i, hsh d' i = hsh d i /\ val d' i = val d i.

Lemma same_entry d d' i e : same_elements d d' -> entry d' i e <-> entry d i e.
Proof. intros (_ & _ & _ & _ & H). unfold entry. by destruct (H i) as [-> ->]. Qed.

Definition cut (idx p n b : Z) d : Dict K V :=
  MkDict (freeList d) (freeCount d) (count d) (bucketsLen d)
    (if p <? 0 then <[b := n]> (buckets d) else buckets d)
    (if p <? 0 then nodes d else alter (set_next n) p (nodes d))
    (if 0 <=? n then alter (set_prev p) n (items d) else items d).

Lemma cut_same_elements idx p n b d : same_elements d (cut idx p n b d).
Proof.
  repeat (split; [done|]). intros i. unfold hsh, val, cut. cbn [nodes items]. split.
  - destruct (_ <? _); [done|]. destruct (decide (p = i)) as [->|]; [|by rewrite lookup_alter_ne].
    rewrite lookup_alter_eq. by destruct (nodes d !! i).
  - destruct (_ <=? _); [|done]. destruct (decide (n = i)) as [->|]; [|by rewrite lookup_alter_ne].
    rewrite lookup_alter_eq. by destruct (items d !! i).
Qed.

(** The new links. *)
Lemma cut_nxt idx p n b d i : nxt (cut idx p n b d) i = if decide (0 <= p /\ i = p) then (fun _ => n) <$> nodes d !! i else nxt d i.
Proof.
  unfold nxt, cut. cbn [nodes]. destruct (Z.ltb_spec p 0).
  - by destruct (decide _) as [[? _]|]; [lia|].
  - destruct (decide _) as [[_ ->]|]; [rewrite lookup_alter_eq; by destruct (nodes d !! p)|].
    rewrite lookup_alter_ne; [done|naive_solver].
Qed.

Lemma cut_prv idx p n b d i : prv (cut idx p n b d) i = if decide (0 <= n /\ i = n) then (fun _ => p) <$> items d !! i else prv d i.
Proof.
  unfold prv, cut. cbn [items]. destruct (Z.leb_spec 0 n).
  - destruct (decide _) as [[_ ->]|]; [rewrite lookup_alter_eq; by destruct (items d !! n)|].
    rewrite lookup_alter_ne; [done|naive_solver].
  - by destruct (decide _) as [[? _]|]; [lia|].
Qed.

Lemma cut_frame idx p n b d i : (0 <= p -> i <> p) -> (0 <= n -> i <> n) ->
  nodes (cut idx p n b d) !! i = nodes d !! i /\ items (cut idx p n b d) !! i = items d !! i.
Proof.
  intros Hp Hn. unfold cut. cbn [nodes items]. split.
  - destruct (Z.ltb_spec p 0); [done|]. apply lookup_alter_ne. intros ->. by apply Hp.
  - destruct (Z.leb_spec 0 n); [|done]. apply lookup_alter_ne. intros ->. by apply Hn.
Qed.

Lemma lastz_in p l : lastz p l = p \/ lastz p l ∈ l.
Proof.
  revert p. induction l as [|i l IH]; intros p; [by left|]. right. cbn. destruct (IH i) as [->|]; set_solver.
Qed.
Lemma hdz_in l q : hdz l q = q \/ hdz l q ∈ l.
Proof. destruct l; [by left|right]. cbn. set_solver. Qed.

Lemma lastz_mem p l : l <> [] -> lastz p l ∈ l.
Proof. destruct l as [|i l]; [done|]. intros _. cbn. destruct (lastz_in i l) as [->|]; set_solver. Qed.
Lemma hdz_mem l q : l <> [] -> hdz l q ∈ l.
Proof. destruct l; [done|]. cbn. set_solver. Qed.

(** A segment whose last link is redirected. *)
Lemma seg_relink_last d d' p l q q' : NoDup l ->
  (forall i, i ∈ l -> prv d' i = prv d i /\ (i <> lastz p l -> nxt d' i = nxt d i)) ->
  (l <> [] -> nxt d' (lastz p l) = Some q') -> seg d p l q -> seg d' p l q'.
Proof.
  revert p. induction l as [|i l IH]; intros p Hnd Hf Hl; cbn [seg]; [done|]. intros (H1 & H2 & H3).
  apply NoDup_cons in Hnd as [Hi Hnd]. cbn [lastz] in *. destruct (Hf i) as [Hp Hn]; [set_solver|].
  assert (Hlast : l <> [] -> i <> lastz i l).
  { intros Hne E. destruct (lastz_in i l) as [El|El]; [|by rewrite <-E in El].
    destruct l as [|j l]; [done|]. cbn in El. destruct (lastz_in j l) as [Ej|Ej]; rewrite El in Ej; set_solver. }
  split; [|split; [by rewrite Hp|]].
  - destruct l as [|j l]; [by apply Hl|]. rewrite Hn by (by apply Hlast). done.
  - apply IH; [done| | |done]; [intros j Hj; apply Hf; set_solver|intros Hne; by apply Hl].
Qed.

(** A segment behind a new first link. *)
Lemma seg_relink_first d d' p p' l q : NoDup l ->
  (forall i, i ∈ l -> nxt d' i = nxt d i /\ (i <> hdz l q -> prv d' i = prv d i)) ->
  (l <> [] -> prv d' (hdz l q) = Some p') -> seg d p l q -> seg d' p' l q.
Proof.
  destruct l as [|i l]; intros Hnd Hf Hl; cbn [seg]; [done|]. intros (H1 & _ & H3). apply NoDup_cons in Hnd as [Hi _].
  destruct (Hf i) as [Hn _]; [set_solver|]. split; [by rewrite Hn|]. split; [by apply Hl|].
  eapply seg_frame; [|exact H3]. intros j Hj. destruct (Hf j) as [? Hp]; [set_solver|]. split; [done|].
  apply Hp. cbn. intros ->. done.
Qed.

Lemma NoDup_mid (l1 l2 : list Z) i : NoDup (l1 ++ i :: l2) ->
  NoDup l1 /\ NoDup l2 /\ (i ∉ l1) /\ (i ∉ l2) /\ forall j, j ∈ l1 -> j ∉ l2.
Proof. intros H. apply NoDup_app in H as (H1 & H2 & H3). apply NoDup_cons in H3 as [H3 H4]. set_solver. Qed.

Section cut.
Context (d : Dict K V) (ch : Z -> list Z) (idx b : Z) (l1 l2 : list Z).
Context (H : chains d ch) (Hb : 0 <= b < bucketsLen d) (Ec : ch b = l1 ++ idx :: l2).
Let p := lastz (-1) l1.
Let n := hdz l2 (-1).
Let d' := cut idx p n b d.

Lemma cut_in i : (i ∈ l1) \/ (i ∈ l2) \/ i = idx -> 0 <= i < bucketsLen d.
Proof. intros Hi. apply (chains_in _ _ H b i Hb). rewrite Ec. set_solver. Qed.

Lemma cut_pred : 0 <= p <-> l1 <> [].
Proof. unfold p. split; [by intros ? ->|]. intros Hne. apply cut_in. left. by apply lastz_mem. Qed.
Lemma cut_succ : 0 <= n <-> l2 <> [].
Proof. unfold n. split; [by intros ? ->|]. intros Hne. apply cut_in. right; left. by apply hdz_mem. Qed.
Lemma cut_pred_in : l1 <> [] -> p ∈ l1.
Proof. apply lastz_mem. Qed.
Lemma cut_succ_in : l2 <> [] -> n ∈ l2.
Proof. apply hdz_mem. Qed.

Lemma cut_links : nxt d idx = Some n /\ prv d idx = Some p /\ is_Some (nodes d !! idx) /\ is_Some (items d !! idx).
Proof.
  pose proof (chains_seg _ _ H b Hb) as Hs. rewrite Ec in Hs. apply seg_app in Hs as [_ (E1 & E2 & _)].
  split; [done|]. split; [done|]. unfold nxt, prv in *.
  split; [by destruct (nodes d !! idx)|by destruct (items d !! idx)].
Qed.

(** Elements outside the chain, and the element itself, are left alone. *)
Lemma cut_others i : i ∉ l1 -> i ∉ l2 -> nodes d' !! i = nodes d !! i /\ items d' !! i = items d !! i.
Proof.
  intros H1 H2. apply cut_frame.
  - intros Hp ->. by apply H1, cut_pred_in, cut_pred.
  - intros Hn ->. by apply H2, cut_succ_in, cut_succ.
Qed.

Lemma cut_seg : seg d' (-1) (l1 ++ l2) (-1).
Proof.
  pose proof (chains_seg _ _ H b Hb) as Hs. pose proof (chains_nodup _ _ H b Hb) as Hnd. rewrite Ec in *.
  apply NoDup_mid in Hnd as (N1 & N2 & Ni1 & Ni2 & N12). apply seg_app in Hs as [S1 (_ & _ & S2)].
  assert (Hsome : forall i, (i ∈ l1) \/ (i ∈ l2) -> is_Some (nodes d !! i) /\ is_Some (items d !! i)).
  { intros i Hi. destruct (chains_in _ _ H b i Hb) as (_ & e & [E1 E2] & _); [rewrite Ec; set_solver|].
    unfold hsh, val in *. split; [by destruct (nodes d !! i)|by destruct (items d !! i)]. }
  apply seg_app. split.
  - eapply seg_relink_last; [done| | |exact S1].
    + intros i Hi. unfold d'. rewrite cut_nxt, cut_prv. split.
      * rewrite decide_False; [done|]. intros [Hn ->]. apply cut_succ, cut_succ_in in Hn. by apply (N12 n).
      * intros Hl. by rewrite decide_False by (intros [_ ->]; done).
    + intros Hne. unfold d'. rewrite cut_nxt, decide_True by (split; [by apply cut_pred|done]).
      destruct (Hsome p) as [[x Ex] _]; [left; by apply cut_pred_in|]. unfold p in Ex. by rewrite Ex.
  - eapply seg_relink_first; [done| | |exact S2].
    + intros i Hi. unfold d'. rewrite cut_nxt, cut_prv. split.
      * rewrite decide_False; [done|]. intros [Hn ->]. apply cut_pred, cut_pred_in in Hn. by apply (N12 p).
      * intros Hl. by rewrite decide_False by (intros [_ ->]; done).
    + intros Hne. unfold d'. rewrite cut_prv, decide_True by (split; [by apply cut_succ|done]).
      destruct (Hsome n) as [_ [x Ex]]; [right; by apply cut_succ_in|]. unfold n in Ex. by rewrite Ex.
Qed.

Lemma chains_cut : chains d' (<[b := l1 ++ l2]> ch).
Proof.
  pose proof (chains_nodup _ _ H b Hb) as Hnd. rewrite Ec in Hnd. pose proof Hnd as Hnd'.
  apply NoDup_mid in Hnd' as (N1 & N2 & Ni1 & Ni2 & N12).
  assert (Hsub : forall b' i, i ∈ (<[b := l1 ++ l2]> ch) b' -> i ∈ ch b').
  { intros b' i. destruct (decide (b = b')) as [<-|]; [rewrite fn_lookup_insert, Ec|by rewrite fn_lookup_insert_ne]. set_solver. }
  split; [apply H| | | |]; change (bucketsLen d') with (bucketsLen d).
  - intros b' Hb'. pose proof (chains_head _ _ H b' Hb') as Hh. unfold d', cut. cbn [buckets].
    destruct (decide (b = b')) as [<-|Hne].
    + rewrite fn_lookup_insert. destruct (Z.ltb_spec p 0) as [Hp|Hp].
      * rewrite lookup_insert_eq. assert (El : l1 = []); [|by rewrite El].
        apply dec_stable. intros Hne. apply cut_pred in Hne. lia.
      * rewrite Hh, Ec. apply cut_pred in Hp. destruct l1; done.
    + rewrite fn_lookup_insert_ne by done. destruct (_ <? _); [by rewrite lookup_insert_ne|done].
  - intros b' Hb'. destruct (decide (b = b')) as [<-|Hne]; [rewrite fn_lookup_insert; apply cut_seg|].
    rewrite fn_lookup_insert_ne by done. eapply seg_frame; [|by apply H]. intros i Hi.
    assert (Hni : i ∉ ch b) by (intros Hi'; by apply Hne, (chains_disjoint _ _ b b' i H)).
    destruct (cut_others i) as [En Ei]; [rewrite Ec in Hni; set_solver|rewrite Ec in Hni; set_solver|].
    unfold nxt, prv. by rewrite En, Ei.
  - intros b' i Hb' Hi. destruct (chains_in _ _ H b' i Hb' (Hsub _ _ Hi)) as (Hr & e & He & Em).
    split; [done|]. exists e. split; [|done]. by apply (same_entry d), He; apply cut_same_elements.
  - intros b' Hb'. destruct (decide (b = b')) as [<-|Hne]; [|rewrite fn_lookup_insert_ne by done; by apply H].
    rewrite fn_lookup_insert. by apply NoDup_app.
Qed.
End cut.
End chains.
