(* ===== verification/DictMap.v ===== *)
(** * A hash table is a finite map

    The operations of [Dict] keep the invariant [wf] and act on the map that
    the table represents as insertion, deletion and lookup do. *)

From Stdlib Require Import ZArith Lia.
From stdpp Require Import functions base numbers list gmap.
From S2P Require Import Prelude Util HashUtils Dict DictChains.
Open Scope Z_scope.

(** Evaluate the array accesses of a call. *)
Ltac dict_run :=
  unfold unlink, link, relink, put_prev, put_next, put_item, put_node, put_bucket, bucket, node, item, bucket_of,
    get, put, modify, demand, assert_, mbind, M_bind, mret, M_ret in *; cbn.

Section table.
Context {K V : Type} `{!EqDecision K} `{!HashFunc K}.
Implicit Types (d : Dict K V) (ch : Z -> list Z) (e : K * V) (l fl : list Z).

(** ** What the operations compute *)

Lemma in_array_true i d : 0 <= i < bucketsLen d -> in_array i d = true.
Proof. unfold in_array. intros. zbool; done. Qed.

Lemma in_array_len i d d' : bucketsLen d' = bucketsLen d -> in_array i d' = in_array i d.
Proof. unfold in_array. by intros ->. Qed.

(** The chain steps of [Add] and [UpdateAt], followed by the new contents. *)
Lemma link_push d ch i e b : chains d ch -> 0 <= b < bucketsLen d -> 0 <= i < bucketsLen d -> i ∉ ch b ->
  (_ ← link i (GetHashCode e.1) b; put_item i (MkData (Some e) (-1))) d =
  Done tt (push i (GetHashCode e.1) (Some e) b d).
Proof.
  intros H Hb Hi Hni. pose proof (in_array_true i d Hi) as Ii. pose proof (in_array_true b d Hb) as Ib.
  destruct (chains_head_cases _ _ b H Hb) as [[_ Es]|(s & l & x & Ec & Es & Hs & Ex)].
  - dict_run. rewrite Es. cbn. rewrite Ii. cbn. unfold in_array in *. cbn. rewrite Ib. cbn. rewrite Ii.
    unfold push, set_items, set_buckets, set_nodes. cbn. by rewrite Es.
  - pose proof (in_array_true s d Hs) as Is.
    dict_run. rewrite Es. cbn. rewrite Ii. cbn. destruct (Z.leb_spec 0 s); [|lia]. cbn. rewrite Ex. cbn.
    unfold in_array in *. cbn. rewrite Is. cbn. rewrite Ib. cbn. rewrite Ii.
    unfold push, set_items, set_buckets, set_nodes. cbn. rewrite Es. cbn [from_option id].
    destruct (Z.leb_spec 0 s); [|lia]. by rewrite (alter_insert_eq _ _ s x Ex).
Qed.

(** One step of the loop of [Reserve]. *)
Lemma relink_push d ch i e : chains d ch -> 0 <= i < bucketsLen d -> entry d i e ->
  i ∉ ch (GetHashCode e.1 mod bucketsLen d) ->
  relink i d = Done tt (push i (GetHashCode e.1) (Some e) (GetHashCode e.1 mod bucketsLen d) d).
Proof.
  intros H Hi [Hh Hv] Hni. set (b := _ mod _) in *. pose proof (chains_len _ _ H) as Hl.
  assert (Hb : 0 <= b < bucketsLen d) by by apply bucket_range.
  pose proof (in_array_true i d Hi) as Ii. pose proof (in_array_true b d Hb) as Ib.
  unfold hsh, val in *. destruct (nodes d !! i) as [nd|] eqn:En; [|done]. injection Hh as Hh.
  destruct (items d !! i) as [[o pr]|] eqn:Ei; [|done]. injection Hv as ->.
  dict_run. rewrite En. cbn. destruct (Z.ltb_spec 0 (bucketsLen d)); [|lia]. cbn. rewrite Hh. fold b.
  destruct (chains_head_cases _ _ b H Hb) as [[_ Es]|(s & l & x & Ec & Es & Hs & Ex)]; rewrite Es; cbn.
  - rewrite Ei. cbn. unfold in_array in *. cbn. rewrite Ii. cbn. rewrite En. cbn. rewrite Ii. cbn. rewrite Ib.
    unfold push, set_items, set_buckets, set_nodes. cbn. by rewrite Es, Hh.
  - pose proof (in_array_true s d Hs) as Is. assert (Hsi : s <> i) by (intros ->; apply Hni; rewrite Ec; set_solver).
    destruct (Z.leb_spec 0 s); [|lia]. cbn. rewrite Ex. cbn. unfold in_array in *. cbn. rewrite Is. cbn.
    rewrite lookup_insert_ne, Ei by done. cbn. rewrite Ii. cbn. rewrite En. cbn. rewrite Ii. cbn. rewrite Ib.
    unfold push, set_items, set_buckets, set_nodes. cbn. rewrite Es. cbn [from_option id].
    destruct (Z.leb_spec 0 s); [|lia]. by rewrite (alter_insert_eq _ _ s x Ex), Hh.
Qed.

Lemma unlink_cut d ch idx b l1 l2 : chains d ch -> 0 <= b < bucketsLen d -> ch b = l1 ++ idx :: l2 ->
  unlink idx d = Done tt (cut idx (lastz (-1) l1) (hdz l2 (-1)) b d).
Proof.
  intros H Hb Ec. destruct (cut_links d ch idx b l1 l2 H Hb Ec) as (En & Ep & [nd Nd] & [it It]).
  destruct (chains_in _ _ H b idx Hb) as (_ & e & [Hh _] & Em); [rewrite Ec; set_solver|].
  unfold nxt, prv, hsh in *. rewrite Nd in *. rewrite It in *. injection En as En. injection Ep as Ep. injection Hh as Hh.
  pose proof (cut_pred d ch idx b l1 l2 H Hb Ec) as Pp. pose proof (cut_succ d ch idx b l1 l2 H Hb Ec) as Pn.
  set (p := lastz (-1) l1) in *. set (n := hdz l2 (-1)) in *.
  assert (Hp : 0 <= p -> exists x, nodes d !! p = Some x /\ in_array p d = true).
  { intros Hp. apply Pp in Hp. destruct (chains_in _ _ H b p Hb) as (Hr & e' & [Hx _] & _).
    - rewrite Ec. apply elem_of_app. left. by apply lastz_mem.
    - unfold hsh in Hx. destruct (nodes d !! p) eqn:E; [|done]. eexists. split; [done|]. by apply in_array_true. }
  assert (Hn : 0 <= n -> exists x, items d !! n = Some x /\ in_array n d = true).
  { intros Hn. apply Pn in Hn. destruct (chains_in _ _ H b n Hb) as (Hr & e' & [_ Hx] & _).
    - rewrite Ec. apply elem_of_app. right. apply elem_of_cons. right. by apply hdz_mem.
    - unfold val in Hx. destruct (items d !! n) eqn:E; [|done]. eexists. split; [done|]. by apply in_array_true. }
  pose proof (in_array_true b d Hb) as Ib. pose proof (chains_len _ _ H) as Hl.
  dict_run. rewrite It. cbn. rewrite Nd. cbn. rewrite Ep, En. unfold cut.
  destruct (Z.ltb_spec p 0) as [P|P]; cbn.
  - destruct (Z.ltb_spec 0 (bucketsLen d)); [|lia]. cbn. rewrite Hh, Em, Ib. cbn.
    destruct (Z.leb_spec 0 n) as [N|N]; [|done]. destruct (Hn N) as (y & Ey & Iy).
    cbn. rewrite Ey. cbn. unfold in_array in *. cbn. rewrite Iy. by rewrite (alter_insert_eq _ _ n y Ey).
  - destruct (Hp P) as (x & Ex & Ix). rewrite Ex. cbn. rewrite Ix. cbn.
    rewrite (alter_insert_eq _ _ p x Ex). destruct (Z.leb_spec 0 n) as [N|N]; [|done]. destruct (Hn N) as (y & Ey & Iy).
    cbn. rewrite Ey. cbn. unfold in_array in *. cbn. rewrite Iy. by rewrite (alter_insert_eq _ _ n y Ey).
Qed.

(** ** The invariant *)

(** Element [i] is in a chain; the free list from [i] on is [l]. *)
Definition linked d ch (i : Z) : Prop := exists b, 0 <= b < bucketsLen d /\ i ∈ ch b.

Fixpoint free_list d l (i : Z) : Prop :=
  match l with
  | [] => i = -1
  | j :: l => i = j /\ 0 <= j < bucketsLen d /\ items d !! j = Some (MkData None (-2)) /\
      exists nd, nodes d !! j = Some nd /\ free_list d l (next nd)
  end.

(** The elements below [count] are in a chain, free, or on the way from one to
    the other ([hole]). *)
Record wf d ch fl (hole : list Z) : Prop := {
  wf_chains : chains d ch;
  wf_count : 0 <= count d <= bucketsLen d;
  wf_max : bucketsLen d < 2 ^ 31;
  wf_free : free_list d fl (freeList d);
  wf_free_nodup : NoDup fl;
  wf_free_count : freeCount d = zlen fl;
  wf_cover i : 0 <= i < count d <-> i ∈ hole \/ (i ∈ fl) \/ linked d ch i;
  wf_hole i : i ∈ hole -> (i ∉ fl) /\ ~ linked d ch i;
  wf_uniq i j e e' : linked d ch i -> linked d ch j -> entry d i e -> entry d j e' -> e.1 = e'.1 -> i = j
}.

Lemma linked_entry d ch fl hole i : wf d ch fl hole -> linked d ch i -> exists e, entry d i e.
Proof. intros H (b & Hb & Hi). destruct (chains_in _ _ (wf_chains _ _ _ _ H) b i Hb Hi) as (_ & e & He & _). eauto. Qed.

Lemma linked_bucket d ch i e : chains d ch -> linked d ch i -> entry d i e -> i ∈ ch (GetHashCode e.1 mod bucketsLen d).
Proof.
  intros H (b & Hb & Hi) He. destruct (chains_in _ _ H b i Hb Hi) as (_ & e' & He' & Em).
  rewrite (entry_inj _ _ _ _ He He'). by rewrite Em.
Qed.

Lemma free_list_in d l i j : free_list d l i -> j ∈ l -> 0 <= j < bucketsLen d /\ items d !! j = Some (MkData None (-2)) /\ is_Some (nodes d !! j).
Proof.
  revert i. induction l as [|x l IH]; intros i; cbn; [set_solver|]. intros (-> & Hr & Hi & nd & Hn & Hl) Hj.
  apply elem_of_cons in Hj as [->|Hj]; [by rewrite Hi, Hn|by eapply IH].
Qed.

Lemma free_list_frame d d' l i : bucketsLen d' = bucketsLen d ->
  (forall j, j ∈ l -> nodes d' !! j = nodes d !! j /\ items d' !! j = items d !! j) -> free_list d l i -> free_list d' l i.
Proof.
  intros Hl. revert i. induction l as [|x l IH]; intros i Hf; cbn; [done|]. intros (-> & Hr & Hi & nd & Hn & Hl').
  destruct (Hf x) as [E1 E2]; [set_solver|]. rewrite E1, E2, Hl. split; [done|]. split; [done|]. split; [done|].
  exists nd. split; [done|]. apply IH; [set_solver|done].
Qed.

Lemma free_not_linked d ch l i j : chains d ch -> free_list d l i -> j ∈ l -> ~ linked d ch j.
Proof.
  intros H Hf Hj (b & Hb & Hi). destruct (free_list_in _ _ _ _ Hf Hj) as (_ & Ei & _).
  destruct (chains_in _ _ H b j Hb Hi) as (_ & e & [_ Hv] & _). unfold val in Hv. by rewrite Ei in Hv.
Qed.

(** ** Find *)

Lemma find_loop_spec d p l k fuel : seg d p l (-1) -> (forall i, i ∈ l -> 0 <= i /\ exists e, entry d i e) -> (length l < fuel)%nat ->
  exists i, find_loop fuel (GetHashCode k) k (hdz l (-1)) d = Done i d /\
    ((i = -1 /\ forall j e, j ∈ l -> entry d j e -> e.1 <> k) \/ (i ∈ l /\ 0 <= i /\ exists v, entry d i (k, v))).
Proof.
  revert p fuel. induction l as [|i l IH]; intros p [|fuel] Hs Hin Hf; cbn [length] in Hf; try lia; cbn [find_loop hdz head from_option default].
  - cbn. exists (-1). split; [done|]. left. set_solver.
  - destruct Hs as (En & Ep & Hs). destruct (Hin i) as (Hi & e & [Hh Hv]); [set_solver|].
    destruct (IH i fuel Hs) as (r & Er & Hr); [set_solver|lia|]. unfold id. destruct (Z.ltb_spec i 0); [lia|].
    unfold nxt, hsh, val in *. destruct (nodes d !! i) as [nd|] eqn:Nd; [|done]. destruct (items d !! i) as [[o pr]|] eqn:It; [|done].
    injection En as En. injection Hh as Hh. injection Hv as ->.
    assert (Hcont : find_loop fuel (GetHashCode k) k (next nd) d = Done r d) by by rewrite En.
    assert (Hgo : e.1 <> k -> (r = -1 /\ (forall j e, j ∈ i :: l -> entry d j e -> e.1 <> k)) \/ (r ∈ i :: l /\ 0 <= r /\ exists v, entry d r (k, v))).
    { intros Hk. destruct Hr as [[-> Hr]|(Hr & ? & ?)]; [left|right; set_solver]. split; [done|].
      intros j e' Hj He'. apply elem_of_cons in Hj as [->|Hj]; [|by eapply Hr].
      assert (He : entry d i e) by (unfold entry, hsh, val; rewrite Nd, It; cbn; by rewrite Hh). by rewrite (entry_inj _ _ _ _ He' He). }
    dict_run. rewrite Nd. cbn. destruct (Z.eqb_spec (hashCode nd) (GetHashCode k)) as [Eh|Eh].
    + rewrite It. cbn. destruct (decide (e.1 = k)) as [<-|Hk]; [|exists r; split; [done|by apply Hgo]].
      exists i. split; [done|]. right. split; [set_solver|]. split; [done|]. exists e.2. destruct e as [k v]. cbn in *.
      unfold entry, hsh, val. rewrite Nd, It. cbn. by rewrite Hh.
    + exists r. split; [done|]. apply Hgo. intros E. apply Eh. by rewrite Hh, E.
Qed.

Lemma NoDup_below (l : list Z) n : NoDup l -> (forall i, i ∈ l -> 0 <= i < n) -> (length l <= Z.to_nat n)%nat.
Proof.
  intros Hnd Hin. replace (Z.to_nat n) with (length (seqZ 0 n)) by (rewrite length_seqZ; lia).
  apply submseteq_length, NoDup_submseteq; [done|]. intros i Hi. apply elem_of_seqZ. apply Hin in Hi. lia.
Qed.

Lemma find_from_spec d ch fl hole k b : wf d ch fl hole -> b = GetHashCode k mod bucketsLen d ->
  exists i, find_from (GetHashCode k) k (hdz (ch b) (-1)) d = Done i d /\
    ((i = -1 /\ forall j e, linked d ch j -> entry d j e -> e.1 <> k) \/ (linked d ch i /\ 0 <= i /\ exists v, entry d i (k, v))).
Proof.
  intros H ->. set (b := _ mod _). pose proof (wf_chains _ _ _ _ H) as Hc.
  assert (Hb : 0 <= b < bucketsLen d) by apply bucket_range, Hc. unfold find_from.
  destruct (find_loop_spec d (-1) (ch b) k (S (Z.to_nat (count d)))) as (i & Ei & Hi).
  - by apply Hc.
  - intros i Hi. destruct (chains_in _ _ Hc b i Hb Hi) as ([? _] & e & He & _). eauto.
  - apply le_n_S, NoDup_below; [by apply Hc|]. intros i Hi. apply (wf_cover _ _ _ _ H). right; right. by exists b.
  - exists i. split; [done|]. destruct Hi as [[-> Hi]|(Hi & Hr)]; [left|right; by split; [exists b|]].
    split; [done|]. intros j e Hj He E. apply (Hi j e); [|done|done].
    pose proof (linked_bucket _ _ _ _ Hc Hj He) as Hin. by rewrite E in Hin.
Qed.

Lemma bucket_of_ok d ch h : chains d ch -> bucket_of h d = Done (h mod bucketsLen d) d.
Proof. intros H. pose proof (chains_len _ _ H). dict_run. by destruct (Z.ltb_spec 0 (bucketsLen d)); [|lia]. Qed.

Lemma bucket_ok d ch h : chains d ch -> bucket (h mod bucketsLen d) d = Done (hdz (ch (h mod bucketsLen d)) (-1)) d.
Proof. intros H. dict_run. by rewrite (chains_head _ _ H) by apply bucket_range, H. Qed.

Lemma Find_spec d ch fl hole k : wf d ch fl hole ->
  exists i, Find k d = Done i d /\
    ((i = -1 /\ forall j e, linked d ch j -> entry d j e -> e.1 <> k) \/ (linked d ch i /\ 0 <= i /\ exists v, entry d i (k, v))).
Proof.
  intros H. destruct (find_from_spec d ch fl hole k _ H eq_refl) as (i & Ei & Hi). exists i. split; [|done].
  pose proof (wf_chains _ _ _ _ H) as Hc. unfold Find.
  rewrite (bind_done _ _ _ _ _ (bucket_of_ok _ _ _ Hc)), (bind_done _ _ _ _ _ (bucket_ok _ _ _ Hc)). done.
Qed.

(** ** Keeping the invariant *)

Lemma linked_push d ch i b j : 0 <= b < bucketsLen d ->
  linked d (<[b := i :: ch b]> ch) j <-> j = i \/ linked d ch j.
Proof.
  intros Hb. unfold linked. split.
  - intros (b' & Hb' & Hj). destruct (decide (b = b')) as [<-|Hne]; [|rewrite fn_lookup_insert_ne in Hj by done; eauto].
    rewrite fn_lookup_insert in Hj. apply elem_of_cons in Hj as [->|Hj]; [by left|right; eauto].
  - intros [->|(b' & Hb' & Hj)]; [exists b; rewrite fn_lookup_insert; set_solver|].
    exists b'. split; [done|]. destruct (decide (b = b')) as [<-|Hne]; [rewrite fn_lookup_insert; set_solver|by rewrite fn_lookup_insert_ne].
Qed.

Lemma linked_cut d ch b l1 l2 i j : chains d ch -> 0 <= b < bucketsLen d -> ch b = l1 ++ i :: l2 ->
  linked d (<[b := l1 ++ l2]> ch) j <-> j <> i /\ linked d ch j.
Proof.
  intros H Hb Ec. pose proof (chains_nodup _ _ H b Hb) as Hnd. rewrite Ec in Hnd. apply NoDup_mid in Hnd as (_ & _ & N1 & N2 & _).
  unfold linked. split.
  - intros (b' & Hb' & Hj). destruct (decide (b = b')) as [<-|Hne].
    + rewrite fn_lookup_insert in Hj. split; [set_solver|]. exists b. rewrite Ec. set_solver.
    + rewrite fn_lookup_insert_ne in Hj by done. split; [|eauto]. intros ->. apply Hne.
      apply (chains_disjoint _ _ b b' i H Hb Hb'); [rewrite Ec; set_solver|done].
  - intros (Hji & b' & Hb' & Hj). exists b'. split; [done|]. destruct (decide (b = b')) as [<-|Hne].
    + rewrite fn_lookup_insert. rewrite Ec in Hj. set_solver.
    + by rewrite fn_lookup_insert_ne.
Qed.

(** [m] is what the elements of the chains hold. *)
Definition holds `{!Countable K} d ch (m : gmap K V) : Prop :=
  forall k v, m !! k = Some v <-> exists i, linked d ch i /\ entry d i (k, v).

Lemma wf_push d ch fl i e : wf d ch fl [i] -> 0 <= i < bucketsLen d ->
  (forall j e', linked d ch j -> entry d j e' -> e'.1 <> e.1) ->
  let b := GetHashCode e.1 mod bucketsLen d in
  wf (push i (GetHashCode e.1) (Some e) b d) (<[b := i :: ch b]> ch) fl [].
Proof.
  intros H Hi Hk b. set (d' := push _ _ _ _ _). pose proof (wf_chains _ _ _ _ H) as Hc.
  assert (Hb : 0 <= b < bucketsLen d) by apply bucket_range, Hc.
  destruct (wf_hole _ _ _ _ H i) as [Hif Hil]; [set_solver|].
  assert (Hlk : forall j, linked d' (<[b := i :: ch b]> ch) j <-> j = i \/ linked d ch j) by (intros j; by apply (linked_push d)).
  assert (He : entry d' i e) by (by destruct (push_same i (GetHashCode e.1) (Some e) b d) as (? & ? & _)).
  split; try apply H.
  - apply chains_push; [done|done| |done]. intros b' Hb' Hin. apply Hil. by exists b'.
  - apply (free_list_frame d); [done| |apply H]. intros j Hj.
    apply (push_other i (GetHashCode e.1) (Some e) b d j); [intros ->; done|]. intros Eb.
    apply (free_not_linked _ _ _ _ _ Hc (wf_free _ _ _ _ H) Hj). exists b. split; [done|].
    destruct (chains_head_cases _ _ b Hc Hb) as [[_ Eb']|(s & l & x & Ec & Eb' & _)]; rewrite Eb in Eb'; injection Eb' as ->.
    + destruct (free_list_in _ _ _ _ (wf_free _ _ _ _ H) Hj) as [? _]. lia.
    + rewrite Ec. set_solver.
  - intros j. change (count d') with (count d). rewrite (wf_cover _ _ _ _ H), Hlk. set_solver.
  - set_solver.
  - intros j1 j2 e1 e2 H1 H2 E1 E2 E. apply Hlk in H1, H2.
    assert (Hold : forall j e', j <> i -> entry d' j e' -> entry d j e') by (intros j e' Hj; by apply entry_push).
    destruct (decide (j1 = i)) as [->|D1], (decide (j2 = i)) as [->|D2]; [done| | |].
    + destruct H2 as [|H2]; [done|]. rewrite (entry_inj _ _ _ _ E1 He) in E. by destruct (Hk j2 e2 H2 (Hold _ _ D2 E2)).
    + destruct H1 as [|H1]; [done|]. rewrite (entry_inj _ _ _ _ E2 He) in E. by destruct (Hk j1 e1 H1 (Hold _ _ D1 E1)).
    + destruct H1 as [|H1], H2 as [|H2]; try done. apply (wf_uniq _ _ _ _ H j1 j2 e1 e2); auto.
Qed.

Lemma holds_push `{!Countable K} d ch i e m : chains d ch -> ~ linked d ch i ->
  (forall j e', linked d ch j -> entry d j e' -> e'.1 <> e.1) ->
  let b := GetHashCode e.1 mod bucketsLen d in
  holds d ch m -> holds (push i (GetHashCode e.1) (Some e) b d) (<[b := i :: ch b]> ch) (<[e.1 := e.2]> m).
Proof.
  intros Hc Hi Hk b Hm k v. assert (Hb : 0 <= b < bucketsLen d) by apply bucket_range, Hc. set (d' := push _ _ _ _ _).
  assert (Hlk : forall j, linked d' (<[b := i :: ch b]> ch) j <-> j = i \/ linked d ch j) by (intros j; by apply (linked_push d)).
  assert (He : entry d' i e) by (by destruct (push_same i (GetHashCode e.1) (Some e) b d) as (? & ? & _)).
  split.
  - destruct (decide (e.1 = k)) as [<-|Hne].
    + rewrite lookup_insert_eq. intros [= <-]. exists i. rewrite Hlk, <-surjective_pairing. auto.
    + rewrite lookup_insert_ne by done. intros E. apply Hm in E as (j & Hj & Ej). exists j. rewrite Hlk. split; [auto|].
      apply entry_push; [|done]. by intros ->.
  - intros (j & Hj & Ej). destruct (decide (j = i)) as [->|Hji].
    + rewrite (entry_inj _ _ _ _ He Ej). cbn. by rewrite lookup_insert_eq.
    + apply Hlk in Hj as [|Hj]; [done|]. apply entry_push in Ej; [|done].
      rewrite lookup_insert_ne; [apply Hm; eauto|]. intros <-. by destruct (Hk j _ Hj Ej).
Qed.

(** Take a linked element out of its chain. *)
Lemma wf_unlink `{!Countable K} d ch fl i : wf d ch fl [] -> linked d ch i ->
  exists d' ch', unlink i d = Done tt d' /\ wf d' ch' fl [i] /\ same_elements d d' /\
    nodes d' !! i = nodes d !! i /\ items d' !! i = items d !! i /\
    (forall j, linked d' ch' j <-> j <> i /\ linked d ch j) /\
    (forall m e, holds d ch m -> entry d i e -> holds d' ch' (delete e.1 m)).
Proof.
  intros H Hl. pose proof (wf_chains _ _ _ _ H) as Hc. pose proof Hl as (b & Hb & Hi).
  apply list_elem_of_split in Hi as (l1 & l2 & Ec).
  set (d' := cut i (lastz (-1) l1) (hdz l2 (-1)) b d). exists d', (<[b := l1 ++ l2]> ch).
  assert (Hs : same_elements d d') by apply cut_same_elements. pose proof Hs as (_ & _ & Ect & Elen & _).
  assert (Hlk : forall j, linked d' (<[b := l1 ++ l2]> ch) j <-> j <> i /\ linked d ch j) by (intros j; by apply (linked_cut d)).
  assert (Hout : forall j, j ∉ l1 -> j ∉ l2 -> nodes d' !! j = nodes d !! j /\ items d' !! j = items d !! j)
    by (by apply (cut_others d ch i b l1 l2)).
  pose proof (chains_nodup _ _ Hc b Hb) as Hnd. rewrite Ec in Hnd. apply NoDup_mid in Hnd as (_ & _ & N1 & N2 & _).
  destruct (Hout i N1 N2) as [On Oi].
  split; [by apply (unlink_cut d ch)|]. split; [|split; [done|split; [done|split; [done|split; [done|]]]]].
  - split; try apply H; [by apply (chains_cut d ch i b l1 l2)| | | |].
    + apply (free_list_frame d); [done| |apply H]. intros j Hj.
      assert (j ∉ ch b) as Hjb by (intros Hjb; apply (free_not_linked _ _ _ _ _ Hc (wf_free _ _ _ _ H) Hj); by exists b).
      rewrite Ec in Hjb. apply Hout; set_solver.
    + intros j. rewrite Ect, (wf_cover _ _ _ _ H), Hlk. destruct (decide (j = i)); set_solver.
    + intros j ->%list_elem_of_singleton. rewrite Hlk. split; [|naive_solver]. intros Hj.
      by apply (free_not_linked _ _ _ _ _ Hc (wf_free _ _ _ _ H) Hj).
    + intros j1 j2 e1 e2 H1 H2 E1 E2. apply Hlk in H1 as [_ H1], H2 as [_ H2].
      apply (wf_uniq _ _ _ _ H); [done|done| |]; by apply (same_entry d d').
  - intros m e Hm He k v. split.
    + intros [Hk E]%lookup_delete_Some. apply Hm in E as (j & Hj & Ej). exists j. rewrite Hlk. split; [split; [|done]|by apply (same_entry d d')].
      intros ->. rewrite (entry_inj _ _ _ _ He Ej) in Hk. done.
    + intros (j & Hj & Ej). apply Hlk in Hj as [Hji Hj]. apply (same_entry d d') in Ej; [|done].
      apply lookup_delete_Some. split; [|apply Hm; eauto]. intros E. by apply Hji, (wf_uniq _ _ _ _ H j i _ _ Hj Hl Ej He).
Qed.

(** Put an element that is in no chain on the free list. *)
Lemma wf_release d ch fl i nd : wf d ch fl [i] -> 0 <= i < bucketsLen d -> nodes d !! i = Some nd ->
  wf (MkDict i (freeCount d + 1) (count d) (bucketsLen d) (buckets d) (<[i := MkNode (hashCode nd) (freeList d)]> (nodes d))
        (<[i := MkData None (-2)]> (items d))) ch (i :: fl) [].
Proof.
  intros H Hi En. set (d' := MkDict _ _ _ _ _ _ _). pose proof (wf_chains _ _ _ _ H) as Hc.
  destruct (wf_hole _ _ _ _ H i) as [Hif Hil]; [set_solver|].
  assert (Hout : forall j, j <> i -> nodes d' !! j = nodes d !! j /\ items d' !! j = items d !! j)
    by (intros j Hj; unfold d'; cbn; by rewrite !lookup_insert_ne).
  assert (Hent : forall j e, linked d ch j -> entry d' j e <-> entry d j e).
  { intros j e Hj. assert (Hji : j <> i) by (by intros ->). destruct (Hout j Hji) as [E1 E2]. unfold entry, hsh, val. by rewrite E1, E2. }
  split; try apply H; change (bucketsLen d') with (bucketsLen d); cbn [freeList freeCount count d'].
  - split; try apply Hc; change (bucketsLen d') with (bucketsLen d).
    + intros b Hb. apply (seg_frame d); [|by apply Hc]. intros j Hj.
      assert (Hji : j <> i) by (intros ->; apply Hil; by exists b). destruct (Hout j Hji) as [E1 E2]. unfold nxt, prv. by rewrite E1, E2.
    + intros b j Hb Hj. destruct (chains_in _ _ Hc b j Hb Hj) as (Hr & e & He & Em). split; [done|]. exists e.
      split; [|done]. apply Hent; [by exists b|done].
  - cbn [free_list]. split; [done|]. split; [done|]. unfold d' at 1 2. cbn [items nodes]. rewrite !lookup_insert_eq. split; [done|].
    eexists. split; [done|]. cbn [next]. apply (free_list_frame d); [done| |apply H]. intros j Hj. apply Hout. by intros ->.
  - constructor; [done|apply H].
  - rewrite zlen_cons, (wf_free_count _ _ _ _ H). lia.
  - intros j. rewrite (wf_cover _ _ _ _ H). unfold linked. cbn. set_solver.
  - set_solver.
  - intros j1 j2 e1 e2 H1 H2 E1 E2. apply Hent in E1; [|done]. apply Hent in E2; [|done]. by apply (wf_uniq _ _ _ _ H).
Qed.
End table.
