(* ===== verification/DictOps.v ===== *)
(** * The operations of the hash table

    Growth, [Add], [Remove], [Update] and [Clear] on the map a table
    represents ([repr]), and the refinement of a whole session of calls. *)

From Stdlib Require Import ZArith Lia.
From stdpp Require Import functions base numbers list gmap.
From S2P Require Import Prelude Util HashUtils Dict DictChains DictMap.
Open Scope Z_scope.

Section operations.
Context {K V : Type} `{Countable K} `{!HashFunc K} (dataSize : Z) (vdefault : V).
Implicit Types (d : Dict K V) (ch : Z -> list Z) (e : K * V) (l fl : list Z) (m : gmap K V).

Definition repr d m : Prop := exists ch fl, wf d ch fl [] /\ holds d ch m.

Lemma blank_buckets_lookup n b : 0 <= b < n -> blank_buckets n !! b = Some (-1).
Proof. intros Hb. unfold blank_buckets. apply lookup_gset_to_gmap_Some. split; [|done]. apply elem_of_list_to_set, elem_of_seqZ. lia. Qed.

(** Chains of a table whose buckets have just been cleared. *)
Lemma chains_blank d : 0 < bucketsLen d -> buckets d = blank_buckets (bucketsLen d) -> chains d (fun _ => []).
Proof.
  intros Hl Eb. split; [done| | | |].
  - intros b Hb. rewrite Eb. by apply blank_buckets_lookup.
  - done.
  - set_solver.
  - intros. constructor.
Qed.

(** The empty table, in memory that may have been used before. *)
Lemma repr_blank d : 0 < bucketsLen d < 2 ^ 31 -> buckets d = blank_buckets (bucketsLen d) ->
  count d = 0 -> freeCount d = 0 -> freeList d = -1 -> repr d ∅.
Proof.
  intros Hl Eb Ec Ef El. assert (Hno : forall i, ~ linked d (fun _ => []) i) by (intros i (b & _ & Hi); set_solver).
  exists (fun _ => []), []. split.
  - split; try lia; try done.
    + apply chains_blank; [lia|done].
    + constructor.
    + intros i. rewrite Ec. split; [lia|]. intros [?|[?|?]]; [set_solver|set_solver|]. by destruct (Hno i).
    + set_solver.
    + intros i j e e' Hi. by destruct (Hno i).
  - intros k v. rewrite lookup_empty. split; [done|]. intros (i & Hi & _). by destruct (Hno i).
Qed.

(** [count] and the free list are no part of the chains. *)
Lemma chains_counts d ch fr fc c : chains d ch ->
  chains (MkDict fr fc c (bucketsLen d) (buckets d) (nodes d) (items d)) ch.
Proof.
  intros Hc. split; try apply Hc. intros b Hb. apply (seg_frame d); [done|by apply Hc].
Qed.

(** ** Growth *)

Lemma relink_all_spec d0 (k : nat) : 0 < bucketsLen d0 -> buckets d0 = blank_buckets (bucketsLen d0) ->
  Z.of_nat k <= bucketsLen d0 -> (forall i, 0 <= i < Z.of_nat k -> exists e, entry d0 i e) ->
  exists d ch, relink_all (seqZ 0 (Z.of_nat k)) d0 = Done tt d /\ chains d ch /\ same_elements d0 d /\
    forall i, linked d ch i <-> 0 <= i < Z.of_nat k.
Proof.
  intros Hl Eb. assert (Happ : forall l l' d, relink_all (l ++ l') d = (_ ← relink_all l; relink_all l') d).
  { induction l as [|i l IH]; intros l' d; [done|]. cbn [app relink_all]. rewrite bind_assoc. apply bind_ext; [done|]. intros. apply IH. }
  induction k as [|k IH]; intros Hk Hent.
  - exists d0, (fun _ => []). split; [done|]. split; [by apply chains_blank|]. split; [by repeat split|].
    intros i. split; [|lia]. intros (b & _ & Hi). set_solver.
  - destruct IH as (d & ch & Er & Hc & Hs & Hlk); [lia|intros; apply Hent; lia|]. pose proof Hs as (S1 & S2 & S3 & S4 & S5).
    destruct (Hent (Z.of_nat k)) as (e & He); [lia|]. apply (same_entry d0 d) in He; [|done].
    assert (Hno : ~ linked d ch (Z.of_nat k)) by (rewrite Hlk; lia).
    assert (Hb : 0 <= GetHashCode e.1 mod bucketsLen d < bucketsLen d) by (apply bucket_range, Hc).
    replace (Z.of_nat (S k)) with (Z.of_nat k + 1) by lia. rewrite seqZ_app, Happ by lia.
    rewrite (bind_done _ _ _ _ _ Er). replace (seqZ (0 + Z.of_nat k) 1) with [Z.of_nat k] by done. cbn [relink_all].
    erewrite bind_done; [|apply (relink_push d ch); [done|lia|done|intros Hi; apply Hno; by exists (GetHashCode e.1 mod bucketsLen d)]].
    eexists _, _. split; [done|]. split; [apply chains_push; [done|lia| |done]|].
    { intros b' Hb' Hi. apply Hno. by exists b'. }
    split.
    + repeat (split; [done|]). intros i. destruct (decide (i = Z.of_nat k)) as [->|Hi].
      * destruct (push_same (Z.of_nat k) (GetHashCode e.1) (Some e) (GetHashCode e.1 mod bucketsLen d) d) as (-> & -> & _).
        destruct He as [<- <-]. apply S5.
      * destruct (push_other (Z.of_nat k) (GetHashCode e.1) (Some e) (GetHashCode e.1 mod bucketsLen d) d i Hi) as (-> & -> & _). apply S5.
    + intros i. trans (i = Z.of_nat k \/ linked d ch i); [by apply (linked_push d)|]. rewrite Hlk. lia.
Qed.

(** Element [i] is in use and holds [e]. *)
Definition used d ch (i : Z) e : Prop := linked d ch i /\ entry d i e.

Lemma holds_same d ch d' ch' m : (forall i e, used d' ch' i e <-> used d ch i e) -> holds d ch m -> holds d' ch' m.
Proof. intros Hu Hm k v. rewrite (Hm k v). split; intros (i & Hi); exists i; by apply (Hu i (k, v)). Qed.

(** A full table without free elements grows. *)
Lemma Dict_Reserve_spec d ch n : wf d ch [] [] -> count d = bucketsLen d -> GetPrime (count d * 2) dataSize = Some n ->
  count d < n < 2 ^ 31 ->
  exists d' ch', Reserve dataSize 0 d = Done tt d' /\ wf d' ch' [] [] /\ count d' = count d /\ count d < bucketsLen d' /\
    freeCount d' = freeCount d /\ forall i e, used d' ch' i e <-> used d ch i e.
Proof.
  intros Hw Hfull En Hn. pose proof (wf_chains _ _ _ _ Hw) as Hc. pose proof (chains_len _ _ Hc) as Hl.
  assert (Hlk : forall i, linked d ch i <-> 0 <= i < count d) by (intros i; rewrite (wf_cover _ _ _ _ Hw); set_solver).
  set (d0 := set_buckets n (blank_buckets n) d).
  destruct (relink_all_spec d0 (Z.to_nat (count d))) as (d' & ch' & Er & Hc' & Hs & Hlk'); [cbn; lia|done|cbn; lia| |].
  { intros i Hi. destruct (linked_entry _ _ _ _ i Hw) as (e & He); [apply Hlk; lia|]. by exists e. }
  rewrite Z2Nat.id in * by lia. pose proof Hs as (S1 & S2 & S3 & S4 & S5). cbn in S1, S2, S3, S4.
  assert (Hent : forall i e, entry d' i e <-> entry d i e) by (intros i e; by apply (same_entry d0 d')).
  exists d', ch'. split.
  - unfold Reserve. unfold mbind at 1, M_bind at 1, get. cbn [assert_]. rewrite (proj2 (Z.eqb_eq _ _) Hfull), orb_true_r.
    unfold assert_, demand, put, mbind, M_bind, mret, M_ret. cbn [Z.eqb]. rewrite En.
    destruct (Z.leb_spec (count d * 2) (bucketsLen d)); [lia|]. exact Er.
  - split; [|split; [done|split; [lia|split; [done|]]]].
    + split; try done; try lia.
      * rewrite S1. apply Hw.
      * constructor.
      * rewrite S2. apply Hw.
      * intros i. rewrite S3, Hlk'. set_solver.
      * set_solver.
      * intros i j e e' Hi Hj Ei Ej. apply (wf_uniq _ _ _ _ Hw); [by apply Hlk, Hlk'|by apply Hlk, Hlk'|by apply Hent|by apply Hent].
    + intros i e. unfold used. by rewrite Hent, Hlk, Hlk'.
Qed.

(** The table can take one more element: it has room, or the next size is larger. *)
Definition can_grow d : Prop :=
  count d = bucketsLen d -> freeCount d = 0 -> exists n, GetPrime (count d * 2) dataSize = Some n /\ count d < n < 2 ^ 31.

(** An element for a new key: off the free list, or at the end of the arrays. *)
Lemma take_index_spec d ch fl : wf d ch fl [] -> can_grow d ->
  let i := hdz fl (count d) in
  exists d' ch', take_index dataSize d = Done i d' /\ wf d' ch' (tail fl) [i] /\ 0 <= i < bucketsLen d' /\
    count d' = (if fl is [] then count d + 1 else count d) /\ (forall j e, used d' ch' j e <-> used d ch j e).
Proof.
  intros Hw Hg. cbv zeta. unfold take_index, mbind at 1, M_bind at 1, get. pose proof (wf_chains _ _ _ _ Hw) as Hc.
  pose proof (wf_free _ _ _ _ Hw) as Hf. pose proof (wf_free_count _ _ _ _ Hw) as Hfc.
  destruct fl as [|i fl]; cbn [hdz head from_option default tail].
  - rewrite zlen_nil in Hfc. rewrite Hfc. cbn [Z.ltb Z.compare].
    assert (Hgrow : exists d1 ch1, (if count d =? bucketsLen d then Reserve dataSize 0 else mret tt) d = Done tt d1 /\
      wf d1 ch1 [] [] /\ count d1 = count d /\ count d < bucketsLen d1 /\ freeCount d1 = freeCount d /\ forall j e, used d1 ch1 j e <-> used d ch j e).
    { destruct (Z.eqb_spec (count d) (bucketsLen d)) as [E|E].
      - destruct (Hg E Hfc) as (n & En & Hn). by apply (Dict_Reserve_spec d ch n).
      - exists d, ch. pose proof (wf_count _ _ _ _ Hw).
        split; [done|]. split; [done|]. split; [done|]. split; [lia|done]. }
    destruct Hgrow as (d1 & ch1 & Eg & Hw1 & Ec1 & Hl1 & Ef1 & Hm1). rewrite (bind_done _ _ _ _ _ Eg).
    exists (set_count (count d1 + 1) d1), ch1. pose proof (wf_count _ _ _ _ Hw) as Hcnt.
    split; [by rewrite <-Ec1|]. split; [|split; [cbn; lia|split; [cbn; by rewrite Ec1|done]]].
    pose proof (wf_cover _ _ _ _ Hw1) as Hcov. rewrite Ec1 in Hcov.
    split; try apply Hw1.
    + apply chains_counts, Hw1.
    + cbn. lia.
    + intros i. change (linked (set_count (count d1 + 1) d1) ch1 i) with (linked d1 ch1 i). cbn [count set_count].
      rewrite list_elem_of_singleton, Ec1. specialize (Hcov i). split.
      * intros Hi. destruct (decide (i = count d)); [by left|]. assert (0 <= i < count d) as Hi' by lia.
        apply Hcov in Hi' as [?|[?|?]]; [set_solver|set_solver|auto].
      * intros [->|[?|Hi]]; [lia|set_solver|]. assert (0 <= i < count d) by tauto. lia.
    + intros i ->%list_elem_of_singleton. split; [set_solver|]. intros Hi.
      assert (0 <= count d < count d) by (apply Hcov; auto). lia.
  - rewrite zlen_cons in Hfc. pose proof (zlen_nonneg fl). destruct (Z.ltb_spec 0 (freeCount d)); [|lia].
    destruct Hf as (Ei & Hi & Eit & nd & End & Hf). unfold node, modify, get, demand, mbind, M_bind, mret, M_ret.
    rewrite Ei, End. exists (set_free (next nd) (freeCount d - 1) d), ch. split; [done|].
    split; [|done].
    pose proof (wf_free_nodup _ _ _ _ Hw) as [Hif Hnd]%NoDup_cons.
    split; try apply Hw; try done; cbn [freeCount set_free].
    + by apply chains_counts.
    + by apply (free_list_frame d).
    + lia.
    + intros j. change (count (set_free (next nd) (freeCount d - 1) d)) with (count d). rewrite (wf_cover _ _ _ _ Hw). unfold linked. cbn. set_solver.
    + intros j ->%list_elem_of_singleton. split; [done|].
      apply (free_not_linked _ _ _ _ _ Hc (wf_free _ _ _ _ Hw)). set_solver.
Qed.

(** ** New contents for an element, in the same bucket *)

Definition rekey (i : Z) e d : Dict K V :=
  MkDict (freeList d) (freeCount d) (count d) (bucketsLen d) (buckets d)
    (alter (fun x => MkNode (GetHashCode e.1) (next x)) i (nodes d))
    (alter (fun x => MkData (Some e) (prev x)) i (items d)).

Lemma rekey_links i e d j : nxt (rekey i e d) j = nxt d j /\ prv (rekey i e d) j = prv d j.
Proof.
  unfold nxt, prv, rekey. cbn [nodes items]. destruct (decide (i = j)) as [<-|]; [|by rewrite !lookup_alter_ne].
  rewrite !lookup_alter_eq. split; [by destruct (nodes d !! i)|by destruct (items d !! i)].
Qed.

Lemma rekey_entry i e d j e' : j <> i -> entry (rekey i e d) j e' <-> entry d j e'.
Proof. intros Hj. unfold entry, hsh, val, rekey. cbn [nodes items]. by rewrite !lookup_alter_ne. Qed.

Lemma rekey_entry_same i e d e0 : entry d i e0 -> entry (rekey i e d) i e.
Proof.
  unfold entry, hsh, val, rekey. cbn [nodes items]. rewrite !lookup_alter_eq.
  destruct (nodes d !! i), (items d !! i); naive_solver.
Qed.

Lemma wf_rekey d ch fl i e e' : wf d ch fl [] -> linked d ch i -> entry d i e ->
  GetHashCode e'.1 mod bucketsLen d = GetHashCode e.1 mod bucketsLen d -> (e'.1 = e.1 \/ forall j ej, used d ch j ej -> ej.1 <> e'.1) ->
  wf (rekey i e' d) ch fl [] /\ forall j ej, used (rekey i e' d) ch j ej <-> j = i /\ ej = e' \/ j <> i /\ used d ch j ej.
Proof.
  intros Hw Hl He Hb Hk. pose proof (wf_chains _ _ _ _ Hw) as Hc. pose proof (rekey_entry_same _ e' _ _ He) as He'.
  assert (Huniq : forall j ej, linked d ch j -> entry d j ej -> j <> i -> ej.1 <> e'.1).
  { intros j ej Hj Ej Hji. destruct Hk as [->|Hk]; [|by apply (Hk j)]. intros E. by apply Hji, (wf_uniq _ _ _ _ Hw j i ej e). }
  split.
  - split; try apply Hw.
    + split; try apply Hc; change (bucketsLen (rekey i e' d)) with (bucketsLen d).
      * intros b Hb'. apply (seg_frame d); [|by apply Hc]. intros j _. apply rekey_links.
      * intros b j Hb' Hj. destruct (chains_in _ _ Hc b j Hb' Hj) as (Hr & ej & Ej & Em). split; [done|].
        destruct (decide (j = i)) as [->|Hji]; [|exists ej; split; [by apply rekey_entry|done]].
        exists e'. split; [done|]. rewrite Hb. by rewrite (entry_inj _ _ _ _ He Ej).
    + apply (free_list_frame d); [done| |apply Hw]. intros j Hj. assert (Hji : j <> i).
      { intros ->. by apply (free_not_linked _ _ _ _ _ Hc (wf_free _ _ _ _ Hw) Hj). }
      unfold rekey. cbn. by rewrite !lookup_alter_ne.
    + intros j1 j2 e1 e2 H1 H2 E1 E2 E. destruct (decide (j1 = i)) as [->|D1], (decide (j2 = i)) as [->|D2]; [done| | |].
      * apply rekey_entry in E2; [|done]. rewrite (entry_inj _ _ _ _ E1 He') in E. by destruct (Huniq j2 e2 H2 E2 D2).
      * apply rekey_entry in E1; [|done]. rewrite (entry_inj _ _ _ _ E2 He') in E. by destruct (Huniq j1 e1 H1 E1 D1).
      * apply rekey_entry in E1; [|done]. apply rekey_entry in E2; [|done]. by apply (wf_uniq _ _ _ _ Hw j1 j2 e1 e2).
  - intros j ej. unfold used. change (linked (rekey i e' d) ch j) with (linked d ch j). destruct (decide (j = i)) as [->|Hji].
    + split; [intros [_ Ej]; left; by rewrite (entry_inj _ _ _ _ He' Ej)|intros [[_ ->]|[? _]]; done].
    + rewrite rekey_entry by done. naive_solver.
Qed.

Lemma holds_update d ch fl d' ch' m i e k v : wf d ch fl [] -> used d ch i e -> (k = e.1 \/ m !! k = None) ->
  (forall j e', used d' ch' j e' <-> j = i /\ e' = (k, v) \/ j <> i /\ used d ch j e') -> holds d ch m -> holds d' ch' (<[k := v]> (delete e.1 m)).
Proof.
  intros Hw Hi Hk Hu Hm k' v'. rewrite lookup_insert_Some, lookup_delete_Some, (Hm k' v'). split.
  - intros [[<- <-]|(Hne & Hne' & j & Hj)]; [exists i; apply Hu; auto|]. exists j. apply Hu. right. split; [|done]. intros ->.
    destruct Hi as [_ He], Hj as [_ Hj]. by rewrite (entry_inj _ _ _ _ He Hj) in Hne'.
  - intros (j & Hj). apply Hu in Hj as [[-> [= -> ->]]|[Hji [Hl Ej]]]; [by left|right].
    assert (Hne : e.1 <> k') by (intros E; by apply Hji, (wf_uniq _ _ _ _ Hw j i (k', v') e Hl (proj1 Hi) Ej (proj2 Hi))).
    split; [|split; [done|exists j; by split]]. intros <-. destruct Hk as [->|Hk]; [done|]. assert (m !! k = Some v') by (apply Hm; exists j; by split). congruence.
Qed.

(** ** Lookup *)

Lemma Find_repr d ch fl m k : wf d ch fl [] -> holds d ch m ->
  exists i, Find k d = Done i d /\
    match m !! k with
    | Some v => 0 <= i /\ linked d ch i /\ entry d i (k, v)
    | None => i = -1 /\ forall j e, linked d ch j -> entry d j e -> e.1 <> k
    end.
Proof.
  intros Hw Hm. destruct (Find_spec d ch fl [] k Hw) as (i & Ei & Hi). exists i. split; [done|].
  destruct (m !! k) as [v|] eqn:Ek.
  - apply Hm in Ek as (j & Hj & Ej). destruct Hi as [[_ Hi]|(Hi & Hge & v' & Ev')]; [by destruct (Hi j (k, v) Hj Ej)|].
    split; [done|]. split; [done|]. by rewrite (wf_uniq _ _ _ _ Hw i j (k, v') (k, v) Hi Hj Ev' Ej eq_refl).
  - destruct Hi as [Hi|(Hi & _ & v & Ev)]; [done|]. assert (m !! k = Some v) by (apply Hm; eauto). congruence.
Qed.

Lemma Find_bucket d ch k : chains d ch ->
  Find k d = find_from (GetHashCode k) k (hdz (ch (GetHashCode k mod bucketsLen d)) (-1)) d.
Proof.
  intros Hc. unfold Find. by rewrite (bind_done _ _ _ _ _ (bucket_of_ok _ _ _ Hc)), (bind_done _ _ _ _ _ (bucket_ok _ _ _ Hc)).
Qed.

Lemma entry_data d i e : entry d i e -> exists nd it,
  nodes d !! i = Some nd /\ items d !! i = Some it /\ hashCode nd = GetHashCode e.1 /\ kv it = Some e.
Proof. unfold entry, hsh, val. destruct (nodes d !! i) as [nd|], (items d !! i) as [it|]; naive_solver. Qed.

Lemma TryGetValue_repr d m k : repr d m -> TryGetValue k d = Done (m !! k) d.
Proof.
  intros (ch & fl & Hw & Hm). destruct (Find_repr d ch fl m k Hw Hm) as (i & Ei & Hi). unfold TryGetValue.
  rewrite (bind_done _ _ _ _ _ Ei). destruct (m !! k) as [v|].
  - destruct Hi as (Hge & _ & He). destruct (entry_data _ _ _ He) as (nd & it & _ & Eit & _ & Ekv).
    destruct (Z.leb_spec 0 i); [|lia]. dict_run. rewrite Eit. cbn. by rewrite Ekv.
  - destruct Hi as [-> _]. done.
Qed.

(** ** Add *)

Lemma rekey_data i e d nd it : nodes d !! i = Some nd -> items d !! i = Some it ->
  rekey i e d = MkDict (freeList d) (freeCount d) (count d) (bucketsLen d) (buckets d)
    (<[i := MkNode (GetHashCode e.1) (next nd)]> (nodes d)) (<[i := MkData (Some e) (prev it)]> (items d)).
Proof. intros En Ei. unfold rekey. by rewrite (alter_insert_eq _ _ _ _ En), (alter_insert_eq _ _ _ _ Ei). Qed.

Lemma linked_range d ch i : chains d ch -> linked d ch i -> 0 <= i < bucketsLen d.
Proof. intros Hc (b & Hb & Hi). by apply (chains_in _ _ Hc b i). Qed.

Lemma delete_insert_same m (k : K) (v : V) : <[k := v]> (delete k m) = <[k := v]> m.
Proof. apply insert_delete_eq. Qed.

Lemma Add_present d m k v v0 override : repr d m -> m !! k = Some v0 ->
  exists i d', Add dataSize k v override d = Done (override, i) d' /\ count d' = count d /\
    repr d' (if override then <[k := v]> m else m).
Proof.
  intros (ch & fl & Hw & Hm) Ek. pose proof (wf_chains _ _ _ _ Hw) as Hc.
  destruct (Find_repr d ch fl m k Hw Hm) as (i & Ei & Hi). rewrite Ek in Hi. destruct Hi as (Hge & Hl & He).
  rewrite (Find_bucket d ch) in Ei by done. unfold Add. rewrite (bind_done _ _ _ _ _ (bucket_of_ok _ _ _ Hc)).
  rewrite (bind_done _ _ _ _ _ (bucket_ok _ _ _ Hc)), (bind_done _ _ _ _ _ Ei).
  destruct (Z.leb_spec 0 i); [|lia]. destruct override; [|exists i, d; split; [done|]; split; [done|]; by exists ch, fl].
  destruct (entry_data _ _ _ He) as (nd & it & En & Eit & Eh & Ekv). cbn in Eh.
  exists i, (rekey i (k, v) d). split; [|split; [done|]].
  - dict_run. rewrite Eit. cbn. rewrite in_array_true by by eapply linked_range. unfold set_items.
    rewrite (rekey_data _ _ _ _ _ En Eit). cbn. do 2 f_equal. rewrite insert_id; [done|]. by rewrite <-Eh; destruct nd.
  - destruct (wf_rekey d ch fl i (k, v0) (k, v) Hw Hl He) as [Hw' Hu]; [done|by left|]. exists ch, fl. split; [done|].
    rewrite <-(delete_insert_same m). apply (holds_update d ch fl _ _ m i (k, v0) k v Hw (conj Hl He)); [by left|done|done].
Qed.

(** A new key goes to the element that is taken. *)
Lemma Add_new d ch fl k v override : wf d ch fl [] -> (forall j e, used d ch j e -> e.1 <> k) -> can_grow d ->
  let i := hdz fl (count d) in
  exists d' ch', Add dataSize k v override d = Done (true, i) d' /\ wf d' ch' (tail fl) [] /\
    count d' = (if fl is [] then count d + 1 else count d) /\
    (forall j e, used d' ch' j e <-> j = i /\ e = (k, v) \/ j <> i /\ used d ch j e).
Proof.
  intros Hw Hk Hg. cbv zeta. set (i := hdz fl (count d)). pose proof (wf_chains _ _ _ _ Hw) as Hc.
  destruct (Find_spec d ch fl [] k Hw) as (i0 & Ei & [[-> _]|(Hl & _ & v' & Ev)]); [|by destruct (Hk i0 (k, v') (conj Hl Ev))].
  rewrite (Find_bucket d ch) in Ei by done. unfold Add. rewrite (bind_done _ _ _ _ _ (bucket_of_ok _ _ _ Hc)).
  rewrite (bind_done _ _ _ _ _ (bucket_ok _ _ _ Hc)), (bind_done _ _ _ _ _ Ei). cbn [Z.leb Z.compare].
  destruct (take_index_spec d ch fl Hw Hg) as (d' & ch' & Et & Hw' & Hr & Hcnt & Hu). fold i in Et, Hw', Hr.
  rewrite (bind_done _ _ _ _ _ Et). pose proof (wf_chains _ _ _ _ Hw') as Hc'.
  rewrite (bind_done _ _ _ _ _ (bucket_of_ok _ _ _ Hc')). set (b := GetHashCode k mod bucketsLen d').
  assert (Hb : 0 <= b < bucketsLen d') by apply bucket_range, Hc'.
  destruct (wf_hole _ _ _ _ Hw' i) as [_ Hil]; [set_solver|].
  assert (Hnew : forall j e, linked d' ch' j -> entry d' j e -> e.1 <> k) by (intros j e Hj Ej; by apply (Hk j), Hu).
  exists (push i (GetHashCode k) (Some (k, v)) b d'), (<[b := i :: ch' b]> ch').
  split; [|split; [by apply (wf_push d' ch' (tail fl) i (k, v))|split; [done|]]].
  - rewrite <-(bind_assoc _ (fun _ => put_item i (MkData (Some (k, v)) (-1)))).
    rewrite (bind_done _ _ _ _ _ (link_push d' ch' i (k, v) _ Hc' Hb Hr (fun Hin => Hil (ex_intro _ _ (conj Hb Hin))))). done.
  - intros j e. rewrite <-Hu. unfold used. change (linked (push i (GetHashCode k) (Some (k, v)) b d')) with (linked d'). rewrite (linked_push d') by done.
    assert (He : entry (push i (GetHashCode k) (Some (k, v)) b d') i (k, v)) by (by destruct (push_same i (GetHashCode k) (Some (k, v)) b d') as (? & ? & _)).
    destruct (decide (j = i)) as [->|Hne].
    + split; [intros [_ Ee]; left; split; [done|by apply (entry_inj _ _ _ _ Ee He)]|intros [[_ ->]|[? _]]; [auto|done]].
    + pose proof (entry_push i (k, v) b d' j e Hne) as Hp. cbn [fst] in Hp. rewrite Hp. naive_solver.
Qed.

Lemma holds_add d ch d' ch' m i k v : m !! k = None ->
  (forall j e, used d' ch' j e <-> j = i /\ e = (k, v) \/ j <> i /\ used d ch j e) -> (forall e, ~ used d ch i e) -> holds d ch m -> holds d' ch' (<[k := v]> m).
Proof.
  intros Ek Hu Hi Hm k' v'. rewrite lookup_insert_Some, (Hm k' v'). split.
  - intros [[<- <-]|(Hne & j & Hj)]; [exists i; apply Hu; auto|]. exists j. apply Hu. right. split; [|done]. intros ->. by apply Hi in Hj.
  - intros (j & Hj). apply Hu in Hj as [[-> [= -> ->]]|[Hji Hj]]; [by left|right]. split; [|eauto]. intros <-. assert (m !! k = Some v') by (apply Hm; eauto). congruence.
Qed.

Lemma hole_unused d ch fl i e : wf d ch fl [] -> i = hdz fl (count d) -> ~ used d ch i e.
Proof.
  intros Hw -> [Hl _]. destruct fl as [|j fl]; cbn in Hl.
  - assert (0 <= count d < count d) by (apply (wf_cover _ _ _ _ Hw); auto). lia.
  - by apply (free_not_linked _ _ _ _ j (wf_chains _ _ _ _ Hw) (wf_free _ _ _ _ Hw)); [left|].
Qed.

Lemma Add_absent d m k v override : repr d m -> m !! k = None -> can_grow d ->
  exists i d', Add dataSize k v override d = Done (true, i) d' /\
    (count d' = count d \/ freeCount d = 0 /\ count d' = count d + 1) /\ repr d' (<[k := v]> m) /\ entry d' i (k, v).
Proof.
  intros (ch & fl & Hw & Hm) Ek Hg. destruct (Add_new d ch fl k v override Hw) as (d' & ch' & E & Hw' & Hcnt & Hu); [|done|].
  { intros j e Hj <-. assert (m !! e.1 = Some e.2) by (apply Hm; exists j; by rewrite <-surjective_pairing). congruence. }
  exists (hdz fl (count d)), d'. split; [done|]. split; [|split].
  - destruct fl; [right|by left]. by rewrite (wf_free_count _ _ _ _ Hw).
  - exists ch', (tail fl). split; [done|]. apply (holds_add d ch _ _ _ (hdz fl (count d))); [done|done| |done]. intros e. by apply (hole_unused _ _ fl).
  - apply (Hu _ (k, v)). auto.
Qed.

(** ** Remove *)

(** What element [i] holds. *)
Definition kv_at d (i : Z) : option (K * V) := items d !! i ≫= kv.

Lemma kv_at_val d i : kv_at d i = mjoin (val d i).
Proof. unfold kv_at, val. by destruct (items d !! i). Qed.

Lemma linked_prev d ch i it : chains d ch -> linked d ch i -> items d !! i = Some it -> prev it <> -2.
Proof.
  intros Hc (b & Hb & Hi) Eit. apply list_elem_of_split in Hi as (l1 & l2 & Ec).
  destruct (cut_links d ch i b l1 l2 Hc Hb Ec) as (_ & Ep & _). unfold prv in Ep. rewrite Eit in Ep. injection Ep as ->.
  destruct (decide (l1 = [])) as [->|Hne]; [done|]. apply (cut_pred d ch i b l1 l2 Hc Hb Ec) in Hne. lia.
Qed.

Lemma IndexExists_linked d ch fl hole i : wf d ch fl hole -> linked d ch i -> IndexExists i d = Done true d.
Proof.
  intros Hw Hl. pose proof (wf_chains _ _ _ _ Hw) as Hc.
  destruct (linked_entry _ _ _ _ _ Hw Hl) as (e & He). destruct (entry_data _ _ _ He) as (nd & it & _ & Eit & _ & _).
  assert (Hcov : 0 <= i < count d) by (apply (wf_cover _ _ _ _ Hw); auto).
  pose proof (linked_prev d ch i it Hc Hl Eit).
  unfold IndexExists, mbind, M_bind, get. destruct (Z.leb_spec 0 i); [|lia]. destruct (Z.ltb_spec i (count d)); [|lia].
  dict_run. rewrite Eit. cbn. by destruct (Z.eqb_spec (prev it) (-2)).
Qed.

(** An element goes to the head of the free list. *)
Lemma RemoveAt_used d ch fl i e : wf d ch fl [] -> used d ch i e ->
  exists d' ch', RemoveAt i d = Done tt d' /\ wf d' ch' (i :: fl) [] /\ count d' = count d /\
    (forall j e', used d' ch' j e' <-> j <> i /\ used d ch j e') /\ forall j, kv_at d' j = if decide (j = i) then None else kv_at d j.
Proof.
  intros Hw [Hl He]. pose proof (wf_chains _ _ _ _ Hw) as Hc.
  destruct (wf_unlink d ch fl i Hw Hl) as (d' & ch' & Eu & Hw' & Hs & En' & Ei' & Hlk & _).
  destruct (entry_data _ _ _ He) as (nd & it & En & Eit & Eh & Ekv). pose proof Hs as (_ & S2 & S3 & S4 & _).
  assert (Hr : 0 <= i < bucketsLen d) by by eapply linked_range.
  pose proof (IndexExists_linked _ _ _ _ _ Hw Hl) as Eex.
  exists (MkDict i (freeCount d' + 1) (count d') (bucketsLen d') (buckets d') (<[i := MkNode (hashCode nd) (freeList d')]> (nodes d'))
        (<[i := MkData None (-2)]> (items d'))), ch'.
  split; [|split; [apply (wf_release d' ch' fl i nd Hw'); [lia|by rewrite En']|split; [done|split]]].
  - unfold RemoveAt. rewrite (bind_done _ _ _ _ _ Eex). cbn [assert_]. rewrite (bind_done (mret tt) _ d tt d eq_refl).
    rewrite (bind_done _ _ _ _ _ Eu). assert (Ia : in_array i d' = true) by (apply in_array_true; lia). dict_run.
    rewrite En', En. cbn. rewrite Ia. cbn. rewrite Ei', Eit. cbn. rewrite Ekv. cbn. unfold in_array in *. cbn. by rewrite Ia.
  - intros j e'. unfold used. change (linked (MkDict _ _ _ _ _ _ _) ch' j) with (linked d' ch' j). rewrite Hlk. split.
    + intros [[Hj Hlj] Ej]. split; [done|]. split; [done|]. apply (same_entry d d'); [done|]. revert Ej. unfold entry, hsh, val. cbn [nodes items]. by rewrite !lookup_insert_ne.
    + intros (Hj & Hlj & Ej). split; [done|]. apply (same_entry d d') in Ej; [|done]. unfold entry, hsh, val in *. cbn [nodes items]. by rewrite !lookup_insert_ne.
  - intros j. unfold kv_at at 1. cbn [items]. destruct (decide (j = i)) as [->|Hne]; [by rewrite lookup_insert_eq|].
    rewrite lookup_insert_ne by done. change (items d' !! j ≫= kv) with (kv_at d' j). rewrite !kv_at_val. f_equal. apply Hs.
Qed.

Lemma holds_remove d ch fl d' ch' m i e : wf d ch fl [] -> used d ch i e -> (forall j e', used d' ch' j e' <-> j <> i /\ used d ch j e') ->
  holds d ch m -> holds d' ch' (delete e.1 m).
Proof.
  intros Hw Hi Hu Hm k v. rewrite lookup_delete_Some, (Hm k v). split.
  - intros (Hk & j & Hj). exists j. apply Hu. split; [|done]. intros ->. destruct Hi as [_ He], Hj as [_ Hj]. by rewrite (entry_inj _ _ _ _ He Hj) in Hk.
  - intros (j & Hj). apply Hu in Hj as [Hji [Hl Ej]]. split; [|exists j; by split]. intros E. by apply Hji, (wf_uniq _ _ _ _ Hw j i (k, v) e Hl (proj1 Hi) Ej (proj2 Hi)).
Qed.

Lemma RemoveAt_spec d ch fl m i e : wf d ch fl [] -> holds d ch m -> linked d ch i -> entry d i e ->
  exists d', RemoveAt i d = Done tt d' /\ count d' = count d /\ repr d' (delete e.1 m) /\
    forall j, kv_at d' j = if decide (j = i) then None else kv_at d j.
Proof.
  intros Hw Hm Hl He. destruct (RemoveAt_used d ch fl i e Hw (conj Hl He)) as (d' & ch' & E & Hw' & Hc & Hu & Hkv).
  exists d'. split; [done|]. split; [done|]. split; [|done]. exists ch', (i :: fl). split; [done|]. by apply (holds_remove d ch fl d' ch' m i e Hw (conj Hl He)).
Qed.

Lemma Remove_repr d m k : repr d m -> exists d', Remove k d = Done tt d' /\ count d' = count d /\ repr d' (delete k m).
Proof.
  intros (ch & fl & Hw & Hm). destruct (Find_repr d ch fl m k Hw Hm) as (i & Ei & Hi). unfold Remove.
  rewrite (bind_done _ _ _ _ _ Ei). destruct (m !! k) as [v|] eqn:Ek.
  - destruct Hi as (Hge & Hl & He). destruct (Z.eqb_spec i (-1)); [lia|].
    destruct (RemoveAt_spec d ch fl m i (k, v) Hw Hm Hl He) as (d' & ? & ? & ? & _). by exists d'.
  - destruct Hi as [-> _]. exists d. split; [done|]. split; [done|]. rewrite delete_id by done. by exists ch, fl.
Qed.

(** ** Clear *)

Definition destructible d (i : Z) : Prop :=
  0 <= i < bucketsLen d /\ exists it, items d !! i = Some it /\ (prev it = -2 \/ is_Some (kv it)).

Lemma DeleteKVs_loop_spec l d : NoDup l -> (forall i, i ∈ l -> destructible d i) ->
  exists its, DeleteKVs_loop l d = Done tt (set_items its d).
Proof.
  revert d. induction l as [|i l IH]; intros d Hnd Hl; [by exists (items d); destruct d|].
  apply NoDup_cons in Hnd as [Hi Hnd]. destruct (Hl i) as (Hr & it & Eit & Hit); [set_solver|].
  cbn [DeleteKVs_loop]. rewrite (bind_done (item i) _ d it d) by (dict_run; by rewrite Eit).
  destruct (Z.eqb_spec (prev it) (-2)) as [E|E].
  - rewrite (bind_done (mret tt) _ d tt d eq_refl). apply IH; [done|]. set_solver.
  - destruct Hit as [|[e Ee]]; [done|].
    rewrite (bind_done _ _ d tt (set_items (<[i := MkData None (-2)]> (items d)) d))
      by (dict_run; rewrite Ee; cbn; by rewrite in_array_true).
    destruct (IH (set_items (<[i := MkData None (-2)]> (items d)) d)) as (its & Em); [done| |by exists its].
    intros j Hj. destruct (Hl j) as (Hr' & it' & Eit' & Hit'); [set_solver|]. split; [done|].
    exists it'. split; [|done]. cbn. rewrite lookup_insert_ne; [done|]. by intros ->.
Qed.

Lemma wf_destructible d ch fl i : wf d ch fl [] -> 0 <= i < count d -> destructible d i.
Proof.
  intros Hw Hi. pose proof (wf_count _ _ _ _ Hw). split; [lia|].
  apply (wf_cover _ _ _ _ Hw) in Hi as [Hi|[Hi|Hi]]; [set_solver| |].
  - destruct (free_list_in _ _ _ _ (wf_free _ _ _ _ Hw) Hi) as (_ & -> & _). eexists. split; [done|]. by left.
  - destruct (linked_entry _ _ _ _ _ Hw Hi) as (e & He). destruct (entry_data _ _ _ He) as (nd & it & _ & -> & _ & Ekv).
    exists it. split; [done|]. right. by rewrite Ekv.
Qed.

Lemma Clear_repr d m : repr d m -> exists d', Clear d = Done tt d' /\ count d' = 0 /\ repr d' ∅.
Proof.
  intros (ch & fl & Hw & Hm). pose proof (wf_count _ _ _ _ Hw) as Hcnt. pose proof (chains_len _ _ (wf_chains _ _ _ _ Hw)) as Hl.
  pose proof (wf_max _ _ _ _ Hw) as Hmax. unfold Clear, mbind at 1, M_bind at 1, get.
  destruct (Z.eqb_spec (count d) 0) as [E|E].
  - exists d. split; [done|]. split; [done|]. exists ch, fl. split; [done|]. intros k v. rewrite lookup_empty.
    split; [done|]. intros (i & Hi & _). assert (Hc : 0 <= i < count d) by (apply (wf_cover _ _ _ _ Hw); auto). lia.
  - destruct (DeleteKVs_loop_spec (seqZ 0 (count d)) d) as (m' & Em'); [apply NoDup_seqZ| |].
    { intros i Hi%elem_of_seqZ. eapply wf_destructible; [done|lia]. }
    eexists. split; [unfold DeleteKVs, mbind, M_bind, get, put; rewrite Em'; reflexivity|].
    split; [done|]. apply repr_blank; done.
Qed.

(** ** Count *)

Lemma kv_at_free d l i j : free_list d l i -> j ∈ l -> kv_at d j = None.
Proof. intros Hf Hj. unfold kv_at. by destruct (free_list_in _ _ _ _ Hf Hj) as (_ & -> & _). Qed.

Lemma kv_at_linked d ch fl hole i : wf d ch fl hole -> linked d ch i -> exists e, entry d i e /\ kv_at d i = Some e.
Proof.
  intros Hw Hi. destruct (linked_entry _ _ _ _ _ Hw Hi) as (e & He). exists e. split; [done|].
  destruct (entry_data _ _ _ He) as (nd & it & _ & Ei & _ & Ek). unfold kv_at. by rewrite Ei.
Qed.

(** The elements of the arrays that are in use are those of the map. *)
Lemma items_repr d ch fl m : wf d ch fl [] -> holds d ch m -> map_to_list m ≡ₚ omap (kv_at d) (seqZ 0 (count d)).
Proof.
  intros Hw Hm.
  assert (Hf : forall i e, i ∈ seqZ 0 (count d) -> kv_at d i = Some e -> linked d ch i /\ entry d i e).
  { intros i e Hi Ef. apply elem_of_seqZ in Hi. assert (Hc : 0 <= i < count d) by lia.
    apply (wf_cover _ _ _ _ Hw) in Hc as [Hc|[Hc|Hc]]; [set_solver|by rewrite (kv_at_free _ _ _ _ (wf_free _ _ _ _ Hw)) in Ef|].
    split; [done|]. destruct (kv_at_linked _ _ _ _ i Hw Hc) as (e' & He' & Ef'). by simplify_eq. }
  apply NoDup_Permutation; [apply NoDup_map_to_list| |].
  - apply NoDup_omap_inj; [|apply NoDup_seqZ]. intros x y e Hx Hy Ex Ey.
    apply Hf in Ex as [? ?]; [|done]. apply Hf in Ey as [? ?]; [|done]. by apply (wf_uniq _ _ _ _ Hw x y e e).
  - intros [k v]. rewrite elem_of_map_to_list, (Hm k v), list_elem_of_omap. split.
    + intros (i & Hi & Ei). exists i. assert (Hc : 0 <= i < count d) by (apply (wf_cover _ _ _ _ Hw); auto).
      split; [apply elem_of_seqZ; lia|]. destruct (kv_at_linked _ _ _ _ i Hw Hi) as (e & He & ->). by rewrite (entry_inj _ _ _ _ He Ei).
    + intros (i & Hi & Ei). exists i. by apply Hf.
Qed.

Lemma size_repr d m : repr d m -> Z.of_nat (size m) = count d - freeCount d.
Proof.
  intros (ch & fl & Hw & Hm). pose proof (wf_count _ _ _ _ Hw).
  set (all := seqZ 0 (count d)). set (rest := filter (fun i => i ∉ fl) all).
  assert (Hsplit : all ≡ₚ fl ++ rest).
  { unfold rest. apply NoDup_Permutation; [apply NoDup_seqZ| |].
    - apply NoDup_app. split; [apply Hw|]. split; [|apply NoDup_filter, NoDup_seqZ]. intros i Hi. rewrite list_elem_of_filter. tauto.
    - intros i. rewrite elem_of_app, list_elem_of_filter. unfold all. rewrite elem_of_seqZ. split.
      + intros Hi. destruct (decide (i ∈ fl)); [by left|by right].
      + intros [Hi|[_ Hi]]; [|done]. assert (0 <= i < count d) by (apply (wf_cover _ _ _ _ Hw); auto). lia. }
  assert (E1 : omap (kv_at d) fl = []) by (apply omap_none; intros i; apply (kv_at_free _ _ _ _ (wf_free _ _ _ _ Hw))).
  assert (E2 : length (omap (kv_at d) rest) = length rest).
  { apply omap_all. intros i [Hi Hin]%list_elem_of_filter. apply elem_of_seqZ in Hin.
    destruct (wf_cover _ _ _ _ Hw i) as [[?|[?|Hl]] _]; [lia|set_solver|done|].
    destruct (kv_at_linked _ _ _ _ i Hw Hl) as (e & _ & ->). eauto. }
  rewrite <-length_map_to_list, (items_repr d ch fl m Hw Hm). fold all. rewrite Hsplit, omap_app, length_app, E1, E2.
  apply Permutation_length in Hsplit. rewrite length_app in Hsplit. unfold all in Hsplit at 1. rewrite length_seqZ in Hsplit.
  rewrite (wf_free_count _ _ _ _ Hw). unfold zlen. cbn [length]. lia.
Qed.

Lemma Count_repr d m : repr d m -> Count d = Done (Z.of_nat (size m)) d.
Proof.
  intros Hr. pose proof (size_repr d m Hr) as Hsize. destruct Hr as (ch & fl & Hw & _).
  pose proof (wf_count _ _ _ _ Hw). pose proof (wf_max _ _ _ _ Hw).
  unfold Count, mbind, M_bind, get, mret, M_ret. rewrite <-Hsize, uint_small; [done|].
  pose proof (zlen_nonneg fl). rewrite (wf_free_count _ _ _ _ Hw) in Hsize. rng.
Qed.

(** ** Update *)

Lemma bucket_of_same d d' h : bucketsLen d' = bucketsLen d -> 0 < bucketsLen d -> bucket_of h d' = Done (h mod bucketsLen d) d'.
Proof. intros E Hl. dict_run. rewrite E. by destruct (Z.ltb_spec 0 (bucketsLen d)); [|lia]. Qed.

(** The new key is the old one or new to the table. *)
Lemma UpdateAt_used d ch fl i e newKey : wf d ch fl [] -> used d ch i e -> (newKey = e.1 \/ forall j e', used d ch j e' -> e'.1 <> newKey) ->
  exists d' ch', UpdateAt i newKey d = Done true d' /\ wf d' ch' fl [] /\ count d' = count d /\
    forall j e', used d' ch' j e' <-> j = i /\ e' = (newKey, e.2) \/ j <> i /\ used d ch j e'.
Proof.
  intros Hw [Hl He] Hnew. pose proof (wf_chains _ _ _ _ Hw) as Hc. pose proof (chains_len _ _ Hc) as Hlen.
  destruct (entry_data _ _ _ He) as (nd & it & En & Eit & Eh & Ekv).
  assert (Hr : 0 <= i < bucketsLen d) by by eapply linked_range. pose proof (in_array_true i d Hr) as Ia.
  unfold UpdateAt. rewrite (bind_done _ _ _ _ _ (IndexExists_linked _ _ _ _ _ Hw Hl)). cbn [assert_].
  rewrite (bind_done (mret tt) _ d tt d eq_refl), (bind_done (node i) _ d nd d) by (dict_run; by rewrite En).
  rewrite (bind_done (item i) _ d it d), (bind_done (demand (kv it)) _ d e d) by (dict_run; by rewrite ?Eit, ?Ekv).
  assert (Hsame : GetHashCode newKey mod bucketsLen d = GetHashCode e.1 mod bucketsLen d -> wf (rekey i (newKey, e.2) d) ch fl [] /\
    forall j e', used (rekey i (newKey, e.2) d) ch j e' <-> j = i /\ e' = (newKey, e.2) \/ j <> i /\ used d ch j e').
  { intros Eb. by apply (wf_rekey d ch fl i e (newKey, e.2)). }
  pose proof (rekey_data i (newKey, e.2) d nd it En Eit) as Erk. cbn [fst] in Erk.
  destruct (Z.eqb_spec (hashCode nd) (GetHashCode newKey)) as [Ehash|Ehash].
  { destruct Hsame as [Hw' Hu]; [congruence|]. exists (rekey i (newKey, e.2) d), ch. split; [|done].
    dict_run. rewrite Ia, Erk, <-Ehash. unfold set_items. cbn. rewrite (insert_id (nodes d)); [done|]. by destruct nd. }
  rewrite (bind_done _ _ _ _ _ (bucket_of_ok _ _ _ Hc)), (bind_done _ _ _ _ _ (bucket_of_ok _ _ _ Hc)). rewrite Eh.
  destruct (Z.eqb_spec (GetHashCode e.1 mod bucketsLen d) (GetHashCode newKey mod bucketsLen d)) as [Eb|Eb].
  { destruct Hsame as [Hw' Hu]; [done|]. exists (rekey i (newKey, e.2) d), ch. split; [|done].
    dict_run. rewrite Ia. cbn. unfold in_array in *. cbn. by rewrite Ia, Erk. }
  destruct Hnew as [->|Hnew]; [done|]. rewrite (bind_done _ _ _ _ _ (bucket_ok _ _ _ Hc)).
  destruct (find_from_spec d ch fl [] newKey _ Hw eq_refl) as (j & Ej & Hj). rewrite (bind_done _ _ _ _ _ Ej).
  destruct Hj as [[-> _]|(Hj & _ & v & Ev)]; [|by destruct (Hnew j (newKey, v) (conj Hj Ev))].
  cbn [Z.leb Z.compare]. destruct (wf_unlink d ch fl i Hw Hl) as (d1 & ch1 & Eu & Hw1 & Hs & _ & _ & Hlk & _).
  pose proof (wf_chains _ _ _ _ Hw1) as Hc1. pose proof Hs as (_ & _ & S3 & S4 & _).
  rewrite (bind_done _ _ _ _ _ Eu). destruct (wf_hole _ _ _ _ Hw1 i) as [_ Hni]; [set_solver|].
  set (b := GetHashCode newKey mod bucketsLen d). assert (Hb : 0 <= b < bucketsLen d1) by (rewrite S4; by apply bucket_range).
  rewrite <-(bind_assoc _ (fun _ => put_item i (MkData (Some (newKey, e.2)) (-1)))).
  rewrite (bind_done _ _ _ _ _ (link_push d1 ch1 i (newKey, e.2) _ Hc1 Hb (eq_rect_r (fun n => 0 <= i < n) Hr S4)
    (fun Hin => Hni (ex_intro _ _ (conj Hb Hin))))). cbn [fst].
  assert (Hk : forall k e', linked d1 ch1 k -> entry d1 k e' -> e'.1 <> newKey).
  { intros k e' Hk Ek. apply Hlk in Hk as [Hki Hk]. apply (same_entry d d1) in Ek; [|done]. by apply (Hnew k). }
  exists (push i (GetHashCode newKey) (Some (newKey, e.2)) b d1), (<[b := i :: ch1 b]> ch1). split; [reflexivity|]. split; [|split; [done|]].
  - unfold b. rewrite <-S4. apply (wf_push d1 ch1 fl i (newKey, e.2)); [done|lia|done].
  - intros k e'. unfold used. change (linked (push i (GetHashCode newKey) (Some (newKey, e.2)) b d1)) with (linked d1). rewrite (linked_push d1), Hlk by done.
    assert (He1 : entry (push i (GetHashCode newKey) (Some (newKey, e.2)) b d1) i (newKey, e.2)) by (by destruct (push_same i (GetHashCode newKey) (Some (newKey, e.2)) b d1) as (? & ? & _)).
    destruct (decide (k = i)) as [->|Hne].
    + split; [intros [_ Ee]; left; split; [done|by apply (entry_inj _ _ _ _ Ee He1)]|intros [[_ ->]|[? _]]; [auto|done]].
    + pose proof (entry_push i (newKey, e.2) b d1 k e' Hne) as Hp. cbn [fst] in Hp. rewrite Hp, <-(same_entry d d1) by done. naive_solver.
Qed.

Lemma UpdateAt_spec d ch fl m i e newKey : wf d ch fl [] -> holds d ch m -> linked d ch i -> entry d i e ->
  (newKey = e.1 \/ m !! newKey = None) ->
  exists d', UpdateAt i newKey d = Done true d' /\ count d' = count d /\ repr d' (<[newKey := e.2]> (delete e.1 m)).
Proof.
  intros Hw Hm Hl He Hnew. destruct (UpdateAt_used d ch fl i e newKey Hw (conj Hl He)) as (d' & ch' & E & Hw' & Hc & Hu).
  { destruct Hnew as [|Hnew]; [by left|right]. intros j e' Hj <-. assert (m !! e'.1 = Some e'.2) by (apply Hm; exists j; by rewrite <-surjective_pairing). congruence. }
  exists d'. split; [done|]. split; [done|]. exists ch', fl. split; [done|]. by apply (holds_update d ch fl d' ch' m i e newKey e.2 Hw (conj Hl He)).
Qed.

Lemma Update_repr d m k newKey : repr d m -> (newKey = k \/ m !! newKey = None) ->
  match m !! k with
  | Some v => exists d', Update k newKey d = Done true d' /\ count d' = count d /\ repr d' (<[newKey := v]> (delete k m))
  | None => Update k newKey d = Done false d
  end.
Proof.
  intros (ch & fl & Hw & Hm) Hnew. destruct (Find_repr d ch fl m k Hw Hm) as (i & Ei & Hi). unfold Update.
  rewrite (bind_done _ _ _ _ _ Ei). destruct (m !! k) as [v|].
  - destruct Hi as (Hge & Hl & He). destruct (Z.eqb_spec i (-1)); [lia|]. by apply (UpdateAt_spec d ch fl m i (k, v)).
  - by destruct Hi as [-> _].
Qed.
End operations.
