(* ===== verification/DictProps.v ===== *)
(** * Properties of the hash table

    A session of calls on a [Dict] answers as the same session on a finite map
    does, for element sizes whose bucket counts grow; and the calls that go
    wrong. *)

From Stdlib Require Import ZArith Lia.
From stdpp Require Import functions base numbers list gmap.
From S2P Require Import Prelude Util HashUtils Dict DictChains DictMap DictOps.
Open Scope Z_scope.

(** ** Sizes *)

Lemma upper_bound_in l x p : upper_bound l x = Some p -> p ∈ l.
Proof. induction l as [|q l IH]; cbn; [done|]. destruct (_ <? _); [intros [= <-]; set_solver|]. intros. set_solver. Qed.

Lemma upper_bound_is_Some l x y : y ∈ l -> x < y -> is_Some (upper_bound l x).
Proof.
  induction l as [|q l IH]; [set_solver|]. intros [->|Hy]%elem_of_cons Hx; cbn.
  - destruct (Z.ltb_spec x q); [done|lia].
  - destruct (_ <? _); [done|by apply IH].
Qed.

Lemma primes_range : Forall (fun p => 0 < p < 2 ^ 31) primes.
Proof.
  assert (H : forallb (fun p => (0 <? p) && (p <? 2 ^ 31)) primes = true) by (vm_compute; reflexivity).
  apply Forall_forall. intros p Hp. rewrite forallb_forall in H. specialize (H p ltac:(by apply list_elem_of_In)).
  apply andb_true_iff in H as [?%Z.ltb_lt ?%Z.ltb_lt]. done.
Qed.

Lemma primes_last : (2130706381 : Z) ∈ primes.
Proof. apply list_elem_of_In. assert (H : existsb (Z.eqb 2130706381) primes = true) by (vm_compute; reflexivity).
  apply existsb_exists in H as (x & Hx & E). apply Z.eqb_eq in E. by subst. Qed.

Lemma primes2n_range i p : znth primes2n i = Some p -> 0 < p < 2 ^ 31.
Proof.
  unfold znth. destruct (_ <? _); [done|]. intros E. apply list_elem_of_lookup_2 in E. revert p E. apply Forall_forall.
  unfold primes2n. repeat (constructor; [rng|]). constructor.
Qed.

(** For the element sizes of the table, [GetPrime] succeeds while the elements
    fit in 2 GB. *)
Lemma GetPrime_total c d : 0 < c -> 8 <= d <= 512 -> c * d < 2 ^ 31 -> exists n, GetPrime c d = Some n /\ 0 < n < 2 ^ 31.
Proof.
  intros Hc Hd Hcd. unfold GetPrime. destruct (Z.ltb_spec 0 (c * d)); [|nia]. destruct (Z.ltb_spec (c * d) (2 ^ 31)); [|lia].
  cbn [andb]. generalize 31%nat as rounds. intros rounds.
  destruct (Round2n_spec (c * d)) as (k & Hk & -> & Hb); [rng|]. cbn [mbind option_bind].
  assert (Hk31 : k <= 31).
  { apply Z.lt_succ_r. apply (Z.pow_lt_mono_r_iff 2); [lia|lia|]. change (2 ^ Z.succ 31) with (2 * 2 ^ 31). lia. }
  destruct (Z.eqb_spec (2 ^ k / d) c) as [Ec|Ec].
  - unfold Calc2n. destruct (Z.eqb_spec c 0); [lia|]. assert (Hl : 0 <= Z.log2 c < 31).
    { split; [apply Z.log2_nonneg|]. apply Z.log2_lt_pow2; [lia|]. nia. }
    destruct (znth_is_Some primes2n (Z.log2 c)) as [p Ep]; [exact Hl|]. exists p. split; [done|]. by eapply primes2n_range.
  - destruct (Z.leb_spec 8 d); [|lia]. destruct (Z.leb_spec d 512); [|lia]. cbn [andb].
    destruct (upper_bound_is_Some primes (2 ^ k / d) 2130706381) as [p Ep]; [apply primes_last| |].
    + apply Z.div_lt_upper_bound; [lia|]. pose proof (Z.pow_le_mono_r 2 k 31 ltac:(lia) ltac:(lia)). rng.
    + exists p. split; [done|]. pose proof primes_range as Hr. rewrite Forall_forall in Hr. by apply Hr, (upper_bound_in _ _ _ Ep).
Qed.

(** ** Sessions *)

Section session.
Context {K V : Type} `{Countable K} `{!HashFunc K} (dataSize : Z) (vdefault : V).
Implicit Types (d : Dict K V) (m : gmap K V).

Inductive call :=
| CAdd (k : K) (v : V) (override : bool)
| CRemove (k : K)
| CTryGetValue (k : K)
| CSubscript (k : K)
| CUpdate (oldKey newKey : K)
| CCount
| CClear.

Inductive reply :=
| RUnit
| RBool (b : bool)
| RValue (v : option V)
| RNumber (n : Z).

Definition exec (c : call) : M (Dict K V) reply :=
  match c with
  | CAdd k v override => r ← Add dataSize k v override; mret (RBool r.1)
  | CRemove k => _ ← Remove k; mret RUnit
  | CTryGetValue k => r ← TryGetValue k; mret (RValue r)
  | CSubscript k => v ← subscript dataSize vdefault k; mret (RValue (Some v))
  | CUpdate k k' => b ← Update k k'; mret (RBool b)
  | CCount => n ← Count; mret (RNumber n)
  | CClear => _ ← Clear; mret RUnit
  end.

Fixpoint exec_all (cs : list call) : M (Dict K V) (list reply) :=
  match cs with
  | [] => mret []
  | c :: cs => r ← exec c; rs ← exec_all cs; mret (r :: rs)
  end.

(** The same calls on a finite map. *)
Definition spec (c : call) m : reply * gmap K V :=
  match c with
  | CAdd k v override =>
      match m !! k with
      | Some _ => (RBool override, if override then <[k := v]> m else m)
      | None => (RBool true, <[k := v]> m)
      end
  | CRemove k => (RUnit, delete k m)
  | CTryGetValue k => (RValue (m !! k), m)
  | CSubscript k =>
      match m !! k with
      | Some v => (RValue (Some v), m)
      | None => (RValue (Some vdefault), <[k := vdefault]> m)
      end
  | CUpdate k k' =>
      match m !! k with
      | Some v => (RBool true, <[k' := v]> (delete k m))
      | None => (RBool false, m)
      end
  | CCount => (RNumber (Z.of_nat (size m)), m)
  | CClear => (RUnit, ∅)
  end.

Fixpoint spec_all (cs : list call) m : list reply * gmap K V :=
  match cs with
  | [] => ([], m)
  | c :: cs => let '(r, m) := spec c m in let '(rs, m) := spec_all cs m in (r :: rs, m)
  end.

(** [Update] is only called with a new key that is not in the map yet. *)
Definition legal (c : call) m : Prop :=
  match c with CUpdate k k' => k' = k \/ m !! k' = None | _ => True end.

Fixpoint all_legal (cs : list call) m : Prop :=
  match cs with
  | [] => True
  | c :: cs => legal c m /\ all_legal cs (spec c m).2
  end.

Context (Hsize : 8 <= dataSize <= 512) (Hgrows : no_shrink dataSize = true).

Lemma can_grow_small d m : repr d m -> count d * 2 * dataSize < 2 ^ 31 -> can_grow dataSize d.
Proof.
  intros (ch & fl & Hw & _) Hc Hfull _. pose proof (chains_len _ _ (wf_chains _ _ _ _ Hw)).
  destruct (GetPrime_total (count d * 2) dataSize) as (n & En & Hn); [lia|done|lia|]. exists n. split; [done|].
  split; [|lia]. apply (GetPrime_grows dataSize); [done|lia|lia|]. by rewrite Z.mul_comm.
Qed.

Lemma Add_repr d m k v override : repr d m -> count d * 2 * dataSize < 2 ^ 31 ->
  exists i d', Add dataSize k v override d = Done (bool_decide (m !! k = None) || override, i) d' /\ count d' <= count d + 1 /\
    repr d' (if bool_decide (m !! k = None) || override then <[k := v]> m else m).
Proof.
  intros Hr Hc. destruct (m !! k) as [v0|] eqn:Ek.
  - destruct (Add_present dataSize d m k v v0 override Hr Ek) as (i & d' & Ei & Ec & Hr'). exists i, d'.
    rewrite bool_decide_false by done. split; [done|]. split; [lia|done].
  - destruct (Add_absent dataSize d m k v override Hr Ek) as (i & d' & Ei & Ec & Hr' & _); [by eapply can_grow_small|].
    exists i, d'. rewrite bool_decide_true by done. split; [done|]. split; [lia|done].
Qed.

Lemma subscript_repr d m k : repr d m -> count d * 2 * dataSize < 2 ^ 31 ->
  exists d', subscript dataSize vdefault k d = Done (default vdefault (m !! k)) d' /\ count d' <= count d + 1 /\
    repr d' (match m !! k with Some _ => m | None => <[k := vdefault]> m end).
Proof.
  intros Hr Hc. pose proof Hr as (ch & fl & Hw & Hm). destruct (Find_repr d ch fl m k Hw Hm) as (i & Ei & Hi).
  unfold subscript. rewrite (bind_done _ _ _ _ _ Ei). destruct (m !! k) as [v|] eqn:Ek.
  - destruct Hi as (Hge & _ & He). destruct (entry_data _ _ _ He) as (nd & it & _ & Eit & _ & Ekv).
    exists d. split; [|split; [lia|done]]. destruct (Z.ltb_spec i 0); [lia|]. dict_run. rewrite Eit. cbn. by rewrite Ekv.
  - destruct Hi as [-> _]. cbn [Z.ltb Z.compare].
    destruct (Add_absent dataSize d m k vdefault true Hr Ek) as (i & d' & Ea & Ec & Hr' & He); [by eapply can_grow_small|].
    exists d'. split; [|split; [lia|done]]. rewrite bind_assoc, (bind_done _ _ _ _ _ Ea). cbn [snd].
    destruct (entry_data _ _ _ He) as (nd & it & _ & Eit & _ & Ekv). dict_run. rewrite Eit. cbn. by rewrite Ekv.
Qed.

Lemma exec_refines d m c : repr d m -> legal c m -> count d * 2 * dataSize < 2 ^ 31 ->
  exists d', exec c d = Done (spec c m).1 d' /\ count d' <= count d + 1 /\ 0 <= count d' /\ repr d' (spec c m).2.
Proof.
  intros Hr Hl Hc. enough (exists d', exec c d = Done (spec c m).1 d' /\ count d' <= count d + 1 /\ repr d' (spec c m).2) as (d' & ? & ? & Hr').
  { exists d'. repeat (split; [done|]). split; [|done]. destruct Hr' as (? & ? & Hw' & _). by apply (wf_count _ _ _ _ Hw'). }
  destruct c as [k v ov|k|k|k|k k'| |]; cbn [exec spec legal] in *.
  - destruct (Add_repr d m k v ov Hr Hc) as (i & d' & Ea & Ec & Hr'). rewrite (bind_done _ _ _ _ _ Ea). cbn [fst].
    exists d'. destruct (m !! k); cbn in *; by rewrite ?bool_decide_false in * by done.
  - destruct (Remove_repr d m k Hr) as (d' & Er & Ec & Hr'). rewrite (bind_done _ _ _ _ _ Er). exists d'.
    split; [done|]. split; [lia|done].
  - rewrite (bind_done _ _ _ _ _ (TryGetValue_repr d m k Hr)). exists d. split; [done|]. split; [lia|done].
  - destruct (subscript_repr d m k Hr Hc) as (d' & Es & Ec & Hr'). rewrite (bind_done _ _ _ _ _ Es). exists d'.
    destruct (m !! k); done.
  - pose proof (Update_repr d m k k' Hr Hl) as Hu. destruct (m !! k) as [v|].
    + destruct Hu as (d' & Eu & Ec & Hr'). rewrite (bind_done _ _ _ _ _ Eu). exists d'. split; [done|]. split; [lia|done].
    + rewrite (bind_done _ _ _ _ _ Hu). exists d. split; [done|]. split; [lia|done].
  - rewrite (bind_done _ _ _ _ _ (Count_repr d m Hr)). exists d. split; [done|]. split; [lia|done].
  - destruct (Clear_repr d m Hr) as (d' & Er & Ec & Hr'). rewrite (bind_done _ _ _ _ _ Er). exists d'.
    split; [done|]. split; [|done]. destruct Hr as (? & ? & Hw & _). pose proof (wf_count _ _ _ _ Hw). lia.
Qed.

Lemma exec_all_refines cs d m : repr d m -> all_legal cs m -> (count d + zlen cs) * 2 * dataSize < 2 ^ 31 ->
  exists d', exec_all cs d = Done (spec_all cs m).1 d' /\ repr d' (spec_all cs m).2.
Proof.
  revert d m. induction cs as [|c cs IH]; intros d m Hr Hl Hc; [by exists d|].
  destruct Hl as [Hl Hls]. rewrite zlen_cons in Hc. pose proof (zlen_nonneg cs).
  destruct (exec_refines d m c Hr Hl) as (d1 & E1 & Ec1 & Hge & Hr1); [nia|]. cbn [exec_all spec_all].
  rewrite (bind_done _ _ _ _ _ E1). destruct (spec c m) as [r m1]. cbn [fst snd] in *.
  destruct (IH d1 m1 Hr1 Hls) as (d2 & E2 & Hr2); [nia|]. rewrite (bind_done _ _ _ _ _ E2).
  destruct (spec_all cs m1) as [rs m2]. by exists d2.
Qed.

Lemma new_Dict_repr capacity d : new_Dict dataSize capacity = Some d -> repr d ∅ /\ count d = 0.
Proof.
  unfold new_Dict. destruct (GetPrime capacity dataSize) as [n|] eqn:E; [|done]. intros [= <-]. split; [|done].
  destruct (GetPrime_memory _ _ _ E) as (Hc & k & Hk & Hle & _); [lia|].
  assert (Hcd : capacity * dataSize < 2 ^ 31). { unfold GetPrime in E. destruct (_ && _) eqn:Eb; [|done]. apply andb_true_iff in Eb as [_ ?%Z.ltb_lt]. done. }
  destruct (GetPrime_total capacity dataSize Hc Hsize Hcd) as (n' & E' & Hn). simplify_eq.
  by apply repr_blank.
Qed.
End session.

(** C21. For element sizes of 8 to 512 bytes whose bucket counts grow
    ([no_shrink]), a session of calls on a new table — [Add] with and without
    override, [Remove], [TryGetValue], the subscript operator, [Count],
    [Clear], and [Update] to keys that are not in the table — never leaves the
    arrays, ends, and returns what the same calls on a finite map return, as
    long as the elements stay within 2 GB. *)
Theorem dict_refines_map {K V : Type} `{Countable K} `{!HashFunc K} (dataSize : Z) (vdefault : V) (capacity : Z)
    (cs : list (call (K := K))) (d : Dict K V) :
  8 <= dataSize <= 512 -> no_shrink dataSize = true -> new_Dict dataSize capacity = Some d ->
  all_legal vdefault cs ∅ -> zlen cs * 2 * dataSize < 2 ^ 31 ->
  exists d', exec_all dataSize vdefault cs d = Done (spec_all vdefault cs ∅).1 d' /\ repr d' (spec_all vdefault cs ∅).2.
Proof.
  intros Hs Hg Hd Hl Hc. destruct (new_Dict_repr dataSize Hs capacity d Hd) as [Hr E0].
  by apply exec_all_refines; rewrite ?E0.
Qed.

(** ** Examples: 32-bit keys *)

#[local] Instance hash_int32 : HashFunc Z := hash_small.

(** Elements of 24 bytes; two buckets at first, so that the third [Add] grows
    the table. *)
Definition session : list (call (K := Z) (V := Z)) :=
  [CAdd 1 10 false; CAdd 2 20 false; CAdd 3 30 false; CAdd 3 31 false; CAdd 3 32 true; CRemove 1; CUpdate 2 9;
   CSubscript 5; CTryGetValue 9; CTryGetValue 2; CCount; CClear; CCount].

Lemma dict_refines_map_witness : exists d d',
  new_Dict (K := Z) (V := Z) 24 2 = Some d /\ bucketsLen d = 2 /\
  exec_all 24 0 session d = Done [RBool true; RBool true; RBool true; RBool false; RBool true; RUnit; RBool true;
    RValue (Some 0); RValue (Some 20); RValue None; RNumber 3; RUnit; RNumber 0] d' /\ repr d' ∅.
Proof.
  assert (Hd : exists d, new_Dict (K := Z) (V := Z) 24 2 = Some d) by (eexists; vm_compute; reflexivity). destruct Hd as (d & Hd).
  destruct (dict_refines_map 24 0 2 session d) as (d' & Ed' & Hr); [lia|by vm_compute|exact Hd| |by vm_compute|].
  { vm_compute. repeat split; try done; by right. }
  exists d, d'. split; [exact Hd|]. split; [by vm_compute in Hd; injection Hd as <-|]. split; [exact Ed'|exact Hr].
Defined.

(** The next bucket count can be no larger than the last: with elements of
    40 bytes and three buckets (a table created for six), the size for six
    elements is three again, and the [Add] of a fourth element writes outside
    the arrays. *)
Theorem dict_grow_overruns :
  GetPrime 6 40 = Some 3 /\ no_shrink 40 = false /\
  exists (d d' : Dict Z Z), new_Dict 40 6 = Some d /\ bucketsLen d = 3 /\
    exec_all 40 0 [CAdd 1 10 false; CAdd 2 20 false; CAdd 3 30 false] d = Done [RBool true; RBool true; RBool true] d' /\
    Add 40 4 40 false d' = Undef.
Proof. split; [by vm_compute|]. split; [by vm_compute|]. eexists _, _. split; [vm_compute; reflexivity|]. repeat (split; [vm_compute; reflexivity|]). vm_compute. reflexivity. Qed.

(** [Update] to a key that is in the table, in the same bucket, succeeds and
    leaves two elements with this key: with eleven buckets, [1] becomes [12]
    beside the other [12], and one [Remove] does not remove the key. *)
Theorem dict_update_duplicates :
  exists (d d' : Dict Z Z), new_Dict 24 8 = Some d /\ bucketsLen d = 11 /\
    exec_all 24 0 [CAdd 1 10 false; CAdd 12 20 false; CUpdate 1 12; CCount; CRemove 12; CTryGetValue 12] d =
    Done [RBool true; RBool true; RBool true; RNumber 2; RUnit; RValue (Some 10)] d'.
Proof. eexists _, _. split; [vm_compute; reflexivity|]. split; [vm_compute; reflexivity|]. vm_compute. reflexivity. Qed.
