(* ===== verification/DictTable.v ===== *)
(** * A hash table by its indices

    The callers of [Dict] that keep indices see it as a map from the indices
    in use to keys and values, and a stream of the indices that the next
    additions will get: the free list, and then the end of the array. *)

From Stdlib Require Import ZArith Lia.
From stdpp Require Import functions base numbers list gmap.
From S2P Require Import Prelude Util HashUtils Dict DictChains DictMap DictOps DictProps.
Open Scope Z_scope.

(** ** The stream of free indices *)

Definition stream (fl : list Z) (c : Z) (n : nat) : Z := default (c + Z.of_nat (n - length fl)) (fl !! n).

Lemma stream_head fl c : hdz fl c = stream fl c 0.
Proof. destruct fl; cbn; [lia|done]. Qed.

Lemma stream_tail fl c n : stream (tail fl) (if fl is [] then c + 1 else c) n = stream fl c (S n).
Proof. destruct fl as [|i fl]; [|done]. unfold stream. cbn [tail length]. rewrite !lookup_nil. cbn [default from_option]. lia. Qed.

Lemma stream_push i fl c n : stream (i :: fl) c (S n) = stream fl c n.
Proof. done. Qed.

Section table.
Context {K V : Type} `{Countable K} `{!HashFunc K}.
Implicit Types (d : Dict K V) (r : gmap Z (K * V)) (s : nat -> Z) (e : K * V).

Definition table d s r : Prop := exists ch fl,
  wf d ch fl [] /\ (forall i e, r !! i = Some e <-> used d ch i e) /\ (forall n, s n = stream fl (count d) n).

Lemma table_stream d s s' r : (forall n, s' n = s n) -> table d s r -> table d s' r.
Proof. intros E (ch & fl & Hw & Hr & Hs). exists ch, fl. split; [done|]. split; [done|]. intros n. by rewrite E. Qed.

(** The next index is free. *)
Lemma table_free d s r : table d s r -> r !! s 0%nat = None /\ 0 <= s 0%nat.
Proof.
  intros (ch & fl & Hw & Hr & Hs). rewrite Hs, <-stream_head. split.
  - destruct (r !! hdz fl (count d)) as [e|] eqn:E; [|done]. apply Hr in E. by apply (hole_unused _ _ fl) in E.
  - pose proof (wf_count _ _ _ _ Hw). destruct fl as [|i fl]; cbn; [lia|]. destruct (free_list_in _ _ _ i (wf_free _ _ _ _ Hw)); [left|lia].
Qed.

Lemma table_uniq d s r i j e e' : table d s r -> r !! i = Some e -> r !! j = Some e' -> e.1 = e'.1 -> i = j.
Proof.
  intros (ch & fl & Hw & Hr & _) Hi Hj. apply Hr in Hi as [Hi Ei]. apply Hr in Hj as [Hj Ej]. by apply (wf_uniq _ _ _ _ Hw).
Qed.

Lemma table_index d s r i e : table d s r -> r !! i = Some e -> 0 <= i < count d.
Proof. intros (ch & fl & Hw & Hr & _) Hi. apply Hr in Hi as [Hi _]. apply (wf_cover _ _ _ _ Hw). auto. Qed.

Lemma table_count d s r : table d s r -> 0 <= count d.
Proof. intros (ch & fl & Hw & _). apply (wf_count _ _ _ _ Hw). Qed.

(** ** The operations *)

Lemma table_empty d : repr d ∅ -> count d = 0 -> table d Z.of_nat ∅.
Proof.
  intros (ch & fl & Hw & Hm) E0. assert (Hno : forall i, ~ (0 <= i < count d)) by lia. assert (fl = []) as ->.
  { destruct fl as [|i fl]; [done|]. exfalso. apply (Hno i). apply (wf_cover _ _ _ _ Hw). right; left. left. }
  exists ch, []. split; [done|]. split.
  - intros i e. rewrite lookup_empty. split; [done|]. intros [Hi _]. exfalso. apply (Hno i). apply (wf_cover _ _ _ _ Hw). auto.
  - intros n. unfold stream. rewrite lookup_nil, E0. cbn. lia.
Qed.

Lemma table_new (dataSize capacity : Z) d : 8 <= dataSize <= 512 -> new_Dict dataSize capacity = Some d -> table d Z.of_nat ∅ /\ count d = 0.
Proof.
  intros Hsz E. destruct (new_Dict_repr dataSize Hsz capacity d E) as [Hr E0]. split; [by apply table_empty|done].
Qed.

Lemma table_Find d s r k : table d s r -> exists i, Find k d = Done i d /\ ((i = -1 /\ forall j e, r !! j = Some e -> e.1 <> k) \/ 0 <= i /\ exists v, r !! i = Some (k, v)).
Proof.
  intros (ch & fl & Hw & Hr & _). destruct (Find_spec d ch fl [] k Hw) as (i & E & [[-> Hn]|(Hi & H0 & v & Ev)]); eexists; (split; [exact E|]).
  - left. split; [done|]. intros j e Hj. apply Hr in Hj as [Hj Ej]. by apply (Hn j).
  - right. split; [done|]. exists v. by apply Hr.
Qed.

Lemma table_Add_taken dataSize d s r i k v v' : table d s r -> r !! i = Some (k, v') -> Add dataSize k v false d = Done (false, i) d.
Proof.
  intros Ht Hi. destruct (table_Find d s r k Ht) as (j & E & Hj). destruct Ht as (ch & fl & Hw & Hr & Hs). pose proof (wf_chains _ _ _ _ Hw) as Hc.
  destruct Hj as [[_ Hn]|(H0 & w & Hj)]; [by destruct (Hn i (k, v') Hi)|].
  assert (j = i) as -> by (eapply (table_uniq d s r); [by exists ch, fl|done..]).
  rewrite (Find_bucket d ch) in E by done. unfold Add. rewrite (bind_done _ _ _ _ _ (bucket_of_ok _ _ _ Hc)).
  rewrite (bind_done _ _ _ _ _ (bucket_ok _ _ _ Hc)), (bind_done _ _ _ _ _ E). by destruct (Z.leb_spec 0 i); [|lia].
Qed.

Lemma table_Add_new dataSize d s r k v : 8 <= dataSize <= 512 -> no_shrink dataSize = true -> count d * 2 * dataSize < 2 ^ 31 ->
  table d s r -> (forall i e, r !! i = Some e -> e.1 <> k) ->
  exists d', Add dataSize k v false d = Done (true, s 0%nat) d' /\ table d' (fun n => s (S n)) (<[s 0%nat := (k, v)]> r) /\ count d' <= count d + 1.
Proof.
  intros Hsz Hns Hb Ht Hk. pose proof (table_free _ _ _ Ht) as [Hfr _]. destruct Ht as (ch & fl & Hw & Hr & Hs).
  destruct (Add_new dataSize d ch fl k v false Hw) as (d' & ch' & E & Hw' & Hc & Hu).
  { intros j e Hj. apply (Hk j). by apply Hr. }
  { intros Hfull _. pose proof (chains_len _ _ (wf_chains _ _ _ _ Hw)).
    destruct (GetPrime_total (count d * 2) dataSize) as (n & En & Hn); [lia|done|lia|]. exists n. split; [done|].
    split; [|lia]. apply (GetPrime_grows dataSize); [done|lia|lia|]. by rewrite Z.mul_comm. }
  rewrite stream_head, <-Hs in E, Hu. exists d'. split; [done|]. split; [|destruct fl; lia]. exists ch', (tail fl). split; [done|]. split.
  - intros j e. rewrite Hu, lookup_insert_Some, Hr. naive_solver.
  - intros n. rewrite Hs, Hc. by rewrite stream_tail.
Qed.

Lemma table_RemoveAt d s r i e : table d s r -> r !! i = Some e ->
  exists d', RemoveAt i d = Done tt d' /\ table d' (fun n => match n with O => i | S n => s n end) (delete i r) /\ count d' = count d.
Proof.
  intros (ch & fl & Hw & Hr & Hs) Hi. apply Hr in Hi. destruct (RemoveAt_used d ch fl i e Hw Hi) as (d' & ch' & E & Hw' & Hc & Hu & _).
  exists d'. split; [done|]. split; [|done]. exists ch', (i :: fl). split; [done|]. split.
  - intros j e'. rewrite Hu, lookup_delete_Some, Hr. naive_solver.
  - intros [|n]; [done|]. by rewrite stream_push, Hs, Hc.
Qed.

Lemma table_entry d s r i k v : table d s r -> r !! i = Some (k, v) ->
  IndexExists i d = Done true d /\ exists it, items d !! i = Some it /\ kv it = Some (k, v) /\ prev it <> -2.
Proof.
  intros (ch & fl & Hw & Hr & Hs) Hi. apply Hr in Hi as [Hi Ei]. split; [by eapply IndexExists_linked|].
  destruct (entry_data _ _ _ Ei) as (nd & it & _ & Eit & _ & Ekv). exists it. split; [done|]. split; [done|]. eapply linked_prev; [apply Hw|done|done].
Qed.

Lemma table_KeyAt d s r i k v : table d s r -> r !! i = Some (k, v) -> KeyAt i d = Done k d.
Proof.
  intros Ht Hi. destruct (table_entry d s r i k v Ht Hi) as (E & it & Eit & Ekv & _). unfold KeyAt. rewrite (bind_done _ _ _ _ _ E). cbn [assert_].
  rewrite (bind_done (mret tt) _ d tt d eq_refl). unfold item. dict_run. rewrite Eit. cbn. by rewrite Ekv.
Qed.

Lemma table_ValueAt d s r i k v : table d s r -> r !! i = Some (k, v) -> ValueAt i d = Done v d.
Proof.
  intros Ht Hi. destruct (table_entry d s r i k v Ht Hi) as (E & it & Eit & Ekv & _). unfold ValueAt. rewrite (bind_done _ _ _ _ _ E). cbn [assert_].
  rewrite (bind_done (mret tt) _ d tt d eq_refl). unfold item. dict_run. rewrite Eit. cbn. by rewrite Ekv.
Qed.

Lemma table_UpdateAt d s r i k v k' : table d s r -> r !! i = Some (k, v) -> (k' = k \/ forall j e, r !! j = Some e -> e.1 <> k') ->
  exists d', UpdateAt i k' d = Done true d' /\ table d' s (<[i := (k', v)]> r) /\ count d' = count d.
Proof.
  intros (ch & fl & Hw & Hr & Hs) Hi Hk. apply Hr in Hi. destruct (UpdateAt_used d ch fl i (k, v) k' Hw Hi) as (d' & ch' & E & Hw' & Hc & Hu).
  { destruct Hk as [->|Hk]; [by left|right]. intros j e Hj. apply (Hk j). by apply Hr. }
  exists d'. split; [done|]. split; [|done]. exists ch', fl. split; [done|]. split.
  - intros j e. rewrite Hu, lookup_insert_Some, Hr. cbn. naive_solver.
  - intros n. by rewrite Hs, Hc.
Qed.

(** The table as a map from keys to values. *)
Lemma table_repr d s r : table d s r -> exists m, repr d m /\ map_to_list m ≡ₚ (map_to_list r).*2.
Proof.
  intros Ht. pose proof Ht as (ch & fl & Hw & Hr & _). assert (Nd : NoDup ((map_to_list r).*2.*1)).
  { rewrite <-list_fmap_compose. apply NoDup_fmap_2_strong; [|apply NoDup_map_to_list]. intros [i e] [j e'] Hi Hj E. apply elem_of_map_to_list in Hi, Hj. cbn in E.
    assert (i = j) as -> by by eapply table_uniq. by simplify_eq. }
  exists (list_to_map (map_to_list r).*2). split; [|by apply map_to_list_to_map]. exists ch, fl. split; [done|]. intros k v.
  rewrite <-elem_of_list_to_map by done. rewrite list_elem_of_fmap. split.
  - intros ([i e] & -> & Hi). apply elem_of_map_to_list, Hr in Hi. by exists i.
  - intros (i & Hi). apply (Hr i (k, v)) in Hi. exists (i, (k, v)). split; [done|]. by apply elem_of_map_to_list.
Qed.

Lemma table_Count d s r : table d s r -> Count d = Done (Z.of_nat (size r)) d.
Proof.
  intros Ht. destruct (table_repr d s r Ht) as (m & Hm & Hp). rewrite (Count_repr d m Hm). do 2 f_equal.
  apply Permutation_length in Hp. rewrite length_fmap in Hp. by rewrite <-!length_map_to_list.
Qed.

Lemma table_Clear d s r : table d s r -> exists d', Clear d = Done tt d' /\ table d' Z.of_nat ∅ /\ count d' = 0.
Proof.
  intros Ht. destruct (table_repr d s r Ht) as (m & Hm & _). destruct (Clear_repr d m Hm) as (d' & E & E0 & Hr).
  exists d'. split; [done|]. split; [by apply table_empty|done].
Qed.

(** ** Iteration *)

(** Every element of the array is in use or free. *)
Lemma table_cell d s r i : table d s r -> 0 <= i < count d -> exists it, items d !! i = Some it /\ (prev it = -2 <-> r !! i = None).
Proof.
  intros Ht Hi. destruct (r !! i) as [[k v]|] eqn:E.
  - destruct (table_entry d s r i k v Ht E) as (_ & it & Eit & _ & Hp). by exists it.
  - destruct Ht as (ch & fl & Hw & Hr & _). apply (wf_cover _ _ _ _ Hw) in Hi as [Hi|[Hi|Hi]]; [by apply not_elem_of_nil in Hi| |].
    + destruct (free_list_in _ _ _ _ (wf_free _ _ _ _ Hw) Hi) as (_ & Eit & _). eexists. split; [done|]. done.
    + destruct (linked_entry _ _ _ _ _ Hw Hi) as (e & He). assert (r !! i = Some e) by (apply Hr; by split). congruence.
Qed.

(** [j] is where an iterator stops that looks for an element from [i] on. *)
Definition stops d r (i j : Z) : Prop := i <= j <= count d /\ (forall x, i <= x < j -> r !! x = None) /\ (j < count d -> is_Some (r !! j)).

Lemma next_element_spec d s r fuel i : table d s r -> 0 <= i <= count d -> count d - i <= Z.of_nat fuel -> exists j, next_element fuel i d = Done j d /\ stops d r i j.
Proof.
  intros Ht. revert i. induction fuel as [|fuel IH]; intros i Hi Hf; cbn [next_element]; rewrite bind_get; destruct (Z.ltb_spec i (count d)) as [Hlt|]; try lia.
  1,3: exists i; split; [done|]; split; [lia|]; split; [lia|lia].
  destruct (table_cell d s r i Ht) as (it & Eit & Hp); [lia|]. rewrite (bind_done (item i) _ d it d) by (unfold item; dict_run; by rewrite Eit).
  destruct (Z.eqb_spec (prev it) (-2)) as [E|E].
  - destruct (IH (i + 1)) as (j & Ej & Hj & Hn & Hu); [lia|lia|]. exists j. split; [done|]. split; [lia|]. split; [|done].
    intros x Hx. destruct (decide (x = i)) as [->|]; [by apply Hp|apply Hn; lia].
  - exists i. split; [done|]. split; [lia|]. split; [lia|]. intros _. destruct (r !! i) eqn:Er; [done|]. by destruct E; apply Hp.
Qed.

Lemma table_begin d s r : table d s r -> exists j, Iter_begin d = Done j d /\ stops d r 0 j.
Proof.
  intros Ht. pose proof (table_count _ _ _ Ht). unfold Iter_begin, Empty. rewrite bind_assoc, (bind_done _ _ _ _ _ (table_Count d s r Ht)), bind_mret.
  destruct (Z.eqb_spec (Z.of_nat (size r)) 0) as [E|E]; [|rewrite bind_get; apply (next_element_spec d s r); [done|lia|lia]].
  exists (count d). split; [done|]. split; [lia|]. split; [|lia]. assert (r = ∅) as -> by (apply map_size_empty_inv; lia). intros. apply lookup_empty.
Qed.

Lemma table_incr d s r i : table d s r -> 0 <= i < count d -> exists j, Iter_incr i d = Done j d /\ stops d r (i + 1) j.
Proof. intros Ht Hi. unfold Iter_incr. rewrite bind_get. apply (next_element_spec d s r); [done|lia|lia]. Qed.
End table.
