(* ===== verification/DictEx.v ===== *)
(** * xx_dictex: several hash tables over one set of rows

    A [DictEx] has a table per key.  The first one holds the values; the
    others map their keys to the index of the row, which is assumed to be the
    index of the element in every table.

    The types of the keys differ, so that tables and keys are tuples indexed by
    the list of columns; [DictAt<keyIndex>] is a position in it. *)

From Stdlib Require Import ZArith Lia.
From stdpp Require Import base numbers list gmap.
From S2P Require Import Prelude Util HashUtils Dict.
Open Scope Z_scope.

(** The type of a column's keys, of its values, and [sizeof(Data)]. *)
Record column := Column {
  key : Type;
  key_eq : EqDecision key;
  key_countable : Countable key;
  key_hash : HashFunc key;
  value : Type;
  dataSize : Z
}.
#[export] Existing Instances key_eq key_countable key_hash.

(** [std::array<Unique<Object>, numKeys> dicts]. *)
Fixpoint Dicts (cs : list column) : Type :=
  match cs with
  | [] => unit
  | c :: cs => Dict (key c) (value c) * Dicts cs
  end.

(** The keys of a row. *)
Fixpoint Keys (cs : list column) : Type :=
  match cs with
  | [] => unit
  | c :: cs => key c * Keys cs
  end.

(** [keyIndex]. *)
Inductive at_ (c : column) : list column -> Type :=
| here cs : at_ c (c :: cs)
| there c' cs : at_ c cs -> at_ c (c' :: cs).
Arguments here {c cs}.
Arguments there {c c' cs}.

(** An operation on the first table, or on the others. *)
Definition on_head {c cs A} (m : M (Dict (key c) (value c)) A) : M (Dicts (c :: cs)) A := fun s =>
  match m s.1 with
  | Done a d => Done a (d, s.2)
  | Fail e d => Fail e (d, s.2)
  | Undef => Undef
  end.
Definition on_tail {c cs A} (m : M (Dicts cs) A) : M (Dicts (c :: cs)) A := fun s =>
  match m s.2 with
  | Done a t => Done a (s.1, t)
  | Fail e t => Fail e (s.1, t)
  | Undef => Undef
  end.

(** [DictAt<keyIndex>()->...]. *)
Fixpoint DictAt {c cs} (i : at_ c cs) {A} (m : M (Dict (key c) (value c)) A) : M (Dicts cs) A :=
  match i with
  | here => on_head m
  | there i => on_tail (DictAt i m)
  end.

(** [DictForEach::Init]: every table is made with the default capacity. *)
Fixpoint Init (cs : list column) : option (Dicts cs) :=
  match cs with
  | [] => Some tt
  | c :: cs => t ← Init cs; d ← new_Dict (dataSize c) 16; Some (d, t)
  end.

(** [DictForEach::RemoveAt], the last table first. *)
Fixpoint RemoveAt (cs : list column) (idx : Z) : M (Dicts cs) unit :=
  match cs with
  | [] => mret tt
  | c :: cs => _ ← on_tail (RemoveAt cs idx); on_head (Dict.RemoveAt idx)
  end.

(** [DictForEach::Clear]. *)
Fixpoint Clear (cs : list column) : M (Dicts cs) unit :=
  match cs with
  | [] => mret tt
  | c :: cs => _ ← on_tail (Clear cs); on_head Dict.Clear
  end.

(** The columns behind the first, whose values are indices. *)
Record key_type := KeyType {
  ktype : Type;
  ktype_eq : EqDecision ktype;
  ktype_countable : Countable ktype;
  ktype_hash : HashFunc ktype;
  ktype_size : Z
}.
Definition index_column (k : key_type) : column := Column (ktype k) (ktype_eq k) (ktype_countable k) (ktype_hash k) Z (ktype_size k).
Definition columns (ks : list key_type) : list column := index_column <$> ks.

(** [AddCore<keyIndex>].  When a key is there already, the row is removed from
    the tables that have it, the last one first: here each call removes its
    own part when the calls behind it have failed. *)
Fixpoint AddCore (ks : list key_type) (index : Z) : Keys (columns ks) -> M (Dicts (columns ks)) (bool * Z) :=
  match ks with
  | [] => fun _ => mret (true, index)
  | k :: ks' => fun keys =>
      r ← on_head (c := index_column k) (Dict.Add (ktype_size k) keys.1 index false);
      if negb r.1 then mret r
      else
        match ks' with
        | [] => mret r
        | _ =>
            r ← on_tail (AddCore ks' index keys.2);
            _ ← (if r.1 : bool then mret tt else on_head (Dict.RemoveAt index));
            mret r
        end
  end.

Section dictex.
(** The first column, and the keys of the others (at least one). *)
Context (c0 : column) (k1 : key_type) (ks : list key_type).
Abbreviation cols := (c0 :: columns (k1 :: ks)).

(** [Add], [AddCore0]. *)
Definition Add (v : value c0) (keys : Keys cols) : M (Dicts cols) (bool * Z) :=
  r ← on_head (Dict.Add (dataSize c0) keys.1 v false);
  if negb r.1 then mret r
  else
    r' ← on_tail (AddCore (k1 :: ks) r.2 keys.2);
    _ ← (if r'.1 : bool then mret tt else on_head (Dict.RemoveAt r.2));
    mret r'.

Definition Find {c} (i : at_ c cols) (k : key c) : M (Dicts cols) Z := DictAt i (Dict.Find k).
Definition Exists {c} (i : at_ c cols) (k : key c) : M (Dicts cols) bool := idx ← Find i k; mret (negb (idx =? -1)).
Definition ValueAt (idx : Z) : M (Dicts cols) (value c0) := on_head (Dict.ValueAt idx).
Definition KeyAt {c} (i : at_ c cols) (idx : Z) : M (Dicts cols) (key c) := DictAt i (Dict.KeyAt idx).
Definition TryGetValue {c} (i : at_ c cols) (k : key c) : M (Dicts cols) (option (value c0)) :=
  idx ← Find i k; if idx =? -1 then mret None else v ← ValueAt idx; mret (Some v).
Definition Remove {c} (i : at_ c cols) (k : key c) : M (Dicts cols) bool :=
  idx ← Find i k; if idx =? -1 then mret false else _ ← RemoveAt cols idx; mret true.
Definition Update {c} (i : at_ c cols) (oldKey newKey : key c) : M (Dicts cols) bool := DictAt i (Dict.Update oldKey newKey).
Definition UpdateAt {c} (i : at_ c cols) (idx : Z) (newKey : key c) : M (Dicts cols) bool := DictAt i (Dict.UpdateAt idx newKey).
Definition Count : M (Dicts cols) Z := on_head Dict.Count.

(** The iterator walks through the first table; it yields index and value. *)
Definition begin_ : M (Dicts cols) Z := on_head Iter_begin.
Definition end_ : M (Dicts cols) Z := on_head Iter_end.
Definition incr (i : Z) : M (Dicts cols) Z := on_head (Iter_incr i).
Definition deref (i : Z) : M (Dicts cols) (Z * value c0) := it ← on_head (item i); e ← demand (kv it); mret (i, e.2).

Fixpoint iterate (fuel : nat) (i : Z) : M (Dicts cols) (list (Z * value c0)) :=
  e ← end_;
  if i =? e then mret []
  else
    match fuel with
    | O => undef
    | S fuel => x ← deref i; j ← incr i; xs ← iterate fuel j; mret (x :: xs)
    end.
(** [for (auto iv : dictex)]. *)
Definition for_each : M (Dicts cols) (list (Z * value c0)) := n ← end_; i ← begin_; iterate (Z.to_nat n) i.
End dictex.
