(* ===== verification/DictExProps.v ===== *)
(** * Properties of DictEx: the tables stay in step

    All tables give the same index to a new row, although some of them may
    have got it from the free list and others from the end of the array: what
    they have in common is the stream of the indices to come ([DictTable]). *)

From Stdlib Require Import ZArith Lia.
From stdpp Require Import functions base numbers list gmap.
From S2P Require Import Prelude Util HashUtils Dict DictProps DictTable DictEx.
Open Scope Z_scope.

(** ** Rows *)

(** What the tables hold of a row, and its keys. *)
Fixpoint Cells (cs : list column) : Type :=
  match cs with
  | [] => unit
  | c :: cs => (key c * value c) * Cells cs
  end.

Fixpoint keys_of {cs} : Cells cs -> Keys cs :=
  match cs with
  | [] => fun _ => tt
  | c :: cs => fun x => (x.1.1, keys_of x.2)
  end.

(** No row has one of the keys. *)
Fixpoint fresh {cs} : Keys cs -> gmap Z (Keys cs) -> Prop :=
  match cs with
  | [] => fun _ _ => True
  | c :: cs => fun ks rows => (forall i row, rows !! i = Some row -> row.1 <> ks.1) /\ fresh ks.2 (snd <$> rows)
  end.

(** Row [i] has the first of the keys that is there. *)
Fixpoint taken {cs} : Keys cs -> gmap Z (Keys cs) -> Z -> Prop :=
  match cs with
  | [] => fun _ _ _ => False
  | c :: cs => fun ks rows i =>
      (exists row, rows !! i = Some row /\ row.1 = ks.1) \/
      (forall j row, rows !! j = Some row -> row.1 <> ks.1) /\ taken ks.2 (snd <$> rows) i
  end.

(** The key in a column. *)
Fixpoint key_at {c cs} (i : at_ c cs) : Keys cs -> key c :=
  match i with
  | here => fun ks => ks.1
  | there i => fun ks => key_at i ks.2
  end.
Fixpoint set_key {c cs} (i : at_ c cs) (k : key c) : Keys cs -> Keys cs :=
  match i with
  | here => fun ks => (k, ks.2)
  | there i => fun ks => (ks.1, set_key i k ks.2)
  end.

(** ** Tables in step *)

Fixpoint tables {cs} : Dicts cs -> (nat -> Z) -> gmap Z (Cells cs) -> Prop :=
  match cs with
  | [] => fun _ _ _ => True
  | c :: cs => fun ds s cells => table ds.1 s (fst <$> cells) /\ tables ds.2 s (snd <$> cells)
  end.

(** No table has more than [B] elements. *)
Fixpoint bounded {cs} (B : Z) : Dicts cs -> Prop :=
  match cs with
  | [] => fun _ => True
  | c :: cs => fun ds => count ds.1 <= B /\ bounded B ds.2
  end.

(** The element sizes allow tables of [B] elements to grow. *)
Definition sized (B : Z) (cs : list column) : Prop :=
  Forall (fun c => 8 <= dataSize c <= 512 /\ no_shrink (dataSize c) = true /\ B * 2 * dataSize c < 2 ^ 31) cs.

Definition push (i : Z) (s : nat -> Z) (n : nat) : Z := match n with O => i | S n => s n end.

Lemma on_head_done {c cs A} (m : M (Dict (key c) (value c)) A) (ds : Dicts (c :: cs)) a d : m ds.1 = Done a d -> on_head m ds = Done a (d, ds.2).
Proof. intros E. unfold on_head. by rewrite E. Qed.
Lemma on_tail_done {c cs A} (m : M (Dicts cs) A) (ds : Dicts (c :: cs)) a t : m ds.2 = Done a t -> on_tail m ds = Done a (ds.1, t).
Proof. intros E. unfold on_tail. by rewrite E. Qed.

Lemma tables_stream {cs} (ds : Dicts cs) s s' cells : (forall n, s' n = s n) -> tables ds s cells -> tables ds s' cells.
Proof.
  intros E. induction cs as [|c cs IH]; cbn; [done|]. intros [H1 H2]. split; [by eapply table_stream|by apply IH].
Qed.

Lemma bounded_mono {cs} B B' (ds : Dicts cs) : B <= B' -> bounded B ds -> bounded B' ds.
Proof. intros HB. induction cs as [|c cs IH]; cbn; [done|]. intros [H1 H2]. split; [lia|by apply IH]. Qed.

Lemma sized_cons B c cs : sized B (c :: cs) -> (8 <= dataSize c <= 512 /\ no_shrink (dataSize c) = true /\ B * 2 * dataSize c < 2 ^ 31) /\ sized B cs.
Proof. intros Hs. by inversion Hs. Qed.

Lemma fmap_keys_of {c cs} (cells : gmap Z (Cells (c :: cs))) : snd <$> (keys_of <$> cells) = keys_of <$> (snd <$> cells).
Proof. by rewrite <-!map_fmap_compose. Qed.

Lemma fmap_not_key {c cs} (cells : gmap Z (Cells (c :: cs))) (k : key c) :
  (forall i e, (fst <$> cells) !! i = Some e -> e.1 <> k) -> forall i row, (keys_of <$> cells) !! i = Some row -> row.1 <> k.
Proof.
  intros Hn i row (x & <- & Hx)%lookup_fmap_Some. apply (Hn i x.1). apply lookup_fmap_Some. by exists x.
Qed.

Lemma fmap_has_key {c cs} (cells : gmap Z (Cells (c :: cs))) i (k : key c) v :
  (fst <$> cells) !! i = Some (k, v) -> exists row, (keys_of <$> cells) !! i = Some row /\ row.1 = k.
Proof.
  intros (x & E & Hx)%lookup_fmap_Some. exists (keys_of (cs := c :: cs) x). split; [apply lookup_fmap_Some; by exists x|]. cbn. by rewrite E.
Qed.

Lemma fresh_cons {c cs} (ks : Keys (c :: cs)) (cells : gmap Z (Cells (c :: cs))) :
  (forall i e, (fst <$> cells) !! i = Some e -> e.1 <> ks.1) -> fresh ks.2 (keys_of <$> (snd <$> cells)) -> fresh ks (keys_of <$> cells).
Proof. intros Hn Hf. split; [by apply fmap_not_key|]. by rewrite fmap_keys_of. Qed.

Lemma taken_here {c cs} (ks : Keys (c :: cs)) (cells : gmap Z (Cells (c :: cs))) i v :
  (fst <$> cells) !! i = Some (ks.1, v) -> taken ks (keys_of <$> cells) i.
Proof. intros Hi. left. by eapply fmap_has_key. Qed.

Lemma taken_there {c cs} (ks : Keys (c :: cs)) (cells : gmap Z (Cells (c :: cs))) i :
  (forall j e, (fst <$> cells) !! j = Some e -> e.1 <> ks.1) -> taken ks.2 (keys_of <$> (snd <$> cells)) i -> taken ks (keys_of <$> cells) i.
Proof. intros Hn Hf. right. split; [by apply fmap_not_key|]. by rewrite fmap_keys_of. Qed.

(** ** Adding a row *)

Fixpoint index_cells (ks : list key_type) (i : Z) : Keys (columns ks) -> Cells (columns ks) :=
  match ks with
  | [] => fun _ => tt
  | k :: ks => fun keys => ((keys.1, i), index_cells ks i keys.2)
  end.

Lemma keys_of_index_cells ks i keys : keys_of (index_cells ks i keys) = keys.
Proof. induction ks as [|k ks IH]; cbn; [by destruct keys|]. rewrite IH. by destruct keys. Qed.

Lemma grow_bound n B z : n <= B -> 8 <= z <= 512 -> B * 2 * z < 2 ^ 31 -> n * 2 * z < 2 ^ 31.
Proof. intros. nia. Qed.

Lemma step_bound n n0 B : n <= n0 + 1 -> n0 <= B -> n <= B + 1.
Proof. lia. Qed.

(** In every table the index that is asked for is the next one; a failure
    leaves the rows as they were. *)
Lemma AddCore_spec B ks keys (ds : Dicts (columns ks)) s cells : tables ds s cells -> bounded B ds -> sized B (columns ks) ->
  (exists ds', AddCore ks (s 0%nat) keys ds = Done (true, s 0%nat) ds' /\ tables ds' (fun n => s (S n)) (<[s 0%nat := index_cells ks (s 0%nat) keys]> cells) /\
     bounded (B + 1) ds' /\ fresh keys (keys_of <$> cells)) \/
  (exists i ds', AddCore ks (s 0%nat) keys ds = Done (false, i) ds' /\ tables ds' s cells /\ bounded (B + 1) ds' /\ taken keys (keys_of <$> cells) i).
Proof.
  revert keys ds cells. induction ks as [|k ks IH]; intros keys ds cells Ht Hb Hs; [left; by exists ds|].
  destruct Ht as [Ht Hts], Hb as [Hb Hbs]. apply sized_cons in Hs as [(Hs1 & Hs2 & Hs3) Hss]. cbn [index_column dataSize] in Hs1, Hs2, Hs3.
  set (j := s 0%nat) in *. pose proof (table_free _ _ _ Ht) as [Hfr H0]. fold j in Hfr, H0.
  destruct (table_Find (K := key (index_column k)) ds.1 s _ keys.1 Ht) as (i & _ & [[_ Hn]|(_ & v & Hi)]).
  2: { right. exists i, ds. pose proof (table_Add_taken (K := key (index_column k)) (ktype_size k) ds.1 s _ i keys.1 j v Ht Hi) as E.
    split; [|split; [done|split; [split; [lia|by eapply bounded_mono; [|exact Hbs]; lia]|exact (taken_here (c := index_column k) keys cells i v Hi)]]].
    cbn [AddCore]. erewrite bind_done by (apply (on_head_done (c := index_column k)); exact E). cbn. by destruct ds. }
  destruct (table_Add_new (K := key (index_column k)) (ktype_size k) ds.1 s _ keys.1 j Hs1 Hs2 (grow_bound _ _ _ Hb Hs1 Hs3) Ht Hn) as (d & E & Ht' & Hc). fold j in E, Ht'.
  assert (Hins : forall x : Cells (columns ks), fst <$> <[j := ((keys.1, j), x)]> cells = <[j := (keys.1, j)]> (fst <$> cells)) by (intros x; by rewrite fmap_insert).
  destruct ks as [|k2 ks].
  - left. exists (d, ds.2). split; [|split; [|split; [split; [exact (step_bound _ _ _ Hc Hb)|done]|exact (fresh_cons (c := index_column k) keys cells Hn I)]]].
    + cbn [AddCore]. erewrite bind_done by (apply (on_head_done (c := index_column k)); exact E). done.
    + split; [|done]. cbn [index_cells fst]. by rewrite Hins.
  - destruct (IH keys.2 ds.2 (snd <$> cells) Hts Hbs Hss) as [(ds' & E' & Hts' & Hbs' & Hf)|(i' & ds' & E' & Hts' & Hbs' & Hf)].
    + left. exists (d, ds'). split; [|split; [|split; [split; [exact (step_bound _ _ _ Hc Hb)|done]|]]].
      * cbn [AddCore]. erewrite bind_done by (apply (on_head_done (c := index_column k)); exact E). cbn [negb fst].
        erewrite bind_done by (apply (on_tail_done (c := index_column k)); exact E'). done.
      * split; cbn [fst snd]; [cbn [index_cells]; by rewrite Hins|]. by rewrite fmap_insert.
      * exact (fresh_cons (c := index_column k) keys cells Hn Hf).
    + right. destruct (table_RemoveAt d _ _ j (keys.1, j) Ht') as (d2 & E2 & Ht2 & Hc2); [by rewrite lookup_insert_eq|].
      exists i', (d2, ds'). split; [|split; [|split; [split; [exact (step_bound _ _ _ (Z.le_trans _ _ _ (Z.eq_le_incl _ _ Hc2) Hc) Hb)|done]|]]].
      * cbn [AddCore]. erewrite bind_done by (apply (on_head_done (c := index_column k)); exact E). cbn [negb fst].
        erewrite bind_done by (apply (on_tail_done (c := index_column k)); exact E'). cbn [fst]. erewrite bind_done by (apply (on_head_done (c := index_column k)); exact E2). done.
      * split; [|done]. cbn [fst]. rewrite delete_insert_id in Ht2 by done. eapply table_stream; [|exact Ht2]. by intros [|n].
      * exact (taken_there (c := index_column k) keys cells i' Hn Hf).
Qed.

(** ** One column *)

Fixpoint dict_at {c cs} (i : at_ c cs) : Dicts cs -> Dict (key c) (value c) :=
  match i with
  | here => fun ds => ds.1
  | there i => fun ds => dict_at i ds.2
  end.
Fixpoint put_dict {c cs} (i : at_ c cs) (d : Dict (key c) (value c)) : Dicts cs -> Dicts cs :=
  match i with
  | here => fun ds => (d, ds.2)
  | there i => fun ds => (ds.1, put_dict i d ds.2)
  end.
Fixpoint cell_of {c cs} (i : at_ c cs) : Cells cs -> key c * value c :=
  match i with
  | here => fun x => x.1
  | there i => fun x => cell_of i x.2
  end.
Fixpoint put_cell {c cs} (i : at_ c cs) (e : key c * value c) : Cells cs -> Cells cs :=
  match i with
  | here => fun x => (e, x.2)
  | there i => fun x => (x.1, put_cell i e x.2)
  end.

Lemma DictAt_done {c cs A} (i : at_ c cs) (m : M (Dict (key c) (value c)) A) (ds : Dicts cs) a d :
  m (dict_at i ds) = Done a d -> DictAt i m ds = Done a (put_dict i d ds).
Proof.
  induction i as [cs|c' cs i IH]; intros E; [by apply on_head_done|]. cbn. by apply (on_tail_done (c := c')), IH.
Qed.

Lemma DictAt_ext {c cs A} (i : at_ c cs) (m m' : M (Dict (key c) (value c)) A) (ds : Dicts cs) :
  m (dict_at i ds) = m' (dict_at i ds) -> DictAt i m ds = DictAt i m' ds.
Proof. induction i as [cs|c' cs i IH]; intros E; cbn in *; [unfold on_head; by rewrite E|unfold on_tail; by rewrite IH]. Qed.

Lemma put_dict_same {c cs} (i : at_ c cs) (ds : Dicts cs) : put_dict i (dict_at i ds) ds = ds.
Proof. induction i as [cs|c' cs i IH]; cbn; [by destruct ds|]. rewrite IH. by destruct ds. Qed.

Lemma key_at_cell {c cs} (i : at_ c cs) (x : Cells cs) : key_at i (keys_of x) = (cell_of i x).1.
Proof. induction i as [cs|c' cs i IH]; cbn; [done|]. apply IH. Qed.

Lemma keys_of_put {c cs} (i : at_ c cs) e (x : Cells cs) : keys_of (put_cell i e x) = set_key i e.1 (keys_of x).
Proof. induction i as [cs|c' cs i IH]; cbn; [done|]. by rewrite IH. Qed.

(** The value of the first column does not change with a key. *)
Definition first_value {cs} : Cells cs -> match cs return Type with [] => unit | c :: _ => value c end :=
  match cs with [] => fun _ => tt | c :: _ => fun x => x.1.2 end.

Lemma first_value_put {c cs} (i : at_ c cs) k (x : Cells cs) : first_value (put_cell i (k, (cell_of i x).2) x) = first_value x.
Proof. by destruct i. Qed.

Lemma tables_at {c cs} (i : at_ c cs) (ds : Dicts cs) s cells : tables ds s cells -> table (dict_at i ds) s (cell_of i <$> cells).
Proof.
  induction i as [cs|c' cs i IH]; intros [H1 H2]; [done|]. cbn. specialize (IH ds.2 (snd <$> cells) H2). by rewrite <-map_fmap_compose in IH.
Qed.

Lemma insert_fmap_same {A B} (f : A -> B) (m : gmap Z A) j x y : m !! j = Some x -> f y = f x -> f <$> <[j := y]> m = f <$> m.
Proof. intros Hj E. rewrite fmap_insert, E, insert_id; [done|]. by rewrite lookup_fmap, Hj. Qed.

Lemma tables_put {c cs} (i : at_ c cs) (ds : Dicts cs) s cells j x e d : tables ds s cells -> cells !! j = Some x ->
  table d s (<[j := e]> (cell_of i <$> cells)) -> tables (put_dict i d ds) s (<[j := put_cell i e x]> cells).
Proof.
  revert ds cells x. induction i as [cs|c' cs i IH]; intros ds cells x [H1 H2] Hj Ht; split; cbn [put_dict put_cell fst snd].
  - by rewrite fmap_insert.
  - by rewrite (insert_fmap_same _ _ _ x).
  - by rewrite (insert_fmap_same _ _ _ x).
  - rewrite fmap_insert. apply IH; [done|rewrite lookup_fmap; exact (f_equal (fmap snd) Hj)|]. rewrite <-map_fmap_compose. exact Ht.
Qed.

Lemma bounded_put {c cs} (i : at_ c cs) B (ds : Dicts cs) d : bounded B ds -> count d = count (dict_at i ds) -> bounded B (put_dict i d ds).
Proof.
  induction i as [cs|c' cs i IH]; intros [H1 H2] Hd; split; cbn [put_dict dict_at fst snd] in *; [by rewrite Hd|done|done|by apply IH].
Qed.

(** ** All columns *)

Lemma RemoveAt_tables {cs} B (ds : Dicts cs) s cells i x : tables ds s cells -> bounded B ds -> cells !! i = Some x ->
  exists ds', RemoveAt cs i ds = Done tt ds' /\ tables ds' (push i s) (delete i cells) /\ bounded B ds'.
Proof.
  revert cells x. induction cs as [|c cs IH]; intros cells x; [by exists ds|]. intros [H1 H2] [B1 B2] Hi.
  destruct (IH ds.2 (snd <$> cells) x.2 H2 B2) as (t & E & Ht & Hb); [rewrite lookup_fmap; exact (f_equal (fmap snd) Hi)|].
  destruct (table_RemoveAt ds.1 s (fst <$> cells) i x.1 H1) as (d & E' & Hd & Hc); [rewrite lookup_fmap; exact (f_equal (fmap fst) Hi)|].
  exists (d, t). split; [|split].
  - cbn [RemoveAt]. erewrite bind_done by (apply (on_tail_done (c := c)); exact E). by apply (on_head_done (c := c) (cs := cs) _ (ds.1, t)).
  - split; cbn [fst snd]; rewrite fmap_delete; [exact Hd|exact Ht].
  - split; cbn [fst snd]; [by rewrite Hc|done].
Qed.

Lemma Clear_tables {cs} (ds : Dicts cs) s cells : tables ds s cells -> exists ds', Clear cs ds = Done tt ds' /\ tables ds' Z.of_nat ∅ /\ bounded 0 ds'.
Proof.
  revert cells. induction cs as [|c cs IH]; intros cells; [by exists ds|]. intros [H1 H2]. destruct (IH ds.2 _ H2) as (t & E & Ht & Hb).
  destruct (table_Clear _ _ _ H1) as (d & E' & Hd & Hc). exists (d, t). split; [|split].
  - cbn [Clear]. erewrite bind_done by (apply (on_tail_done (c := c)); exact E). by apply (on_head_done (c := c) (cs := cs) _ (ds.1, t)).
  - split; cbn [fst snd]; by rewrite fmap_empty.
  - split; cbn [fst snd]; [by rewrite Hc|done].
Qed.

Lemma Init_tables cs (ds : Dicts cs) : sized 0 cs -> Init cs = Some ds -> tables ds Z.of_nat ∅ /\ bounded 0 ds.
Proof.
  induction cs as [|c cs IH]; intros Hs E; [done|]. apply sized_cons in Hs as [(Hs1 & _) Hss]. cbn [Init] in E.
  destruct (Init cs) as [t|] eqn:Et; [|done]. cbn in E. destruct (new_Dict (dataSize c) 16) as [d|] eqn:Ed; [|done]. injection E as <-.
  destruct (IH t Hss eq_refl) as [Ht Hb]. destruct (table_new _ _ d Hs1 Ed) as [Hd Hc]. split; split; cbn [fst snd]; rewrite ?fmap_empty; try done. by rewrite Hc.
Qed.

(** ** Sessions *)

Section session.
Context (c0 : column) (k1 : key_type) (ks : list key_type).
Abbreviation cols := (c0 :: columns (k1 :: ks)).
(** The abstract state: the values and keys of the rows. *)
Abbreviation rows_t := (gmap Z (value c0 * Keys cols)).

Inductive call :=
| CAdd (v : value c0) (keys : Keys cols)
| CFind {c} (i : at_ c cols) (k : key c)
| CExists {c} (i : at_ c cols) (k : key c)
| CTryGetValue {c} (i : at_ c cols) (k : key c)
| CRemove {c} (i : at_ c cols) (k : key c)
| CRemoveAt (idx : Z)
| CUpdate {c} (i : at_ c cols) (k k' : key c)
| CUpdateAt {c} (i : at_ c cols) (idx : Z) (k' : key c)
| CKeyAt {c} (i : at_ c cols) (idx : Z)
| CValueAt (idx : Z)
| CCount
| CForEach.

Definition reply (x : call) : Type :=
  match x with
  | CAdd _ _ => bool * Z
  | CFind _ _ | CCount => Z
  | CExists _ _ | CRemove _ _ | CUpdate _ _ _ | CUpdateAt _ _ _ => bool
  | CTryGetValue _ _ => option (value c0)
  | CRemoveAt _ => unit
  | @CKeyAt c _ _ => key c
  | CValueAt _ => value c0
  | CForEach => list (Z * value c0)
  end.

Definition exec (x : call) : M (Dicts cols) (reply x) :=
  match x with
  | CAdd v keys => Add c0 k1 ks v keys
  | CFind i k => Find c0 k1 ks i k
  | CExists i k => Exists c0 k1 ks i k
  | CTryGetValue i k => TryGetValue c0 k1 ks i k
  | CRemove i k => Remove c0 k1 ks i k
  | CRemoveAt idx => RemoveAt cols idx
  | CUpdate i k k' => Update c0 k1 ks i k k'
  | CUpdateAt i idx k' => UpdateAt c0 k1 ks i idx k'
  | CKeyAt i idx => KeyAt c0 k1 ks i idx
  | CValueAt idx => ValueAt c0 k1 ks idx
  | CCount => Count c0 k1 ks
  | CForEach => for_each c0 k1 ks
  end.

(** Row [idx] has key [k] in column [i]. *)
Definition has_key {c} (rows : rows_t) (i : at_ c cols) (k : key c) (idx : Z) : Prop := exists row, rows !! idx = Some row /\ key_at i row.2 = k.
(** [Find] says which row has the key, or -1. *)
Definition found {c} (rows : rows_t) (i : at_ c cols) (k : key c) (idx : Z) : Prop :=
  idx = -1 /\ (forall j, ~ has_key rows i k j) \/ 0 <= idx /\ has_key rows i k idx.

(** Indices are those of rows; a new key is the old one or in no row. *)
Definition legal (x : call) (rows : rows_t) : Prop :=
  match x with
  | CRemoveAt idx | CKeyAt _ idx | CValueAt idx => is_Some (rows !! idx)
  | CUpdate i k k' => k' = k \/ forall j, ~ has_key rows i k' j
  | CUpdateAt i idx k' => is_Some (rows !! idx) /\ forall j, has_key rows i k' j -> j = idx
  | _ => True
  end.

(** What a call answers, and the rows after it. *)
Definition answers (x : call) (rows : rows_t) : reply x -> rows_t -> Prop :=
  match x with
  | CAdd v keys => fun r rows' =>
      if r.1 then fresh keys (snd <$> rows) /\ rows !! r.2 = None /\ 0 <= r.2 /\ rows' = <[r.2 := (v, keys)]> rows
      else taken keys (snd <$> rows) r.2 /\ rows' = rows
  | CFind i k => fun r rows' => found rows i k r /\ rows' = rows
  | CExists i k => fun r rows' => (r = true <-> exists j, has_key rows i k j) /\ rows' = rows
  | CTryGetValue i k => fun r rows' =>
      match r with
      | Some v => exists j row, rows !! j = Some row /\ key_at i row.2 = k /\ row.1 = v
      | None => forall j, ~ has_key rows i k j
      end /\ rows' = rows
  | CRemove i k => fun r rows' =>
      if r : bool then exists j, has_key rows i k j /\ rows' = delete j rows else (forall j, ~ has_key rows i k j) /\ rows' = rows
  | CRemoveAt idx => fun _ rows' => rows' = delete idx rows
  | CUpdate i k k' => fun r rows' =>
      if r : bool then exists j row, rows !! j = Some row /\ key_at i row.2 = k /\ rows' = <[j := (row.1, set_key i k' row.2)]> rows
      else (forall j, ~ has_key rows i k j) /\ rows' = rows
  | CUpdateAt i idx k' => fun r rows' => r = true /\ exists row, rows !! idx = Some row /\ rows' = <[idx := (row.1, set_key i k' row.2)]> rows
  | CKeyAt i idx => fun r rows' => has_key rows i r idx /\ rows' = rows
  | CValueAt idx => fun r rows' => fst <$> rows !! idx = Some r /\ rows' = rows
  | CCount => fun r rows' => r = Z.of_nat (base.size rows) /\ rows' = rows
  | CForEach => fun r rows' => r ≡ₚ map_to_list (fst <$> rows) /\ rows' = rows
  end.

(** As long as its calls are legal, a session is defined and answers so. *)
Fixpoint session (xs : list call) (ds : Dicts cols) (rows : rows_t) : Prop :=
  match xs with
  | [] => True
  | x :: xs => legal x rows -> exists r ds' rows', exec x ds = Done r ds' /\ answers x rows r rows' /\ session xs ds' rows'
  end.

(** ** The tables represent the rows *)

Definition to_row (x : Cells cols) : value c0 * Keys cols := (x.1.2, keys_of x).
Definition represents (B : Z) (ds : Dicts cols) (rows : rows_t) : Prop :=
  exists s cells, tables ds s cells /\ bounded B ds /\ rows = to_row <$> cells.

Lemma to_row_keys (cells : gmap Z (Cells cols)) : snd <$> (to_row <$> cells) = keys_of <$> cells.
Proof. by rewrite <-map_fmap_compose. Qed.

Lemma has_key_cell {c} (i : at_ c cols) cells k j : has_key (to_row <$> cells) i k j <-> exists v, (cell_of i <$> cells) !! j = Some (k, v).
Proof.
  split.
  - intros (row & (x & <- & Hx)%lookup_fmap_Some & <-). exists (cell_of i x).2. apply lookup_fmap_Some. exists x. split; [|done].
    unfold to_row. cbn [snd]. rewrite key_at_cell. by destruct (cell_of i x).
  - intros (v & (x & Ex & Hx)%lookup_fmap_Some). exists (to_row x). split; [apply lookup_fmap_Some; by exists x|]. unfold to_row. cbn [snd]. by rewrite key_at_cell, Ex.
Qed.

Lemma Find_rows {c} (i : at_ c cols) k (ds : Dicts cols) s cells : tables ds s cells -> exists idx, DictAt i (Dict.Find k) ds = Done idx ds /\ found (to_row <$> cells) i k idx.
Proof.
  intros Ht. pose proof (tables_at i ds s cells Ht) as Hi. destruct (table_Find _ _ _ k Hi) as (idx & E & Hf). exists idx. split.
  - rewrite (DictAt_done _ _ _ _ _ E). by rewrite put_dict_same.
  - destruct Hf as [[-> Hn]|(H0 & v & Hv)].
    + left. split; [done|]. intros j (v & Hj)%has_key_cell. by apply (Hn j (k, v)).
    + right. split; [done|]. apply has_key_cell. by exists v.
Qed.

Lemma represents_mono B B' ds rows : B <= B' -> represents B ds rows -> represents B' ds rows.
Proof. intros HB (s & cells & Ht & Hb & E). exists s, cells. split; [done|]. split; [by eapply bounded_mono|done]. Qed.

Definition performs (B : Z) (x : call) (ds : Dicts cols) (rows : rows_t) : Prop :=
  exists r ds' rows', exec x ds = Done r ds' /\ answers x rows r rows' /\ represents (B + 1) ds' rows'.

(** A call that only looks. *)
Lemma performs_same B x ds rows r : represents B ds rows -> exec x ds = Done r ds -> answers x rows r rows -> performs B x ds rows.
Proof. intros Hr E Ha. exists r, ds, rows. split; [done|]. split; [done|]. eapply represents_mono; [|done]. lia. Qed.

Lemma Add_performs B v keys ds rows : represents B ds rows -> sized B cols -> performs B (CAdd v keys) ds rows.
Proof.
  intros (s & cells & Ht & Hb & ->) Hs. pose proof Ht as [Ht0 Hts]. destruct Hb as [Hb Hbs]. apply sized_cons in Hs as [(Hs1 & Hs2 & Hs3) Hss].
  unfold performs. cbn [exec answers]. unfold Add. rewrite to_row_keys. pose proof (table_free _ _ _ Ht0) as [Hfr H0].
  destruct (table_Find ds.1 s _ keys.1 Ht0) as (i & _ & [[_ Hn]|(_ & w & Hi)]).
  2: { pose proof (table_Add_taken (dataSize c0) ds.1 s _ i keys.1 v w Ht0 Hi) as E. exists (false, i), ds, (to_row <$> cells).
    split; [erewrite bind_done by (apply (on_head_done (c := c0)); exact E); by destruct ds|].
    split; [split; [|done]|exists s, cells; split; [done|]; split; [split; [lia|by eapply bounded_mono; [|exact Hbs]; lia]|done]]. exact (taken_here keys cells i w Hi). }
  destruct (table_Add_new (dataSize c0) ds.1 s _ keys.1 v Hs1 Hs2 (grow_bound _ _ _ Hb Hs1 Hs3) Ht0 Hn) as (d & E & Ht' & Hc).
  destruct (AddCore_spec B (k1 :: ks) keys.2 ds.2 s (snd <$> cells) Hts Hbs Hss) as [(ds' & E' & Hts' & Hbs' & Hf)|(i' & ds' & E' & Hts' & Hbs' & Hf)].
  - exists (true, s 0%nat), (d, ds'), (<[s 0%nat := (v, keys)]> (to_row <$> cells)). split; [|split].
    + erewrite bind_done by (apply (on_head_done (c := c0)); exact E). cbn [negb fst snd].
      erewrite bind_done by (apply (on_tail_done (c := c0)); exact E'). done.
    + split; [exact (fresh_cons keys cells Hn Hf)|]. split; [|done].
      cbn [snd]. destruct ((to_row <$> cells) !! s 0%nat) as [row|] eqn:Er; [|done]. apply lookup_fmap_Some in Er as (x & _ & Hx).
      assert (Hx' : (fst <$> cells) !! s 0%nat = Some x.1) by (apply lookup_fmap_Some; by exists x). exfalso. exact (eq_None_ne_Some_1 _ _ Hfr Hx').
    + exists (fun n => s (S n)), (<[s 0%nat := ((keys.1, v), index_cells (k1 :: ks) (s 0%nat) keys.2)]> cells). split; [|split].
      * split; cbn [fst snd]; rewrite fmap_insert; [exact Ht'|exact Hts'].
      * split; [exact (step_bound _ _ _ Hc Hb)|exact Hbs'].
      * rewrite fmap_insert. f_equal. unfold to_row. change (keys_of (cs := cols) (keys.1, v, index_cells (k1 :: ks) (s 0%nat) keys.2)) with (keys.1, keys_of (index_cells (k1 :: ks) (s 0%nat) keys.2)).
        rewrite keys_of_index_cells. by destruct keys.
  - destruct (table_RemoveAt d _ _ (s 0%nat) (keys.1, v) Ht') as (d2 & E2 & Ht2 & Hc2); [by rewrite lookup_insert_eq|].
    exists (false, i'), (d2, ds'), (to_row <$> cells). split; [|split; [split; [exact (taken_there keys cells i' Hn Hf)|done]|]].
    + erewrite bind_done by (apply (on_head_done (c := c0)); exact E). cbn [negb fst snd].
      erewrite bind_done by (apply (on_tail_done (c := c0)); exact E'). cbn [fst snd]. erewrite bind_done by (apply (on_head_done (c := c0)); exact E2). done.
    + exists s, cells. split; [split; [|exact Hts']|split; [|done]].
      * cbn [fst]. rewrite delete_insert_id in Ht2 by done. eapply table_stream; [|exact Ht2]. by intros [|n].
      * split; [exact (step_bound _ _ _ (Z.le_trans _ _ _ (Z.eq_le_incl _ _ Hc2) Hc) Hb)|exact Hbs'].
Qed.

Lemma RemoveAt_rows B ds rows idx : represents B ds rows -> is_Some (rows !! idx) ->
  exists ds', RemoveAt cols idx ds = Done tt ds' /\ represents B ds' (delete idx rows).
Proof.
  intros (s & cells & Ht & Hb & ->) [row Hrow]. apply lookup_fmap_Some in Hrow as (x & _ & Hx).
  destruct (RemoveAt_tables B ds s cells idx x Ht Hb Hx) as (ds' & E & Ht' & Hb'). exists ds'. split; [done|].
  exists (push idx s), (delete idx cells). split; [done|]. split; [done|]. by rewrite fmap_delete.
Qed.

(** A key of a row changes in one table. *)
Lemma UpdateAt_rows B {c} (i : at_ c cols) ds s cells idx x k' : tables ds s cells -> bounded B ds -> cells !! idx = Some x ->
  (forall j, has_key (to_row <$> cells) i k' j -> j = idx) ->
  exists ds', DictAt i (Dict.UpdateAt idx k') ds = Done true ds' /\ represents B ds' (<[idx := ((to_row x).1, set_key i k' (to_row x).2)]> (to_row <$> cells)).
Proof.
  intros Ht Hb Hx Hu. pose proof (tables_at i ds s cells Ht) as Hi. assert (Hc : (cell_of i <$> cells) !! idx = Some ((cell_of i x).1, (cell_of i x).2)).
  { apply lookup_fmap_Some. exists x. split; [apply surjective_pairing|done]. }
  destruct (table_UpdateAt _ _ _ idx _ _ k' Hi Hc) as (d' & E & Hd & Hn).
  { destruct (decide (k' = (cell_of i x).1)) as [|Hne]; [by left|right]. intros j e Hj <-. assert (j = idx) as ->.
    { apply Hu, has_key_cell. exists e.2. by rewrite <-surjective_pairing. }
    rewrite Hc in Hj. injection Hj as <-. done. }
  exists (put_dict i d' ds). split; [by apply DictAt_done|]. exists s, (<[idx := put_cell i (k', (cell_of i x).2) x]> cells).
  split; [by apply (tables_put i ds s cells idx x)|]. split; [by apply bounded_put|]. rewrite fmap_insert. f_equal. unfold to_row. rewrite keys_of_put. cbn [fst snd]. f_equal.
  exact (eq_sym (first_value_put i k' x)).
Qed.

(** *** Iteration *)

(** Indices and values from [j] on. *)
Definition listed (r : gmap Z (key c0 * value c0)) (n j : Z) : list (Z * value c0) := omap (fun x => (fun e => (x, e.2)) <$> r !! x) (seqZ j (n - j)).

Lemma listed_skip r n i j : i <= j <= n -> (forall x, i <= x < j -> r !! x = None) -> listed r n i = listed r n j.
Proof.
  intros Hij Hn. unfold listed. replace (n - i) with ((j - i) + (n - j)) by lia. rewrite seqZ_app by lia. rewrite omap_app.
  rewrite omap_none; [by replace (i + (j - i)) with j by lia|]. intros x Hx%elem_of_seqZ. by rewrite Hn by lia.
Qed.

Lemma listed_all d s r : table d s r -> listed r (count d) 0 ≡ₚ map_to_list (snd <$> r).
Proof.
  intros Ht. apply NoDup_Permutation; [|apply NoDup_map_to_list|].
  - apply NoDup_omap_inj; [|apply NoDup_seqZ]. intros x y b _ _ Hx Hy. destruct (r !! x), (r !! y); naive_solver.
  - intros [x v]. unfold listed. rewrite elem_of_map_to_list, lookup_fmap_Some, list_elem_of_omap. split.
    + intros (y & _ & E). destruct (r !! y) as [e|] eqn:Ey; [|done]. injection E as <- <-. by exists e.
    + intros (e & <- & He). exists x. split; [|by rewrite He]. pose proof (table_index _ _ _ _ _ Ht He). apply elem_of_seqZ. lia.
Qed.

Lemma deref_spec (ds : Dicts cols) s r j e : table ds.1 s r -> r !! j = Some e -> deref c0 k1 ks j ds = Done (j, e.2) ds.
Proof.
  intros Ht He. destruct e as [k v]. destruct (table_entry _ _ _ j k v Ht He) as (_ & it & Eit & Ekv & _). unfold deref.
  assert (Ei : item j ds.1 = Done it ds.1) by (unfold item; rewrite bind_get; by rewrite Eit).
  erewrite bind_done by (apply (on_head_done (c := c0)); exact Ei). rewrite Ekv. cbn. by destruct ds.
Qed.

Lemma iterate_spec fuel (ds : Dicts cols) s r j : table ds.1 s r -> 0 <= j <= count ds.1 -> (j < count ds.1 -> is_Some (r !! j)) -> count ds.1 - j <= Z.of_nat fuel ->
  iterate c0 k1 ks fuel j ds = Done (listed r (count ds.1) j) ds.
Proof.
  intros Ht. assert (Ee : end_ c0 k1 ks ds = Done (count ds.1) ds) by (unfold end_; rewrite (on_head_done (c := c0) Iter_end ds (count ds.1) ds.1 eq_refl); by destruct ds).
  revert j. induction fuel as [|fuel IH]; intros j Hj Hu Hf; cbn [iterate]; rewrite (bind_done _ _ _ _ _ Ee); destruct (Z.eqb_spec j (count ds.1)) as [E|E]; try lia.
  1,2: unfold listed; rewrite E, Z.sub_diag; done.
  destruct (Hu ltac:(lia)) as [e He]. rewrite (bind_done _ _ _ _ _ (deref_spec ds s r j e Ht He)).
  destruct (table_incr _ _ _ j Ht) as (i & Ei & Hi & Hn & Hu'); [lia|]. 
  assert (Einc : incr c0 k1 ks j ds = Done i ds) by (unfold incr; rewrite (on_head_done (c := c0) _ ds i ds.1 Ei); by destruct ds).
  rewrite (bind_done _ _ _ _ _ Einc), (bind_done _ _ _ _ _ (IH i ltac:(lia) Hu' ltac:(lia))).
  unfold mret, M_ret. f_equal. unfold listed at 2. rewrite seqZ_cons by lia. cbn [omap list_omap]. rewrite He. cbn [fmap option_fmap option_map].
  f_equal. rewrite <-(listed_skip r (count ds.1) (Z.succ j) i); [|lia|intros x Hx; apply Hn; lia]. unfold listed. do 2 f_equal. lia.
Qed.

Lemma for_each_spec (ds : Dicts cols) s r : table ds.1 s r -> exists xs, for_each c0 k1 ks ds = Done xs ds /\ xs ≡ₚ map_to_list (snd <$> r).
Proof.
  intros Ht. pose proof (table_count _ _ _ Ht). unfold for_each.
  assert (Ee : end_ c0 k1 ks ds = Done (count ds.1) ds) by (unfold end_; rewrite (on_head_done (c := c0) Iter_end ds (count ds.1) ds.1 eq_refl); by destruct ds).
  rewrite (bind_done _ _ _ _ _ Ee).
  destruct (table_begin _ _ _ Ht) as (j & Ej & Hj & Hn & Hu). 
  assert (Eb : begin_ c0 k1 ks ds = Done j ds) by (unfold begin_; rewrite (on_head_done (c := c0) _ ds j ds.1 Ej); by destruct ds).
  rewrite (bind_done _ _ _ _ _ Eb). exists (listed r (count ds.1) j). split; [apply (iterate_spec _ ds s r); [done|lia|done|lia]|].
  rewrite <-(listed_all _ _ _ Ht). by rewrite (listed_skip r _ 0 j).
Qed.

(** *** Every call *)

Lemma row_cell (cells : gmap Z (Cells cols)) idx row : (to_row <$> cells) !! idx = Some row -> exists x, cells !! idx = Some x /\ to_row x = row.
Proof. intros (x & E & Hx)%lookup_fmap_Some. by exists x. Qed.

Lemma ValueAt_rows (ds : Dicts cols) s (cells : gmap Z (Cells cols)) idx x : tables ds s cells -> cells !! idx = Some x -> ValueAt c0 k1 ks idx ds = Done x.1.2 ds.
Proof.
  intros [Ht0 _] Hx. assert (Hx' : (fst <$> cells) !! idx = Some (x.1.1, x.1.2)) by (apply lookup_fmap_Some; exists x; split; [apply surjective_pairing|done]).
  unfold ValueAt. rewrite (on_head_done (c := c0) _ ds x.1.2 ds.1 (table_ValueAt ds.1 s _ idx _ _ Ht0 Hx')). by destruct ds.
Qed.

Lemma exec_performs B x ds rows : represents B ds rows -> legal x rows -> sized B cols -> performs B x ds rows.
Proof.
  intros Hr Hl Hs. destruct x as [v keys|c i k|c i k|c i k|c i k|idx|c i k k'|c i idx k'|c i idx|idx| |]; [by apply Add_performs|..];
    pose proof Hr as (s & cells & Ht & Hb & ->); pose proof Ht as [Ht0 _]; cbn [legal] in Hl.
  - destruct (Find_rows i k ds s cells Ht) as (idx & E & Hf). by apply (performs_same B (CFind i k) _ _ idx).
  - destruct (Find_rows i k ds s cells Ht) as (idx & E & Hf). apply (performs_same B (CExists i k) _ _ (negb (idx =? -1))); [done|cbn [exec]; unfold Exists, Find; by erewrite bind_done by exact E|].
    split; [|done]. destruct Hf as [[-> Hn]|[H0 Hf]]; [split; [done|intros [j Hj]; by destruct (Hn j)]|]. destruct (Z.eqb_spec idx (-1)); [lia|]. split; [by exists idx|done].
  - destruct (Find_rows i k ds s cells Ht) as (idx & E & Hf). destruct Hf as [[-> Hn]|[H0 (row & Hrow & Hk)]].
    + apply (performs_same B (CTryGetValue i k) _ _ None); [done|cbn [exec]; unfold TryGetValue, Find; by erewrite bind_done by exact E|done].
    + apply (performs_same B (CTryGetValue i k) _ _ (Some row.1)); [done| |split; [by exists idx, row|done]].
      cbn [exec]. unfold TryGetValue, Find. erewrite bind_done by exact E. destruct (Z.eqb_spec idx (-1)); [lia|]. destruct (row_cell _ _ _ Hrow) as (x & Hx & <-).
      by erewrite bind_done by (by apply (ValueAt_rows ds s cells idx x)).
  - destruct (Find_rows i k ds s cells Ht) as (idx & E & Hf). destruct Hf as [[-> Hn]|[H0 Hf]].
    + apply (performs_same B (CRemove i k) _ _ false); [done|cbn [exec]; unfold Remove, Find; by erewrite bind_done by exact E|done].
    + pose proof Hf as (row & Hrow & _). destruct (RemoveAt_rows B ds _ idx Hr) as (ds' & E' & Hr'); [by rewrite Hrow|].
      exists true, ds', (delete idx (to_row <$> cells)). split; [|split; [by exists idx|by eapply represents_mono; [|exact Hr']; lia]].
      cbn [exec]. unfold Remove, Find. erewrite bind_done by exact E. destruct (Z.eqb_spec idx (-1)); [lia|]. by erewrite bind_done by exact E'.
  - destruct (RemoveAt_rows B ds _ idx Hr Hl) as (ds' & E' & Hr'). exists tt, ds', (delete idx (to_row <$> cells)). split; [done|]. split; [done|by eapply represents_mono; [|exact Hr']; lia].
  - destruct (Find_rows i k ds s cells Ht) as (idx & E & Hf). pose proof (tables_at i ds s cells Ht) as Hi. destruct (table_Find _ _ _ k Hi) as (idx' & E2 & Hf2).
    assert (idx' = idx) as -> by (rewrite (DictAt_done _ _ _ _ _ E2) in E; congruence).
    destruct Hf as [[-> Hn]|[H0 (row & Hrow & Hk)]].
    + apply (performs_same B (CUpdate i k k') _ _ false); [done| |done]. cbn [exec]. unfold Update. rewrite (DictAt_done i _ ds false (dict_at i ds)); [by rewrite put_dict_same|].
      unfold Dict.Update. by erewrite bind_done by exact E2.
    + destruct (row_cell _ _ _ Hrow) as (x & Hx & <-). destruct (UpdateAt_rows B i ds s cells idx x k' Ht Hb Hx) as (ds' & E' & Hr').
      { intros j Hj. destruct Hl as [->|Hl]; [|by destruct (Hl j)]. apply has_key_cell in Hj as [v Hj]. assert (Hk2 : has_key (to_row <$> cells) i k idx) by (by exists (to_row x)).
        apply has_key_cell in Hk2 as [v2 Hk2]. by eapply (table_uniq _ _ _ j idx _ _ Hi Hj Hk2). }
      exists true, ds', (<[idx := ((to_row x).1, set_key i k' (to_row x).2)]> (to_row <$> cells)).
      split; [|split; [by exists idx, (to_row x)|by eapply represents_mono; [|exact Hr']; lia]]. etrans; [|exact E'].
      apply DictAt_ext. unfold Dict.Update. erewrite bind_done by exact E2. by destruct (Z.eqb_spec idx (-1)); [lia|].
  - destruct Hl as [[row Hrow] Hu]. destruct (row_cell _ _ _ Hrow) as (x & Hx & <-). destruct (UpdateAt_rows B i ds s cells idx x k' Ht Hb Hx Hu) as (ds' & E' & Hr').
    eexists true, ds', _. split; [exact E'|]. split; [split; [done|by exists (to_row x)]|by eapply represents_mono; [|exact Hr']; lia].
  - destruct Hl as [row Hrow]. destruct (row_cell _ _ _ Hrow) as (x & Hx & <-). pose proof (tables_at i ds s cells Ht) as Hi.
    apply (performs_same B (CKeyAt i idx) _ _ (cell_of i x).1); [done| |split; [|done]].
    + cbn [exec]. unfold KeyAt. rewrite (DictAt_done i _ ds (cell_of i x).1 (dict_at i ds)); [by rewrite put_dict_same|].
      apply (table_KeyAt _ s _ idx _ (cell_of i x).2 Hi). apply lookup_fmap_Some. exists x. split; [apply surjective_pairing|done].
    + exists (to_row x). split; [done|]. unfold to_row. cbn [snd]. apply key_at_cell.
  - destruct Hl as [row Hrow]. destruct (row_cell _ _ _ Hrow) as (x & Hx & <-). apply (performs_same B (CValueAt idx) _ _ x.1.2); [done| |split; [exact (f_equal (fmap fst) Hrow)|done]].
    by apply (ValueAt_rows ds s cells idx x).
  - apply (performs_same B CCount _ _ (Z.of_nat (base.size (to_row <$> cells)))); [done| |done]. cbn [exec]. unfold Count. rewrite (on_head_done _ ds _ ds.1 (table_Count _ _ _ Ht0)).
    rewrite !map_size_fmap. by destruct ds.
  - destruct (for_each_spec ds s _ Ht0) as (xs & E & Hp). apply (performs_same B CForEach _ _ xs); [done|done|]. split; [|done]. rewrite Hp, <-!map_fmap_compose. done.
Qed.

Lemma session_correct xs B ds rows : represents B ds rows -> sized (B + zlen xs) cols -> 0 <= B -> session xs ds rows.
Proof.
  revert B ds rows. induction xs as [|x xs IH]; intros B ds rows Hr Hs HB; [done|]. rewrite zlen_cons in Hs. pose proof (zlen_nonneg xs). intros Hl.
  destruct (exec_performs B x ds rows Hr Hl) as (r & ds' & rows' & E & Ha & Hr').
  { eapply Forall_impl; [exact Hs|]. intros c (H1 & H2 & H3). split; [done|]. split; [done|nia]. }
  exists r, ds', rows'. split; [done|]. split; [done|]. apply (IH (B + 1)); [done| |lia]. by replace (B + 1 + zlen xs) with (B + (1 + zlen xs)) by lia.
Qed.
End session.

(** ** The theorem *)

(** C23. For element sizes of 8 to 512 bytes whose bucket counts grow, a session
    of legal calls on a new [DictEx] — [Add], [Find], [Exists],
    [TryGetValue], [Remove], [RemoveAt], [Update], [UpdateAt], [KeyAt],
    [ValueAt], [Count] and the iterator — is always defined and answers as on a
    table of rows: [Add] takes an index that no row has and the keys are put
    under it in every column, or it names the row that has the first key which
    is there already and changes nothing. *)
Theorem dictex_refines_rows (c0 : column) (k1 : key_type) (ks : list key_type) (xs : list (call c0 k1 ks)) ds :
  sized (zlen xs) (c0 :: columns (k1 :: ks)) -> Init (c0 :: columns (k1 :: ks)) = Some ds -> session c0 k1 ks xs ds ∅.
Proof.
  intros Hs Hd. pose proof (zlen_nonneg xs). destruct (Init_tables _ ds) as [Ht Hb]; [|done|].
  - eapply Forall_impl; [exact Hs|]. intros c (H1 & H2 & H3). split; [done|]. split; [done|lia].
  - apply (session_correct c0 k1 ks xs 0); [|done|done]. exists Z.of_nat, ∅. split; [done|]. split; [done|]. by rewrite fmap_empty.
Qed.

(** A table of players: by number, with a score, and by name. *)
#[local] Instance hash_number : HashFunc Z := hash_small.
#[local] Instance hash_name : HashFunc (list Z) := hash_cstr.

Definition by_number : column := Column Z _ _ _ Z 12.
Definition by_name : key_type := KeyType (list Z) _ _ _ 16.
Abbreviation players := (by_number :: columns [by_name]).
Abbreviation number := (here : at_ by_number players).
Abbreviation name := (there here : at_ (index_column by_name) players).

(** Two rows; one with a name that is there, which gives back the element of
    its number; the next row gets that index, from the free list of one table
    and from the end of the other. *)
Definition players_session : list (call by_number by_name []) := [
  CAdd by_number by_name [] 10 (1, ([97], tt));
  CAdd by_number by_name [] 20 (2, ([98], tt));
  CAdd by_number by_name [] 30 (3, ([97], tt));
  CFind by_number by_name [] number 3;
  CAdd by_number by_name [] 40 (4, ([99], tt));
  CTryGetValue by_number by_name [] name [99];
  CUpdate by_number by_name [] name [97] [100];
  CRemove by_number by_name [] number 2;
  CForEach by_number by_name []].

(** The replies as numbers. *)
Definition show (x : call by_number by_name []) : reply by_number by_name [] x -> list Z :=
  match x with
  | CAdd _ _ _ _ _ => fun r => [Z.b2z r.1; r.2]
  | CFind _ _ _ _ _ | CCount _ _ _ => fun r => [r]
  | CExists _ _ _ _ _ | CRemove _ _ _ _ _ | CUpdate _ _ _ _ _ _ | CUpdateAt _ _ _ _ _ _ => fun r => [Z.b2z r]
  | CTryGetValue _ _ _ _ _ => fun r => match r with Some v => [v] | None => [] end
  | CRemoveAt _ _ _ _ | CKeyAt _ _ _ _ _ => fun _ => []
  | CValueAt _ _ _ _ => fun r => [r]
  | CForEach _ _ _ => fun r => flat_map (fun p : Z * Z => [p.1; p.2]) r
  end.
Fixpoint exec_all (xs : list (call by_number by_name [])) : M (Dicts players) (list (list Z)) :=
  match xs with
  | [] => mret []
  | x :: xs => r ← exec by_number by_name [] x; rs ← exec_all xs; mret (show x r :: rs)
  end.
Definition players_replies : list (list Z) :=
  match Init players with
  | Some ds => match exec_all players_session ds with Done rs ds => rs ++ [[freeList ds.1; count ds.1; count ds.2.1]] | _ => [] end
  | None => []
  end.

Example players_served : players_replies = [[1; 0]; [1; 1]; [0; 0]; [-1]; [1; 2]; [40]; [1]; [1]; [0; 10; 2; 40]; [1; 3; 3]].
Proof. vm_compute. reflexivity. Qed.

Lemma dictex_refines_rows_witness : exists ds, Init players = Some ds /\ session by_number by_name [] players_session ds ∅.
Proof.
  destruct (Init players) as [ds|] eqn:Hd; [|by exfalso; assert (E : (if Init players is Some _ then true else false) = true) by (vm_compute; reflexivity); rewrite Hd in E]. exists ds. split; [reflexivity|].
  apply (dictex_refines_rows by_number by_name [] players_session ds); [|exact Hd].
  repeat constructor; vm_compute; (reflexivity || discriminate).
Defined.
