(* ===== verification/HashSet.v ===== *)
(** * xx_hashset: the hash set

    [HashSet] is the hash table without values: the key is in the node, beside
    hash code and chain links.  When it grows it moves trivial keys with the
    whole nodes ([Realloc]); other keys are moved one by one into fresh nodes,
    whose other fields are then uninitialised.

    A field of a node is [None] until it is written (a key also once it is
    destroyed); reading it is undefined. *)

From Stdlib Require Import ZArith Lia.
From stdpp Require Import base numbers list gmap.
From S2P Require Import Prelude Util HashUtils Dict.
Open Scope Z_scope.

Record Node (K : Type) := MkNode {
  hashCode : option Z;
  next : option Z;
  key : option K;
  prev : option Z
}.
Arguments MkNode {K}.
Arguments hashCode {K}.
Arguments next {K}.
Arguments key {K}.
Arguments prev {K}.

Record HashSet (K : Type) := MkHashSet {
  freeList : Z;
  freeCount : Z;
  count : Z;
  bucketsLen : Z;
  buckets : gmap Z Z;
  nodes : gmap Z (Node K)
}.
Arguments MkHashSet {K}.
Arguments freeList {K}.
Arguments freeCount {K}.
Arguments count {K}.
Arguments bucketsLen {K}.
Arguments buckets {K}.
Arguments nodes {K}.

Section hashset.
Context {K : Type} `{!EqDecision K} `{!HashFunc K}.
(** [sizeof(Node)] and [IsTrivial_v<TK>]. *)
Context (nodeSize : Z) (trivial : bool).
Implicit Types s : HashSet K.

Definition set_free (l c : Z) s := MkHashSet l c (count s) (bucketsLen s) (buckets s) (nodes s).
Definition set_count (c : Z) s := MkHashSet (freeList s) (freeCount s) c (bucketsLen s) (buckets s) (nodes s).
Definition set_buckets (n : Z) (m : gmap Z Z) s := MkHashSet (freeList s) (freeCount s) (count s) n m (nodes s).
Definition set_nodes (m : gmap Z (Node K)) s := MkHashSet (freeList s) (freeCount s) (count s) (bucketsLen s) (buckets s) m.

(** Array accesses. *)
Definition in_array (i : Z) s : bool := (0 <=? i) && (i <? bucketsLen s).
Definition bucket (b : Z) : M (HashSet K) Z := s ← get; demand (buckets s !! b).
Definition put_bucket (b v : Z) : M (HashSet K) unit :=
  s ← get; _ ← assert_ (in_array b s); put (set_buckets (bucketsLen s) (<[b := v]> (buckets s)) s).

(** [nodes[i].field], read and written. *)
Definition field {A} (f : Node K -> option A) (i : Z) : M (HashSet K) A :=
  s ← get; n ← demand (nodes s !! i); demand (f n).
Definition put_node (i : Z) (f : Node K -> Node K) : M (HashSet K) unit :=
  s ← get; _ ← assert_ (in_array i s);
  put (set_nodes (<[i := f (default (MkNode None None None None) (nodes s !! i))]> (nodes s)) s).
Definition put_hashCode (i h : Z) := put_node i (fun n => MkNode (Some h) (next n) (key n) (prev n)).
Definition put_next (i x : Z) := put_node i (fun n => MkNode (hashCode n) (Some x) (key n) (prev n)).
Definition put_key (i : Z) (k : option K) := put_node i (fun n => MkNode (hashCode n) (next n) k (prev n)).
Definition put_prev (i p : Z) := put_node i (fun n => MkNode (hashCode n) (next n) (key n) (Some p)).

(** The constructor; [None]: no bucket count. *)
Definition new_HashSet (capacity : Z) : option (HashSet K) :=
  n ← GetPrime capacity nodeSize;
  Some (MkHashSet (-1) 0 0 n (blank_buckets n) ∅).

(** [hashCode % bucketsLen], unsigned. *)
Definition bucket_of (h : Z) : M (HashSet K) Z :=
  s ← get; _ ← assert_ (0 <? bucketsLen s); mret (h mod bucketsLen s).

(** [for (int i = start; i >= 0; i = nodes[i].next) if (equal) ...], at most
    [count] rounds: the index of the key, or -1. *)
Fixpoint find_loop (fuel : nat) (h : Z) (k : K) (i : Z) : M (HashSet K) Z :=
  match fuel with
  | O => undef
  | S fuel =>
      if i <? 0 then mret (-1)
      else
        h' ← field hashCode i;
        if h' =? h then
          k' ← field key i;
          if decide (k' = k) then mret i else n ← field next i; find_loop fuel h k n
        else n ← field next i; find_loop fuel h k n
  end.

Definition find_from (h : Z) (k : K) (i : Z) : M (HashSet K) Z :=
  s ← get; find_loop (S (Z.to_nat (count s))) h k i.

(** One round of the loop that rebuilds the chains. *)
Definition relink (i : Z) : M (HashSet K) unit :=
  h ← field hashCode i;
  b ← bucket_of h;
  x ← bucket b;
  _ ← (if 0 <=? x then put_prev x i else mret tt);
  _ ← put_prev i (-1);
  _ ← put_next i x;
  put_bucket b i.

Fixpoint relink_all (l : list Z) : M (HashSet K) unit :=
  match l with
  | [] => mret tt
  | i :: l => _ ← relink i; relink_all l
  end.

(** [new (&newItems[i].key) TK((TK&&)nodes[i].key)], into fresh nodes. *)
Fixpoint move_keys (l : list Z) (old : gmap Z (Node K)) : option (gmap Z (Node K)) :=
  match l with
  | [] => Some ∅
  | i :: l =>
      n ← old !! i;
      k ← key n;
      m ← move_keys l old;
      Some (<[i := MkNode None None (Some k) None]> m)
  end.

Definition Reserve (capacity : Z) : M (HashSet K) unit :=
  s ← get;
  _ ← assert_ ((count s =? 0) || (count s =? bucketsLen s));
  let capacity := if capacity =? 0 then count s * 2 else capacity in
  if capacity <=? bucketsLen s then mret tt
  else
    n ← demand (GetPrime capacity nodeSize);
    _ ← put (set_buckets n (blank_buckets n) s);
    _ ← (if trivial then mret tt
         else m ← demand (move_keys (seqZ 0 (count s)) (nodes s)); modify (set_nodes m));
    relink_all (seqZ 0 (count s)).

(** Where a new element goes. *)
Definition take_index : M (HashSet K) Z :=
  s ← get;
  if 0 <? freeCount s then
    let index := freeList s in
    n ← field next index;
    _ ← modify (set_free n (freeCount s - 1));
    mret index
  else
    _ ← (if count s =? bucketsLen s then Reserve 0 else mret tt);
    s ← get;
    _ ← put (set_count (count s + 1) s);
    mret (count s).

Definition Add (k : K) : M (HashSet K) bool :=
  let h := GetHashCode k in
  b ← bucket_of h;
  x ← bucket b;
  i ← find_from h k x;
  if 0 <=? i then mret false
  else
    index ← take_index;
    b ← bucket_of h;
    _ ← put_hashCode index h;
    x ← bucket b;
    _ ← put_next index x;
    _ ← (if 0 <=? x then put_prev x index else mret tt);
    _ ← put_bucket b index;
    _ ← put_key index (Some k);
    _ ← put_prev index (-1);
    mret true.

Definition Exists (k : K) : M (HashSet K) bool :=
  b ← bucket_of (GetHashCode k);
  x ← bucket b;
  i ← find_from (GetHashCode k) k x;
  mret (0 <=? i).

(** What [Remove] does with the element that it has found. *)
Definition remove_at (i : Z) : M (HashSet K) unit :=
  p ← field prev i;
  n ← field next i;
  _ ← (if p <? 0 then h ← field hashCode i; b ← bucket_of h; put_bucket b n else put_next p n);
  _ ← (if 0 <=? n then put_prev n p else mret tt);
  s ← get;
  _ ← put_next i (freeList s);
  _ ← modify (set_free i (freeCount s + 1));
  _ ← field key i;
  _ ← put_key i None;
  put_prev i (-2).

Definition Remove (k : K) : M (HashSet K) bool :=
  b ← bucket_of (GetHashCode k);
  x ← bucket b;
  i ← find_from (GetHashCode k) k x;
  if 0 <=? i then _ ← remove_at i; mret true else mret false.

Fixpoint DeleteKs_loop (l : list Z) : M (HashSet K) unit :=
  match l with
  | [] => mret tt
  | i :: l =>
      p ← field prev i;
      _ ← (if p =? -2 then mret tt else _ ← field key i; _ ← put_key i None; put_prev i (-2));
      DeleteKs_loop l
  end.
Definition DeleteKs : M (HashSet K) unit := s ← get; DeleteKs_loop (seqZ 0 (count s)).

Definition Clear : M (HashSet K) unit :=
  s ← get;
  if count s =? 0 then mret tt
  else
    _ ← DeleteKs;
    s ← get;
    put (MkHashSet (-1) 0 0 (bucketsLen s) (blank_buckets (bucketsLen s)) (nodes s)).

Definition Count : M (HashSet K) Z :=
  s ← get; _ ← assert_ (freeCount s <=? count s); mret (count s - freeCount s).
Definition Empty : M (HashSet K) bool := n ← Count; mret (n =? 0).

(** ** Iteration *)

(** The first index from [i] on of an element that is in use, or [count]. *)
Fixpoint next_used (fuel : nat) (i : Z) : M (HashSet K) Z :=
  s ← get;
  if i <? count s then
    match fuel with
    | O => undef
    | S fuel => p ← field prev i; if p =? -2 then next_used fuel (i + 1) else mret i
    end
  else mret i.

Definition end_ : M (HashSet K) Z := s ← get; mret (count s).
Definition begin_ : M (HashSet K) Z :=
  s ← get; if count s =? freeCount s then end_ else next_used (Z.to_nat (count s)) 0.
(** [operator++] and [operator*]. *)
Definition incr (i : Z) : M (HashSet K) Z := s ← get; next_used (Z.to_nat (count s)) (i + 1).
Definition deref (i : Z) : M (HashSet K) K := field key i.

(** [for (auto& k : set)]: the keys, in order. *)
Fixpoint iterate (fuel : nat) (i : Z) : M (HashSet K) (list K) :=
  e ← end_;
  if i =? e then mret []
  else
    match fuel with
    | O => undef
    | S fuel => k ← deref i; j ← incr i; ks ← iterate fuel j; mret (k :: ks)
    end.
Definition for_each : M (HashSet K) (list K) := s ← get; i ← begin_; iterate (Z.to_nat (count s)) i.
End hashset.
