(* ===== verification/HashSetProps.v ===== *)
(** * Properties of the hash set

    With trivial keys every call of [HashSet] follows the same call of a [Dict]
    without values step by step ([sim]), so that a session answers as on a
    finite set.  With other keys the set does not survive growing. *)

From Stdlib Require Import ZArith Lia.
From stdpp Require Import base numbers list gmap.
From S2P Require Import Prelude Util HashUtils Dict DictChains DictMap DictOps DictProps HashSet.
Open Scope Z_scope.

(** Two groupings of the same steps. *)
Ltac regroup := intros ?; unfold mbind, M_bind;
  repeat match goal with
  | |- context [match ?x with Done _ _ => _ | Fail _ _ => _ | Undef => _ end] =>
      lazymatch x with context [match _ with Done _ _ => _ | Fail _ _ => _ | Undef => _ end] => fail | _ => destruct x; try reflexivity end
  end.

Section sim.
Context {K : Type} `{Countable K} `{!HashFunc K} (nodeSize : Z).
Implicit Types (s : HashSet K) (d : Dict K unit).

(** The set [s] has the elements of the table [d] at the same places. *)
Record rel s d : Prop := {
  rel_freeList : freeList s = Dict.freeList d;
  rel_freeCount : freeCount s = Dict.freeCount d;
  rel_count : count s = Dict.count d;
  rel_bucketsLen : bucketsLen s = Dict.bucketsLen d;
  rel_buckets : buckets s = Dict.buckets d;
  rel_nodes i nd : Dict.nodes d !! i = Some nd ->
    exists n, nodes s !! i = Some n /\ hashCode n = Some (Dict.hashCode nd) /\ next n = Some (Dict.next nd);
  rel_items i it : items d !! i = Some it ->
    exists n, nodes s !! i = Some n /\ key n = fst <$> kv it /\ prev n = Some (Dict.prev it)
}.

(** Where the table's call returns, the set's call returns the same. *)
Definition sim {A} (m : M (HashSet K) A) (m' : M (Dict K unit) A) : Prop :=
  forall s d a d', rel s d -> m' d = Done a d' -> exists s', m s = Done a s' /\ rel s' d'.

Lemma sim_use {A} (m : M (HashSet K) A) m' s d a d' : sim m m' -> rel s d -> m' d = Done a d' ->
  exists s', m s = Done a s' /\ rel s' d'.
Proof. intros Hs. apply Hs. Qed.

Lemma sim_ret {A} (a : A) : sim (mret a) (mret a).
Proof. intros s d a' d' Hr [= <- <-]. by exists s. Qed.

Lemma sim_undef {A} (m : M (HashSet K) A) : sim m undef.
Proof. by intros s d a d' _ E. Qed.

Lemma sim_bind {A B} (m : M (HashSet K) A) m' (f : A -> M (HashSet K) B) f' :
  sim m m' -> (forall a, sim (f a) (f' a)) -> sim (x ← m; f x) (x ← m'; f' x).
Proof.
  intros Hm Hf s d b d' Hr E. apply bind_inv_done in E as (a & d1 & E1 & E2).
  destruct (Hm s d a d1 Hr E1) as (s1 & Es & Hr1). rewrite (bind_done _ _ _ _ _ Es). by apply (Hf a s1 d1).
Qed.

Lemma sim_ext {A} (m m' : M (HashSet K) A) m1 : (forall s, m s = m' s) -> sim m' m1 -> sim m m1.
Proof. intros E Hs s d a d'. rewrite E. apply Hs. Qed.

Lemma sim_bind_l {A B C} (m : M (HashSet K) A) m' (f : A -> M (HashSet K) C) (f' : A -> M (Dict K unit) B) g :
  sim m m' -> (forall a, sim (f a) (x ← f' a; g x)) -> sim (a ← m; f a) (x ← (a ← m'; f' a); g x).
Proof.
  intros Hm Hf s d b d' Hr E. rewrite bind_assoc in E. refine (sim_bind _ _ _ _ Hm _ s d b d' Hr E). exact Hf.
Qed.

Lemma sim_get {A} (f : HashSet K -> M (HashSet K) A) f' :
  (forall s d, rel s d -> sim (f s) (f' d)) -> sim (x ← get; f x) (x ← get; f' x).
Proof. intros Hf s d a d' Hr E. rewrite bind_get in *. by apply (Hf s d Hr s d). Qed.

Lemma sim_if {A} (b : bool) (m1 m2 : M (HashSet K) A) m1' m2' :
  sim m1 m1' -> sim m2 m2' -> sim (if b then m1 else m2) (if b then m1' else m2').
Proof. by destruct b. Qed.

Lemma sim_assert (b : bool) : sim (assert_ b) (assert_ b).
Proof. destruct b; [apply sim_ret|apply sim_undef]. Qed.

Lemma sim_demand {A} (o : option A) : sim (demand o) (demand o).
Proof. destruct o; [apply sim_ret|apply sim_undef]. Qed.

Lemma sim_put s1 d1 : rel s1 d1 -> sim (put s1) (put d1).
Proof. intros Hr s d [] d' _ [= <-]. by exists s1. Qed.

(** ** Reading *)

Lemma field_eq {A} (f : Node K -> option A) i s n x : nodes s !! i = Some n -> f n = Some x -> field f i s = Done x s.
Proof. intros En Ef. unfold field. rewrite bind_get, En. cbn [demand]. by rewrite bind_mret, Ef. Qed.

Section reading.
Context s d (Hr : rel s d) (i : Z).
Lemma field_hashCode nd : Dict.nodes d !! i = Some nd -> field hashCode i s = Done (Dict.hashCode nd) s.
Proof. intros (n & En & Eh & _)%(rel_nodes _ _ Hr). by apply (field_eq _ _ _ n). Qed.
Lemma field_next nd : Dict.nodes d !! i = Some nd -> field next i s = Done (Dict.next nd) s.
Proof. intros (n & En & _ & Eh)%(rel_nodes _ _ Hr). by apply (field_eq _ _ _ n). Qed.
Lemma field_prev it : items d !! i = Some it -> field prev i s = Done (Dict.prev it) s.
Proof. intros (n & En & _ & Eh)%(rel_items _ _ Hr). by apply (field_eq _ _ _ n). Qed.
Lemma field_key it e : items d !! i = Some it -> kv it = Some e -> field key i s = Done e.1 s.
Proof. intros (n & En & Eh & _)%(rel_items _ _ Hr) Ek. apply (field_eq _ _ _ n); [done|]. by rewrite Eh, Ek. Qed.
End reading.

Lemma node_inv d i nd d' : Dict.node i d = Done nd d' -> d' = d /\ Dict.nodes d !! i = Some nd.
Proof. unfold Dict.node. rewrite bind_get. destruct (_ !! _); [intros [= <- <-]; done|done]. Qed.
Lemma item_inv d i it d' : item i d = Done it d' -> d' = d /\ items d !! i = Some it.
Proof. unfold item. rewrite bind_get. destruct (_ !! _); [intros [= <- <-]; done|done]. Qed.

Lemma sim_bucket b : sim (bucket b) (Dict.bucket b).
Proof. apply sim_get. intros s d Hr. rewrite (rel_buckets _ _ Hr). apply sim_demand. Qed.
Lemma sim_bucket_of h : sim (bucket_of h) (Dict.bucket_of h).
Proof. apply sim_get. intros s d Hr. rewrite (rel_bucketsLen _ _ Hr). apply sim_bind; [apply sim_assert|]. intros _. apply sim_ret. Qed.

(** ** Writing *)

Lemma put_node_eq i f s : in_array i s = true ->
  put_node i f s = Done tt (set_nodes (<[i := f (default (MkNode None None None None) (nodes s !! i))]> (nodes s)) s).
Proof. intros E. unfold put_node. by rewrite bind_get, E. Qed.

Lemma rel_in_array s d i : rel s d -> in_array i s = Dict.in_array i d.
Proof. intros Hr. unfold in_array, Dict.in_array. by rewrite (rel_bucketsLen _ _ Hr). Qed.

Lemma put_node_inv i x d a d' : Dict.put_node i x d = Done a d' ->
  Dict.in_array i d = true /\ d' = Dict.set_nodes (<[i := x]> (Dict.nodes d)) d.
Proof. unfold Dict.put_node. rewrite bind_get. destruct (Dict.in_array i d); [intros [= <- <-]; done|done]. Qed.
Lemma put_item_inv i x d a d' : Dict.put_item i x d = Done a d' ->
  Dict.in_array i d = true /\ d' = Dict.set_items (<[i := x]> (items d)) d.
Proof. unfold Dict.put_item. rewrite bind_get. destruct (Dict.in_array i d); [intros [= <- <-]; done|done]. Qed.

(** New contents for the links, or for key and back link, of a node. *)
Lemma rel_write_links s d i h x n : rel s d -> hashCode n = Some h -> next n = Some x ->
  key n = key (default (MkNode None None None None) (nodes s !! i)) ->
  prev n = prev (default (MkNode None None None None) (nodes s !! i)) ->
  rel (set_nodes (<[i := n]> (nodes s)) s) (Dict.set_nodes (<[i := Dict.MkNode h x]> (Dict.nodes d)) d).
Proof.
  intros Hr Eh Ex Ek Ep. split; try apply Hr; cbn [nodes set_nodes Dict.nodes items Dict.set_nodes].
  - intros j nd. destruct (decide (i = j)) as [<-|Hne].
    + rewrite !lookup_insert_eq. intros [= <-]. by exists n.
    + rewrite !lookup_insert_ne by done. apply Hr.
  - intros j it E. destruct (rel_items _ _ Hr j it E) as (n' & En & Ek' & Ep'). destruct (decide (i = j)) as [<-|Hne].
    + rewrite lookup_insert_eq. exists n. rewrite Ek, Ep, En. done.
    + rewrite lookup_insert_ne by done. by exists n'.
Qed.

Lemma rel_write_data s d i it n : rel s d -> key n = fst <$> kv it -> prev n = Some (Dict.prev it) ->
  hashCode n = hashCode (default (MkNode None None None None) (nodes s !! i)) ->
  next n = next (default (MkNode None None None None) (nodes s !! i)) ->
  rel (set_nodes (<[i := n]> (nodes s)) s) (Dict.set_items (<[i := it]> (items d)) d).
Proof.
  intros Hr Eh Ex Ek Ep. split; try apply Hr; cbn [nodes set_nodes Dict.nodes items Dict.set_items].
  - intros j nd E. destruct (rel_nodes _ _ Hr j nd E) as (n' & En & Ek' & Ep'). destruct (decide (i = j)) as [<-|Hne].
    + rewrite lookup_insert_eq. exists n. rewrite Ek, Ep, En. done.
    + rewrite lookup_insert_ne by done. by exists n'.
  - intros j it'. destruct (decide (i = j)) as [<-|Hne].
    + rewrite !lookup_insert_eq. intros [= <-]. by exists n.
    + rewrite !lookup_insert_ne by done. apply Hr.
Qed.

Lemma sim_put_next i x : sim (put_next i x) (Dict.put_next i x).
Proof.
  intros s d [] d' Hr E. unfold Dict.put_next in E. apply bind_inv_done in E as (nd & d1 & [-> End]%node_inv & E).
  apply put_node_inv in E as [Ei ->]. rewrite <-(rel_in_array s) in Ei by done.
  destruct (rel_nodes _ _ Hr i nd End) as (n & En & Eh & _).
  unfold put_next. rewrite put_node_eq by done. eexists. split; [done|]. rewrite En. by apply rel_write_links; rewrite ?En.
Qed.

Lemma sim_put_prev i p : sim (put_prev i p) (Dict.put_prev i p).
Proof.
  intros s d [] d' Hr E. unfold Dict.put_prev in E. apply bind_inv_done in E as (it & d1 & [-> Eit]%item_inv & E).
  apply put_item_inv in E as [Ei ->]. rewrite <-(rel_in_array s) in Ei by done.
  destruct (rel_items _ _ Hr i it Eit) as (n & En & Ek & _).
  unfold put_prev. rewrite put_node_eq by done. eexists. split; [done|]. rewrite En. by apply rel_write_data; rewrite ?En.
Qed.

Lemma put_node_twice i f g s : in_array i s = true ->
  (_ ← put_node i f; put_node i g) s =
  Done tt (set_nodes (<[i := g (f (default (MkNode None None None None) (nodes s !! i)))]> (nodes s)) s).
Proof.
  intros E. rewrite (bind_done _ _ _ _ _ (put_node_eq _ _ _ E)), put_node_eq by done. cbn [nodes set_nodes].
  rewrite lookup_insert_eq. unfold set_nodes. cbn. by rewrite insert_insert_eq.
Qed.

(** A key is constructed, or destroyed, and the back link written. *)
Lemma sim_put_item i (o : option (K * unit)) p :
  sim (_ ← put_key i (fst <$> o); put_prev i p) (Dict.put_item i (MkData o p)).
Proof.
  intros s d [] d' Hr [Ei ->]%put_item_inv. rewrite <-(rel_in_array s) in Ei by done.
  unfold put_key, put_prev. rewrite put_node_twice by done. eexists. split; [done|]. by apply rel_write_data.
Qed.

Lemma sim_put_links i h x : sim (_ ← put_hashCode i h; put_next i x) (Dict.put_node i (Dict.MkNode h x)).
Proof.
  intros s d [] d' Hr [Ei ->]%put_node_inv. rewrite <-(rel_in_array s) in Ei by done.
  unfold put_hashCode, put_next. rewrite put_node_twice by done. eexists. split; [done|]. by apply rel_write_links.
Qed.

Lemma sim_put_bucket b v : sim (put_bucket b v) (Dict.put_bucket b v).
Proof.
  apply sim_get. intros s d Hr. rewrite (rel_in_array s d) by done. apply sim_bind; [apply sim_assert|]. intros _. apply sim_put.
  rewrite (rel_bucketsLen _ _ Hr), (rel_buckets _ _ Hr). split; try done; apply Hr.
Qed.

(** ** The calls *)

Lemma sim_find_loop fuel h k i : sim (find_loop fuel h k i) (Dict.find_loop fuel h k i).
Proof.
  revert i. induction fuel as [|fuel IH]; intros i; cbn [find_loop Dict.find_loop]; [apply sim_undef|].
  apply sim_if; [apply sim_ret|]. intros s d a d' Hr E. apply bind_inv_done in E as (nd & d1 & [-> End]%node_inv & E).
  rewrite (bind_done _ _ _ _ _ (field_hashCode s d Hr i nd End)). destruct (_ =? _).
  - apply bind_inv_done in E as (it & d1 & [-> Eit]%item_inv & E). apply bind_inv_done in E as (e & d1 & Ee & E).
    destruct (kv it) as [e'|] eqn:Ek; [injection Ee as -> <-|done].
    rewrite (bind_done _ _ _ _ _ (field_key s d Hr i it e Eit Ek)). destruct (decide _); [by apply (sim_ret i s d)|].
    rewrite (bind_done _ _ _ _ _ (field_next s d Hr i nd End)). by apply (IH _ s d).
  - rewrite (bind_done _ _ _ _ _ (field_next s d Hr i nd End)). by apply (IH _ s d).
Qed.

Lemma sim_find_from h k i : sim (find_from h k i) (Dict.find_from h k i).
Proof. apply sim_get. intros s d Hr. rewrite (rel_count _ _ Hr). apply sim_find_loop. Qed.

Lemma sim_relink i : sim (relink i) (Dict.relink i).
Proof.
  intros s d [] d' Hr E. unfold Dict.relink in E. apply bind_inv_done in E as (nd & d1 & [-> End]%node_inv & E).
  unfold relink. rewrite (bind_done _ _ _ _ _ (field_hashCode s d Hr i nd End)).
  eapply (sim_use _ _ s d); [|done|exact E].
  apply sim_bind; [apply sim_bucket_of|]. intros b. apply sim_bind; [apply sim_bucket|]. intros x.
  apply sim_bind; [apply sim_if; [apply sim_put_prev|apply sim_ret]|]. intros _. apply sim_bind; [apply sim_put_prev|]. intros _.
  apply sim_bind; [apply sim_put_next|]. intros _. apply sim_put_bucket.
Qed.

Lemma sim_relink_all l : sim (relink_all l) (Dict.relink_all l).
Proof. induction l as [|i l IH]; [apply sim_ret|]. apply sim_bind; [apply sim_relink|]. intros _. exact IH. Qed.

Lemma sim_Reserve capacity : sim (Reserve nodeSize true capacity) (Dict.Reserve nodeSize capacity).
Proof.
  apply sim_get. intros s d Hr. rewrite (rel_count _ _ Hr), (rel_bucketsLen _ _ Hr).
  apply sim_bind; [apply sim_assert|]. intros _. apply sim_if; [apply sim_ret|].
  apply sim_bind; [apply sim_demand|]. intros n. apply sim_bind; [apply sim_put; split; try done; apply Hr|]. intros _.
  apply (sim_ext _ (relink_all (seqZ 0 (Dict.count d)))); [done|]. apply sim_relink_all.
Qed.

Lemma sim_take_index : sim (take_index nodeSize true) (Dict.take_index nodeSize).
Proof.
  apply sim_get. intros s d Hr. rewrite (rel_freeCount _ _ Hr), (rel_freeList _ _ Hr), (rel_count _ _ Hr), (rel_bucketsLen _ _ Hr).
  apply sim_if.
  - intros s1 d1 a d' Hr1 E. apply bind_inv_done in E as (nd & d2 & [-> End]%node_inv & E).
    rewrite (bind_done _ _ _ _ _ (field_next s1 d1 Hr1 _ nd End)). rewrite bind_modify in *. injection E as <- <-.
    eexists. split; [done|]. split; try done; apply Hr1.
  - apply sim_bind; [apply sim_if; [apply sim_Reserve|apply sim_ret]|]. intros _. apply sim_get. intros s1 d1 Hr1.
    rewrite (rel_count _ _ Hr1). apply sim_bind; [|intros _; apply sim_ret]. apply sim_put. split; try done; apply Hr1.
Qed.

Lemma sim_link i h b :
  sim (_ ← put_hashCode i h; x ← bucket b; _ ← put_next i x; _ ← (if 0 <=? x then put_prev x i else mret tt); put_bucket b i)
    (Dict.link i h b).
Proof.
  apply (sim_ext _ (x ← bucket b; _ ← (_ ← put_hashCode i h; put_next i x); _ ← (if 0 <=? x then put_prev x i else mret tt); put_bucket b i)).
  - intros s. assert (Eb : forall s', buckets s' = buckets s ->
      bucket b s' = match buckets s !! b with Some x => Done x s' | None => Undef end).
    { intros s' E. unfold bucket. rewrite bind_get, E. by destruct (_ !! _). }
    destruct (in_array i s) eqn:Ei.
    + pose proof (put_node_eq i (fun n => MkNode (Some h) (next n) (key n) (prev n)) s Ei) as Ep.
      change (put_node i _ s) with (put_hashCode (K := K) i h s) in Ep.
      rewrite (bind_done _ _ _ _ _ Ep). destruct (buckets s !! b) as [x|] eqn:E.
      * rewrite (bind_done _ _ _ _ _ (Eb (set_nodes _ s) eq_refl)), (bind_done _ _ _ _ _ (Eb s eq_refl)).
        by rewrite bind_assoc, (bind_done _ _ _ _ _ Ep).
      * by rewrite (bind_undef _ _ _ (Eb (set_nodes _ s) eq_refl)), (bind_undef _ _ _ (Eb s eq_refl)).
    + assert (Ep : put_hashCode i h s = Undef) by (unfold put_hashCode, put_node; by rewrite bind_get, Ei).
      rewrite (bind_undef _ _ _ Ep). destruct (buckets s !! b) as [x|] eqn:E.
      * rewrite (bind_done _ _ _ _ _ (Eb s eq_refl)), bind_assoc. by rewrite (bind_undef _ _ _ Ep).
      * by rewrite (bind_undef _ _ _ (Eb s eq_refl)).
  - apply sim_bind; [apply sim_bucket|]. intros x. apply sim_bind; [apply sim_put_links|]. intros _.
    apply sim_bind; [apply sim_if; [apply sim_put_prev|apply sim_ret]|]. intros _. apply sim_put_bucket.
Qed.

Lemma sim_Add k : sim (Add nodeSize true k) (r ← Dict.Add nodeSize k tt false; mret r.1).
Proof.
  apply sim_bind_l; [apply sim_bucket_of|]. intros b. apply sim_bind_l; [apply sim_bucket|]. intros x.
  apply sim_bind_l; [apply sim_find_from|]. intros i. destruct (0 <=? i).
  - apply (sim_ext _ (mret false)); [done|]. apply sim_ret.
  - apply sim_bind_l; [apply sim_take_index|]. intros index. apply sim_bind_l; [apply sim_bucket_of|]. intros b'.
    apply (sim_ext _ (_ ← (_ ← put_hashCode index (GetHashCode k); x ← bucket b'; _ ← put_next index x;
      _ ← (if 0 <=? x then put_prev x index else mret tt); put_bucket b' index);
      _ ← (_ ← put_key index (Some k); put_prev index (-1)); mret true)); [regroup|].
    apply sim_bind_l; [apply sim_link|]. intros _. apply sim_bind_l; [apply (sim_put_item index (Some (k, tt)))|]. intros _.
    apply (sim_ret true).
Qed.

(** ** Removing *)

Definition remove_of k : M (Dict K unit) bool :=
  i ← Dict.Find k; if 0 <=? i then _ ← Dict.RemoveAt i; mret true else mret false.

Lemma IndexExists_inv d i e d' : IndexExists i d = Done e d' -> d' = d.
Proof.
  unfold IndexExists. rewrite bind_get. destruct (_ && _); [|by intros [= _ <-]].
  intros (it & d1 & [-> _]%item_inv & [= _ <-])%bind_inv_done. done.
Qed.

(** Once the element is out of its chain. *)
Lemma sim_release i :
  sim (s ← get; _ ← put_next i (freeList s); _ ← modify (set_free i (freeCount s + 1));
       _ ← field key i; _ ← put_key i None; put_prev i (-2))
    (d ← get; _ ← Dict.put_next i (Dict.freeList d); _ ← modify (Dict.set_free i (Dict.freeCount d + 1));
     it ← item i; _ ← demand (kv it); put_item i (MkData None (-2))).
Proof.
  apply sim_get. intros s d Hr. rewrite (rel_freeList _ _ Hr), (rel_freeCount _ _ Hr).
  apply sim_bind; [apply sim_put_next|]. intros _. apply sim_bind.
  { intros s1 d1 [] d2 Hr1 [= <-]. eexists. split; [done|]. split; try done; apply Hr1. }
  intros _ s1 d1 [] d2 Hr1 E. apply bind_inv_done in E as (it & d3 & [-> Eit]%item_inv & E).
  apply bind_inv_done in E as (e & d3 & Ee & E). destruct (kv it) as [e'|] eqn:Ek; [injection Ee as -> <-|done].
  rewrite (bind_done _ _ _ _ _ (field_key s1 d1 Hr1 i it e Eit Ek)). by apply (sim_put_item i None (-2) s1 d1).
Qed.

Lemma sim_remove_at i : sim (remove_at i) (Dict.RemoveAt i).
Proof.
  intros s d [] d' Hr E. unfold Dict.RemoveAt in E. apply bind_inv_done in E as (e & d1 & ->%IndexExists_inv & E).
  apply bind_inv_done in E as ([] & d1 & Ea & E). destruct e; [|done]. injection Ea as <-.
  unfold Dict.unlink in E. rewrite bind_assoc in E. apply bind_inv_done in E as (it & d1 & [-> Eit]%item_inv & E).
  rewrite bind_assoc in E. apply bind_inv_done in E as (nd & d1 & [-> End]%node_inv & E).
  unfold remove_at. rewrite (bind_done _ _ _ _ _ (field_prev s d Hr i it Eit)), (bind_done _ _ _ _ _ (field_next s d Hr i nd End)).
  destruct (Dict.prev it <? 0).
  - rewrite bind_assoc, (bind_done _ _ _ _ _ (field_hashCode s d Hr i nd End)).
    rewrite !bind_assoc in E. apply bind_inv_done in E as (b & d1 & Eb & E).
    destruct (sim_bucket_of (Dict.hashCode nd) s d b d1 Hr Eb) as (s1 & Es & Hr1).
    rewrite bind_assoc, (bind_done _ _ _ _ _ Es).
    eapply (sim_use _ _ s1 d1); [|done|exact E]. apply sim_bind; [apply sim_put_bucket|]. intros _.
    apply sim_bind; [apply sim_if; [apply sim_put_prev|apply sim_ret]|]. intros _. apply sim_release.
  - rewrite bind_assoc in E. eapply (sim_use _ _ s d); [|done|exact E]. apply sim_bind; [apply sim_put_next|]. intros _.
    apply sim_bind; [apply sim_if; [apply sim_put_prev|apply sim_ret]|]. intros _. apply sim_release.
Qed.

(** [Find] and what follows. *)
Lemma sim_find k {A} (f : Z -> M (HashSet K) A) f' : (forall i, sim (f i) (f' i)) ->
  sim (b ← bucket_of (GetHashCode k); x ← bucket b; i ← find_from (GetHashCode k) k x; f i) (i ← Dict.Find k; f' i).
Proof.
  intros Hf. apply sim_bind_l; [apply sim_bucket_of|]. intros b. apply sim_bind_l; [apply sim_bucket|]. intros x.
  by apply sim_bind; [apply sim_find_from|].
Qed.

Lemma sim_Exists k : sim (Exists k) (i ← Dict.Find k; mret (0 <=? i)).
Proof. apply sim_find. intros i. apply sim_ret. Qed.

Lemma sim_Remove k : sim (Remove k) (remove_of k).
Proof.
  apply sim_find. intros i. apply sim_if; [|apply sim_ret].
  apply sim_bind; [apply sim_remove_at|]. intros _. apply sim_ret.
Qed.

Lemma sim_DeleteKs_loop l : sim (DeleteKs_loop l) (DeleteKVs_loop l).
Proof.
  induction l as [|i l IH]; [apply sim_ret|]. intros s d [] d' Hr E. cbn [DeleteKs_loop DeleteKVs_loop] in *.
  apply bind_inv_done in E as (it & d1 & [-> Eit]%item_inv & E).
  rewrite (bind_done _ _ _ _ _ (field_prev s d Hr i it Eit)). destruct (_ =? _); [by apply (IH s d)|].
  rewrite bind_assoc in E. apply bind_inv_done in E as (e & d1 & Ee & E).
  destruct (kv it) as [e'|] eqn:Ek; [injection Ee as -> <-|done].
  rewrite bind_assoc, (bind_done _ _ _ _ _ (field_key s d Hr i it e Eit Ek)). eapply (sim_use _ _ s d); [|done|exact E].
  apply sim_bind; [apply (sim_put_item i None)|]. intros _. exact IH.
Qed.

Lemma sim_Clear : sim Clear Dict.Clear.
Proof.
  apply sim_get. intros s d Hr. rewrite (rel_count _ _ Hr). apply sim_if; [apply sim_ret|].
  apply sim_bind. { apply sim_get. intros s1 d1 Hr1. rewrite (rel_count _ _ Hr1). apply sim_DeleteKs_loop. }
  intros _. apply sim_get. intros s1 d1 Hr1. apply sim_put. rewrite (rel_bucketsLen _ _ Hr1). split; try done; apply Hr1.
Qed.
End sim.

(** ** The keys of a set *)

Section contents.
Context {K : Type} `{Countable K} `{!HashFunc K}.
Implicit Types (s : HashSet K) (X : gset K).

(** The set holds the keys [X]. *)
Definition set_repr s X : Prop := exists d, rel s d /\ repr d (gset_to_gmap tt X).

Lemma gset_to_gmap_in X k : gset_to_gmap tt X !! k = if decide (k ∈ X) then Some tt else None.
Proof. rewrite lookup_gset_to_gmap. unfold guard. by destruct (decide (k ∈ X)). Qed.

Lemma set_size s X : set_repr s X -> Z.of_nat (size X) = count s - freeCount s.
Proof.
  intros (d & Hr & Hd). rewrite (rel_count _ _ Hr), (rel_freeCount _ _ Hr), <-(size_repr d _ Hd), <-size_dom.
  by rewrite dom_gset_to_gmap.
Qed.
End contents.

(** ** Iteration *)

Section iteration.
Context {K : Type} `{Countable K} `{!HashFunc K} (s : HashSet K) (d : Dict K unit) (ch : Z -> list Z) (fl : list Z).
Context (Hr : rel s d) (Hw : wf d ch fl []).

Lemma cell i : 0 <= i < count s ->
  field prev i s = Done (-2) s /\ kv_at d i = None \/
  exists p e, field prev i s = Done p s /\ p <> -2 /\ kv_at d i = Some e /\ field key i s = Done e.1 s.
Proof.
  rewrite (rel_count _ _ Hr). intros Hi. apply (wf_cover _ _ _ _ Hw) in Hi as [Hi|[Hi|Hi]]; [set_solver|left|right].
  - split; [|by apply (kv_at_free d fl (Dict.freeList d)); [apply Hw|]].
    destruct (free_list_in _ _ _ _ (wf_free _ _ _ _ Hw) Hi) as (_ & Ei & _). apply (field_prev s d Hr i _ Ei).
  - destruct (linked_entry _ _ _ _ _ Hw Hi) as (e & He). destruct (entry_data _ _ _ He) as (nd & it & _ & Ei & _ & Ek).
    exists (Dict.prev it), e. split; [by apply (field_prev s d Hr)|].
    split; [by apply (linked_prev d ch i it (wf_chains _ _ _ _ Hw) Hi)|].
    split; [unfold kv_at; by rewrite Ei|]. by apply (field_key s d Hr i it).
Qed.

(** The elements from [i] on. *)
Definition rest (i : Z) : list (K * unit) := omap (kv_at d) (seqZ i (count s - i)).

Lemma rest_cons i : i < count s -> rest i = match kv_at d i with Some e => e :: rest (i + 1) | None => rest (i + 1) end.
Proof.
  intros Hi. unfold rest. rewrite seqZ_cons by lia. cbn [omap list_omap].
  replace (Z.pred (count s - i)) with (count s - (i + 1)) by lia. by destruct (kv_at d i).
Qed.

Lemma next_used_spec fuel i : 0 <= i <= count s -> count s - i <= Z.of_nat fuel ->
  exists j, next_used fuel i s = Done j s /\ i <= j <= count s /\ rest i = rest j /\ (j < count s -> is_Some (kv_at d j)).
Proof.
  revert i. induction fuel as [|fuel IH]; intros i Hi Hf; cbn [next_used]; rewrite bind_get.
  - destruct (Z.ltb_spec i (count s)); [lia|]. exists i. split; [done|]. split; [lia|]. split; [done|lia].
  - destruct (Z.ltb_spec i (count s)) as [Hlt|]; [|exists i; split; [done|]; split; [lia|]; split; [done|lia]].
    destruct (cell i) as [[Ep Ek]|(p & e & Ep & Hp & Ek & _)]; [lia| |]; rewrite (bind_done _ _ _ _ _ Ep).
    + cbn [Z.eqb Pos.eqb]. destruct (IH (i + 1)) as (j & Ej & Hj & E & Hu); [lia|lia|]. exists j. split; [done|].
      split; [lia|]. split; [|done]. by rewrite rest_cons, Ek.
    + destruct (Z.eqb_spec p (-2)); [done|]. exists i. split; [done|]. split; [lia|]. split; [done|]. by rewrite Ek.
Qed.

End iteration.

(** ** Elements in use *)

Section elements.
Context {K : Type} `{Countable K} `{!HashFunc K}.
Implicit Types (s : HashSet K) (X : gset K).

(** The key of element [i], if it is in use. *)
Definition key_at s (i : Z) : option K :=
  n ← nodes s !! i; p ← prev n; if p =? -2 then None else key n.
Definition keys_from s (i : Z) : list K := omap (key_at s) (seqZ i (count s - i)).

Lemma key_at_deref s i k : key_at s i = Some k -> deref i s = Done k s.
Proof.
  unfold key_at, deref. destruct (nodes s !! i) as [n|] eqn:En; [|done]. cbn [mbind option_bind].
  destruct (prev n) as [p|]; [|done]. cbn [mbind option_bind]. destruct (_ =? _); [done|]. intros Ek. by apply (field_eq _ _ _ n).
Qed.

Lemma field_prev_inv s i p : field prev i s = Done p s -> exists n, nodes s !! i = Some n /\ prev n = Some p.
Proof.
  unfold field. rewrite bind_get. destruct (nodes s !! i) as [n|]; [|done]. cbn [demand]. rewrite bind_mret.
  destruct (prev n) as [q|] eqn:Ep; [|done]. intros [= ->]. by exists n.
Qed.

Lemma field_key_inv s i k : field key i s = Done k s -> exists n, nodes s !! i = Some n /\ key n = Some k.
Proof.
  unfold field. rewrite bind_get. destruct (nodes s !! i) as [n|]; [|done]. cbn [demand]. rewrite bind_mret.
  destruct (key n) as [q|] eqn:Ep; [|done]. intros [= ->]. by exists n.
Qed.

Lemma key_at_kv s d ch fl i : rel s d -> wf d ch fl [] -> 0 <= i < count s -> key_at s i = fst <$> kv_at d i.
Proof.
  intros Hr Hw Hi. destruct (cell s d ch fl Hr Hw i Hi) as [[Ep ->]|(p & e & Ep & Hp & -> & Ek)]; unfold key_at.
  - destruct (field_prev_inv _ _ _ Ep) as (n & -> & En). cbn [mbind option_bind]. by rewrite En.
  - destruct (field_prev_inv _ _ _ Ep) as (n & E & En). destruct (field_key_inv _ _ _ Ek) as (n' & E' & En').
    rewrite E in E'. injection E' as <-. rewrite E. cbn [mbind option_bind]. rewrite En. cbn [mbind option_bind].
    by destruct (Z.eqb_spec p (-2)).
Qed.

Lemma keys_from_rest s d ch fl i : rel s d -> wf d ch fl [] -> 0 <= i -> keys_from s i = fst <$> rest s d i.
Proof.
  intros Hr Hw Hi. unfold keys_from, rest. assert (Hin : forall j, j ∈ seqZ i (count s - i) -> 0 <= j < count s).
  { intros j Hj%elem_of_seqZ. lia. }
  induction (seqZ i (count s - i)) as [|j l IH]; [done|]. cbn [omap list_omap].
  rewrite (key_at_kv s d ch fl j Hr Hw) by (apply Hin; left). destruct (kv_at d j) as [e|]; cbn [fmap option_fmap option_map]; [rewrite fmap_cons; f_equal|]; apply IH; intros ??; apply Hin; by right.
Qed.

Lemma keys_from_end s : keys_from s (count s) = [].
Proof. unfold keys_from. by rewrite Z.sub_diag. Qed.

Lemma keys_from_cons s i : i < count s -> keys_from s i = match key_at s i with Some k => k :: keys_from s (i + 1) | None => keys_from s (i + 1) end.
Proof.
  intros Hi. unfold keys_from. rewrite seqZ_cons by lia. cbn [omap list_omap].
  replace (Z.pred (count s - i)) with (count s - (i + 1)) by lia. by destruct (key_at s i).
Qed.

(** The keys in use are those of the set. *)
Lemma keys_repr s X : set_repr s X -> keys_from s 0 ≡ₚ elements X.
Proof.
  intros (d & Hr & ch & fl & Hw & Hm). rewrite (keys_from_rest s d ch fl) by done.
  unfold rest. rewrite Z.sub_0_r, (rel_count _ _ Hr), <-(items_repr d ch fl _ Hw Hm).
  apply NoDup_Permutation; [apply NoDup_fst_map_to_list|apply NoDup_elements|]. intros k.
  rewrite list_elem_of_fmap, elem_of_elements. split.
  - intros ([k' []] & -> & Hk%elem_of_map_to_list). by apply lookup_gset_to_gmap_Some in Hk as [? _].
  - intros Hk. exists (k, tt). split; [done|]. apply elem_of_map_to_list. by apply lookup_gset_to_gmap_Some.
Qed.

(** From index [i] on the iterator stops at the next element in use. *)
Definition stops_at s (i j : Z) : Prop :=
  i <= j <= count s /\ keys_from s i = keys_from s j /\ (j < count s -> is_Some (key_at s j)).

Lemma next_used_set s X i : set_repr s X -> 0 <= i <= count s ->
  exists j, next_used (Z.to_nat (count s)) i s = Done j s /\ stops_at s i j.
Proof.
  intros (d & Hr & ch & fl & Hw & Hm) Hi.
  destruct (next_used_spec s d ch fl Hr Hw (Z.to_nat (count s)) i) as (j & Ej & Hj & E & Hu); [lia|lia|].
  exists j. split; [done|]. split; [done|]. split; [rewrite !(keys_from_rest s d ch fl) by (done || lia); by rewrite E|].
  intros Hlt. rewrite (key_at_kv s d ch fl) by (done || lia). destruct (Hu Hlt) as [e ->]. by exists e.1.
Qed.

Lemma set_count_nonneg s X : set_repr s X -> 0 <= count s.
Proof. intros (d & Hr & ch & fl & Hw & _). rewrite (rel_count _ _ Hr). apply (wf_count _ _ _ _ Hw). Qed.

Lemma begin_set s X : set_repr s X -> exists i, begin_ s = Done i s /\ stops_at s 0 i.
Proof.
  intros Hs. pose proof (set_size s X Hs) as Hsize. pose proof (set_count_nonneg s X Hs).
  unfold begin_. rewrite bind_get. destruct (Z.eqb_spec (count s) (freeCount s)) as [E|E].
  - exists (count s). split; [done|]. split; [lia|]. split; [|lia].
    assert (Hz : size X = 0%nat) by lia. apply size_empty_iff, leibniz_equiv in Hz. subst X.
    pose proof (keys_repr s ∅ Hs) as Hp. rewrite elements_empty in Hp. rewrite keys_from_end.
    by apply Permutation_nil_r in Hp.
  - by apply (next_used_set s X); [|lia].
Qed.

Lemma incr_set s X i : set_repr s X -> 0 <= i < count s -> exists j, incr i s = Done j s /\ stops_at s (i + 1) j.
Proof. intros Hs Hi. unfold incr. rewrite bind_get. by apply (next_used_set s X); [|lia]. Qed.

(** A removal frees the element of the key and leaves the others in place. *)
Lemma Remove_at s X k : set_repr s X -> exists s', Remove k s = Done (bool_decide (k ∈ X)) s' /\ count s' = count s /\
  set_repr s' (X ∖ {[k]}) /\
  forall j, 0 <= j < count s -> key_at s' j = if decide (key_at s j = Some k) then None else key_at s j.
Proof.
  intros (d & Hr & Hd). pose proof Hd as (ch & fl & Hw & Hm). destruct (Find_repr d ch fl _ k Hw Hm) as (i & Ei & Hi).
  rewrite gset_to_gmap_in in Hi.
  assert (Hrem : exists d', remove_of k d = Done (bool_decide (k ∈ X)) d' /\ Dict.count d' = Dict.count d /\
    repr d' (delete k (gset_to_gmap tt X)) /\
    forall j, 0 <= j < Dict.count d -> kv_at d' j = if decide (fst <$> kv_at d j = Some k) then None else kv_at d j).
  { unfold remove_of. rewrite (bind_done _ _ _ _ _ Ei).
    assert (Huse : forall j e, 0 <= j < Dict.count d -> kv_at d j = Some e -> linked d ch j /\ entry d j e).
    { intros j e Hj Ej. apply (wf_cover _ _ _ _ Hw) in Hj as [Hj|[Hj|Hj]]; [set_solver|by rewrite (kv_at_free _ _ _ _ (wf_free _ _ _ _ Hw)) in Ej|].
      split; [done|]. destruct (kv_at_linked _ _ _ _ j Hw Hj) as (e' & He' & E'). by simplify_eq. }
    destruct (decide (k ∈ X)) as [Hk|Hk].
    - destruct Hi as (Hge & Hl & He). destruct (RemoveAt_spec d ch fl _ i _ Hw Hm Hl He) as (d' & Er & Hc & Hd' & Hkv).
      exists d'. destruct (Z.leb_spec 0 i); [|lia]. rewrite (bind_done _ _ _ _ _ Er), bool_decide_true by done.
      split; [done|]. split; [done|]. split; [done|]. intros j Hj. rewrite Hkv. destruct (decide (j = i)) as [->|Hne].
      + destruct (kv_at_linked _ _ _ _ i Hw Hl) as (e & He' & ->). rewrite (entry_inj _ _ _ _ He' He). by destruct (decide _).
      + destruct (decide _) as [E|]; [|done]. destruct (kv_at d j) as [e|] eqn:Ej; [|done]. cbn in E. injection E as E.
        destruct (Huse j e Hj Ej) as [Hlj Hej]. destruct Hne. by apply (wf_uniq _ _ _ _ Hw j i e (k, tt)).
    - destruct Hi as (-> & Hno). exists d. rewrite bool_decide_false by done. split; [done|]. split; [done|].
      split; [rewrite delete_id; [done|]; rewrite gset_to_gmap_in; by destruct (decide (k ∈ X))|].
      intros j Hj. destruct (decide _) as [E|]; [|done]. destruct (kv_at d j) as [e|] eqn:Ej; [|done]. cbn in E. injection E as E.
      destruct (Huse j e Hj Ej) as [Hlj Hej]. by destruct (Hno j e Hlj Hej). }
  destruct Hrem as (d' & Er & Hc & Hd' & Hkv). destruct (sim_Remove k s d _ d' Hr Er) as (s' & Es & Hr').
  exists s'. split; [done|]. assert (Ec : count s' = count s) by by rewrite (rel_count _ _ Hr'), (rel_count _ _ Hr).
  split; [done|]. split; [exists d'; split; [done|]; by rewrite gset_to_gmap_difference_singleton|].
  intros j Hj. destruct Hd' as (ch' & fl' & Hw' & _). rewrite (key_at_kv s' d' ch' fl') by (done || lia).
  rewrite (key_at_kv s d ch fl) by done. rewrite Hkv by (by rewrite <-(rel_count _ _ Hr)).
  repeat case_decide; first [done|contradiction].
Qed.
End elements.

(** ** Sessions *)

Section session.
Context {K : Type} `{Countable K} `{!HashFunc K} (nodeSize : Z).
Implicit Types (s : HashSet K) (X : gset K).

Inductive set_call :=
| SAdd (k : K)
| SExists (k : K)
| SRemove (k : K)
| SCount
| SEmpty
| SClear.

Inductive set_reply :=
| SBool (b : bool)
| SNumber (n : Z)
| SUnit.

Definition set_exec (c : set_call) : M (HashSet K) set_reply :=
  match c with
  | SAdd k => b ← Add nodeSize true k; mret (SBool b)
  | SExists k => b ← Exists k; mret (SBool b)
  | SRemove k => b ← Remove k; mret (SBool b)
  | SCount => n ← Count; mret (SNumber n)
  | SEmpty => b ← Empty; mret (SBool b)
  | SClear => _ ← Clear; mret SUnit
  end.

Fixpoint set_exec_all (cs : list set_call) : M (HashSet K) (list set_reply) :=
  match cs with
  | [] => mret []
  | c :: cs => r ← set_exec c; rs ← set_exec_all cs; mret (r :: rs)
  end.

(** The same calls on a finite set. *)
Definition set_spec (c : set_call) X : set_reply * gset K :=
  match c with
  | SAdd k => (SBool (bool_decide (k ∉ X)), {[k]} ∪ X)
  | SExists k => (SBool (bool_decide (k ∈ X)), X)
  | SRemove k => (SBool (bool_decide (k ∈ X)), X ∖ {[k]})
  | SCount => (SNumber (Z.of_nat (size X)), X)
  | SEmpty => (SBool (bool_decide (X = ∅)), X)
  | SClear => (SUnit, ∅)
  end.

Fixpoint set_spec_all (cs : list set_call) X : list set_reply * gset K :=
  match cs with
  | [] => ([], X)
  | c :: cs => let '(r, X) := set_spec c X in let '(rs, X) := set_spec_all cs X in (r :: rs, X)
  end.

Context (Hsize : 8 <= nodeSize <= 512) (Hgrows : no_shrink nodeSize = true).

Lemma Add_set s X k : set_repr s X -> count s * 2 * nodeSize < 2 ^ 31 ->
  exists s', Add nodeSize true k s = Done (bool_decide (k ∉ X)) s' /\ count s' <= count s + 1 /\ set_repr s' ({[k]} ∪ X).
Proof.
  intros (d & Hr & Hd) Hc. rewrite (rel_count _ _ Hr) in Hc.
  destruct (Add_repr nodeSize Hsize Hgrows d _ k tt false Hd Hc) as (i & d' & Ea & Hc' & Hd').
  assert (E : bool_decide (gset_to_gmap tt X !! k = None) || false = bool_decide (k ∉ X)).
  { rewrite orb_false_r, gset_to_gmap_in. apply bool_decide_ext. by destruct (decide (k ∈ X)). }
  rewrite E in Ea, Hd'. destruct (sim_Add nodeSize k s d (bool_decide (k ∉ X)) d' Hr) as (s' & Es & Hr').
  { by rewrite (bind_done _ _ _ _ _ Ea). }
  exists s'. split; [done|]. rewrite (rel_count _ _ Hr'), (rel_count _ _ Hr). split; [done|]. exists d'. split; [done|].
  rewrite gset_to_gmap_union_singleton. case_bool_decide as Hk; [done|].
  rewrite insert_id; [done|]. rewrite gset_to_gmap_in. by destruct (decide (k ∈ X)).
Qed.

Lemma Exists_set s X k : set_repr s X -> exists s', Exists k s = Done (bool_decide (k ∈ X)) s' /\ count s' = count s /\ set_repr s' X.
Proof.
  intros (d & Hr & Hd). pose proof Hd as (ch & fl & Hw & Hm). destruct (Find_repr d ch fl _ k Hw Hm) as (i & Ei & Hi).
  destruct (sim_Exists k s d (bool_decide (k ∈ X)) d Hr) as (s' & Es & Hr').
  { rewrite (bind_done _ _ _ _ _ Ei). rewrite gset_to_gmap_in in Hi. destruct (decide (k ∈ X)).
    - destruct Hi as (Hge & _). rewrite bool_decide_true by done. by destruct (Z.leb_spec 0 i); [|lia].
    - destruct Hi as (-> & _). by rewrite bool_decide_false. }
  exists s'. split; [done|]. split; [by rewrite (rel_count _ _ Hr'), (rel_count _ _ Hr)|]. by exists d.
Qed.

Lemma Clear_set s X : set_repr s X -> exists s', Clear s = Done tt s' /\ count s' = 0 /\ set_repr s' ∅.
Proof.
  intros (d & Hr & Hd). destruct (Clear_repr d _ Hd) as (d' & Ec & Hc & Hd'). destruct (sim_Clear s d _ d' Hr Ec) as (s' & Es & Hr').
  exists s'. split; [done|]. rewrite (rel_count _ _ Hr'). split; [done|]. exists d'. split; [done|]. by rewrite gset_to_gmap_empty.
Qed.

Lemma Count_set s X : set_repr s X -> Count s = Done (Z.of_nat (size X)) s.
Proof.
  intros Hr. pose proof (set_size s X Hr) as Hs. unfold Count. rewrite bind_get.
  destruct (Z.leb_spec (freeCount s) (count s)); [|lia]. by rewrite Hs.
Qed.

Lemma Empty_set s X : set_repr s X -> Empty s = Done (bool_decide (X = ∅)) s.
Proof.
  intros Hr. unfold Empty. rewrite (bind_done _ _ _ _ _ (Count_set s X Hr)). unfold mret, M_ret. f_equal.
  case_bool_decide as E; [subst; by rewrite size_empty|]. apply Z.eqb_neq. intros Hz. apply E.
  apply leibniz_equiv, size_empty_iff. lia.
Qed.

Lemma set_exec_refines s X c : set_repr s X -> count s * 2 * nodeSize < 2 ^ 31 ->
  exists s', set_exec c s = Done (set_spec c X).1 s' /\ count s' <= count s + 1 /\ set_repr s' (set_spec c X).2.
Proof.
  intros Hr Hc. assert (Hge : 0 <= count s).
  { by eapply set_count_nonneg. }
  destruct c as [k|k|k| | |]; cbn [set_exec set_spec fst snd].
  - destruct (Add_set s X k Hr Hc) as (s' & Es & ?). rewrite (bind_done _ _ _ _ _ Es). by exists s'.
  - destruct (Exists_set s X k Hr) as (s' & Es & ? & ?). rewrite (bind_done _ _ _ _ _ Es). exists s'. split; [done|]. split; [lia|done].
  - destruct (Remove_at s X k Hr) as (s' & Es & ? & ? & _). rewrite (bind_done _ _ _ _ _ Es). exists s'. split; [done|]. split; [lia|done].
  - rewrite (bind_done _ _ _ _ _ (Count_set s X Hr)). exists s. split; [done|]. split; [lia|done].
  - rewrite (bind_done _ _ _ _ _ (Empty_set s X Hr)). exists s. split; [done|]. split; [lia|done].
  - destruct (Clear_set s X Hr) as (s' & Es & ? & ?). rewrite (bind_done _ _ _ _ _ Es). exists s'. split; [done|]. split; [lia|done].
Qed.

Lemma set_exec_all_refines cs s X : set_repr s X -> (count s + zlen cs) * 2 * nodeSize < 2 ^ 31 ->
  exists s', set_exec_all cs s = Done (set_spec_all cs X).1 s' /\ set_repr s' (set_spec_all cs X).2.
Proof.
  revert s X. induction cs as [|c cs IH]; intros s X Hr Hc; [by exists s|]. rewrite zlen_cons in Hc. pose proof (zlen_nonneg cs).
  destruct (set_exec_refines s X c Hr) as (s1 & E1 & Ec1 & Hr1); [nia|]. cbn [set_exec_all set_spec_all].
  rewrite (bind_done _ _ _ _ _ E1). destruct (set_spec c X) as [r X1]. cbn [fst snd] in *.
  destruct (IH s1 X1 Hr1) as (s2 & E2 & Hr2); [nia|]. rewrite (bind_done _ _ _ _ _ E2).
  destruct (set_spec_all cs X1) as [rs X2]. by exists s2.
Qed.

Lemma new_HashSet_repr capacity s : new_HashSet nodeSize capacity = Some s -> set_repr s ∅ /\ count s = 0.
Proof.
  unfold new_HashSet. destruct (GetPrime capacity nodeSize) as [n|] eqn:E; [|done]. intros [= <-]. split; [|done].
  exists (MkDict (-1) 0 0 n (blank_buckets n) ∅ ∅). split; [by split|]. rewrite gset_to_gmap_empty.
  apply (new_Dict_repr nodeSize Hsize capacity). unfold new_Dict. by rewrite E.
Qed.
End session.

(** ** Iterating over the whole set *)

Lemma iterate_set {K : Type} `{Countable K} `{!HashFunc K} (s : HashSet K) (X : gset K) fuel j :
  set_repr s X -> 0 <= j <= count s -> (j < count s -> is_Some (key_at s j)) -> count s - j <= Z.of_nat fuel ->
  iterate fuel j s = Done (keys_from s j) s.
Proof.
  intros Hs. revert j. induction fuel as [|fuel IH]; intros j Hj Hu Hf; cbn [iterate];
    (rewrite (bind_done end_ _ s (count s) s); [|done]); destruct (Z.eqb_spec j (count s)) as [->|Hne]; try lia; try by rewrite keys_from_end.
  destruct (Hu ltac:(lia)) as [k Ek]. rewrite (bind_done _ _ _ _ _ (key_at_deref s j k Ek)).
  destruct (incr_set s X j Hs) as (i & Ei & Hi & E & Hu'); [lia|].
  rewrite (bind_done _ _ _ _ _ Ei), (bind_done _ _ _ _ _ (IH i ltac:(lia) Hu' ltac:(lia))).
  rewrite (keys_from_cons s j) by lia. by rewrite Ek, E.
Qed.

Lemma for_each_set {K : Type} `{Countable K} `{!HashFunc K} (s : HashSet K) (X : gset K) :
  set_repr s X -> exists ks, for_each s = Done ks s /\ ks ≡ₚ elements X.
Proof.
  intros Hs. pose proof (set_count_nonneg s X Hs). exists (keys_from s 0). split; [|by apply keys_repr].
  unfold for_each. rewrite bind_get. destruct (begin_set s X Hs) as (i & Ei & Hi & E & Hu).
  rewrite (bind_done _ _ _ _ _ Ei), E. by apply (iterate_set s X); [done|lia|done|lia].
Qed.

(** ** The theorems *)

(** C22. For node sizes of 8 to 512 bytes whose bucket counts grow, a session of
    calls on a new set with trivial keys never leaves the arrays, ends, and
    answers as on a finite set; iterating over the set afterwards yields its
    keys, each once. *)
Theorem hashset_refines_set {K : Type} `{Countable K} `{!HashFunc K} (nodeSize capacity : Z)
    (cs : list (set_call (K := K))) (s : HashSet K) :
  8 <= nodeSize <= 512 -> no_shrink nodeSize = true -> new_HashSet nodeSize capacity = Some s ->
  zlen cs * 2 * nodeSize < 2 ^ 31 ->
  exists s' ks, set_exec_all nodeSize cs s = Done (set_spec_all cs ∅).1 s' /\
    for_each s' = Done ks s' /\ ks ≡ₚ elements (set_spec_all cs ∅).2.
Proof.
  intros Hs Hg Hn Hc. destruct (new_HashSet_repr nodeSize Hs capacity s Hn) as [Hr E0].
  destruct (set_exec_all_refines nodeSize Hs Hg cs s ∅ Hr) as (s' & Es & Hr'); [by rewrite E0|].
  destruct (for_each_set s' _ Hr') as (ks & Ek & Hp). by exists s', ks.
Qed.

#[local] Instance hash_u32 : HashFunc Z := hash_small.

(** The serial numbers of the requests of a peer: nodes of 16 bytes; three
    buckets at first. *)
Definition serials : list (set_call (K := Z)) :=
  [SAdd 1; SAdd 2; SAdd 1; SAdd 3; SAdd 4; SRemove 2; SRemove 2; SAdd 7; SExists 4; SCount; SEmpty].

Lemma hashset_refines_set_witness : exists s s' ks,
  new_HashSet (K := Z) 16 4 = Some s /\
  set_exec_all 16 serials s = Done [SBool true; SBool true; SBool false; SBool true; SBool true; SBool true; SBool false;
    SBool true; SBool true; SNumber 4; SBool false] s' /\
  for_each s' = Done ks s' /\ ks ≡ₚ [7; 3; 4; 1].
Proof.
  assert (Hn : exists s, new_HashSet (K := Z) 16 4 = Some s) by (eexists; vm_compute; reflexivity). destruct Hn as (s & Hn).
  destruct (hashset_refines_set 16 4 serials s) as (s' & ks & Es & Ek & Hp); [lia|by vm_compute|exact Hn|by vm_compute|].
  exists s, s', ks. split; [exact Hn|]. split; [exact Es|]. split; [exact Ek|]. rewrite Hp. vm_compute. reflexivity.
Defined.

(** With keys that are not trivial a set that is full cannot grow: the chains
    are rebuilt from the hash codes of the fresh nodes, which were never
    written. *)
Theorem hashset_loses_hash_codes {K : Type} `{HashFunc K} (nodeSize : Z) (s : HashSet K) :
  0 < count s -> count s = bucketsLen s -> Reserve nodeSize false 0 s = Undef.
Proof.
  intros Hc Hf. unfold Reserve. rewrite bind_get. destruct (Z.eqb_spec (count s) (bucketsLen s)); [|done].
  rewrite orb_true_r. cbn [assert_ Z.eqb]. rewrite bind_mret. destruct (Z.leb_spec (count s * 2) (bucketsLen s)); [lia|].
  destruct (GetPrime _ _) as [n|]; [|done]. rewrite (seqZ_cons 0) by lia. cbn [demand]. rewrite bind_mret.
  unfold put at 1, mbind at 1, M_bind at 1. rewrite bind_assoc. cbn [move_keys nodes set_buckets].
  destruct (nodes s !! 0) as [nd|]; [|done]. cbn [mbind option_bind]. destruct (key nd) as [k|]; [|done]. cbn [mbind option_bind].
  destruct (move_keys _ _) as [m|]; [|done]. cbn [mbind option_bind demand]. rewrite bind_mret, bind_modify.
  cbn [relink_all]. unfold relink, field. rewrite bind_assoc, bind_assoc, bind_get. cbn [nodes set_nodes]. by rewrite lookup_insert_eq.
Qed.
