(* ===== verification/Queue.v ===== *)
(** * xx_queue: the ring buffer

    [Queue<T>] keeps its elements in the cells from [head] up to [tail] of a
    ring of [bufLen] cells.  The store [buf] maps the cells that hold a living
    object to its value: constructing puts one there, destroying takes it
    away.  Destroying, moving or reading a cell without a living object is
    undefined, except that for trivial types destruction does nothing and
    copies may read anything. *)

From Stdlib Require Import ZArith Lia.
From stdpp Require Import base numbers list gmap.
From S2P Require Import Prelude Util.
Open Scope Z_scope.

Record Queue (T : Type) := MkQueue { buf : gmap Z T; bufLen : Z; head : Z; tail : Z }.
Arguments MkQueue {T}.
Arguments buf {T}.
Arguments bufLen {T}.
Arguments head {T}.
Arguments tail {T}.

Section queue.
Context {T : Type}.
(** [sizeof(T)] and [IsTrivial_v<T>]. *)
Context (sizeT : Z) (trivial : bool).
Implicit Types q : Queue T.

Definition set_buf (m : gmap Z T) q := MkQueue m (bufLen q) (head q) (tail q).
Definition set_head (h : Z) q := MkQueue (buf q) (bufLen q) h (tail q).
Definition set_tail (t : Z) q := MkQueue (buf q) (bufLen q) (head q) t.

(** Number of cells of the block for [capacity] elements. *)
Definition cells (capacity : Z) : option Z :=
  n ← Round2n (u64 (capacity * sizeT + MemHeader_size)); Some (u64 (n - MemHeader_size) / sizeT).

Definition new_Queue (capacity : Z) : option (Queue T) :=
  let capacity := if capacity <? 8 then 8 else capacity in
  n ← cells capacity; Some (MkQueue ∅ n 0 0).

Definition Count q : Z := if head q <=? tail q then tail q - head q else tail q + (bufLen q - head q).
Definition Empty q : bool := head q =? tail q.

(** [buf[i].~T()] *)
Definition destroy (i : Z) : M (Queue T) unit :=
  if trivial then mret tt
  else q ← get; _ ← demand (buf q !! i); put (set_buf (delete i (buf q)) q).

(** [new (buf + i) T(v)] *)
Definition construct (i : Z) (v : T) : M (Queue T) unit :=
  q ← get; _ ← assert_ ((0 <=? i) && (i <? bufLen q)); put (set_buf (<[i := v]> (buf q)) q).

Fixpoint destroy_all (l : list Z) : M (Queue T) unit :=
  match l with
  | [] => mret tt
  | i :: l => _ ← destroy i; destroy_all l
  end.

(** The cells from [a] up to [b]. *)
Definition range (a b : Z) : list Z := seqZ a (b - a).

Definition Pop : M (Queue T) unit :=
  q ← get;
  _ ← assert_ (negb (head q =? tail q));
  _ ← destroy (head q);
  modify (fun q => set_head (if head q + 1 =? bufLen q then 0 else head q + 1) q).

(** [buf[tail--].~T()]; [tail] is unsigned. *)
Definition PopLast : M (Queue T) unit :=
  q ← get;
  _ ← assert_ (negb (head q =? tail q));
  _ ← destroy (tail q);
  modify (fun q => let t := u64 (tail q - 1) in set_tail (if t =? 2 ^ 64 - 1 then bufLen q - 1 else t) q).

(** Move the elements of the cells [from] to the cells [to], [to + 1], ... of
    the new block [m], one after the other; a trivial type is copied, cells
    without an object too. *)
Fixpoint move_all (from : list Z) (to : Z) (m : gmap Z T) : M (Queue T) (gmap Z T) :=
  match from with
  | [] => mret m
  | i :: from =>
      q ← get;
      match buf q !! i with
      | Some v => _ ← destroy i; move_all from (to + 1) (<[to := v]> m)
      | None => if trivial then move_all from (to + 1) m else undef
      end
  end.

Definition Reserve (capacity : Z) (afterPush : bool) : M (Queue T) unit :=
  q ← get;
  _ ← assert_ (0 <? capacity);
  if capacity <=? bufLen q then mret tt
  else
    n ← demand (cells capacity);
    let dataLen := if afterPush then bufLen q else Count q in
    m ← (if head q <? tail q then move_all (range (head q) (head q + dataLen)) 0 ∅
         else
           m ← move_all (range (head q) (bufLen q)) 0 ∅;
           move_all (range 0 (tail q)) (bufLen q - head q) m);
    _ ← assert_ (dataLen <=? n);
    put (MkQueue m n 0 dataLen).

(** The index of the new element, in the block that is current afterwards. *)
Definition Emplace (v : T) : M (Queue T) Z :=
  q ← get;
  let idx := tail q in
  _ ← construct idx v;
  _ ← modify (fun q => set_tail (if tail q + 1 =? bufLen q then 0 else tail q + 1) q);
  q ← get;
  if tail q =? head q then
    let idx := bufLen q - 1 in
    _ ← Reserve (u64 (bufLen q * 2)) true;
    mret idx
  else mret idx.

Fixpoint Push (vs : list T) : M (Queue T) unit :=
  match vs with
  | [] => mret tt
  | v :: vs => _ ← Emplace v; Push vs
  end.

Definition Clear : M (Queue T) unit :=
  q ← get;
  if head q =? tail q then mret tt
  else
    _ ← (if head q <? tail q then destroy_all (range (head q) (tail q))
         else _ ← destroy_all (range 0 (tail q)); destroy_all (range (head q) (bufLen q)));
    modify (fun q => set_tail 0 (set_head 0 q)).

Definition PopMulti (count : Z) : M (Queue T) Z :=
  if count <=? 0 then mret 0
  else
    q ← get;
    let dataLen := Count q in
    if dataLen <=? count then _ ← Clear; mret dataLen
    else if head q <? tail q then
      _ ← destroy_all (range (head q) (u64 (head q + count)));
      _ ← modify (fun q => set_head (u64 (head q + count)) q);
      mret count
    else
      let frontDataLen := bufLen q - head q in
      if count <? frontDataLen then
        _ ← destroy_all (range (head q) (u64 (head q + count)));
        _ ← modify (fun q => set_head (u64 (head q + count)) q);
        mret count
      else
        _ ← destroy_all (range (head q) (bufLen q));
        _ ← modify (set_head (count - frontDataLen));
        _ ← destroy_all (range 0 (count - frontDataLen));
        mret count.

(** The cell an index, the first and the last element are in. *)
Definition cell_at (idx : Z) q : Z :=
  if u64 (head q + idx) <? bufLen q then u64 (head q + idx) else head q + idx - bufLen q.
Definition last_cell q : Z := if u64 (tail q - 1) =? 2 ^ 64 - 1 then bufLen q - 1 else tail q - 1.

Definition At (idx : Z) : M (Queue T) T :=
  q ← get; _ ← assert_ (idx <? Count q); demand (buf q !! cell_at idx q).
Definition Top : M (Queue T) T :=
  q ← get; _ ← assert_ (negb (head q =? tail q)); demand (buf q !! head q).
Definition Last : M (Queue T) T :=
  q ← get; _ ← assert_ (negb (head q =? tail q)); demand (buf q !! last_cell q).

Definition TryPop : M (Queue T) (option T) :=
  q ← get;
  if head q =? tail q then mret None
  else v ← demand (buf q !! head q); _ ← Pop; mret (Some v).
End queue.
