(* ===== verification/QueueProps.v ===== *)
(** * A ring buffer is a list

    The operations of [Queue] act on the list of its elements ([represents]);
    for non-trivial types the cells with living objects are exactly the cells
    of the elements, so nothing leaks and nothing is destroyed twice. *)

From Stdlib Require Import ZArith Lia.
From stdpp Require Import base numbers list gmap.
From S2P Require Import Prelude Util Queue.
Open Scope Z_scope.

Section props.
Context {T : Type} (sizeT : Z) (trivial : bool).
Implicit Types (q : Queue T) (l : list T).

(** The cell of element [i]. *)
Definition pos q (i : Z) : Z := (head q + i) mod bufLen q.

Record represents q l : Prop := {
  rep_head : 0 <= head q < bufLen q;
  rep_room : zlen l < bufLen q;
  rep_max : bufLen q < 2 ^ 63;
  rep_tail : tail q = pos q (zlen l);
  rep_elems (i : nat) v : l !! i = Some v -> buf q !! pos q (Z.of_nat i) = Some v;
  rep_tidy j : trivial = false -> is_Some (buf q !! j) -> exists i, 0 <= i < zlen l /\ j = pos q i
}.

(** ** Cells *)

Lemma pos_cases q i : 0 <= head q < bufLen q -> 0 <= i <= bufLen q ->
  pos q i = if head q + i <? bufLen q then head q + i else head q + i - bufLen q.
Proof.
  intros Hh Hi. unfold pos. destruct (Z.ltb_spec (head q + i) (bufLen q)); [apply Z.mod_small; lia|].
  symmetry. apply (Z.mod_unique _ _ 1); lia.
Qed.

Ltac cell q i := let E := fresh in pose proof (pos_cases q i ltac:(lia) ltac:(lia)) as E; destruct (Z.ltb_spec (head q + i) (bufLen q)).

Lemma pos_inj q i j : 0 <= head q < bufLen q -> 0 <= i < bufLen q -> 0 <= j < bufLen q -> pos q i = pos q j -> i = j.
Proof. intros. cell q i; cell q j; lia. Qed.

Lemma pos_range q i : 0 <= head q < bufLen q -> 0 <= pos q i < bufLen q.
Proof. intros. apply Z.mod_pos_bound. lia. Qed.

#[local] Instance pos_dec q n j : Decision (exists i, 0 <= i < n /\ j = pos q i).
Proof.
  refine (cast_if (decide (Exists (fun i => j = pos q i) (seqZ 0 n)))).
  - apply Exists_exists in e as (i & Hi%elem_of_seqZ & E). exists i. split; [lia|done].
  - intros (i & Hi & E). apply n0, Exists_exists. exists i. split; [apply elem_of_seqZ; lia|done].
Defined.

(** Positions seen from a later head. *)
Lemma pos_shift q q' n i : bufLen q' = bufLen q -> head q' = pos q n -> 0 < bufLen q -> pos q' i = pos q (n + i).
Proof. intros El Eh Hl. unfold pos in *. rewrite El, Eh, Z.add_mod_idemp_l by lia. f_equal. lia. Qed.

Lemma Count_length q l : represents q l -> Count q = zlen l.
Proof.
  intros H. pose proof (rep_head _ _ H). pose proof (rep_room _ _ H). pose proof (rep_tail _ _ H) as Et. pose proof (zlen_nonneg l).
  unfold Count. cell q (zlen l); destruct (Z.leb_spec (head q) (tail q)); lia.
Qed.

Lemma Empty_nil q l : represents q l -> head q = tail q <-> l = [].
Proof.
  intros H. pose proof (rep_head _ _ H). pose proof (rep_room _ _ H). pose proof (rep_tail _ _ H) as Et. pose proof (zlen_nonneg l).
  rewrite <-zlen_0. cell q (zlen l); lia.
Qed.

Lemma rep_elem q l i : represents q l -> 0 <= i < zlen l -> exists v, znth l i = Some v /\ buf q !! pos q i = Some v.
Proof.
  intros H Hi. destruct (znth_is_Some l i Hi) as [v Ev]. exists v. split; [done|]. unfold znth in Ev.
  destruct (Z.ltb_spec i 0); [lia|]. apply (rep_elems _ _ H) in Ev. by rewrite Z2Nat.id in Ev by lia.
Qed.

(** The cells of the elements, in the two cases of the code. *)
Lemma cells_straight q l j : represents q l -> head q < tail q ->
  head q <= j < tail q <-> exists i, 0 <= i < zlen l /\ j = pos q i.
Proof.
  intros H Hc. pose proof (rep_head _ _ H). pose proof (rep_room _ _ H). pose proof (rep_tail _ _ H) as Et. pose proof (zlen_nonneg l).
  cell q (zlen l); [|lia]. split.
  - intros Hj. exists (j - head q). split; [lia|]. cell q (j - head q); lia.
  - intros (i & Hi & ->). cell q i; lia.
Qed.

Lemma cells_wrapped q l j : represents q l -> tail q < head q ->
  (0 <= j < tail q \/ head q <= j < bufLen q) <-> exists i, 0 <= i < zlen l /\ j = pos q i.
Proof.
  intros H Hc. pose proof (rep_head _ _ H). pose proof (rep_room _ _ H). pose proof (rep_tail _ _ H) as Et. pose proof (zlen_nonneg l).
  cell q (zlen l); [lia|]. split.
  - intros [Hj|Hj]; [exists (j + bufLen q - head q); split; [lia|]; cell q (j + bufLen q - head q); lia|].
    exists (j - head q). split; [lia|]. cell q (j - head q); lia.
  - intros (i & Hi & ->). cell q i; lia.
Qed.

(** ** Destroying cells *)

Lemma destroy_spec q i : is_Some (buf q !! i) ->
  exists m, destroy trivial i q = Done tt (set_buf m q) /\
    (forall j, j <> i -> m !! j = buf q !! j) /\ (trivial = false -> m !! i = None).
Proof.
  intros [v Ev]. unfold destroy. destruct trivial; [exists (buf q); by destruct q|].
  exists (delete i (buf q)). unfold mbind, M_bind, get, demand. rewrite Ev. split; [done|].
  split; [intros j Hj; by rewrite lookup_delete_ne|by rewrite lookup_delete_eq].
Qed.

Lemma destroy_all_spec (cs : list Z) q : NoDup cs -> (forall i, i ∈ cs -> is_Some (buf q !! i)) ->
  exists m, destroy_all trivial cs q = Done tt (set_buf m q) /\
    (forall j, j ∉ cs -> m !! j = buf q !! j) /\ (trivial = false -> forall j, j ∈ cs -> m !! j = None).
Proof.
  revert q. induction cs as [|i cs IH]; intros q Hnd Hs; [exists (buf q); split; [by destruct q|]; set_solver|].
  apply NoDup_cons in Hnd as [Hi Hnd]. destruct (destroy_spec q i) as (m1 & E1 & H1 & N1); [apply Hs; set_solver|].
  cbn [destroy_all]. rewrite (bind_done _ _ _ _ _ E1). destruct (IH (set_buf m1 q)) as (m2 & E2 & H2 & N2); [done| |].
  { intros j Hj. cbn. rewrite H1 by (by intros ->). apply Hs. set_solver. }
  exists m2. split; [by rewrite E2|]. split.
  - intros j Hj. rewrite H2 by set_solver. apply H1. set_solver.
  - intros Ht j [->|Hj]%elem_of_cons; [|by apply N2]. rewrite H2 by done. by apply N1.
Qed.

(** ** Dropping elements from the front *)

(** [q'] is [q] without the first [n] elements. *)
Lemma represents_drop q l n m h : represents q l -> 0 <= n <= zlen l -> h = pos q n ->
  (forall j, (forall i, 0 <= i < n -> j <> pos q i) -> m !! j = buf q !! j) ->
  (trivial = false -> forall i, 0 <= i < n -> m !! pos q i = None) ->
  represents (MkQueue m (bufLen q) h (tail q)) (drop (Z.to_nat n) l).
Proof.
  intros H Hn -> Hm Hnone. pose proof (rep_head _ _ H). pose proof (rep_room _ _ H). set (q' := MkQueue _ _ _ _).
  assert (Hsh : forall i, pos q' i = pos q (n + i)) by (intros i; by apply pos_shift; [| |lia]).
  split.
  - apply (pos_range q n), H.
  - rewrite zlen_drop. cbn [bufLen q']. lia.
  - apply (rep_max _ _ H).
  - rewrite Hsh, zlen_drop. cbn. rewrite (rep_tail _ _ H). f_equal. lia.
  - intros i v Ev. rewrite lookup_drop in Ev. apply lookup_lt_Some in Ev as Hlt. unfold zlen in *. apply (rep_elems _ _ H) in Ev.
    rewrite Hsh. cbn [buf q']. replace (n + Z.of_nat i) with (Z.of_nat (Z.to_nat n + i)) by lia. rewrite Hm; [done|].
    intros i' Hi' E. apply pos_inj in E; lia.
  - intros j Ht [v Ev]. cbn [buf q'] in Ev. destruct (decide (exists i, 0 <= i < n /\ j = pos q i)) as [(i & Hi & ->)|Hno].
    + by rewrite Hnone in Ev.
    + rewrite Hm in Ev by (intros i Hi ->; apply Hno; eauto). destruct (rep_tidy _ _ H j Ht) as (i & Hi & ->); [by rewrite Ev|].
      exists (i - n). rewrite zlen_drop, Hsh. replace (n + (i - n)) with i by lia. split; [|done].
      assert (~ i < n) by (intros Hin; apply Hno; exists i; lia). lia.
Qed.

Lemma range_spec a b j : j ∈ range a b <-> a <= j < b.
Proof. unfold range. rewrite elem_of_seqZ. lia. Qed.
Lemma range_NoDup a b : NoDup (range a b).
Proof. apply NoDup_seqZ. Qed.

(** Destroy the cells of the first [n] elements, given as one or two ranges. *)
Lemma drop_cells (cs : list Z) q l n : represents q l -> 0 <= n <= zlen l -> NoDup cs ->
  (forall j, j ∈ cs <-> exists i, 0 <= i < n /\ j = pos q i) ->
  exists m, destroy_all trivial cs q = Done tt (set_buf m q) /\
    represents (MkQueue m (bufLen q) (pos q n) (tail q)) (drop (Z.to_nat n) l).
Proof.
  intros H Hn Hnd Hcs. destruct (destroy_all_spec cs q Hnd) as (m & E & Hm & Hno).
  { intros j (i & Hi & ->)%Hcs. destruct (rep_elem q l i H) as (v & _ & ->); [lia|done]. }
  exists m. split; [done|]. apply (represents_drop q l); [done|done|done| |].
  - intros j Hj. apply Hm. intros (i & Hi & ->)%Hcs. by apply (Hj i).
  - intros Ht i Hi. apply Hno; [done|]. apply Hcs. eauto.
Qed.

Lemma Queue_Pop_spec q v l : represents q (v :: l) -> exists q', Pop trivial q = Done tt q' /\ represents q' l.
Proof.
  intros H. pose proof (rep_head _ _ H). pose proof (rep_room _ _ H) as Hr. rewrite zlen_cons in Hr. pose proof (zlen_nonneg l).
  destruct (drop_cells [head q] q (v :: l) 1 H) as (m & E & Hq); [rewrite zlen_cons; lia|apply NoDup_singleton| |].
  { intros j. rewrite list_elem_of_singleton. split; [intros ->; exists 0; split; [lia|cell q 0; lia]|].
    intros (i & Hi & ->). replace i with 0 by lia. cell q 0; lia. }
  cbn in Hq. exists (MkQueue m (bufLen q) (pos q 1) (tail q)). split; [|done].
  unfold Pop, mbind at 1, M_bind at 1, get. destruct (Z.eqb_spec (head q) (tail q)) as [Eh|Eh]; [by apply (Empty_nil _ _ H) in Eh|].
  cbn [negb assert_]. rewrite (bind_done (mret tt) _ q tt q eq_refl).
  assert (Ed : destroy trivial (head q) q = Done tt (set_buf m q)).
  { cbn [destroy_all] in E. unfold mbind, M_bind in E. destruct (destroy trivial (head q) q) as [[]| |]; [exact E|done|done]. }
  rewrite (bind_done _ _ _ _ _ Ed). unfold modify, set_head. cbn. do 2 f_equal.
  cell q 1; destruct (Z.eqb_spec (head q + 1) (bufLen q)); lia.
Qed.

Lemma Queue_TryPop_spec q l : represents q l -> exists q', TryPop trivial q = Done (List.hd_error l) q' /\ represents q' (List.tl l).
Proof.
  intros H. unfold TryPop, mbind at 1, M_bind at 1, get. destruct (Z.eqb_spec (head q) (tail q)) as [Eh|Eh].
  - apply (Empty_nil _ _ H) in Eh as ->. by exists q.
  - destruct l as [|v l]; [by destruct Eh; apply (Empty_nil q [] H)|]. destruct (Queue_Pop_spec q v l H) as (q' & Ep & Hq').
    exists q'. split; [|done]. pose proof (rep_elems _ _ H 0%nat v eq_refl) as Ev. pose proof (rep_head _ _ H).
    assert (Eh0 : pos q (Z.of_nat 0) = head q) by (change (Z.of_nat 0) with 0; cell q 0; lia). rewrite Eh0 in Ev. unfold demand. rewrite Ev.
    rewrite (bind_done (mret v) _ q v q eq_refl), (bind_done _ _ _ _ _ Ep). done.
Qed.

(** The cells of all elements. *)
Definition cells_of q : list Z :=
  if head q <? tail q then range (head q) (tail q) else range 0 (tail q) ++ range (head q) (bufLen q).

Lemma cells_of_spec q l j : represents q l -> head q <> tail q -> j ∈ cells_of q <-> exists i, 0 <= i < zlen l /\ j = pos q i.
Proof.
  intros H Hne. unfold cells_of. destruct (Z.ltb_spec (head q) (tail q)).
  - rewrite range_spec. by apply cells_straight.
  - rewrite elem_of_app, !range_spec. apply cells_wrapped; [done|lia].
Qed.

Lemma cells_of_NoDup q l : represents q l -> head q <> tail q -> NoDup (cells_of q).
Proof.
  intros H Hne. unfold cells_of. destruct (Z.ltb_spec (head q) (tail q)); [apply range_NoDup|].
  apply NoDup_app. split; [apply range_NoDup|]. split; [|apply range_NoDup]. intros j. rewrite !range_spec. lia.
Qed.

Lemma destroy_all_app (a b : list Z) q : destroy_all trivial (a ++ b) q = (_ ← destroy_all trivial a; destroy_all trivial b) q.
Proof.
  revert q. induction a as [|i a IH]; intros q; [done|]. cbn [app destroy_all]. rewrite bind_assoc. apply bind_ext; [done|].
  intros. apply IH.
Qed.

Lemma destroy_all_set_head k cs q : destroy_all trivial cs (set_head k q) =
  match destroy_all trivial cs q with Done _ q' => Done tt (set_head k q') | Fail e q' => Fail e (set_head k q') | Undef => Undef end.
Proof.
  revert q. induction cs as [|i cs IH]; intros q; [done|]. cbn [destroy_all]. unfold destroy, mbind, M_bind, get, put, demand, mret, M_ret in *.
  destruct trivial; [apply IH|]. cbn [buf set_head]. destruct (buf q !! i); [|done]. apply (IH (set_buf _ q)).
Qed.

Lemma represents_nil m n : 0 < n < 2 ^ 63 -> (trivial = false -> forall j, m !! j = None) -> represents (MkQueue m n 0 0) [].
Proof.
  intros Hn Hm. split; cbn [head tail bufLen buf]; rewrite ?zlen_nil; try lia.
  - symmetry. apply Zmod_0_l.
  - done.
  - intros j Ht [v Ev]. by rewrite Hm in Ev.
Qed.

Lemma Queue_Clear_spec q l : represents q l -> exists q', Clear trivial q = Done tt q' /\ represents q' [].
Proof.
  intros H. pose proof (rep_head _ _ H). pose proof (rep_max _ _ H). unfold Clear, mbind at 1, M_bind at 1, get.
  destruct (Z.eqb_spec (head q) (tail q)) as [Eh|Eh]; [apply (Empty_nil _ _ H) in Eh as ->; by exists q|].
  destruct (drop_cells (cells_of q) q l (zlen l) H) as (m & E & Hq); [pose proof (zlen_nonneg l); lia|by eapply cells_of_NoDup|by intros j; apply cells_of_spec|].
  exists (MkQueue m (bufLen q) 0 0). split.
  - unfold cells_of in E. destruct (_ <? _); [|rewrite destroy_all_app in E]; by rewrite (bind_done _ _ _ _ _ E).
  - apply represents_nil; [lia|]. intros Ht j. destruct (m !! j) eqn:Em; [|done].
    destruct (rep_tidy _ _ Hq j Ht) as (i & Hi & _); [cbn; by rewrite Em|]. rewrite zlen_drop in Hi. unfold zlen in Hi. lia.
Qed.

Lemma PopMulti_spec q l n : represents q l -> 0 <= n < 2 ^ 64 ->
  exists q', PopMulti trivial n q = Done (Z.min n (zlen l)) q' /\ represents q' (drop (Z.to_nat n) l).
Proof.
  intros H Hn. pose proof (rep_head _ _ H). pose proof (rep_room _ _ H). pose proof (rep_max _ _ H). pose proof (zlen_nonneg l).
  pose proof (rep_tail _ _ H) as Et. unfold PopMulti. destruct (Z.leb_spec n 0).
  { replace n with 0 by lia. exists q. rewrite Z.min_l by lia. done. }
  unfold mbind at 1, M_bind at 1, get. rewrite (Count_length q l H). destruct (Z.leb_spec (zlen l) n).
  { destruct (Queue_Clear_spec q l H) as (q' & Ec & Hq'). rewrite (bind_done _ _ _ _ _ Ec). exists q'. rewrite Z.min_r by lia.
    split; [done|]. rewrite drop_ge; [done|]. unfold zlen in *. lia. }
  rewrite Z.min_l by lia. destruct (Z.ltb_spec (head q) (tail q)) as [Hc|Hc].
  - assert (Hu : u64 (head q + n) = head q + n) by (apply uint_small; rng). rewrite Hu.
    destruct (drop_cells (range (head q) (head q + n)) q l n H) as (m & E & Hq); [lia|apply range_NoDup| |].
    { intros j. rewrite range_spec. cell q (zlen l); [|lia]. split; [intros Hj; exists (j - head q); split; [lia|]; cell q (j - head q); lia|].
      intros (i & Hi & ->). cell q i; lia. }
    rewrite (bind_done _ _ _ _ _ E). eexists. split; [reflexivity|]. unfold set_head. cbn. rewrite Hu.
    replace (head q + n) with (pos q n); [done|]. cell q (zlen l); [|lia]. cell q n; lia.
  - cell q (zlen l); [lia|]. destruct (Z.ltb_spec n (bufLen q - head q)) as [Hf|Hf].
    + assert (Hu : u64 (head q + n) = head q + n) by (apply uint_small; rng). rewrite Hu.
      destruct (drop_cells (range (head q) (head q + n)) q l n H) as (m & E & Hq); [lia|apply range_NoDup| |].
      { intros j. rewrite range_spec. split; [intros Hj; exists (j - head q); split; [lia|]; cell q (j - head q); lia|].
        intros (i & Hi & ->). cell q i; lia. }
      rewrite (bind_done _ _ _ _ _ E). eexists. split; [reflexivity|]. unfold set_head. cbn. rewrite Hu.
      replace (head q + n) with (pos q n); [done|]. cell q n; lia.
    + set (k := n - (bufLen q - head q)).
      destruct (drop_cells (range (head q) (bufLen q) ++ range 0 k) q l n H) as (m & E & Hq); [lia| | |].
      { apply NoDup_app. split; [apply range_NoDup|]. split; [|apply range_NoDup]. intros j. rewrite !range_spec. lia. }
      { intros j. rewrite elem_of_app, !range_spec. split.
        - intros [Hj|Hj]; [exists (j - head q); split; [lia|]; cell q (j - head q); lia|].
          exists (j + bufLen q - head q). split; [lia|]. cell q (j + bufLen q - head q); lia.
        - intros (i & Hi & ->). cell q i; lia. }
      rewrite destroy_all_app in E. apply bind_inv_done in E as ([] & q1 & E1 & E2). rewrite (bind_done _ _ _ _ _ E1).
      eexists. split.
      * rewrite (bind_done (modify _) _ q1 tt (set_head k q1) eq_refl).
        rewrite (bind_done _ _ _ tt (set_head k (set_buf m q))) by (rewrite destroy_all_set_head; fold k; by rewrite E2). reflexivity.
      * unfold set_head. cbn. replace k with (pos q n); [done|]. cell q n; lia.
Qed.

(** ** A larger block *)

Fixpoint fill (m : gmap Z T) (to : Z) (vs : list T) : gmap Z T :=
  match vs with
  | [] => m
  | v :: vs => fill (<[to := v]> m) (to + 1) vs
  end.

Lemma fill_lookup m to vs j : fill m to vs !! j = if decide (to <= j < to + zlen vs) then vs !! Z.to_nat (j - to) else m !! j.
Proof.
  revert m to. induction vs as [|v vs IH]; intros m to; cbn [fill].
  - rewrite zlen_nil. by rewrite decide_False by lia.
  - rewrite IH, zlen_cons. pose proof (zlen_nonneg vs). destruct (decide (j = to)) as [->|Hne].
    + rewrite decide_False, lookup_insert_eq, decide_True by lia. by replace (Z.to_nat (to - to)) with 0%nat by lia.
    + destruct (decide (to + 1 <= j < to + 1 + zlen vs)).
      * rewrite decide_True by lia. replace (Z.to_nat (j - to)) with (S (Z.to_nat (j - (to + 1)))) by lia. done.
      * rewrite decide_False, lookup_insert_ne by lia. done.
Qed.

Lemma move_all_app a b to m q :
  move_all trivial (a ++ b) to m q = (m' ← move_all trivial a to m; move_all trivial b (to + zlen a) m') q.
Proof.
  revert to m q. induction a as [|i a IH]; intros to m q.
  - cbn [app move_all]. rewrite zlen_nil, Z.add_0_r. done.
  - cbn [app move_all]. rewrite zlen_cons, Z.add_assoc. rewrite bind_assoc. apply bind_ext; [done|]. intros q1 q2 _.
    destruct (buf q1 !! i).
    + rewrite bind_assoc. apply bind_ext; [done|]. intros. apply IH.
    + destruct trivial; [apply IH|done].
Qed.

Lemma move_all_spec cs vs to m q : NoDup cs -> Forall2 (fun i v => buf q !! i = Some v) cs vs ->
  exists q', move_all trivial cs to m q = Done (fill m to vs) q'.
Proof.
  revert vs to m q. induction cs as [|i cs IH]; intros vs to m q Hnd H.
  - apply Forall2_nil_inv_l in H as ->. by exists q.
  - apply Forall2_cons_inv_l in H as (v & vs' & Ev & H & ->). apply NoDup_cons in Hnd as [Hi Hnd].
    cbn [move_all fill]. unfold mbind at 1, M_bind at 1, get. rewrite Ev.
    destruct (destroy_spec q i) as (m1 & E1 & H1 & _); [by rewrite Ev|]. rewrite (bind_done _ _ _ _ _ E1).
    apply IH; [done|]. apply Forall2_same_length_lookup_2; [by eapply Forall2_length|].
    intros k j w Ej Ew. cbn. rewrite H1; [by apply (Forall2_lookup_lr _ _ _ k j w H)|].
    intros ->. apply Hi. by eapply list_elem_of_lookup_2.
Qed.

(** A copy of trivial elements cannot fail. *)
Lemma move_all_trivial cs to m q : trivial = true -> exists m' q', move_all trivial cs to m q = Done m' q'.
Proof.
  intros Ht. revert to m q. induction cs as [|i cs IH]; intros to m q; [by eexists _, _|].
  cbn [move_all]. unfold mbind at 1, M_bind at 1, get. rewrite Ht in *. destruct (buf q !! i); [|apply IH].
  unfold destroy. rewrite (bind_done (mret tt) _ q tt q eq_refl). apply IH.
Qed.

(** The elements [l] are in a ring that may be full. *)
Record ring q l : Prop := {
  ring_head : 0 <= head q < bufLen q;
  ring_room : zlen l <= bufLen q;
  ring_tail : tail q = pos q (zlen l);
  ring_elems (i : nat) v : l !! i = Some v -> buf q !! pos q (Z.of_nat i) = Some v
}.

Lemma represents_ring q l : represents q l -> ring q l.
Proof. intros H. split; try apply H. pose proof (rep_room _ _ H). lia. Qed.

(** The order in which [Reserve] visits the cells. *)
Definition order q (n : Z) : list Z :=
  if head q <? tail q then range (head q) (head q + n) else range (head q) (bufLen q) ++ range 0 (tail q).

Lemma order_pos q l : ring q l -> l <> [] -> order q (zlen l) = pos q <$> seqZ 0 (zlen l).
Proof.
  intros H Hne. pose proof (ring_head _ _ H). pose proof (ring_room _ _ H). pose proof (ring_tail _ _ H) as Et.
  assert (0 < zlen l) by (destruct l; [done|]; rewrite zlen_cons; pose proof (zlen_nonneg l); lia).
  assert (Hfmap : forall a n k, (forall i, a <= i < a + n -> pos q i = k + i) -> pos q <$> seqZ a n = seqZ (k + a) n).
  { intros a n k Hk. rewrite <-fmap_add_seqZ. apply list_fmap_ext. intros i x Hx. apply lookup_seqZ in Hx as [-> Hx]. apply Hk. lia. }
  unfold order, range. destruct (Z.ltb_spec (head q) (tail q)).
  - rewrite (Hfmap 0 (zlen l) (head q)); [f_equal; lia|]. intros i Hi. cell q (zlen l); [cell q i; lia|]. cell q i; lia.
  - assert (Hsp : bufLen q <= head q + zlen l) by (cell q (zlen l); lia).
    replace (zlen l) with ((bufLen q - head q) + (zlen l - (bufLen q - head q))) by lia.
    rewrite seqZ_app, fmap_app by lia. rewrite (Hfmap 0 _ (head q)), (Hfmap _ _ (head q - bufLen q)).
    + f_equal; f_equal; cell q (zlen l); lia.
    + intros i Hi. cell q i; lia.
    + intros i Hi. cell q i; lia.
Qed.

Lemma ring_cells q l : ring q l -> NoDup (pos q <$> seqZ 0 (zlen l)) /\ Forall2 (fun i v => buf q !! i = Some v) (pos q <$> seqZ 0 (zlen l)) l.
Proof.
  intros H. pose proof (ring_head _ _ H). pose proof (ring_room _ _ H). split.
  - apply NoDup_fmap_2_strong; [|apply NoDup_seqZ]. intros i j Hi%elem_of_seqZ Hj%elem_of_seqZ. apply pos_inj; lia.
  - apply Forall2_same_length_lookup_2; [rewrite length_fmap, length_seqZ; unfold zlen; lia|].
    intros k j v Ej Ev. apply list_lookup_fmap_Some in Ej as (i & -> & Ei). apply lookup_seqZ in Ei as [-> _].
    by apply (ring_elems _ _ H).
Qed.

Lemma cells_spec capacity : 0 < sizeT -> 0 < capacity -> capacity * sizeT + MemHeader_size <= 2 ^ 63 ->
  exists n, cells sizeT capacity = Some n /\ capacity <= n < 2 ^ 63.
Proof.
  unfold cells, MemHeader_size. intros Hs Hc Hb. rewrite uint_small by rng.
  destruct (Round2n_spec (capacity * sizeT + 8)) as (k & Hk & -> & Hn); [nia|]. cbn [mbind option_bind].
  pose proof (Z.pow_le_mono_r 2 k 63 ltac:(lia) ltac:(lia)). rewrite uint_small by rng.
  exists ((2 ^ k - 8) / sizeT). split; [done|]. split; [apply Z.div_le_lower_bound; lia|].
  apply Z.div_lt_upper_bound; [lia|]. nia.
Qed.

(** The code moves the cells of [order], in one or two loops. *)
Lemma Reserve_moves capacity (afterPush : bool) q n (m : gmap Z T) (q' : Queue T) N :
  0 < capacity -> bufLen q < capacity -> cells sizeT capacity = Some n -> N <= n -> head q <= bufLen q ->
  N = (if afterPush then bufLen q else Count q) ->
  move_all trivial (order q N) 0 ∅ q = Done m q' -> Reserve sizeT trivial capacity afterPush q = Done tt (MkQueue m n 0 N).
Proof.
  intros Hc Hb En HN Hh EN Hm. unfold Reserve, mbind at 1, M_bind at 1, get. destruct (Z.ltb_spec 0 capacity); [|lia].
  cbn [assert_]. rewrite (bind_done (mret tt) _ q tt q eq_refl). destruct (Z.leb_spec capacity (bufLen q)); [lia|].
  rewrite En. cbn [demand]. rewrite (bind_done (mret n) _ q n q eq_refl), <-EN.
  assert (Hmoves : (if head q <? tail q then move_all trivial (range (head q) (head q + N)) 0 ∅
         else m ← move_all trivial (range (head q) (bufLen q)) 0 ∅;
           move_all trivial (range 0 (tail q)) (bufLen q - head q) m) q = Done m q').
  { unfold order in Hm. destruct (_ <? _); [done|]. rewrite move_all_app in Hm.
    replace (bufLen q - head q) with (0 + zlen (range (head q) (bufLen q))); [done|].
    unfold range, zlen. rewrite length_seqZ. lia. }
  rewrite (bind_done _ _ _ _ _ Hmoves). destruct (Z.leb_spec N n); [done|lia].
Qed.

Lemma fill_represents vs n : zlen vs < n < 2 ^ 63 -> represents (MkQueue (fill ∅ 0 vs) n 0 (zlen vs)) vs.
Proof.
  intros Hn. pose proof (zlen_nonneg vs). set (q := MkQueue _ _ _ _).
  assert (Hp : forall i, 0 <= i < n -> pos q i = i) by (intros i Hi; apply Z.mod_small; cbn; lia).
  split; cbn [head tail bufLen buf q]; try lia.
  - symmetry. apply Hp. lia.
  - intros i v Ev. pose proof (lookup_lt_Some _ _ _ Ev) as Hi. unfold zlen in *. rewrite Hp by lia.
    rewrite fill_lookup, decide_True by (unfold zlen; lia). by replace (Z.to_nat (Z.of_nat i - 0)) with i by lia.
  - intros j _ [v Ev]. rewrite fill_lookup in Ev. destruct (decide _) as [Hj|]; [|by rewrite lookup_empty in Ev].
    exists j. rewrite Hp by lia. split; [lia|done].
Qed.

Lemma ring_Reserve q l capacity (afterPush : bool) : ring q l -> l <> [] -> 0 < sizeT -> bufLen q < capacity ->
  capacity * sizeT + MemHeader_size <= 2 ^ 63 -> zlen l = (if afterPush then bufLen q else Count q) ->
  exists q', Reserve sizeT trivial capacity afterPush q = Done tt q' /\ represents q' l /\ capacity <= bufLen q' /\ head q' = 0.
Proof.
  intros H Hne Hs Hc Hb HN. pose proof (ring_head _ _ H). pose proof (ring_room _ _ H).
  destruct (cells_spec capacity) as (n & En & Hn); [lia|lia|lia|].
  destruct (ring_cells q l H) as [Hnd Hall]. rewrite <-(order_pos q l H Hne) in *.
  destruct (move_all_spec _ _ 0 ∅ q Hnd Hall) as (q' & Em).
  exists (MkQueue (fill ∅ 0 l) n 0 (zlen l)). split; [by apply (Reserve_moves capacity (afterPush : bool) q n _ q' (zlen l)); try lia|].
  split; [apply fill_represents; lia|]. cbn. lia.
Qed.

Lemma Queue_Reserve_spec q l capacity : represents q l -> 0 < sizeT -> 0 < capacity -> capacity * sizeT + MemHeader_size <= 2 ^ 63 ->
  (l <> [] \/ trivial = true) -> exists q', Reserve sizeT trivial capacity false q = Done tt q' /\ represents q' l /\ capacity <= bufLen q'.
Proof.
  intros H Hs Hc Hb Hl. destruct (Z.leb_spec capacity (bufLen q)) as [Hle|Hgt].
  { exists q. split; [|split; [done|lia]]. unfold Reserve, mbind at 1, M_bind at 1, get. destruct (Z.ltb_spec 0 capacity); [|lia].
    cbn [assert_]. rewrite (bind_done (mret tt) _ q tt q eq_refl). by destruct (Z.leb_spec capacity (bufLen q)); [|lia]. }
  destruct l as [|v l]; [|destruct (ring_Reserve q (v :: l) capacity false) as (q' & ? & ? & ? & _); [by apply represents_ring|done|done|done|done|by rewrite (Count_length q (v :: l))|by exists q']].
  destruct Hl as [|Ht]; [done|]. destruct (cells_spec capacity) as (n & En & Hn); [lia|lia|lia|].
  pose proof (rep_head _ _ H). destruct (move_all_trivial (order q 0) 0 ∅ q Ht) as (m & q' & Em).
  exists (MkQueue m n 0 0). split; [|split; [apply represents_nil; [lia|by rewrite Ht]|cbn; lia]].
  apply (Reserve_moves capacity false q n m q' 0); try lia; try done. by rewrite (Count_length q [] H).
Qed.

(** ** Adding elements *)

Lemma Queue_Emplace_spec q l v : represents q l -> 0 < sizeT -> (zlen l + 1) * 2 * sizeT + MemHeader_size <= 2 ^ 63 ->
  exists i q', Emplace sizeT trivial v q = Done i q' /\ represents q' (l ++ [v]) /\ i = pos q' (zlen l).
Proof.
  intros H Hs Hb. pose proof (rep_head _ _ H). pose proof (rep_room _ _ H). pose proof (rep_tail _ _ H) as Et. pose proof (zlen_nonneg l).
  pose proof (rep_max _ _ H). assert (Htr : 0 <= tail q < bufLen q) by (rewrite Et; by apply pos_range).
  set (t := if tail q + 1 =? bufLen q then 0 else tail q + 1). set (m := <[tail q := v]> (buf q)). set (q1 := MkQueue m (bufLen q) (head q) t).
  assert (Hp1 : forall i, pos q1 i = pos q i) by done.
  assert (Et1 : t = pos q (zlen l + 1)).
  { unfold t. cell q (zlen l + 1); cell q (zlen l); destruct (Z.eqb_spec (tail q + 1) (bufLen q)); lia. }
  assert (Hel : forall (i : nat) w, (l ++ [v]) !! i = Some w -> buf q1 !! pos q1 (Z.of_nat i) = Some w).
  { intros i w Ew. rewrite Hp1. cbn [buf q1]. unfold m. destruct (decide (i = length l)) as [->|Hi].
    - rewrite list_lookup_middle in Ew by done. fold (zlen l). rewrite Et, lookup_insert_eq. done.
    - rewrite lookup_app_l in Ew by (apply lookup_lt_Some in Ew; rewrite length_app in Ew; cbn in Ew; lia).
      pose proof (lookup_lt_Some _ _ _ Ew). unfold zlen in *. rewrite lookup_insert_ne; [by apply (rep_elems _ _ H)|].
      rewrite Et. intros E. apply pos_inj in E; lia. }
  unfold Emplace, mbind at 1, M_bind at 1, get.
  rewrite (bind_done (construct (tail q) v) _ q tt (set_buf m q)).
  2:{ unfold construct, mbind, M_bind, get, put, assert_. destruct (Z.leb_spec 0 (tail q)); [|lia]. by destruct (Z.ltb_spec (tail q) (bufLen q)); [|lia]. }
  rewrite (bind_done (modify _) _ _ tt q1) by done. rewrite (bind_done (fun s => Done s s) _ q1 q1 q1 eq_refl). cbn [tail head bufLen q1].
  destruct (Z.eqb_spec t (head q)) as [Efull|Efull].
  - assert (Hlen : zlen l + 1 = bufLen q) by (cell q (zlen l + 1); lia).
    assert (Hu : u64 (bufLen q * 2) = bufLen q * 2) by (apply uint_small; rng). rewrite Hu.
    destruct (ring_Reserve q1 (l ++ [v]) (bufLen q * 2) true) as (q' & Er & Hq' & _ & Eh); cbn [bufLen q1].
    + split; [done|rewrite zlen_app, zlen_cons, zlen_nil; cbn; lia| |exact Hel]. cbn [tail q1]. rewrite Hp1, zlen_app, zlen_cons, zlen_nil. done.
    + by destruct l.
    + done.
    + lia.
    + lia.
    + rewrite zlen_app, zlen_cons, zlen_nil. lia.
    + rewrite (bind_done _ _ _ _ _ Er). exists (bufLen q - 1), q'. split; [done|]. split; [done|].
      pose proof (rep_room _ _ Hq') as Hr'. rewrite zlen_app, zlen_cons, zlen_nil in Hr'.
      unfold pos. rewrite Eh. rewrite Z.mod_small; lia.
  - exists (tail q), q1. split; [done|]. split; [|by rewrite Hp1].
    split; cbn [bufLen head q1]; try done.
    + rewrite zlen_app, zlen_cons, zlen_nil. destruct (decide (zlen l + 1 = bufLen q)) as [El|]; [|lia].
      destruct Efull. rewrite Et1, El. cell q (bufLen q); lia.
    + cbn [tail q1]. rewrite Hp1, zlen_app, zlen_cons, zlen_nil. done.
    + intros j Ht [w Ew]. cbn [buf q1] in Ew. unfold m in Ew.
      assert (El : zlen (l ++ [v]) = zlen l + 1) by (rewrite zlen_app, zlen_cons, zlen_nil; lia). rewrite El.
      destruct (decide (j = tail q)) as [->|Hj]; [exists (zlen l); split; [lia|exact Et]|].
      rewrite lookup_insert_ne in Ew by done. destruct (rep_tidy _ _ H j Ht) as (i & Hi & ->); [by rewrite Ew|].
      exists i. split; [lia|done].
Qed.

Lemma Push_spec q l vs : represents q l -> 0 < sizeT -> (zlen l + zlen vs) * 2 * sizeT + MemHeader_size <= 2 ^ 63 ->
  exists q', Push sizeT trivial vs q = Done tt q' /\ represents q' (l ++ vs).
Proof.
  revert q l. induction vs as [|v vs IH]; intros q l H Hs Hb; [exists q; by rewrite app_nil_r|].
  rewrite zlen_cons in Hb. pose proof (zlen_nonneg vs). pose proof (zlen_nonneg l).
  destruct (Queue_Emplace_spec q l v H Hs) as (i & q1 & E1 & Hq1 & _); [nia|]. cbn [Push]. rewrite (bind_done _ _ _ _ _ E1).
  destruct (IH q1 (l ++ [v]) Hq1 Hs) as (q2 & E2 & Hq2); [rewrite zlen_app, zlen_cons, zlen_nil; nia|].
  exists q2. split; [done|]. by rewrite <-app_assoc in Hq2.
Qed.

(** ** Reading *)

Lemma Queue_At_spec q l i : represents q l -> 0 <= i < zlen l -> exists v, At i q = Done v q /\ znth l i = Some v.
Proof.
  intros H Hi. destruct (rep_elem q l i H Hi) as (v & Ev & Eb). exists v. split; [|done].
  pose proof (rep_head _ _ H). pose proof (rep_room _ _ H). pose proof (rep_max _ _ H).
  unfold At, mbind at 1, M_bind at 1, get. rewrite (Count_length q l H). destruct (Z.ltb_spec i (zlen l)); [|lia].
  cbn [assert_]. rewrite (bind_done (mret tt) _ q tt q eq_refl).
  assert (Ec : cell_at i q = pos q i).
  { unfold cell_at. rewrite !uint_small by rng. cell q i; lia. }
  rewrite Ec, Eb. done.
Qed.

Lemma Queue_Top_spec q v l : represents q (v :: l) -> Top q = Done v q.
Proof.
  intros H. pose proof (rep_head _ _ H). unfold Top, mbind at 1, M_bind at 1, get.
  destruct (Z.eqb_spec (head q) (tail q)) as [E|E]; [by apply (Empty_nil _ _ H) in E|].
  cbn [negb assert_]. rewrite (bind_done (mret tt) _ q tt q eq_refl). pose proof (rep_elems _ _ H 0%nat v eq_refl) as Ev.
  assert (Eh : pos q (Z.of_nat 0) = head q) by (change (Z.of_nat 0) with 0; cell q 0; lia). rewrite Eh in Ev. by rewrite Ev.
Qed.

(** [tail - 1] in the ring. *)
Lemma tail_pred q l v : represents q (l ++ [v]) -> last_cell q = pos q (zlen l) /\ head q <> tail q /\ buf q !! pos q (zlen l) = Some v.
Proof.
  intros H. pose proof (rep_head _ _ H). pose proof (rep_room _ _ H) as Hr. pose proof (rep_tail _ _ H) as Et. pose proof (rep_max _ _ H).
  rewrite zlen_app, zlen_cons, zlen_nil in *. pose proof (zlen_nonneg l). split; [|split].
  - unfold last_cell. destruct (decide (tail q = 0)) as [E0|E0].
    + rewrite E0. change (u64 (0 - 1) =? 2 ^ 64 - 1) with true. cbn iota. cell q (zlen l + (1 + 0)); cell q (zlen l); lia.
    + assert (0 <= tail q < bufLen q) by (rewrite Et; by apply pos_range). rewrite uint_small by rng.
      destruct (Z.eqb_spec (tail q - 1) (2 ^ 64 - 1)); [rng|]. cell q (zlen l + (1 + 0)); cell q (zlen l); lia.
  - intros E. apply (Empty_nil _ _ H) in E. by destruct l.
  - apply (rep_elems _ _ H). by apply list_lookup_middle.
Qed.

Lemma Last_spec q l v : represents q (l ++ [v]) -> Last q = Done v q.
Proof.
  intros H. destruct (tail_pred q l v H) as (E1 & E2 & E3). unfold Last, mbind at 1, M_bind at 1, get.
  destruct (Z.eqb_spec (head q) (tail q)); [done|]. cbn [negb assert_]. rewrite (bind_done (mret tt) _ q tt q eq_refl).
  by rewrite E1, E3.
Qed.

(** For trivial types [PopLast] drops the last element. *)
Lemma PopLast_trivial q l v : trivial = true -> represents q (l ++ [v]) -> exists q', PopLast trivial q = Done tt q' /\ represents q' l.
Proof.
  intros Ht H. destruct (tail_pred q l v H) as (E1 & E2 & E3). pose proof (rep_room _ _ H) as Hr. pose proof (rep_max _ _ H).
  rewrite zlen_app, zlen_cons, zlen_nil in Hr. exists (set_tail (pos q (zlen l)) q). split.
  - unfold PopLast, mbind at 1, M_bind at 1, get. destruct (Z.eqb_spec (head q) (tail q)); [done|]. cbn [negb assert_].
    rewrite (bind_done (mret tt) _ q tt q eq_refl). unfold destroy. rewrite Ht, (bind_done (mret tt) _ q tt q eq_refl).
    unfold modify. do 2 f_equal. rewrite <-E1. unfold last_cell. destruct (Z.eqb_spec (u64 (tail q - 1)) (2 ^ 64 - 1)) as [E|E]; [done|].
    pose proof (pos_range q (zlen (l ++ [v])) (rep_head _ _ H)) as Hp. rewrite <-(rep_tail _ _ H) in Hp.
    apply uint_small. destruct (decide (tail q = 0)) as [E0|]; [by rewrite E0 in E|]. rng.
  - split; cbn; try apply H; [lia|done| |intros j Ht2; congruence].
    intros i w Ew. apply (rep_elems _ _ H). rewrite lookup_app_l; [done|]. by eapply lookup_lt_Some.
Qed.

(** For other types it destroys a cell that holds no object. *)
Lemma PopLast_undef q l : trivial = false -> represents q l -> PopLast trivial q = Undef.
Proof.
  intros Ht H. pose proof (rep_head _ _ H). pose proof (rep_room _ _ H). pose proof (zlen_nonneg l). unfold PopLast, mbind at 1, M_bind at 1, get.
  destruct (Z.eqb_spec (head q) (tail q)) as [|E]; [done|]. cbn [negb assert_]. rewrite (bind_done (mret tt) _ q tt q eq_refl).
  unfold destroy. rewrite Ht. unfold mbind, M_bind, get, demand. destruct (buf q !! tail q) as [w|] eqn:Ew; [|done].
  exfalso. destruct (rep_tidy _ _ H (tail q) Ht) as (i & Hi & Ei); [by rewrite Ew|].
  rewrite (rep_tail _ _ H) in Ei. apply pos_inj in Ei; lia.
Qed.

(** So does [Reserve] on an empty queue. *)
Lemma Reserve_empty_undef q n capacity : trivial = false -> represents q [] -> bufLen q < capacity ->
  cells sizeT capacity = Some n -> Reserve sizeT trivial capacity false q = Undef.
Proof.
  intros Ht H Hc En. pose proof (rep_head _ _ H). pose proof (proj2 (Empty_nil q [] H) eq_refl) as Eh.
  unfold Reserve, mbind at 1, M_bind at 1, get. destruct (Z.ltb_spec 0 capacity); [|lia].
  cbn [assert_]. rewrite (bind_done (mret tt) _ q tt q eq_refl). destruct (Z.leb_spec capacity (bufLen q)); [lia|].
  rewrite En. cbn [demand]. rewrite (bind_done (mret n) _ q n q eq_refl), <-Eh. destruct (Z.ltb_spec (head q) (head q)); [lia|].
  apply bind_undef, bind_undef. unfold range. rewrite seqZ_cons by lia. cbn [move_all]. unfold mbind, M_bind, get.
  destruct (buf q !! head q) as [w|] eqn:Ew; [|by rewrite Ht].
  destruct (rep_tidy _ _ H (head q) Ht) as (i & Hi & _); [by rewrite Ew|]. exfalso. revert Hi. unfold zlen. cbn [length]. lia.
Qed.

Lemma new_Queue_spec capacity : 0 < sizeT -> Z.max 8 capacity * sizeT + MemHeader_size <= 2 ^ 63 ->
  exists q, new_Queue sizeT capacity = Some q /\ represents q [].
Proof.
  intros Hs Hb. unfold new_Queue. set (c := if _ <? 8 then 8 else capacity).
  assert (Ec : c = Z.max 8 capacity) by (unfold c; destruct (Z.ltb_spec capacity 8); lia).
  destruct (cells_spec c) as (n & -> & Hn); [done|lia|lia|]. eexists. split; [reflexivity|].
  apply represents_nil; [lia|]. intros. apply lookup_empty.
Qed.

(** ** Sessions *)

Inductive call :=
| QEmplace (v : T) | QPush (vs : list T) | QPop | QPopLast | QTryPop | QPopMulti (n : Z) | QClear
| QCount | QEmpty | QAt (i : Z) | QTop | QLast | QReserve (capacity : Z).

Inductive reply := RUnit | RBool (b : bool) | RNumber (n : Z) | RValue (v : option T).

Definition exec (c : call) : M (Queue T) reply :=
  match c with
  | QEmplace v => _ ← Emplace sizeT trivial v; mret RUnit
  | QPush vs => _ ← Push sizeT trivial vs; mret RUnit
  | QPop => _ ← Pop trivial; mret RUnit
  | QPopLast => _ ← PopLast trivial; mret RUnit
  | QTryPop => v ← TryPop trivial; mret (RValue v)
  | QPopMulti n => n ← PopMulti trivial n; mret (RNumber n)
  | QClear => _ ← Clear trivial; mret RUnit
  | QCount => q ← get; mret (RNumber (Count q))
  | QEmpty => q ← get; mret (RBool (Empty q))
  | QAt i => v ← At i; mret (RValue (Some v))
  | QTop => v ← Top; mret (RValue (Some v))
  | QLast => v ← Last; mret (RValue (Some v))
  | QReserve capacity => _ ← Reserve sizeT trivial capacity false; mret RUnit
  end.

(** The same calls on a list. *)
Definition spec (c : call) l : reply * list T :=
  match c with
  | QEmplace v => (RUnit, l ++ [v])
  | QPush vs => (RUnit, l ++ vs)
  | QPop => (RUnit, List.tl l)
  | QPopLast => (RUnit, List.removelast l)
  | QTryPop => (RValue (List.hd_error l), List.tl l)
  | QPopMulti n => (RNumber (Z.min n (zlen l)), drop (Z.to_nat n) l)
  | QClear => (RUnit, [])
  | QCount => (RNumber (zlen l), l)
  | QEmpty => (RBool (match l with [] => true | _ => false end), l)
  | QAt i => (RValue (znth l i), l)
  | QTop => (RValue (List.hd_error l), l)
  | QLast => (RValue (last l), l)
  | QReserve _ => (RUnit, l)
  end.

(** The asserted conditions, and sizes that fit in the address space. *)
Definition legal (c : call) l : Prop :=
  match c with
  | QEmplace _ => (zlen l + 1) * 2 * sizeT + MemHeader_size <= 2 ^ 63
  | QPush vs => (zlen l + zlen vs) * 2 * sizeT + MemHeader_size <= 2 ^ 63
  | QPop | QTop | QLast => l <> []
  | QPopLast => l <> [] /\ trivial = true
  | QPopMulti n => 0 <= n < 2 ^ 64
  | QAt i => 0 <= i < zlen l
  | QReserve capacity => 0 < capacity /\ capacity * sizeT + MemHeader_size <= 2 ^ 63 /\ (l <> [] \/ trivial = true)
  | _ => True
  end.

Fixpoint run (cs : list call) : M (Queue T) (list reply) :=
  match cs with
  | [] => mret []
  | c :: cs => r ← exec c; rs ← run cs; mret (r :: rs)
  end.
Fixpoint run_spec (cs : list call) l : list reply * list T :=
  match cs with
  | [] => ([], l)
  | c :: cs => let '(r, l) := spec c l in let '(rs, l) := run_spec cs l in (r :: rs, l)
  end.
Fixpoint all_legal (cs : list call) l : Prop :=
  match cs with
  | [] => True
  | c :: cs => legal c l /\ all_legal cs (spec c l).2
  end.

Lemma Queue_exec_spec q l c : 0 < sizeT -> represents q l -> legal c l -> exists q', exec c q = Done (spec c l).1 q' /\ represents q' (spec c l).2.
Proof.
  intros Hs H Hl. destruct c as [v|vs| | | |n| | | |i| | |capacity]; cbn [exec spec legal fst snd] in *.
  - destruct (Queue_Emplace_spec q l v H Hs Hl) as (i & q' & E & H' & _). rewrite (bind_done _ _ _ _ _ E). by exists q'.
  - destruct (Push_spec q l vs H Hs Hl) as (q' & E & H'). rewrite (bind_done _ _ _ _ _ E). by exists q'.
  - destruct l as [|v l]; [done|]. destruct (Queue_Pop_spec q v l H) as (q' & E & H'). rewrite (bind_done _ _ _ _ _ E). by exists q'.
  - destruct Hl as [Hl Ht]. destruct (List.exists_last Hl) as (l' & v & ->). destruct (PopLast_trivial q l' v Ht H) as (q' & E & H').
    rewrite (bind_done _ _ _ _ _ E), List.removelast_last. by exists q'.
  - destruct (Queue_TryPop_spec q l H) as (q' & E & H'). rewrite (bind_done _ _ _ _ _ E). by exists q'.
  - destruct (PopMulti_spec q l n H Hl) as (q' & E & H'). rewrite (bind_done _ _ _ _ _ E). by exists q'.
  - destruct (Queue_Clear_spec q l H) as (q' & E & H'). rewrite (bind_done _ _ _ _ _ E). by exists q'.
  - exists q. unfold mbind, M_bind, get. by rewrite (Count_length q l H).
  - exists q. split; [|done]. unfold mbind, M_bind, get, Empty, mret, M_ret. pose proof (Empty_nil q l H).
    destruct (Z.eqb_spec (head q) (tail q)), l; naive_solver.
  - destruct (Queue_At_spec q l i H Hl) as (v & E & ->). rewrite (bind_done _ _ _ _ _ E). by exists q.
  - destruct l as [|v l]; [done|]. rewrite (bind_done _ _ _ _ _ (Queue_Top_spec q v l H)). by exists q.
  - destruct (List.exists_last Hl) as (l' & v & ->). rewrite (bind_done _ _ _ _ _ (Last_spec q l' v H)), last_snoc. by exists q.
  - destruct Hl as (Hc & Hb & Hl). destruct (Queue_Reserve_spec q l capacity H Hs Hc Hb Hl) as (q' & E & H' & _).
    rewrite (bind_done _ _ _ _ _ E). by exists q'.
Qed.

Lemma Queue_run_refines cs q l : 0 < sizeT -> represents q l -> all_legal cs l ->
  exists q', run cs q = Done (run_spec cs l).1 q' /\ represents q' (run_spec cs l).2.
Proof.
  intros Hs. revert q l. induction cs as [|c cs IH]; intros q l H Hl; [by exists q|]. destruct Hl as [Hl Hls].
  destruct (Queue_exec_spec q l c Hs H Hl) as (q1 & E1 & Hq1). cbn [run run_spec]. rewrite (bind_done _ _ _ _ _ E1).
  destruct (spec c l) as [r l1]. cbn [fst snd] in *. destruct (IH q1 l1 Hq1 Hls) as (q2 & E2 & Hq2).
  rewrite (bind_done _ _ _ _ _ E2). destruct (run_spec cs l1) as [rs l2]. by exists q2.
Qed.
End props.

(** C24. A session of calls on a new queue (of capacity [capacity]) answers as
    the same calls on a list do, first in first out, however often the ring
    wraps around and grows; no cell without an object is touched, and the
    objects alive afterwards are exactly the elements.  The calls are [legal]:
    what the code asserts holds, sizes fit in the address space, and [PopLast],
    and [Reserve] of an empty queue, are called for trivial types only (for
    others they are undefined: [queue_dead_cells]). *)
Theorem queue_refines_list {T} (sizeT : Z) (trivial : bool) (capacity : Z) (cs : list (call (T := T))) :
  0 < sizeT -> Z.max 8 capacity * sizeT + MemHeader_size <= 2 ^ 63 -> all_legal sizeT trivial cs [] ->
  exists (q q' : Queue T), new_Queue sizeT capacity = Some q /\
    run sizeT trivial cs q = Done (run_spec cs []).1 q' /\ represents trivial q' (run_spec cs []).2.
Proof.
  intros Hs Hc Hl. destruct (new_Queue_spec (T := T) sizeT trivial capacity Hs Hc) as (q & Eq & Hq).
  destruct (Queue_run_refines sizeT trivial cs q [] Hs Hq Hl) as (q' & E & Hq'). by exists q, q'.
Qed.

(** Elements of 100 bytes: nine cells at first; the ring wraps around, and
    grows when the tenth cell is needed. *)
Definition session : list (call (T := Z)) :=
  [QPush [1; 2; 3; 4; 5; 6]; QPop; QPopMulti 3; QPush [7; 8; 9; 10; 11]; QAt 5; QCount; QPush [12; 13; 14];
   QCount; QTop; QLast; QReserve 100; QPopMulti 7; QTryPop; QClear; QTryPop; QEmpty].

Lemma queue_refines_list_witness : exists (q q' : Queue Z),
  new_Queue 100 0 = Some q /\ bufLen q = 10 /\
  run 100 false session q = Done [RUnit; RUnit; RNumber 3; RUnit; RValue (Some 10); RNumber 7; RUnit; RNumber 10;
    RValue (Some 5); RValue (Some 14); RUnit; RNumber 7; RValue (Some 12); RUnit; RValue None; RBool true] q' /\
  represents false q' [].
Proof.
  destruct (queue_refines_list 100 false 0 session) as (q & q' & Eq & Er & Hq).
  - lia.
  - vm_compute. discriminate.
  - cbn [all_legal session legal spec snd]. repeat split; try (vm_compute; discriminate); try done; try (vm_compute; reflexivity); try (by left).
  - exists q, q'. split; [exact Eq|]. split; [vm_compute in Eq; injection Eq as <-; reflexivity|]. split; [exact Er|exact Hq].
Defined.

(** Two calls destroy or move cells that hold no object.  [PopLast] destroys
    the cell [tail] instead of the one before it, so it is undefined on every
    queue of a non-trivial type; and [Reserve] of an empty queue moves the
    cells from [head] to the end of the ring. *)
Theorem queue_dead_cells {T} (sizeT : Z) (q : Queue T) (l : list T) (n capacity : Z) :
  represents false q l ->
  PopLast false q = Undef /\
  (l = [] -> bufLen q < capacity -> cells sizeT capacity = Some n -> Reserve sizeT false capacity false q = Undef).
Proof.
  intros H. split; [by eapply PopLast_undef|]. intros -> Hc En. by eapply (Reserve_empty_undef sizeT false q n capacity).
Qed.

Lemma queue_dead_cells_witness : exists q : Queue Z,
  new_Queue 8 8 = Some q /\ represents false q [] /\ Reserve 8 false 100 false q = Undef.
Proof.
  destruct (new_Queue_spec (T := Z) 8 false 8) as (q & Eq & Hq); [lia|vm_compute; discriminate|].
  exists q. split; [exact Eq|]. split; [exact Hq|].
  destruct (queue_dead_cells 8 q [] 127 100 Hq) as [_ H]. apply H; [reflexivity| |vm_compute; reflexivity].
  vm_compute in Eq. injection Eq as <-. vm_compute. reflexivity.
Defined.
