(* ===== verification/XList.v ===== *)
(** * xx_list: the growable array

    [List<T>] keeps [len] elements at the start of a block of [cap] cells.  As
    for the queue, [buf] maps the cells that hold a living object to its value,
    and touching any other cell is undefined; for trivial types destruction
    does nothing. *)

From Stdlib Require Import ZArith Lia.
From stdpp Require Import base numbers list gmap.
From S2P Require Import Prelude Util.
Open Scope Z_scope.

(** [alloc]: [buf] is not null. *)
Record List (T : Type) := MkList { alloc : bool; buf : gmap Z T; cap : Z; len : Z }.
Arguments MkList {T}.
Arguments alloc {T}.
Arguments buf {T}.
Arguments cap {T}.
Arguments len {T}.

Section list.
Context {T : Type} `{!EqDecision T}.
(** [sizeof(T)], [IsTrivial_v<T>] and [T()]. *)
Context (sizeT : Z) (trivial : bool) (default_ : T).
Implicit Types s : List T.

Definition set_buf (m : gmap Z T) s := MkList (alloc s) m (cap s) (len s).
Definition set_len (n : Z) s := MkList (alloc s) (buf s) (cap s) n.

(** The bytes allocated for [n] elements. *)
Definition block_size (n : Z) : option Z := Round2n (u64 (n * sizeT)).

Definition List_empty : List T := MkList false ∅ 0 0.

Definition new_List (n : Z) : option (List T) :=
  if n =? 0 then Some List_empty
  else bytes ← block_size n; Some (MkList true ∅ (bytes / sizeT) 0).

Definition cell (i : Z) : M (List T) T := s ← get; demand (buf s !! i).

Definition destroy (i : Z) : M (List T) unit :=
  if trivial then mret tt else s ← get; _ ← demand (buf s !! i); put (set_buf (delete i (buf s)) s).

Definition construct (i : Z) (v : T) : M (List T) unit :=
  s ← get; _ ← assert_ ((0 <=? i) && (i <? cap s)); put (set_buf (<[i := v]> (buf s)) s).

(** [buf[i] = v], to a living object. *)
Definition assign (i : Z) (v : T) : M (List T) unit :=
  _ ← cell i; modify (fun s => set_buf (<[i := v]> (buf s)) s).

(** Move the cells below [len] to a new block. *)
Fixpoint move_cells (cs : list Z) (m : gmap Z T) : M (List T) (gmap Z T) :=
  match cs with
  | [] => mret m
  | i :: cs => v ← cell i; _ ← destroy i; move_cells cs (<[i := v]> m)
  end.

Definition Reserve (n : Z) : M (List T) unit :=
  s ← get;
  if n <=? cap s then mret tt
  else
    bytes ← demand (block_size n);
    m ← move_cells (seqZ 0 (len s)) ∅;
    put (MkList true m (bytes / sizeT) (len s)).

Fixpoint destroy_cells (cs : list Z) : M (List T) unit :=
  match cs with
  | [] => mret tt
  | i :: cs => _ ← destroy i; destroy_cells cs
  end.

Fixpoint construct_cells (cs : list Z) : M (List T) unit :=
  match cs with
  | [] => mret tt
  | i :: cs => _ ← construct i default_; construct_cells cs
  end.

Definition Resize (n : Z) : M (List T) Z :=
  s ← get;
  if n =? len s then mret n
  else
    _ ← (if n <? len s then destroy_cells (seqZ n (len s - n))
         else _ ← Reserve n; construct_cells (seqZ (len s) (n - len s)));
    _ ← modify (set_len n);
    mret (len s).

Definition At (i : Z) : M (List T) T := s ← get; _ ← assert_ (i <? len s); cell i.
Definition Top : M (List T) T := s ← get; _ ← assert_ (0 <? len s); cell (len s - 1).

Definition Pop : M (List T) unit :=
  s ← get;
  _ ← assert_ (0 <? len s);
  _ ← modify (set_len (len s - 1));
  destroy (len s - 1).

Definition TryPop : M (List T) (option T) :=
  s ← get;
  if len s =? 0 then mret None
  else
    _ ← modify (set_len (len s - 1));
    v ← cell (len s - 1);
    _ ← destroy (len s - 1);
    mret (Some v).

(** The elements are destroyed from the last to the first. *)
Definition Clear (freeBuf : bool) : M (List T) unit :=
  s ← get;
  if negb (alloc s) then mret tt
  else
    _ ← (if len s =? 0 then mret tt
         else _ ← destroy_cells (reverse (seqZ 0 (len s))); modify (set_len 0));
    if freeBuf then modify (fun s => MkList false ∅ 0 (len s)) else mret tt.

(** [buf[i] = (T&&)buf[i + 1]] for each [i]; a [memmove] to lower addresses
    does the same. *)
Fixpoint move_down (cs : list Z) : M (List T) unit :=
  match cs with
  | [] => mret tt
  | i :: cs => v ← cell (i + 1); _ ← assign i v; move_down cs
  end.

Definition RemoveAt (idx : Z) : M (List T) unit :=
  s ← get;
  _ ← assert_ (idx <? len s);
  let n := len s - 1 in
  _ ← modify (set_len n);
  _ ← move_down (seqZ idx (n - idx));
  destroy n.

(** [for (i = 0; i < len; ++i) if (v == buf[i]) return i;] *)
Fixpoint find_loop (cs : list Z) (v : T) : M (List T) (option Z) :=
  match cs with
  | [] => mret None
  | i :: cs => w ← cell i; if decide (v = w) then mret (Some i) else find_loop cs v
  end.

Definition Find (v : T) : M (List T) Z :=
  s ← get; r ← find_loop (seqZ 0 (len s)) v; mret (default (2 ^ 64 - 1) r).

Definition Remove (v : T) : M (List T) unit :=
  s ← get;
  r ← find_loop (seqZ 0 (len s)) v;
  match r with Some i => RemoveAt i | None => mret tt end.

Definition SwapRemoveAt (idx : Z) : M (List T) unit :=
  s ← get;
  _ ← (if u64 (idx + 1) <? len s then
         a ← cell idx; b ← cell (len s - 1); _ ← assign idx b; assign (len s - 1) a
       else mret tt);
  let n := u64 (len s - 1) in
  _ ← modify (set_len n);
  destroy n.

(** [v] is not an element of this list. *)
Definition Emplace (v : T) : M (List T) unit :=
  s ← get;
  _ ← Reserve (len s + 1);
  _ ← construct (len s) v;
  modify (set_len (len s + 1)).

Fixpoint Add (vs : list T) : M (List T) unit :=
  match vs with
  | [] => mret tt
  | v :: vs => _ ← Emplace v; Add vs
  end.

Fixpoint construct_from (i : Z) (vs : list T) : M (List T) unit :=
  match vs with
  | [] => mret tt
  | v :: vs => _ ← construct i v; construct_from (i + 1) vs
  end.

(** [items] is not part of this list. *)
Definition AddRange (vs : list T) : M (List T) unit :=
  s ← get;
  _ ← Reserve (len s + zlen vs);
  _ ← construct_from (len s) vs;
  modify (set_len (len s + zlen vs)).
End list.
