(* ===== verification/XListProps.v ===== *)
(** * A growable array is a list

    The operations of [List<T>] act on the list of its elements; for
    non-trivial types the cells with living objects are exactly the cells of
    the elements. *)

From Stdlib Require Import ZArith Lia.
From stdpp Require Import base numbers list gmap.
From S2P Require Import Prelude Util XList.
Open Scope Z_scope.

Section props.
Context {T : Type} `{!EqDecision T} (sizeT : Z) (trivial : bool) (default_ : T).
Implicit Types (s : List T) (l vs : list T) (v : T).

Record represents s l : Prop := {
  rep_len : len s = zlen l;
  rep_cap : zlen l <= cap s < 2 ^ 64;
  rep_alloc : alloc s = false -> cap s = 0;
  rep_cells j : trivial = false \/ 0 <= j < zlen l -> buf s !! j = znth l j
}.

(** ** Lists by position *)

Lemma znth_out l i : ~ 0 <= i < zlen l -> znth l i = None.
Proof.
  intros Hi. destruct (znth l i) as [v|] eqn:E; [|done]. apply znth_Some_lt in E. lia.
Qed.

Lemma znth_take l n i : 0 <= n -> znth (take (Z.to_nat n) l) i = if decide (i < n) then znth l i else None.
Proof.
  intros Hn. unfold znth. destruct (Z.ltb_spec i 0); [by destruct (decide _)|]. destruct (decide (i < n)).
  - rewrite lookup_take_lt; [done|lia].
  - apply lookup_take_ge. lia.
Qed.

Lemma zlen_one v : zlen [v] = 1.
Proof. done. Qed.

Lemma znth_snoc l v i : znth (l ++ [v]) i = if decide (i = zlen l) then Some v else znth l i.
Proof.
  destruct (decide (i = zlen l)) as [->|Hi]; [apply znth_mid|]. destruct (decide (i < zlen l)); [by apply znth_app_l|].
  rewrite znth_app_r, (znth_out l) by lia. apply znth_out. rewrite zlen_one. lia.
Qed.

Lemma znth_delete l (i j : Z) : 0 <= i < zlen l -> znth (delete (Z.to_nat i) l) j = if decide (j < i) then znth l j else znth l (j + 1).
Proof.
  intros Hi. unfold znth. destruct (decide (j < i)).
  - destruct (Z.ltb_spec j 0); [done|]. apply list_lookup_delete_lt. lia.
  - destruct (Z.ltb_spec j 0); [lia|]. destruct (Z.ltb_spec (j + 1) 0); [lia|].
    rewrite list_lookup_delete_ge by lia. f_equal. lia.
Qed.

Lemma zlen_delete l (i : Z) : 0 <= i < zlen l -> zlen (delete (Z.to_nat i) l) = zlen l - 1.
Proof.
  unfold zlen. intros Hi. destruct (lookup_lt_is_Some_2 l (Z.to_nat i)) as [x Hx]; [lia|].
  rewrite length_delete by (by rewrite Hx). lia.
Qed.
(** ** Cells *)

Lemma cell_done s j v : buf s !! j = Some v -> cell j s = Done v s.
Proof. intros E. unfold cell, mbind, M_bind, get, demand. by rewrite E. Qed.

Lemma rep_cell s l i : represents s l -> 0 <= i < zlen l -> exists v, znth l i = Some v /\ buf s !! i = Some v /\ cell i s = Done v s.
Proof.
  intros H Hi. destruct (znth_is_Some l i Hi) as [v Ev]. assert (Eb : buf s !! i = Some v) by (by rewrite (rep_cells _ _ H) by auto).
  exists v. split; [done|]. split; [done|]. by apply cell_done.
Qed.

Lemma destroy_cells_spec (cs : list Z) s : NoDup cs -> (forall i, i ∈ cs -> is_Some (buf s !! i)) ->
  exists m, destroy_cells trivial cs s = Done tt (set_buf m s) /\
    (forall j, j ∉ cs -> m !! j = buf s !! j) /\ (trivial = false -> forall j, j ∈ cs -> m !! j = None).
Proof.
  revert s. induction cs as [|i cs IH]; intros s Hnd Hs; [exists (buf s); split; [by destruct s|]; set_solver|].
  apply NoDup_cons in Hnd as [Hi Hnd]. cbn [destroy_cells]. destruct (Hs i) as [v Ev]; [set_solver|]. unfold destroy at 1.
  destruct trivial eqn:Ht.
  - rewrite (bind_done (mret tt) _ s tt s eq_refl). destruct (IH s Hnd) as (m & E & H1 & _); [set_solver|]. exists m. split; [done|]. split; [set_solver|done].
  - rewrite (bind_done _ _ s tt (set_buf (delete i (buf s)) s)) by (unfold mbind, M_bind, get, demand; by rewrite Ev).
    destruct (IH (set_buf (delete i (buf s)) s) Hnd) as (m & E & H1 & H2).
    { intros j Hj. cbn. rewrite lookup_delete_ne by (by intros ->). set_solver. }
    exists m. split; [by rewrite E|]. split.
    + intros j Hj. rewrite H1 by set_solver. cbn. apply lookup_delete_ne. set_solver.
    + intros _ j [->|Hj]%elem_of_cons; [|by apply H2]. rewrite H1 by done. cbn. apply lookup_delete_eq.
Qed.

Lemma destroy_one s i : is_Some (buf s !! i) ->
  exists m, destroy trivial i s = Done tt (set_buf m s) /\ (forall j, j <> i -> m !! j = buf s !! j) /\ (trivial = false -> m !! i = None).
Proof.
  intros Hs. destruct (destroy_cells_spec [i] s (NoDup_singleton i)) as (m & E & H1 & H2); [set_solver|].
  exists m. split; [|split; [set_solver|intros Ht; apply H2; set_solver]]. cbn [destroy_cells] in E. unfold mbind, M_bind in E.
  by destruct (destroy trivial i s) as [[]| |].
Qed.

(** Keep the first [n] elements. *)
Lemma represents_take s l n m : represents s l -> 0 <= n <= zlen l ->
  (forall j, ~ n <= j < zlen l -> m !! j = buf s !! j) -> (trivial = false -> forall j, n <= j < zlen l -> m !! j = None) ->
  represents (MkList (alloc s) m (cap s) n) (take (Z.to_nat n) l).
Proof.
  intros H Hn Hm Hnone. assert (El : zlen (take (Z.to_nat n) l) = n) by (rewrite zlen_take; lia).
  pose proof (rep_cap _ _ H). split; cbn [len cap alloc buf]; rewrite ?El; [done|lia|apply H|].
  intros j Hj. rewrite znth_take by lia. destruct (decide (j < n)) as [Hjn|Hjn].
  - rewrite Hm by lia. apply H. destruct Hj as [|Hj]; [auto|lia].
  - destruct Hj as [Ht|Hj]; [|lia]. destruct (decide (j < zlen l)); [apply Hnone; [done|lia]|].
    rewrite Hm by lia. rewrite (rep_cells _ _ H) by auto. apply znth_out. lia.
Qed.

(** One more element at the end. *)
Lemma represents_snoc s l v : represents s l -> zlen l < cap s ->
  represents (MkList (alloc s) (<[zlen l := v]> (buf s)) (cap s) (zlen l + 1)) (l ++ [v]).
Proof.
  intros H Hc. pose proof (zlen_nonneg l). pose proof (rep_cap _ _ H).
  assert (El : zlen (l ++ [v]) = zlen l + 1) by (rewrite zlen_app, zlen_one; lia).
  split; cbn [len cap alloc buf]; rewrite ?El; [done|lia|apply H|]. intros j Hj. rewrite znth_snoc.
  destruct (decide (j = zlen l)) as [->|Hne]; [apply lookup_insert_eq|]. rewrite lookup_insert_ne by done.
  apply H. destruct Hj as [|Hj]; [auto|lia].
Qed.

(** ** Growth *)

Lemma move_cells_spec (cs : list Z) m s : NoDup cs -> (forall i, i ∈ cs -> is_Some (buf s !! i)) ->
  exists m' s', move_cells trivial cs m s = Done m' s' /\ forall j, m' !! j = if decide (j ∈ cs) then buf s !! j else m !! j.
Proof.
  revert m s. induction cs as [|i cs IH]; intros m s Hnd Hs; [by eexists _, _|].
  apply NoDup_cons in Hnd as [Hi Hnd]. cbn [move_cells]. destruct (Hs i) as [v Ev]; [set_solver|].
  rewrite (bind_done _ _ _ _ _ (cell_done s i v Ev)). destruct (destroy_one s i) as (m1 & E1 & H1 & _); [by rewrite Ev|].
  rewrite (bind_done _ _ _ _ _ E1). destruct (IH (<[i := v]> m) (set_buf m1 s) Hnd) as (m' & s' & E & Hm').
  { intros j Hj. cbn. rewrite H1 by (by intros ->). set_solver. }
  exists m', s'. split; [done|]. intros j. rewrite Hm'. cbn [buf set_buf]. destruct (decide (j ∈ cs)) as [Hj|Hj].
  - rewrite decide_True by set_solver. apply H1. by intros ->.
  - destruct (decide (j = i)) as [->|Hne]; [by rewrite lookup_insert_eq, decide_True by set_solver|].
    rewrite lookup_insert_ne by done. by rewrite decide_False by set_solver.
Qed.

Definition fits (n : Z) : Prop := n * sizeT <= 2 ^ 63.

Lemma block_size_spec n : 0 < sizeT -> 0 < n -> fits n -> exists b, block_size sizeT n = Some b /\ n <= b / sizeT < 2 ^ 64.
Proof.
  unfold block_size, fits. intros Hs Hn Hf. rewrite uint_small by rng.
  destruct (Round2n_spec (n * sizeT)) as (k & Hk & -> & Hb); [nia|]. exists (2 ^ k). split; [done|].
  pose proof (Z.pow_le_mono_r 2 k 63 ltac:(lia) ltac:(lia)). split; [apply Z.div_le_lower_bound; lia|].
  apply Z.div_lt_upper_bound; [lia|]. rng.
Qed.

Lemma List_Reserve_spec s l n : represents s l -> 0 < sizeT -> fits n ->
  exists s', Reserve sizeT trivial n s = Done tt s' /\ represents s' l /\ n <= cap s' /\ cap s <= cap s'.
Proof.
  intros H Hs Hf. pose proof (rep_cap _ _ H). pose proof (zlen_nonneg l). unfold Reserve, mbind at 1, M_bind at 1, get.
  destruct (Z.leb_spec n (cap s)); [exists s; split; [done|]; split; [done|lia]|].
  destruct (block_size_spec n) as (b & Eb & Hb); [done|lia|done|]. rewrite Eb. cbn [demand].
  rewrite (bind_done (mret b) _ s b s eq_refl), (rep_len _ _ H).
  destruct (move_cells_spec (seqZ 0 (zlen l)) ∅ s) as (m & s' & E & Hm); [apply NoDup_seqZ| |].
  { intros i Hi%elem_of_seqZ. destruct (rep_cell s l i H) as (v & _ & -> & _); [lia|done]. }
  rewrite (bind_done _ _ _ _ _ E). eexists. split; [reflexivity|]. cbn [cap]. split; [|lia].
  split; cbn [len cap alloc buf]; [done|lia|done|]. intros j _. rewrite Hm. destruct (decide _) as [Hj|Hj]; rewrite elem_of_seqZ in Hj.
  - apply H. lia.
  - rewrite lookup_empty. symmetry. apply znth_out. lia.
Qed.

(** ** Adding *)

Lemma construct_spec s l v : represents s l -> zlen l < cap s ->
  exists s', construct (len s) v s = Done tt (set_buf (<[zlen l := v]> (buf s)) s) /\
    set_len (zlen l + 1) (set_buf (<[zlen l := v]> (buf s)) s) = s' /\ represents s' (l ++ [v]) /\ cap s' = cap s.
Proof.
  intros H Hc. pose proof (zlen_nonneg l) as Nl. eexists. split; [|split; [reflexivity|split; [exact (represents_snoc s l v H Hc)|done]]].
  unfold construct, mbind, M_bind, get, put, assert_. rewrite (rep_len _ _ H).
  destruct (Z.leb_spec 0 (zlen l)); [|lia]. by destruct (Z.ltb_spec (zlen l) (cap s)); [|lia].
Qed.

Lemma List_Emplace_spec s l v : represents s l -> 0 < sizeT -> fits (zlen l + 1) ->
  exists s', Emplace sizeT trivial v s = Done tt s' /\ represents s' (l ++ [v]).
Proof.
  intros H Hs Hf. unfold Emplace, mbind at 1, M_bind at 1, get. rewrite (rep_len _ _ H).
  destruct (List_Reserve_spec s l (zlen l + 1) H Hs Hf) as (s1 & E1 & H1 & Hc & _). rewrite (bind_done _ _ _ _ _ E1).
  destruct (construct_spec s1 l v H1) as (s2 & E2 & <- & H2 & _); [lia|]. rewrite (rep_len _ _ H1) in E2.
  rewrite (bind_done _ _ _ _ _ E2). by eexists.
Qed.

Lemma Add_spec s l vs : represents s l -> 0 < sizeT -> fits (zlen l + zlen vs) ->
  exists s', Add sizeT trivial vs s = Done tt s' /\ represents s' (l ++ vs).
Proof.
  revert s l. induction vs as [|v vs IH]; intros s l H Hs Hf; [exists s; by rewrite app_nil_r|].
  unfold fits in *. rewrite zlen_cons in Hf. pose proof (zlen_nonneg vs) as Nvs.
  destruct (List_Emplace_spec s l v H Hs) as (s1 & E1 & H1); [unfold fits; nia|]. cbn [Add]. rewrite (bind_done _ _ _ _ _ E1).
  destruct (IH s1 (l ++ [v]) H1 Hs) as (s2 & E2 & H2); [rewrite zlen_app, zlen_one; nia|].
  exists s2. split; [done|]. by rewrite <-app_assoc in H2.
Qed.

(** Construct the elements [vs] behind those of [l]; [len] is set afterwards. *)
Lemma construct_from_spec s l vs : represents s l -> zlen l + zlen vs <= cap s ->
  exists m, construct_from (zlen l) vs (set_len (len s) s) = Done tt (set_buf m s) /\
    represents (set_len (zlen l + zlen vs) (set_buf m s)) (l ++ vs).
Proof.
  intros H Hc. assert (Hgen : forall n, exists m, construct_from (zlen l) vs (set_len n s) = Done tt (set_len n (set_buf m s)) /\
    represents (set_len (zlen l + zlen vs) (set_buf m s)) (l ++ vs)).
  2:{ destruct (Hgen (len s)) as (m & E & Hr). exists m. split; [|done]. rewrite E. by destruct s. }
  intros n. revert s l H Hc. induction vs as [|v vs IH]; intros s l H Hc.
  - exists (buf s). split; [by destruct s|]. rewrite app_nil_r, zlen_nil, Z.add_0_r, <-(rep_len _ _ H). by destruct s.
  - rewrite zlen_cons in *. pose proof (zlen_nonneg vs) as Nvs. pose proof (zlen_nonneg l) as Nl.
    destruct (construct_spec s l v H) as (s1 & _ & E1 & H1 & Ec); [lia|].
    destruct (IH s1 (l ++ [v]) H1) as (m & Em & Hm); [rewrite zlen_app, zlen_one; lia|].
    exists m. rewrite zlen_app, zlen_one, <-app_assoc in Hm. rewrite zlen_app, zlen_one in Em. cbn [construct_from].
    rewrite (bind_done _ _ _ tt (set_len n s1)).
    + rewrite Em. split; [by rewrite <-E1|]. replace (zlen l + (1 + zlen vs)) with (zlen l + 1 + zlen vs) by lia. by rewrite <-E1 in Hm.
    + rewrite <-E1. unfold construct, mbind, M_bind, get, put, assert_. cbn [cap set_len].
      destruct (Z.leb_spec 0 (zlen l)); [|lia]. by destruct (Z.ltb_spec (zlen l) (cap s)); [|lia].
Qed.

Lemma List_AddRange_spec s l vs : represents s l -> 0 < sizeT -> fits (zlen l + zlen vs) ->
  exists s', AddRange sizeT trivial vs s = Done tt s' /\ represents s' (l ++ vs).
Proof.
  intros H Hs Hf. unfold AddRange, mbind at 1, M_bind at 1, get. rewrite (rep_len _ _ H).
  destruct (List_Reserve_spec s l (zlen l + zlen vs) H Hs Hf) as (s1 & E1 & H1 & Hc & _). rewrite (bind_done _ _ _ _ _ E1).
  destruct (construct_from_spec s1 l vs H1 Hc) as (m & E2 & H2). replace (set_len (len s1) s1) with s1 in E2 by (by destruct s1).
  rewrite (bind_done _ _ _ _ _ E2). by eexists.
Qed.

Lemma construct_cells_eq a n s : 0 <= n -> construct_cells default_ (seqZ a n) s = construct_from a (replicate (Z.to_nat n) default_) s.
Proof.
  intros Hn. rewrite <-(Z2Nat.id n) at 1 by done. generalize (Z.to_nat n) as k. intros k. revert a s. induction k as [|k IH]; intros a s; [done|].
  rewrite seqZ_cons by lia. cbn [construct_cells replicate construct_from]. apply bind_ext; [done|]. intros [] s' _.
  replace (Z.pred (Z.of_nat (S k))) with (Z.of_nat k) by lia. apply IH.
Qed.

(** ** Removing at the end *)

Lemma drop_last s l n : represents s l -> 0 <= n <= zlen l ->
  exists m, destroy_cells trivial (seqZ n (zlen l - n)) s = Done tt (set_buf m s) /\
    represents (MkList (alloc s) m (cap s) n) (take (Z.to_nat n) l).
Proof.
  intros H Hn. destruct (destroy_cells_spec (seqZ n (zlen l - n)) s) as (m & E & H1 & H2); [apply NoDup_seqZ| |].
  - intros i Hi%elem_of_seqZ. destruct (rep_cell s l i H) as (v & _ & -> & _); [lia|done].
  - exists m. split; [done|]. apply (represents_take s l); [done|done| |].
    + intros j Hj. apply H1. rewrite elem_of_seqZ. lia.
    + intros Ht j Hj. apply H2; [done|]. rewrite elem_of_seqZ. lia.
Qed.

Lemma Resize_spec s l n : represents s l -> 0 < sizeT -> 0 <= n -> fits n ->
  exists s', Resize sizeT trivial default_ n s = Done (zlen l) s' /\
    represents s' (take (Z.to_nat n) l ++ replicate (Z.to_nat (n - zlen l)) default_).
Proof.
  intros H Hs Hn Hf. pose proof (zlen_nonneg l) as Nl. unfold Resize, mbind at 1, M_bind at 1, get. rewrite (rep_len _ _ H).
  destruct (Z.eqb_spec n (zlen l)) as [->|Hne].
  { exists s. split; [done|]. rewrite take_ge by (unfold zlen; lia). rewrite Z.sub_diag. cbn. by rewrite app_nil_r. }
  destruct (Z.ltb_spec n (zlen l)) as [Hlt|Hge].
  - destruct (drop_last s l n H) as (m & E & Hr); [lia|]. rewrite (bind_done _ _ _ _ _ E). eexists. split; [reflexivity|].
    replace (Z.to_nat (n - zlen l)) with 0%nat by lia. cbn [replicate]. by rewrite app_nil_r.
  - destruct (List_Reserve_spec s l n H Hs Hf) as (s1 & E1 & H1 & Hc & _).
    assert (El : zlen (replicate (Z.to_nat (n - zlen l)) default_) = n - zlen l) by (unfold zlen at 1; rewrite length_replicate; lia).
    destruct (construct_from_spec s1 l (replicate (Z.to_nat (n - zlen l)) default_) H1) as (m & E2 & H2); [lia|].
    replace (set_len (len s1) s1) with s1 in E2 by (by destruct s1). rewrite <-construct_cells_eq in E2 by lia.
    rewrite (bind_done _ _ s tt (set_buf m s1)) by (by rewrite (bind_done _ _ _ _ _ E1)). eexists. split; [reflexivity|].
    rewrite El in H2. replace (zlen l + (n - zlen l)) with n in H2 by lia. rewrite take_ge by (unfold zlen in *; lia). done.
Qed.

Lemma take_pred_snoc l v : take (Z.to_nat (zlen (l ++ [v]) - 1)) (l ++ [v]) = l.
Proof.
  rewrite zlen_app, zlen_one. replace (Z.to_nat (zlen l + 1 - 1)) with (length l) by (unfold zlen; lia). apply take_app_length.
Qed.

(** Destroying the last element once [len] is one less. *)
Lemma destroy_last s l v : represents s (l ++ [v]) ->
  exists s', destroy trivial (zlen l) (set_len (zlen l) s) = Done tt s' /\ represents s' l /\ cell (zlen l) (set_len (zlen l) s) = Done v (set_len (zlen l) s).
Proof.
  intros H. pose proof (zlen_nonneg l) as Nl. assert (El : zlen (l ++ [v]) = zlen l + 1) by (rewrite zlen_app, zlen_one; lia).
  destruct (rep_cell s (l ++ [v]) (zlen l) H) as (w & Ew & Eb & _); [lia|]. rewrite znth_mid in Ew. injection Ew as <-.
  destruct (destroy_one (set_len (zlen l) s) (zlen l)) as (m & E & H1 & H2); [cbn; by rewrite Eb|].
  exists (MkList (alloc s) m (cap s) (zlen l)). split; [done|]. split; [|by apply cell_done].
  rewrite <-(take_pred_snoc l v) at 2. rewrite El. replace (zlen l + 1 - 1) with (zlen l) by lia. apply (represents_take s (l ++ [v])); [done|lia| |].
  - intros j Hj. apply H1. lia.
  - intros Ht j Hj. replace j with (zlen l) by lia. by apply H2.
Qed.

Lemma List_Pop_spec s l v : represents s (l ++ [v]) -> exists s', Pop trivial s = Done tt s' /\ represents s' l.
Proof.
  intros H. destruct (destroy_last s l v H) as (s' & E & Hr & _). exists s'. split; [|done]. pose proof (zlen_nonneg l) as Nl.
  unfold Pop, mbind at 1, M_bind at 1, get. rewrite (rep_len _ _ H), zlen_app, zlen_one. destruct (Z.ltb_spec 0 (zlen l + 1)); [|lia].
  replace (zlen l + 1 - 1) with (zlen l) by lia. exact E.
Qed.

Lemma List_TryPop_spec s l : represents s l -> exists s', TryPop trivial s = Done (last l) s' /\ represents s' (List.removelast l).
Proof.
  intros H. unfold TryPop, mbind at 1, M_bind at 1, get. destruct l as [|v l _] using rev_ind.
  - rewrite (rep_len _ _ H). by exists s.
  - destruct (destroy_last s l v H) as (s' & E & Hr & Ec). exists s'. rewrite last_snoc, List.removelast_last. split; [|done].
    pose proof (zlen_nonneg l) as Nl. rewrite (rep_len _ _ H), zlen_app, zlen_one. destruct (Z.eqb_spec (zlen l + 1) 0); [lia|].
    replace (zlen l + 1 - 1) with (zlen l) by lia. rewrite (bind_done (modify _) _ s tt (set_len (zlen l) s) eq_refl).
    by rewrite (bind_done _ _ _ _ _ Ec), (bind_done _ _ _ _ _ E).
Qed.

Lemma List_Clear_spec s l freeBuf : represents s l -> exists s', Clear trivial freeBuf s = Done tt s' /\ represents s' [].
Proof.
  intros H. pose proof (zlen_nonneg l) as Nl. pose proof (rep_cap _ _ H) as Nc. unfold Clear, mbind at 1, M_bind at 1, get.
  assert (Hempty : represents (MkList false ∅ 0 0) []).
  { split; cbn; try done. intros j _. by rewrite lookup_empty, znth_out by (unfold zlen; cbn [length]; lia). }
  destruct (alloc s) eqn:Ea; cbn [negb].
  2:{ pose proof (rep_alloc _ _ H Ea). assert (l = []) as -> by (apply zlen_0; lia). by exists s. }
  rewrite (rep_len _ _ H). assert (Hmid : exists s1, (if zlen l =? 0 then mret tt else _ ← destroy_cells trivial (reverse (seqZ 0 (zlen l))); modify (set_len 0)) s = Done tt s1 /\ represents s1 []).
  { destruct (Z.eqb_spec (zlen l) 0) as [E0|E0]; [apply zlen_0 in E0 as ->; by exists s|].
    destruct (destroy_cells_spec (reverse (seqZ 0 (zlen l))) s) as (m & E & H1 & H2).
    - rewrite reverse_Permutation; apply NoDup_seqZ.
    - intros i Hi%elem_of_reverse%elem_of_seqZ. destruct (rep_cell s l i H) as (v & _ & -> & _); [lia|done].
    - rewrite (bind_done _ _ _ _ _ E). eexists. split; [reflexivity|]. apply (represents_take s l 0 m H); [lia| |].
      + intros j Hj. apply H1. rewrite elem_of_reverse, elem_of_seqZ. lia.
      + intros Ht j Hj. apply H2; [done|]. rewrite elem_of_reverse, elem_of_seqZ. lia. }
  destruct Hmid as (s1 & E1 & Hr1). rewrite (bind_done _ _ _ _ _ E1). destruct freeBuf; [|by exists s1].
  eexists. split; [reflexivity|]. by rewrite (rep_len _ _ Hr1).
Qed.

(** ** Reading and searching *)

Lemma List_At_spec s l i : represents s l -> 0 <= i < zlen l -> exists v, At i s = Done v s /\ znth l i = Some v.
Proof.
  intros H Hi. destruct (rep_cell s l i H Hi) as (v & Ev & _ & Ec). exists v. split; [|done].
  unfold At, mbind at 1, M_bind at 1, get. rewrite (rep_len _ _ H). destruct (Z.ltb_spec i (zlen l)); [|lia]. exact Ec.
Qed.

Lemma List_Top_spec s l v : represents s (l ++ [v]) -> Top s = Done v s.
Proof.
  intros H. pose proof (zlen_nonneg l). unfold Top, mbind at 1, M_bind at 1, get. rewrite (rep_len _ _ H), zlen_app, zlen_one.
  destruct (Z.ltb_spec 0 (zlen l + 1)); [|lia]. replace (zlen l + 1 - 1) with (zlen l) by lia.
  apply cell_done. rewrite (rep_cells _ _ H); [apply znth_mid|]. right. rewrite zlen_app, zlen_one. lia.
Qed.

(** Position of the first element equal to [v]. *)
Fixpoint index_of v l (i : Z) : option Z :=
  match l with
  | [] => None
  | w :: l => if decide (v = w) then Some i else index_of v l (i + 1)
  end.

Lemma index_of_range v l a i : index_of v l a = Some i -> a <= i < a + zlen l.
Proof.
  revert a. induction l as [|w l IH]; intros a; cbn; [done|]. rewrite zlen_cons. pose proof (zlen_nonneg l).
  destruct (decide (v = w)); [intros [= <-]; lia|]. intros E. apply IH in E. lia.
Qed.

Lemma List_find_loop_spec s v l a : (forall i, 0 <= i < zlen l -> buf s !! (a + i) = znth l i) ->
  find_loop (seqZ a (zlen l)) v s = Done (index_of v l a) s.
Proof.
  revert a. induction l as [|w l IH]; intros a Hl; [done|]. rewrite zlen_cons in *. pose proof (zlen_nonneg l).
  rewrite seqZ_cons by lia. cbn [find_loop index_of].
  rewrite (bind_done _ _ _ _ _ (cell_done s a w ltac:(rewrite <-(Z.add_0_r a), Hl by lia; done))).
  destruct (decide (v = w)); [done|]. replace (Z.pred (1 + zlen l)) with (zlen l) by lia. apply IH.
  intros i Hi. replace (a + 1 + i) with (a + (i + 1)) by lia. rewrite Hl by lia. replace (w :: l) with ([w] ++ l) by done.
  rewrite znth_app_r by (rewrite zlen_one; lia). rewrite zlen_one. f_equal. lia.
Qed.

Lemma find_spec s l v : represents s l -> find_loop (seqZ 0 (zlen l)) v s = Done (index_of v l 0) s.
Proof. intros H. apply List_find_loop_spec. intros i Hi. rewrite Z.add_0_l. apply H. auto. Qed.

Lemma List_Find_spec s l v : represents s l -> Find v s = Done (default (2 ^ 64 - 1) (index_of v l 0)) s.
Proof.
  intros H. unfold Find, mbind at 1, M_bind at 1, get. by rewrite (rep_len _ _ H), (bind_done _ _ _ _ _ (find_spec s l v H)).
Qed.

(** ** Removing in the middle *)

Lemma move_down_spec (k : nat) a s : (forall j, a <= j <= a + Z.of_nat k -> is_Some (buf s !! j)) ->
  exists m, move_down (seqZ a (Z.of_nat k)) s = Done tt (set_buf m s) /\
    forall j, m !! j = if decide (a <= j < a + Z.of_nat k) then buf s !! (j + 1) else buf s !! j.
Proof.
  revert a s. induction k as [|k IH]; intros a s Hs.
  - exists (buf s). split; [by destruct s|]. intros j. by rewrite decide_False by lia.
  - rewrite seqZ_cons by lia. replace (Z.pred (Z.of_nat (S k))) with (Z.of_nat k) by lia. cbn [move_down].
    destruct (Hs (a + 1)) as [v Ev]; [lia|]. destruct (Hs a) as [w Ew]; [lia|].
    rewrite (bind_done _ _ _ _ _ (cell_done s (a + 1) v Ev)).
    rewrite (bind_done _ _ s tt (set_buf (<[a := v]> (buf s)) s)) by (unfold assign; by rewrite (bind_done _ _ _ _ _ (cell_done s a w Ew))).
    destruct (IH (Z.succ a) (set_buf (<[a := v]> (buf s)) s)) as (m & E & Hm).
    { intros j Hj. cbn. rewrite lookup_insert_ne by lia. apply Hs. lia. }
    exists m. split; [by rewrite E|]. intros j. rewrite Hm. cbn [buf set_buf]. destruct (decide (j = a)) as [->|Hja].
    + rewrite decide_False, decide_True, lookup_insert_eq by lia. done.
    + destruct (decide (Z.succ a <= j < Z.succ a + Z.of_nat k)); [rewrite decide_True by lia|rewrite decide_False by lia];
        by rewrite lookup_insert_ne by lia.
Qed.

Lemma List_RemoveAt_spec s l i : represents s l -> 0 <= i < zlen l ->
  exists s', RemoveAt trivial i s = Done tt s' /\ represents s' (delete (Z.to_nat i) l).
Proof.
  intros H Hi. pose proof (rep_cap _ _ H). unfold RemoveAt, mbind at 1, M_bind at 1, get. rewrite (rep_len _ _ H).
  destruct (Z.ltb_spec i (zlen l)); [|lia]. cbn [assert_]. rewrite (bind_done (mret tt) _ s tt s eq_refl).
  rewrite (bind_done (modify _) _ s tt (set_len (zlen l - 1) s) eq_refl).
  assert (Hsome : forall j, 0 <= j < zlen l -> is_Some (buf s !! j)).
  { intros j Hj. destruct (rep_cell s l j H Hj) as (v & _ & -> & _). done. }
  destruct (move_down_spec (Z.to_nat (zlen l - 1 - i)) i (set_len (zlen l - 1) s)) as (m & E & Hm).
  { intros j Hj. apply Hsome. lia. }
  rewrite Z2Nat.id in * by lia. rewrite (bind_done _ _ _ _ _ E). set (s1 := set_buf m _).
  destruct (destroy_one s1 (zlen l - 1)) as (m2 & E2 & D1 & D2).
  { cbn. rewrite Hm, decide_False by lia. apply Hsome. lia. }
  eexists. split; [exact E2|]. pose proof (zlen_delete l i Hi) as El.
  split; cbn [len cap alloc buf set_buf set_len s1]; rewrite ?El; [done|lia|apply H|].
  intros j Hj. rewrite znth_delete by done. destruct (decide (j = zlen l - 1)) as [->|Hne].
  - destruct Hj as [Ht|Hj]; [|lia]. rewrite D2 by done. rewrite decide_False by lia. symmetry. apply znth_out. lia.
  - rewrite D1 by done. cbn [buf set_buf s1]. rewrite Hm. cbn [buf set_len].
    destruct (decide (i <= j < i + (zlen l - 1 - i))).
    + rewrite decide_False by lia. apply H. lia.
    + destruct (decide (j < i)); [apply H; destruct Hj; [auto|lia]|]. destruct Hj as [Ht|Hj]; [|lia].
      rewrite (rep_cells _ _ H) by auto. rewrite !znth_out by lia. done.
Qed.

Lemma Remove_spec s l v : represents s l ->
  exists s', Remove trivial v s = Done tt s' /\
    represents s' (match index_of v l 0 with Some i => delete (Z.to_nat i) l | None => l end).
Proof.
  intros H. unfold Remove, mbind at 1, M_bind at 1, get. rewrite (rep_len _ _ H), (bind_done _ _ _ _ _ (find_spec s l v H)).
  destruct (index_of v l 0) as [i|] eqn:E; [|by exists s]. apply List_RemoveAt_spec; [done|]. apply index_of_range in E. lia.
Qed.

Lemma assign_spec s l i v : represents s l -> 0 <= i < zlen l ->
  exists s', assign i v s = Done tt s' /\ represents s' (<[Z.to_nat i := v]> l).
Proof.
  intros H Hi. destruct (rep_cell s l i H Hi) as (w & _ & _ & Ec). unfold assign. rewrite (bind_done _ _ _ _ _ Ec).
  eexists. split; [reflexivity|]. split; cbn [len cap alloc buf set_buf]; rewrite ?zlen_insert; try apply H.
  intros j Hj. rewrite znth_insert by done. destruct (decide (j = i)) as [->|Hne]; [apply lookup_insert_eq|].
  rewrite lookup_insert_ne by done. by apply H.
Qed.

(** The last element takes the place of element [i]; an index past the end
    only drops the last element. *)
Lemma SwapRemoveAt_spec s l v i : represents s (l ++ [v]) -> 0 <= i < 2 ^ 64 - 1 ->
  exists s', SwapRemoveAt trivial i s = Done tt s' /\ represents s' (<[Z.to_nat i := v]> l).
Proof.
  intros H Hi. pose proof (zlen_nonneg l). pose proof (rep_cap _ _ H) as Hc. rewrite zlen_app, zlen_one in Hc.
  assert (Hlen : len s = zlen l + 1) by (rewrite (rep_len _ _ H), zlen_app, zlen_one; lia).
  unfold SwapRemoveAt, mbind at 1, M_bind at 1, get. rewrite Hlen, (uint_small 64 (i + 1)), (uint_small 64 (zlen l + 1 - 1)) by rng.
  replace (zlen l + 1 - 1) with (zlen l) by lia.
  assert (Hswap : exists s1 w, (if i + 1 <? zlen l + 1 then a ← cell i; b ← cell (zlen l); _ ← assign i b; assign (zlen l) a else mret tt) s = Done tt s1 /\
    represents s1 (<[Z.to_nat i := v]> l ++ [w])).
  { destruct (Z.ltb_spec (i + 1) (zlen l + 1)) as [Hlt|Hge].
    - destruct (rep_cell s _ i H) as (w & Ew & _ & Ecw); [rewrite zlen_app, zlen_one; lia|].
      destruct (rep_cell s _ (zlen l) H) as (v' & Ev & _ & Ecv); [rewrite zlen_app, zlen_one; lia|]. rewrite znth_mid in Ev. injection Ev as <-.
      destruct (assign_spec s _ i v H) as (s1 & E1 & H1); [rewrite zlen_app, zlen_one; lia|].
      destruct (assign_spec s1 _ (zlen l) w H1) as (s2 & E2 & H2); [rewrite zlen_insert, zlen_app, zlen_one; lia|].
      exists s2, w. split; [by rewrite (bind_done _ _ _ _ _ Ecw), (bind_done _ _ _ _ _ Ecv), (bind_done _ _ _ _ _ E1)|].
      rewrite insert_app_l in H2 by (unfold zlen in *; lia). rewrite insert_app_r_alt in H2 by (rewrite length_insert; unfold zlen; lia).
      rewrite length_insert in H2. replace (Z.to_nat (zlen l) - length l)%nat with 0%nat in H2 by (unfold zlen; lia). exact H2.
    - exists s, v. split; [done|]. by rewrite list_insert_ge by (unfold zlen in *; lia). }
  destruct Hswap as (s1 & w & E1 & Hr1). rewrite (bind_done _ _ _ _ _ E1). destruct (destroy_last s1 _ w Hr1) as (s2 & E2 & Hr2 & _).
  rewrite zlen_insert in E2. exists s2. split; [|done].
  by rewrite (bind_done (modify _) _ s1 tt (set_len (zlen l) s1) eq_refl).
Qed.

Lemma new_List_spec n : 0 < sizeT -> 0 <= n -> fits n -> exists s, new_List sizeT n = Some s /\ represents s [].
Proof.
  intros Hs Hn Hf. unfold new_List. assert (Hempty : forall a c, 0 <= c < 2 ^ 64 -> (a = false -> c = 0) -> represents (MkList a ∅ c 0) []).
  { intros a c Hc Ha. split; cbn [len cap alloc buf]; try done. intros j _. by rewrite lookup_empty, znth_out by (unfold zlen; cbn [length]; lia). }
  destruct (Z.eqb_spec n 0); [eexists; split; [done|]; by apply Hempty|].
  destruct (block_size_spec n) as (b & -> & Hb); [done|lia|done|]. cbn [mbind option_bind]. eexists. split; [done|].
  apply Hempty; [lia|done].
Qed.

(** ** Sessions *)

Inductive call :=
| LEmplace (v : T) | LAdd (vs : list T) | LAddRange (vs : list T) | LReserve (n : Z) | LResize (n : Z)
| LAt (i : Z) | LTop | LPop | LTryPop | LClear (freeBuf : bool)
| LFind (v : T) | LRemove (v : T) | LRemoveAt (i : Z) | LSwapRemoveAt (i : Z).

Inductive reply := RUnit | RNumber (n : Z) | RValue (v : option T).

Definition exec (c : call) : M (List T) reply :=
  match c with
  | LEmplace v => _ ← Emplace sizeT trivial v; mret RUnit
  | LAdd vs => _ ← Add sizeT trivial vs; mret RUnit
  | LAddRange vs => _ ← AddRange sizeT trivial vs; mret RUnit
  | LReserve n => _ ← Reserve sizeT trivial n; mret RUnit
  | LResize n => n ← Resize sizeT trivial default_ n; mret (RNumber n)
  | LAt i => v ← At i; mret (RValue (Some v))
  | LTop => v ← Top; mret (RValue (Some v))
  | LPop => _ ← Pop trivial; mret RUnit
  | LTryPop => v ← TryPop trivial; mret (RValue v)
  | LClear freeBuf => _ ← Clear trivial freeBuf; mret RUnit
  | LFind v => n ← Find v; mret (RNumber n)
  | LRemove v => _ ← Remove trivial v; mret RUnit
  | LRemoveAt i => _ ← RemoveAt trivial i; mret RUnit
  | LSwapRemoveAt i => _ ← SwapRemoveAt trivial i; mret RUnit
  end.

(** The same calls on a list. *)
Definition spec (c : call) l : reply * list T :=
  match c with
  | LEmplace v => (RUnit, l ++ [v])
  | LAdd vs | LAddRange vs => (RUnit, l ++ vs)
  | LReserve _ => (RUnit, l)
  | LResize n => (RNumber (zlen l), take (Z.to_nat n) l ++ replicate (Z.to_nat (n - zlen l)) default_)
  | LAt i => (RValue (znth l i), l)
  | LTop => (RValue (last l), l)
  | LPop => (RUnit, List.removelast l)
  | LTryPop => (RValue (last l), List.removelast l)
  | LClear _ => (RUnit, [])
  | LFind v => (RNumber (default (2 ^ 64 - 1) (index_of v l 0)), l)
  | LRemove v => (RUnit, match index_of v l 0 with Some i => delete (Z.to_nat i) l | None => l end)
  | LRemoveAt i => (RUnit, delete (Z.to_nat i) l)
  | LSwapRemoveAt i => (RUnit, match last l with Some v => <[Z.to_nat i := v]> (List.removelast l) | None => l end)
  end.

(** The asserted conditions, and sizes of at most [2^63] bytes. *)
Definition legal (c : call) l : Prop :=
  match c with
  | LEmplace _ => fits (zlen l + 1)
  | LAdd vs | LAddRange vs => fits (zlen l + zlen vs)
  | LReserve n => fits n
  | LResize n => 0 <= n /\ fits n
  | LAt i | LRemoveAt i => 0 <= i < zlen l
  | LTop | LPop => l <> []
  | LSwapRemoveAt i => l <> [] /\ 0 <= i < 2 ^ 64 - 1
  | _ => True
  end.

Fixpoint run (cs : list call) : M (List T) (list reply) :=
  match cs with
  | [] => mret []
  | c :: cs => r ← exec c; rs ← run cs; mret (r :: rs)
  end.
Fixpoint run_spec (cs : list call) l : list reply * list T :=
  match cs with
  | [] => ([], l)
  | c :: cs => let '(r, l) := spec c l in let '(rs, l) := run_spec cs l in (r :: rs, l)
  end.
Fixpoint all_legal (cs : list call) l : Prop :=
  match cs with
  | [] => True
  | c :: cs => legal c l /\ all_legal cs (spec c l).2
  end.

(** A call whose value is discarded or wrapped. *)
Lemma reply_done {A} (m : M (List T) A) (f : A -> reply) s a l :
  (exists s', m s = Done a s' /\ represents s' l) -> exists s', (x ← m; mret (f x)) s = Done (f a) s' /\ represents s' l.
Proof. intros (s' & E & H). rewrite (bind_done _ _ _ _ _ E). by exists s'. Qed.

Lemma List_exec_spec s l c : 0 < sizeT -> represents s l -> legal c l -> exists s', exec c s = Done (spec c l).1 s' /\ represents s' (spec c l).2.
Proof.
  intros Hs H Hl. destruct c as [v|vs|vs|n|n|i| | | |b|v|v|i|i]; cbn [exec spec legal fst snd] in *.
  - by eapply (reply_done _ (fun _ => RUnit)), List_Emplace_spec.
  - by eapply (reply_done _ (fun _ => RUnit)), Add_spec.
  - by eapply (reply_done _ (fun _ => RUnit)), List_AddRange_spec.
  - apply (reply_done _ (fun _ => RUnit) s tt). destruct (List_Reserve_spec s l n H Hs Hl) as (s' & ? & ? & _). by exists s'.
  - destruct Hl as [? ?]. by eapply (reply_done _ RNumber), Resize_spec.
  - destruct (List_At_spec s l i H Hl) as (v & E & ->). apply (reply_done _ (fun v => RValue (Some v))). by exists s.
  - destruct (List.exists_last Hl) as (l' & v & ->). rewrite last_snoc. eapply (reply_done _ (fun v => RValue (Some v))).
    exists s. split; [by apply (List_Top_spec s l')|done].
  - destruct (List.exists_last Hl) as (l' & v & ->). rewrite List.removelast_last. by eapply (reply_done _ (fun _ => RUnit)), (List_Pop_spec s l' v).
  - by eapply (reply_done _ RValue), List_TryPop_spec.
  - by eapply (reply_done _ (fun _ => RUnit)), (List_Clear_spec s l).
  - apply (reply_done _ RNumber). exists s. split; [by apply List_Find_spec|done].
  - by eapply (reply_done _ (fun _ => RUnit)), Remove_spec.
  - by eapply (reply_done _ (fun _ => RUnit)), List_RemoveAt_spec.
  - destruct Hl as [Hne Hi]. destruct (List.exists_last Hne) as (l' & v & ->). rewrite last_snoc, List.removelast_last.
    by eapply (reply_done _ (fun _ => RUnit)), SwapRemoveAt_spec.
Qed.

Lemma List_run_refines cs s l : 0 < sizeT -> represents s l -> all_legal cs l ->
  exists s', run cs s = Done (run_spec cs l).1 s' /\ represents s' (run_spec cs l).2.
Proof.
  intros Hs. revert s l. induction cs as [|c cs IH]; intros s l H Hl; [by exists s|]. destruct Hl as [Hl Hls].
  destruct (List_exec_spec s l c Hs H Hl) as (s1 & E1 & H1). cbn [run run_spec]. rewrite (bind_done _ _ _ _ _ E1).
  destruct (spec c l) as [r l1]. cbn [fst snd] in *. destruct (IH s1 l1 H1 Hls) as (s2 & E2 & H2).
  rewrite (bind_done _ _ _ _ _ E2). destruct (run_spec cs l1) as [rs l2]. by exists s2.
Qed.
End props.

(** C25. A session of calls on a new [List<T>] answers as the same calls on a
    list do, through every growth of the block; no cell without an object is
    touched, and the objects alive afterwards are exactly the elements.
    [SwapRemoveAt] past the end only drops the last element. *)
Theorem list_refines_list {T} `{!EqDecision T} (sizeT : Z) (trivial : bool) (default_ : T) (n : Z) (cs : list (call (T := T))) :
  0 < sizeT -> 0 <= n -> fits sizeT n -> all_legal sizeT default_ cs [] ->
  exists s s' : List T, new_List sizeT n = Some s /\
    run sizeT trivial default_ cs s = Done (run_spec default_ cs []).1 s' /\ represents trivial s' (run_spec default_ cs []).2.
Proof.
  intros Hs Hn Hf Hl. destruct (new_List_spec (T := T) sizeT trivial n Hs Hn Hf) as (s & Es & Hr).
  destruct (List_run_refines sizeT trivial default_ cs s [] Hs Hr Hl) as (s' & E & Hr'). by exists s, s'.
Qed.

Definition session : list (call (T := Z)) :=
  [LTryPop; LAdd [1; 2; 3; 4]; LEmplace 5; LFind 3; LFind 9; LRemoveAt 0; LRemove 4; LSwapRemoveAt 0; LAt 1; LTop;
   LSwapRemoveAt 7; LResize 4; LAddRange [6; 7]; LAt 3; LPop; LClear true; LReserve 9; LTryPop].

Lemma list_refines_list_witness : exists s s' : List Z,
  new_List 24 0 = Some s /\
  run 24 false 0 session s = Done [RValue None; RUnit; RUnit; RNumber 2; RNumber (2 ^ 64 - 1); RUnit; RUnit; RUnit;
    RValue (Some 3); RValue (Some 3); RUnit; RNumber 1; RUnit; RValue (Some 0); RUnit; RUnit; RUnit; RValue None] s' /\
  represents false s' [].
Proof.
  destruct (list_refines_list 24 false 0 0 session) as (s & s' & Es & Er & Hr).
  - lia.
  - lia.
  - vm_compute. discriminate.
  - cbn [all_legal session legal]. repeat split; vm_compute; try discriminate; try reflexivity.
  - exists s, s'. split; [exact Es|]. split; [exact Er|exact Hr].
Defined.
