(* ===== verification/Charsutils.v ===== *)
(** * xx_charsutils: integers as decimal text

    The table-driven conversions of integers to text, and the parsers.  The
    conversions are branch for branch those of the source: each returns the
    bytes that it writes. *)

From Stdlib Require Import ZArith Lia.
From stdpp Require Import base numbers list.
From S2P Require Import Prelude Util.
Open Scope Z_scope.

(** [gDigitsLut]: the two digits of 0 to 99, one after the other. *)
Definition gDigitsLut : bytes :=
  [48; 48; 48; 49; 48; 50; 48; 51; 48; 52; 48; 53; 48; 54; 48; 55; 48; 56; 48; 57;
   49; 48; 49; 49; 49; 50; 49; 51; 49; 52; 49; 53; 49; 54; 49; 55; 49; 56; 49; 57;
   50; 48; 50; 49; 50; 50; 50; 51; 50; 52; 50; 53; 50; 54; 50; 55; 50; 56; 50; 57;
   51; 48; 51; 49; 51; 50; 51; 51; 51; 52; 51; 53; 51; 54; 51; 55; 51; 56; 51; 57;
   52; 48; 52; 49; 52; 50; 52; 51; 52; 52; 52; 53; 52; 54; 52; 55; 52; 56; 52; 57;
   53; 48; 53; 49; 53; 50; 53; 51; 53; 52; 53; 53; 53; 54; 53; 55; 53; 56; 53; 57;
   54; 48; 54; 49; 54; 50; 54; 51; 54; 52; 54; 53; 54; 54; 54; 55; 54; 56; 54; 57;
   55; 48; 55; 49; 55; 50; 55; 51; 55; 52; 55; 53; 55; 54; 55; 55; 55; 56; 55; 57;
   56; 48; 56; 49; 56; 50; 56; 51; 56; 52; 56; 53; 56; 54; 56; 55; 56; 56; 56; 57;
   57; 48; 57; 49; 57; 50; 57; 51; 57; 52; 57; 53; 57; 54; 57; 55; 57; 56; 57; 57].

(** An element of the table; past its end it is undefined ([None]), which
    [lut] reads as [-1]. *)
Definition lut (i : Z) : Z := default (-1) (znth gDigitsLut i).

(** [if (b) *buffer++ = c;] *)
Definition put_if (b : bool) (c : Z) : bytes := if b then [c] else [].

Definition u32toa_branchlut (value : Z) : bytes :=
  if value <? 10000 then
    let d1 := u32 (Z.shiftl (value / 100) 1) in
    let d2 := u32 (Z.shiftl (value mod 100) 1) in
    put_if (1000 <=? value) (lut d1) ++ put_if (100 <=? value) (lut (d1 + 1)) ++
    put_if (10 <=? value) (lut d2) ++ [lut (d2 + 1)]
  else if value <? 100000000 then
    let b := value / 10000 in
    let c := value mod 10000 in
    let d1 := u32 (Z.shiftl (b / 100) 1) in
    let d2 := u32 (Z.shiftl (b mod 100) 1) in
    let d3 := u32 (Z.shiftl (c / 100) 1) in
    let d4 := u32 (Z.shiftl (c mod 100) 1) in
    put_if (10000000 <=? value) (lut d1) ++ put_if (1000000 <=? value) (lut (d1 + 1)) ++
    put_if (100000 <=? value) (lut d2) ++ [lut (d2 + 1)] ++
    [lut d3; lut (d3 + 1); lut d4; lut (d4 + 1)]
  else
    let a := value / 100000000 in
    let value := value mod 100000000 in
    let b := value / 10000 in
    let c := value mod 10000 in
    let d1 := u32 (Z.shiftl (b / 100) 1) in
    let d2 := u32 (Z.shiftl (b mod 100) 1) in
    let d3 := u32 (Z.shiftl (c / 100) 1) in
    let d4 := u32 (Z.shiftl (c mod 100) 1) in
    (if 10 <=? a then let i := u32 (Z.shiftl a 1) in [lut i; lut (i + 1)] else [48 + a]) ++
    [lut d1; lut (d1 + 1); lut d2; lut (d2 + 1); lut d3; lut (d3 + 1); lut d4; lut (d4 + 1)].

(** [~u + 1] is the negation modulo [2^32]. *)
Definition i32toa_branchlut (value : Z) : bytes :=
  if value <? 0 then 45 :: u32toa_branchlut (u32 (Z.lnot (u32 value) + 1))
  else u32toa_branchlut (u32 value).

Definition u64toa_branchlut (value : Z) : bytes :=
  if value <? 100000000 then
    let v := u32 value in
    if v <? 10000 then
      let d1 := u32 (Z.shiftl (v / 100) 1) in
      let d2 := u32 (Z.shiftl (v mod 100) 1) in
      put_if (1000 <=? v) (lut d1) ++ put_if (100 <=? v) (lut (d1 + 1)) ++
      put_if (10 <=? v) (lut d2) ++ [lut (d2 + 1)]
    else
      let b := v / 10000 in
      let c := v mod 10000 in
      let d1 := u32 (Z.shiftl (b / 100) 1) in
      let d2 := u32 (Z.shiftl (b mod 100) 1) in
      let d3 := u32 (Z.shiftl (c / 100) 1) in
      let d4 := u32 (Z.shiftl (c mod 100) 1) in
      put_if (10000000 <=? value) (lut d1) ++ put_if (1000000 <=? value) (lut (d1 + 1)) ++
      put_if (100000 <=? value) (lut d2) ++ [lut (d2 + 1)] ++
      [lut d3; lut (d3 + 1); lut d4; lut (d4 + 1)]
  else if value <? 10000000000000000 then
    let v0 := u32 (value / 100000000) in
    let v1 := u32 (value mod 100000000) in
    let b0 := v0 / 10000 in
    let c0 := v0 mod 10000 in
    let d1 := u32 (Z.shiftl (b0 / 100) 1) in
    let d2 := u32 (Z.shiftl (b0 mod 100) 1) in
    let d3 := u32 (Z.shiftl (c0 / 100) 1) in
    let d4 := u32 (Z.shiftl (c0 mod 100) 1) in
    let b1 := v1 / 10000 in
    let c1 := v1 mod 10000 in
    let d5 := u32 (Z.shiftl (b1 / 100) 1) in
    let d6 := u32 (Z.shiftl (b1 mod 100) 1) in
    let d7 := u32 (Z.shiftl (c1 / 100) 1) in
    let d8 := u32 (Z.shiftl (c1 mod 100) 1) in
    put_if (1000000000000000 <=? value) (lut d1) ++ put_if (100000000000000 <=? value) (lut (d1 + 1)) ++
    put_if (10000000000000 <=? value) (lut d2) ++ put_if (1000000000000 <=? value) (lut (d2 + 1)) ++
    put_if (100000000000 <=? value) (lut d3) ++ put_if (10000000000 <=? value) (lut (d3 + 1)) ++
    put_if (1000000000 <=? value) (lut d4) ++ put_if (100000000 <=? value) (lut (d4 + 1)) ++
    [lut d5; lut (d5 + 1); lut d6; lut (d6 + 1); lut d7; lut (d7 + 1); lut d8; lut (d8 + 1)]
  else
    let a := u32 (value / 10000000000000000) in
    let value := value mod 10000000000000000 in
    let v0 := u32 (value / 100000000) in
    let v1 := u32 (value mod 100000000) in
    let b0 := v0 / 10000 in
    let c0 := v0 mod 10000 in
    let d1 := u32 (Z.shiftl (b0 / 100) 1) in
    let d2 := u32 (Z.shiftl (b0 mod 100) 1) in
    let d3 := u32 (Z.shiftl (c0 / 100) 1) in
    let d4 := u32 (Z.shiftl (c0 mod 100) 1) in
    let b1 := v1 / 10000 in
    let c1 := v1 mod 10000 in
    let d5 := u32 (Z.shiftl (b1 / 100) 1) in
    let d6 := u32 (Z.shiftl (b1 mod 100) 1) in
    let d7 := u32 (Z.shiftl (c1 / 100) 1) in
    let d8 := u32 (Z.shiftl (c1 mod 100) 1) in
    (if a <? 10 then [48 + a]
     else if a <? 100 then let i := u32 (Z.shiftl a 1) in [lut i; lut (i + 1)]
     else if a <? 1000 then
       let i := u32 (Z.shiftl (a mod 100) 1) in [48 + a / 100; lut i; lut (i + 1)]
     else
       let i := u32 (Z.shiftl (a / 100) 1) in
       let j := u32 (Z.shiftl (a mod 100) 1) in
       [lut i; lut (i + 1); lut j; lut (j + 1)]) ++
    [lut d1; lut (d1 + 1); lut d2; lut (d2 + 1); lut d3; lut (d3 + 1); lut d4; lut (d4 + 1);
     lut d5; lut (d5 + 1); lut d6; lut (d6 + 1); lut d7; lut (d7 + 1); lut d8; lut (d8 + 1)].

Definition i64toa_branchlut (value : Z) : bytes :=
  if value <? 0 then 45 :: u64toa_branchlut (u64 (Z.lnot (u64 value) + 1))
  else u64toa_branchlut (u64 value).

(** The loop of the parsers, [r = r * 10 + (c - '0')] up to the terminator;
    [arith] brings a result into the type of [r], [None]: overflow that is
    undefined. *)
Fixpoint parse_loop (arith : Z -> option Z) (s : bytes) (r : Z) : option Z :=
  match s with
  | [] => Some r
  | c :: s => t ← arith (r * 10); r ← arith (t + (c - 48)); parse_loop arith s r
  end.

(** Arithmetic in an [OutType] of [w] bits.  Types narrower than [int] are
    computed in [int] and converted; wider signed arithmetic must not
    overflow. *)
Definition signed_arith (w z : Z) : option Z :=
  if w <? 32 then Some (sint w z) else if bool_decide (is_sint w z) then Some z else None.
Definition unsigned_arith (w z : Z) : option Z := Some (uint w z).

(** [s]: the characters before the terminator. *)
Definition ToInt (w : Z) (s : bytes) : option Z :=
  match s with
  | [] => Some 0
  | c :: s' =>
      if c =? 48 then Some 0
      else
        let '(b, t) := if c =? 45 then (true, s') else (false, s) in
        match t with
        | [] => None
        | c :: t =>
            r ← signed_arith w (c - 48);
            r ← parse_loop (signed_arith w) t r;
            if b then signed_arith w (- r) else Some r
        end
  end.

Definition ToUInt (w : Z) (s : bytes) : option Z :=
  match s with
  | [] => Some 0
  | c :: s => if c =? 48 then Some 0 else r ← unsigned_arith w (c - 48); parse_loop (unsigned_arith w) s r
  end.

(** [StrFunc<T>::WriteTo] for integers of [n] bytes: the text, and the room
    that is reserved for it. *)
Definition StrFunc_unsigned (n : Z) (v : Z) : bytes := if n <=? 4 then u32toa_branchlut v else u64toa_branchlut v.
Definition StrFunc_signed (n : Z) (v : Z) : bytes := if n <=? 4 then i32toa_branchlut v else i64toa_branchlut v.
Definition StrFunc_room (n : Z) : Z := n * 4.
