(* ===== verification/CharsutilsProps.v ===== *)
(** * Decimal text

    The table-driven conversions are the decimal numeral, and the parsers read
    it back. *)

From Stdlib Require Import ZArith Lia.
From stdpp Require Import base numbers list.
From S2P Require Import Prelude Util Charsutils.
Open Scope Z_scope.

(** ** The reference *)

(** The decimal numeral, at most [fuel] digits. *)
Fixpoint decimal_digits (fuel : nat) (v : Z) : bytes :=
  match fuel with
  | O => []
  | S fuel => if v <? 10 then [48 + v] else decimal_digits fuel (v / 10) ++ [48 + v mod 10]
  end.

(** Twenty digits hold 64 bits. *)
Definition decimal (v : Z) : bytes := decimal_digits 20 v.
Definition decimal_signed (v : Z) : bytes := if v <? 0 then 45 :: decimal (- v) else decimal v.

(** [n] digits, with leading zeros. *)
Fixpoint digits (n : nat) (v : Z) : bytes :=
  match n with
  | O => []
  | S n => digits n (v / 10) ++ [48 + v mod 10]
  end.

Lemma pow10_S (n : nat) : 10 ^ Z.of_nat (S n) = 10 * 10 ^ Z.of_nat n.
Proof. rewrite Nat2Z.inj_succ, Z.pow_succ_r by lia. done. Qed.

Lemma decimal_fuel (n m : nat) v : (0 < n <= m)%nat -> 0 <= v < 10 ^ Z.of_nat n -> decimal_digits m v = decimal_digits n v.
Proof.
  revert m v. induction n as [|n IH]; intros m v Hm Hv; [lia|]. destruct m as [|m]; [lia|]. rewrite pow10_S in Hv.
  cbn [decimal_digits]. destruct (Z.ltb_spec v 10); [done|]. destruct n as [|n]; [cbn in Hv; lia|].
  rewrite (IH m); [done|lia|]. pose proof (Z.div_mod v 10 ltac:(lia)). pose proof (Z.mod_pos_bound v 10 ltac:(lia)). lia.
Qed.

Lemma decimal_digits_S n v : decimal_digits (S n) v = if v <? 10 then [48 + v] else decimal_digits n (v / 10) ++ [48 + v mod 10].
Proof. done. Qed.

Lemma decimal_small v : 0 <= v < 10 -> decimal v = [48 + v].
Proof. intros. unfold decimal. rewrite decimal_digits_S. by destruct (Z.ltb_spec v 10); [|lia]. Qed.

Lemma decimal_step v : 10 <= v < 10 ^ 20 -> decimal v = decimal (v / 10) ++ [48 + v mod 10].
Proof.
  intros Hv. assert (E : decimal (v / 10) = decimal_digits 19 (v / 10)).
  { apply decimal_fuel; [lia|]. change (10 ^ Z.of_nat 19) with (10 ^ 19).
    pose proof (Z.div_mod v 10 ltac:(lia)). pose proof (Z.mod_pos_bound v 10 ltac:(lia)).
    change (10 ^ 20) with (10 * 10 ^ 19) in Hv. lia. }
  rewrite E. unfold decimal. rewrite (decimal_digits_S 19). by destruct (Z.ltb_spec v 10); [lia|].
Qed.
#[local] Opaque decimal.

Lemma digit_below r q : 0 <= r < 10 -> (r + 10 * q) / 10 = q /\ (r + 10 * q) mod 10 = r.
Proof.
  intros Hr. split; [symmetry; apply (Z.div_unique _ _ _ r); lia|symmetry; apply (Z.mod_unique _ _ q); lia].
Qed.

(** Split off the last [n] digits. *)
Lemma decimal_split (n : nat) v : 10 ^ Z.of_nat n <= v < 10 ^ 20 ->
  decimal v = decimal (v / 10 ^ Z.of_nat n) ++ digits n (v mod 10 ^ Z.of_nat n).
Proof.
  revert v. induction n as [|n IH]; intros v Hv.
  - cbn. by rewrite Z.div_1_r, app_nil_r.
  - rewrite pow10_S in *. pose proof (Z.pow_pos_nonneg 10 (Z.of_nat n) ltac:(lia) ltac:(lia)) as Hp.
    rewrite decimal_step by lia. pose proof (Z.div_mod v 10 ltac:(lia)). pose proof (Z.mod_pos_bound v 10 ltac:(lia)).
    rewrite IH by (split; [apply Z.div_le_lower_bound; lia|lia]). cbn [digits]. rewrite <-app_assoc.
    rewrite Z.div_div by lia. f_equal. rewrite Z.rem_mul_r by lia.
    destruct (digit_below (v mod 10) (v / 10 mod 10 ^ Z.of_nat n)) as [-> ->]; [lia|done].
Qed.

Lemma digits_split (n m : nat) v : 0 <= v -> digits (n + m) v = digits n (v / 10 ^ Z.of_nat m) ++ digits m (v mod 10 ^ Z.of_nat m).
Proof.
  revert v. induction m as [|m IH]; intros v Hv.
  - cbn. by rewrite Z.div_1_r, app_nil_r, Nat.add_0_r.
  - rewrite Nat.add_succ_r, pow10_S. pose proof (Z.pow_pos_nonneg 10 (Z.of_nat m) ltac:(lia) ltac:(lia)) as Hp. cbn [digits].
    rewrite IH by (apply Z.div_pos; lia). rewrite <-app_assoc, Z.div_div by lia. f_equal. rewrite Z.rem_mul_r by lia.
    destruct (digit_below (v mod 10) (v / 10 mod 10 ^ Z.of_nat m)) as [-> ->]; [apply Z.mod_pos_bound; lia|done].
Qed.

(** ** The table *)

Lemma lut_spec x : 0 <= x < 100 -> lut (u32 (Z.shiftl x 1)) = 48 + x / 10 /\ lut (u32 (Z.shiftl x 1) + 1) = 48 + x mod 10.
Proof.
  intros Hx. assert (H : forallb (fun x => (lut (u32 (Z.shiftl x 1)) =? 48 + x / 10) && (lut (u32 (Z.shiftl x 1) + 1) =? 48 + x mod 10)) (seqZ 0 100) = true)
    by (vm_compute; reflexivity).
  rewrite forallb_forall in H. specialize (H x ltac:(apply list_elem_of_In, elem_of_seqZ; lia)).
  apply andb_true_iff in H as [?%Z.eqb_eq ?%Z.eqb_eq]. done.
Qed.

(** The four table entries of a number below 10000. *)
Definition luts (v : Z) : bytes :=
  [lut (u32 (Z.shiftl (v / 100) 1)); lut (u32 (Z.shiftl (v / 100) 1) + 1);
   lut (u32 (Z.shiftl (v mod 100) 1)); lut (u32 (Z.shiftl (v mod 100) 1) + 1)].

(** The digits of a number below 10000, by position. *)
Lemma four_digits v : 0 <= v < 10000 ->
  lut (u32 (Z.shiftl (v / 100) 1)) = 48 + v / 1000 /\ lut (u32 (Z.shiftl (v / 100) 1) + 1) = 48 + v / 100 mod 10 /\
  lut (u32 (Z.shiftl (v mod 100) 1)) = 48 + v / 10 mod 10 /\ lut (u32 (Z.shiftl (v mod 100) 1) + 1) = 48 + v mod 10.
Proof.
  intros Hv. destruct (lut_spec (v / 100)) as [-> ->]; [split; [apply Z.div_pos; lia|apply Z.div_lt_upper_bound; lia]|].
  destruct (lut_spec (v mod 100)) as [-> ->]; [apply Z.mod_pos_bound; lia|]. rewrite Z.div_div by lia.
  replace (v mod 100) with (v mod 10 + 10 * (v / 10 mod 10)) by (change 100 with (10 * 10); by rewrite Z.rem_mul_r by lia).
  destruct (digit_below (v mod 10) (v / 10 mod 10)) as [-> ->]; [apply Z.mod_pos_bound; lia|done].
Qed.

Lemma luts_digits v : 0 <= v < 10000 -> luts v = digits 4 v.
Proof.
  intros Hv. unfold luts. destruct (four_digits v Hv) as (-> & -> & -> & ->). cbn [digits app].
  rewrite !Z.div_div by lia. change (10 * 10) with 100. change (100 * 10) with 1000.
  rewrite (Z.mod_small (v / 1000)); [done|]. split; [apply Z.div_pos; lia|apply Z.div_lt_upper_bound; lia].
Qed.

(** The numeral of a number below 10000, digit by digit. *)
Definition shorts (v : Z) : bytes :=
  put_if (1000 <=? v) (lut (u32 (Z.shiftl (v / 100) 1))) ++ put_if (100 <=? v) (lut (u32 (Z.shiftl (v / 100) 1) + 1)) ++
  put_if (10 <=? v) (lut (u32 (Z.shiftl (v mod 100) 1))) ++ [lut (u32 (Z.shiftl (v mod 100) 1) + 1)].

Lemma shorts_decimal v : 0 <= v < 10000 -> shorts v = decimal v.
Proof.
  intros Hv. unfold shorts. destruct (four_digits v Hv) as (-> & -> & -> & ->). unfold put_if.
  assert (Hstep : forall w, 10 <= w < 10000 -> decimal w = decimal (w / 10) ++ [48 + w mod 10]) by (intros; apply decimal_step; lia).
  assert (Hdiv : forall w a b, 0 < a -> a * b <= w -> b <= w / a) by (intros; apply Z.div_le_lower_bound; lia).
  assert (Hlt : forall w a b, 0 < a -> w < a * b -> w / a < b) by (intros; apply Z.div_lt_upper_bound; lia).
  destruct (Z.leb_spec 10 v); [|destruct (Z.leb_spec 100 v), (Z.leb_spec 1000 v); try lia; rewrite Z.mod_small, decimal_small by lia; done].
  rewrite Hstep by lia. destruct (Z.leb_spec 100 v).
  2:{ destruct (Z.leb_spec 1000 v); [lia|]. pose proof (Hdiv v 10 1). pose proof (Hlt v 10 10). rewrite decimal_small, Z.mod_small by lia. done. }
  pose proof (Hdiv v 10 10 ltac:(lia) ltac:(lia)). pose proof (Hlt v 10 1000 ltac:(lia) ltac:(lia)).
  rewrite (Hstep (v / 10)) by lia. rewrite Z.div_div by lia. change (10 * 10) with 100. destruct (Z.leb_spec 1000 v).
  - pose proof (Hdiv v 100 10 ltac:(lia) ltac:(lia)). pose proof (Hlt v 100 100 ltac:(lia) ltac:(lia)).
    rewrite (Hstep (v / 100)) by lia. rewrite Z.div_div by lia. change (100 * 10) with 1000.
    pose proof (Hdiv v 1000 1 ltac:(lia) ltac:(lia)). pose proof (Hlt v 1000 10 ltac:(lia) ltac:(lia)). rewrite decimal_small by lia. done.
  - pose proof (Hdiv v 100 1 ltac:(lia) ltac:(lia)). pose proof (Hlt v 100 10 ltac:(lia) ltac:(lia)).
    rewrite decimal_small, Z.mod_small by lia. done.
Qed.

(** ** The conversions *)

Lemma leb_div a k v : 0 < k -> (a * k <=? v) = (a <=? v / k).
Proof.
  intros Hk. apply eq_true_iff_eq. rewrite !Z.leb_le. rewrite Z.mul_comm. split; [by apply Z.div_le_lower_bound|].
  intros H. pose proof (Z.mul_div_le v k Hk). nia.
Qed.

Lemma div_range v k m : 0 < k -> 0 <= v < k * m -> 0 <= v / k < m.
Proof. intros Hk Hv. split; [apply Z.div_pos; lia|]. apply Z.div_lt_upper_bound; lia. Qed.

(** Eight digits in two halves. *)
Lemma luts_digits8 v : 0 <= v < 100000000 -> luts (v / 10000) ++ luts (v mod 10000) = digits 8 v.
Proof.
  intros Hv. rewrite !luts_digits; [|apply Z.mod_pos_bound; lia|apply div_range; lia]. symmetry. apply (digits_split 4 4). lia.
Qed.

Lemma shorts_luts v : 10000 <= v < 100000000 -> shorts (v / 10000) ++ luts (v mod 10000) = decimal v.
Proof.
  intros Hv. rewrite shorts_decimal by (apply div_range; lia). rewrite luts_digits by (apply Z.mod_pos_bound; lia).
  symmetry. apply (decimal_split 4). cbn. lia.
Qed.

(** A number below 10^8, eight digits of which the leading zeros are skipped. *)
Lemma eight_decimal v : 0 <= v < 100000000 ->
  (if v <? 10000 then shorts v else shorts (v / 10000) ++ luts (v mod 10000)) = decimal v.
Proof. intros Hv. destruct (Z.ltb_spec v 10000); [by apply shorts_decimal; lia|by apply shorts_luts; lia]. Qed.

(** The leading digits of a longer number. *)
Lemma decimal_split8 v : 100000000 <= v < 10 ^ 20 -> decimal v = decimal (v / 100000000) ++ digits 8 (v mod 100000000).
Proof. intros Hv. apply (decimal_split 8). exact Hv. Qed.

(** One or two digits. *)
Lemma two_digits a : 1 <= a < 100 ->
  (if 10 <=? a then [lut (u32 (Z.shiftl a 1)); lut (u32 (Z.shiftl a 1) + 1)] else [48 + a]) = decimal a.
Proof.
  intros Ha. destruct (Z.leb_spec 10 a); [|by rewrite decimal_small by lia].
  destruct (lut_spec a) as [-> ->]; [lia|]. rewrite decimal_step, decimal_small; [done| |lia]. apply div_range; lia.
Qed.

Lemma u32toa_decimal v : is_uint 32 v -> u32toa_branchlut v = decimal v.
Proof.
  intros Hv. unfold u32toa_branchlut. destruct (Z.ltb_spec v 10000); [by apply shorts_decimal; rng|].
  destruct (Z.ltb_spec v 100000000).
  - rewrite <-shorts_luts by lia. change 10000000 with (1000 * 10000). change 1000000 with (100 * 10000). change 100000 with (10 * 10000).
    rewrite !leb_div by lia. unfold shorts, luts. by rewrite <-!app_assoc.
  - rewrite decimal_split8, <-luts_digits8, <-two_digits; [done| |apply Z.mod_pos_bound; lia|rng].
    split; [apply Z.div_le_lower_bound; lia|apply Z.div_lt_upper_bound; rng].
Qed.

(** The first group of a number of nine to sixteen digits. *)
Lemma leading_digits v : 1 <= v < 100000000 ->
  put_if (10000000 <=? v) (lut (u32 (Z.shiftl (v / 10000 / 100) 1))) ++ put_if (1000000 <=? v) (lut (u32 (Z.shiftl (v / 10000 / 100) 1) + 1)) ++
  put_if (100000 <=? v) (lut (u32 (Z.shiftl (v / 10000 mod 100) 1))) ++ put_if (10000 <=? v) (lut (u32 (Z.shiftl (v / 10000 mod 100) 1) + 1)) ++
  put_if (1000 <=? v) (lut (u32 (Z.shiftl (v mod 10000 / 100) 1))) ++ put_if (100 <=? v) (lut (u32 (Z.shiftl (v mod 10000 / 100) 1) + 1)) ++
  put_if (10 <=? v) (lut (u32 (Z.shiftl (v mod 10000 mod 100) 1))) ++ put_if (1 <=? v) (lut (u32 (Z.shiftl (v mod 10000 mod 100) 1) + 1)) = decimal v.
Proof.
  intros Hv. rewrite <-eight_decimal by lia. rewrite (proj2 (Z.leb_le 1 v)) by lia. destruct (Z.ltb_spec v 10000) as [H|H].
  - rewrite (proj2 (Z.leb_gt 10000000 v)), (proj2 (Z.leb_gt 1000000 v)), (proj2 (Z.leb_gt 100000 v)), (proj2 (Z.leb_gt 10000 v)) by lia.
    rewrite (Z.mod_small v 10000) by lia. done.
  - rewrite (proj2 (Z.leb_le 10000 v)), (proj2 (Z.leb_le 1000 v)), (proj2 (Z.leb_le 100 v)), (proj2 (Z.leb_le 10 v)) by lia.
    change 10000000 with (1000 * 10000). change 1000000 with (100 * 10000). change 100000 with (10 * 10000).
    rewrite !leb_div by lia. unfold shorts, luts. by rewrite <-!app_assoc.
Qed.

Lemma digits_16 v : 0 <= v < 10000000000000000 ->
  luts (v / 100000000 / 10000) ++ luts (v / 100000000 mod 10000) ++ luts (v mod 100000000 / 10000) ++ luts (v mod 100000000 mod 10000) = digits 16 v.
Proof.
  intros Hv. rewrite app_assoc, !luts_digits8; [|apply Z.mod_pos_bound; lia|apply div_range; lia]. symmetry. apply (digits_split 8 8). lia.
Qed.

(** One to four digits. *)
Lemma four_decimal a : 1 <= a < 10000 ->
  (if a <? 10 then [48 + a]
   else if a <? 100 then [lut (u32 (Z.shiftl a 1)); lut (u32 (Z.shiftl a 1) + 1)]
   else if a <? 1000 then [48 + a / 100; lut (u32 (Z.shiftl (a mod 100) 1)); lut (u32 (Z.shiftl (a mod 100) 1) + 1)]
   else luts a) = decimal a.
Proof.
  intros Ha. destruct (Z.ltb_spec a 10); [by rewrite decimal_small by lia|].
  destruct (Z.ltb_spec a 100); [rewrite <-two_digits by lia; by destruct (Z.leb_spec 10 a); [|lia]|].
  pose proof (four_digits a ltac:(lia)) as (E1 & E2 & _). rewrite <-shorts_decimal by lia. unfold shorts.
  destruct (Z.leb_spec 100 a), (Z.leb_spec 10 a); try lia. destruct (Z.ltb_spec a 1000), (Z.leb_spec 1000 a); try lia; [|done].
  cbn [put_if app]. rewrite E2. do 2 f_equal. rewrite Z.mod_small; [done|]. apply div_range; lia.
Qed.

Lemma u64toa_decimal v : is_uint 64 v -> u64toa_branchlut v = decimal v.
Proof.
  intros Hv. unfold u64toa_branchlut. destruct (Z.ltb_spec v 100000000).
  { rewrite (uint_small 32 v) by rng. rewrite <-eight_decimal by rng. destruct (Z.ltb_spec v 10000); [done|].
    change 10000000 with (1000 * 10000). change 1000000 with (100 * 10000). change 100000 with (10 * 10000).
    rewrite !leb_div by lia. unfold shorts, luts. by rewrite <-!app_assoc. }
  assert (Hlow : forall w, u32 (w mod 100000000) = w mod 100000000).
  { intros w. apply uint_small. pose proof (Z.mod_pos_bound w 100000000 ltac:(lia)). rng. }
  assert (Hhigh : forall w, 0 <= w < 10000000000000000 -> u32 (w / 100000000) = w / 100000000).
  { intros w Hw. apply uint_small. pose proof (div_range w 100000000 100000000 ltac:(lia) ltac:(lia)). rng. }
  destruct (Z.ltb_spec v 10000000000000000).
  - rewrite Hlow, Hhigh by rng. rewrite decimal_split8 by rng. rewrite <-luts_digits8 by (apply Z.mod_pos_bound; lia).
    rewrite <-leading_digits by (split; [apply Z.div_le_lower_bound; lia|apply Z.div_lt_upper_bound; lia]).
    rewrite <-!leb_div by lia. unfold luts. by rewrite <-!app_assoc.
  - pose proof (div_range v 10000000000000000 1845 ltac:(lia) ltac:(rng)).
    assert (1 <= v / 10000000000000000) by (apply Z.div_le_lower_bound; lia).
    rewrite (uint_small 32 (v / 10000000000000000)) by rng. rewrite Hlow, Hhigh by (apply Z.mod_pos_bound; lia).
    rewrite (decimal_split 16) by (change (10 ^ Z.of_nat 16) with 10000000000000000; rng). change (10 ^ Z.of_nat 16) with 10000000000000000.
    rewrite <-digits_16 by (apply Z.mod_pos_bound; lia). rewrite <-four_decimal by lia. done.
Qed.

Lemma neg_two w v : 0 <= w -> uint w (Z.lnot (uint w v) + 1) = uint w (- v).
Proof.
  intros Hw. replace (Z.lnot (uint w v) + 1) with (0 - uint w v) by (unfold Z.lnot; lia).
  unfold uint. by rewrite Zminus_mod_idemp_r, Z.sub_0_l.
Qed.

Lemma i32toa_decimal v : is_sint 32 v -> i32toa_branchlut v = decimal_signed v.
Proof.
  intros Hv. unfold i32toa_branchlut, decimal_signed. destruct (Z.ltb_spec v 0).
  - by rewrite neg_two, uint_small, u32toa_decimal by rng.
  - by rewrite uint_small, u32toa_decimal by rng.
Qed.

Lemma i64toa_decimal v : is_sint 64 v -> i64toa_branchlut v = decimal_signed v.
Proof.
  intros Hv. unfold i64toa_branchlut, decimal_signed. destruct (Z.ltb_spec v 0).
  - by rewrite neg_two, uint_small, u64toa_decimal by rng.
  - by rewrite uint_small, u64toa_decimal by rng.
Qed.

(** ** Length *)

Lemma decimal_length (n : nat) v : (0 < n <= 20)%nat -> 0 <= v < 10 ^ Z.of_nat n -> zlen (decimal v) <= Z.of_nat n.
Proof.
  intros Hn Hv. Local Transparent decimal. unfold decimal. Local Opaque decimal. rewrite (decimal_fuel n) by (done || lia). clear Hn.
  revert v Hv. induction n as [|n IH]; intros v Hv; [done|]. rewrite decimal_digits_S. destruct (Z.ltb_spec v 10); [change (zlen [48 + v]) with 1; lia|].
  rewrite zlen_app. change (zlen [48 + v mod 10]) with 1. rewrite pow10_S in Hv. pose proof (div_range v 10 (10 ^ Z.of_nat n) ltac:(lia) ltac:(lia)). specialize (IH (v / 10)). lia.
Qed.

(** ** Parsing *)

Lemma decimal_chars (P : Z -> bytes -> Prop) :
  (forall v, 0 <= v < 10 -> P v [48 + v]) ->
  (forall v, 10 <= v < 10 ^ 20 -> P (v / 10) (decimal (v / 10)) -> P v (decimal (v / 10) ++ [48 + v mod 10])) ->
  forall v, 0 <= v < 10 ^ 20 -> P v (decimal v).
Proof.
  intros H1 H2 v Hv. assert (Hn : exists n : nat, v < 10 ^ Z.of_nat n) by (exists 20%nat; exact (proj2 Hv)).
  destruct Hn as [n Hn]. revert v Hv Hn. induction n as [|n IH]; intros v Hv Hn.
  - assert (v = 0) as -> by (cbn in Hn; lia). rewrite decimal_small by lia. apply H1. lia.
  - destruct (Z.lt_ge_cases v 10); [rewrite decimal_small by lia; apply H1; lia|]. rewrite decimal_step by lia. apply H2; [lia|].
    rewrite pow10_S in Hn. pose proof (div_range v 10 (10 ^ Z.of_nat n) ltac:(lia) ltac:(lia)).
    pose proof (div_range v 10 (10 ^ 19) ltac:(lia) ltac:(change (10 * 10 ^ 19) with (10 ^ 20); lia)).
    apply IH; [change (10 ^ 20) with (10 * 10 ^ 19); lia|lia].
Qed.

Lemma parse_app arith s t r : parse_loop arith (s ++ t) r = (r ← parse_loop arith s r; parse_loop arith t r).
Proof.
  revert r. induction s as [|c s IH]; intros r; [done|]. cbn [app parse_loop]. destruct (arith (r * 10)) as [t'|]; [|done].
  cbn [mbind option_bind]. destruct (arith (t' + (c - 48))); [apply IH|done].
Qed.

(** The parser follows the numeral of every number below the bound up to which
    the arithmetic is exact. *)
Lemma parse_numeral arith B v : (forall z, 0 <= z < B -> arith z = Some z) -> 0 <= v < B -> v < 10 ^ 20 ->
  exists c s, decimal v = c :: s /\ 48 <= c <= 57 /\ (v <> 0 -> c <> 48) /\ c - 48 <= v /\ parse_loop arith s (c - 48) = Some v.
Proof.
  intros Ha [Hv HB] Hv'. assert (Hr : 0 <= v < 10 ^ 20) by lia. clear Hv Hv'. revert HB. revert v Hr. apply (decimal_chars (fun v bs => v < B ->
    exists c s, bs = c :: s /\ 48 <= c <= 57 /\ (v <> 0 -> c <> 48) /\ c - 48 <= v /\ parse_loop arith s (c - 48) = Some v)).
  - intros v Hv HB. exists (48 + v), []. split; [done|]. split; [lia|]. split; [lia|]. split; [lia|]. cbn. f_equal. lia.
  - intros v Hv IH HB. pose proof (Z.div_mod v 10 ltac:(lia)) as Ed. pose proof (Z.mod_pos_bound v 10 ltac:(lia)).
    destruct IH as (c & s & -> & Hc & Hne & Hle & Hp); [lia|]. exists c, (s ++ [48 + v mod 10]). split; [done|]. split; [done|].
    split; [intros _; apply Hne; lia|]. split; [lia|]. rewrite parse_app, Hp. cbn [mbind option_bind parse_loop].
    rewrite Ha by lia. cbn [mbind option_bind]. rewrite Ha by lia. cbn [mbind option_bind]. f_equal. lia.
Qed.

Lemma signed_exact w z : 1 <= w -> is_sint w z -> signed_arith w z = Some z.
Proof.
  intros Hw Hz. unfold signed_arith. destruct (_ <? _); [by rewrite sint_small|by rewrite bool_decide_true].
Qed.

Lemma ToUInt_decimal w v : 1 <= w <= 64 -> is_uint w v -> ToUInt w (decimal v) = Some v.
Proof.
  intros Hw Hv. assert (Hb : v < 10 ^ 20). { pose proof (Z.pow_le_mono_r 2 w 64 ltac:(lia) ltac:(lia)). rng. }
  destruct (parse_numeral (unsigned_arith w) (2 ^ w) v) as (c & s & -> & Hc & Hne & Hle & Hp); [|exact Hv|exact Hb|].
  - intros z Hz. unfold unsigned_arith. by rewrite uint_small.
  - unfold ToUInt. destruct (Z.eqb_spec c 48) as [->|]; [destruct (decide (v = 0)) as [->|Hv0]; [done|by destruct (Hne Hv0)]|].
    change (unsigned_arith w (c - 48)) with (Some (uint w (c - 48))). cbn [mbind option_bind]. rewrite uint_small by (unfold is_uint in *; lia). exact Hp.
Qed.

Lemma ToInt_decimal w v : 2 <= w <= 64 -> is_sint w v -> v <> - 2 ^ (w - 1) -> ToInt w (decimal_signed v) = Some v.
Proof.
  intros Hw Hv Hmin. pose proof (Z.pow_le_mono_r 2 (w - 1) 63 ltac:(lia) ltac:(lia)) as Hb. unfold is_sint in Hv.
  assert (Ha : forall z, 0 <= z < 2 ^ (w - 1) -> signed_arith w z = Some z) by (intros; apply signed_exact; [lia|unfold is_sint; lia]).
  unfold decimal_signed. destruct (Z.ltb_spec v 0).
  - destruct (parse_numeral (signed_arith w) (2 ^ (w - 1)) (- v) Ha) as (c & s & -> & Hc & Hne & Hle & Hp); [lia|rng|].
    cbn [ToInt]. change (45 =? 48) with false. change (45 =? 45) with true. cbn iota. rewrite Ha by lia. cbn [mbind option_bind].
    rewrite Hp. cbn [mbind option_bind]. rewrite Z.opp_involutive. apply signed_exact; [lia|done].
  - destruct (parse_numeral (signed_arith w) (2 ^ (w - 1)) v Ha) as (c & s & -> & Hc & Hne & Hle & Hp); [lia|rng|].
    cbn [ToInt]. destruct (Z.eqb_spec c 48) as [->|]; [destruct (decide (v = 0)) as [->|Hv0]; [done|by destruct (Hne Hv0)]|].
    destruct (Z.eqb_spec c 45); [lia|]. rewrite Ha by lia. cbn [mbind option_bind]. by rewrite Hp.
Qed.

(** C36. For integers of one, two, four and eight bytes the text that is
    written is the decimal numeral — the table-driven conversions agree with
    repeated division by ten on every value — and it fits in the room reserved
    for it. *)
Theorem text_is_decimal (n v : Z) : n = 1 \/ n = 2 \/ n = 4 \/ n = 8 ->
  (is_uint (8 * n) v -> StrFunc_unsigned n v = decimal v /\ zlen (StrFunc_unsigned n v) <= StrFunc_room n) /\
  (is_sint (8 * n) v -> StrFunc_signed n v = decimal_signed v /\ zlen (StrFunc_signed n v) <= StrFunc_room n).
Proof.
  intros Hn. assert (Hlen : forall (k : nat) w, (0 < k <= 20)%nat -> 0 <= w < 10 ^ Z.of_nat k -> zlen (decimal w) <= Z.of_nat k) by apply decimal_length.
  split; intros Hv.
  - assert (E : StrFunc_unsigned n v = decimal v).
    { unfold StrFunc_unsigned. destruct (Z.leb_spec n 4); [apply u32toa_decimal|apply u64toa_decimal]; eapply is_uint_mono; try exact Hv; lia. }
    rewrite E. split; [done|]. unfold StrFunc_room, is_uint in *. destruct Hn as [->|[->|[->| ->]]]; cbn in Hv;
      [pose proof (Hlen 3%nat v)|pose proof (Hlen 5%nat v)|pose proof (Hlen 10%nat v)|pose proof (Hlen 20%nat v)]; cbn in *; lia.
  - assert (E : StrFunc_signed n v = decimal_signed v).
    { unfold StrFunc_signed, is_sint in *. destruct (Z.leb_spec n 4); [apply i32toa_decimal|apply i64toa_decimal];
        destruct Hn as [->|[->|[->| ->]]]; try lia; unfold is_sint; cbn in *; lia. }
    rewrite E. split; [done|]. unfold StrFunc_room, decimal_signed, is_sint in *.
    destruct (Z.ltb_spec v 0); [rewrite zlen_cons|]; destruct Hn as [->|[->|[->| ->]]]; cbn in Hv;
      [pose proof (Hlen 3%nat (- v))|pose proof (Hlen 5%nat (- v))|pose proof (Hlen 10%nat (- v))|pose proof (Hlen 19%nat (- v))|
       pose proof (Hlen 3%nat v)|pose proof (Hlen 5%nat v)|pose proof (Hlen 10%nat v)|pose proof (Hlen 19%nat v)]; cbn in *; lia.
Qed.

Lemma text_is_decimal_witness :
  (StrFunc_unsigned 8 18446744073709551615 = decimal 18446744073709551615 /\ zlen (StrFunc_unsigned 8 18446744073709551615) <= 32) /\
  (StrFunc_signed 1 (-128) = [45; 49; 50; 56] /\ zlen (StrFunc_signed 1 (-128)) <= 4).
Proof.
  split.
  - destruct (text_is_decimal 8 18446744073709551615) as [H _]; [auto|]. apply H. vm_compute. split; [discriminate|reflexivity].
  - destruct (text_is_decimal 1 (-128)) as [_ H]; [auto|]. apply H. vm_compute. split; [discriminate|reflexivity].
Defined.

(** [ToUInt] and [ToInt] read the decimal text of every value back, except
    that the least value of a type of 32 or 64 bits overflows on the way. *)
Theorem text_reads_back (w v : Z) : 2 <= w <= 64 ->
  (is_uint w v -> ToUInt w (decimal v) = Some v) /\
  (is_sint w v -> v <> - 2 ^ (w - 1) -> ToInt w (decimal_signed v) = Some v) /\
  ToInt 32 (i32toa_branchlut (- 2 ^ 31)) = None /\ ToInt 64 (i64toa_branchlut (- 2 ^ 63)) = None.
Proof.
  intros Hw. split; [intros; apply ToUInt_decimal; [lia|done]|]. split; [intros; by apply ToInt_decimal|].
  split; vm_compute; reflexivity.
Qed.

Lemma text_reads_back_witness : ToUInt 32 (u32toa_branchlut 4000000000) = Some 4000000000 /\ ToInt 16 (i32toa_branchlut (-305)) = Some (-305).
Proof.
  split.
  - destruct (text_reads_back 32 4000000000) as [H _]; [lia|]. apply H. vm_compute. split; [discriminate|reflexivity].
  - destruct (text_reads_back 16 (-305)) as (_ & H & _); [lia|]. apply H; [vm_compute; split; [discriminate|reflexivity]|vm_compute; discriminate].
Defined.
