(* ===== verification/Bytes.v ===== *)
(** * xx_bytesutils.hpp, xx_bbuffer.hpp (test_uv_4): the pooled byte buffer

    The byte buffer of test_uv_4 and its [BytesFunc] adapters.  Its operations
    also write behind the current end ([WriteAt], [WriteSpace]), so the whole
    allocation is kept, cell by cell; a cell that was never written is [None]
    and reading it is undefined.  The integer types and the functions on
    [double] are those of BBuffer. *)

From Stdlib Require Import ZArith Lia.
From stdpp Require Import base numbers list gmap.
From S2P Require Import Prelude Util BBuffer.
Open Scope Z_scope.

(** ** Storage *)

Record BBuffer := MkBBuffer {
  cells : list (option Z);    (* buf[0..bufLen) *)
  dataLen : Z;
  offset : Z;                 (* next byte to read *)
  readLengthLimit : Z         (* 0: no limit *)
}.

Definition bufLen (bb : BBuffer) : Z := zlen (cells bb).

Definition set_cells (c : list (option Z)) (bb : BBuffer) : BBuffer :=
  MkBBuffer c (dataLen bb) (offset bb) (readLengthLimit bb).
Definition set_dataLen (n : Z) (bb : BBuffer) : BBuffer :=
  MkBBuffer (cells bb) n (offset bb) (readLengthLimit bb).
Definition set_offset (n : Z) (bb : BBuffer) : BBuffer :=
  MkBBuffer (cells bb) (dataLen bb) n (readLengthLimit bb).

(** [buf[i]]. *)
Definition load (i : Z) : M BBuffer Z :=
  bb ← get; c ← demand (znth (cells bb) i); demand c.

(** [memcpy(dst, buf + i, n)]. *)
Definition load_range (i n : Z) : M BBuffer bytes :=
  bb ← get; cs ← demand (zslice (cells bb) i n); demand (mapM id cs).

(** [memcpy(buf + i, bs, n)]. *)
Definition store (i : Z) (bs : bytes) : M BBuffer unit := fun bb =>
  if (0 <=? i) && (i + zlen bs <=? bufLen bb) then
    Done tt (set_cells (take (Z.to_nat i) (cells bb) ++ (Some <$> bs) ++ drop (Z.to_nat (i + zlen bs)) (cells bb)) bb)
  else Undef.

(** The bytes at the end of the data, and the end moves: [buf[dataLen++] = b],
    [memcpy(buf + dataLen, bs, n); dataLen += n]. *)
Definition emit (bs : bytes) : M BBuffer unit :=
  bb ← get; _ ← store (dataLen bb) bs; modify (set_dataLen (u64 (dataLen bb + zlen bs))).

(** [List<char>::Reserve]: a larger block, to which the [dataLen] bytes are
    copied; what lies behind them is not. *)
Definition Reserve (capacity : Z) : M BBuffer unit := fun bb =>
  if capacity <=? bufLen bb then Done tt bb
  else match Round2n (u64 (capacity + MemHeader_size)) with
       | None => Undef
       | Some n =>
           let newBufByteLen := u64 (n - MemHeader_size) in
           if newBufByteLen <? dataLen bb then Undef
           else Done tt (set_cells (take (Z.to_nat (dataLen bb)) (cells bb) ++
                                    replicate (Z.to_nat (newBufByteLen - dataLen bb)) None) bb)
       end.

(** ** Integers of variable length *)

Definition ZigZagEncode (w v : Z) : Z := uint w (Z.lxor (Z.shiftl v 1) (Z.shiftr v (w - 1))).
Definition ZigZagDecode (w u : Z) : Z := sint w (Z.lxor (sint w (Z.shiftr u 1)) (- sint w (Z.land u 1))).

(** [VarWrite7] of 16 and 32 bits: the bytes that it writes to [dstBuf]. *)
Fixpoint VarWrite7 (fuel : nat) (n : Z) : bytes :=
  match fuel with
  | O => []
  | S fuel =>
      let b7 := u8 n in
      let n := Z.shiftr n 7 in
      if negb (n =? 0) then Z.lor b7 128 :: VarWrite7 fuel n else [b7]
  end.

(** [VarWrite7] of 64 bits: the ninth byte carries eight bits. *)
Fixpoint VarWrite7_64 (fuel : nat) (len : Z) (n : Z) : bytes :=
  match fuel with
  | O => []
  | S fuel =>
      let b7 := u8 n in
      let n := Z.shiftr n 7 in
      if negb (n =? 0) then
        Z.lor b7 128 :: (if len + 1 =? 8 then [u8 n] else VarWrite7_64 fuel (len + 1) n)
      else [b7]
  end.

(** [char], signed, converted to an unsigned type of [w] bits. *)
Definition of_char (w c : Z) : Z := uint w (sint 8 c).

(** The loop of [VarRead7] of 16 ([limit] 3, [top] 3) and 32 ([limit] 5, [top]
    15) bits.  [p] is the start, [n] the number of bytes from there on. *)
Fixpoint VarRead7_loop (fuel : nat) (limit top p n idx lshift i : Z) : M BBuffer (Z * Z) :=
  match fuel with
  | O => undef
  | S fuel =>
      c ← load (p + idx);
      let b7 := of_char 32 c in
      let idx := idx + 1 in
      _ ← assert_ (lshift <? 32);
      if 127 <? b7 then
        _ ← reject_if (idx =? limit) (-2);
        _ ← reject_if (n <=? idx) (-1);
        VarRead7_loop fuel limit top p n idx (lshift + 7) (Z.lor i (u32 (Z.shiftl (Z.land b7 127) lshift)))
      else
        _ ← reject_if ((idx =? limit) && (top <? b7)) (-2);
        mret (Z.lor i (u32 (Z.shiftl b7 lshift)), idx)
  end.

(** [VarRead7] of 64 bits. *)
Fixpoint VarRead7_64_loop (fuel : nat) (p n idx lshift i : Z) : M BBuffer (Z * Z) :=
  match fuel with
  | O => undef
  | S fuel =>
      c ← load (p + idx);
      let b7 := of_char 64 c in
      let idx := idx + 1 in
      _ ← assert_ (lshift <? 64);
      if 127 <? b7 then
        _ ← reject_if (n <=? idx) (-1);
        if idx <? 8 then
          VarRead7_64_loop fuel p n idx (lshift + 7) (Z.lor i (u64 (Z.shiftl (Z.land b7 127) lshift)))
        else
          c ← load (p + idx);
          mret (Z.lor i (Z.lor (u64 (Z.shiftl (Z.land b7 127) lshift))
                               (u64 (Z.shiftl (u64 (Z.shiftl (of_char 64 c) 28)) 28))), idx + 1)
      else mret (Z.lor i (u64 (Z.shiftl b7 lshift)), idx)
  end.

(** The common frame: [offset] moves only on success. *)
Definition VarRead7 (w : Z) : M BBuffer Z :=
  bb ← get;
  let p := offset bb in
  _ ← reject_if (dataLen bb <=? p) (-1);
  let n := dataLen bb - p in
  '(i, idx) ← (if w =? 16 then VarRead7_loop 3 3 3 p n 0 0 0
               else if w =? 32 then VarRead7_loop 5 5 15 p n 0 0 0
               else VarRead7_64_loop 8 p n 0 0 0);
  _ ← modify (set_offset (u64 (p + idx)));
  mret (uint w i).

(** ** The adapters *)

Class BytesFunc (T : Type) := {
  WriteTo : T -> M BBuffer unit;
  ReadFrom : M BBuffer T
}.

(** Bytes that are copied as they are. *)
Definition write_raw (bs : bytes) : M BBuffer unit :=
  bb ← get; _ ← Reserve (u64 (dataLen bb + zlen bs)); emit bs.
Definition read_raw (n : Z) (code : Z) : M BBuffer bytes :=
  bb ← get; _ ← reject_if (dataLen bb <? u64 (offset bb + n)) code;
  bs ← load_range (offset bb) n; _ ← modify (set_offset (u64 (offset bb + n))); mret bs.

(** What [WriteTo] puts on the wire, and what [ReadFrom] makes of it. *)
Definition var_of (t : ity) (v : Z) : Z := if signed t then ZigZagEncode (bits t) v else uint (bits t) v.
Definition var_to (t : ity) (u : Z) : Z := if signed t then ZigZagDecode (bits t) u else u.

#[export] Instance BytesFunc_num t : BytesFunc (num t) := {
  WriteTo v :=
    if sizeof t =? 1 then write_raw [uint 8 (num_val v)]
    else
      bb ← get; _ ← Reserve (u64 (dataLen bb + sizeof t + 1));
      emit (if bits t =? 64 then VarWrite7_64 8 0 (var_of t (num_val v)) else VarWrite7 5 (var_of t (num_val v)));
  ReadFrom :=
    if sizeof t =? 1 then bs ← read_raw 1 (-1); mret (Num (of_bits t (le_val bs)))
    else u ← VarRead7 (bits t); mret (Num (var_to t u))
}.

#[export] Instance BytesFunc_float : BytesFunc float32 := {
  WriteTo v := write_raw (le_bytes 4 (f32_bits v));
  ReadFrom := bs ← read_raw 4 (-1); mret (Float32 (le_val bs))
}.

Definition double_WriteTo `{FloatToInt} (v : double) : M BBuffer unit :=
  bb ← get; _ ← Reserve (u64 (dataLen bb + 8 + 1));
  if d_is_zero v then emit [0]
  else if d_is_nan v then emit [1]
  else if d_eq v d_neg_infinity then emit [2]
  else if d_eq v d_infinity then emit [3]
  else
    let i := d_to_int32 v in
    if d_eq v (d_of_int i) then _ ← emit [4]; WriteTo (Num (t := I32) i)
    else emit (5 :: le_bytes 8 (d_bits v)).

Definition double_ReadFrom : M BBuffer double :=
  bb ← get; _ ← reject_if (dataLen bb <=? offset bb) (-1);
  tag ← load (offset bb); _ ← modify (set_offset (u64 (offset bb + 1)));
  if tag =? 0 then mret (Double 0)
  else if tag =? 1 then mret d_quiet_NaN
  else if tag =? 2 then mret d_neg_infinity
  else if tag =? 3 then mret d_infinity
  else if tag =? 4 then i ← ReadFrom (T := num I32); mret (d_of_int (num_val i))
  else if tag =? 5 then bs ← read_raw 8 (-1); mret (Double (le_val bs))
  else fail (-2).

#[export] Instance BytesFunc_double `{FloatToInt} : BytesFunc double := {
  WriteTo := double_WriteTo;
  ReadFrom := double_ReadFrom
}.

(** [Guid]: its sixteen bytes. *)
#[export] Instance BytesFunc_Guid : BytesFunc Guid := {
  WriteTo g := write_raw (Guid_bytes g);
  ReadFrom := bs ← read_raw 16 (-1); demand (Fill bs)
}.

(** [std::optional<T>]. *)
#[export] Instance BytesFunc_optional {T} `{BytesFunc T} : BytesFunc (option T) := {
  WriteTo v :=
    match v with
    | Some x => _ ← WriteTo (Num (t := U8) 1); WriteTo x
    | None => WriteTo (Num (t := U8) 0)
    end;
  ReadFrom :=
    hasValue ← ReadFrom (T := num U8);
    if negb (num_val hasValue =? 0) then v ← ReadFrom (T := T); mret (Some v) else mret None
}.

(** ** The buffer's operations *)

(** [Write]: one value after the other (the first of the list and the rest). *)
Definition Write {T} `{BytesFunc T} (v : T) : M BBuffer unit :=
  _ ← WriteTo v; bb ← get; assert_ (dataLen bb <=? bufLen bb).
Definition Read {T} `{BytesFunc T} : M BBuffer T := ReadFrom.

(** On failure [offset] stays where the failed read left it. *)
Definition ReadAt {T} `{BytesFunc T} (pos : Z) : M BBuffer T :=
  bb ← get; _ ← reject_if (dataLen bb <=? pos) (-1);
  let bak := offset bb in
  _ ← modify (set_offset pos); v ← Read; _ ← modify (set_offset bak); mret v.

Definition ReadJump {T} `{BytesFunc T} (len : Z) : M BBuffer T :=
  bb ← get; _ ← reject_if (dataLen bb <? u64 (offset bb + len)) (-1);
  let bak := offset bb in
  v ← Read; _ ← modify (set_offset (u64 (bak + len))); mret v.

Definition WriteBuf (buf : bytes) : M BBuffer unit := write_raw buf.

Definition WriteSpace (len : Z) : M BBuffer Z :=
  bb ← get; _ ← Reserve (u64 (dataLen bb + len));
  _ ← modify (set_dataLen (u64 (dataLen bb + len))); mret (dataLen bb).

(** [WriteBufAt] and [WriteAt]: the end is moved to [pos] for the time of the
    write. *)
Definition write_at (pos : Z) (w : M BBuffer unit) : M BBuffer unit :=
  bb ← get; _ ← assert_ (pos <? dataLen bb);
  let bak := dataLen bb in
  _ ← modify (set_dataLen pos); _ ← w;
  modify (fun bb => if dataLen bb <? bak then set_dataLen bak bb else bb).

Definition WriteBufAt (pos : Z) (buf : bytes) : M BBuffer unit := write_at pos (WriteBuf buf).
Definition WriteAt {T} `{BytesFunc T} (pos : Z) (v : T) : M BBuffer unit := write_at pos (Write v).

(** [BBuffer::ToBBuffer] and [FromBBuffer]: a nested buffer.  The length is
    written as [size_t] and read as [uint32_t]; what is returned is the data
    of the nested buffer. *)
Definition BBuffer_ToBBuffer (self : bytes) : M BBuffer unit :=
  _ ← Write (Num (t := U64) (zlen self)); WriteBuf self.

Definition BBuffer_FromBBuffer : M BBuffer bytes :=
  n ← Read (T := num U32);
  let len := num_val n in
  bb ← get;
  _ ← reject_if (negb (readLengthLimit bb =? 0) && (readLengthLimit bb <? len)) (-1);
  _ ← reject_if (dataLen bb <? u64 (offset bb + len)) (-2);
  if len =? 0 then mret []
  else bs ← load_range (offset bb) len; _ ← modify (set_offset (u64 (offset bb + len))); mret bs.
