(* ===== verification/BytesProps.v ===== *)
(** * The pooled byte buffer: round trips, safe reads, writes behind the end

    [BytesSpec] is what an adapter promises to the code that composes
    adapters: its byte string, the values that it can carry, the room that it
    reserves; the operations of the buffer are proved against it. *)

From Stdlib Require Import ZArith Lia.
From stdpp Require Import base numbers list gmap.
From S2P Require Import Prelude Util BBuffer Bytes.
Open Scope Z_scope.

(** ** Writing *)

Definition bb_wf (bb : BBuffer) : Prop := 0 <= dataLen bb <= bufLen bb /\ bufLen bb <= 2 ^ 63.

(** [wrote n bs bb bb']: [bs] was written at the end.  The cells behind it are
    as before when [n] bytes were free, else they belong to a new block. *)
Definition wrote (n : Z) (bs : bytes) (bb bb' : BBuffer) : Prop :=
  bb_wf bb' /\ dataLen bb' = dataLen bb + zlen bs /\ offset bb' = offset bb /\ readLengthLimit bb' = readLengthLimit bb /\
  exists c, cells bb' = take (Z.to_nat (dataLen bb)) (cells bb) ++ (Some <$> bs) ++ c /\
            (dataLen bb + n <= bufLen bb -> c = drop (Z.to_nat (dataLen bb + zlen bs)) (cells bb)).

Lemma zlen_take_cells bb : bb_wf bb -> zlen (take (Z.to_nat (dataLen bb)) (cells bb)) = dataLen bb.
Proof. intros [H1 H2]. rewrite zlen_take. unfold bufLen in *. lia. Qed.

Lemma wrote_bufLen n bs bb bb' : bb_wf bb -> zlen bs <= n -> wrote n bs bb bb' -> dataLen bb + n <= bufLen bb -> bufLen bb' = bufLen bb.
Proof.
  intros W Hn (_ & _ & _ & _ & c & E & Hc) Hr. unfold bufLen in *. rewrite E, (Hc Hr), !zlen_app, zlen_take_cells, zlen_fmap, zlen_drop by done.
  pose proof (zlen_nonneg bs). destruct W. unfold bufLen in *. lia.
Qed.

Lemma pool_wrote_trans n1 n2 a b bb bb1 bb2 : bb_wf bb -> zlen a <= n1 -> zlen b <= n2 ->
  wrote n1 a bb bb1 -> wrote n2 b bb1 bb2 -> wrote (Z.max n1 (zlen a + n2)) (a ++ b) bb bb2.
Proof.
  intros W Hn1 Hn2 H1 H2. pose proof (zlen_nonneg a). pose proof (zlen_nonneg b). destruct H1 as (W1 & D1 & O1 & L1 & c1 & E1 & C1) eqn:EH. clear EH.
  destruct H2 as (W2 & D2 & O2 & L2 & c2 & E2 & C2). split; [done|]. split; [rewrite zlen_app; lia|]. split; [congruence|]. split; [congruence|].
  exists c2. pose proof (zlen_take_cells _ W) as Ht. destruct W as [[W0 W'] W''].
  assert (Et : take (Z.to_nat (dataLen bb1)) (cells bb1) = take (Z.to_nat (dataLen bb)) (cells bb) ++ (Some <$> a)).
  { rewrite E1, app_assoc. rewrite take_app_length'; [done|]. rewrite length_app, length_fmap, length_take. unfold bufLen, zlen in *. lia. }
  split; [rewrite E2, Et, fmap_app; by rewrite <-!app_assoc|].
  intros Hr. rewrite C2.
  2:{ rewrite D1. unfold bufLen. rewrite E1, (C1 ltac:(lia)), !zlen_app, Ht, zlen_fmap, zlen_drop. unfold bufLen in *. lia. }
  rewrite E1, app_assoc, drop_app_ge, (C1 ltac:(lia)), drop_drop.
  2:{ rewrite length_app, length_fmap, length_take. unfold bufLen, zlen in *. lia. }
  f_equal. rewrite D1, zlen_app, length_app, length_fmap, length_take. unfold bufLen, zlen in *. lia.
Qed.

Lemma pool_wrote_mono n m bs bb bb' : n <= m -> wrote n bs bb bb' -> wrote m bs bb bb'.
Proof. intros Hn (W & D & O & L & c & E & C). do 4 (split; [done|]). exists c. split; [done|]. intros. apply C. lia. Qed.

Lemma pool_Reserve_spec c bb : bb_wf bb -> 0 <= c <= 2 ^ 62 ->
  exists bb', Reserve c bb = Done tt bb' /\ wrote (c - dataLen bb) [] bb bb' /\ c <= bufLen bb'.
Proof.
  intros W Hc. unfold Reserve. destruct (Z.leb_spec c (bufLen bb)).
  { exists bb. split; [done|]. split; [|done]. split; [done|]. split; [change (zlen []) with 0; lia|]. do 2 (split; [done|]).
    eexists. split; [|done]. cbn [fmap list_fmap app]. change (zlen []) with 0. by rewrite Z.add_0_r, take_drop. }
  destruct W as [[W1 W2] W3]. unfold MemHeader_size. rewrite uint_small by (change (2 ^ 62) with 4611686018427387904 in *; rng).
  destruct (Round2n_spec (c + 8) ltac:(change (2 ^ 62) with 4611686018427387904 in *; rng)) as (k & Hk & -> & Hb).
  assert (2 ^ k <= 2 ^ 63) by (apply Z.pow_le_mono_r; lia).
  rewrite uint_small by rng. destruct (Z.ltb_spec (2 ^ k - 8) (dataLen bb)); [lia|]. eexists. split; [done|].
  assert (El : zlen (take (Z.to_nat (dataLen bb)) (cells bb) ++ replicate (Z.to_nat (2 ^ k - 8 - dataLen bb)) (@None Z)) = 2 ^ k - 8).
  { rewrite zlen_app, zlen_take_cells by done. unfold zlen. rewrite length_replicate. lia. }
  split; [|unfold bufLen; cbn; lia]. split; [split; unfold bufLen; cbn; lia|]. split; [cbn; change (zlen []) with 0; lia|]. do 2 (split; [done|]).
  eexists. split; [done|]. lia.
Qed.

Lemma store_spec i bs bb : 0 <= i -> i + zlen bs <= bufLen bb ->
  store i bs bb = Done tt (set_cells (take (Z.to_nat i) (cells bb) ++ (Some <$> bs) ++ drop (Z.to_nat (i + zlen bs)) (cells bb)) bb).
Proof. intros H1 H2. unfold store. destruct (Z.leb_spec 0 i); [|lia]. by destruct (Z.leb_spec (i + zlen bs) (bufLen bb)); [|lia]. Qed.

Lemma pool_emit_spec bs bb : bb_wf bb -> dataLen bb + zlen bs <= bufLen bb ->
  exists bb', emit bs bb = Done tt bb' /\ wrote (zlen bs) bs bb bb'.
Proof.
  intros W Hl. pose proof (zlen_nonneg bs). pose proof (zlen_take_cells _ W) as Ht. destruct W as [[W1 W2] W3].
  unfold emit. erewrite bind_done by done. erewrite bind_done by (apply store_spec; lia). rewrite uint_small by rng. eexists. split; [done|]. unfold wrote, bb_wf, bufLen in *. cbn.
  rewrite !zlen_app, Ht, zlen_fmap, zlen_drop. split; [lia|]. split; [lia|]. do 2 (split; [done|]). eexists. split; [done|done].
Qed.

(** Reserving and then writing within what was reserved. *)
Lemma Reserve_emit c n bs bb : bb_wf bb -> 0 <= c <= 2 ^ 62 -> c = dataLen bb + n -> zlen bs <= n ->
  exists bb', (_ ← Reserve (u64 c); emit bs) bb = Done tt bb' /\ wrote n bs bb bb'.
Proof.
  intros W Hc Hn Hb. rewrite uint_small by (change (2 ^ 62) with 4611686018427387904 in *; rng).
  destruct (pool_Reserve_spec c bb W Hc) as (bb1 & E1 & H1 & Hr). erewrite bind_done by exact E1.
  pose proof H1 as (W1 & D1 & _). change (zlen []) with 0 in D1.
  destruct (pool_emit_spec bs bb1 W1) as (bb2 & E2 & H2); [lia|]. exists bb2. split; [done|].
  pose proof (pool_wrote_trans (c - dataLen bb) (zlen bs) [] bs bb bb1 bb2 W) as H. change (zlen []) with 0 in H.
  pose proof (zlen_nonneg bs). eapply pool_wrote_mono; [|apply H]; [lia|lia|lia|done|done].
Qed.

Lemma write_raw_spec bs bb : bb_wf bb -> dataLen bb + zlen bs <= 2 ^ 62 ->
  exists bb', write_raw bs bb = Done tt bb' /\ wrote (zlen bs) bs bb bb'.
Proof.
  intros W Hl. unfold write_raw. erewrite bind_done by done. pose proof (zlen_nonneg bs). apply Reserve_emit; [done| |done|lia]. destruct W; lia.
Qed.

(** ** Reading *)

(** The data of the buffer. *)
Definition holds (bs : bytes) (bb : BBuffer) : Prop := dataLen bb = zlen bs /\ exists rest, cells bb = (Some <$> bs) ++ rest.

Lemma holds_offset bs o bb : holds bs bb -> holds bs (set_offset o bb).
Proof. done. Qed.

Lemma wrote_holds n old bs bb bb' : holds old bb -> wrote n bs bb bb' -> holds (old ++ bs) bb'.
Proof.
  intros [D [r E]] (_ & D' & _ & _ & c & E' & _). split; [rewrite zlen_app; lia|]. exists c. rewrite E', fmap_app, <-app_assoc, E, D.
  unfold zlen. by rewrite Nat2Z.id, take_app_length' by (by rewrite length_fmap).
Qed.

Lemma load_spec bs bb i : holds bs bb -> 0 <= i < zlen bs -> exists b, znth bs i = Some b /\ load i bb = Done b bb.
Proof.
  intros [D [r E]] Hi. destruct (znth_is_Some bs i Hi) as [b Hb]. exists b. split; [done|]. unfold load. erewrite bind_done by done.
  rewrite E, znth_app_l by (by rewrite zlen_fmap; lia). unfold znth in *. destruct (Z.ltb_spec i 0); [lia|]. by rewrite list_lookup_fmap, Hb.
Qed.

Lemma load_at pre b post bb i : holds (pre ++ b :: post) bb -> i = zlen pre -> load i bb = Done b bb.
Proof.
  intros H ->. destruct (load_spec _ _ (zlen pre) H) as (b' & Hb & E).
  { rewrite zlen_app, zlen_cons. pose proof (zlen_nonneg pre). pose proof (zlen_nonneg post). lia. }
  rewrite znth_mid in Hb. by simplify_eq.
Qed.

Lemma mapM_Some (bs : bytes) : mapM id (Some <$> bs) = Some bs.
Proof. induction bs as [|b bs IH]; [done|]. cbn. by rewrite IH. Qed.

Lemma load_range_spec bs bb i n : holds bs bb -> 0 <= i -> 0 <= n -> i + n <= zlen bs ->
  exists r, zslice bs i n = Some r /\ zlen r = n /\ load_range i n bb = Done r bb.
Proof.
  intros [D [rest E]] Hi Hn Hl. destruct (zslice_is_Some bs i n) as [r Hr]; [lia..|]. exists r. split; [done|]. split; [by eapply zslice_len|].
  unfold load_range. erewrite bind_done by done. assert (Es : zslice (cells bb) i n = Some (Some <$> r)); [|rewrite Es; erewrite bind_done by done; by rewrite mapM_Some].
  unfold zslice in *. rewrite E, zlen_app, zlen_fmap. pose proof (zlen_nonneg rest).
  rewrite (proj2 (Z.leb_le 0 i)), (proj2 (Z.leb_le 0 n)), (proj2 (Z.leb_le (i + n) (zlen bs))) in Hr by done. cbn [andb] in Hr.
  rewrite (proj2 (Z.leb_le 0 i)), (proj2 (Z.leb_le 0 n)) by done. cbn [andb].
  destruct (Z.leb_spec (i + n) (zlen bs + zlen rest)); [|lia]. f_equal. simplify_eq. rewrite drop_app_le, take_app_le, <-fmap_drop, <-fmap_take; [done| |].
  - rewrite length_drop, length_fmap. unfold zlen in *. lia.
  - rewrite length_fmap. unfold zlen in *. lia.
Qed.

(** [read_raw] reads what there is, and reports what is missing. *)
Lemma read_raw_spec bs bb n code : holds bs bb -> zlen bs <= 2 ^ 62 -> 0 <= offset bb <= 2 ^ 62 -> 0 <= n <= 2 ^ 32 ->
  if zlen bs <? offset bb + n then read_raw n code bb = Fail code bb
  else exists r, zslice bs (offset bb) n = Some r /\ zlen r = n /\ read_raw n code bb = Done r (set_offset (offset bb + n) bb).
Proof.
  intros H Hl Ho Hn. unfold read_raw. erewrite (bind_done get) by done. rewrite (uint_small 64) by (change (2 ^ 62) with 4611686018427387904 in *; rng).
  rewrite (proj1 H). destruct (Z.ltb_spec (zlen bs) (offset bb + n)); [done|].
  destruct (load_range_spec bs bb (offset bb) n H) as (r & Hr & Hz & E); [lia..|]. exists r. split; [done|]. split; [done|].
  erewrite bind_done by done. by erewrite bind_done by exact E.
Qed.

Lemma read_raw_at bb pre bs post code : holds (pre ++ bs ++ post) bb -> zlen (pre ++ bs ++ post) <= 2 ^ 62 -> offset bb = zlen pre -> zlen bs <= 2 ^ 32 ->
  read_raw (zlen bs) code bb = Done bs (set_offset (zlen pre + zlen bs) bb).
Proof.
  intros H Hl Ho Hn. pose proof (read_raw_spec _ bb (zlen bs) code H Hl) as R. rewrite !zlen_app in *.
  pose proof (zlen_nonneg pre). pose proof (zlen_nonneg bs). pose proof (zlen_nonneg post).
  specialize (R ltac:(lia) ltac:(lia)). destruct (Z.ltb_spec (zlen pre + (zlen bs + zlen post)) (offset bb + zlen bs)); [lia|].
  destruct R as (r & Hr & _ & ->). rewrite Ho in Hr. rewrite zslice_mid in Hr. simplify_eq. by rewrite Ho.
Qed.

(** ** Integers of variable length *)

(** [char] to unsigned: the high bit spreads, the low bits stay. *)
Lemma of_char_spec w b : w = 32 \/ w = 64 -> is_byte b ->
  (127 <? of_char w b) = (127 <? b) /\ Z.land (of_char w b) 127 = b mod 128 /\ (b < 128 -> of_char w b = b).
Proof.
  intros Hw Hb. change 127 with (2 ^ 7 - 1) at 3. rewrite land_ones_mod by lia. change (2 ^ 7) with 128. unfold of_char.
  destruct (Z.ltb_spec 127 b) as [H|H].
  - assert (Es : sint 8 b = b - 256).
    { unfold sint. change (2 ^ (8 - 1)) with 128. change (2 ^ 8) with 256 in *. rewrite (Z.mod_eq (b + 128) 256) by lia.
      rewrite <-(Z.div_unique (b + 128) 256 1 (b - 128)) by rng. lia. }
    rewrite Es. assert (Eu : uint w (b - 256) = 2 ^ w - 256 + b).
    { unfold uint. symmetry. apply (Z.mod_unique _ _ (-1)); [left; destruct Hw as [->| ->]; rng|lia]. }
    rewrite Eu. split; [apply Z.ltb_lt; destruct Hw as [->| ->]; rng|]. split; [|lia].
    assert (Ew : 2 ^ w = 2 ^ (w - 7) * 128) by (destruct Hw as [->| ->]; done).
    replace (2 ^ w - 256 + b) with (b + (2 ^ (w - 7) - 2) * 128) by lia. by rewrite Z.mod_add.
  - assert (Es : uint w (sint 8 b) = b).
    { rewrite sint_small by rng. apply uint_small. destruct Hw as [->| ->]; rng. }
    rewrite Es. split; [apply Z.ltb_ge; lia|done].
Qed.

Lemma high_byte n : Z.lor (u8 n) 128 = 128 + n mod 128.
Proof.
  assert (H : forallb (fun x => Z.lor x 128 =? 128 + x mod 128) (seqZ 0 256) = true) by (vm_compute; reflexivity).
  rewrite forallb_forall in H. pose proof (uint_range 8 n ltac:(lia)) as Hr.
  specialize (H (u8 n) ltac:(apply list_elem_of_In, elem_of_seqZ; rng)). apply Z.eqb_eq in H. rewrite H. f_equal. unfold uint.
  change (2 ^ 8) with (128 * 2). rewrite Z.rem_mul_r by lia. rewrite (Z.mul_comm 128), Z.mod_add by lia. by rewrite Z.mod_mod.
Qed.

Lemma div_zero n k : 0 < k -> 0 <= n -> (n / k =? 0) = (n <? k).
Proof.
  intros Hk Hn. destruct (Z.ltb_spec n k); [by rewrite Z.div_small|]. apply Z.eqb_neq. pose proof (Z.div_le_lower_bound n k 1). lia.
Qed.

Lemma VarWrite7_S fuel n : 0 <= n -> VarWrite7 (S fuel) n = if n <? 128 then [n] else 128 + n mod 128 :: VarWrite7 fuel (n / 128).
Proof.
  intros Hn. cbn [VarWrite7]. rewrite high_byte, shiftr7, div_zero by lia. destruct (Z.ltb_spec n 128); cbn [negb]; [|done]. by rewrite uint_small by rng.
Qed.

Lemma VarWrite7_64_S fuel len n : 0 <= n -> VarWrite7_64 (S fuel) len n =
  if n <? 128 then [n] else 128 + n mod 128 :: (if len + 1 =? 8 then [u8 (n / 128)] else VarWrite7_64 fuel (len + 1) (n / 128)).
Proof.
  intros Hn. cbn [VarWrite7_64]. rewrite high_byte, shiftr7, div_zero by lia. destruct (Z.ltb_spec n 128); cbn [negb]; [|done]. by rewrite uint_small by rng.
Qed.

(** Collecting a digit loses nothing while the value fits. *)
Lemma collect w s a d : 0 <= w -> 0 <= s -> 0 <= a < 2 ^ s -> 0 <= d -> a + 2 ^ s * d < 2 ^ w -> Z.lor a (uint w (Z.shiftl d s)) = a + 2 ^ s * d.
Proof.
  intros Hw Hs Ha Hd Hb. rewrite (uint_small w); [by apply lor_shiftl_add|]. rewrite Z.shiftl_mul_pow2 by done. unfold is_uint. nia.
Qed.

Lemma digit_bounds a s r : 0 <= s -> 0 <= a < 2 ^ s -> 0 <= r ->
  let a' := a + 2 ^ s * (r mod 128) in 0 <= a' < 2 ^ (s + 7) /\ a' + 2 ^ (s + 7) * (r / 128) = a + 2 ^ s * r /\ 2 ^ (s + 7) = 128 * 2 ^ s.
Proof.
  intros Hs Ha Hr. assert (E : 2 ^ (s + 7) = 128 * 2 ^ s) by (rewrite Z.pow_add_r by lia; change (2 ^ 7) with 128; lia). rewrite E.
  pose proof (Z.mod_pos_bound r 128 ltac:(lia)). pose proof (Z.div_mod r 128 ltac:(lia)). cbv zeta. split; [nia|]. split; [nia|done].
Qed.

(** The parameters of the loop for [w] bits. *)
Definition loop_params (w limit top : Z) : Prop := (w = 16 /\ limit = 3 /\ top = 3) \/ (w = 32 /\ limit = 5 /\ top = 15).

(** The last byte carries what is left of the [w] bits. *)
Lemma last_digit w limit top i r : loop_params w limit top -> 0 <= i -> 0 <= r -> i + 2 ^ (7 * (limit - 1)) * r < 2 ^ w -> r <= top.
Proof. intros [(-> & -> & ->)|(-> & -> & ->)] Hi Hr Hb; cbn in Hb; lia. Qed.

Lemma VarWrite7_nonempty m r : 1 <= zlen (VarWrite7 (S m) r).
Proof. cbn [VarWrite7]. pose proof (zlen_nonneg (VarWrite7 m (Z.shiftr r 7))). destruct (negb _); rewrite zlen_cons, ?zlen_nil; lia. Qed.

Lemma VarRead7_loop_at w limit top k m p n idx i r bb pre post :
  loop_params w limit top -> (1 <= k <= m)%nat -> Z.of_nat k = limit - idx -> 0 <= idx -> 0 <= r < 2 ^ (7 * Z.of_nat k) ->
  0 <= i < 2 ^ (7 * idx) -> i + 2 ^ (7 * idx) * r < 2 ^ w ->
  holds (pre ++ VarWrite7 m r ++ post) bb -> p + idx = zlen pre -> n = zlen (pre ++ VarWrite7 m r ++ post) - p ->
  VarRead7_loop k limit top p n idx (7 * idx) i bb = Done (i + 2 ^ (7 * idx) * r, idx + zlen (VarWrite7 m r)) bb.
Proof.
  intros Hw. revert m idx i r pre. induction k as [|k IH]; intros m idx i r pre Hm Hk Hx Hr Hi Hb H Hp Hn; [lia|].
  destruct m as [|m]; [lia|]. rewrite pow128_S in Hr. cbn [VarRead7_loop].
  assert (Hlim : limit <= 5) by (unfold loop_params in Hw; lia). assert (H32 : 2 ^ w <= 2 ^ 32) by (apply Z.pow_le_mono_r; unfold loop_params in Hw; lia).
  rewrite VarWrite7_S in * by lia. destruct (Z.ltb_spec r 128) as [Hr1|Hr1].
  - erewrite bind_done by (eapply load_at; [exact H|lia]). destruct (of_char_spec 32 r ltac:(auto) ltac:(rng)) as (-> & _ & ->); [|lia].
    destruct (Z.ltb_spec (7 * idx) 32); [|lia]. erewrite bind_done by done. destruct (Z.ltb_spec 127 r); [lia|].
    assert (Ht : (idx + 1 =? limit) && (top <? r) = false).
    { destruct (Z.eqb_spec (idx + 1) limit) as [E|]; [|done]. apply Z.ltb_ge, (last_digit w limit top i); try done; [lia..|]. by replace (limit - 1) with idx by lia. }
    rewrite Ht. erewrite bind_done by done. rewrite collect by lia. done.
  - set (d := 128 + r mod 128) in *. pose proof (Z.mod_pos_bound r 128 ltac:(lia)) as Hm7.
    cbn [app] in *. erewrite bind_done by (eapply load_at; [exact H|lia]).
    destruct (of_char_spec 32 d ltac:(auto) ltac:(subst d; rng)) as (-> & -> & _).
    destruct (Z.ltb_spec (7 * idx) 32); [|lia]. erewrite bind_done by done. destruct (Z.ltb_spec 127 d); [|lia].
    assert (Hd : d mod 128 = r mod 128). { subst d. rewrite <-Zplus_mod_idemp_l, Z_mod_same_full, Z.add_0_l, Z.mod_mod by lia. done. }
    destruct k as [|k]; [cbn in Hr; lia|]. destruct m as [|m]; [lia|].
    destruct (Z.eqb_spec (idx + 1) limit); [lia|]. erewrite bind_done by done.
    pose proof (VarWrite7_nonempty m (r / 128)) as Hne. set (e := VarWrite7 (S m) (r / 128)) in *.
    rewrite zlen_app, zlen_cons, zlen_app in Hn. pose proof (zlen_nonneg post).
    destruct (Z.leb_spec n (idx + 1)); [lia|]. erewrite bind_done by done.
    destruct (digit_bounds i (7 * idx) r ltac:(lia) Hi ltac:(lia)) as (B1 & B2 & B3). rewrite Hd, collect by (try lia; nia).
    replace (7 * idx + 7) with (7 * (idx + 1)) in * by lia.
    assert (0 <= r / 128 < 2 ^ (7 * Z.of_nat (S k))) by (split; [apply Z.div_pos; lia|apply Z.div_lt_upper_bound; lia]).
    erewrite (IH (S m) (idx + 1) _ (r / 128) (pre ++ [d])).
    + rewrite B2, zlen_cons. do 2 f_equal. subst e. lia.
    + lia.
    + lia.
    + lia.
    + done.
    + done.
    + rewrite B2. done.
    + rewrite <-app_assoc. exact H.
    + rewrite zlen_app. change (zlen [d]) with 1. lia.
    + rewrite !zlen_app. change (zlen [d]) with 1. subst e. lia.
Qed.

Lemma shift56 c : is_byte c -> u64 (Z.shiftl (u64 (Z.shiftl (of_char 64 c) 28)) 28) = 2 ^ 56 * c.
Proof.
  intros Hc. rewrite !Z.shiftl_mul_pow2 by lia. unfold of_char, uint. rewrite Z.mul_mod_idemp_l by done. rewrite <-Z.mul_assoc, Z.mul_mod_idemp_l by done.
  unfold sint. change (2 ^ (8 - 1)) with 128. change (2 ^ 28 * 2 ^ 28) with (2 ^ 56). symmetry.
  pose proof (Z.mod_pos_bound (c + 128) (2 ^ 8) ltac:(done)). pose proof (Z.div_mod (c + 128) (2 ^ 8) ltac:(done)).
  apply (Z.mod_unique _ _ (- ((c + 128) / 2 ^ 8))); [left; change (2 ^ 64) with (2 ^ 56 * 256); rng|]. change (2 ^ 64) with (2 ^ 56 * 2 ^ 8). nia.
Qed.

Lemma VarWrite7_64_nonempty k x r : 1 <= zlen (VarWrite7_64 (S k) x r).
Proof. cbn [VarWrite7_64]. destruct (negb _); rewrite zlen_cons; [|rewrite zlen_nil; lia]. match goal with |- context [zlen ?l] => pose proof (zlen_nonneg l) end. lia. Qed.

Lemma VarRead7_64_loop_at k p n idx i r bb pre post :
  (1 <= k)%nat -> Z.of_nat k = 8 - idx -> 0 <= idx -> 0 <= r -> 0 <= i < 2 ^ (7 * idx) -> i + 2 ^ (7 * idx) * r < 2 ^ 64 ->
  holds (pre ++ VarWrite7_64 k idx r ++ post) bb -> p + idx = zlen pre -> n = zlen (pre ++ VarWrite7_64 k idx r ++ post) - p ->
  VarRead7_64_loop k p n idx (7 * idx) i bb = Done (i + 2 ^ (7 * idx) * r, idx + zlen (VarWrite7_64 k idx r)) bb.
Proof.
  revert idx i r pre. induction k as [|k IH]; intros idx i r pre Hk1 Hk Hx Hr Hi Hb H Hp Hn; [lia|]. cbn [VarRead7_64_loop].
  rewrite VarWrite7_64_S in * by lia. destruct (Z.ltb_spec (7 * idx) 64) as [H64|]; [|lia]. destruct (Z.ltb_spec r 128) as [Hr1|Hr1].
  - erewrite bind_done by (eapply load_at; [exact H|lia]). destruct (of_char_spec 64 r ltac:(auto) ltac:(rng)) as (-> & _ & ->); [|lia].
    erewrite bind_done by done. destruct (Z.ltb_spec 127 r); [lia|]. rewrite collect by lia. done.
  - set (d := 128 + r mod 128) in *. pose proof (Z.mod_pos_bound r 128 ltac:(lia)) as Hm7.
    cbn [app] in *. erewrite bind_done by (eapply load_at; [exact H|lia]).
    destruct (of_char_spec 64 d ltac:(auto) ltac:(subst d; rng)) as (-> & -> & _). erewrite bind_done by done. destruct (Z.ltb_spec 127 d); [|lia].
    assert (Hd : d mod 128 = r mod 128). { subst d. rewrite <-Zplus_mod_idemp_l, Z_mod_same_full, Z.add_0_l, Z.mod_mod by lia. done. }
    destruct (digit_bounds i (7 * idx) r ltac:(lia) Hi ltac:(lia)) as (B1 & B2 & B3). rewrite Hd.
    assert (Hdiv : 0 <= r / 128) by (apply Z.div_pos; lia).
    rewrite zlen_app, zlen_cons, zlen_app in Hn. pose proof (zlen_nonneg post). destruct (Z.eqb_spec (idx + 1) 8) as [E8|E8].
    + change (zlen [u8 (r / 128)]) with 1 in Hn. destruct (Z.leb_spec n (idx + 1)); [lia|]. erewrite bind_done by done. destruct (Z.ltb_spec (idx + 1) 8); [lia|].
      erewrite bind_done by (apply (load_at (pre ++ [d]) (u8 (r / 128)) post); [rewrite <-app_assoc; exact H|rewrite zlen_app; change (zlen [d]) with 1; lia]).
      assert (idx = 7) as -> by lia. change (7 * 7) with 49 in *. change (49 + 7) with 56 in *.
      assert (r / 128 < 256). { change (2 ^ 64) with (2 ^ 56 * 256) in Hb. nia. }
      rewrite (uint_small 8) by rng. rewrite shift56 by rng. rewrite Z.lor_assoc, collect by (try lia; nia). rewrite (Z.mul_comm (2 ^ 56) (r / 128)), <-Z.shiftl_mul_pow2 by lia. rewrite lor_shiftl_add by lia. rewrite B2. done.
    + destruct k as [|k]; [lia|]. pose proof (VarWrite7_64_nonempty k (idx + 1) (r / 128)) as Hne. set (e := VarWrite7_64 (S k) (idx + 1) (r / 128)) in *.
      destruct (Z.leb_spec n (idx + 1)); [lia|]. erewrite bind_done by done. destruct (Z.ltb_spec (idx + 1) 8); [|lia].
      rewrite collect by (try lia; nia). replace (7 * idx + 7) with (7 * (idx + 1)) in * by lia.
      erewrite (IH (idx + 1) _ (r / 128) (pre ++ [d])).
      * rewrite B2, zlen_cons. do 2 f_equal. subst e. lia.
      * lia.
      * lia.
      * lia.
      * done.
      * done.
      * rewrite B2. done.
      * rewrite <-app_assoc. exact H.
      * rewrite zlen_app. change (zlen [d]) with 1. lia.
      * rewrite !zlen_app. change (zlen [d]) with 1. subst e. lia.
Qed.

(** ** What an adapter promises *)

(** [need v] is the room that writing [v] asks for. *)
Class BytesSpec (T : Type) `{BytesFunc T} := {
  enc : T -> bytes;
  ok : T -> Prop;
  norm : T -> T;
  need : T -> Z;
  enc_bytes v : ok v -> Forall is_byte (enc v);
  enc_need v : ok v -> zlen (enc v) <= need v <= 64;
  write_spec v bb : ok v -> bb_wf bb -> dataLen bb + need v <= 2 ^ 62 ->
    exists bb', WriteTo v bb = Done tt bb' /\ wrote (need v) (enc v) bb bb';
  read_spec v bb pre post : ok v -> holds (pre ++ enc v ++ post) bb -> zlen (pre ++ enc v ++ post) <= 2 ^ 62 -> offset bb = zlen pre ->
    ReadFrom bb = Done (norm v) (set_offset (zlen pre + zlen (enc v)) bb)
}.

(** *** Integers *)

Definition num_enc (t : ity) (v : Z) : bytes :=
  if sizeof t =? 1 then [uint 8 v] else if bits t =? 64 then VarWrite7_64 8 0 (var_of t v) else VarWrite7 5 (var_of t v).

Lemma ZigZag_BBuffer w v u : ZigZagEncode w v = BBuffer.ZigZagEncode w v /\ ZigZagDecode w u = BBuffer.ZigZagDecode w u.
Proof. done. Qed.

Lemma var_of_range t v : std_ity t -> in_range t v -> is_uint (bits t) (var_of t v).
Proof. apply to_var_range. Qed.
Lemma var_to_of t v : std_ity t -> in_range t v -> var_to t (var_of t v) = v.
Proof. apply of_to_var. Qed.

Lemma VarWrite7_bytes m r : 0 <= r -> Forall is_byte (VarWrite7 m r).
Proof.
  revert r. induction m as [|m IH]; intros r Hr; [constructor|]. rewrite VarWrite7_S by done. pose proof (Z.mod_pos_bound r 128 ltac:(lia)).
  destruct (Z.ltb_spec r 128); constructor; try rng; [constructor|]. apply IH, Z.div_pos; lia.
Qed.

Lemma VarWrite7_64_bytes k x r : 0 <= r -> Forall is_byte (VarWrite7_64 k x r).
Proof.
  revert x r. induction k as [|k IH]; intros x r Hr; [constructor|]. rewrite VarWrite7_64_S by done. pose proof (Z.mod_pos_bound r 128 ltac:(lia)).
  destruct (Z.ltb_spec r 128); constructor; try rng; [constructor|]. destruct (_ =? _); [|apply IH, Z.div_pos; lia].
  constructor; [|constructor]. apply uint_range. lia.
Qed.

Lemma VarWrite7_length k m r : (1 <= k <= m)%nat -> 0 <= r < 2 ^ (7 * Z.of_nat k) -> zlen (VarWrite7 m r) <= Z.of_nat k.
Proof.
  revert m r. induction k as [|k IH]; intros m r Hk Hr; [lia|]. destruct m as [|m]; [lia|]. rewrite pow128_S in Hr. rewrite VarWrite7_S by lia.
  destruct (Z.ltb_spec r 128); rewrite zlen_cons, ?zlen_nil; [lia|]. destruct k as [|k]; [cbn in Hr; lia|].
  specialize (IH m (r / 128)). assert (0 <= r / 128 < 2 ^ (7 * Z.of_nat (S k))) by (split; [apply Z.div_pos; lia|apply Z.div_lt_upper_bound; lia]). specialize (IH ltac:(lia) ltac:(done)). lia.
Qed.

Lemma VarWrite7_64_length k x r : 0 <= x -> Z.of_nat k = 8 - x -> (1 <= k)%nat -> 0 <= r -> zlen (VarWrite7_64 k x r) <= 9 - x.
Proof.
  revert x r. induction k as [|k IH]; intros x r Hx Hk H1 Hr; [lia|]. rewrite VarWrite7_64_S by lia.
  destruct (Z.ltb_spec r 128); rewrite zlen_cons, ?zlen_nil; [lia|]. destruct (Z.eqb_spec (x + 1) 8); [change (zlen [u8 (r / 128)]) with 1; lia|].
  specialize (IH (x + 1) (r / 128) ltac:(lia) ltac:(lia) ltac:(lia) ltac:(apply Z.div_pos; lia)). lia.
Qed.

Lemma num_enc_bytes t v : std_ity t -> in_range t v -> Forall is_byte (num_enc t v).
Proof.
  intros Ht Hv. pose proof (var_of_range t v Ht Hv) as [Hr _]. unfold num_enc. destruct (_ =? 1).
  - constructor; [|constructor]. apply uint_range. lia.
  - destruct (_ =? 64); [by apply VarWrite7_64_bytes|by apply VarWrite7_bytes].
Qed.

(** [sizeof(T) + 1] bytes are enough. *)
Definition num_need (t : ity) : Z := if sizeof t =? 1 then 1 else sizeof t + 1.

Lemma num_enc_length t v : std_ity t -> in_range t v -> zlen (num_enc t v) <= num_need t.
Proof.
  intros Ht Hv. pose proof (var_of_range t v Ht Hv) as Hr. unfold num_enc, num_need, sizeof, is_uint in *. generalize dependent (var_of t v). intros u Hr.
  destruct Ht as [E|[E|[E|E]]]; rewrite E in *; cbn -[Z.pow VarWrite7 VarWrite7_64] in *.
  - done.
  - apply (VarWrite7_length 3); [lia|]. change (2 ^ (7 * Z.of_nat 3)) with 2097152. rng.
  - apply (VarWrite7_length 5); [lia|]. change (2 ^ (7 * Z.of_nat 5)) with 34359738368. rng.
  - pose proof (VarWrite7_64_length 8 0 u ltac:(lia) ltac:(lia) ltac:(lia) ltac:(lia)) as H. exact H.
Qed.

Lemma num_enc_nonempty t v : 1 <= zlen (num_enc t v).
Proof. unfold num_enc. destruct (_ =? 1); [done|]. destruct (_ =? 64); [apply VarWrite7_64_nonempty|apply VarWrite7_nonempty]. Qed.

Lemma num_need_sizeof t : num_need t <= sizeof t + 1.
Proof. unfold num_need. destruct (Z.eqb_spec (sizeof t) 1); lia. Qed.

Lemma num_need_bound t : std_ity t -> 1 <= num_need t <= 9.
Proof. unfold num_need, sizeof. intros [->|[->|[->| ->]]]; vm_compute; split; discriminate. Qed.

Lemma num_write t v bb : std_ity t -> in_range t v -> bb_wf bb -> dataLen bb + num_need t <= 2 ^ 62 ->
  exists bb', WriteTo (Num (t := t) v) bb = Done tt bb' /\ wrote (num_need t) (num_enc t v) bb bb'.
Proof.
  intros Ht Hv W Hr. pose proof (num_enc_length t v Ht Hv) as Hl. unfold num_enc, num_need in *. cbn [WriteTo BytesFunc_num num_val].
  destruct (sizeof t =? 1) eqn:E1; [by apply write_raw_spec|]. erewrite bind_done by done.
  pose proof (num_need_bound t Ht) as Hn. unfold num_need in Hn. rewrite E1 in Hn.
  apply Reserve_emit; [done|destruct W; lia|lia|done].
Qed.

(** [VarRead7] reads what [VarWrite7] wrote. *)
Lemma VarRead7_at w u bb pre post : w = 16 \/ w = 32 \/ w = 64 -> is_uint w u ->
  let e := if w =? 64 then VarWrite7_64 8 0 u else VarWrite7 5 u in
  holds (pre ++ e ++ post) bb -> zlen (pre ++ e ++ post) <= 2 ^ 62 -> offset bb = zlen pre ->
  VarRead7 w bb = Done u (set_offset (zlen pre + zlen e) bb).
Proof.
  intros Hw Hu e H Hl Ho. assert (He : 1 <= zlen e).
  { subst e. destruct (w =? 64); [apply VarWrite7_64_nonempty|apply VarWrite7_nonempty]. }
  unfold VarRead7. erewrite bind_done by done. pose proof (zlen_nonneg post). pose proof (zlen_nonneg pre).
  rewrite (proj1 H), Ho. assert (Hz : zlen (pre ++ e ++ post) = zlen pre + zlen e + zlen post) by (rewrite !zlen_app; lia).
  destruct (Z.leb_spec (zlen (pre ++ e ++ post)) (zlen pre)); [lia|]. erewrite bind_done by done. cbv zeta.
  assert (E : (if w =? 16 then VarRead7_loop 3 3 3 (zlen pre) (zlen (pre ++ e ++ post) - zlen pre) 0 0 0
               else if w =? 32 then VarRead7_loop 5 5 15 (zlen pre) (zlen (pre ++ e ++ post) - zlen pre) 0 0 0
               else VarRead7_64_loop 8 (zlen pre) (zlen (pre ++ e ++ post) - zlen pre) 0 0 0) bb = Done (u, zlen e) bb).
  { unfold is_uint in Hu. set (N := zlen (pre ++ e ++ post) - zlen pre) in *. destruct Hw as [->|[->| ->]]; subst e.
    - pose proof (VarRead7_loop_at 16 3 3 3 5 (zlen pre) N 0 0 u bb pre post) as L. change (7 * 0) with 0 in L. change (2 ^ 0) with 1 in L.
      change (2 ^ (7 * Z.of_nat 3)) with 2097152 in L. rewrite Z.mul_1_l, !Z.add_0_l in L. apply L; try done; try (by left); try lia; rng.
    - pose proof (VarRead7_loop_at 32 5 15 5 5 (zlen pre) N 0 0 u bb pre post) as L. change (7 * 0) with 0 in L. change (2 ^ 0) with 1 in L.
      change (2 ^ (7 * Z.of_nat 5)) with 34359738368 in L. rewrite Z.mul_1_l, !Z.add_0_l in L. apply L; try done; try (by right); try lia; rng.
    - pose proof (VarRead7_64_loop_at 8 (zlen pre) N 0 0 u bb pre post) as L. change (7 * 0) with 0 in L. change (2 ^ 0) with 1 in L.
      rewrite Z.mul_1_l, !Z.add_0_l in L. apply L; try done; try lia; rng. }
  erewrite bind_done by exact E. cbv beta iota. erewrite bind_done by done. unfold mret, M_ret. rewrite uint_small by done. do 2 f_equal. apply uint_small. change (2 ^ 62) with 4611686018427387904 in *. rng.
Qed.

Lemma num_read t v bb pre post : std_ity t -> in_range t v -> holds (pre ++ num_enc t v ++ post) bb -> zlen (pre ++ num_enc t v ++ post) <= 2 ^ 62 ->
  offset bb = zlen pre -> ReadFrom (T := num t) bb = Done (Num v) (set_offset (zlen pre + zlen (num_enc t v)) bb).
Proof.
  intros Ht Hv H Hl Ho. cbn [ReadFrom BytesFunc_num]. unfold num_enc in *. destruct (Z.eqb_spec (sizeof t) 1) as [E1|E1].
  - erewrite bind_done by (apply (read_raw_at bb pre [uint 8 v] post); done || (change (zlen [uint 8 v]) with 1; lia)).
    unfold mret, M_ret. do 2 f_equal. change (le_val [uint 8 v]) with (uint 8 v + 256 * 0). rewrite Z.mul_0_r, Z.add_0_r. unfold of_bits, in_range in *.
    assert (E8 : bits t = 8) by (unfold sizeof in E1; destruct Ht as [E|[E|[E|E]]]; rewrite E in E1; done).
    rewrite E8 in *. destruct (signed t); [rewrite sint_uint by lia; by apply sint_small|rewrite uint_uint by lia; by apply uint_small].
  - assert (Hw : bits t = 16 \/ bits t = 32 \/ bits t = 64).
    { unfold sizeof in E1. destruct Ht as [E|[E|[E|E]]]; rewrite E in *; auto. done. }
    erewrite bind_done by (apply (VarRead7_at (bits t) (var_of t v) bb pre post); try done; by apply var_of_range).
    by rewrite var_to_of.
Qed.

#[export, refine] Instance BytesSpec_num t `{!StdIty t} : BytesSpec (num t) := {
  enc v := num_enc t (num_val v);
  ok v := in_range t (num_val v);
  norm v := v;
  need _ := num_need t
}.
Proof.
  all: intros [v]; cbn [num_val].
  - intros. apply num_enc_bytes; done.
  - intros. pose proof (num_need_bound t ltac:(done)). pose proof (num_enc_length t v ltac:(done) ltac:(done)). lia.
  - intros. by apply num_write.
  - intros. by eapply num_read.
Defined.

(** *** Bytes as they are *)

#[export, refine] Instance BytesSpec_float : BytesSpec float32 := {
  enc v := le_bytes 4 (f32_bits v);
  ok v := is_uint 32 (f32_bits v);
  norm v := v;
  need _ := 4
}.
Proof.
  all: intros [v]; cbn [f32_bits].
  - intros. apply le_bytes_byte.
  - intros. by rewrite le_bytes_zlen.
  - intros. change 4 with (zlen (le_bytes 4 v)). by apply write_raw_spec.
  - intros. cbn [ReadFrom BytesFunc_float]. change 4 with (zlen (le_bytes 4 v)) at 1.
    erewrite bind_done by (eapply read_raw_at; done). by rewrite le_val_bytes_small.
Defined.

#[export, refine] Instance BytesSpec_Guid : BytesSpec Guid := {
  enc := Guid_bytes;
  ok := Guid_valid;
  norm v := v;
  need _ := 16
}.
Proof.
  all: intros g.
  - intros. apply Guid_bytes_byte.
  - intros. by rewrite Guid_bytes_len.
  - intros ? Hg ??. rewrite <-(Guid_bytes_len g). apply write_raw_spec; [done|]. by rewrite Guid_bytes_len.
  - intros. cbn [ReadFrom BytesFunc_Guid]. rewrite <-(Guid_bytes_len g) at 1.
    erewrite bind_done by (eapply read_raw_at; [done..|]; by rewrite Guid_bytes_len).
    rewrite <-(app_nil_r (Guid_bytes g)) at 1. by rewrite Fill_bytes.
Defined.

(** *** [double] *)

Definition double_enc `{FloatToInt} (d : double) : bytes :=
  if d_is_zero d then [0] else if d_is_nan d then [1]
  else if d_eq d d_neg_infinity then [2] else if d_eq d d_infinity then [3]
  else if d_eq d (d_of_int (d_to_int32 d)) then 4 :: num_enc I32 (d_to_int32 d) else 5 :: le_bytes 8 (d_bits d).

Lemma double_enc_length `{FloatToInt} d : zlen (double_enc d) <= 9.
Proof.
  unfold double_enc. repeat case_match; try done. rewrite zlen_cons.
  pose proof (num_enc_length I32 (d_to_int32 d) (StdIty_32 true) (d_to_int32_range d)) as Hl. change (num_need I32) with 5 in Hl. lia.
Qed.

Lemma double_write `{FloatToInt} d bb : bb_wf bb -> dataLen bb + 9 <= 2 ^ 62 ->
  exists bb', double_WriteTo d bb = Done tt bb' /\ wrote 9 (double_enc d) bb bb'.
Proof.
  intros W Hl. destruct (W) as [[Hd0 _] _]. pose proof (double_enc_length d) as Hlen. unfold double_WriteTo, double_enc in *. erewrite bind_done by done.
  assert (App : forall bs, zlen bs <= 9 -> exists bb', (_ ← Reserve (u64 (dataLen bb + 8 + 1)); emit bs) bb = Done tt bb' /\ wrote 9 bs bb bb').
  { intros bs Hbs. by apply Reserve_emit; [|lia|lia|]. }
  repeat case_match; try (apply App; done).
  destruct (App [4]) as (bb1 & E1 & Wr1); [done|]. rewrite <-bind_assoc. erewrite bind_done by exact E1. pose proof Wr1 as (W1 & D1 & _). change (zlen [4]) with 1 in D1.
  destruct (num_write I32 (d_to_int32 d) bb1) as (bb2 & E2 & Wr2); [apply StdIty_32|apply d_to_int32_range|done|change (num_need I32) with 5; lia|].
  exists bb2. split; [exact E2|]. change (4 :: ?l) with ([4] ++ l). change (num_need I32) with 5 in Wr2. rewrite zlen_cons in Hlen.
  refine (pool_wrote_mono _ _ _ _ _ _ (pool_wrote_trans 9 5 [4] _ bb bb1 bb2 W _ _ Wr1 Wr2)); [by vm_compute|by vm_compute|].
  apply (num_enc_length I32); [apply StdIty_32|apply d_to_int32_range].
Qed.

(** The tag, and what follows. *)
Lemma double_read_tag bb pre tag rest post : holds (pre ++ (tag :: rest) ++ post) bb -> zlen (pre ++ (tag :: rest) ++ post) <= 2 ^ 62 -> offset bb = zlen pre ->
  forall k : Z -> M BBuffer double,
  (bb0 ← get; _ ← reject_if (dataLen bb0 <=? offset bb0) (-1); tag ← load (offset bb0); _ ← modify (set_offset (u64 (offset bb0 + 1))); k tag) bb
  = k tag (set_offset (zlen (pre ++ [tag])) bb).
Proof.
  intros H Hl Ho k. pose proof (zlen_nonneg pre). pose proof (zlen_nonneg rest). pose proof (zlen_nonneg post). erewrite bind_done by done.
  rewrite (proj1 H), Ho. cbn [app] in *. rewrite zlen_app, zlen_cons, zlen_app in *. destruct (Z.leb_spec (zlen pre + (1 + (zlen rest + zlen post))) (zlen pre)); [lia|].
  erewrite bind_done by done. erewrite bind_done by (eapply load_at; done). erewrite bind_done by done.
  rewrite (uint_small 64) by (change (2 ^ 62) with 4611686018427387904 in *; rng). by rewrite zlen_app.
Qed.

Lemma double_read `{FloatToInt} d bb pre post : is_uint 64 (d_bits d) -> holds (pre ++ double_enc d ++ post) bb -> zlen (pre ++ double_enc d ++ post) <= 2 ^ 62 ->
  offset bb = zlen pre -> double_ReadFrom bb = Done (d_norm d) (set_offset (zlen pre + zlen (double_enc d)) bb).
Proof.
  intros Hd Hh Hl Ho. unfold double_ReadFrom, double_enc, d_norm in *.
  destruct (d_is_zero d) eqn:Hz; [rewrite (double_read_tag bb pre 0 [] post) by done; by rewrite zlen_app|].
  destruct (d_is_nan d) eqn:Hn; [rewrite (double_read_tag bb pre 1 [] post) by done; by rewrite zlen_app|].
  destruct (d_eq d d_neg_infinity) eqn:Hni.
  { rewrite (double_read_tag bb pre 2 [] post) by done. rewrite zlen_app. by rewrite (d_eq_true _ _ Hni). }
  destruct (d_eq d d_infinity) eqn:Hi.
  { rewrite (double_read_tag bb pre 3 [] post) by done. rewrite zlen_app. by rewrite (d_eq_true _ _ Hi). }
  destruct (d_eq d (d_of_int (d_to_int32 d))) eqn:Hint.
  - rewrite (double_read_tag bb pre 4 _ post) by done. cbn [Z.eqb Pos.eqb].
    erewrite bind_done by (apply (num_read I32 (d_to_int32 d) (set_offset (zlen (pre ++ [4])) bb) (pre ++ [4]) post); [apply StdIty_32|apply d_to_int32_range|rewrite <-app_assoc; exact Hh|rewrite <-app_assoc; exact Hl|done]).
    cbn [num_val]. rewrite <-(d_eq_true _ _ Hint Hz). unfold mret, M_ret, set_offset. cbn. do 2 f_equal. rewrite zlen_app, !zlen_cons, zlen_nil. lia.
  - rewrite (double_read_tag bb pre 5 _ post) by done. cbn [Z.eqb Pos.eqb]. change 8 with (zlen (le_bytes 8 (d_bits d))) at 1.
    erewrite bind_done by (apply (read_raw_at (set_offset (zlen (pre ++ [5])) bb) (pre ++ [5]) (le_bytes 8 (d_bits d)) post); [rewrite <-app_assoc; exact Hh|rewrite <-app_assoc; exact Hl|done|done]).
    rewrite le_val_bytes_small by done. unfold mret, M_ret, set_offset. destruct d. cbn -[le_bytes]. do 2 f_equal. rewrite zlen_app, !zlen_cons, zlen_nil. lia.
Qed.

#[export, refine] Instance BytesSpec_double `{FloatToInt} : BytesSpec double := {
  enc := double_enc;
  ok v := is_uint 64 (d_bits v);
  norm := d_norm;
  need _ := 9
}.
Proof.
  all: intros d.
  - intros Hd. unfold double_enc. repeat case_match; (apply Forall_cons; split; [done|]); try done; [|apply le_bytes_byte].
    apply num_enc_bytes; [apply StdIty_32|apply d_to_int32_range].
  - intros. pose proof (double_enc_length d). lia.
  - intros. by apply double_write.
  - intros. by eapply double_read.
Defined.

(** *** [std::optional] *)

#[export, refine] Instance BytesSpec_optional {T} `{BytesSpec T} : BytesSpec (option T) := {
  enc v := match v with Some x => 1 :: enc x | None => [0] end;
  ok v := match v with Some x => ok x /\ need x < 64 | None => True end;
  norm v := norm <$> v;
  need v := match v with Some x => 1 + need x | None => 1 end
}.
Proof.
  all: intros v.
  - destruct v as [x|]; intros Hv; apply Forall_cons; (split; [done|]); [apply enc_bytes, Hv|constructor].
  - destruct v as [x|]; intros Hv; [|done]. destruct Hv as [Hv Hn]. pose proof (enc_need x Hv). rewrite zlen_cons. lia.
  - intros bb Hv W Hl. destruct v as [x|]; [|apply (num_write U8 0); [apply StdIty_8|done..]]. destruct Hv as [Hv Hn]. pose proof (enc_need x Hv) as Hx.
    pose proof (zlen_nonneg (enc x)). cbn [WriteTo BytesFunc_optional].
    destruct (num_write U8 1 bb) as (bb1 & E1 & Wr1); [apply StdIty_8|done|done|change (num_need U8) with 1; lia|].
    change (num_need U8) with 1 in Wr1. change (num_enc U8 1) with [1] in Wr1.
    erewrite bind_done by exact E1. pose proof Wr1 as (W1 & D1 & _). change (zlen [1]) with 1 in D1.
    destruct (write_spec x bb1) as (bb2 & E2 & Wr2); [done|done|lia|]. exists bb2. split; [exact E2|].
    refine (pool_wrote_mono _ _ _ _ _ _ (pool_wrote_trans 1 (need x) [1] _ bb bb1 bb2 W _ _ Wr1 Wr2)); [change (zlen [1]) with 1; lia|done|lia].
  - intros bb pre post Hv Hd Hl Ho. cbn [ReadFrom BytesFunc_optional]. destruct v as [x|].
    + destruct Hv as [Hv Hn]. erewrite bind_done by (apply (num_read U8 1 bb pre (enc x ++ post)); [apply StdIty_8|done..]). cbn [num_val Z.eqb negb].
      change (num_enc U8 1) with [1]. erewrite bind_done by (apply (read_spec x (set_offset (zlen pre + zlen (num_enc U8 1)) bb) (pre ++ [1]) post); [done|rewrite <-app_assoc; exact Hd|rewrite <-app_assoc; exact Hl|by rewrite zlen_app]).
      unfold mret, M_ret, set_offset. cbn. do 2 f_equal. rewrite !zlen_app, !zlen_cons, zlen_nil. lia.
    + erewrite bind_done by (apply (num_read U8 0 bb pre post); [apply StdIty_8|done..]). done.
Defined.

(** Writing at the end and reading back from there. *)
Lemma pool_write_read {T} `{BytesSpec T} (v : T) old bb : ok v -> bb_wf bb -> holds old bb -> dataLen bb + 64 <= 2 ^ 62 ->
  exists bb', Write v bb = Done tt bb' /\ holds (old ++ enc v) bb' /\
    Read (set_offset (zlen old) bb') = Done (norm v) (set_offset (dataLen bb') bb').
Proof.
  intros Hv W Hh Hl. pose proof (enc_need v Hv). destruct (write_spec v bb Hv W) as (bb' & E & Wr); [lia|]. exists bb'.
  pose proof (wrote_holds _ _ _ _ _ Hh Wr) as Hh'. pose proof Wr as ([[? ?] ?] & D & _). split.
  - unfold Write. erewrite bind_done by exact E. erewrite bind_done by done. by destruct (Z.leb_spec (dataLen bb') (bufLen bb')); [|lia].
  - split; [done|]. unfold Read. rewrite (read_spec v (set_offset (zlen old) bb') old []).
    + rewrite D, (proj1 Hh). done.
    + done.
    + by rewrite app_nil_r.
    + rewrite app_nil_r, zlen_app. rewrite (proj1 Hh) in *. lia.
    + done.
Qed.

(** ** Readers on arbitrary bytes *)

Definition readable (bb : BBuffer) : Prop := exists bs, holds bs bb /\ Forall is_byte bs /\ zlen bs <= 2 ^ 62 /\ 0 <= offset bb <= 2 ^ 62.

(** Only the position changes; it moves forward, inside the data. *)
Definition moved (bb bb' : BBuffer) : Prop :=
  bb' = set_offset (offset bb') bb /\ offset bb <= offset bb' /\ (offset bb' = offset bb \/ offset bb' <= dataLen bb).

Definition safe_read {T} (P : T -> Prop) (m : M BBuffer T) : Prop :=
  forall bb, readable bb ->
    match m bb with
    | Done v bb' => P v /\ moved bb bb'
    | Fail code bb' => code < 0 /\ moved bb bb'
    | Undef => False
    end.

Lemma pool_moved_refl bb : moved bb bb.
Proof. split; [by destruct bb|]. split; [lia|by left]. Qed.

Lemma pool_moved_readable bb bb' : readable bb -> moved bb bb' -> readable bb'.
Proof.
  intros (bs & Hh & Hb & Hl & Ho) (-> & Hle & Hm). exists bs. split; [done|]. split; [done|]. split; [done|].
  cbn in *. rewrite (proj1 Hh) in *. destruct Hm; lia.
Qed.

Lemma pool_moved_trans a b c : moved a b -> moved b c -> moved a c.
Proof.
  intros (E1 & L1 & M1) (E2 & L2 & M2). assert (D : dataLen b = dataLen a) by by rewrite E1. rewrite D in M2.
  split; [rewrite E2, E1; done|]. split; [lia|]. destruct M1, M2; (left; lia) || (right; lia).
Qed.

Lemma pool_safe_ret {T} (P : T -> Prop) v : P v -> safe_read P (mret v).
Proof. intros Hv bb Hb. split; [done|apply pool_moved_refl]. Qed.

Lemma pool_safe_bind {A B} (P : A -> Prop) (Q : B -> Prop) (m : M BBuffer A) (f : A -> M BBuffer B) :
  safe_read P m -> (forall a, P a -> safe_read Q (f a)) -> safe_read Q (x ← m; f x).
Proof.
  intros Hm Hf bb Hb. specialize (Hm bb Hb). unfold mbind, M_bind. destruct (m bb) as [a bb1|e bb1|]; [|done|done].
  destruct Hm as [Ha Hm]. specialize (Hf a Ha bb1 (pool_moved_readable _ _ Hb Hm)). destruct (f a bb1); try done; destruct Hf; eauto using pool_moved_trans.
Qed.

Lemma safe_read_raw n code : 0 <= n <= 2 ^ 32 -> code < 0 -> safe_read (fun bs => zlen bs = n) (read_raw n code).
Proof.
  intros Hn Hc bb (bs & Hh & Hb & Hl & Ho). pose proof (read_raw_spec bs bb n code Hh Hl Ho Hn) as R.
  destruct (Z.ltb_spec (zlen bs) (offset bb + n)); [rewrite R; split; [done|apply pool_moved_refl]|].
  destruct R as (r & _ & Hz & ->). split; [done|]. split; [done|]. cbn. rewrite (proj1 Hh). lia.
Qed.

(** The loops: [m] bytes after [p] are there; the count that is returned stays
    within them. *)
Lemma safe_VarRead7_loop k limit top p n idx i bs bb : holds bs bb -> Forall is_byte bs -> 0 <= p -> n = zlen bs - p ->
  limit <= 5 -> Z.of_nat k = limit - idx -> (1 <= k)%nat -> 0 <= idx < n ->
  match VarRead7_loop k limit top p n idx (7 * idx) i bb with
  | Done (_, idx') bb' => 0 <= idx' <= n /\ bb' = bb
  | Fail code bb' => code < 0 /\ bb' = bb
  | Undef => False
  end.
Proof.
  intros Hh Hb Hp Hn Hlim. revert idx i. induction k as [|k IH]; intros idx i Hk H1 Hx; [lia|]. cbn [VarRead7_loop].
  destruct (load_spec bs bb (p + idx) Hh) as (b & Hb1 & E); [lia|]. erewrite bind_done by exact E.
  destruct (Z.ltb_spec (7 * idx) 32); [|lia]. erewrite bind_done by done. destruct (127 <? of_char 32 b).
  - destruct (Z.eqb_spec (idx + 1) limit); [done|]. erewrite bind_done by done. destruct (Z.leb_spec n (idx + 1)); [done|]. erewrite bind_done by done.
    replace (7 * idx + 7) with (7 * (idx + 1)) by lia. apply IH; lia.
  - destruct (_ && _); [done|]. erewrite bind_done by done. cbn. split; [lia|done].
Qed.

Lemma safe_VarRead7_64_loop k p n idx i bs bb : holds bs bb -> Forall is_byte bs -> 0 <= p -> n = zlen bs - p ->
  Z.of_nat k = 8 - idx -> (1 <= k)%nat -> 0 <= idx < n ->
  match VarRead7_64_loop k p n idx (7 * idx) i bb with
  | Done (_, idx') bb' => 0 <= idx' <= n /\ bb' = bb
  | Fail code bb' => code < 0 /\ bb' = bb
  | Undef => False
  end.
Proof.
  intros Hh Hb Hp Hn. revert idx i. induction k as [|k IH]; intros idx i Hk H1 Hx; [lia|]. cbn [VarRead7_64_loop].
  destruct (load_spec bs bb (p + idx) Hh) as (b & Hb1 & E); [lia|]. erewrite bind_done by exact E.
  destruct (Z.ltb_spec (7 * idx) 64); [|lia]. erewrite bind_done by done. destruct (127 <? of_char 64 b); [|cbn; split; [lia|done]].
  destruct (Z.leb_spec n (idx + 1)); [done|]. erewrite bind_done by done. destruct (Z.ltb_spec (idx + 1) 8).
  - replace (7 * idx + 7) with (7 * (idx + 1)) by lia. apply IH; lia.
  - destruct (load_spec bs bb (p + (idx + 1)) Hh) as (c & _ & Ec); [lia|]. erewrite bind_done by exact Ec. cbn. split; [lia|done].
Qed.

Lemma safe_VarRead7 w : 0 <= w -> safe_read (is_uint w) (VarRead7 w).
Proof.
  intros Hw bb (bs & Hh & Hb & Hl & Ho). unfold VarRead7. erewrite bind_done by done. rewrite (proj1 Hh).
  destruct (Z.leb_spec (zlen bs) (offset bb)); [split; [done|apply pool_moved_refl]|]. erewrite bind_done by done. cbv zeta.
  set (n := zlen bs - offset bb). set (m := if w =? 16 then _ else _).
  assert (Hm : match m bb with Done (_, idx') bb' => 0 <= idx' <= n /\ bb' = bb | Fail code bb' => code < 0 /\ bb' = bb | Undef => False end).
  { subst m. destruct (w =? 16); [|destruct (w =? 32)].
    - apply (safe_VarRead7_loop 3 3 3 (offset bb) n 0 0 bs bb); done || lia.
    - apply (safe_VarRead7_loop 5 5 15 (offset bb) n 0 0 bs bb); done || lia.
    - apply (safe_VarRead7_64_loop 8 (offset bb) n 0 0 bs bb); done || lia. }
  unfold mbind, M_bind. destruct (m bb) as [[i idx] bb'|code bb'|]; [| |done].
  - destruct Hm as [Hi ->]. cbn. split; [by apply uint_range|]. rewrite uint_small by (change (2 ^ 62) with 4611686018427387904 in *; rng).
    split; [done|]. cbn. rewrite (proj1 Hh). lia.
  - destruct Hm as [? ->]. split; [done|apply pool_moved_refl].
Qed.

Lemma pool_safe_ReadFrom_num t : std_ity t -> safe_read (fun v => in_range t (num_val v)) (ReadFrom (T := num t)).
Proof.
  intros Ht. cbn [ReadFrom BytesFunc_num]. assert (8 <= bits t) by (unfold std_ity in Ht; lia). destruct (_ =? _).
  - eapply pool_safe_bind; [by apply safe_read_raw|]. intros bs _. apply pool_safe_ret. cbn. unfold in_range, of_bits. destruct (signed t); [apply sint_range|apply uint_range]; lia.
  - eapply pool_safe_bind; [apply safe_VarRead7; lia|]. intros u Hu. apply pool_safe_ret. by apply (of_var_range t u).
Qed.

Lemma pool_safe_double_ReadFrom : safe_read (fun _ => True) double_ReadFrom.
Proof.
  intros bb Hr. pose proof Hr as (bs & Hh & Hb & Hl & Ho). unfold double_ReadFrom. erewrite bind_done by done. rewrite (proj1 Hh).
  destruct (Z.leb_spec (zlen bs) (offset bb)); [split; [done|apply pool_moved_refl]|]. erewrite bind_done by done.
  destruct (load_spec bs bb (offset bb) Hh) as (tag & _ & E); [lia|]. erewrite bind_done by exact E. erewrite bind_done by done.
  rewrite (uint_small 64) by (change (2 ^ 62) with 4611686018427387904 in *; rng).
  assert (Hm : moved bb (set_offset (offset bb + 1) bb)) by (split; [done|]; cbn; rewrite (proj1 Hh); lia).
  assert (Hk : forall m : M BBuffer double, safe_read (fun _ => True) m ->
    match m (set_offset (offset bb + 1) bb) with
    | Done v bb' => True /\ moved bb bb' | Fail code bb' => code < 0 /\ moved bb bb' | Undef => False end).
  { intros m Hs. specialize (Hs _ (pool_moved_readable _ _ Hr Hm)). destruct (m _); try done; destruct Hs; eauto using pool_moved_trans. }
  apply Hk. clear Hk Hm E. do 4 (destruct (tag =? _); [by apply (pool_safe_ret (fun _ => True))|]). destruct (tag =? 4).
  { eapply pool_safe_bind; [apply (pool_safe_ReadFrom_num I32), StdIty_32|]. intros. by apply (pool_safe_ret (fun _ => True)). }
  destruct (tag =? 5); [|intros bb' Hr'; split; [done|apply pool_moved_refl]].
  eapply pool_safe_bind; [by apply safe_read_raw|]. intros. by apply (pool_safe_ret (fun _ => True)).
Qed.

Lemma safe_optional {T} `{BytesFunc T} (P : T -> Prop) : safe_read P (ReadFrom (T := T)) ->
  safe_read (fun v => match v with Some x => P x | None => True end) (ReadFrom (T := option T)).
Proof.
  intros Hs. cbn [ReadFrom BytesFunc_optional]. eapply pool_safe_bind; [apply (pool_safe_ReadFrom_num U8), StdIty_8|]. intros h _.
  destruct (negb _); [|by apply pool_safe_ret]. eapply pool_safe_bind; [exact Hs|]. intros x Hx. by apply pool_safe_ret.
Qed.

(** ** Writing over the data *)

Lemma write_at_done pos w bb bb' : pos < dataLen bb -> w (set_dataLen pos bb) = Done tt bb' ->
  write_at pos w bb = Done tt (if dataLen bb' <? dataLen bb then set_dataLen (dataLen bb) bb' else bb').
Proof.
  intros Hp E. unfold write_at. erewrite bind_done by done. destruct (Z.ltb_spec pos (dataLen bb)); [|lia].
  erewrite bind_done by done. erewrite bind_done by done. by erewrite bind_done by exact E.
Qed.

(** The data with [bs] put over what was at [pos]. *)
Definition overwritten (old : bytes) (pos : Z) (bs : bytes) : bytes :=
  take (Z.to_nat pos) old ++ bs ++ drop (Z.to_nat (pos + zlen bs)) old.

(** The write was in place, or it went to the end of the data or further:
    nothing but the bytes at [pos] has changed. *)
Lemma wrote_over n old bs pos bb bb' : holds old bb -> bb_wf bb -> 0 <= pos < dataLen bb -> wrote n bs (set_dataLen pos bb) bb' ->
  pos + n <= bufLen bb \/ zlen old <= pos + zlen bs ->
  holds (overwritten old pos bs) (if dataLen bb' <? dataLen bb then set_dataLen (dataLen bb) bb' else bb').
Proof.
  intros [D [rest E]] W Hp (W' & D' & _ & _ & c & E' & C) Hn. cbn in D', E', C. pose proof (zlen_nonneg bs). unfold overwritten.
  assert (Hlen : zlen (take (Z.to_nat pos) old) = pos) by (rewrite zlen_take; lia).
  assert (Ht : take (Z.to_nat pos) (cells bb) = Some <$> take (Z.to_nat pos) old).
  { rewrite E, take_app_le, fmap_take; [done|]. rewrite length_fmap. unfold zlen in *. lia. }
  split.
  - rewrite !zlen_app, zlen_drop, Hlen. destruct (Z.ltb_spec (dataLen bb') (dataLen bb)); cbn; lia.
  - assert (Hc : cells (if dataLen bb' <? dataLen bb then set_dataLen (dataLen bb) bb' else bb') = cells bb') by by destruct (_ <? _).
    rewrite Hc, E', Ht, !fmap_app. destruct (Z.le_gt_cases (zlen old) (pos + zlen bs)) as [Hl|Hl].
    + exists c. rewrite (drop_ge old), app_nil_r; [by rewrite <-!app_assoc|]. unfold zlen in *. lia.
    + exists rest. destruct Hn as [Hn|Hn]; [|lia]. rewrite C by (unfold bufLen in *; done). rewrite <-!app_assoc. do 2 f_equal.
      rewrite E, drop_app_le, fmap_drop; [done|]. rewrite length_fmap. unfold zlen in *. lia.
Qed.

Lemma set_dataLen_wf pos bb : bb_wf bb -> 0 <= pos <= dataLen bb -> bb_wf (set_dataLen pos bb).
Proof. intros [[? ?] ?] ?. unfold bb_wf, bufLen in *. cbn. lia. Qed.

Lemma write_room (v : Z) bb : bb_wf bb -> dataLen bb + 64 <= 2 ^ 62 -> v < dataLen bb -> v + 64 <= 2 ^ 62.
Proof. lia. Qed.

Lemma WriteAt_spec {T} `{BytesSpec T} (v : T) old pos bb : ok v -> bb_wf bb -> holds old bb -> dataLen bb + 64 <= 2 ^ 62 ->
  0 <= pos < dataLen bb -> pos + need v <= bufLen bb \/ zlen old <= pos + zlen (enc v) ->
  exists bb', WriteAt pos v bb = Done tt bb' /\ holds (overwritten old pos (enc v)) bb'.
Proof.
  intros Hv W Hh Hl Hp Hn. pose proof (enc_need v Hv).
  destruct (write_spec v (set_dataLen pos bb) Hv) as (bb' & E & Wr); [apply set_dataLen_wf; [done|lia]|cbn; lia|].
  eexists. split; [|by eapply wrote_over]. apply write_at_done; [lia|]. unfold Write. erewrite bind_done by exact E. erewrite bind_done by done.
  destruct Wr as ([[? ?] ?] & _). by destruct (Z.leb_spec (dataLen bb') (bufLen bb')); [|lia].
Qed.

Lemma WriteBufAt_spec buf old pos bb : bb_wf bb -> holds old bb -> dataLen bb + zlen buf <= 2 ^ 62 -> 0 <= pos < dataLen bb ->
  exists bb', WriteBufAt pos buf bb = Done tt bb' /\ holds (overwritten old pos buf) bb'.
Proof.
  intros W Hh Hl Hp. destruct (write_raw_spec buf (set_dataLen pos bb)) as (bb' & E & Wr); [apply set_dataLen_wf; [done|lia]|cbn; lia|].
  eexists. split; [apply write_at_done; [lia|exact E]|]. eapply wrote_over; try done. destruct W. rewrite (proj1 Hh) in *. lia.
Qed.

(** ** Nested buffers *)

(** Below [2^32] the two widths have the same bytes. *)
Lemma VarWrite7_same k x m r : Z.of_nat k = 8 - x -> 0 <= x <= 2 -> (5 <= m)%nat -> 0 <= r < 2 ^ 32 -> VarWrite7_64 k x r = VarWrite7 m r.
Proof.
  assert (G : forall (j : nat) k x m r, Z.of_nat k = 8 - x -> 0 <= x -> x + Z.of_nat j <= 7 -> (j <= m)%nat -> (1 <= j)%nat -> 0 <= r < 2 ^ (7 * Z.of_nat j) ->
    VarWrite7_64 k x r = VarWrite7 m r).
  { clear. induction j as [|j IH]; intros k x m r Hk Hx Hj Hm H1 Hr; [lia|]. destruct k as [|k]; [lia|]. destruct m as [|m]; [lia|]. rewrite pow128_S in Hr.
    rewrite VarWrite7_S, VarWrite7_64_S by lia. destruct (Z.ltb_spec r 128); [done|]. f_equal. destruct (Z.eqb_spec (x + 1) 8); [lia|].
    destruct j as [|j]; [cbn in Hr; lia|]. apply IH; try lia. split; [apply Z.div_pos; lia|apply Z.div_lt_upper_bound; lia]. }
  intros Hk Hx Hm Hr. apply (G 5%nat); try lia.
Qed.

Lemma nested_roundtrip self old bb : is_uint 32 (zlen self) -> bb_wf bb -> holds old bb -> dataLen bb + zlen self + 64 <= 2 ^ 62 ->
  readLengthLimit bb = 0 \/ zlen self <= readLengthLimit bb ->
  exists bb', BBuffer_ToBBuffer self bb = Done tt bb' /\ BBuffer_FromBBuffer (set_offset (zlen old) bb') = Done self (set_offset (dataLen bb') bb').
Proof.
  intros Hs W Hh Hl Hlim. pose proof (zlen_nonneg self).
  assert (Hs64 : in_range U64 (zlen self)) by (unfold in_range; cbn; rng).
  destruct (num_write U64 (zlen self) bb (StdIty_64 false) Hs64 W) as (bb1 & E1 & Wr1); [change (num_need U64) with 9; lia|].
  pose proof (wrote_holds _ _ _ _ _ Hh Wr1) as Hh1. pose proof Wr1 as (W1 & D1 & O1 & L1 & _).
  pose proof (num_enc_length U64 (zlen self) (StdIty_64 false) Hs64) as Hn. change (num_need U64) with 9 in Hn.
  destruct (write_raw_spec self bb1 W1) as (bb2 & E2 & Wr2); [lia|]. exists bb2.
  pose proof (wrote_holds _ _ _ _ _ Hh1 Wr2) as Hh2. pose proof Wr2 as (W2 & D2 & O2 & L2 & _).
  assert (Enc : num_enc U64 (zlen self) = num_enc U32 (zlen self)).
  { unfold num_enc, var_of. cbn -[VarWrite7 VarWrite7_64 zlen Z.pow]. rewrite (uint_small 32), (uint_small 64) by rng. by apply (VarWrite7_same 8 0 5); [done|lia|lia|]. }
  rewrite Enc in *. set (e := num_enc U32 (zlen self)) in *. split.
  - unfold BBuffer_ToBBuffer, Write. erewrite bind_done; [exact E2|]. erewrite bind_done by exact E1. erewrite bind_done by done.
    destruct W1 as [[? ?] ?]. by destruct (Z.leb_spec (dataLen bb1) (bufLen bb1)); [|lia].
  - unfold BBuffer_FromBBuffer, Read. rewrite (proj1 Hh) in *. pose proof (zlen_nonneg e). pose proof (zlen_nonneg old).
    erewrite bind_done by (apply (num_read U32 (zlen self) (set_offset (zlen old) bb2) old self);
      [apply StdIty_32|done|rewrite app_assoc; exact Hh2|rewrite !zlen_app; subst e; lia|done]).
    cbn [num_val]. cbv zeta. erewrite bind_done by done. cbn [readLengthLimit dataLen offset set_offset].
    assert (Hlim' : negb (readLengthLimit bb2 =? 0) && (readLengthLimit bb2 <? zlen self) = false).
    { rewrite L2, L1. destruct (Z.eqb_spec (readLengthLimit bb) 0), (Z.ltb_spec (readLengthLimit bb) (zlen self)); cbn; try done. lia. }
    rewrite Hlim'. erewrite bind_done by done. fold e. rewrite (uint_small 64) by (change (2 ^ 62) with 4611686018427387904 in *; rng).
    destruct (Z.ltb_spec (dataLen bb2) (zlen old + zlen e + zlen self)); [lia|]. erewrite bind_done by done.
    destruct (Z.eqb_spec (zlen self) 0) as [E0|].
    { apply zlen_0 in E0. subst self. unfold mret, M_ret, set_offset. cbn. do 2 f_equal. change (zlen []) with 0 in *. lia. }
    destruct (load_range_spec ((old ++ e) ++ self) (set_offset (zlen old + zlen e) bb2) (zlen old + zlen e) (zlen self)) as (r & Hr & _ & Er); [done|lia|lia|rewrite !zlen_app; lia|].
    erewrite bind_done by exact Er. erewrite bind_done by done. rewrite <-zlen_app in Hr. pose proof (zslice_mid (old ++ e) self []) as Hm.
    rewrite app_nil_r in Hm. rewrite Hm in Hr. simplify_eq. unfold mret, M_ret, set_offset. cbn. do 2 f_equal. lia.
Qed.

(** ** Properties *)

(** C35. Integers of every width, on their full range, and any value that an
    adapter carries (an optional double here): [Write] appends within the room
    that it reserves, and [Read] gives the value back and stops behind it. *)
Theorem pooled_roundtrip `{FloatToInt} (t : ity) (v : Z) (d : option double) old bb :
  std_ity t -> in_range t v -> (forall x, d = Some x -> is_uint 64 (d_bits x)) -> bb_wf bb -> holds old bb -> dataLen bb + 64 <= 2 ^ 62 ->
  (exists bb', Write (Num (t := t) v) bb = Done tt bb' /\ (exists e, holds (old ++ e) bb' /\ 1 <= zlen e <= sizeof t + 1) /\
     Read (T := num t) (set_offset (zlen old) bb') = Done (Num v) (set_offset (dataLen bb') bb')) /\
  (exists bb', Write d bb = Done tt bb' /\ (exists e, holds (old ++ e) bb' /\ 1 <= zlen e <= 10) /\
     Read (T := option double) (set_offset (zlen old) bb') = Done (d_norm <$> d) (set_offset (dataLen bb') bb')).
Proof.
  intros Ht Hv Hd W Hh Hl. split.
  - pose (Ht : StdIty t). destruct (pool_write_read (Num (t := t) v) old bb) as (bb' & E1 & E2 & E3); [done..|]. exists bb'.
    split; [done|]. split; [|done]. eexists. split; [exact E2|]. cbn [enc BytesSpec_num num_val].
    pose proof (num_enc_length t v Ht Hv). pose proof (num_need_sizeof t). pose proof (num_enc_nonempty t v). lia.
  - destruct (pool_write_read d old bb) as (bb' & E1 & E2 & E3); [|done..|].
    { destruct d as [x|]; [|done]. split; [by apply Hd|done]. }
    exists bb'. split; [done|]. split; [|done]. eexists. split; [exact E2|]. cbn [enc BytesSpec_optional].
    destruct d as [x|]; [|done]. rewrite zlen_cons. pose proof (double_enc_length x). pose proof (zlen_nonneg (enc x)). cbn [enc BytesSpec_double] in *. lia.
Qed.

#[local] Instance cvt_min : FloatToInt.
Proof. refine {| cvt_out_of_range := fun _ => - 2 ^ 31 |}. intros. vm_compute. split; [discriminate|reflexivity]. Defined.

Definition bb_example (n : nat) : BBuffer := MkBBuffer (Some <$> replicate n 7) (Z.of_nat n) 0 0.

Lemma bb_example_wf n : (n <= 64)%nat -> bb_wf (bb_example n).
Proof.
  intros Hn. unfold bb_wf, bufLen. cbn [cells dataLen bb_example]. rewrite zlen_fmap. unfold zlen. rewrite length_replicate. change (2 ^ 63) with 9223372036854775808. lia.
Qed.

Lemma bb_example_holds n : holds (replicate n 7) (bb_example n).
Proof. split; [cbn; unfold zlen; by rewrite length_replicate|]. exists []. by rewrite app_nil_r. Qed.

Lemma pooled_roundtrip_witness :
  (exists bb', Write (Num (t := U64) (2 ^ 64 - 1)) (bb_example 3) = Done tt bb' /\ (exists e, holds ([7; 7; 7] ++ e) bb' /\ 1 <= zlen e <= 9) /\
     Read (T := num U64) (set_offset 3 bb') = Done (Num (2 ^ 64 - 1)) (set_offset (dataLen bb') bb')) /\
  (exists bb', Write (Some (Double (2 ^ 62))) (bb_example 3) = Done tt bb' /\ (exists e, holds ([7; 7; 7] ++ e) bb' /\ 1 <= zlen e <= 10) /\
     Read (T := option double) (set_offset 3 bb') = Done (Some (d_norm (Double (2 ^ 62)))) (set_offset (dataLen bb') bb')).
Proof.
  apply (pooled_roundtrip U64 (2 ^ 64 - 1) (Some (Double (2 ^ 62))) [7; 7; 7] (bb_example 3)).
  - apply StdIty_64.
  - vm_compute. split; [discriminate|reflexivity].
  - intros x [= <-]. vm_compute. split; [discriminate|reflexivity].
  - apply bb_example_wf. lia.
  - apply (bb_example_holds 3).
  - vm_compute. discriminate.
Defined.

(** C38. Whatever bytes the buffer holds, reading an integer, a double or an
    optional integer is defined (no read outside the data, no shift that is
    too wide): it gives a value of the type, or a negative code, and the
    position stays inside the data. *)
Theorem pooled_reads_safe (t : ity) : std_ity t ->
  safe_read (fun v => in_range t (num_val v)) (Read (T := num t)) /\
  safe_read (fun _ => True) double_ReadFrom /\
  safe_read (fun o => match o with Some v => in_range t (num_val v) | None => True end) (Read (T := option (num t))).
Proof.
  intros Ht. split; [by apply pool_safe_ReadFrom_num|]. split; [apply pool_safe_double_ReadFrom|]. apply (safe_optional (fun v => in_range t (num_val v))). by apply pool_safe_ReadFrom_num.
Qed.

Lemma pooled_reads_safe_witness :
  safe_read (fun v => in_range U16 (num_val v)) (Read (T := num U16)) /\ readable (bb_example 3) /\
  Read (T := num U16) (MkBBuffer (Some <$> [255; 255; 4]) 3 0 0) = Fail (-2) (MkBBuffer (Some <$> [255; 255; 4]) 3 0 0).
Proof.
  split; [apply (pooled_reads_safe U16), StdIty_16|]. split; [|vm_compute; reflexivity].
  exists [7; 7; 7]. split; [apply (bb_example_holds 3)|]. split; [by repeat constructor|]. vm_compute. repeat split; discriminate.
Defined.

(** [WriteBufAt] changes the bytes at [pos] and nothing else, and so does
    [WriteAt] of an integer when the room that it asks for ([sizeof(T) + 1]
    bytes, more than it may write) is there. *)
Theorem write_at_in_place (t : ity) (v : Z) (buf : bytes) (pos : Z) old bb :
  std_ity t -> in_range t v -> bb_wf bb -> holds old bb -> dataLen bb + zlen buf + 64 <= 2 ^ 62 -> 0 <= pos < dataLen bb ->
  (exists bb', WriteBufAt pos buf bb = Done tt bb' /\ holds (overwritten old pos buf) bb') /\
  (pos + sizeof t + 1 <= bufLen bb ->
   exists bb', WriteAt pos (Num (t := t) v) bb = Done tt bb' /\ holds (overwritten old pos (num_enc t v)) bb').
Proof.
  intros Ht Hv W Hh Hl Hp. pose proof (zlen_nonneg buf). split; [apply WriteBufAt_spec; done || lia|]. intros Hr. pose proof (WriteAt_spec (H0 := BytesSpec_num t (StdIty0 := Ht)) (Num v)) as A. cbn [enc ok need BytesSpec_num num_val] in A.
  apply A; [done|done|done|lia|done|]. left. cbn [need BytesSpec_num]. pose proof (num_need_sizeof t). lia.
Qed.

Lemma write_at_in_place_witness :
  (exists bb', WriteBufAt 1 [1; 2; 3] (bb_example 3) = Done tt bb' /\ holds [7; 1; 2; 3] bb') /\
  (exists bb', WriteAt 1 (Num (t := U16) 5) (bb_example 8) = Done tt bb' /\ holds [7; 5; 7; 7; 7; 7; 7; 7] bb').
Proof.
  split.
  - apply (write_at_in_place U16 5 [1; 2; 3] 1 [7; 7; 7] (bb_example 3)); [apply StdIty_16|by vm_compute|apply bb_example_wf; lia|apply (bb_example_holds 3)|by vm_compute|by vm_compute].
  - apply (write_at_in_place U16 5 [] 1 (replicate 8 7) (bb_example 8)); [apply StdIty_16|by vm_compute|apply bb_example_wf; lia|apply (bb_example_holds 8)|by vm_compute|by vm_compute|by vm_compute].
Defined.

(** Where that room is missing [WriteAt] moves to a new block to which
    only the bytes before [pos] are copied: when the number ends before the
    data did, the bytes behind it are lost, and the buffer ends in cells that
    were never written. *)
Theorem write_at_loses_tail (t : ity) (v : Z) (pos : Z) old bb :
  std_ity t -> sizeof t <> 1 -> in_range t v -> bb_wf bb -> holds old bb -> dataLen bb + 64 <= 2 ^ 62 -> 0 <= pos ->
  bufLen bb < pos + sizeof t + 1 -> pos + zlen (num_enc t v) < dataLen bb ->
  exists bb', WriteAt pos (Num (t := t) v) bb = Done tt bb' /\ dataLen bb' = dataLen bb /\ load (dataLen bb' - 1) bb' = undef bb'.
Proof.
  intros Ht H1 Hv W Hh Hl Hp Hr Hlen. pose proof (zlen_nonneg (num_enc t v)). pose proof (num_need_bound t Ht) as Hn. destruct (W) as [[W1 W2] W3].
  unfold num_need in Hn. destruct (Z.eqb_spec (sizeof t) 1); [done|]. change (2 ^ 62) with 4611686018427387904 in Hl.
  set (bb0 := set_dataLen pos bb). assert (W0 : bb_wf bb0) by (apply set_dataLen_wf; [done|lia]).
  pose proof (zlen_take_cells bb0 W0) as Htk. cbn [dataLen set_dataLen bb0] in Htk.
  destruct (Round2n_spec (pos + sizeof t + 1 + 8) ltac:(rng)) as (k & Hk & Er & Hb).
  set (N := Z.to_nat (2 ^ k - 8 - pos)). set (bb1 := set_cells (take (Z.to_nat pos) (cells bb0) ++ replicate N None) bb0).
  assert (E1 : Reserve (u64 (pos + sizeof t + 1)) bb0 = Done tt bb1).
  { unfold Reserve. rewrite (uint_small 64) by rng. change (bufLen bb0) with (bufLen bb). destruct (Z.leb_spec (pos + sizeof t + 1) (bufLen bb)); [lia|].
    unfold MemHeader_size. rewrite (uint_small 64), Er by rng. rewrite (uint_small 64) by rng. cbn [dataLen set_dataLen bb0].
    by destruct (Z.ltb_spec (2 ^ k - 8) pos); [lia|]. }
  assert (L1 : bufLen bb1 = 2 ^ k - 8).
  { unfold bufLen, bb1. cbn [cells set_cells]. rewrite zlen_app, Htk. unfold zlen. rewrite length_replicate. lia. }
  assert (W1' : bb_wf bb1).
  { split; [change (dataLen bb1) with pos; lia|]. rewrite L1. assert (2 ^ k <= 2 ^ 63) by (apply Z.pow_le_mono_r; lia). lia. }
  destruct (pool_emit_spec (num_enc t v) bb1 W1') as (bb2 & E2 & W2' & D2 & _ & _ & c & Ec & Cc); [change (dataLen bb1) with pos; lia|].
  change (dataLen bb1) with pos in *. rewrite Cc in Ec by lia. clear Cc.
  assert (Ew : Write (Num (t := t) v) bb0 = Done tt bb2).
  { unfold Write. cbn [WriteTo BytesFunc_num num_val]. unfold num_enc in E2. destruct (Z.eqb_spec (sizeof t) 1); [done|].
    erewrite bind_done by (erewrite bind_done by done; erewrite bind_done by exact E1; exact E2).
    erewrite bind_done by done. destruct W2' as [[? ?] ?]. by destruct (Z.leb_spec (dataLen bb2) (bufLen bb2)); [|lia]. }
  eexists. split; [apply write_at_done; [lia|exact Ew]|]. destruct (Z.ltb_spec (dataLen bb2) (dataLen bb)); [|lia]. split; [done|].
  cbn [dataLen set_dataLen]. unfold load. erewrite bind_done by done. cbn [cells set_dataLen]. rewrite Ec.
  assert (Hd : drop (Z.to_nat (pos + zlen (num_enc t v))) (cells bb1) = replicate (N - Z.to_nat (zlen (num_enc t v))) None).
  { unfold bb1. cbn [cells set_cells]. rewrite drop_app_ge by (unfold zlen in Htk; lia). rewrite drop_replicate. f_equal. unfold zlen in *. lia. }
  assert (Ht1 : zlen (take (Z.to_nat pos) (cells bb1)) = pos) by (apply (zlen_take_cells bb1 W1')).
  rewrite Hd. unfold num_need in *. rewrite znth_app_r by lia. rewrite znth_app_r by (rewrite zlen_fmap; lia). rewrite Ht1, zlen_fmap.
  unfold znth. destruct (Z.ltb_spec (dataLen bb - 1 - pos - zlen (num_enc t v)) 0); [lia|].
  rewrite lookup_replicate_2; [done|]. subst N. lia.
Qed.

Lemma write_at_loses_tail_witness :
  exists bb', WriteAt 20 (Num (t := U32) 1) (bb_example 24) = Done tt bb' /\ dataLen bb' = 24 /\ load 23 bb' = undef bb'.
Proof.
  destruct (write_at_loses_tail U32 1 20 (replicate 24 7) (bb_example 24)) as (bb' & E1 & E2 & E3).
  - apply StdIty_32.
  - discriminate.
  - by vm_compute.
  - apply bb_example_wf. lia.
  - apply bb_example_holds.
  - by vm_compute.
  - lia.
  - by vm_compute.
  - by vm_compute.
  - exists bb'. rewrite E2 in E3. done.
Defined.
