(* ===== verification/Random.v ===== *)
(** * xx_random.hpp: the subtractive generator

    The generator of .NET (Knuth's subtractive method) with its state of 55
    numbers.  [int] arithmetic that overflows, and an index outside the array,
    are undefined.  The outputs that go through [double] are left out. *)

From Stdlib Require Import ZArith Lia.
From stdpp Require Import base numbers list gmap.
From S2P Require Import Prelude Util BBuffer Bytes.
Open Scope Z_scope.

Definition MBIG : Z := 2 ^ 31 - 1.
Definition MSEED : Z := 161803398.

Record Random := MkRandom { inext : Z; inextp : Z; SeedArray : list Z }.

(** [SeedArray[i]], and the assignment to it. *)
Definition seed_at (i : Z) : M Random Z := r ← get; demand (znth (SeedArray r) i).
Definition set_seed (i v : Z) : M Random unit := fun r =>
  if (0 <=? i) && (i <? zlen (SeedArray r)) then Done tt (MkRandom (inext r) (inextp r) (<[Z.to_nat i := v]> (SeedArray r)))
  else Undef.

(** The result of an [int] operation. *)
Definition int32 (z : Z) : M Random Z := if bool_decide (is_sint 32 z) then mret z else undef.

(** [if (v < 0) v += MBIG;] *)
Definition wrap (v : Z) : M Random Z := if v <? 0 then int32 (v + MBIG) else mret v.

(** The first loop of [Init] for the [i] of a list, from [mj] and [mk]. *)
Fixpoint Init_fill (l : list Z) (mj mk : Z) : M Random unit :=
  match l with
  | [] => mret tt
  | i :: l =>
      let ii := (21 * i) mod 55 in
      _ ← set_seed ii mk;
      mk ← int32 (mj - mk);
      mk ← wrap mk;
      mj ← seed_at ii;
      Init_fill l mj mk
  end.

(** The second loop: one step for every [i] of a list. *)
Definition Init_mix (i : Z) : M Random unit :=
  a ← seed_at i; b ← seed_at (1 + (i + 30) mod 55);
  v ← int32 (a - b); _ ← set_seed i v;
  v ← wrap v; set_seed i v.

Fixpoint each (l : list Z) (f : Z -> M Random unit) : M Random unit :=
  match l with
  | [] => mret tt
  | i :: l => _ ← f i; each l f
  end.

Definition Init (seed : Z) : M Random unit :=
  let subtraction := if seed =? - 2 ^ 31 then 2 ^ 31 - 1 else Z.abs seed in
  mj ← int32 (MSEED - subtraction);
  _ ← set_seed 55 mj;
  _ ← Init_fill (seqZ 1 54) mj 1;
  _ ← each (seqZ 1 4) (fun k => each (seqZ 1 55) Init_mix);
  modify (fun r => MkRandom 0 21 (SeedArray r)).

(** The constructor.  [inext] and [inextp] are set by [Init]. *)
Definition new_Random (seed : Z) : option Random :=
  match Init seed (MkRandom 0 0 (replicate 56 0)) with Done _ r => Some r | _ => None end.

Definition InternalSample : M Random Z :=
  r ← get;
  let locINext := inext r + 1 in
  let locINext := if 56 <=? locINext then 1 else locINext in
  let locINextp := inextp r + 1 in
  let locINextp := if 56 <=? locINextp then 1 else locINextp in
  a ← seed_at locINext; b ← seed_at locINextp;
  retVal ← int32 (a - b);
  let retVal := if retVal =? MBIG then retVal - 1 else retVal in
  retVal ← wrap retVal;
  _ ← set_seed locINext retVal;
  _ ← modify (fun r => MkRandom locINext locINextp (SeedArray r));
  mret retVal.

Definition Next : M Random Z := InternalSample.

(** The 232 bytes of the object, from [inext] on. *)
Definition Random_bytes (r : Random) : bytes :=
  le_bytes 4 (inext r) ++ le_bytes 4 (inextp r) ++ (SeedArray r ≫= le_bytes 4).

Definition Random_ToBBuffer (r : Random) : M Bytes.BBuffer unit := write_raw (Random_bytes r).

(** [n] integers of four bytes. *)
Fixpoint ints_of (n : nat) (bs : bytes) : list Z :=
  match n with
  | O => []
  | S n => sint 32 (le_val (take 4 bs)) :: ints_of n (drop 4 bs)
  end.

Definition Random_FromBBuffer : M Bytes.BBuffer Random :=
  bs ← read_raw 232 (-1);
  match ints_of 58 bs with
  | a :: b :: arr => mret (MkRandom a b arr)
  | _ => undef
  end.
