(* ===== verification/RandomProps.v ===== *)
(** * The generator: samples in range, and the lagged subtraction that it is

    The array with its two positions refines a queue of the last 55 numbers:
    a sample is the oldest less the one 21 places later. *)

From Stdlib Require Import ZArith Lia.
From stdpp Require Import base numbers list gmap.
From S2P Require Import Prelude Util BBuffer Bytes BytesProps Random.
Open Scope Z_scope.

(** ** The array *)

Definition entry (x : Z) : Prop := 0 <= x <= MBIG.

Definition seeded (r : Random) : Prop := length (SeedArray r) = 56%nat /\ Forall entry (SeedArray r).

Lemma seed_at_spec r i : seeded r -> 0 <= i < 56 -> exists x, SeedArray r !! Z.to_nat i = Some x /\ entry x /\ seed_at i r = Done x r.
Proof.
  intros [Hl Hf] Hi. destruct (lookup_lt_is_Some_2 (SeedArray r) (Z.to_nat i)) as [x Hx]; [lia|]. exists x. split; [done|].
  split; [by eapply Forall_lookup_1|]. unfold seed_at. erewrite bind_done by done. unfold znth. destruct (Z.ltb_spec i 0); [lia|]. by rewrite Hx.
Qed.

Lemma set_seed_spec r i v : length (SeedArray r) = 56%nat -> 0 <= i < 56 ->
  set_seed i v r = Done tt (MkRandom (inext r) (inextp r) (<[Z.to_nat i := v]> (SeedArray r))).
Proof.
  intros Hl Hi. unfold set_seed, zlen. rewrite Hl. destruct (Z.leb_spec 0 i); [|lia]. by destruct (Z.ltb_spec i (Z.of_nat 56)); [|lia].
Qed.

Lemma seeded_insert r i v a b : seeded r -> entry v -> seeded (MkRandom a b (<[i := v]> (SeedArray r))).
Proof. intros [Hl Hf] Hv. split; cbn; [by rewrite length_insert|]. by apply Forall_insert. Qed.

Lemma int32_spec z r : is_sint 32 z -> int32 z r = Done z r.
Proof. intros Hz. unfold int32. by rewrite bool_decide_true. Qed.

Lemma wrap_spec v r : - MBIG <= v <= MBIG -> wrap v r = Done (if v <? 0 then v + MBIG else v) r.
Proof. intros Hv. unfold wrap. destruct (Z.ltb_spec v 0); [|done]. apply int32_spec. unfold MBIG in *. rng. Qed.

Lemma entry_sub a b : entry a -> entry b -> is_sint 32 (a - b) /\ - MBIG <= a - b <= MBIG.
Proof. unfold entry, MBIG. intros. split; rng. Qed.

(** ** [Init] *)

Lemma Init_fill_spec l mj mk r : seeded r -> entry mj -> entry mk -> exists r', Init_fill l mj mk r = Done tt r' /\ seeded r'.
Proof.
  revert mj mk r. induction l as [|i l IH]; intros mj mk r Hr Hj Hk; [by exists r|]. cbn [Init_fill]. cbv zeta.
  set (ii := (21 * i) mod 55). assert (Hii : 0 <= ii < 56) by (pose proof (Z.mod_pos_bound (21 * i) 55 ltac:(lia)); lia).
  erewrite bind_done by (apply set_seed_spec; [apply Hr|done]). destruct (entry_sub mj mk Hj Hk) as [H1 H2].
  erewrite bind_done by (by apply int32_spec). erewrite bind_done by (by apply wrap_spec).
  pose proof (seeded_insert r (Z.to_nat ii) mk (inext r) (inextp r) Hr Hk) as Hr'.
  destruct (seed_at_spec _ ii Hr' Hii) as (x & _ & Hx & E). erewrite bind_done by exact E. apply IH; [done|done|].
  unfold entry in *. destruct (Z.ltb_spec (mj - mk) 0); lia.
Qed.

Lemma Init_mix_spec i r : seeded r -> 1 <= i <= 55 -> exists r', Init_mix i r = Done tt r' /\ seeded r'.
Proof.
  intros Hr Hi. unfold Init_mix. destruct (seed_at_spec r i Hr ltac:(lia)) as (a & _ & Ha & E1). erewrite bind_done by exact E1.
  pose proof (Z.mod_pos_bound (i + 30) 55 ltac:(lia)). destruct (seed_at_spec r (1 + (i + 30) mod 55) Hr ltac:(lia)) as (b & _ & Hb & E2).
  erewrite bind_done by exact E2. destruct (entry_sub a b Ha Hb) as [H1 H2]. erewrite bind_done by (by apply int32_spec).
  erewrite bind_done by (apply set_seed_spec; [apply Hr|lia]). erewrite bind_done by (by apply wrap_spec).
  rewrite set_seed_spec by (try (cbn; rewrite length_insert; apply Hr); lia). eexists. split; [done|]. cbn.
  rewrite list_insert_insert_eq. apply seeded_insert; [done|]. unfold entry in *. destruct (Z.ltb_spec (a - b) 0); lia.
Qed.

Lemma each_spec (P : Z -> Prop) l f r : (forall i r, P i -> seeded r -> exists r', f i r = Done tt r' /\ seeded r') -> Forall P l -> seeded r ->
  exists r', each l f r = Done tt r' /\ seeded r'.
Proof.
  intros Hf Hl. revert r. induction Hl as [|i l Hi Hl IH]; intros r Hr; [by exists r|]. cbn [each].
  destruct (Hf i r Hi Hr) as (r1 & E & Hr1). erewrite bind_done by exact E. by apply IH.
Qed.

Lemma mix_round r : seeded r -> exists r', each (seqZ 1 55) Init_mix r = Done tt r' /\ seeded r'.
Proof.
  intros Hr. apply (each_spec (fun i => 1 <= i <= 55)); [intros; by apply Init_mix_spec| |done].
  apply Forall_forall. intros i Hi%elem_of_seqZ. lia.
Qed.

(** Seeds up to [MSEED] in absolute value. *)
Lemma new_Random_spec seed : Z.abs seed <= MSEED -> exists r, new_Random seed = Some r /\ seeded r /\ inext r = 0 /\ inextp r = 21.
Proof.
  intros Hs. unfold MSEED in Hs. unfold new_Random, Init. destruct (Z.eqb_spec seed (- 2 ^ 31)); [rng|]. cbv zeta. unfold MSEED.
  erewrite bind_done by (apply int32_spec; rng). erewrite bind_done by (apply set_seed_spec; [done|lia]). cbn [inext inextp SeedArray].
  assert (H0 : seeded (MkRandom 0 0 (<[Z.to_nat 55 := 161803398 - Z.abs seed]> (replicate 56 0)))).
  { apply (seeded_insert (MkRandom 0 0 (replicate 56 0))); [split; [done|]|unfold entry, MBIG; rng]. apply Forall_replicate. unfold entry, MBIG. rng. }
  destruct (Init_fill_spec (seqZ 1 54) (161803398 - Z.abs seed) 1 _ H0) as (r1 & E1 & H1); [unfold entry, MBIG; rng..|]. erewrite bind_done by exact E1.
  destruct (each_spec (fun _ => True) (seqZ 1 4) (fun _ => each (seqZ 1 55) Init_mix) r1) as (r2 & E2 & H2); [intros; by apply mix_round|by apply Forall_true|done|].
  erewrite bind_done by exact E2. eexists. split; [done|]. split; [exact H2|done].
Qed.

(** ** The queue *)

(** Cell [1 + pos i] is the next after position [i]. *)
Definition pos (i : Z) : nat := if i =? 55 then 0 else Z.to_nat i.

(** The last 55 numbers, the oldest first. *)
Definition queue (r : Random) : list Z := let arr := drop 1 (SeedArray r) in drop (pos (inext r)) arr ++ take (pos (inext r)) arr.

Definition running (r : Random) : Prop :=
  seeded r /\ 0 <= inext r <= 55 /\ 0 <= inextp r <= 55 /\ pos (inextp r) = ((pos (inext r) + 21) mod 55)%nat.

(** Subtraction modulo [MBIG], with the two representations of zero that the
    code has. *)
Definition sub_mod (a b : Z) : Z :=
  let v := a - b in if v =? MBIG then v - 1 else if v <? 0 then v + MBIG else v.

Lemma pos_lt i : 0 <= i <= 55 -> (pos i < 55)%nat.
Proof. unfold pos. intros. destruct (Z.eqb_spec i 55); lia. Qed.

Lemma next_index i : 0 <= i <= 55 -> (if 56 <=? i + 1 then 1 else i + 1) = 1 + Z.of_nat (pos i).
Proof. unfold pos. intros. destruct (Z.leb_spec 56 (i + 1)), (Z.eqb_spec i 55); lia. Qed.

Lemma next_pos i : 0 <= i <= 55 -> pos (1 + Z.of_nat (pos i)) = ((pos i + 1) mod 55)%nat.
Proof.
  intros Hi. pose proof (pos_lt i Hi). unfold pos at 1. destruct (Z.eqb_spec (1 + Z.of_nat (pos i)) 55).
  - replace (pos i) with 54%nat by lia. done.
  - rewrite Nat.mod_small by lia. lia.
Qed.

Lemma queue_lookup r (k : nat) : length (SeedArray r) = 56%nat -> 0 <= inext r <= 55 -> (k < 55)%nat ->
  queue r !! k = SeedArray r !! S ((pos (inext r) + k) mod 55).
Proof.
  intros Hl Hi Hk. pose proof (pos_lt _ Hi) as Hp. unfold queue. set (p := pos (inext r)) in *. destruct (decide (p + k < 55)%nat).
  - rewrite lookup_app_l by (rewrite !length_drop; lia). rewrite !lookup_drop, Nat.mod_small by lia. done.
  - rewrite lookup_app_r by (rewrite !length_drop; lia). rewrite !length_drop, Hl. rewrite lookup_take_lt by lia. rewrite lookup_drop.
    f_equal. rewrite Nat.Div0.mod_eq. rewrite <-(Nat.div_unique (p + k) 55 1 (p + k - 55)) by lia. lia.
Qed.

Lemma queue_push (arr : list Z) (p : nat) v x : length arr = 55%nat -> (p < 55)%nat -> arr !! p = Some x ->
  let p' := ((p + 1) mod 55)%nat in
  drop p arr ++ take p arr = x :: drop (S p) arr ++ take p arr /\
  drop p' (<[p := v]> arr) ++ take p' (<[p := v]> arr) = (drop (S p) arr ++ take p arr) ++ [v].
Proof.
  intros Hl Hp Hx p'. split; [by rewrite (drop_S _ _ _ Hx)|]. subst p'. destruct (decide (p = 54%nat)) as [->|].
  - change ((54 + 1) mod 55)%nat with 0%nat. rewrite drop_0, take_0, app_nil_r. rewrite (drop_ge arr 55) by lia. rewrite insert_take_drop by lia.
    by rewrite (drop_ge arr 55) by lia.
  - rewrite Nat.mod_small by lia. rewrite Nat.add_1_r. rewrite drop_insert_lt by lia. rewrite (take_S_r _ _ v) by (apply list_lookup_insert_eq; lia).
    rewrite take_insert_ge by lia. by rewrite app_assoc.
Qed.

Lemma sub_mod_range a b : entry a -> entry b -> 0 <= sub_mod a b < MBIG.
Proof.
  unfold entry, sub_mod. cbv zeta. intros. assert (0 < MBIG) by done. destruct (Z.eqb_spec (a - b) MBIG); [lia|]. destruct (Z.ltb_spec (a - b) 0); lia.
Qed.

Lemma drop_insert_cell (arr : list Z) (j : nat) v : drop 1 (<[S j := v]> arr) = <[j := v]> (drop 1 arr).
Proof. by destruct arr. Qed.

(** One sample. *)
Lemma InternalSample_spec r : running r -> exists x y q, queue r = x :: q /\ queue r !! 21%nat = Some y /\ entry x /\ entry y /\
  exists r', InternalSample r = Done (sub_mod x y) r' /\ running r' /\ queue r' = q ++ [sub_mod x y].
Proof.
  intros (Hs & Hi & Hj & Hp). pose proof Hs as [Hl Hf]. pose proof (pos_lt _ Hi) as Li. pose proof (pos_lt _ Hj) as Lj.
  destruct (seed_at_spec r (1 + Z.of_nat (pos (inext r))) Hs ltac:(lia)) as (x & Lx & Hx & Ex).
  destruct (seed_at_spec r (1 + Z.of_nat (pos (inextp r))) Hs ltac:(lia)) as (y & Ly & Hy & Ey).
  replace (Z.to_nat (1 + Z.of_nat (pos (inext r)))) with (S (pos (inext r))) in Lx by lia.
  replace (Z.to_nat (1 + Z.of_nat (pos (inextp r)))) with (S (pos (inextp r))) in Ly by lia.
  destruct (queue_push (drop 1 (SeedArray r)) (pos (inext r)) (sub_mod x y) x) as [Q1 Q2]; [rewrite length_drop; lia|done|by rewrite lookup_drop|].
  exists x, y, (drop (S (pos (inext r))) (drop 1 (SeedArray r)) ++ take (pos (inext r)) (drop 1 (SeedArray r))). split; [done|].
  split; [rewrite queue_lookup by (done || lia); by rewrite <-Hp|]. split; [done|]. split; [done|].
  pose proof (sub_mod_range x y Hx Hy) as Hv. destruct (entry_sub x y Hx Hy) as [H1 H2].
  assert (E : InternalSample r = Done (sub_mod x y) (MkRandom (1 + Z.of_nat (pos (inext r))) (1 + Z.of_nat (pos (inextp r))) (<[S (pos (inext r)) := sub_mod x y]> (SeedArray r)))).
  { unfold InternalSample. erewrite bind_done by done. cbv zeta. rewrite !next_index by done. erewrite bind_done by exact Ex. erewrite bind_done by exact Ey.
    erewrite bind_done by (by apply int32_spec). unfold sub_mod in *. cbv zeta in *. destruct (Z.eqb_spec (x - y) MBIG) as [Em|Em].
    - erewrite bind_done by (apply wrap_spec; rewrite Em; done). destruct (Z.ltb_spec (x - y - 1) 0); [rewrite Em in *; done|].
      erewrite bind_done by (apply set_seed_spec; [done|lia]). erewrite bind_done by done. cbn. unfold mret, M_ret. do 3 f_equal. lia.
    - erewrite bind_done by (by apply wrap_spec). erewrite bind_done by (apply set_seed_spec; [done|lia]). erewrite bind_done by done. cbn. unfold mret, M_ret. do 3 f_equal. lia. }
  eexists. split; [exact E|]. split.
  - split; [apply seeded_insert; [done|unfold entry; lia]|]. cbn [inext inextp SeedArray]. split; [lia|]. split; [lia|]. rewrite !next_pos, Hp by done.
    rewrite !Nat.Div0.add_mod_idemp_l. f_equal. lia.
  - unfold queue. cbn [SeedArray inext]. rewrite next_pos, drop_insert_cell by done. exact Q2.
Qed.

(** The next [n] samples. *)
Fixpoint samples (n : nat) (r : Random) : option (list Z * Random) :=
  match n with
  | O => Some ([], r)
  | S n => match Next r with Done v r => '(l, r) ← samples n r; Some (v :: l, r) | _ => None end
  end.

(** The recurrence on the numbers themselves: the history grows by the oldest
    of its last 55 less the one 21 places later. *)
Fixpoint lagged (n : nat) (q : list Z) : list Z :=
  match n with
  | O => []
  | S n =>
      match q, q !! 21%nat with
      | x :: q, Some y => sub_mod x y :: lagged n (q ++ [sub_mod x y])
      | _, _ => []
      end
  end.

Lemma samples_lagged n r : running r -> exists r', samples n r = Some (lagged n (queue r), r') /\ running r' /\
  length (lagged n (queue r)) = n /\ Forall (fun v => 0 <= v < MBIG) (lagged n (queue r)).
Proof.
  revert r. induction n as [|n IH]; intros r Hr; [by exists r|].
  destruct (InternalSample_spec r Hr) as (x & y & q & Eq & Ey & Hx & Hy & r1 & E & Hr1 & Q1). cbn [samples lagged]. unfold Next. rewrite E.
  destruct (IH r1 Hr1) as (r2 & E2 & Hr2 & Hlen & Hall). rewrite Eq in *. rewrite Ey. rewrite Q1 in *. exists r2. rewrite E2. cbn. split; [done|]. split; [done|]. split; [by rewrite Hlen|].
  constructor; [by apply sub_mod_range|done].
Qed.

(** C37. For seeds up to [MSEED] in absolute value the generator is defined (no
    overflow, no index outside the array) for any number of samples, the
    samples are in [0, MBIG), and they are those of the lagged subtraction
    [x(n) = x(n-55) - x(n-34)] modulo [MBIG]. *)
Theorem random_is_lagged_subtraction (seed : Z) (n : nat) : Z.abs seed <= MSEED ->
  exists r r', new_Random seed = Some r /\ length (queue r) = 55%nat /\ samples n r = Some (lagged n (queue r), r') /\
    length (lagged n (queue r)) = n /\ Forall (fun v => 0 <= v < MBIG) (lagged n (queue r)).
Proof.
  intros Hs. destruct (new_Random_spec seed Hs) as (r & E & Hr & Ei & Ep).
  assert (Hrun : running r) by (split; [done|]; rewrite Ei, Ep; done).
  destruct (samples_lagged n r Hrun) as (r' & E' & _ & Hlen & Hall). exists r, r'. split; [done|]. split; [|done].
  unfold queue. rewrite Ei. change (pos 0) with 0%nat. rewrite drop_0, take_0, app_nil_r, length_drop, (proj1 Hr). done.
Qed.

Lemma random_is_lagged_subtraction_witness :
  exists r r', new_Random 42 = Some r /\ length (queue r) = 55%nat /\ samples 3 r = Some (lagged 3 (queue r), r') /\
    length (lagged 3 (queue r)) = 3%nat /\ Forall (fun v => 0 <= v < MBIG) (lagged 3 (queue r)).
Proof. apply (random_is_lagged_subtraction 42 3). vm_compute. discriminate. Defined.

(** The first samples of a seed. *)
Definition first_samples (n : nat) (seed : Z) : option (list Z) := r ← new_Random seed; fst <$> samples n r.

(** The samples of the generator that the code was translated from, and the
    seeds for which [Init] overflows. *)
Example samples_of_zero : first_samples 2 0 = Some [1559595546; 1755192844].
Proof. vm_compute. reflexivity. Qed.
Example samples_of_42 : first_samples 2 42 = Some [1434747710; 302596119].
Proof. vm_compute. reflexivity. Qed.
Lemma Init_overflows : new_Random 1000000000 = None /\ new_Random (2 ^ 31 - 1) = None.
Proof. split; vm_compute; reflexivity. Qed.

(** ** Storing the state *)

Lemma ints_of_bytes l : Forall (is_sint 32) l -> ints_of (length l) (l ≫= le_bytes 4) = l.
Proof.
  induction 1 as [|x l Hx Hl IH]; [done|]. cbn [length ints_of mbind list_bind]. rewrite take_app_length', drop_app_length' by by rewrite le_bytes_length.
  change (mbind (M := list) (le_bytes 4) l) with (l ≫= le_bytes 4). rewrite IH. f_equal. rewrite le_val_bytes. change (2 ^ (8 * Z.of_nat 4)) with (2 ^ 32).
  change (x mod 2 ^ 32) with (uint 32 x). rewrite sint_uint by lia. by apply sint_small.
Qed.

Lemma Random_bytes_ints r : Random_bytes r = (inext r :: inextp r :: SeedArray r) ≫= le_bytes 4.
Proof. done. Qed.

Lemma ints_length l : zlen (l ≫= le_bytes 4) = 4 * zlen l.
Proof.
  induction l as [|x l IH]; [done|]. change ((x :: l) ≫= le_bytes 4) with (le_bytes 4 x ++ (l ≫= le_bytes 4)).
  rewrite zlen_app, le_bytes_zlen, zlen_cons, IH. lia.
Qed.

(** The state of a running generator is written as 232 bytes and read back
    as it was.  The reader checks the length and nothing else: a state with a
    negative position is accepted, and the next sample reads outside the
    array. *)
Theorem random_state_roundtrip r old (bb : Bytes.BBuffer) :
  running r -> bb_wf bb -> holds old bb -> Bytes.dataLen bb + 232 <= 2 ^ 62 ->
  (exists bb', Random_ToBBuffer r bb = Done tt bb' /\ Bytes.dataLen bb' = Bytes.dataLen bb + 232 /\
     Random_FromBBuffer (set_offset (zlen old) bb') = Done r (set_offset (Bytes.dataLen bb') bb')) /\
  (exists bb' bb'', Random_ToBBuffer (MkRandom (-100) (inextp r) (SeedArray r)) bb = Done tt bb' /\
     Random_FromBBuffer (set_offset (zlen old) bb') = Done (MkRandom (-100) (inextp r) (SeedArray r)) bb'' /\
     Next (MkRandom (-100) (inextp r) (SeedArray r)) = Undef).
Proof.
  intros (Hs & Hi & Hj & _) W Hh Hl. pose proof Hs as [Hlen Hf].
  assert (Hall : Forall (is_sint 32) (SeedArray r)) by (eapply Forall_impl; [exact Hf|]; unfold entry, MBIG; intros; rng).
  assert (RT : forall i, is_sint 32 i -> let r := MkRandom i (inextp r) (SeedArray r) in
    exists bb', Random_ToBBuffer r bb = Done tt bb' /\ Bytes.dataLen bb' = Bytes.dataLen bb + 232 /\
      Random_FromBBuffer (set_offset (zlen old) bb') = Done r (set_offset (Bytes.dataLen bb') bb')).
  { intros i Hi32 r0. assert (Hz : zlen (Random_bytes r0) = 232).
    { rewrite Random_bytes_ints, ints_length, !zlen_cons. unfold zlen. cbn [SeedArray r0]. rewrite Hlen. done. }
    destruct (write_raw_spec (Random_bytes r0) bb W ltac:(lia)) as (bb' & E & Wr). exists bb'. split; [done|].
    pose proof Wr as (_ & D & _). rewrite Hz in D. split; [done|]. pose proof (wrote_holds _ _ _ _ _ Hh Wr) as Hh'. unfold Random_FromBBuffer. rewrite <-Hz at 1.
    erewrite bind_done by (apply (read_raw_at _ old (Random_bytes r0) []); [by rewrite app_nil_r|rewrite app_nil_r, zlen_app, Hz; rewrite (proj1 Hh) in Hl; lia|done|rewrite Hz; done]).
    rewrite Hz, Random_bytes_ints. cbn [inext inextp SeedArray r0].
    change 58%nat with (2 + 56)%nat. rewrite <-Hlen. change (2 + length (SeedArray r))%nat with (length (i :: inextp r :: SeedArray r)).
    rewrite ints_of_bytes by (repeat constructor; [rng|rng|rng|rng|done]).
    unfold mret, M_ret. f_equal. unfold set_offset. cbn. f_equal. rewrite D, (proj1 Hh). lia. }
  split.
  - pose proof (RT (inext r) ltac:(rng)) as R. cbv zeta in R. by destruct r.
  - destruct (RT (-100) ltac:(rng)) as (bb' & E1 & _ & E2). eauto 10.
Qed.

Lemma random_state_roundtrip_witness :
  exists r, new_Random 42 = Some r /\
  (exists bb', Random_ToBBuffer r (bb_example 3) = Done tt bb' /\ Bytes.dataLen bb' = 235 /\
     Random_FromBBuffer (set_offset 3 bb') = Done r (set_offset (Bytes.dataLen bb') bb')) /\
  Next (MkRandom (-100) (inextp r) (SeedArray r)) = Undef.
Proof.
  destruct (new_Random_spec 42) as (r & E & Hr & Ei & Ep); [vm_compute; discriminate|]. exists r. split; [exact E|]. clear E.
  destruct (random_state_roundtrip r [7; 7; 7] (bb_example 3)) as [H1 H2].
  - split; [done|]. rewrite Ei, Ep. done.
  - apply bb_example_wf. lia.
  - apply (bb_example_holds 3).
  - vm_compute. discriminate.
  - split; [exact H1|]. destruct H2 as (_ & _ & _ & _ & H2). exact H2.
Defined.
