(* ===== verification/MemPool.v ===== *)
(** * xx_mempool: the memory pool and its smart pointers

    Blocks of [2^idx] bytes are kept on 64 free lists; a block that is free
    holds the next one in its first eight bytes, a block in use holds there a
    version number whose top byte is [idx].  [Weak] and [Ref] remember the
    version and compare it.  A 64-bit target; the contents of blocks behind
    their headers are not modelled. *)

From Stdlib Require Import ZArith Lia.
From stdpp Require Import base numbers list gmap.
From S2P Require Import Prelude Util.
Open Scope Z_scope.

(** ** State *)

(** A block that [malloc] gave: its size, its first eight bytes
    ([versionNumber], or the next free block) and the fields of
    [MemHeader_Object] that objects have behind them. *)
Record block := MkBlock { size : Z; word : Z; refs : Z; typeId : Z }.

(** [headers]: the heads of the free lists, 0 for [nullptr]. *)
Record MemPool := MkPool { headers : list Z; versionNumber : Z; heap : gmap Z block }.

Definition new_MemPool : MemPool := MkPool (replicate 64 0) 0 ∅.

(** [sizeof(MemHeader_Object)]. *)
Definition MemHeader_Object_size : Z := 16.

(** [malloc]: 0, or the address of new memory, below [2^56] (user space) and
    apart from every block that was given before. *)
Class Malloc := {
  malloc : Z -> gmap Z block -> Z;
  malloc_spec n h : 0 < n -> let a := malloc n h in
    a = 0 \/ (0 < a /\ a + n <= 2 ^ 56 /\ forall b k, h !! b = Some k -> b + size k <= a \/ a + n <= b)
}.

Definition set_word (w : Z) (b : block) : block := MkBlock (size b) w (refs b) (typeId b).
Definition set_refs (r : Z) (b : block) : block := MkBlock (size b) (word b) r (typeId b).

Definition block_at (h : Z) : M MemPool block := P ← get; demand (heap P !! h).
Definition put_block (h : Z) (b : block) : M MemPool unit := modify (fun P => MkPool (headers P) (versionNumber P) (<[h := b]> (heap P))).
Definition header_at (idx : Z) : M MemPool Z := P ← get; demand (znth (headers P) idx).
Definition put_header (idx p : Z) : M MemPool unit := modify (fun P => MkPool (<[Z.to_nat idx := p]> (headers P)) (versionNumber P) (heap P)).

(** [mpIndex()]: the top byte of [versionNumber]. *)
Definition mpIndex (w : Z) : Z := Z.shiftr w 56.
Definition set_mpIndex (w idx : Z) : Z := w mod 2 ^ 56 + u8 idx * 2 ^ 56.

(** ** The pool *)

Section pool.
Context `{Malloc}.

(** [malloc(siz)]; the new memory has no meaningful contents. *)
Definition new_block (siz : Z) : M MemPool Z :=
  P ← get;
  let a := malloc siz (heap P) in
  if a =? 0 then mret 0 else _ ← put_block a (MkBlock siz 0 0 0); mret a.

(** The second half of [Alloc]: a block from list [idx], or a new one of [siz]
    bytes, and its header. *)
Definition Alloc_block (hs siz idx : Z) : M MemPool Z :=
  p ← header_at idx;
  p ← (if negb (p =? 0) then b ← block_at p; _ ← put_header idx (word b); mret p
       else new_block siz);
  if p =? 0 then mret 0
  else
    _ ← modify (fun P => MkPool (headers P) (u64 (versionNumber P + 1)) (heap P));
    P ← get;
    b ← block_at p;
    _ ← put_block p (set_word (set_mpIndex (versionNumber P) idx) b);
    mret (p + hs).

(** [Alloc<MHType>], with [hs] the size of the header type. *)
Definition Alloc (hs siz : Z) : M MemPool Z :=
  _ ← assert_ (negb (siz =? 0));
  let siz := u64 (siz + hs) in
  idx ← demand (Calc2n siz);
  '(siz, idx) ← (if u64 (Z.shiftl 1 idx) <? siz
                 then _ ← assert_ (idx + 1 <? 64); mret (u64 (Z.shiftl 1 (idx + 1)), idx + 1)
                 else mret (siz, idx));
  Alloc_block hs siz idx.

(** The block goes to the head of its free list. *)
Definition push_free (h idx : Z) : M MemPool unit :=
  next ← header_at idx; b ← block_at h; _ ← put_block h (set_word next b); put_header idx h.

Definition Free (hs p : Z) : M MemPool unit :=
  if p =? 0 then mret tt
  else
    let h := p - hs in
    b ← block_at h;
    let idx := mpIndex (word b) in
    _ ← assert_ ((0 <? idx) && (idx <? 64));
    push_free h idx.

(** [try] and [catch (...)]. *)
Definition catch {A} (m handler : M MemPool A) : M MemPool A := fun P =>
  match m P with
  | Fail _ P => handler P
  | o => o
  end.

(** [Create<T>]: [siz] is [sizeof(T)]; an exception of the constructor gives
    the memory back. *)
Definition Create (siz tid : Z) (ctor : Z -> M MemPool unit) : M MemPool Z :=
  p ← Alloc MemHeader_Object_size siz;
  if p =? 0 then mret 0
  else
    let h := p - MemHeader_Object_size in
    b ← block_at h;
    _ ← put_block h (MkBlock (size b) (word b) 0 tid);
    catch (_ ← ctor p; mret p) (_ ← Free MemHeader_Object_size p; mret 0).

(** [MemPool::Release] up to the destructor: [None] when there is nothing to
    do, else the list that the block will go to. *)
Definition Release_begin (p : Z) : M MemPool (option Z) :=
  if p =? 0 then mret None
  else
    let h := p - MemHeader_Object_size in
    b ← block_at h;
    if word b =? 0 then mret None
    else
      _ ← assert_ (refs b =? 0);
      let idx := mpIndex (word b) in
      _ ← assert_ ((0 <? idx) && (idx <? 64));
      _ ← put_block h (set_word 0 b);
      mret (Some idx).

(** ... and after it. *)
Definition Release_end (p idx : Z) : M MemPool unit := push_free (p - MemHeader_Object_size) idx.

Definition Release (dtor : Z -> M MemPool unit) (p : Z) : M MemPool unit :=
  o ← Release_begin p;
  match o with
  | None => mret tt
  | Some idx => _ ← dtor p; Release_end p idx
  end.

End pool.

(** ** Smart pointers *)

(** A [Ptr] or [Unique] made from a pointer, or copied: one reference more. *)
Definition AddRef (p : Z) : M MemPool unit :=
  if p =? 0 then mret tt
  else b ← block_at (p - MemHeader_Object_size); put_block (p - MemHeader_Object_size) (set_refs (u32 (refs b + 1)) b).

(** [Ptr::Reset], [Unique::Reset], their destructors: one less, and the last
    one releases. *)
Definition Ptr_Reset (dtor : Z -> M MemPool unit) (p : Z) : M MemPool Z :=
  if p =? 0 then mret 0
  else
    b ← block_at (p - MemHeader_Object_size);
    let r := u32 (refs b - 1) in
    _ ← put_block (p - MemHeader_Object_size) (set_refs r b);
    _ ← (if r =? 0 then Release dtor p else mret tt);
    mret 0.

(** [operator=] with a pointer. *)
Definition Ptr_assign (dtor : Z -> M MemPool unit) (pointer o : Z) : M MemPool Z :=
  if pointer =? o then mret pointer
  else _ ← Ptr_Reset dtor pointer; _ ← AddRef o; mret o.

(** [Weak] and [Ref]. *)
Record weak := MkWeak { pointer : Z; vn : Z }.

Definition Weak_Reset : weak := MkWeak 0 0.

(** Made from a pointer, or assigned one; [MakeWeak], [MakeRef]. *)
Definition Weak_of (o : Z) : M MemPool weak :=
  if o =? 0 then mret Weak_Reset
  else b ← block_at (o - MemHeader_Object_size); mret (MkWeak o (word b)).

(** [Weak::operator bool]: the answer, and the pointer, which is reset when
    the object is gone. *)
Definition Weak_bool (w : weak) : M MemPool (bool * weak) :=
  if negb (pointer w =? 0) then
    b ← block_at (pointer w - MemHeader_Object_size);
    if word b =? vn w then mret (true, w) else mret (false, Weak_Reset)
  else mret (false, w).

(** [Ref::operator bool] and [Ref::Lock]. *)
Definition Ref_bool (w : weak) : M MemPool bool :=
  if negb (pointer w =? 0) then b ← block_at (pointer w - MemHeader_Object_size); mret (word b =? vn w)
  else mret false.
Definition Ref_Lock (w : weak) : M MemPool weak :=
  v ← Ref_bool w; mret (if v : bool then w else Weak_Reset).

(** [~Ref]: an object that no [Ptr] holds is released. *)
Definition Ref_destroy (dtor : Z -> M MemPool unit) (w : weak) : M MemPool unit :=
  v ← Ref_bool w;
  if v : bool then
    b ← block_at (pointer w - MemHeader_Object_size);
    if refs b =? 0 then Release dtor (pointer w) else mret tt
  else mret tt.

(** [Object::IsReleased]. *)
Definition IsReleased (o v : Z) : M MemPool bool :=
  b ← block_at (o - MemHeader_Object_size); mret (negb (v =? word b)).

(** ** Type identifiers *)

(** The loop of [IsBaseOf] on the parents [pids]. *)
Fixpoint IsBaseOf_loop (fuel : nat) (pids : list Z) (baseTypeId typeId : Z) : option bool :=
  match fuel with
  | O => None
  | S fuel =>
      if typeId =? baseTypeId then Some true
      else if typeId =? 0 then Some false
      else
        p ← znth pids typeId;
        if typeId =? p then Some false else IsBaseOf_loop fuel pids baseTypeId p
  end.

(** One round for every identifier. *)
Definition IsBaseOf (pids : list Z) (baseTypeId typeId : Z) : option bool := IsBaseOf_loop (S (length pids)) pids baseTypeId typeId.

(** [Register<T, PT>]. *)
Definition Register (pids : list Z) (t pt : Z) : option (list Z) :=
  p ← znth pids t; if p =? 0 then Some (<[Z.to_nat t := pt]> pids) else None.
