(* ===== verification/MemPoolProps.v ===== *)
(** * The memory pool: disjoint blocks, and weak pointers that tell the truth

    A step relation gives the uses of the pool (allocate, free, the two halves
    of a release with anything in between, references); the invariant of its
    reachable states says which blocks are in use, in destruction and on which
    free list.  Runs are of fewer than [2^56] allocations. *)

From Stdlib Require Import ZArith Lia.
From stdpp Require Import base numbers list gmap relations.
From S2P Require Import Prelude Util MemPool.
Open Scope Z_scope.

(** ** The word of a block in use *)

Definition tag (idx n : Z) : Z := n + idx * 2 ^ 56.

Lemma set_mpIndex_tag idx n : 0 <= idx < 64 -> 0 <= n < 2 ^ 56 -> set_mpIndex n idx = tag idx n.
Proof. intros Hi Hn. unfold set_mpIndex, tag. rewrite Z.mod_small, uint_small by rng. done. Qed.

Lemma mpIndex_tag idx n : 0 <= n < 2 ^ 56 -> mpIndex (tag idx n) = idx.
Proof. intros Hn. unfold mpIndex, tag. rewrite Z.shiftr_div_pow2, Z.div_add, Z.div_small by lia. lia. Qed.

Lemma tag_inj i n j m : 0 <= n < 2 ^ 56 -> 0 <= m < 2 ^ 56 -> tag i n = tag j m -> i = j /\ n = m.
Proof.
  intros Hn Hm E. assert (i = j) by (rewrite <-(mpIndex_tag i n Hn), <-(mpIndex_tag j m Hm); by rewrite E). subst. unfold tag in E. split; [done|lia].
Qed.

Lemma tag_large idx n : 0 < idx -> 0 <= n -> 2 ^ 56 <= tag idx n.
Proof. unfold tag. lia. Qed.

(** ** Free lists *)

(** [l] is the list that starts at [x] in the words of [h]. *)
Fixpoint chain (h : gmap Z block) (x : Z) (l : list Z) : Prop :=
  match l with
  | [] => x = 0
  | a :: l => x = a /\ exists b, h !! a = Some b /\ chain h (word b) l
  end.

Lemma chain_ext h h' x l : (forall a b, a ∈ l -> h !! a = Some b -> exists b', h' !! a = Some b' /\ word b' = word b) -> chain h x l -> chain h' x l.
Proof.
  revert x. induction l as [|a l IH]; intros x Hh; [done|]. intros [-> (b & Hb & Hc)]. split; [done|].
  destruct (Hh a b) as (b' & Hb' & E); [left|done|]. exists b'. split; [done|]. rewrite E. apply IH; [|done]. intros c d Hc' Hd. apply Hh; [by right|done].
Qed.

Lemma chain_insert h x l a b : a ∉ l -> chain h x l -> chain (<[a := b]> h) x l.
Proof.
  intros Ha. apply chain_ext. intros c d Hc Hd. exists d. split; [|done]. rewrite lookup_insert_ne; [done|]. intros ->. done.
Qed.

(** ** The abstract state *)

(** [alive]: the blocks in use, with the number of their allocation.
    [dying]: those whose destructor runs, with the list that they go to. *)
Record ghost := Ghost { alive : gmap Z Z; dying : gmap Z Z }.

Definition ends (h : Z) (b : block) : Z := h + size b.

(** What a block of the pool is. *)
Definition in_use (P : MemPool) (h n : Z) : Prop :=
  exists b idx, heap P !! h = Some b /\ size b = 2 ^ idx /\ 0 < idx < 64 /\ word b = tag idx n /\ 0 < n <= versionNumber P.
Definition in_destruction (P : MemPool) (h idx : Z) : Prop :=
  exists b, heap P !! h = Some b /\ size b = 2 ^ idx /\ word b = 0 /\ 0 < idx < 64.
Definition is_free (G : ghost) (P : MemPool) (h idx : Z) : Prop :=
  0 <= idx < 64 /\ (exists b, heap P !! h = Some b /\ size b = 2 ^ idx) /\ alive G !! h = None /\ dying G !! h = None.

(** [fl idx]: the free list of class [idx]. *)
Record inv (fl : Z -> list Z) (G : ghost) (P : MemPool) : Prop := {
  inv_headers : length (headers P) = 64%nat;
  inv_version : 0 <= versionNumber P < 2 ^ 56;
  inv_chain idx x : znth (headers P) idx = Some x -> chain (heap P) x (fl idx);
  inv_nodup idx : NoDup (fl idx);
  inv_free idx h : h ∈ fl idx -> is_free G P h idx;
  inv_alive h n : alive G !! h = Some n -> in_use P h n /\ dying G !! h = None;
  inv_dying h idx : dying G !! h = Some idx -> in_destruction P h idx;
  inv_cover h b : heap P !! h = Some b -> is_Some (alive G !! h) \/ is_Some (dying G !! h) \/ exists idx, h ∈ fl idx;
  inv_range h b : heap P !! h = Some b -> 0 < h /\ ends h b <= 2 ^ 56;
  inv_apart h k b c : heap P !! h = Some b -> heap P !! k = Some c -> h <> k -> ends h b <= k \/ ends k c <= h
}.

(** ** The uses of the pool *)

Section uses.
Context `{Malloc}.

Inductive step : ghost * MemPool -> ghost * MemPool -> Prop :=
| step_alloc G P hs siz p P' : 0 < hs <= 16 -> 0 < siz -> hs + siz <= 2 ^ 63 -> versionNumber P + 1 < 2 ^ 56 ->
    Alloc hs siz P = Done p P' -> p <> 0 -> step (G, P) (Ghost (<[p - hs := versionNumber P']> (alive G)) (dying G), P')
| step_alloc_fails G P hs siz P' : 0 < hs <= 16 -> 0 < siz -> hs + siz <= 2 ^ 63 -> versionNumber P + 1 < 2 ^ 56 ->
    Alloc hs siz P = Done 0 P' -> step (G, P) (G, P')
| step_free G P hs p P' : 0 < hs -> is_Some (alive G !! (p - hs)) -> Free hs p P = Done tt P' ->
    step (G, P) (Ghost (delete (p - hs) (alive G)) (dying G), P')
| step_release_begin G P p idx P' : is_Some (alive G !! (p - 16)) -> Release_begin p P = Done (Some idx) P' ->
    step (G, P) (Ghost (delete (p - 16) (alive G)) (<[p - 16 := idx]> (dying G)), P')
| step_release_again G P p P' : is_Some (dying G !! (p - 16)) -> Release_begin p P = Done None P' -> step (G, P) (G, P')
| step_release_end G P p idx P' : dying G !! (p - 16) = Some idx -> Release_end p idx P = Done tt P' ->
    step (G, P) (Ghost (alive G) (delete (p - 16) (dying G)), P')
| step_fields G P h b r t : is_Some (alive G !! h) -> heap P !! h = Some b ->
    step (G, P) (G, MkPool (headers P) (versionNumber P) (<[h := MkBlock (size b) (word b) r t]> (heap P))).

Definition reachable (s : ghost * MemPool) : Prop := rtc step (Ghost ∅ ∅, new_MemPool) s.
End uses.

(** ** What the operations do *)

Lemma header_at_spec P i x : znth (headers P) i = Some x -> header_at i P = Done x P.
Proof. intros E. unfold header_at. erewrite bind_done by done. by rewrite E. Qed.

Lemma block_at_spec P h b : heap P !! h = Some b -> block_at h P = Done b P.
Proof. intros E. unfold block_at. erewrite bind_done by done. by rewrite E. Qed.

Lemma headers_znth P i : length (headers P) = 64%nat -> 0 <= i < 64 -> exists x, znth (headers P) i = Some x.
Proof. intros Hl Hi. apply znth_is_Some. unfold zlen. lia. Qed.

Lemma znth_header_same (l : list Z) i v : 0 <= i < zlen l -> znth (<[Z.to_nat i := v]> l) i = Some v.
Proof. intros Hi. unfold znth, zlen in *. destruct (Z.ltb_spec i 0); [lia|]. apply list_lookup_insert_eq. lia. Qed.

Lemma znth_header_other (l : list Z) i j v : 0 <= i -> i <> j -> znth (<[Z.to_nat i := v]> l) j = znth l j.
Proof. intros Hi Hj. unfold znth. destruct (Z.ltb_spec j 0); [done|]. apply list_lookup_insert_ne. lia. Qed.

Lemma push_free_spec P h i x b : znth (headers P) i = Some x -> heap P !! h = Some b ->
  push_free h i P = Done tt (MkPool (<[Z.to_nat i := h]> (headers P)) (versionNumber P) (<[h := set_word x b]> (heap P))).
Proof.
  intros Hx Hb. unfold push_free. erewrite bind_done by (by apply header_at_spec). erewrite bind_done by (by apply block_at_spec). by erewrite bind_done by done.
Qed.

(** The list that a request is served from. *)
Lemma size_class n : 2 <= n <= 2 ^ 63 -> exists k, 1 <= k <= 63 /\ n <= 2 ^ k < 2 * n /\
  forall A (f : Z * Z -> M MemPool A) P,
    (idx ← demand (Calc2n n);
     p ← (if u64 (Z.shiftl 1 idx) <? n then _ ← assert_ (idx + 1 <? 64); mret (u64 (Z.shiftl 1 (idx + 1)), idx + 1) else mret (n, idx)); f p) P
    = f (2 ^ k, k) P.
Proof.
  intros Hn. unfold Calc2n. destruct (Z.eqb_spec n 0); [lia|]. pose proof (Z.log2_spec n ltac:(lia)) as [L1 L2]. rewrite Z.pow_succ_r in L2 by apply Z.log2_nonneg.
  assert (L0 : 1 <= Z.log2 n) by (change 1 with (Z.log2 2); apply Z.log2_le_mono; lia).
  assert (L63 : Z.log2 n <= 63) by (change 63 with (Z.log2 (2 ^ 63)); apply Z.log2_le_mono; lia).
  assert (Hu : forall j, 0 <= j <= 63 -> u64 (Z.shiftl 1 j) = 2 ^ j).
  { intros j Hj. rewrite Z.shiftl_mul_pow2, Z.mul_1_l by lia. apply uint_small. pose proof (Z.pow_pos_nonneg 2 j). pose proof (Z.pow_le_mono_r 2 j 63). rng. }
  destruct (decide (2 ^ Z.log2 n = n)) as [E|E].
  - exists (Z.log2 n). split; [lia|]. split; [lia|]. intros A f P. erewrite bind_done by done. rewrite Hu by lia. rewrite E, Z.ltb_irrefl. by erewrite bind_done by done.
  - assert (L62 : Z.log2 n < 63). { destruct (decide (Z.log2 n = 63)) as [e|]; [rewrite e in *; lia|lia]. }
    exists (Z.log2 n + 1). rewrite (Z.pow_add_r 2 _ 1) by lia. change (2 ^ 1) with 2. split; [lia|]. split; [lia|]. intros A f P. erewrite bind_done by done. rewrite Hu by lia.
    destruct (Z.ltb_spec (2 ^ Z.log2 n) n); [|lia]. destruct (Z.ltb_spec (Z.log2 n + 1) 64); [|lia].
    erewrite bind_done by (erewrite bind_done by done; done). rewrite Hu by lia. rewrite (Z.pow_add_r 2 _ 1) by lia. done.
Qed.

Section alloc.
Context `{Malloc}.

(** The end of [Alloc] on the block at [p]. *)
Lemma Alloc_finish P p hs k b : p <> 0 -> 0 <= k < 64 -> 0 <= versionNumber P -> versionNumber P + 1 < 2 ^ 56 -> heap P !! p = Some b ->
  (if p =? 0 then mret 0
   else
    _ ← modify (fun P => MkPool (headers P) (u64 (versionNumber P + 1)) (heap P));
    P ← get; b ← block_at p; _ ← put_block p (set_word (set_mpIndex (versionNumber P) k) b); mret (p + hs)) P
  = Done (p + hs) (MkPool (headers P) (versionNumber P + 1) (<[p := set_word (tag k (versionNumber P + 1)) b]> (heap P))).
Proof.
  intros Hp Hk H0 H1 Hb. destruct (Z.eqb_spec p 0); [done|]. erewrite bind_done by done. erewrite bind_done by done.
  erewrite bind_done by (by apply block_at_spec). erewrite bind_done by done. cbn [versionNumber]. rewrite (uint_small 64) by rng.
  by rewrite set_mpIndex_tag by lia.
Qed.

Lemma new_block_fails n P : malloc n (heap P) = 0 -> new_block n P = Done 0 P.
Proof. intros E. unfold new_block. erewrite bind_done by done. cbv zeta. by rewrite E. Qed.

Lemma new_block_spec n P : malloc n (heap P) <> 0 ->
  new_block n P = Done (malloc n (heap P)) (MkPool (headers P) (versionNumber P) (<[malloc n (heap P) := MkBlock n 0 0 0]> (heap P))).
Proof. intros E. unfold new_block. erewrite bind_done by done. cbv zeta. by destruct (Z.eqb_spec (malloc n (heap P)) 0). Qed.

Lemma Alloc_spec fl G P hs siz : inv fl G P -> 0 < hs <= 16 -> 0 < siz -> hs + siz <= 2 ^ 63 -> exists k x,
  1 <= k <= 63 /\ siz + hs <= 2 ^ k /\ znth (headers P) k = Some x /\
  ((x = 0 /\ malloc (2 ^ k) (heap P) = 0 /\ Alloc hs siz P = Done 0 P) \/
   (x = 0 /\ malloc (2 ^ k) (heap P) <> 0 /\ (versionNumber P + 1 < 2 ^ 56 -> let a := malloc (2 ^ k) (heap P) in
      Alloc hs siz P = Done (a + hs) (MkPool (headers P) (versionNumber P + 1) (<[a := MkBlock (2 ^ k) (tag k (versionNumber P + 1)) 0 0]> (heap P))))) \/
   (x <> 0 /\ exists b l, heap P !! x = Some b /\ size b = 2 ^ k /\ fl k = x :: l /\ chain (heap P) (word b) l /\ (versionNumber P + 1 < 2 ^ 56 ->
      Alloc hs siz P = Done (x + hs) (MkPool (<[Z.to_nat k := word b]> (headers P)) (versionNumber P + 1) (<[x := set_word (tag k (versionNumber P + 1)) b]> (heap P)))))).
Proof.
  intros I Hh Hs Hb. destruct (size_class (siz + hs)) as (k & Hk & Hsk & Eq); [lia|].
  destruct (headers_znth P k (inv_headers _ _ _ I)) as [x Hx]; [lia|]. exists k, x. split; [done|]. split; [lia|]. split; [done|].
  assert (E : Alloc hs siz P = Alloc_block hs (2 ^ k) k P).
  { unfold Alloc. destruct (Z.eqb_spec siz 0); [lia|]. erewrite bind_done by done. cbv zeta. rewrite (uint_small 64) by rng.
    exact (Eq Z (fun p => let '(s, i) := p in Alloc_block hs s i) P). }
  rewrite E. clear E Eq. unfold Alloc_block.
  pose proof (inv_version _ _ _ I) as Hv. erewrite (bind_done (header_at k)) by (by apply header_at_spec).
  destruct (Z.eqb_spec x 0) as [->|Hx0]; cbn [negb].
  - destruct (decide (malloc (2 ^ k) (heap P) = 0)) as [Ea|Ea].
    + left. split; [done|]. split; [done|]. erewrite bind_done by (by apply new_block_fails). done.
    + right; left. split; [done|]. split; [done|]. intros Hv1. cbv zeta. erewrite bind_done by (by apply new_block_spec).
      rewrite (Alloc_finish _ _ _ _ (MkBlock (2 ^ k) 0 0 0)); [|done|lia|cbn; lia|done|cbn; by rewrite lookup_insert_eq]. cbn. by rewrite insert_insert_eq.
  - right; right. split; [done|]. pose proof (inv_chain _ _ _ I k x Hx) as C. destruct (fl k) as [|y l] eqn:El; [done|]. destruct C as [<- (b & Hb1 & C)].
    destruct (inv_free _ _ _ I k x) as (_ & (b' & Hb' & Sb) & _); [rewrite El; left|]. simplify_eq.
    exists b, l. do 4 (split; [done|]). intros Hv1. erewrite bind_done.
    2:{ erewrite bind_done by (by apply block_at_spec). by erewrite bind_done by done. }
    rewrite (Alloc_finish _ _ _ _ b); [done|done|lia|cbn; lia|done|done].
Qed.
End alloc.

(** ** The invariant is kept *)

(** The blocks of [P'] are blocks of [P], of the same size. *)
Definition same_sizes (h h' : gmap Z block) : Prop := forall a b', h' !! a = Some b' -> exists b, h !! a = Some b /\ size b = size b'.

Lemma same_sizes_insert h a b b' : h !! a = Some b -> size b = size b' -> same_sizes h (<[a := b']> h).
Proof.
  intros Hb Hs c d. destruct (decide (c = a)) as [->|Hc]; [rewrite lookup_insert_eq; intros; simplify_eq; eauto|].
  rewrite lookup_insert_ne by done. eauto.
Qed.

Definition ranged (h : gmap Z block) : Prop :=
  (forall a b, h !! a = Some b -> 0 < a /\ ends a b <= 2 ^ 56) /\
  (forall a k b c, h !! a = Some b -> h !! k = Some c -> a <> k -> ends a b <= k \/ ends k c <= a).

Lemma same_sizes_ranged h h' : same_sizes h h' -> ranged h -> ranged h'.
Proof.
  intros Hs [Hr Ha]. split.
  - intros a b' Hb. destruct (Hs a b' Hb) as (b & Hb' & E). unfold ends. rewrite <-E. by apply Hr.
  - intros a k b' c' Hb Hc Hne. destruct (Hs a b' Hb) as (b & Hb' & E1). destruct (Hs k c' Hc) as (c & Hc' & E2). unfold ends. rewrite <-E1, <-E2. by apply Ha.
Qed.

(** Blocks stay, and keep their size. *)
Definition kept (P P' : MemPool) : Prop := forall h b, heap P !! h = Some b -> exists b', heap P' !! h = Some b' /\ size b' = size b.

Lemma kept_insert P hd v h b b' : heap P !! h = Some b -> size b' = size b -> kept P (MkPool hd v (<[h := b']> (heap P))).
Proof.
  intros Hb Hs y c Hc. cbn. destruct (decide (y = h)) as [->|Hne]; [rewrite lookup_insert_eq; simplify_eq; eauto|]. rewrite lookup_insert_ne by done. eauto.
Qed.

Lemma kept_new P hd v h b : heap P !! h = None -> kept P (MkPool hd v (<[h := b]> (heap P))).
Proof. intros Hb y c Hc. cbn. rewrite lookup_insert_ne by (intros ->; congruence). eauto. Qed.

Lemma kept_trans P1 P2 P3 : kept P1 P2 -> kept P2 P3 -> kept P1 P3.
Proof. intros H12 H23 h b Hb. destruct (H12 h b Hb) as (b2 & H2 & E2). destruct (H23 h b2 H2) as (b3 & H3 & E3). exists b3. split; [done|congruence]. Qed.

Lemma kept_refl P : kept P P.
Proof. intros h b Hb. eauto. Qed.

Lemma inv_ranged fl G P : inv fl G P -> ranged (heap P).
Proof. intros I. split; [apply I|apply I]. Qed.

Definition upd (fl : Z -> list Z) (k : Z) (l : list Z) : Z -> list Z := fun j => if j =? k then l else fl j.

Lemma upd_same fl k l : upd fl k l k = l.
Proof. unfold upd. by rewrite Z.eqb_refl. Qed.
Lemma upd_other fl k l j : j <> k -> upd fl k l j = fl j.
Proof. intros. unfold upd. by destruct (Z.eqb_spec j k). Qed.

(** A block is on the list of its class only. *)
Lemma free_class fl G P h i b k : inv fl G P -> h ∈ fl i -> heap P !! h = Some b -> size b = 2 ^ k -> 0 <= k -> i = k.
Proof.
  intros I Hh Hb Hs Hk. destruct (inv_free _ _ _ I i h Hh) as (Hi & (b' & Hb' & Hs') & _). simplify_eq. rewrite Hs' in Hs. apply (Z.pow_inj_r 2); lia.
Qed.

Lemma inv_size fl G P a c : inv fl G P -> heap P !! a = Some c -> 0 < size c.
Proof.
  intros I Hc. destruct (inv_cover _ _ _ I a c Hc) as [[n Hn]|[[i Hi]|[i Hi]]].
  - destruct (inv_alive _ _ _ I a n Hn) as [(b & j & Hb & Sb & Hj & _) _]. simplify_eq. rewrite Sb. apply Z.pow_pos_nonneg; lia.
  - destruct (inv_dying _ _ _ I a i Hi) as (b & Hb & Sb & _ & Hj). simplify_eq. rewrite Sb. apply Z.pow_pos_nonneg; lia.
  - destruct (inv_free _ _ _ I i a Hi) as (Hj & (b & Hb & Sb) & _). simplify_eq. rewrite Sb. apply Z.pow_pos_nonneg; lia.
Qed.

Lemma inv_init : inv (fun _ => []) (Ghost ∅ ∅) new_MemPool.
Proof.
  constructor; cbn.
  - done.
  - lia.
  - intros idx x Hx. unfold znth in Hx. destruct (idx <? 0); [done|]. by destruct (proj1 (lookup_replicate 64 0 x (Z.to_nat idx)) Hx) as [-> _].
  - intros. constructor.
  - intros idx h Hh. by apply not_elem_of_nil in Hh.
  - intros h n Hn. by rewrite lookup_empty in Hn.
  - intros h n Hn. by rewrite lookup_empty in Hn.
  - intros h n Hn. by rewrite lookup_empty in Hn.
  - intros h n Hn. by rewrite lookup_empty in Hn.
  - intros h k b c Hn. by rewrite lookup_empty in Hn.
Qed.

(** Updates of a block that is on no list, or is leaving its list. *)
Lemma in_use_mono P P' h n a b' : a <> h -> heap P' = <[a := b']> (heap P) -> versionNumber P <= versionNumber P' -> in_use P h n -> in_use P' h n.
Proof.
  intros Ha E Hv (b & idx & Hb & Hs & Hi & Hw & Hn). exists b, idx. rewrite E, lookup_insert_ne by done. do 4 (split; [done|]). lia.
Qed.

Lemma in_destruction_mono P P' h n a b' : a <> h -> heap P' = <[a := b']> (heap P) -> in_destruction P h n -> in_destruction P' h n.
Proof. intros Ha E (b & Hb & Hs). exists b. by rewrite E, lookup_insert_ne. Qed.

(** A block of list [k] goes into use. *)
Lemma inv_alloc_reuse fl G P k x b l : inv fl G P -> 1 <= k <= 63 -> fl k = x :: l -> heap P !! x = Some b -> size b = 2 ^ k -> chain (heap P) (word b) l ->
  versionNumber P + 1 < 2 ^ 56 ->
  inv (upd fl k l) (Ghost (<[x := versionNumber P + 1]> (alive G)) (dying G))
    (MkPool (<[Z.to_nat k := word b]> (headers P)) (versionNumber P + 1) (<[x := set_word (tag k (versionNumber P + 1)) b]> (heap P))).
Proof.
  intros I Hk Hf Hb Hs Hc Hv. pose proof (inv_version _ _ _ I). pose proof (inv_nodup _ _ _ I k) as Nd. rewrite Hf in Nd. apply NoDup_cons in Nd as [Nx Nd].
  destruct (inv_free _ _ _ I k x) as (_ & _ & Na & Ndy); [rewrite Hf; left|].
  assert (Hx : forall j, j <> k -> x ∉ fl j) by (intros j Hj Hin; apply Hj; eapply free_class; [done..|lia]).
  assert (Hsub : forall j y, y ∈ upd fl k l j -> y ∈ fl j /\ y <> x).
  { intros j y Hy. destruct (decide (j = k)) as [->|Hj]; [rewrite upd_same in Hy; rewrite Hf; split; [by right|intros ->; done]|].
    rewrite upd_other in Hy by done. split; [done|]. intros ->. by eapply Hx. }
  destruct (same_sizes_ranged _ _ (same_sizes_insert (heap P) x b (set_word (tag k (versionNumber P + 1)) b) Hb eq_refl) (inv_ranged _ _ _ I)) as [R1 R2].
  constructor; cbn -[Z.pow].
  - rewrite length_insert. apply I.
  - lia.
  - intros j y Hy. destruct (decide (j = k)) as [->|Hj].
    + rewrite znth_header_same in Hy by (unfold zlen; rewrite (inv_headers _ _ _ I); lia). simplify_eq. rewrite upd_same. by apply chain_insert.
    + rewrite znth_header_other in Hy by lia. rewrite upd_other by done. apply chain_insert; [by apply Hx|by apply I].
  - intros j. destruct (decide (j = k)) as [->|Hj]; [by rewrite upd_same|rewrite upd_other by done; apply I].
  - intros j y Hy. apply Hsub in Hy as [Hy Hne]. destruct (inv_free _ _ _ I j y Hy) as (Hj & (c & Hc' & Sc) & A1 & A2). split; [done|].
    cbn. rewrite !lookup_insert_ne by done. eauto.
  - intros y n Hy. destruct (decide (y = x)) as [->|Hne].
    + rewrite lookup_insert_eq in Hy. simplify_eq. split; [|done]. eexists _, k. cbn. rewrite lookup_insert_eq. split; [done|]. cbn. split; [done|]. split; [lia|]. split; [done|lia].
    + rewrite lookup_insert_ne in Hy by done. destruct (inv_alive _ _ _ I y n Hy) as [U D]. split; [|done]. eapply (in_use_mono P); [|done|cbn; lia|done]. done.
  - intros y n Hy. eapply in_destruction_mono; [|done|by apply I]. intros ->. by rewrite Ndy in Hy.
  - intros y c Hy. destruct (decide (y = x)) as [->|Hne]; [left; rewrite lookup_insert_eq; eauto|]. rewrite !lookup_insert_ne in * by done.
    destruct (inv_cover _ _ _ I y c Hy) as [?|[?|[j Hj]]]; [by left|by right; left|]. right; right. exists j. destruct (decide (j = k)) as [->|Hjk]; [|by rewrite upd_other].
    rewrite upd_same. rewrite Hf in Hj. by apply elem_of_cons in Hj as [?|?].
  - exact R1.
  - exact R2.
Qed.

(** A new block goes into use. *)
Lemma inv_alloc_new `{Malloc} fl G P k : inv fl G P -> 1 <= k <= 63 -> malloc (2 ^ k) (heap P) <> 0 -> versionNumber P + 1 < 2 ^ 56 ->
  let a := malloc (2 ^ k) (heap P) in
  inv fl (Ghost (<[a := versionNumber P + 1]> (alive G)) (dying G))
    (MkPool (headers P) (versionNumber P + 1) (<[a := MkBlock (2 ^ k) (tag k (versionNumber P + 1)) 0 0]> (heap P))).
Proof.
  intros I Hk Ha Hv a. pose proof (inv_version _ _ _ I). pose proof (Z.pow_pos_nonneg 2 k ltac:(lia) ltac:(lia)) as Hp.
  destruct (malloc_spec (2 ^ k) (heap P) Hp) as [|(Ha0 & Ha1 & Ha2)]; [done|]. fold a in Ha0, Ha1, Ha2. pose proof (inv_ranged _ _ _ I) as [R1 R2].
  assert (Hnew : heap P !! a = None).
  { destruct (heap P !! a) as [c|] eqn:Hc; [|done]. exfalso. destruct (Ha2 a c Hc) as [Hd|Hd]; [|lia]. pose proof (R1 a c Hc).
    pose proof (inv_size _ _ _ a c I Hc). lia. }
  assert (Hx : forall j, a ∉ fl j) by (intros j Hin; destruct (inv_free _ _ _ I j a Hin) as (_ & (b & Hb & _) & _); congruence).
  assert (Na : dying G !! a = None).
  { destruct (dying G !! a) as [i|] eqn:E; [|done]. destruct (inv_dying _ _ _ I a i E) as (b & Hb & _). congruence. }
  constructor; cbn -[Z.pow].
  - apply I.
  - lia.
  - intros j y Hy. apply chain_insert; [apply Hx|by apply I].
  - apply I.
  - intros j y Hy. destruct (inv_free _ _ _ I j y Hy) as (Hj & (c & Hc' & Sc) & A1 & A2). assert (y <> a) by (intros ->; by eapply Hx). split; [done|]. cbn. rewrite !lookup_insert_ne by done. eauto.
  - intros y n Hy. destruct (decide (y = a)) as [->|Hne].
    + rewrite lookup_insert_eq in Hy. simplify_eq. split; [|done]. eexists _, k. cbn -[Z.pow]. rewrite lookup_insert_eq. split; [done|]. cbn -[Z.pow]. split; [done|]. split; [lia|]. split; [done|lia].
    + rewrite lookup_insert_ne in Hy by done. destruct (inv_alive _ _ _ I y n Hy) as [U D]. split; [|done]. eapply (in_use_mono P); [|done|cbn; lia|done]. done.
  - intros y n Hy. eapply in_destruction_mono; [|done|by apply I]. intros ->. by rewrite Na in Hy.
  - intros y c Hy. destruct (decide (y = a)) as [->|Hne]; [left; rewrite lookup_insert_eq; eauto|]. rewrite !lookup_insert_ne in * by done. by apply (inv_cover _ _ _ I y c).
  - intros y c Hy. destruct (decide (y = a)) as [->|Hne]; [rewrite lookup_insert_eq in Hy; simplify_eq; unfold ends; cbn -[Z.pow]; lia|]. rewrite lookup_insert_ne in Hy by done. by apply R1.
  - intros y z c d Hy Hz Hne. unfold ends in *. destruct (decide (y = a)) as [->|Hya], (decide (z = a)) as [->|Hza]; try done.
    + rewrite lookup_insert_eq in Hy. rewrite lookup_insert_ne in Hz by done. simplify_eq. cbn -[Z.pow]. destruct (Ha2 z d Hz); lia.
    + rewrite lookup_insert_eq in Hz. rewrite lookup_insert_ne in Hy by done. simplify_eq. cbn -[Z.pow]. destruct (Ha2 y c Hy); lia.
    + rewrite lookup_insert_ne in Hy, Hz by done. by apply R2.
Qed.

(** A block of class [k] that is on no list goes to the head of its list, and
    out of what it was. *)
Lemma inv_push fl G P h b k x : inv fl G P -> 0 <= k < 64 -> heap P !! h = Some b -> size b = 2 ^ k -> znth (headers P) k = Some x ->
  is_Some (alive G !! h) \/ is_Some (dying G !! h) ->
  inv (upd fl k (h :: fl k)) (Ghost (delete h (alive G)) (delete h (dying G)))
    (MkPool (<[Z.to_nat k := h]> (headers P)) (versionNumber P) (<[h := set_word x b]> (heap P))).
Proof.
  intros I Hk Hb Hs Hx Hu. pose proof (inv_version _ _ _ I).
  assert (Hout : forall j, h ∉ fl j).
  { intros j Hin. destruct (inv_free _ _ _ I j h Hin) as (_ & _ & E1 & E2). rewrite E1, E2 in Hu. by destruct Hu as [[? ?]|[? ?]]. }
  destruct (same_sizes_ranged _ _ (same_sizes_insert (heap P) h b (set_word x b) Hb eq_refl) (inv_ranged _ _ _ I)) as [R1 R2].
  constructor; cbn -[Z.pow].
  - rewrite length_insert. apply I.
  - done.
  - intros j y Hy. destruct (decide (j = k)) as [->|Hj].
    + rewrite znth_header_same in Hy by (unfold zlen; rewrite (inv_headers _ _ _ I); lia). simplify_eq. rewrite upd_same. split; [done|].
      exists (set_word x b). rewrite lookup_insert_eq. split; [done|]. apply chain_insert; [apply Hout|by apply I].
    + rewrite znth_header_other in Hy by lia. rewrite upd_other by done. apply chain_insert; [by apply Hout|by apply I].
  - intros j. destruct (decide (j = k)) as [->|Hj]; [rewrite upd_same; constructor; [apply Hout|apply I]|rewrite upd_other by done; apply I].
  - intros j y Hy. assert (Hc : y = h /\ j = k \/ y ∈ fl j /\ y <> h).
    { destruct (decide (j = k)) as [->|Hj]; [rewrite upd_same in Hy; apply elem_of_cons in Hy as [->|Hy]; [by left|]|rewrite upd_other in Hy by done];
        right; (split; [done|]); intros ->; by eapply Hout. }
    destruct Hc as [[-> ->]|[Hyf Hne]].
    + split; [lia|]. cbn. rewrite !lookup_insert_eq, !lookup_delete_eq. eauto.
    + destruct (inv_free _ _ _ I j y Hyf) as (Hj & (c & Hc & Sc) & A1 & A2). split; [done|]. cbn. rewrite lookup_insert_ne, !lookup_delete_ne by done. eauto.
  - intros y n Hy. destruct (decide (y = h)) as [->|Hne]; [by rewrite lookup_delete_eq in Hy|]. rewrite lookup_delete_ne in Hy by done.
    destruct (inv_alive _ _ _ I y n Hy) as [U D]. split; [|by rewrite lookup_delete_ne]. eapply (in_use_mono P); [|done|cbn; lia|done]. done.
  - intros y n Hy. destruct (decide (y = h)) as [->|Hne]; [by rewrite lookup_delete_eq in Hy|]. rewrite lookup_delete_ne in Hy by done.
    eapply in_destruction_mono; [|done|by apply I]. done.
  - intros y c Hy. destruct (decide (y = h)) as [->|Hne]; [right; right; exists k; rewrite upd_same; left|]. rewrite lookup_insert_ne in Hy by done. rewrite !lookup_delete_ne by done.
    destruct (inv_cover _ _ _ I y c Hy) as [?|[?|[j Hj]]]; [by left|by right; left|]. right; right. exists j.
    destruct (decide (j = k)) as [->|]; [rewrite upd_same; by right|by rewrite upd_other].
  - exact R1.
  - exact R2.
Qed.

(** The destructor of a block in use starts. *)
Lemma inv_begin fl G P h b k n : inv fl G P -> alive G !! h = Some n -> heap P !! h = Some b -> size b = 2 ^ k -> 0 < k < 64 ->
  inv fl (Ghost (delete h (alive G)) (<[h := k]> (dying G))) (MkPool (headers P) (versionNumber P) (<[h := set_word 0 b]> (heap P))).
Proof.
  intros I Hn Hb Hs Hk.
  assert (Hout : forall j, h ∉ fl j) by (intros j Hin; destruct (inv_free _ _ _ I j h Hin) as (_ & _ & E1 & E2); congruence).
  destruct (same_sizes_ranged _ _ (same_sizes_insert (heap P) h b (set_word 0 b) Hb eq_refl) (inv_ranged _ _ _ I)) as [R1 R2].
  constructor; cbn -[Z.pow]; try apply I.
  - intros j y Hy. apply chain_insert; [apply Hout|by apply I].
  - intros j y Hy. assert (y <> h) by (intros ->; by eapply Hout). destruct (inv_free _ _ _ I j y Hy) as (Hj & (c & Hc & Sc) & A1 & A2). split; [done|].
    cbn. rewrite !lookup_insert_ne, lookup_delete_ne by done. eauto.
  - intros y m Hy. destruct (decide (y = h)) as [->|Hne]; [by rewrite lookup_delete_eq in Hy|]. rewrite lookup_delete_ne in Hy by done.
    destruct (inv_alive _ _ _ I y m Hy) as [U D]. split; [|by rewrite lookup_insert_ne]. eapply (in_use_mono P); [|done|cbn; lia|done]. done.
  - intros y m Hy. destruct (decide (y = h)) as [->|Hne]; [rewrite lookup_insert_eq in Hy; simplify_eq|rewrite lookup_insert_ne in Hy by done].
    + exists (set_word 0 b). cbn -[Z.pow]. by rewrite lookup_insert_eq.
    + eapply in_destruction_mono; [|done|by apply I]. done.
  - intros y c Hy. destruct (decide (y = h)) as [->|Hne]; [right; left; rewrite lookup_insert_eq; eauto|]. rewrite !lookup_insert_ne in * by done. rewrite lookup_delete_ne by done.
    by apply (inv_cover _ _ _ I y c).
  - exact R1.
  - exact R2.
Qed.

(** The fields of an object change. *)
Lemma inv_fields fl G P h b n r t : inv fl G P -> alive G !! h = Some n -> heap P !! h = Some b ->
  inv fl G (MkPool (headers P) (versionNumber P) (<[h := MkBlock (size b) (word b) r t]> (heap P))).
Proof.
  intros I Hn Hb. destruct (inv_alive _ _ _ I h n Hn) as [(b' & k & Hb' & Sb & Hk & Wb & Vb) Hd]. simplify_eq.
  assert (Hout : forall j, h ∉ fl j) by (intros j Hin; destruct (inv_free _ _ _ I j h Hin) as (_ & _ & E1 & E2); congruence).
  destruct (same_sizes_ranged _ _ (same_sizes_insert (heap P) h b (MkBlock (size b) (word b) r t) Hb eq_refl) (inv_ranged _ _ _ I)) as [R1 R2].
  constructor; cbn -[Z.pow]; try apply I.
  - intros j y Hy. apply chain_insert; [apply Hout|by apply I].
  - intros j y Hy. assert (y <> h) by (intros ->; by eapply Hout). destruct (inv_free _ _ _ I j y Hy) as (Hj & (c & Hc & Sc) & A1 & A2). split; [done|].
    cbn. rewrite lookup_insert_ne by done. eauto.
  - intros y m Hy. destruct (inv_alive _ _ _ I y m Hy) as [U D]. split; [|done]. destruct (decide (y = h)) as [->|Hne].
    + simplify_eq. eexists _, k. cbn -[Z.pow]. rewrite lookup_insert_eq. by cbn -[Z.pow].
    + eapply (in_use_mono P); [|done|cbn; lia|done]. done.
  - intros y m Hy. assert (y <> h) by (intros ->; by rewrite Hd in Hy). eapply in_destruction_mono; [|done|by apply I]. done.
  - intros y c Hy. destruct (decide (y = h)) as [->|Hne]; [left; eauto|]. rewrite lookup_insert_ne in Hy by done. by apply (inv_cover _ _ _ I y c).
  - exact R1.
  - exact R2.
Qed.

(** ** Free and Release on blocks in use *)

Lemma Free_spec fl G P hs h n : inv fl G P -> 0 < hs -> alive G !! h = Some n ->
  exists P', Free hs (h + hs) P = Done tt P' /\ versionNumber P' = versionNumber P /\ kept P P' /\ exists fl', inv fl' (Ghost (delete h (alive G)) (dying G)) P'.
Proof.
  intros I Hs Hn. destruct (inv_alive _ _ _ I h n Hn) as [(b & k & Hb & Sb & Hk & Wb & Vb) Hd]. destruct (inv_range _ _ _ I h b Hb).
  pose proof (inv_version _ _ _ I). destruct (headers_znth P k (inv_headers _ _ _ I)) as [x Hx]; [lia|].
  eexists. split.
  - unfold Free. destruct (Z.eqb_spec (h + hs) 0); [lia|]. cbv zeta. replace (h + hs - hs) with h by lia. erewrite bind_done by (by apply block_at_spec).
    rewrite Wb, mpIndex_tag by lia. destruct (Z.ltb_spec 0 k); [|lia]. destruct (Z.ltb_spec k 64); [|lia]. erewrite bind_done by done. by apply push_free_spec.
  - split; [done|]. split; [by eapply kept_insert|]. eexists. pose proof (inv_push fl G P h b k x I ltac:(lia) Hb Sb Hx (or_introl (ex_intro _ n Hn))) as I'. rewrite (delete_id (dying G)) in I' by done. exact I'.
Qed.

Lemma Release_begin_spec fl G P h n b : inv fl G P -> alive G !! h = Some n -> heap P !! h = Some b -> refs b = 0 ->
  exists k P', Release_begin (h + 16) P = Done (Some k) P' /\ inv fl (Ghost (delete h (alive G)) (<[h := k]> (dying G))) P'.
Proof.
  intros I Hn Hb Hr. destruct (inv_alive _ _ _ I h n Hn) as [(b' & k & Hb' & Sb & Hk & Wb & Vb) Hd]. simplify_eq. destruct (inv_range _ _ _ I h b Hb).
  pose proof (inv_version _ _ _ I). exists k. eexists. split; [|by eapply inv_begin].
  unfold Release_begin, MemHeader_Object_size. destruct (Z.eqb_spec (h + 16) 0); [lia|]. cbv zeta. replace (h + 16 - 16) with h by lia.
  erewrite bind_done by (by apply block_at_spec). rewrite Wb. pose proof (tag_large k n ltac:(lia) ltac:(lia)).
  destruct (Z.eqb_spec (tag k n) 0); [lia|]. rewrite Hr. erewrite bind_done by done. rewrite mpIndex_tag by lia.
  destruct (Z.ltb_spec 0 k); [|lia]. destruct (Z.ltb_spec k 64); [|lia]. erewrite bind_done by done. by erewrite bind_done by done.
Qed.

Lemma Release_again_spec fl G P h k : inv fl G P -> dying G !! h = Some k -> 0 < h -> Release_begin (h + 16) P = Done None P.
Proof.
  intros I Hk Hh. destruct (inv_dying _ _ _ I h k Hk) as (b & Hb & _ & Wb & _). unfold Release_begin, MemHeader_Object_size. destruct (Z.eqb_spec (h + 16) 0); [lia|].
  cbv zeta. replace (h + 16 - 16) with h by lia. erewrite bind_done by (by apply block_at_spec). by rewrite Wb.
Qed.

Lemma Release_end_spec fl G P h k : inv fl G P -> dying G !! h = Some k ->
  exists P', Release_end (h + 16) k P = Done tt P' /\ versionNumber P' = versionNumber P /\ kept P P' /\ exists fl', inv fl' (Ghost (alive G) (delete h (dying G))) P'.
Proof.
  intros I Hk. destruct (inv_dying _ _ _ I h k Hk) as (b & Hb & Sb & _ & Hk64). destruct (headers_znth P k (inv_headers _ _ _ I)) as [x Hx]; [lia|].
  assert (Ha : alive G !! h = None) by (destruct (alive G !! h) as [n|] eqn:E; [|done]; destruct (inv_alive _ _ _ I h n E); congruence).
  eexists. split.
  - unfold Release_end, MemHeader_Object_size. replace (h + 16 - 16) with h by lia. by apply push_free_spec.
  - split; [done|]. split; [by eapply kept_insert|]. eexists. pose proof (inv_push fl G P h b k x I ltac:(lia) Hb Sb Hx (or_intror (ex_intro _ k Hk))) as I'. rewrite (delete_id (alive G)) in I' by done. exact I'.
Qed.

(** ** Reachable states *)

Section reach.
Context `{Malloc}.

(** [Alloc] in a state of the invariant: nothing, or a block that was not in
    use. *)
Lemma Alloc_inv fl G P hs siz : inv fl G P -> 0 < hs <= 16 -> 0 < siz -> hs + siz <= 2 ^ 63 -> versionNumber P + 1 < 2 ^ 56 ->
  Alloc hs siz P = Done 0 P \/
  exists h P' b fl', Alloc hs siz P = Done (h + hs) P' /\ 0 < h /\ versionNumber P' = versionNumber P + 1 /\
    alive G !! h = None /\ dying G !! h = None /\ heap P' !! h = Some b /\ hs + siz <= size b /\ kept P P' /\
    inv fl' (Ghost (<[h := versionNumber P']> (alive G)) (dying G)) P'.
Proof.
  intros I Hh Hsz Hb Hv.
  destruct (Alloc_spec fl G P hs siz I Hh Hsz Hb) as (k & x & Hk & Hsk & Hx & [(-> & _ & E)|[(-> & Ha & E)|(Hx0 & b & l & Hxb & Sb & Hf & Hc & E)]]); [by left|right..].
  - pose proof (inv_alloc_new fl G P k I Hk Ha Hv) as I'. set (a := malloc (2 ^ k) (heap P)) in *. cbv zeta in I'.
    eexists a, _, _, fl. split; [by apply E|]. cbn -[Z.pow]. rewrite lookup_insert_eq.
    destruct (inv_range _ _ _ I' a (MkBlock (2 ^ k) (tag k (versionNumber P + 1)) 0 0)) as [Ha0 _]; [cbn -[Z.pow]; by rewrite lookup_insert_eq|].
    assert (Hn : heap P !! a = None).
    { destruct (heap P !! a) as [c|] eqn:Hc; [|done]. destruct (malloc_spec (2 ^ k) (heap P)) as [|(_ & _ & M)]; [apply Z.pow_pos_nonneg; lia|done|].
      fold a in M. pose proof (Z.pow_pos_nonneg 2 k ltac:(lia) ltac:(lia)). destruct (M a c Hc) as [Hd|Hd]; [|lia].
      pose proof (inv_size _ _ _ a c I Hc). lia. }
    split; [done|]. split; [done|]. split; [|split; [|split; [done|split; [cbn -[Z.pow]; lia|split; [by apply kept_new|exact I']]]]].
    + destruct (alive G !! a) as [n|] eqn:En; [|done]. destruct (inv_alive _ _ _ I a n En) as [(c & _ & Hc & _) _]. congruence.
    + destruct (dying G !! a) as [n|] eqn:En; [|done]. destruct (inv_dying _ _ _ I a n En) as (c & Hc & _). congruence.
  - destruct (inv_free _ _ _ I k x) as (_ & _ & A1 & A2); [rewrite Hf; left|]. destruct (inv_range _ _ _ I x b Hxb).
    eexists x, _, _, _. split; [by apply E|]. cbn -[Z.pow]. rewrite lookup_insert_eq. split; [done|]. split; [done|]. split; [done|]. split; [done|]. split; [done|].
    cbn. split; [lia|]. split; [by eapply kept_insert|]. by eapply inv_alloc_reuse.
Qed.

Lemma step_inv fl s s' : inv fl s.1 s.2 -> step s s' ->
  (exists fl', inv fl' s'.1 s'.2) /\ versionNumber s.2 <= versionNumber s'.2 /\ kept s.2 s'.2 /\
  (forall h n, alive s'.1 !! h = Some n -> alive s.1 !! h = Some n \/ versionNumber s.2 < n).
Proof.
  intros I Hs. destruct Hs as [G P hs siz p P' Hh Hsz Hb Hv E Hp|G P hs siz P' Hh Hsz Hb Hv E|G P hs p P' Hh [n Hn] E|G P p k P' [n Hn] E|G P p P' [k Hk] E|G P p k P' Hk E|G P h b r t [n Hn] Hb]; cbn in *.
  - destruct (Alloc_inv fl G P hs siz I Hh Hsz Hb Hv) as [E'|(h & P1 & b & fl' & E' & _ & V & _ & _ & _ & _ & K & I')]; rewrite E' in E; simplify_eq.
    replace (h + hs - hs) with h by lia. split; [eauto|]. split; [lia|]. split; [done|]. intros y n Hy. destruct (decide (y = h)) as [->|Hne].
    + rewrite lookup_insert_eq in Hy. simplify_eq. right. lia.
    + rewrite lookup_insert_ne in Hy by done. by left.
  - destruct (Alloc_inv fl G P hs siz I Hh Hsz Hb Hv) as [E'|(h & P1 & b & fl' & E' & H0 & _)]; rewrite E' in E; simplify_eq; [|lia]. split; [eauto|]. split; [lia|]. split; [apply kept_refl|]. by left.
  - destruct (Free_spec fl G P hs (p - hs) n I Hh Hn) as (P1 & E' & V & K & fl' & I'). replace (p - hs + hs) with p in E' by lia.
    rewrite E' in E. simplify_eq. split; [eauto|]. split; [lia|]. split; [done|]. intros y m Hy. apply lookup_delete_Some in Hy as [_ Hy]. by left.
  - destruct (inv_alive _ _ _ I _ _ Hn) as [(b & j & Hb & Sb & Hj & Wb & Vb) _]. unfold Release_begin, MemHeader_Object_size in E. destruct (p =? 0); [done|]. cbv zeta in E.
    pose proof (inv_version _ _ _ I). pose proof (tag_large j n ltac:(lia) ltac:(lia)).
    erewrite bind_done in E by (by apply block_at_spec). rewrite Wb in E. destruct (Z.eqb_spec (tag j n) 0); [lia|]. destruct (refs b =? 0); [|done].
    erewrite bind_done in E by done. rewrite mpIndex_tag in E by lia. destruct (Z.ltb_spec 0 j), (Z.ltb_spec j 64); try lia. erewrite bind_done in E by done.
    erewrite bind_done in E by done. unfold mret, M_ret in E. simplify_eq. cbn. split; [exists fl; by eapply inv_begin|]. split; [lia|]. split; [by eapply kept_insert|].
    intros y m Hy. apply lookup_delete_Some in Hy as [_ Hy]. by left.
  - destruct (inv_dying _ _ _ I _ _ Hk) as (b & Hb & _). destruct (inv_range _ _ _ I _ _ Hb). pose proof (Release_again_spec fl G P (p - 16) k I Hk ltac:(lia)) as E'.
    replace (p - 16 + 16) with p in E' by lia. rewrite E' in E. simplify_eq. split; [eauto|]. split; [lia|]. split; [apply kept_refl|]. by left.
  - destruct (Release_end_spec fl G P (p - 16) k I Hk) as (P1 & E' & V & K & fl' & I'). replace (p - 16 + 16) with p in E' by lia.
    rewrite E' in E. simplify_eq. split; [eauto|]. split; [lia|]. split; [done|]. by left.
  - split; [exists fl; by eapply inv_fields|]. split; [lia|]. split; [by eapply kept_insert|]. by left.
Qed.

Lemma steps_inv s s' : rtc step s s' -> (exists fl, inv fl s.1 s.2) ->
  (exists fl', inv fl' s'.1 s'.2) /\ versionNumber s.2 <= versionNumber s'.2 /\ kept s.2 s'.2 /\
  (forall h n, alive s'.1 !! h = Some n -> alive s.1 !! h = Some n \/ versionNumber s.2 < n).
Proof.
  induction 1 as [s|s1 s2 s3 H12 _ IH]; intros [fl I]; [split; [eauto|]; split; [lia|]; split; [apply kept_refl|by left]|].
  destruct (step_inv fl s1 s2 I H12) as (I2 & V2 & K2 & A2). destruct (IH I2) as (I3 & V3 & K3 & A3). split; [done|]. split; [lia|]. split; [by eapply kept_trans|].
  intros h n Hn. destruct (A3 h n Hn) as [?|?]; [by apply A2|right; lia].
Qed.

Lemma reachable_inv s : reachable s -> exists fl, inv fl s.1 s.2.
Proof. intros Hr. apply (steps_inv _ _ Hr). eexists. apply inv_init. Qed.
(** What a free block holds is an address. *)
Lemma chain_word h x l a c : chain h x l -> a ∈ l -> h !! a = Some c -> word c = 0 \/ word c ∈ l.
Proof.
  revert x. induction l as [|y l IH]; intros x C Ha Hc; [by apply not_elem_of_nil in Ha|]. destruct C as [-> (b & Hb & C)].
  apply elem_of_cons in Ha as [->|Ha].
  - simplify_eq. destruct l as [|z l]; [by left|]. destruct C as [E _]. right. rewrite E. right. left.
  - destruct (IH _ C Ha Hc) as [?|?]; [by left|right; by right].
Qed.

Lemma free_word_small fl G P i h c : inv fl G P -> h ∈ fl i -> heap P !! h = Some c -> word c < 2 ^ 56.
Proof.
  intros I Hh Hc. destruct (inv_free _ _ _ I i h Hh) as (Hi & _). destruct (headers_znth P i (inv_headers _ _ _ I) Hi) as [x Hx].
  destruct (chain_word _ _ _ _ _ (inv_chain _ _ _ I i x Hx) Hh Hc) as [->|Hw]; [lia|].
  destruct (inv_free _ _ _ I i _ Hw) as (_ & (b & Hb & Sb) & _). pose proof (inv_range _ _ _ I _ _ Hb) as [_ Hr]. pose proof (inv_size _ _ _ _ _ I Hb). unfold ends in Hr. lia.
Qed.
End reach.

(** ** Properties *)

(** A release is its steps, with those of the destructor in between. *)
Lemma Release_steps `{Malloc} fl G P h n b dtor : inv fl G P -> alive G !! h = Some n -> heap P !! h = Some b -> refs b = 0 ->
  (forall k P1, Release_begin (h + 16) P = Done (Some k) P1 -> exists G2 P2, dtor (h + 16) P1 = Done tt P2 /\
     rtc step (Ghost (delete h (alive G)) (<[h := k]> (dying G)), P1) (G2, P2) /\ dying G2 !! h = Some k) ->
  exists G' P', Release dtor (h + 16) P = Done tt P' /\ rtc step (G, P) (G', P') /\ alive G' !! h <> Some n /\ dying G' !! h = None.
Proof.
  intros I Hn Hb Hr Hd. destruct (Release_begin_spec fl G P h n b I Hn Hb Hr) as (k & P1 & E1 & I1). destruct (Hd k P1 E1) as (G2 & P2 & E2 & R2 & D2).
  destruct (steps_inv _ _ R2 ltac:(eauto)) as ([fl2 I2] & V2 & _ & A2). cbn in *. destruct (Release_end_spec fl2 G2 P2 h k I2 D2) as (P3 & E3 & _).
  assert (S1 : step (G, P) (Ghost (delete h (alive G)) (<[h := k]> (dying G)), P1)).
  { pose proof (step_release_begin G P (h + 16) k P1) as S. replace (h + 16 - 16) with h in S by lia. by apply S; [eexists|]. }
  assert (S3 : step (G2, P2) (Ghost (alive G2) (delete h (dying G2)), P3)).
  { pose proof (step_release_end G2 P2 (h + 16) k P3) as S. replace (h + 16 - 16) with h in S by lia. by apply S. }
  exists (Ghost (alive G2) (delete h (dying G2))), P3. split; [|split; [|split; [|cbn; by rewrite lookup_delete_eq]]].
  - unfold Release. erewrite bind_done by exact E1. cbv beta iota. by erewrite bind_done by exact E2.
  - eapply rtc_l; [exact S1|]. eapply rtc_r; [exact R2|exact S3].
  - cbn. intros Hn2. destruct (A2 h n Hn2) as [Ha|Hv]; [by rewrite lookup_delete_eq in Ha|].
    destruct (step_inv fl (G, P) _ I S1) as (_ & V1 & _ & _). destruct (inv_alive _ _ _ I h n Hn) as [(? & ? & _ & _ & _ & _ & Vn) _]. cbn in *. lia.
Qed.

(** C26. In every state that the pool reaches: the blocks in use lie apart from
    each other; [Alloc] fails or gives a block that was not in use (nor in
    destruction), is large enough and lies apart from those in use; a block in
    use can be freed, and an object in use without references released. *)
Theorem pool_blocks_apart `{Malloc} G P : reachable (G, P) ->
  (forall h k b c, is_Some (alive G !! h) -> is_Some (alive G !! k) -> heap P !! h = Some b -> heap P !! k = Some c -> h <> k -> ends h b <= k \/ ends k c <= h) /\
  (forall hs siz, 0 < hs <= 16 -> 0 < siz -> hs + siz <= 2 ^ 63 -> versionNumber P + 1 < 2 ^ 56 ->
    Alloc hs siz P = Done 0 P \/
    exists h P' b, Alloc hs siz P = Done (h + hs) P' /\ alive G !! h = None /\ dying G !! h = None /\ heap P' !! h = Some b /\ hs + siz <= size b /\
      forall k c, is_Some (alive G !! k) -> heap P' !! k = Some c -> ends h b <= k \/ ends k c <= h) /\
  (forall h hs, is_Some (alive G !! h) -> 0 < hs -> exists P', Free hs (h + hs) P = Done tt P') /\
  (forall h b, is_Some (alive G !! h) -> heap P !! h = Some b -> refs b = 0 -> exists k P', Release_begin (h + 16) P = Done (Some k) P').
Proof.
  intros Hr. destruct (reachable_inv _ Hr) as [fl I]. cbn in I. split; [|split; [|split]].
  - intros h k b c _ _ Hb Hc Hne. by eapply (inv_apart _ _ _ I).
  - intros hs siz Hh Hs Hb Hv. destruct (Alloc_inv fl G P hs siz I Hh Hs Hb Hv) as [E|(h & P' & b & fl' & E & H0 & V & A & D & Hb' & Sb & _ & I')]; [by left|right].
    exists h, P', b. do 5 (split; [done|]). intros k c [n Hk] Hc. eapply (inv_apart _ _ _ I'); [done|done|]. intros ->. by rewrite A in Hk.
  - intros h hs [n Hn] Hs. destruct (Free_spec fl G P hs h n I Hs Hn) as (P' & E & _). eauto.
  - intros h b [n Hn] Hb Hr0. destruct (Release_begin_spec fl G P h n b I Hn Hb Hr0) as (k & P' & E & _). eauto.
Qed.

(** The word of a block tells whether its allocation [n] is in use. *)
Lemma weak_word fl G P h n k c : inv fl G P -> heap P !! h = Some c -> size c = 2 ^ k -> 0 < k < 64 -> 0 < n < 2 ^ 56 ->
  word c = tag k n <-> alive G !! h = Some n.
Proof.
  intros I Hc Sc Hk Hn. pose proof (inv_version _ _ _ I). split.
  - intros E. pose proof (tag_large k n ltac:(lia) ltac:(lia)). destruct (inv_cover _ _ _ I h c Hc) as [[m Hm]|[[i Hi]|[i Hi]]].
    + destruct (inv_alive _ _ _ I h m Hm) as [(c' & j & Hc' & _ & _ & Wc & Vm) _]. simplify_eq. rewrite Wc in E. apply tag_inj in E as [_ ->]; [done|lia|lia].
    + destruct (inv_dying _ _ _ I h i Hi) as (c' & Hc' & _ & Wc & _). simplify_eq. lia.
    + pose proof (free_word_small _ _ _ _ _ _ I Hi Hc). lia.
  - intros Hm. destruct (inv_alive _ _ _ I h n Hm) as [(c' & j & Hc' & Sc' & Hj & Wc & Vm) _]. simplify_eq. rewrite Wc. f_equal.
    rewrite Sc in Sc'. apply (Z.pow_inj_r 2) in Sc'; lia.
Qed.

(** C27. A weak pointer made from an object in use answers, in every later
    state, whether that object is still in use — never that a later object in
    the same block is — and an object that has been released does not come
    back. *)
Theorem weak_pointers_exact `{Malloc} G1 P1 G2 P2 h n : reachable (G1, P1) -> rtc step (G1, P1) (G2, P2) -> alive G1 !! h = Some n ->
  exists w, Weak_of (h + 16) P1 = Done w P1 /\
    (alive G2 !! h = Some n -> Weak_bool w P2 = Done (true, w) P2 /\ Ref_Lock w P2 = Done w P2) /\
    (alive G2 !! h <> Some n -> Weak_bool w P2 = Done (false, Weak_Reset) P2 /\ Ref_Lock w P2 = Done Weak_Reset P2 /\
       forall G3 P3, rtc step (G2, P2) (G3, P3) -> alive G3 !! h <> Some n).
Proof.
  intros Hr Hs Hn. destruct (reachable_inv _ Hr) as [fl1 I1]. destruct (steps_inv _ _ Hs ltac:(eauto)) as ([fl2 I2] & V & K & A). cbn in *.
  destruct (inv_alive _ _ _ I1 h n Hn) as [(b & k & Hb & Sb & Hk & Wb & Vb) _]. destruct (inv_range _ _ _ I1 h b Hb) as [H0 _]. pose proof (inv_version _ _ _ I2) as HV.
  exists (MkWeak (h + 16) (tag k n)). split.
  { unfold Weak_of, MemHeader_Object_size. destruct (Z.eqb_spec (h + 16) 0); [lia|]. replace (h + 16 - 16) with h by lia. erewrite bind_done by (by apply block_at_spec). by rewrite Wb. }
  destruct (K h b Hb) as (c & Hc & Sc). pose proof (weak_word fl2 G2 P2 h n k c I2 Hc ltac:(congruence) Hk ltac:(lia)) as Ew.
  assert (EB : block_at (pointer (MkWeak (h + 16) (tag k n)) - MemHeader_Object_size) P2 = Done c P2).
  { unfold MemHeader_Object_size. cbn [pointer]. replace (h + 16 - 16) with h by lia. by apply block_at_spec. }
  unfold Ref_Lock, Ref_bool, Weak_bool. assert (Ep : negb (pointer (MkWeak (h + 16) (tag k n)) =? 0) = true) by (cbn; destruct (Z.eqb_spec (h + 16) 0); [lia|done]).
  rewrite Ep. split.
  - intros Hn2. apply Ew in Hn2. split; [erewrite bind_done by exact EB|erewrite bind_done by (by erewrite bind_done by exact EB)]; cbn [vn]; rewrite Hn2, Z.eqb_refl; done.
  - intros Hn2. assert (Hne : (word c =? tag k n) = false) by (apply Z.eqb_neq; intros E; by apply Hn2, Ew).
    split; [erewrite bind_done by exact EB; cbn [vn]; by rewrite Hne|]. split; [erewrite bind_done by (by erewrite bind_done by exact EB); cbn [vn]; by rewrite Hne|].
    intros G3 P3 Hs3 Hn3. destruct (steps_inv _ _ Hs3 ltac:(eauto)) as (_ & _ & _ & A3). cbn in A3. destruct (A3 h n Hn3) as [?|?]; [done|lia].
Qed.

(** *** A concrete [malloc]: behind the last block *)

Definition last_end (h : gmap Z block) : Z := foldr Z.max 1 ((fun p => ends p.1 p.2) <$> map_to_list h).

Lemma last_end_above h a b : h !! a = Some b -> ends a b <= last_end h.
Proof.
  intros Hb. apply elem_of_map_to_list in Hb. unfold last_end. induction (map_to_list h) as [|p l IH]; [by apply not_elem_of_nil in Hb|]. cbn.
  apply elem_of_cons in Hb as [<-|Hb]; [cbn; lia|]. specialize (IH Hb). lia.
Qed.

Lemma last_end_positive h : 1 <= last_end h.
Proof. unfold last_end. induction (map_to_list h) as [|p l IH]; cbn; lia. Qed.

#[refine] Instance bump_malloc : Malloc := {
  malloc n h := let a := last_end h in if a + n <=? 2 ^ 56 then a else 0
}.
Proof.
  intros n h Hn. cbv zeta. destruct (Z.leb_spec (last_end h + n) (2 ^ 56)); [right|by left]. pose proof (last_end_positive h).
  split; [lia|]. split; [done|]. intros a b Hb. left. by apply last_end_above.
Defined.

(** After one object of 24 bytes. *)
Definition one_object : MemPool := match Alloc 16 24 new_MemPool with Done _ P => P | _ => new_MemPool end.
Definition one_alive : ghost := Ghost (<[1 := 1]> ∅) ∅.

Lemma one_object_reachable : reachable (one_alive, one_object).
Proof.
  apply rtc_once. apply (step_alloc (Ghost ∅ ∅) new_MemPool 16 24 17 one_object); try lia; try done.
Qed.

Lemma pool_blocks_apart_witness :
  (exists P', Free 16 (1 + 16) one_object = Done tt P') /\
  (Alloc 8 24 one_object = Done 0 one_object \/
   exists h P' b, Alloc 8 24 one_object = Done (h + 8) P' /\ alive one_alive !! h = None /\ dying one_alive !! h = None /\ heap P' !! h = Some b /\ 8 + 24 <= size b /\
     forall k c, is_Some (alive one_alive !! k) -> heap P' !! k = Some c -> ends h b <= k \/ ends k c <= h).
Proof.
  destruct (pool_blocks_apart one_alive one_object one_object_reachable) as (_ & HA & HF & _). split.
  - apply HF; [|lia]. exists 1. reflexivity.
  - apply HA; [lia|lia|lia|]. vm_compute. reflexivity.
Defined.

Lemma weak_pointers_exact_witness :
  exists w, Weak_of (1 + 16) one_object = Done w one_object /\ Weak_bool w one_object = Done (true, w) one_object.
Proof.
  destruct (weak_pointers_exact one_alive one_object one_alive one_object 1 1 one_object_reachable (rtc_refl _ _) eq_refl) as (w & E & H1 & _).
  exists w. split; [exact E|]. exact (proj1 (H1 eq_refl)).
Defined.

(** ** Type identifiers *)

Section types.
Context (pids : list Z).

(** [p] is registered as the parent of [t]. *)
Definition parent (t p : Z) : Prop := t <> 0 /\ znth pids t = Some p.

Lemma IsBaseOf_loop_spec (rank : Z -> nat) fuel b t :
  (forall x, 0 <= x < zlen pids -> exists p, znth pids x = Some p /\ 0 <= p < zlen pids /\ (x <> 0 -> p <> x -> (rank p < rank x)%nat)) ->
  0 <= t < zlen pids -> (rank t < fuel)%nat ->
  exists r, IsBaseOf_loop fuel pids b t = Some r /\ (r = true <-> rtc parent t b).
Proof.
  intros Hp. revert t. induction fuel as [|fuel IH]; intros t Ht Hf; [lia|]. cbn [IsBaseOf_loop].
  destruct (Z.eqb_spec t b) as [->|Hb]; [exists true; split; [done|]; split; [intros; apply rtc_refl|done]|].
  destruct (Z.eqb_spec t 0) as [->|H0].
  { exists false. split; [done|]. split; [done|]. intros R. apply rtc_inv in R as [?|(y & [? _] & _)]; done. }
  destruct (Hp t Ht) as (p & Ep & Hpr & Hrank). rewrite Ep. cbn [mbind option_bind]. destruct (Z.eqb_spec t p) as [<-|Htp].
  - exists false. split; [done|]. split; [done|]. intros R. exfalso. revert Hb. induction R as [|x y z [? Hxy] R IHR]; [done|]. intros Hne. simplify_eq. by apply IHR.
  - destruct (IH p Hpr) as (r & Er & Hr); [specialize (Hrank H0 ltac:(done)); lia|]. exists r. split; [done|]. rewrite Hr. split; intros R.
    + eapply rtc_l; [split; [exact H0|exact Ep]|done].
    + apply rtc_inv in R as [?|(y & [_ Hy] & R)]; [done|]. by simplify_eq.
Qed.
End types.

(** The loop of [IsBaseOf] ends, inside the table, when the registered
    parents are in the table and have no cycle (a type that is its own parent
    aside); it answers whether the one type is an ancestor of the other. *)
Theorem IsBaseOf_is_ancestry (pids : list Z) (rank : Z -> nat) (b t : Z) :
  (forall x, 0 <= x < zlen pids -> exists p, znth pids x = Some p /\ 0 <= p < zlen pids /\ (x <> 0 -> p <> x -> (rank p < rank x <= length pids)%nat)) ->
  0 <= t < zlen pids ->
  exists r, IsBaseOf pids b t = Some r /\ (r = true <-> rtc (parent pids) t b).
Proof.
  intros Hp Ht. unfold IsBaseOf.
  destruct (decide (rank t <= length pids)%nat) as [Hr|Hr].
  - apply (IsBaseOf_loop_spec pids rank); [|done|lia]. intros x Hx. destruct (Hp x Hx) as (p & E & Hpr & Hrk). exists p. split; [done|]. split; [done|]. intros. by apply Hrk.
  - destruct (Hp t Ht) as (p & E & Hpr & Hrk). apply (IsBaseOf_loop_spec pids (fun x => if decide (x = t) then O else rank x)); [|done|].
    + intros x Hx. destruct (Hp x Hx) as (q & Eq & Hq & Hqk). exists q. split; [done|]. split; [done|]. intros H0 H1. specialize (Hqk H0 H1).
      destruct (decide (x = t)) as [->|]; [lia|]. destruct (decide (q = t)); lia.
    + destruct (decide (t = t)); [lia|done].
Qed.

(** Type 3 under type 2 under type 1, which is its own parent. *)
Lemma IsBaseOf_is_ancestry_witness : exists r, IsBaseOf [0; 1; 1; 2] 1 3 = Some r /\ (r = true <-> rtc (parent [0; 1; 1; 2]) 3 1).
Proof.
  apply (IsBaseOf_is_ancestry [0; 1; 1; 2] Z.to_nat 1 3); [|vm_compute; split; [discriminate|reflexivity]]. intros x Hx. change (zlen [0; 1; 1; 2]) with 4 in *. cbn [length].
  assert (x = 0 \/ x = 1 \/ x = 2 \/ x = 3) as [->|[->|[->| ->]]] by lia; eexists; (split; [reflexivity|]); lia.
Defined.
