(* ===== verification/Pointers.v ===== *)
(** * xx_mempool: variables of the types Ptr, Unique and Ref

    The operations of the smart pointers on variables: locals, and members of
    objects in the pool.  [Release] runs the destructor of the object, which
    destroys its members, which may release further objects.

    [operator=] takes its argument by reference and reads it a second time
    after [Reset]: the argument may be a member of an object that [Reset] has
    released.  Reading or writing a variable that is gone is undefined. *)

From Stdlib Require Import ZArith Lia.
From stdpp Require Import base numbers list gmap.
From S2P Require Import Prelude Util MemPool.
Open Scope Z_scope.

(** A variable: a local, or member [i] of the object at [o]. *)
Inductive place :=
| Local (n : Z)
| Field (o i : Z).

#[export] Instance place_eq_dec : EqDecision place.
Proof. solve_decision. Defined.
#[export] Instance place_countable : Countable place.
Proof.
  apply (inj_countable' (fun v => match v with Local n => inl n | Field o i => inr (o, i) end)
    (fun x => match x with inl n => Local n | inr (o, i) => Field o i end)). by intros [].
Defined.

(** [cells]: the pointers of the variables of type [Ptr] and [Unique].
    [arity]: the number of such members of an object. *)
Record Store := MkStore { pool : MemPool; cells : gmap place Z; arity : gmap Z Z }.

Section pointers.
Context `{Malloc}.
Implicit Types (v w : place) (p o : Z).

Definition on_pool {A} (m : M MemPool A) : M Store A := fun s =>
  match m (pool s) with
  | Done a P => Done a (MkStore P (cells s) (arity s))
  | Fail e P => Fail e (MkStore P (cells s) (arity s))
  | Undef => Undef
  end.
Definition load v : M Store Z := s ← get; demand (cells s !! v).
Definition store v p : M Store unit := s ← get; _ ← demand (cells s !! v); put (MkStore (pool s) (<[v := p]> (cells s)) (arity s)).
(** A variable comes into being, or goes. *)
Definition new_cell v p : M Store unit := modify (fun s => MkStore (pool s) (<[v := p]> (cells s)) (arity s)).
Definition drop_cell v : M Store unit := modify (fun s => MkStore (pool s) (delete v (cells s)) (arity s)).

(** [memHeader()]. *)
Definition memHeader p : M Store block := on_pool (block_at (p - MemHeader_Object_size)).
Definition set_header_refs p (r : Z) : M Store unit :=
  b ← memHeader p; on_pool (put_block (p - MemHeader_Object_size) (set_refs r b)).
(** [++pointer->memHeader().refs]. *)
Definition add_ref p : M Store unit := b ← memHeader p; set_header_refs p (u32 (refs b + 1)).

(** ** Release *)

(** [Ptr::Reset], [release] being what [pointer->Release()] does. *)
Definition Reset_with (release : Z -> M Store unit) v : M Store unit :=
  p ← load v;
  if p =? 0 then mret tt
  else
    b ← memHeader p;
    let r := u32 (refs b - 1) in
    _ ← set_header_refs p r;
    _ ← (if r =? 0 then release p else mret tt);
    store v 0.

(** The destructor of an object destroys its members, the last one first. *)
Fixpoint destroy_members (release : Z -> M Store unit) o (n : nat) : M Store unit :=
  match n with
  | O => mret tt
  | S n => _ ← Reset_with release (Field o (Z.of_nat n)); _ ← drop_cell (Field o (Z.of_nat n)); destroy_members release o n
  end.

(** [MemPool::Release]: releases nest at most as deep as there are objects. *)
Fixpoint Release (fuel : nat) p : M Store unit :=
  match fuel with
  | O => undef
  | S fuel =>
      idx ← on_pool (Release_begin p);
      match idx with
      | None => mret tt
      | Some idx =>
          s ← get;
          n ← demand (arity s !! p);
          _ ← destroy_members (Release fuel) p (Z.to_nat n);
          on_pool (Release_end p idx)
      end
  end.

Definition Reset v : M Store unit :=
  s ← get; Reset_with (Release (S (base.size (heap (pool s))))) v.

(** ** Ptr *)

(** [Ptr()]. *)
Definition Ptr_empty v : M Store unit := new_cell v 0.
(** [Ptr(O* const&)]. *)
Definition Ptr_raw v p : M Store unit :=
  _ ← new_cell v p; if p =? 0 then mret tt else add_ref p.
(** [Ptr(Ptr<O> const&)]. *)
Definition Ptr_copy v w : M Store unit :=
  p ← load w; _ ← new_cell v p; if p =? 0 then mret tt else add_ref p.
(** [Ptr(Ptr<O>&&)]. *)
Definition Ptr_move v w : M Store unit :=
  p ← load w; _ ← new_cell v p; store w 0.
(** [~Ptr]. *)
Definition Ptr_destroy v : M Store unit := _ ← Reset v; drop_cell v.

(** [operator=(O* const& o)], where [o] is read with [read]. *)
Definition assign_from v (read : M Store Z) : M Store unit :=
  o ← read;
  p ← load v;
  if p =? o then mret tt
  else
    _ ← Reset v;
    o ← read;
    if o =? 0 then mret tt else _ ← store v o; add_ref o.
Definition assign_raw v o : M Store unit := assign_from v (mret o).
(** [operator=(Ptr<O> const&)] passes a reference to the pointer of [w]. *)
Definition assign_copy v w : M Store unit := assign_from v (load w).
(** [operator=(Ptr<O>&&)]. *)
Definition assign_move v w : M Store unit :=
  p ← load v;
  o ← load w;
  if p =? o then mret tt
  else
    _ ← Reset v;
    o ← load w;
    _ ← store v o;
    store w 0.

(** [Reset(O* const& o)]. *)
Definition Reset_to v o : M Store unit :=
  p ← load v;
  if p =? o then mret tt
  else _ ← Reset v; if o =? 0 then mret tt else _ ← store v o; add_ref o.

(** [GetRefs], [GetTypeId], [operator bool], the comparisons. *)
Definition GetRefs v : M Store Z := p ← load v; if p =? 0 then mret 0 else b ← memHeader p; mret (refs b).
Definition GetTypeId v : M Store Z := p ← load v; if p =? 0 then mret 0 else b ← memHeader p; mret (typeId b).
Definition Ptr_bool v : M Store bool := p ← load v; mret (negb (p =? 0)).
Definition eq_ptr v w : M Store bool := p ← load v; q ← load w; mret (p =? q).
Definition eq_raw v o : M Store bool := p ← load v; mret (p =? o).
(** [Is(typeId)]: [!this] is never true, so that an empty pointer is
    dereferenced. *)
Definition Is (pids : list Z) v (t : Z) : M Store bool := p ← load v; b ← memHeader p; demand (IsBaseOf pids t (typeId b)).
(** [As<O>()]: the assertion, and the same variable. *)
Definition As (pids : list Z) v (t : Z) : M Store place := b ← Is pids v t; _ ← assert_ b; mret v.

(** The constructor of an object with [n] empty members. *)
Fixpoint construct_members o (n : nat) : M Store unit :=
  match n with
  | O => mret tt
  | S n => _ ← construct_members o n; new_cell (Field o (Z.of_nat n)) 0
  end.
(** [MemPool::MPCreate<T>], for a [T] of [siz] bytes with [n] members. *)
Definition MPCreate (siz tid n : Z) : M Store Z :=
  p ← on_pool (MemPool.Create siz tid (fun _ => mret tt));
  if p =? 0 then mret 0
  else
    _ ← construct_members p (Z.to_nat n);
    _ ← modify (fun s => MkStore (pool s) (cells s) (<[p := n]> (arity s)));
    mret p.
(** [Ptr::Create], [Ptr::MPCreate]. *)
Definition Ptr_MPCreate v (siz tid n : Z) : M Store unit := p ← MPCreate siz tid n; Reset_to v p.
(** [MemPool::MPCreatePtr]. *)
Definition MPCreatePtr v (siz tid n : Z) : M Store unit := p ← MPCreate siz tid n; Ptr_raw v p.

(** ** Ref *)

(** A [Ref] is a value [weak]; [MakeRef], and [operator=] with a [Ptr]. *)
Definition MakeRef v : M Store weak := p ← load v; on_pool (Weak_of p).
(** [operator=(Ref<O> const&)] of [Ptr]; [Lock] resets the [Ref] when the object is gone. *)
Definition assign_ref v (r : weak) : M Store weak :=
  r ← on_pool (Ref_Lock r); _ ← assign_raw v (pointer r); mret r.
Definition eq_ref v (r : weak) : M Store (bool * weak) :=
  p ← load v; r ← on_pool (Ref_Lock r); mret (p =? pointer r, r).
(** [~Ref]. *)
Definition Ref_destroyed (r : weak) : M Store unit :=
  ok ← on_pool (Ref_bool r);
  if ok : bool then
    b ← memHeader (pointer r);
    if refs b =? 0 then s ← get; Release (S (base.size (heap (pool s)))) (pointer r) else mret tt
  else mret tt.
End pointers.
