(* ===== verification/PointersProps.v ===== *)
(** * Smart pointers: reference counts are exact

    A ghost state says which objects are in use and which are being destroyed.
    [m] are the variables that hold a counted reference: all of them, but for
    those that a [Reset] in progress is about to clear. *)

From Stdlib Require Import ZArith Lia.
From stdpp Require Import base numbers list gmap.
From S2P Require Import Prelude Util MemPool MemPoolProps Pointers.
Open Scope Z_scope.

(** ** Counting *)

(** The variables of [m] that point to [p]. *)
Definition count (p : Z) (m : gmap place Z) : nat := base.size (filter (fun kv : place * Z => kv.2 = p) m).

Lemma count_insert p m v q : m !! v = None -> count p (<[v := q]> m) = (count p m + (if decide (q = p) then 1 else 0))%nat.
Proof.
  intros Hv. unfold count. destruct (decide (q = p)) as [->|Hq].
  - rewrite map_filter_insert_True by done. rewrite map_size_insert_None; [lia|]. apply map_lookup_filter_None. by left.
  - rewrite map_filter_insert_False by done. rewrite delete_id by done. lia.
Qed.

Lemma count_delete p m v q : m !! v = Some q -> count p m = (count p (delete v m) + (if decide (q = p) then 1 else 0))%nat.
Proof. intros Hv. rewrite <-(insert_delete_id m v q Hv) at 1. apply count_insert. by rewrite lookup_delete_eq. Qed.

Lemma count_store p m v q r : m !! v = Some q -> p <> q -> p <> r -> count p (<[v := r]> m) = count p m.
Proof.
  intros Hv Hq Hr. rewrite (count_delete p m v q), <-(insert_delete_eq m v r), count_insert by (done || by rewrite lookup_delete_eq).
  by rewrite !decide_False by congruence.
Qed.

Lemma count_zero p m : count p m = 0%nat <-> forall v, m !! v <> Some p.
Proof.
  unfold count. rewrite map_size_empty_iff. split.
  - intros E v Hv. assert (H : filter (fun kv : place * Z => kv.2 = p) m !! v = Some p) by (by apply map_lookup_filter_Some). rewrite E in H. done.
  - intros Hn. apply map_eq. intros v. rewrite lookup_empty. apply map_lookup_filter_None. right. intros x Hx E. cbn in E. subst. by apply (Hn v).
Qed.

Lemma count_pos p m v : m !! v = Some p -> (0 < count p m)%nat.
Proof. intros Hv. destruct (count p m) eqn:E; [|lia]. exfalso. by apply (proj1 (count_zero p m) E v). Qed.

Lemma count_le p m : (count p m <= base.size m)%nat.
Proof. unfold count. rewrite <-!size_dom. apply subseteq_size, subseteq_dom, map_filter_subseteq. Qed.

Lemma size_sub {A} (m m' : gmap place A) : m ⊆ m' -> (base.size m <= base.size m')%nat.
Proof. intros Hs. rewrite <-!size_dom. by apply subseteq_size, subseteq_dom. Qed.

(** ** The invariant *)

(** The object of [w] stays where it is while an object is released: it is
    being destroyed already, or a local holds it. *)
Definition frame (G : ghost) (m : gmap place Z) (w : place) : Prop :=
  match w with
  | Local _ => True
  | Field o _ => is_Some (dying G !! (o - 16)) \/ exists n, m !! Local n = Some o
  end.

(** [Zs]: objects that no counted variable holds yet, or any more. *)
Record ok (Zs : gset Z) (m : gmap place Z) (G : ghost) (s : Store) : Prop := {
  ok_pool : exists fl, inv fl G (pool s);
  ok_sub : m ⊆ cells s;
  ok_target v p : m !! v = Some p -> p <> 0 -> is_Some (alive G !! (p - 16));
  ok_refs h b : is_Some (alive G !! h) -> heap (pool s) !! h = Some b -> refs b = Z.of_nat (count (h + 16) m);
  ok_zero h : is_Some (alive G !! h) -> count (h + 16) m = 0%nat <-> h + 16 ∈ Zs;
  ok_zeros p : p ∈ Zs -> is_Some (alive G !! (p - 16));
  ok_members h : is_Some (alive G !! h) -> exists n, arity s !! (h + 16) = Some n /\ 0 <= n /\ forall i, is_Some (cells s !! Field (h + 16) i) <-> 0 <= i < n;
  ok_fields o i : is_Some (cells s !! Field o i) -> is_Some (alive G !! (o - 16)) \/ is_Some (dying G !! (o - 16));
  ok_out w : is_Some (cells s !! w) -> m !! w = None -> frame G m w;
  ok_size : Z.of_nat (base.size (cells s)) < 2 ^ 32
}.

Section facts.
Context {Zs : gset Z} {m : gmap place Z} {G : ghost} {s : Store} (O : ok Zs m G s).

Lemma alive_block h : is_Some (alive G !! h) -> 0 < h /\ dying G !! h = None /\ exists b, heap (pool s) !! h = Some b.
Proof.
  intros [n Hn]. destruct (ok_pool _ _ _ _ O) as [fl I]. destruct (inv_alive _ _ _ I h n Hn) as [(b & k & Hb & _) Hd].
  destruct (inv_range _ _ _ I h b Hb). eauto.
Qed.

Lemma dying_block h : is_Some (dying G !! h) -> 0 < h /\ alive G !! h = None.
Proof.
  intros [k Hk]. destruct (ok_pool _ _ _ _ O) as [fl I]. destruct (inv_dying _ _ _ I h k Hk) as (b & Hb & _). destruct (inv_range _ _ _ I h b Hb).
  split; [done|]. destruct (alive G !! h) as [n|] eqn:E; [|done]. destruct (inv_alive _ _ _ I h n E). congruence.
Qed.

Lemma member_of_object o i : is_Some (cells s !! Field o i) -> 16 < o.
Proof. intros Hi. destruct (ok_fields _ _ _ _ O o i Hi) as [Ha|Hd]; [apply alive_block in Ha|apply dying_block in Hd]; lia. Qed.

Lemma count_bound p : Z.of_nat (count p m) < 2 ^ 32.
Proof. pose proof (count_le p m). pose proof (size_sub _ _ (ok_sub _ _ _ _ O)). pose proof (ok_size _ _ _ _ O). lia. Qed.

(** What a counted variable points to. *)
Lemma target_block v p : m !! v = Some p -> p <> 0 -> exists b, heap (pool s) !! (p - 16) = Some b /\
  refs b = Z.of_nat (count p m) /\ 1 <= refs b < 2 ^ 32 /\ p ∉ Zs.
Proof.
  intros Hv Hp. pose proof (ok_target _ _ _ _ O v p Hv Hp) as Ha. destruct (alive_block _ Ha) as (_ & _ & b & Hb). exists b.
  pose proof (ok_refs _ _ _ _ O _ b Ha Hb) as Hr. replace (p - 16 + 16) with p in Hr by lia. pose proof (count_pos p m v Hv). pose proof (count_bound p).
  split; [done|]. split; [done|]. split; [lia|]. intros Hz. pose proof (proj2 (ok_zero _ _ _ _ O _ Ha)) as Hc. replace (p - 16 + 16) with p in Hc by lia. specialize (Hc Hz). lia.
Qed.

Lemma alive_in_heap : (base.size (alive G) <= base.size (heap (pool s)))%nat.
Proof.
  rewrite <-!size_dom. apply subseteq_size. intros h Hh. apply elem_of_dom in Hh. apply elem_of_dom. by destruct (alive_block h Hh) as (_ & _ & b & ->).
Qed.
End facts.

Definition with_pool (s : Store) (P : MemPool) : Store := MkStore P (cells s) (arity s).
Definition with_cells (s : Store) (C : gmap place Z) : Store := MkStore (pool s) C (arity s).
Definition with_refs (s : Store) (h r : Z) (b : block) : Store :=
  with_pool s (MkPool (headers (pool s)) (versionNumber (pool s)) (<[h := set_refs r b]> (heap (pool s)))).

(** ** Steps that keep it *)

Lemma inv_refs fl G P h b r : inv fl G P -> is_Some (alive G !! h) -> heap P !! h = Some b ->
  inv fl G (MkPool (headers P) (versionNumber P) (<[h := set_refs r b]> (heap P))).
Proof. intros I [n Hn] Hb. exact (inv_fields fl G P h b n r (typeId b) I Hn Hb). Qed.

(** [--refs]: [v] holds its reference no more. *)
Lemma ok_down Zs m G s v p b : ok Zs m G s -> m !! v = Some p -> p <> 0 -> heap (pool s) !! (p - 16) = Some b ->
  (forall w, is_Some (cells s !! w) -> delete v m !! w = None -> frame G (delete v m) w) ->
  ok (if decide (refs b = 1) then {[p]} ∪ Zs else Zs) (delete v m) G (with_refs s (p - 16) (refs b - 1) b).
Proof.
  intros O Hv Hp Hb Hout. destruct (target_block O v p Hv Hp) as (b' & Hb' & Hr & Hrb & Hz). rewrite Hb in Hb'. injection Hb' as <-.
  pose proof (ok_target _ _ _ _ O v p Hv Hp) as Ha. destruct (ok_pool _ _ _ _ O) as [fl I].
  assert (Hc : forall q, count q m = (count q (delete v m) + (if decide (p = q) then 1 else 0))%nat) by (intros q; by apply count_delete).
  constructor; cbn [with_refs with_pool pool cells arity heap].
  - exists fl. by apply inv_refs.
  - etrans; [apply delete_subseteq|apply O].
  - intros w q Hw. apply lookup_delete_Some in Hw as [_ Hw]. by eapply (ok_target _ _ _ _ O).
  - intros h c Hh Hc'. specialize (Hc (h + 16)). destruct (decide (h = p - 16)) as [->|Hne].
    + rewrite lookup_insert_eq in Hc'. simplify_eq. cbn. rewrite decide_True in Hc by lia. replace (p - 16 + 16) with p in * by lia. lia.
    + rewrite lookup_insert_ne in Hc' by done. rewrite decide_False in Hc by lia. rewrite (ok_refs _ _ _ _ O h c Hh Hc'). lia.
  - intros h Hh. pose proof (ok_zero _ _ _ _ O h Hh) as E. specialize (Hc (h + 16)). destruct (decide (h = p - 16)) as [->|Hne].
    + rewrite decide_True in Hc by lia. replace (p - 16 + 16) with p in * by lia. destruct (decide (refs b = 1)); [split; [set_solver|lia]|]. split; [lia|done].
    + rewrite decide_False in Hc by lia. destruct (decide (refs b = 1)); [rewrite elem_of_union, elem_of_singleton|]; split; try naive_solver lia.
  - intros q Hq. destruct (decide (refs b = 1)); [|by apply O]. apply elem_of_union in Hq as [Hq|Hq]; [|by apply O]. apply elem_of_singleton in Hq. by subst.
  - apply O.
  - apply O.
  - done.
  - apply O.
Qed.

(** [++refs]: [v], which has been set to [p], holds a reference. *)
Lemma ok_up Zs m G s v p b : ok Zs m G s -> m !! v = None -> cells s !! v = Some p -> p <> 0 -> is_Some (alive G !! (p - 16)) -> heap (pool s) !! (p - 16) = Some b ->
  (forall w, is_Some (cells s !! w) -> <[v := p]> m !! w = None -> frame G (<[v := p]> m) w) ->
  ok (Zs ∖ {[p]}) (<[v := p]> m) G (with_refs s (p - 16) (u32 (refs b + 1)) b).
Proof.
  intros O Hv Hc Hp Ha Hb Hout. destruct (ok_pool _ _ _ _ O) as [fl I].
  assert (Hm : forall q, count q (<[v := p]> m) = (count q m + (if decide (p = q) then 1 else 0))%nat) by (intros q; by apply count_insert).
  assert (Hs : <[v := p]> m ⊆ cells s) by (by apply insert_subseteq_l; [|apply O]).
  pose proof (ok_refs _ _ _ _ O _ b Ha Hb) as Hr. replace (p - 16 + 16) with p in Hr by lia.
  assert (Hu : u32 (refs b + 1) = Z.of_nat (count p (<[v := p]> m))).
  { pose proof (count_le p (<[v := p]> m)). pose proof (size_sub _ _ Hs). pose proof (ok_size _ _ _ _ O). specialize (Hm p). rewrite decide_True in Hm by done.
    rewrite uint_small; [lia|]. rng. }
  constructor; cbn [with_refs with_pool pool cells arity heap].
  - exists fl. by apply inv_refs.
  - done.
  - intros w q Hw Hq. destruct (decide (w = v)) as [->|Hne]; [rewrite lookup_insert_eq in Hw; by simplify_eq|].
    rewrite lookup_insert_ne in Hw by done. by eapply (ok_target _ _ _ _ O).
  - intros h c Hh Hc'. specialize (Hm (h + 16)). destruct (decide (h = p - 16)) as [->|Hne].
    + rewrite lookup_insert_eq in Hc'. simplify_eq. cbn. by replace (p - 16 + 16) with p by lia.
    + rewrite lookup_insert_ne in Hc' by done. rewrite decide_False in Hm by lia. rewrite (ok_refs _ _ _ _ O h c Hh Hc'). lia.
  - intros h Hh. pose proof (ok_zero _ _ _ _ O h Hh) as E. specialize (Hm (h + 16)). rewrite elem_of_difference, elem_of_singleton. destruct (decide (p = h + 16)).
    + split; [lia|]. intros [_ []]. by symmetry.
    + rewrite Hm, Nat.add_0_r, E. naive_solver.
  - intros q Hq. apply elem_of_difference in Hq as [Hq _]. by apply O.
  - apply O.
  - apply O.
  - done.
  - apply O.
Qed.

(** The variables change, the counts of the objects do not. *)
Lemma ok_cells Zs m G s m' C : ok Zs m G s -> m' ⊆ C -> Z.of_nat (base.size C) < 2 ^ 32 ->
  (forall q, q <> 0 -> count q m' = count q m) ->
  (forall o i, is_Some (alive G !! (o - 16)) -> is_Some (C !! Field o i) <-> is_Some (cells s !! Field o i)) ->
  (forall o i, is_Some (C !! Field o i) -> is_Some (cells s !! Field o i)) ->
  (forall w, is_Some (C !! w) -> m' !! w = None -> frame G m' w) ->
  ok Zs m' G (with_cells s C).
Proof.
  intros O Hs Hsz Hc Hf Hd Hout.
  assert (H16 : forall h, is_Some (alive G !! h) -> h + 16 <> 0) by (intros h Hh; destruct (alive_block O h Hh); lia).
  constructor; cbn [with_cells pool cells arity].
  - apply O.
  - done.
  - intros v p Hv Hp. pose proof (count_pos p m' v Hv) as Hpos. rewrite Hc in Hpos by done. destruct (decide (is_Some (alive G !! (p - 16)))) as [|Hn]; [done|].
    exfalso. assert (E : count p m = 0%nat); [|lia]. apply count_zero. intros w Hw. apply Hn. by eapply (ok_target _ _ _ _ O).
  - intros h b Hh Hb. rewrite Hc by (by apply H16). by apply (ok_refs _ _ _ _ O).
  - intros h Hh. rewrite Hc by (by apply H16). by apply (ok_zero _ _ _ _ O).
  - apply O.
  - intros h Hh. destruct (ok_members _ _ _ _ O h Hh) as (n & En & Hn & Hi). exists n. split; [done|]. split; [done|]. intros i. rewrite Hf; [apply Hi|]. by replace (h + 16 - 16) with h by lia.
  - intros o i Hi. eapply (ok_fields _ _ _ _ O), Hd, Hi.
  - done.
  - done.
Qed.


(** A variable out of [m] is cleared and counted again. *)
Lemma ok_cleared Zs m G s v : ok Zs m G s -> m !! v = None -> is_Some (cells s !! v) -> ok Zs (<[v := 0]> m) G (with_cells s (<[v := 0]> (cells s))).
Proof.
  intros O Hm Hc.
  assert (Hi : forall w, is_Some (<[v := 0]> (cells s) !! w) <-> is_Some (cells s !! w)).
  { intros w. destruct (decide (w = v)) as [->|Hne]; [rewrite lookup_insert_eq; split; eauto|by rewrite lookup_insert_ne]. }
  apply (ok_cells Zs m); [done|apply insert_mono, O|..].
  - rewrite map_size_insert_Some by done. apply O.
  - intros q Hq. rewrite count_insert by done. rewrite decide_False by done. lia.
  - intros o i _. apply Hi.
  - intros o i. apply Hi.
  - intros w Hw Hn. apply lookup_insert_None in Hn as [Hn Hne]. apply Hi in Hw. pose proof (ok_out _ _ _ _ O w Hw Hn) as F. destruct w as [n|o i]; [done|].
    destruct F as [F|[n F]]; [by left|right]. exists n. rewrite lookup_insert_ne; [done|]. intros ->. congruence.
Qed.

(** A null variable goes. *)
Lemma ok_gone Zs m G s v : ok Zs m G s -> m !! v = Some 0 -> (forall o i, v = Field o i -> alive G !! (o - 16) = None) ->
  ok Zs (delete v m) G (with_cells s (delete v (cells s))).
Proof.
  intros O Hm Hv. assert (Hc : cells s !! v = Some 0) by (eapply lookup_weaken; [done|apply O]).
  apply (ok_cells Zs m); [done|apply delete_mono, O|..].
  - rewrite map_size_delete_Some by (by eexists). pose proof (ok_size _ _ _ _ O). lia.
  - intros q Hq. rewrite (count_delete q m v 0) by done. rewrite decide_False by done. lia.
  - intros o i Ha. destruct (decide (Field o i = v)) as [<-|Hne]; [|by rewrite lookup_delete_ne]. rewrite (Hv o i eq_refl) in Ha. by destruct Ha.
  - intros o i [q Hq]. apply lookup_delete_Some in Hq as [_ Hq]. by eexists.
  - intros w [q Hq] Hn. apply lookup_delete_Some in Hq as [Hne Hq]. rewrite lookup_delete_ne in Hn by done. pose proof (ok_out _ _ _ _ O w (ex_intro _ q Hq) Hn) as F.
    destruct w as [n|o i]; [done|]. destruct F as [F|[n F]]; [by left|]. destruct (decide (Local n = v)) as [<-|Hne'].
    + rewrite Hm in F. injection F as <-. pose proof (member_of_object O 0 i (ex_intro _ q Hq)). lia.
    + right. exists n. by rewrite lookup_delete_ne.
Qed.

(** ** The operations on variables *)

Section ops.
Context `{Malloc}.

Lemma on_pool_done {A} (c : M MemPool A) s a P : c (pool s) = Done a P -> on_pool c s = Done a (with_pool s P).
Proof. intros E. unfold on_pool. by rewrite E. Qed.

Lemma load_var s v p : cells s !! v = Some p -> load v s = Done p s.
Proof. intros E. unfold load. erewrite bind_done by done. by rewrite E. Qed.

Lemma store_var s v p : is_Some (cells s !! v) -> store v p s = Done tt (with_cells s (<[v := p]> (cells s))).
Proof. intros [q E]. unfold store. erewrite bind_done by done. rewrite E. by erewrite bind_done by done. Qed.

Lemma memHeader_spec s p b : heap (pool s) !! (p - 16) = Some b -> memHeader p s = Done b s.
Proof. intros E. unfold memHeader. rewrite (on_pool_done _ _ b (pool s)) by (by apply block_at_spec). by destruct s. Qed.

Lemma set_header_refs_spec s p r b : heap (pool s) !! (p - 16) = Some b -> set_header_refs p r s = Done tt (with_refs s (p - 16) r b).
Proof. intros E. unfold set_header_refs. erewrite bind_done by (by apply memHeader_spec). by apply on_pool_done. Qed.

Lemma add_ref_spec s p b : heap (pool s) !! (p - 16) = Some b -> add_ref p s = Done tt (with_refs s (p - 16) (u32 (refs b + 1)) b).
Proof. intros E. unfold add_ref. erewrite bind_done by (by apply memHeader_spec). by apply set_header_refs_spec. Qed.

(** ** Release *)

(** The variables that a release leaves alone: locals, and the members of the
    objects in [D] and of those still in use. *)
Definition stays (D : gmap Z Z) (G : ghost) (w : place) : Prop :=
  match w with
  | Local _ => True
  | Field o _ => is_Some (D !! (o - 16)) \/ is_Some (alive G !! (o - 16))
  end.
#[local] Instance stays_dec D G w : Decision (stays D G w).
Proof. destruct w; apply _. Defined.

(** Objects go, with their members; nothing else changes. *)
Record shrinks (D : gmap Z Z) (G : ghost) (m : gmap place Z) (s : Store) (G' : ghost) (m' : gmap place Z) (s' : Store) : Prop := {
  shrinks_alive : alive G' ⊆ alive G;
  shrinks_dying : dying G' = dying G;
  shrinks_arity : arity s' = arity s;
  shrinks_stays w : stays D G' w -> cells s' !! w = cells s !! w /\ m' !! w = m !! w;
  shrinks_gone w : ~ stays D G' w -> cells s' !! w = None
}.

Lemma stays_mono D D' G G' w : D ⊆ D' -> alive G ⊆ alive G' -> stays D G w -> stays D' G' w.
Proof.
  intros HD HG. destruct w as [n|o i]; [done|]. intros [[x Hx]|[x Hx]]; [left|right]; exists x; by eapply lookup_weaken.
Qed.

(** Every member belongs to an object in use or in destruction. *)
Lemma stays_all Zs m G s w : ok Zs m G s -> ~ stays (dying G) G w -> cells s !! w = None.
Proof.
  intros O Hw. destruct w as [k|o i]; [by destruct Hw|]. destruct (cells s !! Field o i) as [q|] eqn:E; [|done].
  destruct Hw. destruct (ok_fields _ _ _ _ O o i (ex_intro _ q E)); [by right|by left].
Qed.

Lemma shrinks_refl D m G s s' : cells s' = cells s -> arity s' = arity s -> (forall w, ~ stays D G w -> cells s !! w = None) -> shrinks D G m s G m s'.
Proof. intros E1 E2 Hw. constructor; rewrite ?E1, ?E2; done. Qed.

(** What a release does to the state, as the caller of [Release] needs it. *)
Definition releases (release : Z -> M Store unit) (n : nat) : Prop := forall Zs m G s h,
  ok Zs m G s -> (base.size (alive G) <= n)%nat -> h + 16 ∈ Zs ->
  exists G' m' s', release (h + 16) s = Done tt s' /\ ok (Zs ∖ {[h + 16]}) m' G' s' /\ shrinks (dying G) G m s G' m' s'.

Lemma Reset_with_spec release n Zs m G s v p : releases release n -> ok Zs m G s -> (base.size (alive G) <= n)%nat -> m !! v = Some p ->
  (forall w, is_Some (cells s !! w) -> delete v m !! w = None -> frame G (delete v m) w) ->
  exists G' m1 s1, Reset_with release v s = Done tt (with_cells s1 (<[v := 0]> (cells s1))) /\
    ok Zs (<[v := 0]> m1) G' (with_cells s1 (<[v := 0]> (cells s1))) /\
    shrinks (dying G) G (delete v m) s G' m1 s1 /\ m1 !! v = None /\ is_Some (cells s1 !! v).
Proof.
  intros R O Hn Hm Hout. assert (Hc : cells s !! v = Some p) by (eapply lookup_weaken; [done|apply O]).
  unfold Reset_with. erewrite bind_done by (by apply load_var). destruct (Z.eqb_spec p 0) as [->|Hp].
  - exists G, (delete v m), s. rewrite insert_delete_id by done. rewrite insert_id by done. assert (E : with_cells s (cells s) = s) by (by destruct s). rewrite E. split; [done|].
    split; [done|]. split; [|split; [by rewrite lookup_delete_eq|eauto]]. apply shrinks_refl; [done..|]. intros w. by apply (stays_all _ _ _ _ _ O).
  - destruct (target_block O v p Hm Hp) as (b & Hb & Hr & Hrb & Hz). erewrite bind_done by (by apply memHeader_spec). cbv zeta.
    erewrite bind_done by (by apply set_header_refs_spec). rewrite uint_small by rng.
    pose proof (ok_down Zs m G s v p b O Hm Hp Hb Hout) as O1. set (s1 := with_refs s (p - 16) (refs b - 1) b) in *. destruct (decide (refs b = 1)) as [Hr1|Hr1].
    + destruct (Z.eqb_spec (refs b - 1) 0); [|lia]. destruct (R _ _ _ _ (p - 16) O1 Hn) as (G' & m' & s' & E & O' & Sh); [set_solver by lia|].
      replace (p - 16 + 16) with p in E, O' by lia. erewrite bind_done by exact E. replace (({[p]} ∪ Zs) ∖ {[p]}) with Zs in O' by set_solver.
      assert (St : stays (dying G) G' v).
      { destruct v as [k|o i]; [done|]. destruct (Hout (Field o i)) as [F|[k F]]; [eauto|by rewrite lookup_delete_eq|by left|right].
        destruct (shrinks_stays _ _ _ _ _ _ _ Sh (Local k) I) as [_ Ek]. rewrite F in Ek. pose proof (member_of_object O o i ltac:(by eexists)).
        eapply (ok_target _ _ _ _ O'); [done|lia]. }
      destruct (shrinks_stays _ _ _ _ _ _ _ Sh v St) as [Ec Em]. rewrite lookup_delete_eq in Em. change (cells s1) with (cells s) in Ec.
      exists G', m', s'. split; [apply store_var; rewrite Ec; eauto|]. split; [apply ok_cleared; [done..|rewrite Ec; eauto]|]. split; [|split; [done|rewrite Ec; eauto]].
      destruct Sh. by constructor.
    + destruct (Z.eqb_spec (refs b - 1) 0); [lia|]. erewrite bind_done by done. exists G, (delete v m), s1.
      assert (Hs1 : is_Some (cells s1 !! v)) by (by eexists). split; [by apply store_var|]. split; [apply ok_cleared; [done|by rewrite lookup_delete_eq|done]|].
      split; [|split; [by rewrite lookup_delete_eq|done]]. apply shrinks_refl; [done..|]. intros w. by apply (stays_all _ _ _ _ _ O).
Qed.

(** The members of an object in destruction go. *)
Lemma destroy_members_spec release k h n : forall Zs m G s, releases release k -> ok Zs m G s -> (base.size (alive G) <= k)%nat -> is_Some (dying G !! h) ->
  (forall i, is_Some (cells s !! Field (h + 16) i) <-> 0 <= i < Z.of_nat n) -> (forall i, is_Some (cells s !! Field (h + 16) i) -> is_Some (m !! Field (h + 16) i)) ->
  exists G' m' s', destroy_members release (h + 16) n s = Done tt s' /\ ok Zs m' G' s' /\ shrinks (delete h (dying G)) G m s G' m' s'.
Proof.
  induction n as [|n IH]; intros Zs m G s R O Hk Hd Hf Hm.
  - exists G, m, s. split; [done|]. split; [done|]. apply shrinks_refl; [done..|]. intros w Hw. destruct (cells s !! w) as [q|] eqn:E; [|done].
    exfalso. destruct (decide (stays (dying G) G w)) as [S|S]; [|apply (stays_all _ _ _ _ _ O) in S; congruence]. destruct w as [j|o i]; [by apply Hw|].
    destruct (decide (o - 16 = h)) as [<-|Hne].
    + replace (o - 16 + 16) with o in Hf by lia. assert (0 <= i < Z.of_nat 0); [apply Hf; eauto|lia].
    + apply Hw. destruct S as [S|S]; [left|by right]. by rewrite lookup_delete_ne.
  - cbn [destroy_members]. set (v := Field (h + 16) (Z.of_nat n)). assert (Hv : is_Some (cells s !! v)) by (apply Hf; lia). destruct (Hm _ Hv) as [p Hp].
    destruct (dying_block O h Hd) as [_ Ha].
    destruct (Reset_with_spec release k Zs m G s v p R O Hk Hp) as (G1 & m1 & s1 & E1 & O1 & Sh & N1 & C1).
    { intros w Hw Hn. destruct (decide (w = v)) as [->|Hne]; [left; by replace (h + 16 - 16) with h by lia|]. rewrite lookup_delete_ne in Hn by done.
      pose proof (ok_out _ _ _ _ O w Hw Hn) as F. destruct w as [j|o i]; [done|]. destruct F as [F|[j F]]; [by left|right]. exists j. by rewrite lookup_delete_ne. }
    erewrite bind_done by exact E1. erewrite bind_done by done. destruct Sh as [Sa Sd Sar Ss Sg]. assert (Hd1 : is_Some (dying G1 !! h)) by by rewrite Sd.
    assert (O2 : ok Zs m1 G1 (with_cells s1 (delete v (cells s1)))).
    { pose proof (ok_gone _ _ _ _ v O1 ltac:(by rewrite lookup_insert_eq)) as O2. cbn [with_cells cells] in O2. rewrite !delete_insert_eq, delete_id in O2 by done. apply O2.
      intros o i [= <- <-]. replace (h + 16 - 16) with h by lia. by apply (dying_block O1). }
    assert (Hfs : forall i, stays (dying G) G1 (Field (h + 16) i)) by (intros i; left; by replace (h + 16 - 16) with h by lia).
    destruct (IH Zs m1 G1 (with_cells s1 (delete v (cells s1))) R O2) as (G' & m' & s' & E' & O' & [Ta Td Tar Ts Tg]).
    { etrans; [|done]. rewrite <-!size_dom. by apply subseteq_size, subseteq_dom. }
    { done. }
    { intros i. cbn [with_cells cells]. destruct (decide (i = Z.of_nat n)) as [->|Hi]; [unfold v; rewrite lookup_delete_eq; split; [by intros []|lia]|].
      rewrite lookup_delete_ne by (unfold v; naive_solver). destruct (Ss _ (Hfs i)) as [-> _]. rewrite Hf. lia. }
    { intros i. cbn [with_cells cells]. intros [q Hq]. apply lookup_delete_Some in Hq as [Hi Hq]. destruct (Ss _ (Hfs i)) as [Ec Em]. rewrite Ec in Hq. rewrite Em.
      rewrite lookup_delete_ne by done. apply Hm. eauto. }
    exists G', m', s'. split; [cbn [with_cells cells pool arity]; rewrite delete_insert_eq; exact E'|]. split; [done|]. constructor; [by etrans|congruence|by rewrite Tar| |].
    + intros w Hw. rewrite Sd in Ts. destruct (Ts w Hw) as [-> ->]. cbn [with_cells cells]. assert (Hne : v <> w).
      { intros <-. cbn in Hw. replace (h + 16 - 16) with h in Hw by lia. rewrite lookup_delete_eq in Hw. destruct Hw as [[? ?]|[x Hx]]; [done|].
        apply (lookup_weaken _ _ _ _ Hx) in Ta. apply (lookup_weaken _ _ _ _ Ta) in Sa. congruence. }
      rewrite lookup_delete_ne by done. destruct (Ss w) as [-> ->]; [|by rewrite lookup_delete_ne]. eapply stays_mono; [apply delete_subseteq|exact Ta|done].
    + rewrite Sd in Tg. done.
Qed.

Lemma Release_begin_heap p P o P' : Release_begin p P = Done o P' -> (forall h c, heap P' !! h = Some c -> exists c', heap P !! h = Some c' /\ refs c = refs c').
Proof.
  unfold Release_begin. destruct (p =? 0); [intros [= _ <-]; eauto|]. cbv zeta. intros E. apply bind_inv_done in E as (b & P1 & E1 & E).
  unfold block_at in E1. erewrite bind_done in E1 by done. destruct (heap P !! (p - MemHeader_Object_size)) as [b'|] eqn:Hb; [|done]. injection E1 as -> <-.
  destruct (word b =? 0); [injection E as _ <-; eauto|]. destruct (refs b =? 0); [|done]. erewrite bind_done in E by done.
  destruct (_ && _); [|done]. erewrite bind_done in E by done. erewrite bind_done in E by done. injection E as _ <-. cbn. intros h c Hc.
  destruct (decide (h = p - MemHeader_Object_size)) as [->|Hne]; [rewrite lookup_insert_eq in Hc; simplify_eq; eauto|rewrite lookup_insert_ne in Hc by done; eauto].
Qed.

Lemma push_free_heap h k P P' : push_free h k P = Done tt P' -> (forall y c, heap P' !! y = Some c -> exists c', heap P !! y = Some c' /\ refs c = refs c').
Proof.
  unfold push_free. intros E. apply bind_inv_done in E as (x & P1 & E1 & E). unfold header_at in E1. erewrite bind_done in E1 by done.
  destruct (znth (headers P) k); [|done]. injection E1 as -> <-. apply bind_inv_done in E as (b & P2 & E2 & E). unfold block_at in E2. erewrite bind_done in E2 by done.
  destruct (heap P !! h) as [b'|] eqn:Hb; [|done]. injection E2 as -> <-. erewrite bind_done in E by done. injection E as <-. cbn. intros y c Hc.
  destruct (decide (y = h)) as [->|Hne]; [rewrite lookup_insert_eq in Hc; simplify_eq; eauto|rewrite lookup_insert_ne in Hc by done; eauto].
Qed.

(** An object that nobody holds starts to be destroyed; all its members are counted. *)
Lemma ok_begin Zs m G s h : ok Zs m G s -> h + 16 ∈ Zs -> exists k P', Release_begin (h + 16) (pool s) = Done (Some k) P' /\
  ok (Zs ∖ {[h + 16]}) m (Ghost (delete h (alive G)) (<[h := k]> (dying G))) (with_pool s P') /\
  (forall i, is_Some (cells s !! Field (h + 16) i) -> is_Some (m !! Field (h + 16) i)).
Proof.
  intros O Hz. pose proof (ok_zeros _ _ _ _ O _ Hz) as Ha. replace (h + 16 - 16) with h in Ha by lia. destruct (alive_block O h Ha) as (H0 & Hd & b & Hb).
  pose proof (proj2 (ok_zero _ _ _ _ O h Ha) Hz) as Hc. pose proof (ok_refs _ _ _ _ O h b Ha Hb) as Hr. rewrite Hc in Hr. destruct (ok_pool _ _ _ _ O) as [fl I]. destruct Ha as [n Hn].
  destruct (Release_begin_spec fl G (pool s) h n b I Hn Hb Hr) as (k & P' & E & I'). exists k, P'. split; [done|].
  assert (Hin : forall i, is_Some (cells s !! Field (h + 16) i) -> is_Some (m !! Field (h + 16) i)).
  { intros i Hi. destruct (m !! Field (h + 16) i) as [q|] eqn:E'; [eauto|]. exfalso. destruct (ok_out _ _ _ _ O _ Hi E') as [F|[j F]].
    - replace (h + 16 - 16) with h in F by lia. rewrite Hd in F. by destruct F.
    - by apply (proj1 (count_zero _ _) Hc (Local j)). }
  split; [|done]. assert (Hal : forall y, is_Some (delete h (alive G) !! y) -> y <> h /\ is_Some (alive G !! y)).
  { intros y [x Hx]. apply lookup_delete_Some in Hx as [? Hx]. split; [done|by eexists]. }
  constructor; cbn [with_pool pool cells arity alive dying].
  - by exists fl.
  - apply O.
  - intros v p Hv Hp. destruct (decide (p - 16 = h)) as [<-|Hne]; [|rewrite lookup_delete_ne by done; by eapply (ok_target _ _ _ _ O)].
    replace (p - 16 + 16) with p in Hc by lia. by apply (proj1 (count_zero _ _) Hc) in Hv.
  - intros y c [_ Hy]%Hal Hc'. destruct (Release_begin_heap _ _ _ _ E y c Hc') as (c' & Hc2 & ->). by apply (ok_refs _ _ _ _ O).
  - intros y [Hy Hy']%Hal. rewrite (ok_zero _ _ _ _ O y Hy'). set_solver by lia.
  - intros p Hp. apply elem_of_difference in Hp as [Hp Hne]. rewrite elem_of_singleton in Hne. rewrite lookup_delete_ne by lia. by apply O.
  - intros y [Hy Hy']%Hal. by apply (ok_members _ _ _ _ O).
  - intros o i Hi. destruct (decide (o - 16 = h)) as [->|Hne]; [right; rewrite lookup_insert_eq; eauto|].
    rewrite lookup_delete_ne, lookup_insert_ne by done. by apply (ok_fields _ _ _ _ O o i).
  - intros w Hw Hm. destruct w as [j|o i]; [done|]. destruct (ok_out _ _ _ _ O _ Hw Hm) as [F|F]; [left|by right]. cbn.
    destruct (decide (o - 16 = h)) as [->|Hne]; [rewrite lookup_insert_eq; eauto|by rewrite lookup_insert_ne].
  - apply O.
Qed.

(** ... and ends, when its members are gone. *)
Lemma ok_end Zs m G s h k : ok Zs m G s -> dying G !! h = Some k -> (forall i, cells s !! Field (h + 16) i = None) ->
  exists P', Release_end (h + 16) k (pool s) = Done tt P' /\ ok Zs m (Ghost (alive G) (delete h (dying G))) (with_pool s P').
Proof.
  intros O Hk Hf. destruct (ok_pool _ _ _ _ O) as [fl I]. destruct (Release_end_spec fl G (pool s) h k I Hk) as (P' & E & _ & _ & fl' & I').
  exists P'. split; [done|]. assert (Hne : forall o i, is_Some (cells s !! Field o i) -> o - 16 <> h).
  { intros o i [q Hq] <-. specialize (Hf i). replace (o - 16 + 16) with o in Hf by lia. congruence. }
  constructor; cbn [with_pool pool cells arity alive dying]; try apply O.
  - by exists fl'.
  - intros y c Hy Hc. unfold Release_end in E. destruct (push_free_heap _ _ _ _ E y c Hc) as (c' & Hc2 & ->). by apply (ok_refs _ _ _ _ O).
  - intros o i Hi. rewrite lookup_delete_ne by (symmetry; by eapply Hne). by apply (ok_fields _ _ _ _ O o i).
  - intros w Hw Hm. destruct w as [j|o i]; [done|]. destruct (ok_out _ _ _ _ O _ Hw Hm) as [F|F]; [left|by right]. cbn.
    rewrite lookup_delete_ne; [done|]. symmetry. by eapply Hne.
Qed.

(** [Release] does what its callers need, with fuel for every object in use. *)
Lemma Release_releases n : releases (Release n) n.
Proof.
  induction n as [|n IH]; intros Zs m G s h O Hn Hz.
  - pose proof (ok_zeros _ _ _ _ O _ Hz) as [x Hx]. assert (E : alive G = ∅) by (apply map_size_empty_inv; lia). by rewrite E, lookup_empty in Hx.
  - pose proof (ok_zeros _ _ _ _ O _ Hz) as Ha. replace (h + 16 - 16) with h in Ha by lia. destruct (alive_block O h Ha) as (H0 & Hd & _).
    destruct (ok_members _ _ _ _ O h Ha) as (z & Ez & Hz0 & Hf). destruct (ok_begin _ _ _ _ _ O Hz) as (k & P1 & E1 & O1 & Hm).
    set (G1 := Ghost _ _) in O1. assert (Hd1 : delete h (dying G1) = dying G) by (cbn; by apply delete_insert_id).
    destruct (destroy_members_spec (Release n) n h (Z.to_nat z) _ _ _ _ IH O1) as (G2 & m2 & s2 & E2 & O2 & Sh).
    { cbn. rewrite map_size_delete_Some by done. lia. }
    { cbn. rewrite lookup_insert_eq. eauto. }
    { intros i. rewrite Z2Nat.id by done. apply Hf. }
    { exact Hm. }
    rewrite Hd1 in Sh. destruct Sh as [Sa Sd Sar Ss Sg]. assert (Hk2 : dying G2 !! h = Some k) by (rewrite Sd; cbn; by rewrite lookup_insert_eq).
    destruct (ok_end _ _ _ _ h k O2 Hk2) as (P3 & E3 & O3).
    { intros i. apply Sg. intros [F|[x Hx]]; (replace (h + 16 - 16) with h in * by lia); [rewrite Hd in F; by destruct F|].
      apply (lookup_weaken _ _ _ _ Hx) in Sa. cbn in Sa. by rewrite lookup_delete_eq in Sa. }
    exists (Ghost (alive G2) (delete h (dying G2))), m2, (with_pool s2 P3). split; [|split; [exact O3|]].
    + cbn [Release]. erewrite bind_done by (by apply on_pool_done). cbv beta iota. erewrite bind_done by done. cbn [with_pool arity]. rewrite Ez.
      erewrite bind_done by done. erewrite bind_done by exact E2. by apply on_pool_done.
    + constructor; cbn [alive dying with_pool cells arity]; [|by rewrite Sd|done|done|done]. etrans; [exact Sa|]. cbn. apply delete_subseteq.
Qed.

(** ** The operations between releases *)

(** [w] outlives the reset of [v]: a local, or a member of an object that a
    local other than [v] holds. *)
Definition held (v : place) (C : gmap place Z) (w : place) : Prop :=
  match w with
  | Local _ => True
  | Field o _ => exists n, Local n <> v /\ C !! Local n = Some o
  end.

(** Every variable counts, nothing is being destroyed. *)
Definition settled (Zs : gset Z) (G : ghost) (s : Store) : Prop := ok Zs (cells s) G s /\ dying G = ∅.

Lemma settled_target Zs G s v p : settled Zs G s -> cells s !! v = Some p -> p = 0 \/ is_Some (alive G !! (p - 16)).
Proof. intros [O _] Hv. destruct (decide (p = 0)); [by left|right]. by eapply (ok_target _ _ _ _ O). Qed.

Lemma Reset_spec Zs G s v p : settled Zs G s -> cells s !! v = Some p -> held v (cells s) v ->
  exists G' s', Reset v s = Done tt s' /\ settled Zs G' s' /\ cells s' !! v = Some 0 /\
    (forall w, w <> v -> held v (cells s) w -> cells s' !! w = cells s !! w) /\
    (forall w, w <> v -> cells s' !! w = cells s !! w \/ cells s' !! w = None).
Proof.
  intros [O Hd] Hv Hh. unfold Reset. erewrite bind_done by done.
  destruct (Reset_with_spec (Release (S (base.size (heap (pool s))))) _ Zs _ G s v p (Release_releases _) O) as (G' & m1 & s1 & E & O1 & [Sa Sd Sar Ss Sg] & N1 & C1).
  { pose proof (alive_in_heap O). lia. }
  { done. }
  { intros w [q Hq] Hn. apply lookup_delete_None in Hn as [<-|Hn]; [|congruence]. destruct v as [j|o i]; [done|]. destruct Hh as (j & Hj & Hjo). right. exists j. by rewrite lookup_delete_ne. }
  assert (Em : <[v := 0]> m1 = <[v := 0]> (cells s1)).
  { apply map_eq. intros w. destruct (decide (w = v)) as [->|Hne]; [by rewrite !lookup_insert_eq|]. rewrite !lookup_insert_ne by done.
    destruct (decide (stays (dying G) G' w)) as [S|S]; [destruct (Ss w S) as [-> ->]; by rewrite lookup_delete_ne|]. rewrite (Sg w S).
    destruct (m1 !! w) as [q|] eqn:Eq; [|done]. exfalso. assert (Hq : cells (with_cells s1 (<[v := 0]> (cells s1))) !! w = Some q).
    { eapply lookup_weaken; [|apply O1]. by rewrite lookup_insert_ne. }
    cbn in Hq. rewrite lookup_insert_ne, (Sg w S) in Hq by done. done. }
  exists G', (with_cells s1 (<[v := 0]> (cells s1))). split; [exact E|]. split; [split; [cbn [with_cells cells]; rewrite <-Em at 1; exact O1|congruence]|].
  split; [cbn; by rewrite lookup_insert_eq|].
  assert (Hst : forall w, w <> v -> cells (with_cells s1 (<[v := 0]> (cells s1))) !! w = if decide (stays (dying G) G' w) then cells s !! w else None).
  { intros w Hne. cbn. rewrite lookup_insert_ne by done. case_decide as S; [by apply Ss|by apply Sg]. }
  split; intros w Hne; rewrite Hst by done; [intros Hw|case_decide; auto]. case_decide as S; [done|]. destruct (cells s !! w) as [q|] eqn:Eq; [|done]. destruct S.
  destruct w as [j|o i]; [done|]. destruct Hw as (j & Hj & Hjo). right. pose proof (member_of_object O o i (ex_intro _ q Eq)).
  eapply (ok_target _ _ _ _ O1 (Local j)); [|lia]. rewrite lookup_insert_ne by done. destruct (Ss (Local j) I) as [_ ->]. by rewrite lookup_delete_ne.
Qed.

Lemma settled_new Zs G s n : settled Zs G s -> cells s !! Local n = None -> Z.of_nat (base.size (cells s)) + 1 < 2 ^ 32 ->
  settled Zs G (with_cells s (<[Local n := 0]> (cells s))).
Proof.
  intros [O Hd] Hn Hs. split; [|done]. cbn [with_cells cells]. apply (ok_cells Zs (cells s)); [done|done|..].
  - rewrite map_size_insert_None by done. lia.
  - intros q Hq. rewrite count_insert by done. rewrite decide_False by done. lia.
  - intros o i _. by rewrite lookup_insert_ne.
  - intros o i. by rewrite lookup_insert_ne.
  - intros w [q Hq] E. cbn in Hq. congruence.
Qed.

Lemma settled_gone Zs G s n : settled Zs G s -> cells s !! Local n = Some 0 -> settled Zs G (with_cells s (delete (Local n) (cells s))).
Proof. intros [O Hd] Hn. split; [|done]. by apply (ok_gone Zs (cells s)). Qed.

(** A null variable is pointed to an object. *)
Lemma settled_point Zs G s v o b : settled Zs G s -> cells s !! v = Some 0 -> held v (cells s) v -> o <> 0 -> is_Some (alive G !! (o - 16)) -> heap (pool s) !! (o - 16) = Some b ->
  settled (Zs ∖ {[o]}) G (with_refs (with_cells s (<[v := o]> (cells s))) (o - 16) (u32 (refs b + 1)) b).
Proof.
  intros [O Hd] Hv Hh Ho Ha Hb. split; [|done].
  assert (O1 : ok Zs (delete v (cells s)) G (with_cells s (<[v := o]> (cells s)))).
  { apply (ok_cells Zs (cells s)); [done|..].
    - rewrite <-insert_delete_eq. apply insert_subseteq. by rewrite lookup_delete_eq.
    - rewrite map_size_insert_Some by eauto. apply O.
    - intros q Hq. rewrite (count_delete q (cells s) v 0) by done. rewrite decide_False by done. lia.
    - intros o' i _. destruct (decide (v = Field o' i)) as [->|Hne]; [rewrite lookup_insert_eq, Hv; split; eauto|by rewrite lookup_insert_ne].
    - intros o' i. destruct (decide (v = Field o' i)) as [->|Hne]; [rewrite Hv; eauto|by rewrite lookup_insert_ne].
    - intros w [q Hq] E. apply lookup_delete_None in E as [<-|E]; [|rewrite lookup_insert_ne in Hq by (intros ->; congruence); congruence].
      destruct v as [j|o' i]; [done|]. destruct Hh as (j & Hj & Hjo). right. exists j. by rewrite lookup_delete_ne. }
  pose proof (ok_up _ _ _ _ v o b O1) as O2. cbn [with_cells cells pool] in O2. rewrite insert_delete_eq in O2. apply O2; [by rewrite lookup_delete_eq|by rewrite lookup_insert_eq|done..|].
  intros w [q Hq] E. cbn in Hq. congruence.
Qed.

(** A reference goes from one variable to a null one. *)
Lemma settled_move Zs G s v w p : settled Zs G s -> cells s !! v = Some 0 -> cells s !! w = Some p -> v <> w ->
  settled Zs G (with_cells s (<[w := 0]> (<[v := p]> (cells s)))).
Proof.
  intros [O Hd] Hv Hw Hne. split; [|done].
  assert (Hi : forall x, is_Some (<[w := 0]> (<[v := p]> (cells s)) !! x) <-> is_Some (cells s !! x)).
  { intros x. rewrite !lookup_insert. repeat case_decide; subst; rewrite ?Hv, ?Hw; split; eauto. }
  cbn [with_cells cells]. apply (ok_cells Zs (cells s)); [done|done|..].
  - rewrite !map_size_insert_Some; [apply O|eauto|]. rewrite lookup_insert_ne by done. eauto.
  - intros q Hq. rewrite (count_delete q (cells s) v 0), decide_False by done. set (C := delete v (cells s)).
    rewrite <-(insert_delete_eq (cells s) v p). fold C. assert (Hc : C !! w = Some p) by (unfold C; by rewrite lookup_delete_ne).
    assert (Hn : <[v := p]> C !! w = Some p) by by rewrite lookup_insert_ne.
    rewrite <-(insert_delete_eq _ w 0), count_insert by by rewrite lookup_delete_eq. rewrite decide_False by done.
    pose proof (count_delete q _ w p Hn) as E1. rewrite count_insert in E1 by (unfold C; by rewrite lookup_delete_eq). lia.
  - intros o i _. apply Hi.
  - intros o i. apply Hi.
  - intros x [q Hq] E. cbn in Hq. congruence.
Qed.

(** *** Assignment *)

(** [v] is null and takes a reference to [o], or nothing. *)
Lemma point_spec Zs G s v o : settled Zs G s -> cells s !! v = Some 0 -> held v (cells s) v -> o = 0 \/ is_Some (alive G !! (o - 16)) ->
  exists s', (if o =? 0 then mret tt else _ ← store v o; add_ref o) s = Done tt s' /\ settled (Zs ∖ {[o]}) G s' /\ cells s' = <[v := o]> (cells s).
Proof.
  intros St Hv Hh Ho. destruct (Z.eqb_spec o 0) as [->|H0].
  - exists s. split; [done|]. assert (E : Zs ∖ {[0]} = Zs).
    { apply set_eq. intros x. rewrite elem_of_difference, elem_of_singleton. split; [naive_solver|]. intros Hx. split; [done|]. intros ->.
      destruct St as [O _]. pose proof (ok_zeros _ _ _ _ O 0 Hx) as Ha. apply (alive_block O) in Ha. lia. }
    rewrite E. split; [done|]. by rewrite insert_id.
  - destruct Ho as [|Ha]; [done|]. destruct (alive_block (proj1 St) _ Ha) as (_ & _ & b & Hb). eexists. split; [|split; [by apply settled_point|done]].
    erewrite bind_done by (apply store_var; eauto). by apply add_ref_spec.
Qed.

Lemma assign_copy_spec Zs G s v w : settled Zs G s -> is_Some (cells s !! v) -> is_Some (cells s !! w) -> held v (cells s) v -> held v (cells s) w ->
  exists G' s', assign_copy v w s = Done tt s' /\ exists Zs', settled Zs' G' s' /\ Zs' ⊆ Zs /\ cells s' !! v = cells s !! w.
Proof.
  intros St [p Hp] [o Ho] Hv Hw. unfold assign_copy, assign_from. erewrite bind_done by (by apply load_var). erewrite bind_done by (by apply load_var).
  destruct (Z.eqb_spec p o) as [->|Hne]; [exists G, s; split; [done|]; exists Zs; split; [done|]; split; [done|congruence]|].
  destruct (Reset_spec _ _ _ _ _ St Hp Hv) as (G1 & s1 & E & St1 & H0 & Hk & _). assert (w <> v) by (intros ->; congruence).
  erewrite bind_done by exact E. pose proof (Hk w ltac:(done) Hw) as Ew. rewrite Ho in Ew. erewrite bind_done by (by apply load_var).
  destruct (point_spec _ _ s1 v o St1 H0) as (s2 & E2 & St2 & Ec).
  { destruct v as [j|ov i]; [done|]. destruct Hv as (j & Hj & Hjo). exists j. split; [done|]. by rewrite (Hk (Local j)). }
  { by eapply settled_target. }
  exists G1, s2. split; [exact E2|]. eexists. split; [exact St2|]. split; [set_solver|]. by rewrite Ec, lookup_insert_eq.
Qed.

Lemma assign_move_spec Zs G s v w : settled Zs G s -> is_Some (cells s !! v) -> is_Some (cells s !! w) -> held v (cells s) v -> held v (cells s) w ->
  exists G' s', assign_move v w s = Done tt s' /\ settled Zs G' s' /\ cells s' !! v = cells s !! w.
Proof.
  intros St [p Hp] [o Ho] Hv Hw. unfold assign_move. erewrite bind_done by (by apply load_var). erewrite bind_done by (by apply load_var).
  destruct (Z.eqb_spec p o) as [->|Hne]; [exists G, s; split; [done|]; split; [done|congruence]|].
  destruct (Reset_spec _ _ _ _ _ St Hp Hv) as (G1 & s1 & E & St1 & H0 & Hk & _). assert (Hwv : w <> v) by (intros ->; congruence).
  erewrite bind_done by exact E. pose proof (Hk w Hwv Hw) as Ew. rewrite Ho in Ew. erewrite bind_done by (by apply load_var).
  erewrite bind_done by (apply store_var; eauto). exists G1, (with_cells s1 (<[w := 0]> (<[v := o]> (cells s1)))). split; [|split; [by apply settled_move|]].
  - rewrite store_var; [done|]. cbn. rewrite lookup_insert_ne by done. eauto.
  - cbn. rewrite lookup_insert_ne, lookup_insert_eq by done. by rewrite Ho.
Qed.

(** *** New objects *)

(** [C] with [n] null members of the object at [o]. *)
Fixpoint with_members (o : Z) (n : nat) (C : gmap place Z) : gmap place Z :=
  match n with
  | O => C
  | S n => <[Field o (Z.of_nat n) := 0]> (with_members o n C)
  end.

(** [v] is one of these. *)
Definition member_of (o n : Z) (v : place) : Prop := match v with Local _ => False | Field o' i => o' = o /\ 0 <= i < n end.
#[local] Instance member_of_dec o n v : Decision (member_of o n v).
Proof. destruct v; cbn; apply _. Defined.

Lemma construct_members_spec o n s : construct_members o n s = Done tt (with_cells s (with_members o n (cells s))).
Proof. induction n as [|n IH]; cbn; [by destruct s|]. by erewrite bind_done by exact IH. Qed.

Lemma with_members_lookup o n C v : with_members o n C !! v = if decide (member_of o (Z.of_nat n) v) then Some 0 else C !! v.
Proof.
  induction n as [|n IH]; cbn [with_members].
  - rewrite decide_False; [done|]. destruct v; cbn; [tauto|lia].
  - rewrite lookup_insert. destruct (decide (Field o (Z.of_nat n) = v)) as [<-|Hne].
    + rewrite decide_True; [done|]. cbn. lia.
    + rewrite IH. apply decide_ext. destruct v as [j|o' i]; [done|]. cbn. assert (o' <> o \/ i <> Z.of_nat n); [|lia].
      destruct (decide (o' = o)) as [->|]; [right; congruence|by left].
Qed.

Lemma with_members_count o n C q : (forall i, C !! Field o i = None) -> q <> 0 -> count q (with_members o n C) = count q C.
Proof.
  intros HC Hq. induction n as [|n IH]; cbn [with_members]; [done|]. rewrite count_insert, IH, decide_False by (done || (rewrite with_members_lookup, decide_False; [done|cbn; lia])). lia.
Qed.

Lemma with_members_size o n C : (base.size (with_members o n C) <= n + base.size C)%nat.
Proof.
  induction n as [|n IH]; cbn [with_members]; [done|]. destruct (with_members o n C !! Field o (Z.of_nat n)) as [q|] eqn:E.
  - rewrite map_size_insert_Some by eauto. lia.
  - rewrite map_size_insert_None by done. lia.
Qed.

Lemma Alloc_others fl G P hs siz h P' : inv fl G P -> 0 < hs <= 16 -> 0 < siz -> hs + siz <= 2 ^ 63 -> versionNumber P + 1 < 2 ^ 56 ->
  Alloc hs siz P = Done (h + hs) P' -> 0 < h -> forall y, y <> h -> heap P' !! y = heap P !! y.
Proof.
  intros I Hh Hs Hb Hv E H0 y Hy. destruct (Alloc_spec fl G P hs siz I Hh Hs Hb) as (k & x & _ & _ & _ & [(_ & _ & E')|[(_ & _ & E')|(_ & b & l & _ & _ & _ & _ & E')]]).
  - rewrite E' in E. injection E as E _. lia.
  - specialize (E' Hv). cbv zeta in E'. rewrite E' in E. injection E as E <-. cbn [heap]. rewrite lookup_insert_ne by lia. done.
  - specialize (E' Hv). rewrite E' in E. injection E as E <-. cbn [heap]. rewrite lookup_insert_ne by lia. done.
Qed.

Lemma Create_spec fl G P siz tid : inv fl G P -> 0 < siz -> 16 + siz <= 2 ^ 63 -> versionNumber P + 1 < 2 ^ 56 ->
  MemPool.Create siz tid (fun _ => mret tt) P = Done 0 P \/
  exists h P' b fl', MemPool.Create siz tid (fun _ => mret tt) P = Done (h + 16) P' /\ 0 < h /\ alive G !! h = None /\ dying G !! h = None /\
    heap P' !! h = Some b /\ refs b = 0 /\ (forall y, y <> h -> heap P' !! y = heap P !! y) /\ inv fl' (Ghost (<[h := versionNumber P']> (alive G)) (dying G)) P'.
Proof.
  intros I Hs Hb Hv. unfold MemPool.Create, MemHeader_Object_size.
  destruct (Alloc_inv fl G P 16 siz I ltac:(lia) Hs Hb Hv) as [E|(h & P1 & b & fl' & E & H0 & Ev & Ha & Hd & Hh & Hsz & _ & I')].
  { left. by erewrite bind_done by exact E. }
  right. pose proof (Alloc_others fl G P 16 siz h P1 I ltac:(lia) Hs Hb Hv E H0) as Ho.
  assert (Hal : alive (Ghost (<[h := versionNumber P1]> (alive G)) (dying G)) !! h = Some (versionNumber P1)) by (cbn; by rewrite lookup_insert_eq).
  pose proof (inv_fields _ _ _ h b _ 0 tid I' Hal Hh) as I2.
  exists h, (MkPool (headers P1) (versionNumber P1) (<[h := MkBlock (size b) (word b) 0 tid]> (heap P1))), (MkBlock (size b) (word b) 0 tid), fl'. split; [|split; [done|split; [done|split; [done|split; [|split; [|split; [|exact I2]]]]]]].
  - erewrite bind_done by exact E. cbv beta. destruct (Z.eqb_spec (h + 16) 0); [lia|]. cbv zeta. replace (h + 16 - 16) with h by lia.
    erewrite bind_done by (by apply block_at_spec). by erewrite bind_done by done.
  - cbn. by rewrite lookup_insert_eq.
  - done.
  - intros y Hy. cbn. rewrite lookup_insert_ne by done. by apply Ho.
Qed.

(** The new object, which no variable holds yet. *)
Lemma MPCreate_spec G s siz tid n : settled ∅ G s -> 0 < siz -> 16 + siz <= 2 ^ 63 -> versionNumber (pool s) + 1 < 2 ^ 56 ->
  0 <= n -> Z.of_nat (base.size (cells s)) + n < 2 ^ 32 ->
  exists p G' s', MPCreate siz tid n s = Done p s' /\ settled ({[p]} ∖ {[0]}) G' s' /\ (p = 0 \/ is_Some (alive G' !! (p - 16))) /\
    (forall w, is_Some (cells s !! w) -> cells s' !! w = cells s !! w) /\
    (forall l, cells s' !! Local l = cells s !! Local l) /\ Z.of_nat (base.size (cells s')) <= Z.of_nat (base.size (cells s)) + n.
Proof.
  intros [O Hdy] Hs Hb Hv Hn Hsz. destruct (ok_pool _ _ _ _ O) as [fl I].
  destruct (Create_spec fl G (pool s) siz tid I Hs Hb Hv) as [E|(h & P' & b & fl' & E & H0 & Ha & Hd & Hh & Hr & Ho & I')]; unfold MPCreate.
  { exists 0, G, s. split; [|split; [|split; [by left|split; [done|split; [done|lia]]]]].
    - erewrite bind_done by (by apply on_pool_done). by destruct s.
    - by replace ({[0]} ∖ {[0]} : gset Z) with (∅ : gset Z) by set_solver. }
  assert (Hf : forall i, cells s !! Field (h + 16) i = None).
  { intros i. destruct (cells s !! Field (h + 16) i) as [q|] eqn:E'; [|done]. destruct (ok_fields _ _ _ _ O _ i (ex_intro _ q E')) as [[? Hx]|[? Hx]]; replace (h + 16 - 16) with h in Hx by lia; congruence. }
  assert (Hno : count (h + 16) (cells s) = 0%nat).
  { apply count_zero. intros v Hx. pose proof (ok_target _ _ _ _ O v _ Hx) as Ht. replace (h + 16 - 16) with h in Ht by lia. rewrite Ha in Ht. destruct Ht as [? [=]]. lia. }
  set (C := with_members (h + 16) (Z.to_nat n) (cells s)).
  assert (HC : forall v, C !! v = if decide (member_of (h + 16) n v) then Some 0 else cells s !! v).
  { intros v. unfold C. rewrite with_members_lookup. by rewrite Z2Nat.id. }
  assert (Hq : forall q, q <> 0 -> count q C = count q (cells s)) by (intros q Hq; by apply with_members_count).
  exists (h + 16), (Ghost (<[h := versionNumber P']> (alive G)) (dying G)), (MkStore P' C (<[h + 16 := n]> (arity s))).
  split; [|split; [split; [|done]|split; [|split; [|split]]]].
  - erewrite bind_done by (by apply on_pool_done). destruct (Z.eqb_spec (h + 16) 0); [lia|]. erewrite bind_done by apply construct_members_spec. by erewrite bind_done by done.
  - replace ({[h + 16]} ∖ {[0]} : gset Z) with ({[h + 16]} : gset Z) by set_solver by lia.
    assert (Hal : forall y, is_Some (<[h := versionNumber P']> (alive G) !! y) -> y = h \/ y <> h /\ is_Some (alive G !! y)).
    { intros y. destruct (decide (y = h)) as [->|Hne]; [by left|right]. by rewrite lookup_insert_ne in H1. }
    constructor; cbn [pool cells arity alive dying].
    + by exists fl'.
    + done.
    + intros v p Hp Hp0. rewrite HC in Hp. case_decide; [by simplify_eq|]. pose proof (ok_target _ _ _ _ O v p Hp Hp0) as [x Hx]. rewrite lookup_insert_ne by (intros ->; congruence). by exists x.
    + intros y c [->|[Hne Hy]]%Hal Hc; [simplify_eq; rewrite Hr, Hq by lia; by rewrite Hno|]. rewrite Ho in Hc by done. rewrite (ok_refs _ _ _ _ O y c Hy Hc), Hq; [done|]. apply (alive_block O) in Hy. lia.
    + intros y [->|[Hne Hy]]%Hal; [rewrite Hq by lia; set_solver|]. rewrite Hq by (apply (alive_block O) in Hy; lia). rewrite (ok_zero _ _ _ _ O y Hy). set_solver by lia.
    + intros p Hp. apply elem_of_singleton in Hp as ->. replace (h + 16 - 16) with h by lia. rewrite lookup_insert_eq. eauto.
    + intros y [->|[Hne Hy]]%Hal.
      * exists n. rewrite lookup_insert_eq. split; [done|]. split; [done|]. intros i. rewrite HC. cbn [member_of]. case_decide as Hd'; [split; [lia|eauto]|]. rewrite Hf. split; [by intros []|lia].
      * destruct (ok_members _ _ _ _ O y Hy) as (k & Ek & Hk & Hi). exists k. rewrite lookup_insert_ne by lia. split; [done|]. split; [done|]. intros i. rewrite HC, decide_False; [apply Hi|]. cbn. lia.
    + intros o i Hi. rewrite HC in Hi. case_decide as Hd'.
      * destruct Hd' as [-> _]. left. replace (h + 16 - 16) with h by lia. rewrite lookup_insert_eq. eauto.
      * rewrite lookup_insert_is_Some. destruct (ok_fields _ _ _ _ O o i Hi); [left|by right]. destruct (decide (h = o - 16)); [by left|by right].
    + intros w [q Hw] Hm. congruence.
    + pose proof (with_members_size (h + 16) (Z.to_nat n) (cells s)). unfold C. lia.
  - right. replace (h + 16 - 16) with h by lia. cbn. rewrite lookup_insert_eq. eauto.
  - intros w Hw. cbn. rewrite HC, decide_False; [done|]. destruct w as [j|o i]; [by intros []|]. intros [-> _]. rewrite Hf in Hw. by destruct Hw.
  - intros l. cbn. rewrite HC, decide_False; [done|by intros []].
  - cbn. pose proof (with_members_size (h + 16) (Z.to_nat n) (cells s)). unfold C. lia.
Qed.

Lemma Ptr_MPCreate_spec G s v siz tid n : settled ∅ G s -> is_Some (cells s !! v) -> held v (cells s) v -> 0 < siz -> 16 + siz <= 2 ^ 63 -> versionNumber (pool s) + 1 < 2 ^ 56 ->
  0 <= n -> Z.of_nat (base.size (cells s)) + n < 2 ^ 32 ->
  exists G' s', Ptr_MPCreate v siz tid n s = Done tt s' /\ settled ∅ G' s'.
Proof.
  intros St Hv Hh Hs Hb Hver Hn Hsz. destruct (MPCreate_spec G s siz tid n St Hs Hb Hver Hn Hsz) as (p & G1 & s1 & E & St1 & Hp & Hk & _).
  unfold Ptr_MPCreate, Reset_to. erewrite bind_done by exact E. pose proof (Hk v Hv) as Ev. destruct Hv as [q Hq]. rewrite Hq in Ev. erewrite bind_done by (by apply load_var).
  assert (Hh1 : held v (cells s1) v).
  { destruct v as [j|o i]; [done|]. destruct Hh as (j & Hj & Hjo). exists j. split; [done|]. by rewrite Hk. }
  destruct (Z.eqb_spec q p) as [->|Hne].
  - exists G1, s1. split; [done|]. replace (∅ : gset Z) with ({[p]} ∖ {[0]} : gset Z); [done|]. destruct (decide (p = 0)) as [->|H0]; [set_solver|].
    exfalso. destruct (target_block (proj1 St1) v p Ev H0) as (_ & _ & _ & _ & Hz). set_solver.
  - destruct (Reset_spec _ _ _ _ _ St1 Ev Hh1) as (G2 & s2 & E2 & St2 & H0 & Hk2 & _). erewrite bind_done by exact E2.
    destruct (point_spec _ _ s2 v p St2 H0) as (s3 & E3 & St3 & _).
    + destruct v as [j|o i]; [done|]. destruct Hh1 as (j & Hj & Hjo). exists j. split; [done|]. by rewrite Hk2.
    + destruct (decide (p = 0)) as [|Hp0]; [by left|right]. apply (ok_zeros _ _ _ _ (proj1 St2)). set_solver.
    + exists G2, s3. split; [exact E3|]. by replace (∅ : gset Z) with (({[p]} ∖ {[0]}) ∖ {[p]} : gset Z) by set_solver.
Qed.

(** A new local takes a reference to [p]. *)
Lemma Ptr_raw_spec Zs G s n p : settled Zs G s -> cells s !! Local n = None -> Z.of_nat (base.size (cells s)) + 1 < 2 ^ 32 -> p = 0 \/ is_Some (alive G !! (p - 16)) ->
  exists s', Ptr_raw (Local n) p s = Done tt s' /\ settled (Zs ∖ {[p]}) G s' /\ cells s' = <[Local n := p]> (cells s).
Proof.
  intros St Hn Hs Hp. pose proof (settled_new _ _ _ _ St Hn Hs) as St1.
  destruct (point_spec _ _ _ (Local n) p St1 ltac:(cbn; by rewrite lookup_insert_eq) I Hp) as (s' & E & St' & Ec). cbn [with_cells cells] in Ec. rewrite insert_insert_eq in Ec.
  exists s'. split; [|done]. unfold Ptr_raw. erewrite bind_done by done. destruct (p =? 0) eqn:Ep.
  - apply Z.eqb_eq in Ep as ->. exact E.
  - erewrite bind_done in E by (apply store_var; cbn; rewrite lookup_insert_eq; eauto). cbn [with_cells cells] in E. rewrite insert_insert_eq in E. exact E.
Qed.

Lemma MPCreatePtr_spec G s l siz tid n : settled ∅ G s -> cells s !! Local l = None -> 0 < siz -> 16 + siz <= 2 ^ 63 -> versionNumber (pool s) + 1 < 2 ^ 56 ->
  0 <= n -> Z.of_nat (base.size (cells s)) + n + 1 < 2 ^ 32 ->
  exists G' s', MPCreatePtr (Local l) siz tid n s = Done tt s' /\ settled ∅ G' s'.
Proof.
  intros St Hl Hs Hb Hver Hn Hsz. destruct (MPCreate_spec G s siz tid n St Hs Hb Hver Hn ltac:(lia)) as (p & G1 & s1 & E & St1 & Hp & Hk & Hn1 & Hs1).
  unfold MPCreatePtr. erewrite bind_done by exact E. destruct (Ptr_raw_spec _ _ s1 l p St1) as (s2 & E2 & St2 & _); [by rewrite Hn1|lia|done|].
  exists G1, s2. split; [done|]. by replace (∅ : gset Z) with (({[p]} ∖ {[0]}) ∖ {[p]} : gset Z) by set_solver.
Qed.

(** ** Programs *)

Inductive action :=
| New (n : Z) | Copy (n : Z) (w : place) | Move (n : Z) (w : place) | Destroy (n : Z)
| Clear (v : place) | Assign (v w : place) | MoveTo (v w : place) | Make (v : place) (siz tid members : Z) | MakePtr (n siz tid members : Z).

Definition run (a : action) : M Store unit :=
  match a with
  | New n => Ptr_empty (Local n)
  | Copy n w => Ptr_copy (Local n) w
  | Move n w => Ptr_move (Local n) w
  | Destroy n => Ptr_destroy (Local n)
  | Clear v => Reset v
  | Assign v w => assign_copy v w
  | MoveTo v w => assign_move v w
  | Make v siz tid n => Ptr_MPCreate v siz tid n
  | MakePtr l siz tid n => MPCreatePtr (Local l) siz tid n
  end.

(** The variables exist; one that is assigned to, and the one that is assigned
    from, outlive the release of what the first one held. *)
Definition allowed (a : action) (s : Store) : Prop :=
  let C := cells s in
  match a with
  | New n => C !! Local n = None /\ Z.of_nat (base.size C) + 1 < 2 ^ 32
  | Copy n w | Move n w => C !! Local n = None /\ is_Some (C !! w) /\ Z.of_nat (base.size C) + 1 < 2 ^ 32
  | Destroy n => is_Some (C !! Local n)
  | Clear v => is_Some (C !! v) /\ held v C v
  | Assign v w | MoveTo v w => is_Some (C !! v) /\ is_Some (C !! w) /\ held v C v /\ held v C w
  | Make v siz tid n => is_Some (C !! v) /\ held v C v /\ 0 < siz /\ 16 + siz <= 2 ^ 63 /\ versionNumber (pool s) + 1 < 2 ^ 56 /\ 0 <= n /\ Z.of_nat (base.size C) + n < 2 ^ 32
  | MakePtr l siz tid n => C !! Local l = None /\ 0 < siz /\ 16 + siz <= 2 ^ 63 /\ versionNumber (pool s) + 1 < 2 ^ 56 /\ 0 <= n /\ Z.of_nat (base.size C) + n + 1 < 2 ^ 32
  end.

Definition new_Store : Store := MkStore new_MemPool ∅ ∅.
Definition follows (s s' : Store) : Prop := exists a, allowed a s /\ run a s = Done tt s'.

(** A block in use has a version number with the index of its list. *)
Definition block_in_use (s : Store) (h : Z) (b : block) : Prop := heap (pool s) !! h = Some b /\ 2 ^ 56 <= word b.

Lemma settled_init : settled ∅ (Ghost ∅ ∅) new_Store.
Proof.
  split; [|done]. constructor; cbn; try (intros; match goal with H1 : is_Some _ |- _ => destruct H1 as [? H1] end; by simplify_map_eq); try (intros; by simplify_map_eq).
  eexists. apply inv_init.
Qed.

Lemma run_allowed G s a : settled ∅ G s -> allowed a s -> exists G' s', run a s = Done tt s' /\ settled ∅ G' s'.
Proof.
  intros St Ha. destruct a as [n|n w|n w|n|v|v w|v w|v siz tid n|l siz tid n]; cbn [run allowed] in *; cbv zeta in Ha.
  - destruct Ha as [Hn Hs]. eexists G, _. split; [done|]. by apply settled_new.
  - destruct Ha as (Hn & [p Hp] & Hs). unfold Ptr_copy. erewrite bind_done by (by apply load_var).
    destruct (Ptr_raw_spec _ _ _ _ p St Hn Hs (settled_target _ _ _ _ _ St Hp)) as (s' & E & St' & _). exists G, s'. split; [exact E|].
    by replace (∅ : gset Z) with (∅ ∖ {[p]} : gset Z) by set_solver.
  - destruct Ha as (Hn & [p Hp] & Hs). pose proof (settled_new _ _ _ _ St Hn Hs) as St1. unfold Ptr_move. erewrite bind_done by (by apply load_var).
    erewrite bind_done by done. assert (Hne : Local n <> w) by (intros <-; congruence). eexists G, _. split; [apply store_var; cbn; rewrite lookup_insert_ne by done; eauto|].
    pose proof (settled_move _ _ _ (Local n) w p St1) as St2. cbn [with_cells cells] in St2. rewrite insert_insert_eq in St2.
    apply St2; [by rewrite lookup_insert_eq|by rewrite lookup_insert_ne|done].
  - destruct Ha as [p Hp]. destruct (Reset_spec _ _ _ _ _ St Hp I) as (G1 & s1 & E & St1 & H0 & _). exists G1. eexists. unfold Ptr_destroy.
    erewrite bind_done by exact E. split; [done|]. by apply settled_gone.
  - destruct Ha as [[p Hp] Hh]. destruct (Reset_spec _ _ _ _ _ St Hp Hh) as (G1 & s1 & E & St1 & _). eauto.
  - destruct Ha as (Hv & Hw & Hh & Hh'). destruct (assign_copy_spec _ _ _ _ _ St Hv Hw Hh Hh') as (G1 & s1 & E & Zs' & St1 & Hz & _). exists G1, s1. split; [done|].
    by replace (∅ : gset Z) with Zs' by set_solver.
  - destruct Ha as (Hv & Hw & Hh & Hh'). destruct (assign_move_spec _ _ _ _ _ St Hv Hw Hh Hh') as (G1 & s1 & E & St1 & _). eauto.
  - destruct Ha as (Hv & Hh & H1 & H2 & H3 & H4 & H5). by eapply Ptr_MPCreate_spec.
  - destruct Ha as (Hl & H1 & H2 & H3 & H4 & H5). eapply MPCreatePtr_spec; [done..|lia].
Qed.

Lemma follows_settled s : rtc follows new_Store s -> exists G, settled ∅ G s.
Proof.
  assert (Hg : forall s0, rtc follows s0 s -> (exists G, settled ∅ G s0) -> exists G, settled ∅ G s); [|intros Hr; apply (Hg _ Hr); eexists; apply settled_init].
  induction 1 as [s0|s0 s1 s2 (a & Ha & E) _ IH]; [done|]. intros [G St]. apply IH. destruct (run_allowed G s0 a St Ha) as (G' & s' & E' & St'). rewrite E in E'. simplify_eq. eauto.
Qed.

Lemma in_use_alive G s h b : settled ∅ G s -> heap (pool s) !! h = Some b -> 2 ^ 56 <= word b <-> is_Some (alive G !! h).
Proof.
  intros [O Hd] Hb. destruct (ok_pool _ _ _ _ O) as [fl I]. split.
  - intros Hw. destruct (inv_cover _ _ _ I h b Hb) as [Ha|[[k Hk]|[i Hi]]]; [done|by rewrite Hd in Hk|]. pose proof (free_word_small _ _ _ _ _ _ I Hi Hb). lia.
  - intros [n Hn]. destruct (inv_alive _ _ _ I h n Hn) as [(b' & k & Hb' & _ & Hk & Wb & Hn') _]. simplify_eq. rewrite Wb. apply tag_large; lia.
Qed.

(** C28. Programs on smart pointers.  Whatever allowed operations have been
    run, the next one is defined; every variable is null or points to an
    object in use; the reference count of every object in use is the number of
    variables that point to it, and is not 0. *)
Theorem references_counted s : rtc follows new_Store s ->
  (forall a, allowed a s -> exists s', run a s = Done tt s') /\
  (forall v p, cells s !! v = Some p -> p <> 0 -> exists b, block_in_use s (p - 16) b) /\
  (forall h b, block_in_use s h b -> refs b = Z.of_nat (count (h + 16) (cells s)) /\ 0 < refs b) /\
  (forall v p, cells s !! v = Some p -> GetRefs v s = Done (if p =? 0 then 0 else Z.of_nat (count p (cells s))) s).
Proof.
  intros Hr. destruct (follows_settled s Hr) as [G St]. pose proof (proj1 St) as O. split; [|split; [|split]].
  - intros a Ha. destruct (run_allowed G s a St Ha) as (G' & s' & E & _). eauto.
  - intros v p Hv Hp. destruct (target_block O v p Hv Hp) as (b & Hb & _). exists b. split; [done|]. apply (in_use_alive G s (p - 16) b St Hb). by eapply (ok_target _ _ _ _ O).
  - intros h b [Hb Hw]. apply (in_use_alive G s h b St Hb) in Hw. pose proof (ok_refs _ _ _ _ O h b Hw Hb). pose proof (ok_zero _ _ _ _ O h Hw) as Hz. set_solver by lia.
  - intros v p Hv. unfold GetRefs. erewrite bind_done by (by apply load_var). destruct (Z.eqb_spec p 0) as [->|Hp]; [done|].
    destruct (target_block O v p Hv Hp) as (b & Hb & Hc & _). erewrite bind_done by (by apply memHeader_spec). by rewrite Hc.
Qed.

(** ** What is not allowed *)

(** [head = head->next], when [head] is the only one that holds its object:
    [Reset] destroys the member that [operator=] reads again behind it. *)
Lemma assign_own_member s n p i q : rtc follows new_Store s -> cells s !! Local n = Some p -> cells s !! Field p i = Some q -> p <> q -> count p (cells s) = 1%nat ->
  assign_copy (Local n) (Field p i) s = Undef /\ assign_move (Local n) (Field p i) s = Undef.
Proof.
  intros Hr Hn Hf Hpq Hc. destruct (follows_settled s Hr) as [G St]. destruct (Reset_spec _ _ _ _ _ St Hn I) as (G1 & s1 & E & [O1 D1] & H0 & _ & Hk).
  pose proof (member_of_object (proj1 St) p i (ex_intro _ q Hf)) as Hp.
  assert (Hgone : cells s1 !! Field p i = None).
  { destruct (cells s1 !! Field p i) as [x|] eqn:Ex; [exfalso|done]. destruct (ok_fields _ _ _ _ O1 p i (ex_intro _ x Ex)) as [Ha|[? Hd]]; [|by rewrite D1 in Hd].
    pose proof (ok_zero _ _ _ _ O1 _ Ha) as Hz. replace (p - 16 + 16) with p in Hz by lia. assert (Hc1 : count p (cells s1) <> 0%nat) by set_solver. apply Hc1, count_zero. intros w Hw.
    destruct (decide (w = Local n)) as [->|Hne]; [rewrite H0 in Hw; simplify_eq; lia|]. destruct (Hk w Hne) as [E1|E1]; rewrite Hw in E1; [|done]. symmetry in E1.
    pose proof (count_delete p (cells s) (Local n) p Hn) as Ec. rewrite decide_True in Ec by done. assert (E2 : delete (Local n) (cells s) !! w = Some p) by by rewrite lookup_delete_ne.
    apply count_pos in E2. lia. }
  assert (El : load (Field p i) s1 = Undef) by (unfold load; erewrite bind_done by done; by rewrite Hgone).
  split; [unfold assign_copy, assign_from; do 2 erewrite bind_done by (by apply load_var)|unfold assign_move; do 2 erewrite bind_done by (by apply load_var)];
    (destruct (Z.eqb_spec p q); [done|]); erewrite bind_done by exact E; by apply bind_undef.
Qed.

(** [Is] looks into the object before it has asked whether there is one. *)
Lemma Is_null s v pids t : rtc follows new_Store s -> cells s !! v = Some 0 -> Is pids v t s = Undef.
Proof.
  intros Hr Hv. destruct (follows_settled s Hr) as [G St]. unfold Is. erewrite bind_done by (by apply load_var). apply bind_undef. unfold memHeader, on_pool, block_at, MemHeader_Object_size.
  erewrite bind_done by done. destruct (heap (pool s) !! (0 - 16)) as [b|] eqn:Hb; [|done]. destruct (ok_pool _ _ _ _ (proj1 St)) as [fl I]. destruct (inv_range _ _ _ I _ _ Hb). lia.
Qed.

(** A [Ref] that goes releases nothing while every object in use is held. *)
Lemma Ref_destroyed_nothing s r : rtc follows new_Store s -> pointer r = 0 \/ is_Some (heap (pool s) !! (pointer r - 16)) /\ 2 ^ 56 <= vn r -> Ref_destroyed r s = Done tt s.
Proof.
  intros Hr Hp. assert (Es : with_pool s (pool s) = s) by by destruct s. unfold Ref_destroyed. destruct Hp as [Hp|[[b Hb] Hv]].
  - erewrite bind_done by (apply on_pool_done; unfold Ref_bool; by rewrite Hp). by rewrite Es.
  - destruct (decide (pointer r = 0)) as [Hp|Hp]; [erewrite bind_done by (apply on_pool_done; unfold Ref_bool; by rewrite Hp); by rewrite Es|].
    assert (Eb : Ref_bool r (pool s) = Done (word b =? vn r) (pool s)).
    { unfold Ref_bool. destruct (Z.eqb_spec (pointer r) 0); [done|]. cbn [negb]. by erewrite bind_done by (by apply block_at_spec). }
    erewrite bind_done by (by apply on_pool_done). rewrite Es. destruct (Z.eqb_spec (word b) (vn r)) as [Ew|]; [|done]. erewrite bind_done by (by apply memHeader_spec).
    destruct (follows_settled s Hr) as [G St]. assert (Ha : is_Some (alive G !! (pointer r - 16))) by (apply (in_use_alive G s _ b St Hb); lia).
    pose proof (ok_refs _ _ _ _ (proj1 St) _ b Ha Hb). pose proof (ok_zero _ _ _ _ (proj1 St) _ Ha) as Hz. destruct (Z.eqb_spec (refs b) 0); [|done]. set_solver by lia.
Qed.
End ops.

(** *** Two objects in a list *)

Fixpoint run_all (l : list action) : M Store unit := match l with [] => mret tt | a :: l => _ ← run a; run_all l end.
Definition after_all (l : list action) : Store := match run_all l new_Store with Done _ s => s | _ => new_Store end.

(** A first node, whose member 0 holds a second one. *)
Definition two_nodes : Store := after_all [New 0; Make (Local 0) 24 7 2; Make (Field 17 0) 24 7 2].

Lemma two_nodes_reached : rtc follows new_Store two_nodes.
Proof.
  apply (rtc_l _ _ (after_all [New 0])); [exists (New 0); split; [split; reflexivity|vm_compute; reflexivity]|].
  apply (rtc_l _ _ (after_all [New 0; Make (Local 0) 24 7 2])); [exists (Make (Local 0) 24 7 2)|apply rtc_once; exists (Make (Field 17 0) 24 7 2)];
    (split; [|vm_compute; reflexivity]).
  - split; [eexists; vm_compute; reflexivity|]. split; [done|]. do 2 (split; [lia|]). split; [vm_compute; reflexivity|]. split; [lia|vm_compute; reflexivity].
  - split; [eexists; vm_compute; reflexivity|]. split; [exists 0; split; [done|vm_compute; reflexivity]|]. do 2 (split; [lia|]). split; [vm_compute; reflexivity|]. split; [lia|vm_compute; reflexivity].
Qed.

Lemma references_counted_witness :
  cells two_nodes !! Field 17 0 = Some 81 /\ GetRefs (Field 17 0) two_nodes = Done 1 two_nodes /\
  exists s', run (Destroy 0) two_nodes = Done tt s'.
Proof.
  destruct (references_counted two_nodes two_nodes_reached) as (HA & _ & _ & HG).
  assert (E : cells two_nodes !! Field 17 0 = Some 81) by (vm_compute; reflexivity). split; [exact E|]. split; [exact (HG (Field 17 0) 81 E)|].
  apply (HA (Destroy 0)). exists 17. vm_compute. reflexivity.
Defined.

(** The list goes node by node with its head. *)
Example list_released : match run (Destroy 0) two_nodes with Done _ s => cells s = ∅ /\ (word <$> heap (pool s) !! 1) = Some 65 /\ headers (pool s) !! 6%nat = Some 1 | _ => False end.
Proof. vm_compute. auto. Qed.

(** [p = r] for a [Ref] to an object that only the old one of [p] holds:
    [Reset] releases it, and [p] holds the free block. *)
Example assign_ref_dangles :
  match MakeRef (Field 17 0) two_nodes with
  | Done r s => match assign_ref (Local 0) r s with Done _ s' => cells s' !! Local 0 = Some 81 /\ ~ exists b, block_in_use s' 65 b | _ => False end
  | _ => False
  end.
Proof. vm_compute. split; [done|]. intros (b & [= <-] & Hb). by apply Hb. Qed.
