(* ===== verification/Timeouts.v ===== *)
(** * xx_uv.h, xx_uv.cpp of test_uv_4: the timing wheel

    [UvTimeoutManager] keeps the timers of the peers in a wheel of slots; a
    slot is a doubly linked list that runs through the timers themselves
    ([UvTimeouterBase] is a base class of the peers).  A tick of the libuv
    timer calls [Process], which fires the timers of one slot and advances.

    The heap maps the address of each live timer to its fields; the word in
    front of an object that holds its version number is one of them.  There is
    one manager; [timeoutManager] says whether a timer points to it.  A handler
    is application code: the calls on timers that it makes, in order.  The log
    lists the timers whose handler was called. *)

From Stdlib Require Import ZArith Lia.
From stdpp Require Import base numbers list gmap.
From S2P Require Import Prelude Util.
Open Scope Z_scope.

Section timeouts.
Context {H : Type}.

(** [OnTimeout]: the lambda of [DelayRelease], or one of the application. *)
Inductive handler :=
| ReleaseThis (this : Z)
| Custom (h : H).

Record UvTimeouterBase := MkTimeouter {
  timeoutManager : bool;
  timeouterPrev : option Z;
  timeouterNext : option Z;
  timeouterIndex : Z;
  OnTimeout : option handler;
  versionNumber : Z
}.

Record UvTimeoutManager := MkManager {
  timeouterss : list (option Z);
  cursor : Z;
  defaultInterval : Z;
  heap : gmap Z UvTimeouterBase;
  nextVersion : Z;
  log : list Z
}.

Implicit Types (t : Z) (o : UvTimeouterBase) (s : UvTimeoutManager).

Definition set_links (p n : option Z) (i : Z) o : UvTimeouterBase :=
  MkTimeouter (timeoutManager o) p n i (OnTimeout o) (versionNumber o).
Definition set_prev (p : option Z) o : UvTimeouterBase := set_links p (timeouterNext o) (timeouterIndex o) o.
Definition set_next (n : option Z) o : UvTimeouterBase := set_links (timeouterPrev o) n (timeouterIndex o) o.
Definition set_manager (b : bool) o : UvTimeouterBase :=
  MkTimeouter b (timeouterPrev o) (timeouterNext o) (timeouterIndex o) (OnTimeout o) (versionNumber o).
Definition set_handler (h : option handler) o : UvTimeouterBase :=
  MkTimeouter (timeoutManager o) (timeouterPrev o) (timeouterNext o) (timeouterIndex o) h (versionNumber o).

Definition set_slots (l : list (option Z)) s : UvTimeoutManager :=
  MkManager l (cursor s) (defaultInterval s) (heap s) (nextVersion s) (log s).
Definition set_cursor (c : Z) s : UvTimeoutManager :=
  MkManager (timeouterss s) c (defaultInterval s) (heap s) (nextVersion s) (log s).
Definition set_heap (m : gmap Z UvTimeouterBase) s : UvTimeoutManager :=
  MkManager (timeouterss s) (cursor s) (defaultInterval s) m (nextVersion s) (log s).
Definition add_log t s : UvTimeoutManager :=
  MkManager (timeouterss s) (cursor s) (defaultInterval s) (heap s) (nextVersion s) (log s ++ [t]).

(** A use of a pointer: undefined unless it points to a live timer. *)
Definition deref t : M UvTimeoutManager UvTimeouterBase := s ← get; demand (heap s !! t).
Definition store t (f : UvTimeouterBase -> UvTimeouterBase) : M UvTimeoutManager unit :=
  o ← deref t; modify (fun s => set_heap (<[t := f o]> (heap s)) s).
(** [if (p) p->... = ...;] *)
Definition store_if (p : option Z) (f : UvTimeouterBase -> UvTimeouterBase) : M UvTimeoutManager unit :=
  match p with Some t => store t f | None => mret tt end.

(** [timeouterss[i]]: the index is asserted; a negative [int] is a huge [size_t]. *)
Definition slot_get (i : Z) : M UvTimeoutManager (option Z) := s ← get; demand (znth (timeouterss s) i).
Definition slot_set (i : Z) (p : option Z) : M UvTimeoutManager unit :=
  _ ← slot_get i; modify (fun s => set_slots (<[Z.to_nat i := p]> (timeouterss s)) s).

(** *** [UvTimeouterBase] *)

Definition Timeouting t : M UvTimeoutManager bool :=
  o ← deref t;
  mret (timeoutManager o && (negb (timeouterIndex o =? -1) || bool_decide (is_Some (timeouterPrev o)))).

Definition TimeouterClear t : M UvTimeoutManager unit := store t (set_links None None (-1)).

(** *** [UvTimeoutManager] *)

Definition new_UvTimeoutManager (wheelLen interval : Z) : UvTimeoutManager :=
  MkManager (replicate (Z.to_nat wheelLen) None) 0 interval ∅ 1 [].

Definition Add t (interval : Z) : M UvTimeoutManager unit :=
  b ← Timeouting t;
  _ ← assert_ (negb b);
  s ← get;
  let timerssLen := zlen (timeouterss s) in
  _ ← assert_ (negb ((interval <? 0) && (timerssLen <=? interval)));
  let interval := if interval =? 0 then defaultInterval s else interval in
  _ ← assert_ (bool_decide (is_sint 32 (interval + cursor s)));
  let interval := interval + cursor s in
  let interval := if timerssLen <=? interval then interval - timerssLen else interval in
  n ← slot_get interval;
  _ ← store t (set_links None n interval);
  _ ← store_if n (set_prev (Some t));
  slot_set interval (Some t).

Definition Remove t : M UvTimeoutManager unit :=
  b ← Timeouting t;
  _ ← assert_ b;
  o ← deref t;
  _ ← store_if (timeouterNext o) (set_prev (timeouterPrev o));
  _ ← match timeouterPrev o with
      | Some p => store p (set_next (timeouterNext o))
      | None => slot_set (timeouterIndex o) (timeouterNext o)
      end;
  TimeouterClear t.

Definition AddOrUpdate t (interval : Z) : M UvTimeoutManager unit :=
  b ← Timeouting t;
  _ ← (if b : bool then Remove t else mret tt);
  Add t interval.

Definition TimeoutReset t (interval : Z) : M UvTimeoutManager unit :=
  o ← deref t;
  _ ← assert_ (timeoutManager o);
  AddOrUpdate t interval.

Definition TimeouterStop t : M UvTimeoutManager unit :=
  o ← deref t;
  _ ← assert_ (timeoutManager o);
  b ← Timeouting t;
  if b : bool then Remove t else mret tt.

Definition BindTimeoutManager t : M UvTimeoutManager unit :=
  o ← deref t;
  _ ← assert_ (negb (timeoutManager o));
  store t (set_manager true).

Definition UnbindTimeoutManager t : M UvTimeoutManager unit :=
  b ← Timeouting t;
  _ ← (if b : bool then Remove t else mret tt);
  store t (set_manager false).

(** A new timer, at an address that no live timer has. *)
Definition new_Timeouter t : M UvTimeoutManager unit :=
  s ← get;
  _ ← assert_ (bool_decide (heap s !! t = None));
  put (MkManager (timeouterss s) (cursor s) (defaultInterval s)
         (<[t := MkTimeouter false None None (-1) None (nextVersion s)]> (heap s)) (nextVersion s + 1) (log s)).

(** [Release]: the destructor, then the memory goes back to the pool. *)
Definition Release t : M UvTimeoutManager unit :=
  _ ← UnbindTimeoutManager t;
  _ ← store t (set_handler None);
  modify (fun s => set_heap (delete t (heap s)) s).

Definition DelayRelease t (interval : Z) (clearHandlers : bool) : M UvTimeoutManager unit :=
  _ ← (if clearHandlers then store t (set_handler None) else mret tt);
  o ← deref t;
  _ ← (if timeoutManager o then mret tt else BindTimeoutManager t);
  _ ← store t (set_handler (Some (ReleaseThis t)));
  TimeoutReset t interval.

(** *** What an application does with timers *)

Inductive call :=
| CNew (t : Z)
| CSetOnTimeout (t : Z) (h : option handler)
| CBind (t : Z)
| CUnbind (t : Z)
| CReset (t interval : Z)
| CStop (t : Z)
| CRelease (t : Z)
| CDelayRelease (t interval : Z) (clearHandlers : bool).

Definition exec (c : call) : M UvTimeoutManager unit :=
  match c with
  | CNew t => new_Timeouter t
  | CSetOnTimeout t h => store t (set_handler h)
  | CBind t => BindTimeoutManager t
  | CUnbind t => UnbindTimeoutManager t
  | CReset t i => TimeoutReset t i
  | CStop t => TimeouterStop t
  | CRelease t => Release t
  | CDelayRelease t i b => DelayRelease t i b
  end.

Fixpoint exec_all (cs : list call) : M UvTimeoutManager unit :=
  match cs with
  | [] => mret tt
  | c :: cs => _ ← exec c; exec_all cs
  end.

Context (script : H -> list call).

Definition calls_of (h : handler) : list call :=
  match h with ReleaseThis t => [CRelease t] | Custom h => script h end.

(** [if (t->OnTimeout) t->OnTimeout();] *)
Definition fire t : M UvTimeoutManager unit :=
  o ← deref t;
  match OnTimeout o with
  | Some h => _ ← modify (add_log t); exec_all (calls_of h)
  | None => mret tt
  end.

(** The word in front of the object: that of the object that lives there now,
    or 0 in a free block. *)
Definition IsReleased t (vn : Z) s : bool :=
  match heap s !! t with Some o => negb (versionNumber o =? vn) | None => true end.

Fixpoint process_loop (fuel : nat) (t : option Z) : M UvTimeoutManager unit :=
  match t with
  | None => mret tt
  | Some t =>
      match fuel with
      | O => undef
      | S fuel =>
          o ← deref t;
          _ ← fire t;
          s ← get;
          _ ← (if IsReleased t (versionNumber o) s then mret tt else TimeouterClear t);
          process_loop fuel (timeouterNext o)
      end
  end.

Definition Process : M UvTimeoutManager unit :=
  s ← get;
  t ← slot_get (cursor s);
  _ ← process_loop (S (size (heap s))) t;
  s ← get;
  _ ← slot_set (cursor s) None;
  _ ← modify (set_cursor (cursor s + 1));
  s ← get;
  if cursor s =? zlen (timeouterss s) then modify (set_cursor 0) else mret tt.

Fixpoint clear_list (fuel : nat) (t : option Z) : M UvTimeoutManager unit :=
  match t with
  | None => mret tt
  | Some t =>
      match fuel with
      | O => undef
      | S fuel =>
          o ← deref t;
          _ ← TimeouterClear t;
          clear_list fuel (timeouterNext o)
      end
  end.

Fixpoint clear_slots (is_ : list Z) : M UvTimeoutManager unit :=
  match is_ with
  | [] => mret tt
  | i :: is_ =>
      t ← slot_get i;
      s ← get;
      _ ← clear_list (S (size (heap s))) t;
      _ ← slot_set i None;
      clear_slots is_
  end.

Definition Clear : M UvTimeoutManager unit :=
  s ← get;
  _ ← clear_slots (seqZ 0 (zlen (timeouterss s)));
  modify (set_cursor 0).

(** A session: the application's own calls and the ticks of the timer. *)
Inductive event :=
| Call (c : call)
| Tick
| Cleared.

Definition step (e : event) : M UvTimeoutManager unit :=
  match e with Call c => exec c | Tick => Process | Cleared => Clear end.

Fixpoint run (es : list event) : M UvTimeoutManager unit :=
  match es with
  | [] => mret tt
  | e :: es => _ ← step e; run es
  end.

End timeouts.
Arguments handler H : clear implicits.
Arguments UvTimeouterBase H : clear implicits.
Arguments UvTimeoutManager H : clear implicits.
Arguments call H : clear implicits.
Arguments event H : clear implicits.
