(* ===== verification/TimeoutsRep.v ===== *)
(** * The timing wheel: the alarm clock that it represents

    Doubly linked segments, the specification (one list of alarms, each with
    the number of the tick at which it rings; a tick rings those that are due,
    the most recently set first), the representation [rep], and that the calls
    which relink or change a timer keep it. *)

From Stdlib Require Import ZArith Lia.
From stdpp Require Import base numbers list gmap.
From S2P Require Import Prelude Util Timeouts.
Open Scope Z_scope.

(** ** Doubly linked segments *)

Section dlist.
Context {H : Type}.
Implicit Types (m : gmap Z (UvTimeouterBase H)) (t u : Z) (l a b : list Z) (p n : option Z).

Definition hd n l : option Z := match l with [] => n | t :: _ => Some t end.
Definition lst p l : option Z := match last l with Some t => Some t | None => p end.

Record is_node m (i : Z) p n t : Prop := {
  node : exists o, m !! t = Some o /\ timeouterPrev o = p /\ timeouterNext o = n /\
         timeouterIndex o = i /\ timeoutManager o = true
}.

(** The timers [l], linked in this order in slot [i], between [p] and [n]. *)
Fixpoint dseg m (i : Z) p l n : Prop :=
  match l with
  | [] => True
  | t :: l => is_node m i p (hd n l) t /\ dseg m i (Some t) l n
  end.

Lemma hd_app n a b : hd n (a ++ b) = hd (hd n b) a.
Proof. by destruct a. Qed.

Lemma lst_cons p t l : lst p (t :: l) = lst (Some t) l.
Proof. unfold lst. rewrite last_cons. by destruct (last l). Qed.

Lemma dseg_app m i p a b n : dseg m i p (a ++ b) n <-> dseg m i p a (hd n b) /\ dseg m i (lst p a) b n.
Proof.
  revert p. induction a as [|t a IH]; intros p; cbn [dseg app]; [by intuition|].
  rewrite hd_app, IH, lst_cons. tauto.
Qed.

Lemma dseg_ext m m' i p l n : (forall t, t ∈ l -> m' !! t = m !! t) -> dseg m i p l n -> dseg m' i p l n.
Proof.
  revert p. induction l as [|t l IH]; intros p E; cbn [dseg]; [done|]. intros [[(o & Ho & ?)] Hl]. split.
  - split. exists o. by rewrite E by set_solver.
  - apply IH; [|done]. set_solver.
Qed.

Lemma dseg_live m i p l n t : dseg m i p l n -> t ∈ l ->
  exists o, m !! t = Some o /\ timeoutManager o = true /\ timeouterIndex o = i.
Proof.
  revert p. induction l as [|u l IH]; intros p; cbn [dseg]; [by intros ? ?%elem_of_nil|].
  intros [[(o & ? & ? & ? & ? & ?)] Hl] [->|Ht]%elem_of_cons; [by exists o|eauto].
Qed.

(** The node behind a segment changes. *)
Lemma dseg_set_next m i p a u n n' o : NoDup (a ++ [u]) -> m !! u = Some o ->
  dseg m i p (a ++ [u]) n -> dseg (<[u := set_next n' o]> m) i p (a ++ [u]) n'.
Proof.
  rewrite !dseg_app. intros ND Ho [Ha [[(o' & Ho' & E)] _]]. simplify_eq. split.
  - apply (dseg_ext m); [|done]. intros t Ht. rewrite lookup_insert_ne; [done|].
    intros <-. by apply NoDup_app in ND as (_ & Hn & _); apply (Hn u Ht), list_elem_of_singleton.
  - split; [|done]. split. exists (set_next n' o). rewrite lookup_insert_eq. tauto.
Qed.

(** The node before a segment changes. *)
Lemma dseg_set_prev m i p p' u b n o : u ∉ b -> m !! u = Some o ->
  dseg m i p (u :: b) n -> dseg (<[u := set_prev p' o]> m) i p' (u :: b) n.
Proof.
  cbn [dseg]. intros ND Ho [[(o' & Ho' & E)] Hb]. simplify_eq. split.
  - split. exists (set_prev p' o). rewrite lookup_insert_eq. tauto.
  - apply (dseg_ext m); [|done]. intros t Ht. rewrite lookup_insert_ne; [done|]. by intros <-.
Qed.

(** What relinking leaves alone. *)
Definition core (o : UvTimeouterBase H) := (timeoutManager o, OnTimeout o, versionNumber o).

Lemma core_insert m t o o' : m !! t = Some o -> core o' = core o -> core <$> <[t := o']> m = core <$> m.
Proof. intros Ho E. rewrite fmap_insert, E. apply insert_id. by rewrite lookup_fmap, Ho. Qed.

End dlist.

(** ** The calls that relink *)

Section links.
Context {H : Type}.
Implicit Types (s : UvTimeoutManager H) (t u : Z) (l a b : list Z) (p n : option Z) (i j : Z).

Lemma deref_done s t o : heap s !! t = Some o -> deref t s = Done o s.
Proof. unfold deref, mbind, M_bind, get, demand. by intros ->. Qed.

Lemma store_done s t o f : heap s !! t = Some o -> store t f s = Done tt (set_heap (<[t := f o]> (heap s)) s).
Proof. intros Ho. unfold store. by rewrite (bind_done _ _ _ _ _ (deref_done _ _ _ Ho)). Qed.

Lemma slot_get_done s i p : znth (timeouterss s) i = Some p -> slot_get i s = Done p s.
Proof. unfold slot_get, mbind, M_bind, get, demand. by intros ->. Qed.

Lemma slot_set_done s i p q : znth (timeouterss s) i = Some q ->
  slot_set i p s = Done tt (set_slots (<[Z.to_nat i := p]> (timeouterss s)) s).
Proof. intros Hq. unfold slot_set. by rewrite (bind_done _ _ _ _ _ (slot_get_done _ _ _ Hq)). Qed.

Lemma Timeouting_done s t o : heap s !! t = Some o ->
  Timeouting t s = Done (timeoutManager o && (negb (timeouterIndex o =? -1) || bool_decide (is_Some (timeouterPrev o)))) s.
Proof. intros Ho. unfold Timeouting. by rewrite (bind_done _ _ _ _ _ (deref_done _ _ _ Ho)). Qed.

(** What a call that relinks the timers [l] of slot [i] leaves alone. *)
Record frame l i s s' : Prop := {
  fr_cursor : cursor s' = cursor s;
  fr_default : defaultInterval s' = defaultInterval s;
  fr_version : nextVersion s' = nextVersion s;
  fr_log : log s' = log s;
  fr_len : zlen (timeouterss s') = zlen (timeouterss s);
  fr_slots j : 0 <= j -> j <> i -> znth (timeouterss s') j = znth (timeouterss s) j;
  fr_heap u : u ∉ l -> heap s' !! u = heap s !! u;
  fr_core : core <$> heap s' = core <$> heap s
}.

Lemma frame_refl l i s : frame l i s s.
Proof. by split. Qed.

Lemma frame_trans l i s1 s2 s3 : frame l i s1 s2 -> frame l i s2 s3 -> frame l i s1 s3.
Proof.
  intros [? ? ? ? ? S1 H1 ?] [? ? ? ? ? S2 H2 ?]. split; try congruence.
  - intros j ? ?. by rewrite S2, S1.
  - intros u ?. by rewrite H2, H1.
Qed.

Lemma frame_mono l l' i s s' : l ⊆ l' -> frame l i s s' -> frame l' i s s'.
Proof. intros Hl [? ? ? ? ? ? Hh ?]. split; auto. Qed.

Lemma frame_store l i s t o o' : heap s !! t = Some o -> core o' = core o -> t ∈ l ->
  frame l i s (set_heap (<[t := o']> (heap s)) s).
Proof.
  intros Ho E Ht. split; try done; cbn [heap set_heap].
  - intros u Hu. rewrite lookup_insert_ne; [done|]. by intros <-.
  - by eapply core_insert.
Qed.

Lemma frame_slot l i s p : 0 <= i < zlen (timeouterss s) ->
  frame l i s (set_slots (<[Z.to_nat i := p]> (timeouterss s)) s).
Proof.
  intros Hi. split; try done; cbn [timeouterss set_slots]; [apply zlen_insert|].
  intros j Hj Hne. rewrite znth_insert by done. by rewrite decide_False.
Qed.

Lemma relink_prev s i p p' b : NoDup b -> dseg (heap s) i p b None ->
  exists s', store_if (hd None b) (set_prev p') s = Done tt s' /\ frame b i s s' /\
    timeouterss s' = timeouterss s /\ dseg (heap s') i p' b None.
Proof.
  intros ND D. destruct b as [|u b]; [exists s; repeat split; by try apply frame_refl|].
  apply NoDup_cons in ND as [Hu _]. pose proof D as [[(o & Ho & _)] _]. cbn [hd store_if].
  eexists. split; [by apply store_done|]. split; [by eapply frame_store; [| |left]|]. split; [done|].
  by apply (dseg_set_prev _ _ p).
Qed.

Lemma relink_next s i n n' a x : NoDup a -> dseg (heap s) i None a n -> znth (timeouterss s) i = Some (hd x a) ->
  exists s', match lst None a with Some p => store p (set_next n') | None => slot_set i n' end s = Done tt s' /\
    frame a i s s' /\ znth (timeouterss s') i = Some (hd n' a) /\ dseg (heap s') i None a n'.
Proof.
  intros ND D Hs. pose proof (znth_Some_lt _ _ _ Hs) as Hi.
  destruct a as [|u a _] using rev_ind.
  - cbn [lst last]. eexists. split; [by eapply slot_set_done|]. split; [by apply frame_slot|]. split; [|done].
    cbn [timeouterss set_slots hd]. rewrite znth_insert by lia. by destruct (decide (i = i)).
  - unfold lst. rewrite last_snoc. pose proof D as (_ & [(o & Ho & _)] & _)%dseg_app.
    eexists. split; [by apply store_done|]. split; [by eapply frame_store; [| |set_solver]|]. split.
    + cbn [timeouterss set_heap]. rewrite Hs, !hd_app. done.
    + by apply (dseg_set_next _ _ _ _ _ n).
Qed.

Definition unlinked (o : UvTimeouterBase H) : Prop := timeouterIndex o = -1 /\ timeouterPrev o = None.

Lemma wheel_Remove_spec s i t a b : NoDup (a ++ t :: b) -> dseg (heap s) i None (a ++ t :: b) None ->
  znth (timeouterss s) i = Some (hd None (a ++ t :: b)) ->
  exists s', Remove t s = Done tt s' /\ frame (a ++ t :: b) i s s' /\ znth (timeouterss s') i = Some (hd None (a ++ b)) /\
    dseg (heap s') i None (a ++ b) None /\ (exists o, heap s' !! t = Some o /\ unlinked o).
Proof.
  intros ND D Hs. apply dseg_app in D as (Da & [(o & Ho & Hp & Hn & Hi & Hm)] & Db). cbn [hd] in Da.
  pose proof (znth_Some_lt _ _ _ Hs) as Hr.
  apply NoDup_app in ND as (NDa & Hab & (Htb & NDb)%NoDup_cons).
  assert (Hta : t ∉ a) by (intros Ht; apply (Hab t Ht); left).
  assert (Hba : forall u, u ∈ a -> u ∉ b) by (intros u Hu Hub; apply (Hab u Hu); by right).
  unfold Remove. rewrite (bind_done _ _ _ _ _ (Timeouting_done _ _ _ Ho)), Hm, Hi.
  destruct (Z.eqb_spec i (-1)); [lia|]. cbn [andb negb orb assert_].
  rewrite bind_mret, (bind_done _ _ _ _ _ (deref_done _ _ _ Ho)), Hn, Hp, Hi.
  destruct (relink_prev s i (Some t) (lst None a) b NDb Db) as (s1 & E1 & F1 & Es1 & Db1). rewrite (bind_done _ _ _ _ _ E1).
  destruct (relink_next s1 i (Some t) (hd None b) a (Some t) NDa) as (s2 & E2 & F2 & Es2 & Da2).
  { apply (dseg_ext (heap s)); [|done]. intros u Hu. apply (fr_heap _ _ _ _ F1). by apply Hba. }
  { by rewrite Es1, Hs, hd_app. }
  rewrite (bind_done _ _ _ _ _ E2).
  assert (Ho2 : heap s2 !! t = Some o) by (by rewrite (fr_heap _ _ _ _ F2), (fr_heap _ _ _ _ F1)).
  eexists. split; [by apply store_done|]. split; [|split; [|split]].
  - eapply frame_trans; [eapply (frame_mono b); [set_solver|done]|].
    eapply frame_trans; [eapply (frame_mono a); [set_solver|done]|].
    eapply frame_store; [done|done|set_solver].
  - cbn [timeouterss set_heap]. by rewrite Es2, hd_app.
  - cbn [heap set_heap]. apply (dseg_ext (heap s2)).
    { intros u Hu. rewrite lookup_insert_ne; [done|]. intros <-. set_solver. }
    apply dseg_app. split; [done|]. apply (dseg_ext (heap s1)); [|done]. intros u Hu. apply (fr_heap _ _ _ _ F2).
    intros Ha. by apply (Hba u).
  - exists (set_links None None (-1) o). cbn [heap set_heap]. by rewrite lookup_insert_eq.
Qed.

Lemma wheel_Add_spec s i t o e l : heap s !! t = Some o -> unlinked o -> timeoutManager o = true -> t ∉ l -> NoDup l ->
  dseg (heap s) i None l None -> znth (timeouterss s) i = Some (hd None l) ->
  let e' := if e =? 0 then defaultInterval s else e in
  0 <= cursor s < zlen (timeouterss s) -> zlen (timeouterss s) < 2 ^ 30 -> 0 <= e -> 0 <= e' < zlen (timeouterss s) ->
  i = (cursor s + e') mod zlen (timeouterss s) ->
  exists s', Add t e s = Done tt s' /\ frame (t :: l) i s s' /\ znth (timeouterss s') i = Some (Some t) /\
    dseg (heap s') i None (t :: l) None.
Proof.
  intros Ho [Hi Hp] Hm Htl ND D Hs e' Hc Hlen He He' Ei. change (2 ^ 30) with 1073741824 in Hlen.
  unfold Add. rewrite (bind_done _ _ _ _ _ (Timeouting_done _ _ _ Ho)), Hm, Hi, Hp. cbn [andb negb orb Z.eqb].
  rewrite (bool_decide_eq_false_2 (is_Some None)) by (by intros [? ?]). cbn [negb orb Pos.eqb assert_].
  rewrite bind_mret, bind_get.
  destruct (Z.ltb_spec e 0); [lia|]. cbn [negb andb assert_]. rewrite bind_mret. fold e'.
  rewrite bool_decide_eq_true_2 by rng. cbn [assert_]. rewrite bind_mret.
  replace (if zlen (timeouterss s) <=? e' + cursor s then _ else _) with i.
  2:{ rewrite Ei, (Z.add_comm e'). destruct (Z.leb_spec (zlen (timeouterss s)) (cursor s + e')); [|apply Z.mod_small; lia].
      symmetry. apply (Z.mod_unique _ _ 1); lia. }
  rewrite (bind_done _ _ _ _ _ (slot_get_done _ _ _ Hs)).
  rewrite (bind_done _ _ _ _ _ (store_done _ _ _ _ Ho)). set (s1 := set_heap _ s).
  assert (F1 : frame (t :: l) i s s1) by (eapply frame_store; [done|done|left]).
  destruct (relink_prev s1 i None (Some t) l ND) as (s2 & E2 & F2 & Es2 & D2).
  { apply (dseg_ext (heap s)); [|done]. intros u Hu. cbn [heap s1 set_heap]. rewrite lookup_insert_ne; [done|]. by intros <-. }
  rewrite (bind_done _ _ _ _ _ E2). eexists. split; [eapply slot_set_done; rewrite Es2; exact Hs|].
  assert (Hr : 0 <= i < zlen (timeouterss s2)) by (rewrite Es2; apply (znth_Some_lt _ _ _ Hs)).
  split; [|split].
  - eapply frame_trans; [exact F1|]. eapply frame_trans; [eapply (frame_mono l); [set_solver|exact F2]|]. by apply frame_slot.
  - cbn [timeouterss set_slots]. rewrite znth_insert by lia. by destruct (decide (i = i)).
  - cbn [heap set_slots]. split; [|done]. split. exists (set_links None (hd None l) i o).
    rewrite (fr_heap _ _ _ _ F2) by done. cbn [heap s1 set_heap]. by rewrite lookup_insert_eq.
Qed.

End links.

(** ** The alarm clock *)

Section clock.
Context {H : Type} (script : H -> list (call H)) (len dflt : Z).

(** [alarms]: a timer and the number of the tick that rings it, the most
    recently set first.  [timers]: the live timers, with what is known of
    their manager and their handler. *)
Record Clock := MkClock {
  now : Z;
  alarms : list (Z * Z);
  timers : gmap Z (bool * option (handler H));
  rung : list Z
}.

Implicit Types (c : Clock) (s : UvTimeoutManager H) (t u : Z).

Definition unset t (l : list (Z * Z)) : list (Z * Z) := filter (fun a => a.1 <> t) l.
Definition set_alarms l c : Clock := MkClock (now c) l (timers c) (rung c).
Definition set_timers m c : Clock := MkClock (now c) (alarms c) m (rung c).
Definition add_rung t c : Clock := MkClock (now c) (alarms c) (timers c) (rung c ++ [t]).
Definition next_tick c : Clock := MkClock (now c + 1) (alarms c) (timers c) (rung c).

(** A handler runs while the timers that are due with its own wait: [me] is
    the timer whose handler it is and what became of it, [waiting] the others.
    [clean]: the timers that rang before in this tick unlinked themselves. *)
Inductive fate := Linked | Stopped | Gone.
Record Ctx := MkCtx { me : option (Z * fate); waiting : list Z; clean : bool }.
Definition outside : Ctx := MkCtx None [] true.

Definition is_me (x : Ctx) t : bool := match me x with Some (u, _) => bool_decide (t = u) | None => false end.
Definition me_fate (x : Ctx) : fate := match me x with Some (_, f) => f | None => Gone end.
Definition turn (f : fate) t (x : Ctx) : Ctx := if is_me x t then MkCtx (Some (t, f)) (waiting x) (clean x) else x.

(** The wheel handles these: setting a timer, except those that wait and the
    one whose handler runs; stopping one, except those that wait, and its own
    if the links around it are sound. *)
Definition may_set (x : Ctx) t : bool :=
  bool_decide (t ∉ waiting x) && (negb (is_me x t) || match me_fate x with Gone => true | _ => false end).
Definition may_stop (x : Ctx) t : bool :=
  bool_decide (t ∉ waiting x) && (negb (is_me x t) || match me_fate x with Linked => clean x | _ => true end).

Definition delay (i : Z) : Z := if i =? 0 then dflt else i.
Definition in_wheel (i : Z) : bool := (0 <=? i) && (0 <? delay i) && (delay i <? len).

Definition stopped (x : Ctx) t : Ctx :=
  match me_fate x with Linked => turn Stopped t x | _ => x end.

(** What a call does to the clock; [None] for calls that the wheel does not
    handle. *)
Definition clock_call (x : Ctx) (k : call H) c : option (Ctx * Clock) :=
  match k with
  | CNew t =>
      match timers c !! t with
      | None => Some (x, set_timers (<[t := (false, None)]> (timers c)) c)
      | Some _ => None
      end
  | CSetOnTimeout t h =>
      match timers c !! t with
      | Some (b, _) => Some (x, set_timers (<[t := (b, h)]> (timers c)) c)
      | None => None
      end
  | CBind t =>
      match timers c !! t with
      | Some (false, h) => Some (x, set_timers (<[t := (true, h)]> (timers c)) c)
      | _ => None
      end
  | CUnbind t =>
      match timers c !! t with
      | Some (_, h) =>
          if may_stop x t
          then Some (stopped x t, set_timers (<[t := (false, h)]> (timers c)) (set_alarms (unset t (alarms c)) c))
          else None
      | None => None
      end
  | CReset t i =>
      match timers c !! t with
      | Some (true, _) =>
          if may_set x t && in_wheel i
          then Some (x, set_alarms ((t, now c + delay i) :: unset t (alarms c)) c) else None
      | _ => None
      end
  | CStop t =>
      match timers c !! t with
      | Some (true, _) => if may_stop x t then Some (stopped x t, set_alarms (unset t (alarms c)) c) else None
      | _ => None
      end
  | CRelease t =>
      match timers c !! t with
      | Some _ =>
          if may_stop x t
          then Some (turn Gone t x, set_timers (delete t (timers c)) (set_alarms (unset t (alarms c)) c))
          else None
      | None => None
      end
  | CDelayRelease t i _ =>
      match timers c !! t with
      | Some _ =>
          if may_set x t && in_wheel i
          then Some (x, set_timers (<[t := (true, Some (ReleaseThis t))]> (timers c))
                          (set_alarms ((t, now c + delay i) :: unset t (alarms c)) c))
          else None
      | None => None
      end
  end.

Fixpoint clock_calls (x : Ctx) (ks : list (call H)) c : option (Ctx * Clock) :=
  match ks with
  | [] => Some (x, c)
  | k :: ks => '(x, c) ← clock_call x k c; clock_calls x ks c
  end.

(** Ring the timers [l], one after the other. *)
Fixpoint ring (clean_ : bool) (l : list Z) c : option Clock :=
  match l with
  | [] => Some c
  | t :: l =>
      '(_, h) ← timers c !! t;
      let x := MkCtx (Some (t, Linked)) l clean_ in
      '(x, c) ← match h with
                | Some h => clock_calls x (calls_of script h) (add_rung t c)
                | None => Some (x, c)
                end;
      match me_fate x with
      | Linked => ring false l (set_alarms (unset t (alarms c)) c)
      | _ => ring clean_ l c
      end
  end.

(** The timers that are due now. *)
Definition due c : list Z := (filter (fun a => a.2 = now c) (alarms c)).*1.

Definition clock_step (e : event H) c : option Clock :=
  match e with
  | Call k => '(_, c) ← clock_call outside k c; Some c
  | Tick => c ← ring true (due c) c; Some (next_tick c)
  | Cleared => Some (MkClock 0 [] (timers c) (rung c))
  end.

Fixpoint clock_run (es : list (event H)) c : option Clock :=
  match es with
  | [] => Some c
  | e :: es => c ← clock_step e c; clock_run es c
  end.

(** ** How the wheel represents the clock *)

(** The timers of slot [j]. *)
Definition slot_of (j : Z) (l : list (Z * Z)) : list Z := (filter (fun a => a.2 mod len = j) l).*1.
Definition slot (j : Z) c : list Z := slot_of j (alarms c).

Record rep (clean : bool) s c : Prop := {
  rep_len : zlen (timeouterss s) = len;
  rep_cursor : cursor s = now c mod len;
  rep_default : defaultInterval s = dflt;
  rep_log : log s = rung c;
  rep_nodup : NoDup (alarms c).*1;
  rep_due t d : (t, d) ∈ alarms c -> now c <= d < now c + len;
  rep_slots j : 0 <= j < len -> (clean = true \/ j <> cursor s) ->
    znth (timeouterss s) j = Some (hd None (slot j c)) /\ dseg (heap s) j None (slot j c) None;
  rep_current : exists p, dseg (heap s) (cursor s) p (slot (cursor s) c) None;
  rep_idle t o : heap s !! t = Some o -> t ∉ (alarms c).*1 -> unlinked o;
  rep_timers : fst <$> (core <$> heap s) = timers c;
  rep_versions t o : heap s !! t = Some o -> versionNumber o < nextVersion s
}.

(** The links of a timer's slot are sound. *)
Definition sound (clean : bool) t s c : Prop := clean = true \/ t ∉ slot (cursor s) c.

Definition ver s t : option Z := versionNumber <$> heap s !! t.

(** What the bookkeeping of a running handler says of the state: which timers
    of the slot wait, and whether the timer is still the one whose version
    number [Process] has noted. *)
Record ctx_ok (x : Ctx) (vn : Z) s c : Prop := {
  ctx_slot : match me x with
    | None => clean x = true /\ waiting x = []
    | Some (t, Linked) => slot (cursor s) c = t :: waiting x
    | Some (t, Stopped) => slot (cursor s) c = waiting x /\ t ∉ (alarms c).*1
    | Some (_, Gone) => slot (cursor s) c = waiting x
    end;
  ctx_ver : match me x with
    | None => True
    | Some (t, Gone) => ver s t <> Some vn
    | Some (t, _) => ver s t = Some vn
    end;
  ctx_next : vn < nextVersion s
}.

(** ** Slots *)

Lemma slot_of_elem j l t : t ∈ slot_of j l <-> exists d, (t, d) ∈ l /\ d mod len = j.
Proof.
  unfold slot_of. rewrite list_elem_of_fmap. split.
  - intros ([u d] & -> & [? ?]%list_elem_of_filter). by exists d.
  - intros (d & ? & ?). exists (t, d). by rewrite list_elem_of_filter.
Qed.

Lemma slot_of_cons j t d l : slot_of j ((t, d) :: l) = if decide (d mod len = j) then t :: slot_of j l else slot_of j l.
Proof. unfold slot_of. rewrite filter_cons. by destruct (decide _). Qed.

Lemma slot_of_unset j t l : slot_of j (unset t l) = filter (fun u => u <> t) (slot_of j l).
Proof.
  induction l as [|[u d] l IH]; [done|]. unfold unset in *. rewrite slot_of_cons, filter_cons. cbn [fst].
  destruct (decide (u <> t)) as [Hu|Hu]; [rewrite slot_of_cons|]; destruct (decide (d mod len = j)); rewrite ?filter_cons, IH; try done.
  - by rewrite decide_True.
  - by rewrite decide_False.
Qed.

Lemma slot_of_sublist j l : sublist (slot_of j l) l.*1.
Proof. unfold slot_of. apply fmap_sublist, sublist_filter. Qed.

Lemma slot_of_NoDup j l : NoDup l.*1 -> NoDup (slot_of j l).
Proof. intros. eapply sublist_NoDup; [done|apply slot_of_sublist]. Qed.

Lemma alarm_unique (l : list (Z * Z)) t d d' : NoDup l.*1 -> (t, d) ∈ l -> (t, d') ∈ l -> d = d'.
Proof.
  intros ND (i & Hi)%list_elem_of_lookup (k & Hk)%list_elem_of_lookup.
  assert (i = k) as <-; [|by simplify_eq].
  apply (NoDup_lookup _ _ _ t ND); by rewrite list_lookup_fmap, ?Hi, ?Hk.
Qed.

Lemma slot_of_disjoint l i j t : NoDup l.*1 -> t ∈ slot_of i l -> t ∈ slot_of j l -> i = j.
Proof.
  intros ND (d & Hd & <-)%slot_of_elem (d' & Hd' & <-)%slot_of_elem. f_equal. by eapply alarm_unique.
Qed.

Lemma filter_all {A} (P : A -> Prop) `{forall x, Decision (P x)} (l : list A) : (forall x, x ∈ l -> P x) -> filter P l = l.
Proof.
  induction l as [|x l IH]; intros Hl; [done|]. rewrite filter_cons, decide_True by (apply Hl; left). f_equal.
  apply IH. intros y Hy. apply Hl. by right.
Qed.

Lemma filter_out_id t (l : list Z) : t ∉ l -> filter (fun u => u <> t) l = l.
Proof. intros Ht. apply filter_all. by intros u Hu ->. Qed.

Lemma filter_out_mid t (a b : list Z) : NoDup (a ++ t :: b) -> filter (fun u => u <> t) (a ++ t :: b) = a ++ b.
Proof.
  intros (Ha & Hab & (Htb & Hb)%NoDup_cons)%NoDup_app. rewrite filter_app, filter_cons, decide_False by tauto.
  rewrite !filter_out_id; [done|done|]. intros Ht. apply (Hab t Ht). left.
Qed.

Lemma unset_elem t u d l : (u, d) ∈ unset t l <-> (u, d) ∈ l /\ u <> t.
Proof. unfold unset. rewrite list_elem_of_filter. cbn. tauto. Qed.

Lemma unset_fst t u l : u ∈ (unset t l).*1 <-> u ∈ l.*1 /\ u <> t.
Proof.
  rewrite !list_elem_of_fmap. split.
  - intros ([v d] & -> & [? ?]%unset_elem). split; [|done]. by exists (v, d).
  - intros [([v d] & -> & ?) ?]. exists (v, d). split; [done|]. by apply unset_elem.
Qed.

Lemma unset_NoDup t l : NoDup l.*1 -> NoDup (unset t l).*1.
Proof. intros. eapply sublist_NoDup; [done|apply fmap_sublist, sublist_filter]. Qed.

Lemma unset_id t l : t ∉ l.*1 -> unset t l = l.
Proof.
  intros Ht. apply filter_all. intros [u d] Hu. cbn. intros ->. apply Ht.
  apply list_elem_of_fmap. by exists (t, d).
Qed.

(** ** Relinking keeps the representation *)

Lemma versions_core s s' t o : core <$> heap s' = core <$> heap s -> heap s' !! t = Some o ->
  exists o0, heap s !! t = Some o0 /\ core o = core o0.
Proof.
  intros E Ho. assert (E' : (core <$> heap s') !! t = (core <$> heap s) !! t) by (by rewrite E).
  rewrite !lookup_fmap, Ho in E'. destruct (heap s !! t) as [o0|]; [|done]. exists o0. split; [done|]. by apply (inj Some).
Qed.

Lemma rep_relink cl s s' c i ts l' : rep cl s c -> frame ts i s s' -> 0 <= i < len ->
  NoDup l'.*1 -> (forall t d, (t, d) ∈ l' -> now c <= d < now c + len) ->
  (forall j, j <> i -> slot_of j l' = slot j c /\ forall u, u ∈ ts -> u ∉ slot j c) ->
  (forall u, u ∈ (alarms c).*1 -> u ∉ l'.*1 -> u ∈ ts) ->
  znth (timeouterss s') i = Some (hd None (slot_of i l')) -> dseg (heap s') i None (slot_of i l') None ->
  (forall t o, t ∈ ts -> heap s' !! t = Some o -> t ∉ l'.*1 -> unlinked o) ->
  rep cl s' (set_alarms l' c).
Proof.
  intros R F Hi ND Hd Hj Hts Hs D Hu.
  assert (Hx : forall j p, j <> i -> dseg (heap s) j p (slot j c) None -> dseg (heap s') j p (slot j (set_alarms l' c)) None).
  { intros j p Hne Dj. unfold slot at 1. cbn [alarms set_alarms]. destruct (Hj j Hne) as [-> Hn].
    apply (dseg_ext (heap s)); [|done]. intros u Hu'. apply (fr_heap _ _ _ _ F). intros Hut. by apply (Hn u). }
  assert (Ec : cursor s' = cursor s) by apply F.
  split; rewrite ?Ec; try apply R; try done.
  - rewrite (fr_len _ _ _ _ F). apply R.
  - rewrite (fr_default _ _ _ _ F). apply R.
  - rewrite (fr_log _ _ _ _ F). apply R.
  - intros j Hjr Hc. destruct (decide (j = i)) as [->|Hne]; [done|]. destruct (rep_slots _ _ _ R j Hjr Hc) as [E Dj].
    split; [|by apply Hx]. rewrite (fr_slots _ _ _ _ F) by (lia || done). rewrite E.
    unfold slot at 2. cbn [alarms set_alarms]. by destruct (Hj j Hne) as [-> _].
  - destruct (decide (cursor s = i)) as [->|Hne]; [by exists None|]. destruct (rep_current _ _ _ R) as [p Dp]. exists p. by apply Hx.
  - intros t o Ho Ht. destruct (decide (t ∈ ts)) as [Hin|Hout]; [by eapply Hu|].
    rewrite (fr_heap _ _ _ _ F) in Ho by done. apply (rep_idle _ _ _ R t); [done|]. intros Ha. apply Hout. by apply Hts.
  - rewrite (fr_core _ _ _ _ F). apply R.
  - intros t o Ho. rewrite (fr_version _ _ _ _ F). destruct (versions_core s s' t o (fr_core _ _ _ _ F) Ho) as (o0 & Ho0 & E).
    pose proof (rep_versions _ _ _ R _ _ Ho0). by injection E as _ _ ->.
Qed.

Lemma rep_range cl s c : rep cl s c -> 0 < len -> 0 <= cursor s < len.
Proof. intros R Hl. rewrite (rep_cursor _ _ _ R). by apply Z.mod_pos_bound. Qed.

(** What relinking leaves alone, without the slot. *)
Definition kept s s' : Prop :=
  cursor s' = cursor s /\ nextVersion s' = nextVersion s /\ core <$> heap s' = core <$> heap s.

Lemma frame_kept l i s s' : frame l i s s' -> kept s s'.
Proof. intros F. by repeat split; apply F. Qed.

Lemma links_kept_refl s : kept s s.
Proof. done. Qed.

Lemma links_kept_trans s1 s2 s3 : kept s1 s2 -> kept s2 s3 -> kept s1 s3.
Proof. unfold kept. intuition congruence. Qed.

Lemma kept_lookup s s' t o : kept s s' -> heap s !! t = Some o -> exists o', heap s' !! t = Some o' /\ core o' = core o.
Proof. intros (_ & _ & E) Ho. destruct (versions_core s' s t o (eq_sym E) Ho) as (o' & ? & ?). by exists o'. Qed.

Lemma rep_unset cl s c t o : rep cl s c -> 0 < len -> sound cl t s c -> heap s !! t = Some o ->
  exists s', (b ← Timeouting t; if b : bool then Remove t else mret tt) s = Done tt s' /\
    rep cl s' (set_alarms (unset t (alarms c)) c) /\ kept s s' /\ (exists o', heap s' !! t = Some o' /\ unlinked o' /\ core o' = core o).
Proof.
  intros R Hl Hs Ho. rewrite (bind_done _ _ _ _ _ (Timeouting_done _ _ _ Ho)).
  destruct (decide (t ∈ (alarms c).*1)) as [Ht|Ht].
  2:{ destruct (rep_idle _ _ _ R t o Ho Ht) as [Ei Ep]. rewrite Ei, Ep.
      rewrite (bool_decide_eq_false_2 (is_Some None)) by (by intros [? ?]). cbn [negb orb Z.eqb Pos.eqb]. rewrite andb_false_r.
      exists s. rewrite unset_id by done. split; [done|]. split; [|split; [done|by exists o]]. destruct R; by split. }
  apply list_elem_of_fmap in Ht as ([t' d] & E & Hd). cbn in E. subst t'. set (i := d mod len).
  assert (Hi : 0 <= i < len) by (by apply Z.mod_pos_bound).
  assert (Hin : t ∈ slot i c) by (apply slot_of_elem; by exists d).
  destruct (rep_slots _ _ _ R i Hi) as [Es D].
  { destruct Hs as [?|Hs]; [by left|right]. intros Hc. apply Hs. by rewrite <-Hc. }
  destruct (dseg_live _ _ _ _ _ _ D Hin) as (o' & Ho' & Hm & Hx). assert (o' = o) as -> by congruence. rewrite Hm, Hx.
  destruct (Z.eqb_spec i (-1)); [lia|]. cbn [negb orb andb].
  pose proof (slot_of_NoDup i _ (rep_nodup _ _ _ R)) as NDi. fold (slot i c) in NDi.
  destruct (list_elem_of_split _ _ Hin) as (a & b & Eab). rewrite Eab in Es, D, NDi.
  destruct (wheel_Remove_spec s i t a b NDi D Es) as (s' & E & F & Es' & D' & (o1 & Ho1 & Hu1)).
  assert (Esl : slot_of i (unset t (alarms c)) = a ++ b) by (rewrite slot_of_unset; fold (slot i c); rewrite Eab; by apply filter_out_mid).
  exists s'. split; [done|]. split; [|split; [by eapply frame_kept|]].
  - apply (rep_relink cl s s' c i (a ++ t :: b)); try done.
    + apply unset_NoDup, R.
    + intros u e [Hue _]%unset_elem. by apply (rep_due _ _ _ R u).
    + intros j Hne. split.
      * rewrite slot_of_unset. apply filter_out_id. intros Hj. apply Hne. by apply (slot_of_disjoint (alarms c) j i t); [apply R| |].
      * intros u Hu Hj. rewrite <-Eab in Hu. apply Hne. by apply (slot_of_disjoint (alarms c) j i u); [apply R| |].
    + intros u Hu Hn. rewrite unset_fst in Hn. assert (u = t) as -> by (destruct (decide (u = t)); tauto). set_solver.
    + by rewrite Esl.
    + by rewrite Esl.
    + intros u o2 Hu Ho2 Hn. destruct (decide (u = t)) as [->|Hne]; [by simplify_eq|].
      destruct Hn. apply unset_fst. split; [|done]. rewrite <-Eab in Hu.
      apply slot_of_elem in Hu as (e & Hue & _). apply list_elem_of_fmap. by exists (u, e).
  - exists o1. split; [done|]. split; [done|]. destruct (versions_core s s' t o1 (fr_core _ _ _ _ F) Ho1) as (o2 & ? & ?). congruence.
Qed.

Lemma mod_shift_ne (n e k : Z) : 0 < e < k -> (n + e) mod k <> n mod k.
Proof.
  intros He Eq. pose proof (Z.div_mod n k ltac:(lia)). pose proof (Z.div_mod (n + e) k ltac:(lia)).
  assert (k * ((n + e) / k - n / k) = e) by lia. assert (0 < (n + e) / k - n / k) by nia. nia.
Qed.

Lemma rep_set cl s c t o i : rep cl s c -> 0 < len < 2 ^ 30 -> heap s !! t = Some o -> unlinked o -> timeoutManager o = true ->
  t ∉ (alarms c).*1 -> in_wheel i = true ->
  exists s', Add t i s = Done tt s' /\ rep cl s' (set_alarms ((t, now c + delay i) :: alarms c) c) /\ kept s s'.
Proof.
  intros R Hl Ho Hul Hm Ht Hw. unfold in_wheel in Hw.
  assert (Hw' : 0 <= i /\ 0 < delay i < len) by (revert Hw; zbool). destruct Hw' as [Hi He]. set (e := delay i) in *.
  set (k := (now c + e) mod len). assert (Hk : 0 <= k < len) by (apply Z.mod_pos_bound; lia).
  assert (Hr : 0 <= cursor s < len) by (apply (rep_range _ _ _ R); lia).
  assert (Hkc : k <> cursor s).
  { rewrite (rep_cursor _ _ _ R). by apply mod_shift_ne. }
  destruct (rep_slots _ _ _ R k Hk (or_intror Hkc)) as [Es D].
  assert (Htk : t ∉ slot k c).
  { intros (d & Hd & _)%slot_of_elem. apply Ht, list_elem_of_fmap. by exists (t, d). }
  destruct (wheel_Add_spec s k t o i (slot k c)) as (s' & E & F & Es' & D').
  - done. - done. - done. - done.
  - apply slot_of_NoDup, R.
  - done. - done.
  - by rewrite (rep_len _ _ _ R).
  - rewrite (rep_len _ _ _ R); lia.
  - lia.
  - rewrite (rep_len _ _ _ R), (rep_default _ _ _ R). fold (delay i). fold e. lia.
  - rewrite (rep_len _ _ _ R), (rep_default _ _ _ R), (rep_cursor _ _ _ R). fold (delay i). fold e. unfold k. by rewrite Z.add_mod_idemp_l by lia.
  - assert (Esl : slot_of k ((t, now c + e) :: alarms c) = t :: slot k c) by (rewrite slot_of_cons; by rewrite decide_True).
    exists s'. split; [done|]. split; [|by eapply frame_kept].
    apply (rep_relink cl s s' c k (t :: slot k c)); try done.
    + cbn. apply NoDup_cons. split; [done|apply R].
    + intros u d [[= -> ->]|Hd]%elem_of_cons; [lia|by apply (rep_due _ _ _ R u)].
    + intros j Hne. split.
      * rewrite slot_of_cons, decide_False; [done|]. by intros <-.
      * intros u [->|Hu]%elem_of_cons Hj.
        -- apply slot_of_elem in Hj as (d & Hd & _). apply Ht, list_elem_of_fmap. by exists (t, d).
        -- apply Hne. by apply (slot_of_disjoint (alarms c) j k u); [apply R| |].
    + intros u Hu1 Hu2. cbn in Hu2. set_solver.
    + by rewrite Esl.
    + by rewrite Esl.
    + intros u o' Hu1 Ho' Hn. destruct Hn. cbn. apply elem_of_cons. apply elem_of_cons in Hu1 as [->|Hu1]; [by left|right].
      apply slot_of_elem in Hu1 as (d & Hd & _). apply list_elem_of_fmap. by exists (u, d).
Qed.

(** ** Changes of a timer that keep its links *)

Lemma dseg_meta (m : gmap Z (UvTimeouterBase H)) i p l n t o o' : dseg m i p l n -> m !! t = Some o ->
  timeouterPrev o' = timeouterPrev o -> timeouterNext o' = timeouterNext o -> timeouterIndex o' = timeouterIndex o ->
  (t ∈ l -> timeoutManager o' = true) -> dseg (<[t := o']> m) i p l n.
Proof.
  intros D Ho E1 E2 E3. revert p D. induction l as [|u l IH]; intros p; cbn [dseg]; [done|].
  intros [[(o1 & Ho1 & E4 & E5 & E6 & E7)] Dl] Hm. split.
  - split. destruct (decide (u = t)) as [->|Hne].
    + exists o'. rewrite lookup_insert_eq. simplify_eq. repeat split; try congruence. apply Hm. left.
    + exists o1. by rewrite lookup_insert_ne by done.
  - apply IH; [done|]. intros Ht. apply Hm. by right.
Qed.

Lemma rep_meta cl s c t o o' : rep cl s c -> heap s !! t = Some o ->
  timeouterPrev o' = timeouterPrev o -> timeouterNext o' = timeouterNext o -> timeouterIndex o' = timeouterIndex o ->
  versionNumber o' = versionNumber o -> (t ∈ (alarms c).*1 -> timeoutManager o' = true) ->
  rep cl (set_heap (<[t := o']> (heap s)) s) (set_timers (<[t := (timeoutManager o', OnTimeout o')]> (timers c)) c).
Proof.
  intros R Ho E1 E2 E3 E4 Hm.
  assert (Hin : forall j, t ∈ slot j c -> timeoutManager o' = true).
  { intros j (d & Hd & _)%slot_of_elem. apply Hm, list_elem_of_fmap. by exists (t, d). }
  split; try apply R.
  - intros j Hj Hc. destruct (rep_slots _ _ _ R j Hj Hc) as [Es D]. split; [done|].
    apply (dseg_meta _ _ _ _ _ _ o); eauto.
  - destruct (rep_current _ _ _ R) as [p D]. exists p. apply (dseg_meta _ _ _ _ _ _ o); eauto.
  - intros u o1 Ho1 Hu. cbn [heap set_heap] in Ho1. destruct (decide (u = t)) as [->|Hne].
    + rewrite lookup_insert_eq in Ho1. simplify_eq. destruct (rep_idle _ _ _ R t o Ho Hu) as [? ?]. split; congruence.
    + rewrite lookup_insert_ne in Ho1 by done. by apply (rep_idle _ _ _ R u).
  - cbn [heap set_heap timers set_timers]. rewrite !fmap_insert, (rep_timers _ _ _ R). done.
  - intros u o1 Ho1. cbn [heap set_heap nextVersion] in *. destruct (decide (u = t)) as [->|Hne].
    + rewrite lookup_insert_eq in Ho1. simplify_eq. rewrite E4. by apply (rep_versions _ _ _ R t).
    + rewrite lookup_insert_ne in Ho1 by done. by apply (rep_versions _ _ _ R u).
Qed.

Lemma rep_delete cl s c t : rep cl s c -> t ∉ (alarms c).*1 ->
  rep cl (set_heap (delete t (heap s)) s) (set_timers (delete t (timers c)) c).
Proof.
  intros R Ht.
  assert (Hin : forall j p, dseg (heap s) j p (slot j c) None -> dseg (delete t (heap s)) j p (slot j c) None).
  { intros j p D. apply (dseg_ext (heap s)); [|done]. intros u (d & Hd & _)%slot_of_elem. rewrite lookup_delete_ne; [done|].
    intros <-. apply Ht, list_elem_of_fmap. by exists (t, d). }
  split; try apply R.
  - intros j Hj Hc. destruct (rep_slots _ _ _ R j Hj Hc). split; [done|]. by apply Hin.
  - destruct (rep_current _ _ _ R) as [p D]. exists p. by apply Hin.
  - intros u o Ho Hu. cbn [heap set_heap] in Ho. apply lookup_delete_Some in Ho as [_ Ho]. by apply (rep_idle _ _ _ R u).
  - cbn [heap set_heap timers set_timers]. by rewrite !fmap_delete, (rep_timers _ _ _ R).
  - intros u o Ho. cbn [heap set_heap nextVersion] in *. apply lookup_delete_Some in Ho as [_ Ho]. by apply (rep_versions _ _ _ R u).
Qed.

Lemma rep_new cl s c t : rep cl s c -> timers c !! t = None ->
  exists s', new_Timeouter t s = Done tt s' /\ rep cl s' (set_timers (<[t := (false, None)]> (timers c)) c) /\
    cursor s' = cursor s /\ nextVersion s' = nextVersion s + 1 /\
    heap s !! t = None /\ heap s' = <[t := MkTimeouter false None None (-1) None (nextVersion s)]> (heap s).
Proof.
  intros R Ht. assert (Hn : heap s !! t = None).
  { rewrite <-(rep_timers _ _ _ R), !lookup_fmap in Ht. by destruct (heap s !! t). }
  unfold new_Timeouter. rewrite bind_get, bool_decide_eq_true_2 by done. cbn [assert_]. rewrite bind_mret.
  eexists. split; [reflexivity|]. split; [|done].
  assert (Hna : t ∉ (alarms c).*1).
  { intros ([t' d] & E & Hd)%list_elem_of_fmap. cbn in E. subst t'.
    assert (Hl : 0 < len \/ len = 0) by (pose proof (zlen_nonneg (timeouterss s)); rewrite (rep_len _ _ _ R) in *; lia).
    destruct Hl as [Hl| ->]; [|pose proof (rep_due _ _ _ R t d Hd); lia].
    assert (Hin : t ∈ slot (d mod len) c) by (apply slot_of_elem; by exists d).
    destruct (decide (d mod len = cursor s)) as [E|E].
    - rewrite E in Hin. destruct (rep_current _ _ _ R) as [p D]. destruct (dseg_live _ _ _ _ _ _ D Hin) as (? & ? & _). congruence.
    - destruct (rep_slots _ _ _ R (d mod len)) as [_ D]; [by apply Z.mod_pos_bound|by right|].
      destruct (dseg_live _ _ _ _ _ _ D Hin) as (? & ? & _). congruence. }
  assert (Hin : forall j p, dseg (heap s) j p (slot j c) None ->
      dseg (<[t := MkTimeouter false None None (-1) None (nextVersion s)]> (heap s)) j p (slot j c) None).
  { intros j p D. apply (dseg_ext (heap s)); [|done]. intros u (d & Hd & _)%slot_of_elem. rewrite lookup_insert_ne; [done|].
    intros <-. apply Hna, list_elem_of_fmap. by exists (t, d). }
  split; cbn [heap timeouterss cursor nextVersion]; try apply R.
  - intros j Hj Hc. destruct (rep_slots _ _ _ R j Hj Hc). split; [done|]. by apply Hin.
  - destruct (rep_current _ _ _ R) as [p D]. exists p. by apply Hin.
  - intros u o Ho Hu. apply lookup_insert_Some in Ho as [[<- <-]|[_ Ho]]; [done|]. by apply (rep_idle _ _ _ R u).
  - cbn [timers set_timers]. by rewrite !fmap_insert, (rep_timers _ _ _ R).
  - intros u o Ho. apply lookup_insert_Some in Ho as [[<- <-]|[_ Ho]]; [cbn; lia|]. pose proof (rep_versions _ _ _ R _ _ Ho). lia.
Qed.
End clock.
