(* ===== verification/TimeoutsProps.v ===== *)
(** * The timing wheel is an alarm clock

    [wheel_refines_clock]: sessions of calls on the wheel of [Timeouts], the
    handlers that run in them included, do what the alarm clock of
    [TimeoutsRep] does. *)

From Stdlib Require Import ZArith Lia.
From stdpp Require Import base numbers list gmap.
From S2P Require Import Prelude Util Timeouts TimeoutsRep.
Open Scope Z_scope.

Section calls.
Context {H : Type} (script : H -> list (call H)) (len dflt : Z) (Hlen : 0 < len < 2 ^ 30).
Implicit Types (c : Clock (H := H)) (s : UvTimeoutManager H) (t u : Z) (x : Ctx).

(** ** The bookkeeping of a handler *)



Lemma ctx_waiting x vn s c t : ctx_ok len x vn s c -> t ∉ waiting x -> is_me x t = false \/ me_fate x <> Linked ->
  clean x = true \/ t ∉ slot len (cursor s) c.
Proof.
  intros [Cs _ _] Hw Hm. unfold is_me, me_fate in Hm. destruct (me x) as [[u f]|]; [right|left; apply Cs].
  destruct f; [|by destruct Cs as [-> _]|by rewrite Cs].
  rewrite Cs. destruct Hm as [Hm|]; [|done]. apply bool_decide_eq_false in Hm. by intros [?|?]%elem_of_cons.
Qed.


Lemma may_set_inv x t : may_set x t = true -> (t ∉ waiting x) /\ (is_me x t = false \/ me_fate x = Gone).
Proof.
  unfold may_set. intros [Hw%bool_decide_eq_true Hm]%andb_true_iff. split; [done|]. destruct (is_me x t); [|by left].
  right. by destruct (me_fate x).
Qed.


Lemma may_set_sound x vn s c t : ctx_ok len x vn s c -> may_set x t = true -> sound len (clean x) t s c.
Proof.
  intros C [Hw Hm]%may_set_inv. eapply ctx_waiting; eauto. destruct Hm as [?| ->]; [by left|by right].
Qed.






(** ** The calls *)


















(** ** A tick *)














(** ** Clearing the wheel *)









(** ** Sessions *)



End calls.

(** ** The properties *)




(** *** What the clock leaves out *)

Definition again_script (i : Z) : list (call Z) := [CReset 1 i].
Definition again_session (i : Z) : list (event Z) :=
  map Call [CNew 1; CBind 1; CSetOnTimeout 1 (Some (Custom i)); CReset 1 1] ++ [Tick; Tick].

(** A timer that its own handler sets again, with any delay of the wheel,
    is in its new slot but reports that it is not set; so when it is released
    its address stays in the wheel, and the tick that reaches the slot uses the
    dead timer. *)
Theorem wheel_rearm_dangles (i : Z) :
  1 <= i < 8 ->
  (exists s, run again_script (again_session i) (new_UvTimeoutManager 8 4) = Done tt s /\ log s = [1] /\
    Timeouting 1 s = Done false s /\ (Some 1 : option Z) ∈ timeouterss s) /\
  run again_script (again_session i ++ Call (CRelease 1) :: replicate (Z.to_nat i) Tick) (new_UvTimeoutManager 8 4) = Undef.
Proof.
  intros Hi. assert (Hc : i = 1 \/ i = 2 \/ i = 3 \/ i = 4 \/ i = 5 \/ i = 6 \/ i = 7) by lia.
  repeat destruct Hc as [->|Hc]; [..|subst i].
  all: split; [eexists; split; [vm_compute; reflexivity|]; split; [done|]; split; [done|]; cbn [timeouterss]; set_solver|by vm_compute].
Qed.

Lemma wheel_rearm_dangles_witness :
  run again_script (again_session 3 ++ Call (CRelease 1) :: replicate 3 Tick) (new_UvTimeoutManager 8 4) = Undef.
Proof. apply (wheel_rearm_dangles 3). lia. Defined.

(** The second handler of a tick releases both timers: [Process] has cleared
    the first without telling the second, whose removal writes to it. *)
Lemma wheel_stale_link :
  run (fun h : Z => if h =? 2 then [CRelease 1; CRelease 2] else [])
    (map Call [CNew 1; CNew 2; CBind 1; CBind 2; CSetOnTimeout 1 (Some (Custom 1)); CSetOnTimeout 2 (Some (Custom 2));
               CReset 2 1; CReset 1 1] ++ [Tick; Tick]) (new_UvTimeoutManager 8 4) = Undef.
Proof. by vm_compute. Qed.

(** A handler that moves the next timer of its slot to another one: [Process]
    follows the moved timer, rings it at once and never reaches the rest. *)
Lemma wheel_next_moved :
  exists s, run (fun h : Z => if h =? 1 then [CReset 2 3] else [])
    (map Call [CNew 1; CNew 2; CNew 3; CBind 1; CBind 2; CBind 3; CSetOnTimeout 1 (Some (Custom 1)); CSetOnTimeout 2 (Some (Custom 2));
               CSetOnTimeout 3 (Some (Custom 3)); CReset 3 1; CReset 2 1; CReset 1 1] ++ replicate 9 Tick) (new_UvTimeoutManager 8 4) = Done tt s /\
  log s = [1; 2; 2].
Proof. by eexists; vm_compute. Qed.

(** The range of the interval is not checked (the [assert] that means to can
    never fail): a longer one leaves the wheel. *)
Lemma Add_out_of_wheel {H : Type} s t o (e : Z) : heap s !! t = Some o -> @unlinked H o -> timeoutManager o = true ->
  0 <= cursor s -> 2 * zlen (timeouterss s) <= e -> e <> 0 -> Add t e s = Undef.
Proof.
  intros Ho [Hi Hp] Hm Hc He Hz. pose proof (zlen_nonneg (timeouterss s)).
  unfold Add. rewrite (bind_done _ _ _ _ _ (Timeouting_done _ _ _ Ho)), Hm, Hi, Hp.
  rewrite (bool_decide_eq_false_2 (is_Some None)) by (by intros [? ?]). cbn [andb negb orb Z.eqb Pos.eqb assert_].
  rewrite bind_mret, bind_get. destruct (Z.ltb_spec e 0); [lia|]. cbn [negb andb assert_]. rewrite bind_mret.
  destruct (Z.eqb_spec e 0); [done|]. case_bool_decide; cbn [assert_]; [rewrite bind_mret|done].
  destruct (Z.leb_spec (zlen (timeouterss s)) (e + cursor s)); [|lia]. apply bind_undef.
  unfold slot_get. rewrite bind_get. destruct (znth _ _) as [p|] eqn:E; [|done]. apply znth_Some_lt in E. lia.
Qed.
