(* ===== verification/RpcManager.v ===== *)
(** * xx_uv.h, xx_uv.cpp of test_uv_4: the request manager

    [UvRpcManager] numbers the requests of all peers, keeps their callbacks in
    a [Dict] and the ticks at which they time out in a [Queue], and calls each
    callback with the response that carries its number or, when it times out,
    with none.

    A callback is application code that may use the manager again: [react]
    gives the calls that it makes, [depth] bounds how deep callbacks nest.  The
    log has what the application sees. *)

From Stdlib Require Import ZArith Lia.
From stdpp Require Import base numbers list gmap.
From S2P Require Import Prelude Util HashUtils Dict Queue.
Open Scope Z_scope.

#[export] Instance hash_serial : HashFunc Z := hash_small.

Section rpc.
(** Callbacks and responses. *)
Context {K R : Type}.
(** [sizeof] of an element of the table and of the queue, and
    [IsTrivial_v] of the latter. *)
Context (dataSize pairSize : Z) (trivial : bool).

Inductive event :=
| Registered (serial : Z) (cb : K) (due : Z)
| Unregistered (serial : Z)
| Called (serial : Z) (cb : K) (bb : option R).

Record UvRpcManager := MkRpcManager {
  serial : Z;
  mapping : Dict Z K;
  serials : Queue (Z * Z);
  defaultInterval : Z;
  ticks : Z;
  log : list event
}.
Implicit Types s : UvRpcManager.

Definition set_serial (n : Z) s := MkRpcManager n (mapping s) (serials s) (defaultInterval s) (ticks s) (log s).
Definition set_mapping (d : Dict Z K) s := MkRpcManager (serial s) d (serials s) (defaultInterval s) (ticks s) (log s).
Definition set_serials (q : Queue (Z * Z)) s := MkRpcManager (serial s) (mapping s) q (defaultInterval s) (ticks s) (log s).
Definition set_ticks (n : Z) s := MkRpcManager (serial s) (mapping s) (serials s) (defaultInterval s) n (log s).
Definition add_log (e : event) s :=
  MkRpcManager (serial s) (mapping s) (serials s) (defaultInterval s) (ticks s) (log s ++ [e]).

(** A call on the table or on the queue. *)
Definition on_mapping {A} (m : M (Dict Z K) A) : M UvRpcManager A := fun s =>
  match m (mapping s) with
  | Done a d => Done a (set_mapping d s)
  | Fail e d => Fail e (set_mapping d s)
  | Undef => Undef
  end.
Definition on_serials {A} (m : M (Queue (Z * Z)) A) : M UvRpcManager A := fun s =>
  match m (serials s) with
  | Done a q => Done a (set_serials q s)
  | Fail e q => Fail e (set_serials q s)
  | Undef => Undef
  end.

(** The constructor; [None]: the allocation sizes have no solution. *)
Definition new_UvRpcManager (interval : Z) : option UvRpcManager :=
  if interval <=? 0 then None
  else
    d ← new_Dict dataSize 16;
    q ← new_Queue pairSize 8;
    Some (MkRpcManager 0 d q interval 0 []).

Definition Register (cb : K) (interval : Z) : M UvRpcManager Z :=
  s ← get;
  let interval := if interval =? 0 then defaultInterval s else interval in
  let n := u32 (serial s + 1) in
  _ ← modify (set_serial n);
  _ ← on_mapping (Dict.Add dataSize n cb true);
  _ ← assert_ (bool_decide (is_sint 32 (ticks s + interval)));
  _ ← on_serials (Emplace pairSize trivial (ticks s + interval, n));
  _ ← modify (add_log (Registered n cb (ticks s + interval)));
  mret n.

Definition Unregister (n : Z) : M UvRpcManager unit :=
  _ ← on_mapping (Dict.Remove n);
  modify (add_log (Unregistered n)).

(** [auto a = std::move(mapping.ValueAt(idx)); mapping.RemoveAt(idx);] for the
    index of a number, if it has one. *)
Definition take_callback (n : Z) : M UvRpcManager (option K) :=
  idx ← on_mapping (Find n);
  if idx =? -1 then mret None
  else
    a ← on_mapping (ValueAt idx);
    _ ← on_mapping (Dict.RemoveAt idx);
    mret (Some a).

Definition Count s : Z := Queue.Count (serials s).

(** The calls of a callback. *)
Inductive call :=
| CRegister (cb : K) (interval : Z)
| CUnregister (n : Z)
| CCallback (n : Z) (bb : option R).

Context (react : Z -> K -> option R -> list call).

Fixpoint call_each (f : call -> M UvRpcManager unit) (cs : list call) : M UvRpcManager unit :=
  match cs with
  | [] => mret tt
  | c :: cs => _ ← f c; call_each f cs
  end.

(** [a(serial, bb)], [exec] being what its calls do. *)
Definition invoke (exec : call -> M UvRpcManager unit) (n : Z) (a : K) (bb : option R) : M UvRpcManager unit :=
  _ ← modify (add_log (Called n a bb));
  call_each exec (react n a bb).

Definition Callback (exec : call -> M UvRpcManager unit) (n : Z) (bb : option R) : M UvRpcManager unit :=
  a ← take_callback n;
  match a with
  | Some a => invoke exec n a bb
  | None => mret tt
  end.

Fixpoint exec (depth : nat) (c : call) : M UvRpcManager unit :=
  match c with
  | CRegister cb i => _ ← Register cb i; mret tt
  | CUnregister n => Unregister n
  | CCallback n bb =>
      match depth with
      | O => undef
      | S depth => Callback (exec depth) n bb
      end
  end.

Fixpoint process_loop (depth fuel : nat) : M UvRpcManager unit :=
  match fuel with
  | O => undef
  | S fuel =>
      s ← get;
      if Queue.Empty (serials s) then mret tt
      else
        top ← on_serials Top;
        if top.1 <=? ticks s then
          _ ← Callback (exec depth) top.2 None;
          _ ← on_serials (Queue.Pop trivial);
          process_loop depth fuel
        else mret tt
  end.

(** One round more than the queue has entries at first. *)
Definition Process (depth : nat) : M UvRpcManager unit :=
  s ← get;
  _ ← assert_ (ticks s + 1 <? 2 ^ 31);
  _ ← modify (set_ticks (ticks s + 1));
  s ← get;
  if Queue.Empty (serials s) then mret tt else process_loop depth (S (Z.to_nat (Count s))).

(** A session: calls of the application and ticks of the timer. *)
Inductive input :=
| Call (c : call)
| Tick.

Definition step (depth : nat) (i : input) : M UvRpcManager unit :=
  match i with Call c => exec depth c | Tick => Process depth end.

Fixpoint run (depth : nat) (is_ : list input) : M UvRpcManager unit :=
  match is_ with
  | [] => mret tt
  | i :: is_ => _ ← step depth i; run depth is_
  end.
End rpc.
Arguments event : clear implicits.
Arguments UvRpcManager : clear implicits.
Arguments call : clear implicits.
Arguments input : clear implicits.
