(* ===== verification/RpcManagerProps.v ===== *)
(** * The request manager answers each request once

    The specification replaces the table by a finite map and the queue by a
    list, both through the theorems of [DictProps] and [QueueProps]; the
    invariant of the specification gives [manager_answers_once]. *)

From Stdlib Require Import ZArith Lia Sorted.
From stdpp Require Import base numbers list gmap.
From S2P Require Import Prelude Util HashUtils Dict DictChains DictMap DictOps DictProps Queue QueueProps RpcManager.
Open Scope Z_scope.

Section desk.
Context {K R : Type} (react : Z -> K -> option R -> list (call K R)) (limit : Z).

Record Desk := MkDesk {
  last : Z;
  waiting : gmap Z K;
  entries : list (Z * Z);
  interval : Z;
  now : Z;
  seen : list (event K R)
}.
Implicit Types (a : Desk) (n d : Z) (cb : K).

Definition see (e : event K R) a : Desk := MkDesk (last a) (waiting a) (entries a) (interval a) (now a) (seen a ++ [e]).
Definition set_waiting m a : Desk := MkDesk (last a) m (entries a) (interval a) (now a) (seen a).
Definition set_entries l a : Desk := MkDesk (last a) (waiting a) l (interval a) (now a) (seen a).
Definition set_now t a : Desk := MkDesk (last a) (waiting a) (entries a) (interval a) t (seen a).

Definition span a (i : Z) : Z := if i =? 0 then interval a else i.

(** At most [limit] requests wait and at most [limit] entries are queued at a
    time; neither the numbers nor the ticks overflow. *)
Definition desk_register cb (i : Z) a : option Desk :=
  let n := last a + 1 in
  let due := now a + span a i in
  if bool_decide (0 < span a i /\ n < 2 ^ 32 /\ due < 2 ^ 31 /\ Z.of_nat (size (waiting a)) < limit /\ zlen (entries a) < limit)
  then Some (MkDesk n (<[n := cb]> (waiting a)) (entries a ++ [(due, n)]) (interval a) (now a) (seen a ++ [Registered n cb due]))
  else None.

Fixpoint desk_each (f : call K R -> Desk -> option Desk) (cs : list (call K R)) a : option Desk :=
  match cs with
  | [] => Some a
  | c :: cs => a ← f c a; desk_each f cs a
  end.

Definition desk_callback (f : call K R -> Desk -> option Desk) n (bb : option R) a : option Desk :=
  match waiting a !! n with
  | Some cb => desk_each f (react n cb bb) (see (Called n cb bb) (set_waiting (delete n (waiting a)) a))
  | None => Some a
  end.

Fixpoint desk_exec (depth : nat) (c : call K R) a : option Desk :=
  match c with
  | CRegister cb i => desk_register cb i a
  | CUnregister n => Some (see (Unregistered n) (set_waiting (delete n (waiting a)) a))
  | CCallback n bb =>
      match depth with
      | O => None
      | S depth => desk_callback (desk_exec depth) n bb a
      end
  end.

(** The entries that the queue has when the tick begins. *)
Fixpoint desk_process (depth : nat) (l : list (Z * Z)) a : option Desk :=
  match l with
  | [] => Some a
  | (d, n) :: l =>
      if d <=? now a then
        a ← desk_callback (desk_exec depth) n None a;
        desk_process depth l (set_entries (List.tl (entries a)) a)
      else Some a
  end.

Definition desk_step (depth : nat) (i : input K R) a : option Desk :=
  match i with
  | Call c => desk_exec depth c a
  | Tick => if now a + 1 <? 2 ^ 31 then desk_process depth (entries a) (set_now (now a + 1) a) else None
  end.

Fixpoint desk_run (depth : nat) (is_ : list (input K R)) a : option Desk :=
  match is_ with
  | [] => Some a
  | i :: is_ => a ← desk_step depth i a; desk_run depth is_ a
  end.

(** ** What a call adds to the queue *)

Definition grows a a' : Prop :=
  now a' = now a /\ interval a' = interval a /\ exists new, entries a' = entries a ++ new /\ Forall (fun e => now a < e.1) new.

Lemma grows_refl a : grows a a.
Proof. split; [done|]. split; [done|]. exists []. by rewrite app_nil_r. Qed.

Lemma grows_trans a1 a2 a3 : grows a1 a2 -> grows a2 a3 -> grows a1 a3.
Proof.
  intros (N1 & I1 & l1 & E1 & F1) (N2 & I2 & l2 & E2 & F2). split; [congruence|]. split; [congruence|].
  exists (l1 ++ l2). rewrite E2, E1, app_assoc. split; [done|]. apply Forall_app. split; [done|]. by rewrite <-N1.
Qed.

Lemma desk_each_ind (P : Desk -> Desk -> Prop) (f : call K R -> Desk -> option Desk) cs :
  (forall a, P a a) -> (forall a1 a2 a3, P a1 a2 -> P a2 a3 -> P a1 a3) ->
  (forall c a a', f c a = Some a' -> P a a') -> forall a a', desk_each f cs a = Some a' -> P a a'.
Proof.
  intros Hr Ht Hf. induction cs as [|c cs IH]; intros a a' E; cbn in E; [by injection E as <-|].
  destruct (f c a) as [a1|] eqn:E1; [|done]. apply (Ht _ a1); [by eapply Hf|by apply IH].
Qed.

(** A relation that is closed under the elementary changes holds across every
    call. *)
Lemma desk_exec_ind (P : Desk -> Desk -> Prop) :
  (forall a, P a a) -> (forall a1 a2 a3, P a1 a2 -> P a2 a3 -> P a1 a3) ->
  (forall cb i a a', desk_register cb i a = Some a' -> P a a') ->
  (forall n a, P a (see (Unregistered n) (set_waiting (delete n (waiting a)) a))) ->
  (forall n cb bb a, waiting a !! n = Some cb -> P a (see (Called n cb bb) (set_waiting (delete n (waiting a)) a))) ->
  (forall depth c a a', desk_exec depth c a = Some a' -> P a a') /\
  (forall depth n bb a a', desk_callback (desk_exec depth) n bb a = Some a' -> P a a').
Proof.
  intros Hr Ht Hg Hu Hc.
  assert (Hcb : forall f n bb a a', (forall c a a', f c a = Some a' -> P a a') -> desk_callback f n bb a = Some a' -> P a a').
  { intros f n bb a a' Hf. unfold desk_callback. destruct (waiting a !! n) as [cb|] eqn:E; [|by intros [= <-]].
    intros Ee. eapply Ht; [by apply Hc|]. by eapply desk_each_ind. }
  assert (He : forall depth c a a', desk_exec depth c a = Some a' -> P a a').
  { induction depth as [|depth IH]; intros [cb i|n|n bb] a a' E; cbn in E; try done; try (by eapply Hg); try (injection E as <-; apply Hu).
    by eapply Hcb. }
  split; [done|]. intros depth n bb a a'. apply Hcb. apply He.
Qed.

Lemma desk_register_inv cb i a a' : desk_register cb i a = Some a' ->
  let n := last a + 1 in let due := now a + span a i in
  0 < span a i /\ n < 2 ^ 32 /\ due < 2 ^ 31 /\ Z.of_nat (size (waiting a)) < limit /\ zlen (entries a) < limit /\
  a' = MkDesk n (<[n := cb]> (waiting a)) (entries a ++ [(due, n)]) (interval a) (now a) (seen a ++ [Registered n cb due]).
Proof using Type.
  unfold desk_register. case_bool_decide as Hc; [|done]. intros [= <-]. destruct Hc as (H1 & H2 & H3 & H4 & H5).
  exact (conj H1 (conj H2 (conj H3 (conj H4 (conj H5 eq_refl))))).
Qed.

Lemma desk_grows : (forall depth c a a', desk_exec depth c a = Some a' -> grows a a') /\
  (forall depth n bb a a', desk_callback (desk_exec depth) n bb a = Some a' -> grows a a').
Proof.
  apply desk_exec_ind.
  - apply grows_refl.
  - apply grows_trans.
  - intros cb i a a' E. destruct (desk_register_inv _ _ _ _ E) as (Hs & _ & _ & _ & _ & ->).
    split; [done|]. split; [done|]. eexists. split; [done|]. constructor; [|done]. cbn. lia.
  - intros n a. split; [done|]. split; [done|]. exists []. by rewrite app_nil_r.
  - intros n cb bb a _. split; [done|]. split; [done|]. exists []. by rewrite app_nil_r.
Qed.
End desk.
Arguments Desk : clear implicits.

(** ** The manager does what the specification says *)

Section refines.
Context {K R : Type} (react : Z -> K -> option R -> list (call K R)) (limit dataSize pairSize : Z) (trivial : bool).
Context (Hsize : 8 <= dataSize <= 512) (Hgrows : no_shrink dataSize = true) (Hpair : 0 < pairSize <= 2 ^ 16).
Context (Hlimit : 0 <= limit /\ limit * 2 * dataSize < 2 ^ 31).
Implicit Types (a : Desk K R) (s : UvRpcManager K R) (n : Z) (cb : K).

Record rep s a : Prop := {
  rep_serial : serial s = last a;
  rep_mapping : repr (mapping s) (waiting a);
  rep_count : count (mapping s) <= limit;
  rep_serials : represents trivial (serials s) (entries a);
  rep_interval : defaultInterval s = interval a;
  rep_ticks : ticks s = now a;
  rep_log : log s = seen a;
  rep_pos : 0 <= last a /\ 0 <= now a
}.

Lemma on_mapping_done {A} (m : M (Dict Z K) A) s v d' : m (mapping s) = Done v d' -> on_mapping m s = Done v (set_mapping d' s).
Proof. unfold on_mapping. by intros ->. Qed.

Lemma on_serials_done {A} (m : M (Queue (Z * Z)) A) s v q' : m (serials s) = Done v q' -> on_serials m s = Done v (set_serials q' s).
Proof. unfold on_serials. by intros ->. Qed.

Lemma on_mapping_same {A} (m : M (Dict Z K) A) s v : m (mapping s) = Done v (mapping s) -> on_mapping m s = Done v s.
Proof. intros E. rewrite (on_mapping_done _ _ _ _ E). by destruct s. Qed.

Lemma on_serials_same {A} (m : M (Queue (Z * Z)) A) s v : m (serials s) = Done v (serials s) -> on_serials m s = Done v s.
Proof. intros E. rewrite (on_serials_done _ _ _ _ E). by destruct s. Qed.

Lemma count_size (d : Dict Z K) m : repr d m -> freeCount d = 0 -> count d = Z.of_nat (size m).
Proof.
  intros Hr Hf. pose proof (Count_repr d m Hr) as E. destruct Hr as (ch & fl & Hw & _).
  pose proof (wf_count _ _ _ _ Hw). pose proof (wf_max _ _ _ _ Hw).
  unfold Dict.Count in E. rewrite bind_get, Hf, Z.sub_0_r in E. injection E as E. rewrite <-E. symmetry. apply uint_small. rng.
Qed.

Lemma add_bounded (d : Dict Z K) m n cb : repr d m -> count d <= limit -> Z.of_nat (size m) < limit ->
  exists v d', Dict.Add dataSize n cb true d = Done v d' /\ repr d' (<[n := cb]> m) /\ count d' <= limit.
Proof.
  intros Hr Hc Hm. destruct (m !! n) as [v0|] eqn:En.
  - destruct (Add_present dataSize d m n cb v0 true Hr En) as (i & d' & E & Ec & Hr'). exists (true, i), d'. split; [done|]. split; [done|lia].
  - destruct (Add_absent dataSize d m n cb true Hr En) as (i & d' & E & Ec & Hr' & _).
    { apply (can_grow_small dataSize Hsize Hgrows d m Hr). nia. }
    exists (true, i), d'. split; [done|]. split; [done|]. destruct Ec as [->|[Hf ->]]; [done|]. rewrite (count_size d m Hr Hf). lia.
Qed.

Lemma Register_rep s a cb i a' : rep s a -> desk_register limit cb i a = Some a' ->
  exists s', Register dataSize pairSize trivial cb i s = Done (last a') s' /\ rep s' a'.
Proof.
  intros [Es Hm Hc Hq Ei Et El Hp] E. destruct (desk_register_inv _ _ _ _ _ E) as (Hs & Hn & Hd & Hw & He & ->).
  unfold Register. rewrite bind_get, Es, Et, Ei. fold (span a i).
  assert (Hu : u32 (last a + 1) = last a + 1) by (apply uint_small; rng). rewrite Hu, bind_modify.
  destruct (add_bounded (mapping s) (waiting a) (last a + 1) cb Hm Hc Hw) as (v & d' & Ea & Hm' & Hc').
  rewrite (bind_done _ _ _ _ _ (on_mapping_done _ (set_serial (last a + 1) s) v d' Ea)).
  rewrite bool_decide_eq_true_2 by rng. cbn [assert_]. rewrite bind_mret.
  destruct (Queue_Emplace_spec pairSize trivial (serials s) (entries a) (now a + span a i, last a + 1) Hq) as (k & q' & Eq & Hq' & _).
  { lia. } { unfold MemHeader_size. change (2 ^ 16) with 65536 in *. change (2 ^ 31) with 2147483648 in *. change (2 ^ 63) with 9223372036854775808. nia. }
  rewrite (bind_done _ _ _ _ _ (on_serials_done _ (set_mapping d' (set_serial (last a + 1) s)) k q' Eq)), bind_modify.
  eexists. split; [reflexivity|]. split; cbn [last serial mapping serials defaultInterval ticks log add_log set_serials set_mapping set_serial waiting entries interval now seen]; try done.
  - by rewrite El.
  - lia.
Qed.

Lemma take_callback_rep s a n : rep s a ->
  exists s', take_callback n s = Done (waiting a !! n) s' /\ rep s' (set_waiting (delete n (waiting a)) a).
Proof.
  intros [Es Hm Hc Hq Ei Et El Hp]. pose proof Hm as (ch & fl & Hw & Hh).
  destruct (Find_repr (mapping s) ch fl (waiting a) n Hw Hh) as (i & Ef & Hi). unfold take_callback.
  rewrite (bind_done _ _ _ _ _ (on_mapping_same _ _ _ Ef)).
  destruct (waiting a !! n) as [cb|] eqn:En.
  - destruct Hi as (Hge & Hl & He). destruct (Z.eqb_spec i (-1)); [lia|].
    destruct (entry_data _ _ _ He) as (nd & it & _ & Eit & _ & Ekv).
    rewrite (bind_done (on_mapping (ValueAt i)) _ s cb s).
    2:{ apply on_mapping_same. unfold ValueAt. rewrite (bind_done _ _ _ _ _ (IndexExists_linked _ _ _ _ _ Hw Hl)).
        unfold assert_, item, mbind, M_bind, get, demand, mret, M_ret. rewrite Eit. cbn. by rewrite Ekv. }
    destruct (RemoveAt_spec (mapping s) ch fl (waiting a) i (n, cb) Hw Hh Hl He) as (d' & Er & Ec & Hr' & _).
    rewrite (bind_done _ _ _ _ _ (on_mapping_done _ s tt d' Er)).
    eexists. split; [reflexivity|]. split; try done. cbn. lia.
  - destruct Hi as [-> _]. eexists. split; [reflexivity|]. split; try done. cbn. by rewrite delete_id.
Qed.

Lemma rep_see s a e : rep s a -> rep (add_log e s) (see e a).
Proof. intros R0. split; try apply R0. cbn. by rewrite (rep_log _ _ R0). Qed.

Lemma each_rep f g cs : (forall c s a a', rep s a -> f c a = Some a' -> exists s', g c s = Done tt s' /\ rep s' a') ->
  forall s a a', rep s a -> desk_each f cs a = Some a' -> exists s', call_each g cs s = Done tt s' /\ rep s' a'.
Proof.
  intros Hf. induction cs as [|c cs IH]; intros s a a' H E; cbn [desk_each call_each] in *; [injection E as <-; by exists s|].
  destruct (f c a) as [a1|] eqn:E1; [|done]. destruct (Hf _ _ _ _ H E1) as (s1 & Es1 & H1).
  rewrite (bind_done _ _ _ _ _ Es1). by eapply IH.
Qed.

Lemma Callback_rep f g : (forall c s a a', rep s a -> f c a = Some a' -> exists s', g c s = Done tt s' /\ rep s' a') ->
  forall n bb s a a', rep s a -> desk_callback react f n bb a = Some a' -> exists s', Callback react g n bb s = Done tt s' /\ rep s' a'.
Proof.
  intros Hf n bb s a a' H E. unfold Callback. destruct (take_callback_rep s a n H) as (s1 & E1 & H1). rewrite (bind_done _ _ _ _ _ E1).
  unfold desk_callback in E. destruct (waiting a !! n) as [cb|] eqn:En.
  - unfold invoke. rewrite bind_modify. eapply each_rep; [exact Hf| |exact E]. by apply rep_see.
  - injection E as <-. exists s1. split; [done|]. rewrite delete_id in H1 by done. by destruct a.
Qed.

Lemma exec_rep depth : forall c s a a', rep s a -> desk_exec react limit depth c a = Some a' ->
  exists s', exec dataSize pairSize trivial react depth c s = Done tt s' /\ rep s' a'.
Proof.
  induction depth as [|depth IH]; intros [cb i|n|n bb] s a a' H E; cbn [desk_exec exec] in *; try done.
  1,3: destruct (Register_rep s a cb i a' H E) as (s' & Es' & H'); rewrite (bind_done _ _ _ _ _ Es'); by exists s'.
  1,2: injection E as <-; destruct (Remove_repr (mapping s) (waiting a) n (rep_mapping _ _ H)) as (d' & Ed & Ec & Hd);
    unfold Unregister; rewrite (bind_done _ _ _ _ _ (on_mapping_done _ _ _ _ Ed)); eexists; split; [reflexivity|]; apply rep_see;
    split; try apply H; cbn; [done|rewrite Ec; apply H].
  by eapply Callback_rep.
Qed.

Lemma pop_rep s a e l : rep s a -> entries a = e :: l ->
  exists s', on_serials (Queue.Pop trivial) s = Done tt s' /\ rep s' (set_entries l a).
Proof.
  intros H E. pose proof (rep_serials _ _ H) as Hq. rewrite E in Hq. destruct (Queue_Pop_spec trivial (serials s) e l Hq) as (q' & Ep & Hq').
  eexists. split; [by apply on_serials_done|]. split; try apply H. done.
Qed.

Lemma process_loop_rep depth l : forall fuel new s a a', rep s a -> entries a = l ++ new -> Forall (fun e => now a < e.1) new ->
  desk_process react limit depth l a = Some a' -> (length l < fuel)%nat ->
  exists s', process_loop dataSize pairSize trivial react depth fuel s = Done tt s' /\ rep s' a'.
Proof.
  induction l as [|[d n] l IH]; intros fuel new s a a' H El Hn E Hf; (destruct fuel as [|fuel]; [cbn in Hf; lia|]); cbn [process_loop desk_process app] in *.
  - injection E as <-. rewrite bind_get. destruct (Queue.Empty (serials s)) eqn:Ee; [by exists s|].
    pose proof (rep_serials _ _ H) as Hq. rewrite El in Hq. destruct new as [|e new].
    { assert (head (serials s) = Queue.tail (serials s)) as Eh by (by apply (Empty_nil _ _ _ Hq)). unfold Queue.Empty in Ee. by apply Z.eqb_neq in Ee. }
    rewrite (bind_done _ _ _ _ _ (on_serials_same _ _ _ (Queue_Top_spec _ _ _ _ Hq))).
    apply Forall_cons in Hn as [Hn _]. rewrite (rep_ticks _ _ H). destruct (Z.leb_spec e.1 (now a)); [lia|].
    by exists s.
  - rewrite bind_get. pose proof (rep_serials _ _ H) as Hq. rewrite El in Hq.
    destruct (Queue.Empty (serials s)) eqn:Ee.
    { unfold Queue.Empty in Ee. apply Z.eqb_eq in Ee. by apply (Empty_nil _ _ _ Hq) in Ee. }
    rewrite (bind_done _ _ _ _ _ (on_serials_same _ _ _ (Queue_Top_spec _ _ _ _ Hq))). cbn [fst snd].
    rewrite (rep_ticks _ _ H).
    destruct (d <=? now a) eqn:Ed; [|injection E as <-; by exists s].
    destruct (desk_callback react (desk_exec react limit depth) n None a) as [a1|] eqn:E1; [|done]. cbn in E.
    destruct (Callback_rep (desk_exec react limit depth) (exec dataSize pairSize trivial react depth) (exec_rep depth) n None s a a1 H E1) as (s1 & Es1 & H1).
    rewrite (bind_done _ _ _ _ _ Es1). destruct (proj2 (desk_grows react limit) depth n None a a1 E1) as (En & _ & new' & Ee' & Hn').
    rewrite El in Ee'. cbn [app] in Ee'. rewrite <-app_assoc in Ee'. rewrite Ee' in E. cbn [List.tl] in E.
    destruct (pop_rep s1 a1 (d, n) (l ++ new ++ new') H1 Ee') as (s2 & Es2 & H2).
    rewrite (bind_done _ _ _ _ _ Es2). eapply (IH fuel (new ++ new')); [exact H2|done| |exact E|cbn in Hf; lia].
    cbn [now set_entries]. rewrite En. by apply Forall_app.
Qed.

Lemma step_rep depth i s a a' : rep s a -> desk_step react limit depth i a = Some a' ->
  exists s', step dataSize pairSize trivial react depth i s = Done tt s' /\ rep s' a'.
Proof.
  intros H E. destruct i as [c|]; cbn [desk_step step] in *; [by eapply exec_rep|].
  destruct (Z.ltb_spec (now a + 1) (2 ^ 31)) as [Hnow|]; [|done].
  unfold Process. rewrite bind_get, (rep_ticks _ _ H). destruct (Z.ltb_spec (now a + 1) (2 ^ 31)); [|lia]. cbn [assert_].
  rewrite bind_mret, bind_modify, bind_get. assert (H1 : rep (set_ticks (now a + 1) s) (set_now (now a + 1) a)).
  { split; try apply H; cbn; [done|]. pose proof (rep_pos _ _ H). lia. }
  pose proof (rep_serials _ _ H) as Hq. destruct (Queue.Empty _) eqn:Ee.
  - unfold Queue.Empty in Ee. cbn in Ee. apply Z.eqb_eq, (Empty_nil _ _ _ Hq) in Ee. rewrite Ee in E. cbn in E. injection E as <-. by eexists.
  - eapply (process_loop_rep depth (entries a) _ []); [exact H1|by rewrite app_nil_r|done|exact E|].
    unfold Count. cbn [serials set_ticks]. rewrite (Count_length _ _ _ Hq). unfold zlen. lia.
Qed.

Lemma run_rep depth is_ : forall s a a', rep s a -> desk_run react limit depth is_ a = Some a' ->
  exists s', run dataSize pairSize trivial react depth is_ s = Done tt s' /\ rep s' a'.
Proof.
  induction is_ as [|i is_ IH]; intros s a a' H E; cbn [desk_run run] in *; [injection E as <-; by exists s|].
  destruct (desk_step react limit depth i a) as [a1|] eqn:E1; [|done]. destruct (step_rep _ _ _ _ _ H E1) as (s1 & Es1 & H1).
  rewrite (bind_done _ _ _ _ _ Es1). by eapply IH.
Qed.
End refines.

(** ** The invariant *)

Section invariant.
Context {K R : Type} (react : Z -> K -> option R -> list (call K R)) (limit : Z).
Implicit Types (a : Desk K R) (n d : Z) (cb : K) (l : list (event K R)).

Definition called l : list Z := omap (fun e => match e with Called n _ _ => Some n | _ => None end) l.
Definition registered l : list Z := omap (fun e => match e with Registered n _ _ => Some n | _ => None end) l.

Lemma called_elem l n : n ∈ called l <-> exists cb bb, Called n cb bb ∈ l.
Proof.
  unfold called. rewrite list_elem_of_omap. split.
  - intros ([| |m cb bb] & Hi & E); try done. injection E as ->. by exists cb, bb.
  - intros (cb & bb & Hi). by exists (Called n cb bb).
Qed.

Lemma registered_elem l n : n ∈ registered l <-> exists cb due, Registered n cb due ∈ l.
Proof.
  unfold registered. rewrite list_elem_of_omap. split.
  - intros ([m cb due| |] & Hi & E); try done. injection E as ->. by exists cb, due.
  - intros (cb & due & Hi). by exists (Registered n cb due).
Qed.

Lemma called_app l e : called (l ++ [e]) = called l ++ called [e].
Proof. apply omap_app. Qed.
Lemma registered_app l e : registered (l ++ [e]) = registered l ++ registered [e].
Proof. apply omap_app. Qed.

Record inv a : Prop := {
  inv_waiting n cb : waiting a !! n = Some cb -> n ∈ (entries a).*2 /\ exists due, Registered n cb due ∈ seen a;
  inv_called n cb bb : Called n cb bb ∈ seen a -> waiting a !! n = None /\ exists due, Registered n cb due ∈ seen a;
  inv_once : NoDup (called (seen a));
  inv_registered n cb due : Registered n cb due ∈ seen a ->
    n <= last a /\ (waiting a !! n = Some cb \/ n ∈ called (seen a) \/ Unregistered n ∈ seen a);
  inv_numbers : NoDup (registered (seen a));
  inv_entries d n : (d, n) ∈ entries a -> exists cb, Registered n cb d ∈ seen a;
  inv_sorted : StronglySorted Z.lt (entries a).*2
}.

Lemma inv_fresh a n : inv a -> last a < n -> waiting a !! n = None /\ (n ∉ called (seen a)) /\ (n ∉ registered (seen a)) /\ n ∉ (entries a).*2.
Proof.
  intros I Hn.
  assert (Hr : n ∉ registered (seen a)).
  { intros (cb & due & Hi)%registered_elem. apply (inv_registered _ I) in Hi. lia. }
  split; [|split; [|split]].
  - destruct (waiting a !! n) as [cb|] eqn:E; [|done]. destruct (inv_waiting _ I n cb E) as (_ & due & Hi).
    destruct Hr. apply registered_elem. eauto.
  - intros (cb & bb & Hi)%called_elem. destruct (inv_called _ I _ _ _ Hi) as (_ & due & Hi'). apply Hr, registered_elem. eauto.
  - done.
  - intros ([d m] & E & Hi)%list_elem_of_fmap. cbn in E. subst m. destruct (inv_entries _ I d n Hi) as (cb & Hi'). apply Hr, registered_elem. eauto.
Qed.

Lemma inv_register cb i a a' : inv a -> desk_register limit cb i a = Some a' -> inv a'.
Proof.
  intros I E. destruct (desk_register_inv _ _ _ _ _ E) as (Hs & _ & _ & _ & _ & ->). set (n := last a + 1). set (due := now a + span a i).
  assert (En : n = last a + 1) by done. destruct (inv_fresh a n I) as (Fw & Fc & Fr & Fe); [lia|].
  split; cbn [waiting entries seen last].
  - intros m cb' [[<- <-]|[Hne Hm]]%lookup_insert_Some.
    + rewrite fmap_app. split; [set_solver|]. exists due. set_solver.
    + destruct (inv_waiting _ I m cb' Hm) as (H1 & d & H2). rewrite fmap_app. split; [set_solver|]. exists d. set_solver.
  - intros m cb' bb [Hi|Hi%list_elem_of_singleton]%elem_of_app; [|done]. destruct (inv_called _ I m cb' bb Hi) as (Hw & d & Hd).
    rewrite lookup_insert_ne. { split; [done|]. exists d. set_solver. }
    intros <-. apply Fc, called_elem. eauto.
  - rewrite called_app, app_nil_r. apply I.
  - intros m cb' d [Hi|Hi%list_elem_of_singleton]%elem_of_app.
    + destruct (inv_registered _ I m cb' d Hi) as (Hle & Hm). split; [lia|]. rewrite lookup_insert_ne by lia. rewrite called_app. set_solver.
    + injection Hi as -> -> ->. split; [lia|]. left. apply lookup_insert_eq.
  - rewrite registered_app. apply NoDup_app. split; [apply I|]. split; [|apply NoDup_singleton].
    intros x Hx Hx'. apply list_elem_of_singleton in Hx' as ->. done.
  - intros d m [Hi|Hi%list_elem_of_singleton]%elem_of_app.
    + destruct (inv_entries _ I d m Hi) as (cb' & Hc). exists cb'. set_solver.
    + injection Hi as -> ->. exists cb. set_solver.
  - rewrite fmap_app. cbn. clear E. pose proof (inv_sorted _ I) as S.
    assert (Hl : Forall (fun x => x < n) (entries a).*2).
    { apply Forall_forall. intros x ([d m] & -> & Hi)%list_elem_of_fmap. destruct (inv_entries _ I d m Hi) as (cb' & Hc).
      apply (inv_registered _ I) in Hc. cbn. lia. }
    revert S Hl. generalize (entries a).*2. clear. intros xs0. induction xs0 as [|x xs IH]; intros S Hl; cbn; [repeat constructor|].
    apply Forall_cons in Hl as [Hx Hl]. inversion S as [|? ? S' Hf]; subst. constructor; [by apply IH|].
    apply Forall_app. split; [done|]. by constructor.
Qed.

Lemma inv_unregister n a : inv a -> inv (see (Unregistered n) (set_waiting (delete n (waiting a)) a)).
Proof.
  intros I. split; cbn [waiting entries seen last see set_waiting].
  - intros m cb [Hne Hm]%lookup_delete_Some. destruct (inv_waiting _ I m cb Hm) as (H1 & d & H2). split; [done|]. exists d. set_solver.
  - intros m cb bb [Hi|Hi%list_elem_of_singleton]%elem_of_app; [|done]. destruct (inv_called _ I m cb bb Hi) as (Hw & d & Hd).
    split; [|exists d; set_solver]. apply lookup_delete_None. by right.
  - rewrite called_app, app_nil_r. apply I.
  - intros m cb d [Hi|Hi%list_elem_of_singleton]%elem_of_app; [|done]. destruct (inv_registered _ I m cb d Hi) as (Hle & Hm). split; [done|].
    rewrite called_app, app_nil_r. destruct (decide (m = n)) as [->|Hne]; [right; right; set_solver|]. rewrite lookup_delete_ne by done. set_solver.
  - rewrite registered_app, app_nil_r. apply I.
  - intros d m Hi. destruct (inv_entries _ I d m Hi) as (cb' & Hc). exists cb'. set_solver.
  - apply I.
Qed.

Lemma inv_call n cb bb a : inv a -> waiting a !! n = Some cb -> inv (see (Called n cb bb) (set_waiting (delete n (waiting a)) a)).
Proof.
  intros I En. destruct (inv_waiting _ I n cb En) as (Hen & due & Hdue). split; cbn [waiting entries seen last see set_waiting].
  - intros m cb' [Hne Hm]%lookup_delete_Some. destruct (inv_waiting _ I m cb' Hm) as (H1 & d & H2). split; [done|]. exists d. set_solver.
  - intros m cb' bb' [Hi|Hi%list_elem_of_singleton]%elem_of_app.
    + destruct (inv_called _ I m cb' bb' Hi) as (Hw & d & Hd). split; [|exists d; set_solver]. apply lookup_delete_None. by right.
    + injection Hi as -> -> _. split; [apply lookup_delete_eq|]. exists due. set_solver.
  - rewrite called_app. apply NoDup_app. split; [apply I|]. split; [|apply NoDup_singleton].
    intros x (cb' & bb' & Hx)%called_elem Hx'. apply list_elem_of_singleton in Hx' as ->. apply (inv_called _ I) in Hx as [Hw _]. congruence.
  - intros m cb' d [Hi|Hi%list_elem_of_singleton]%elem_of_app; [|done]. destruct (inv_registered _ I m cb' d Hi) as (Hle & Hm). split; [done|].
    rewrite called_app. destruct (decide (m = n)) as [->|Hne]; [right; left; cbn; set_solver|]. rewrite lookup_delete_ne by done. set_solver.
  - rewrite registered_app, app_nil_r. apply I.
  - intros d m Hi. destruct (inv_entries _ I d m Hi) as (cb' & Hc). exists cb'. set_solver.
  - apply I.
Qed.

Lemma inv_exec : (forall depth c a a', desk_exec react limit depth c a = Some a' -> inv a -> inv a') /\
  (forall depth n bb a a', desk_callback react (desk_exec react limit depth) n bb a = Some a' -> inv a -> inv a').
Proof.
  apply (desk_exec_ind react limit (fun a a' => inv a -> inv a')); eauto.
  - intros cb i a a' E I. by eapply inv_register.
  - intros n a I. by apply inv_unregister.
  - intros n cb bb a E I. by apply inv_call.
Qed.

(** The callback of the first entry is not waiting any more once it was
    called, so that the entry can go. *)
Lemma inv_pop a d n (l : list (Z * Z)) : inv a -> entries a = (d, n) :: l -> waiting a !! n = None -> inv (set_entries l a).
Proof.
  intros I El Hn. split; cbn [waiting entries seen last set_entries]; try apply I.
  - intros m cb Hm. destruct (inv_waiting _ I m cb Hm) as (H1 & H2). split; [|done]. rewrite El in H1. cbn in H1.
    apply elem_of_cons in H1 as [->|H1]; [congruence|done].
  - intros e m Hi. apply (inv_entries _ I). rewrite El. by right.
  - pose proof (inv_sorted _ I) as S. rewrite El in S. by inversion S.
Qed.

(** A number that is not waiting and has been used stays so. *)
Lemma gone_stays : (forall depth c a a', desk_exec react limit depth c a = Some a' ->
    forall n, inv a -> n <= last a -> waiting a !! n = None -> inv a' /\ n <= last a' /\ waiting a' !! n = None) /\
  (forall depth m bb a a', desk_callback react (desk_exec react limit depth) m bb a = Some a' ->
    forall n, inv a -> n <= last a -> waiting a !! n = None -> inv a' /\ n <= last a' /\ waiting a' !! n = None).
Proof.
  apply (desk_exec_ind react limit (fun a a' => forall n, inv a -> n <= last a -> waiting a !! n = None -> inv a' /\ n <= last a' /\ waiting a' !! n = None)).
  - done.
  - intros a1 a2 a3 H1 H2 n I Hn Hw. destruct (H1 n I Hn Hw) as (? & ? & ?). by apply H2.
  - intros cb i a a' E n I Hn Hw. split; [by eapply inv_register|]. destruct (desk_register_inv _ _ _ _ _ E) as (_ & _ & _ & _ & _ & ->).
    cbn [last waiting]. split; [lia|]. by rewrite lookup_insert_ne by lia.
  - intros m a n I Hn Hw. split; [by apply inv_unregister|]. split; [done|]. cbn. apply lookup_delete_None. by right.
  - intros m cb bb a E n I Hn Hw. split; [by apply inv_call|]. split; [done|]. cbn. apply lookup_delete_None. by right.
Qed.

Lemma callback_gone depth n bb a a' : inv a -> n <= last a -> desk_callback react (desk_exec react limit depth) n bb a = Some a' ->
  waiting a' !! n = None.
Proof.
  intros I Hn E. unfold desk_callback in E. destruct (waiting a !! n) as [cb|] eqn:En; [|by injection E as <-].
  assert (H : inv a' /\ n <= last a' /\ waiting a' !! n = None); [|tauto].
  refine (desk_each_ind (fun a a' => inv a -> n <= last a -> waiting a !! n = None -> inv a' /\ n <= last a' /\ waiting a' !! n = None)
    (desk_exec react limit depth) _ _ _ _ _ _ E _ _ _).
  - done.
  - intros a1 a2 a3 H1 H2 I1 Hn1 Hw1. destruct (H1 I1 Hn1 Hw1) as (? & ? & ?). by apply H2.
  - intros c a1 a2 E1 I1 Hn1 Hw1. by apply (proj1 gone_stays depth c a1 a2 E1).
  - by apply inv_call.
  - done.
  - cbn. apply lookup_delete_eq.
Qed.

(** Between the events no entry at the front of the queue is due. *)
Definition front_later a : Prop := match entries a with (d, _) :: _ => now a < d | [] => True end.

Lemma front_exec depth c a a' : front_later a -> desk_exec react limit depth c a = Some a' -> front_later a'.
Proof.
  intros F E. destruct (proj1 (desk_grows react limit) depth c a a' E) as (En & _ & new & Ee & Hn). unfold front_later in *.
  rewrite Ee, En. destruct (entries a) as [|[d m] l]; [|done]. cbn. destruct new as [|[d m] new]; [done|]. by apply Forall_cons in Hn as [? _].
Qed.

Lemma inv_process depth (l : list (Z * Z)) : forall new a a', inv a -> entries a = l ++ new -> Forall (fun e => now a < e.1) new ->
  desk_process react limit depth l a = Some a' -> inv a' /\ front_later a'.
Proof.
  induction l as [|[d n] l IH]; intros new a a' I El Hn E; cbn [desk_process app] in *.
  - injection E as <-. split; [done|]. unfold front_later. rewrite El. destruct new as [|[d m] new]; [done|]. by apply Forall_cons in Hn as [? _].
  - destruct (Z.leb_spec d (now a)) as [Hd|Hd]; [|injection E as <-; split; [done|]; unfold front_later; by rewrite El].
    destruct (desk_callback react (desk_exec react limit depth) n None a) as [a1|] eqn:E1; [|done]. cbn in E.
    destruct (proj2 (desk_grows react limit) depth n None a a1 E1) as (En & _ & new' & Ee' & Hn').
    rewrite El in Ee'. cbn [app] in Ee'. rewrite <-app_assoc in Ee'. rewrite Ee' in E. cbn [List.tl] in E.
    assert (Hle : n <= last a).
    { destruct (inv_entries _ I d n) as (cb & Hc); [rewrite El; left|]. by apply (inv_registered _ I) in Hc as [? _]. }
    eapply (IH (new ++ new') (set_entries (l ++ new ++ new') a1)); [|done| |exact E].
    + apply (inv_pop a1 d n); [by apply (proj2 inv_exec depth n None a a1 E1)|done|]. by apply (callback_gone depth n None a a1 I Hle).
    + cbn [now set_entries]. rewrite En. by apply Forall_app.
Qed.

Lemma inv_run depth is_ : forall a a', inv a -> front_later a -> desk_run react limit depth is_ a = Some a' -> inv a' /\ front_later a'.
Proof.
  induction is_ as [|i is_ IH]; intros a a' I F E; cbn [desk_run] in *; [by injection E as <-|].
  destruct (desk_step react limit depth i a) as [a1|] eqn:E1; [|done]. assert (inv a1 /\ front_later a1) as [I1 F1]; [|by eapply IH].
  destruct i as [c|]; cbn [desk_step] in E1.
  - split; [by apply (proj1 inv_exec depth c a a1 E1)|by eapply front_exec].
  - destruct (now a + 1 <? 2 ^ 31); [|done]. eapply (inv_process depth (entries a) []); [| |done|exact E1].
    + destruct I. by split.
    + cbn. by rewrite app_nil_r.
Qed.

(** A number is registered with one callback. *)
Lemma registered_same a n cb cb' due due' : inv a -> Registered n cb due ∈ seen a -> Registered n cb' due' ∈ seen a -> cb = cb'.
Proof.
  intros I H1 H2. pose proof (inv_numbers _ I) as Hnd. apply list_elem_of_lookup in H1 as (i & Ei), H2 as (j & Ej).
  unfold registered in Hnd. destruct (decide (i = j)) as [->|Hne]; [congruence|]. exfalso. revert Hne.
  revert i j Ei Ej Hnd. induction (seen a) as [|e l IH]; intros [|i] [|j] Ei Ej Hnd Hne; try done; cbn in *.
  - injection Ei as ->. cbn in Hnd. apply NoDup_cons in Hnd as [Hn _]. apply Hn, list_elem_of_omap. exists (Registered n cb' due'). split; [by eapply list_elem_of_lookup_2|done].
  - injection Ej as ->. cbn in Hnd. apply NoDup_cons in Hnd as [Hn _]. apply Hn, list_elem_of_omap. exists (Registered n cb due). split; [by eapply list_elem_of_lookup_2|done].
  - apply (IH i j Ei Ej); [|congruence]. by destruct e; try apply NoDup_cons in Hnd as [_ Hnd].
Qed.

(** What still waits is behind an entry whose tick has not come. *)
Lemma waiting_later a n cb : inv a -> front_later a -> waiting a !! n = Some cb ->
  exists n' cb' due', n' <= n /\ Registered n' cb' due' ∈ seen a /\ now a < due'.
Proof.
  intros I F Hw. destruct (inv_waiting _ I n cb Hw) as (Hi & _). pose proof (inv_sorted _ I) as S. unfold front_later in F.
  pose proof (inv_entries _ I) as He. destruct (entries a) as [|[d m] l] eqn:El; [by apply elem_of_nil in Hi|].
  destruct (He d m ltac:(left)) as (cb' & Hc). exists m, cb', d. split; [|done].
  cbn in Hi, S. apply elem_of_cons in Hi as [->|Hi]; [lia|]. inversion S as [|? ? _ Hf]; subst. rewrite Forall_forall in Hf. specialize (Hf n Hi). lia.
Qed.
End invariant.

(** ** The properties *)

Lemma new_manager_rep {K R : Type} (limit dataSize pairSize : Z) (trivial : bool) (interval : Z) (s0 : UvRpcManager K R) :
  8 <= dataSize <= 512 -> 0 < pairSize <= 2 ^ 16 -> 0 <= limit -> new_UvRpcManager dataSize pairSize interval = Some s0 ->
  rep limit trivial s0 (MkDesk 0 ∅ [] interval 0 []).
Proof.
  intros Hd Hp Hl E0. unfold new_UvRpcManager in E0. destruct (Z.leb_spec interval 0); [done|].
  destruct (new_Dict dataSize 16) as [d|] eqn:Ed; [|done]. destruct (new_Queue pairSize 8) as [q|] eqn:Eq; [|done]. injection E0 as <-.
  destruct (new_Dict_repr dataSize Hd 16 d Ed) as [Hr Ec]. split; cbn; try done; [lia|].
  destruct (new_Queue_spec (T := Z * Z) pairSize trivial 8) as (q' & Eq' & Hq').
  - lia. - unfold MemHeader_size. change (2 ^ 16) with 65536 in *. change (2 ^ 63) with 9223372036854775808. lia.
  - rewrite Eq in Eq'. by injection Eq' as <-.
Qed.

(** C13. In every session of registrations, responses, cancellations and ticks
    (callbacks that use the manager again included) that keeps within [limit]
    waiting requests, the calls on the table and on the queue are defined and
    have the effects of a finite map and a list; no callback is called twice,
    each is called under the number it was registered with, and a request that
    was neither answered nor cancelled still waits, behind or as one whose
    time-out tick has not come: once the ticks have passed all time-outs,
    every callback has been called. *)
Theorem manager_answers_once {K R : Type} (react : Z -> K -> option R -> list (call K R)) (depth : nat)
    (limit dataSize pairSize : Z) (trivial : bool) (interval : Z) (is_ : list (input K R)) (s0 : UvRpcManager K R) (a : Desk K R) :
  8 <= dataSize <= 512 -> no_shrink dataSize = true -> 0 < pairSize <= 2 ^ 16 -> 0 <= limit -> limit * 2 * dataSize < 2 ^ 31 ->
  new_UvRpcManager dataSize pairSize interval = Some s0 ->
  desk_run react limit depth is_ (MkDesk 0 ∅ [] interval 0 []) = Some a ->
  exists s, run dataSize pairSize trivial react depth is_ s0 = Done tt s /\ log s = seen a /\
    NoDup (called (log s)) /\
    (forall n cb bb, Called n cb bb ∈ log s -> exists due, Registered n cb due ∈ log s) /\
    (forall n cb due, Registered n cb due ∈ log s ->
      n ∈ called (log s) \/ Unregistered n ∈ log s \/
      TryGetValue n (mapping s) = Done (Some cb) (mapping s) /\
      exists n' cb' due', n' <= n /\ Registered n' cb' due' ∈ log s /\ ticks s < due').
Proof.
  intros Hd Hg Hp Hl Hl2 E0 E. pose proof (new_manager_rep limit dataSize pairSize trivial interval s0 Hd Hp Hl E0) as R0.
  destruct (run_rep react limit dataSize pairSize trivial Hd Hg Hp (conj Hl Hl2) depth is_ _ _ _ R0 E) as (s & Es & [Rs Rm Rc Rq Ri Rt Rl Rp]).
  assert (I0 : inv (MkDesk (K := K) (R := R) 0 ∅ [] interval 0 [])).
  { split; cbn; try done; try (by intros; set_solver); try constructor. }
  destruct (inv_run react limit depth is_ _ a I0 I E) as [Ia Fa]. exists s. rewrite Rl, Rt.
  split; [done|]. split; [done|]. split; [apply Ia|]. split; [intros n cb bb Hi; by destruct (inv_called _ Ia n cb bb Hi)|].
  intros n cb due Hi. destruct (inv_registered _ Ia n cb due Hi) as (_ & [Hw|[Hc|Hu]]); [right; right|by left|by right; left].
  split; [rewrite (TryGetValue_repr _ _ n Rm); by rewrite Hw|]. by apply (waiting_later a n cb).
Qed.

(** Request 1 is answered; its callback makes request 3.  Request 2 and then
    3 time out, 4 is cancelled. *)
Definition manager_react (n : Z) (cb : Z) (bb : option Z) : list (call Z Z) := if cb =? 10 then [CRegister 30 2] else [].
Definition manager_session : list (input Z Z) :=
  [Call (CRegister 10 0); Call (CRegister 20 1); Call (CCallback 1 (Some 7)); Tick; Call (CCallback 1 (Some 8)); Call (CRegister 40 0); Call (CUnregister 4);
   Tick; Tick; Tick; Tick].

Lemma manager_answers_once_witness : exists (s0 s : UvRpcManager Z Z),
  new_UvRpcManager 48 8 2 = Some s0 /\ run 48 8 true manager_react 3 manager_session s0 = Done tt s /\
  called (log s) = [1; 2; 3] /\ NoDup (called (log s)).
Proof.
  assert (H0 : exists s0, new_UvRpcManager (K := Z) (R := Z) 48 8 2 = Some s0) by (eexists; vm_compute; reflexivity). destruct H0 as [s0 E0].
  assert (Ha : exists a, desk_run manager_react 100 3 manager_session (MkDesk 0 ∅ [] 2 0 []) = Some a /\ called (seen a) = [1; 2; 3]).
  { eexists. split; [vm_compute; reflexivity|]. reflexivity. }
  destruct Ha as (a & Ea & Ec). destruct (manager_answers_once manager_react 3 100 48 8 true 2 manager_session s0 a) as (s & Es & El & Hn & _);
    [lia|by vm_compute|lia|lia|lia|exact E0|exact Ea|].
  exists s0, s. split; [exact E0|]. split; [exact Es|]. rewrite El in *. split; [exact Ec|exact Hn].
Defined.

(** The time-outs are queued in the order of registration: a request with a
    short time-out behind one with a long time-out waits for the latter. *)
Lemma manager_late_timeout : exists (s0 s : UvRpcManager Z Z),
  new_UvRpcManager 48 8 2 = Some s0 /\
  run 48 8 true (fun _ _ _ => []) 1 (Call (CRegister 10 50) :: Call (CRegister 20 1) :: replicate 49 Tick) s0 = Done tt s /\
  ticks s = 49 /\ log s = [Registered 1 10 50; Registered 2 20 1].
Proof. eexists _, _. split; [vm_compute; reflexivity|]. split; [vm_compute; reflexivity|]. by vm_compute. Qed.
