(* ===== verification/Packets.v ===== *)
(** * xx_uv.cpp, xx_uv.hpp of test_uv_4: packages, requests and routing

    A package is a mask, a length of two or four bytes, and that many bytes of
    address (if it is routed), serial number (if it is a request or a response)
    and content.  Bits 0 and 1 of the mask: package, request or response; bit
    2: four bytes of length; bit 3: an address, whose length less one is in the
    upper half.

    [Send] and its variants build a package in [bbSend]; [ReceiveImpl] takes
    packages out of [bbRecv]; a routing server passes packages on with
    [SendRoutingByRouter], which puts the address of the sender in the place of
    the address of the receiver. *)

From Stdlib Require Import ZArith Lia.
From stdpp Require Import base numbers list gmap.
From S2P Require Import Prelude Util BBuffer Bytes.
Open Scope Z_scope.

(** ** Sending *)

(** [bbSend.Clear(); bbSend.Reserve(5); bbSend.dataLen = 5;] *)
Definition begin_send : M Bytes.BBuffer unit :=
  _ ← modify (fun bb => set_offset 0 (set_dataLen 0 bb));
  _ ← Bytes.Reserve 5;
  modify (set_dataLen 5).

(** The header goes in front of the data; what is handed to [SendBytes]. *)
Definition finish_send (mask : Z) : M Bytes.BBuffer bytes :=
  bb ← get;
  let n := u64 (dataLen bb - 5) in
  if n <=? 65535 then
    _ ← store 2 [u8 mask; u8 n; u8 (Z.shiftr n 8)];
    load_range 2 (i32 (n + 3))
  else
    _ ← store 0 [u8 (Z.lor mask 4); u8 n; u8 (Z.shiftr n 8); u8 (Z.shiftr n 16); u8 (Z.shiftr n 24)];
    load_range 0 (i32 (n + 5)).

(** [XXXX1000] with the length of the address. *)
Definition routing_mask (kind len : Z) : Z := u8 (Z.lor (8 + kind) (Z.shiftl (u64 (len - 1)) 4)).

Definition write_serial (n : Z) : M Bytes.BBuffer unit := Bytes.Write (Num (t := U32) n).

(** [body] writes the message, by [WriteBuf] or [WriteRoot]. *)
Definition Send (body : M Bytes.BBuffer unit) : M Bytes.BBuffer bytes :=
  _ ← begin_send; _ ← body; finish_send 0.
(** What [SendRequest] sends; the serial number comes from the manager. *)
Definition request_packet (serial : Z) (body : M Bytes.BBuffer unit) : M Bytes.BBuffer bytes :=
  _ ← begin_send; _ ← write_serial serial; _ ← body; finish_send 1.
Definition SendResponse (serial : Z) (body : M Bytes.BBuffer unit) : M Bytes.BBuffer bytes :=
  _ ← begin_send; _ ← write_serial serial; _ ← body; finish_send 2.
Definition SendRouting (addr : bytes) (body : M Bytes.BBuffer unit) : M Bytes.BBuffer bytes :=
  _ ← begin_send; _ ← WriteBuf addr; _ ← body; finish_send (routing_mask 0 (zlen addr)).
Definition routing_request_packet (addr : bytes) (serial : Z) (body : M Bytes.BBuffer unit) : M Bytes.BBuffer bytes :=
  _ ← begin_send; _ ← WriteBuf addr; _ ← write_serial serial; _ ← body; finish_send (routing_mask 1 (zlen addr)).
Definition SendRoutingResponse (addr : bytes) (serial : Z) (body : M Bytes.BBuffer unit) : M Bytes.BBuffer bytes :=
  _ ← begin_send; _ ← WriteBuf addr; _ ← write_serial serial; _ ← body; finish_send (routing_mask 2 (zlen addr)).

(** The package that tells a client its own address. *)
Definition SendRoutingAddress (buf : bytes) : M Bytes.BBuffer bytes :=
  _ ← assert_ (zlen buf <=? 16);
  _ ← modify (fun bb => set_offset 0 (set_dataLen 0 bb));
  _ ← Bytes.Reserve (u64 (3 + zlen buf));
  _ ← store 0 ([0; u8 (zlen buf); u8 (Z.shiftr (zlen buf) 8)] ++ buf);
  load_range 0 (i32 (3 + zlen buf)).

(** ** Receiving *)

(** What an event function gets, with [bbRecv] as it then is. *)
Inductive delivery :=
| Package (rb : Bytes.BBuffer)
| Request (serial : Z) (rb : Bytes.BBuffer)
| Response (serial : Z) (rb : Bytes.BBuffer)
| Routing (rb : Bytes.BBuffer) (pkgLen addrOffset addrLen : Z).

(** What the peer is when an event function has returned. *)
Inductive fate := Alive | Disconnected | Released.

Section receive.
Context {A : Type}.

Record Peer := MkPeer {
  bbRecv : Bytes.BBuffer;
  routingAddress : bytes;
  senderAddress : bytes;
  app : A
}.

(** The application: its answer to an event (nothing happens when the function
    is not set), given the address of the sender; the buffer is what it has made
    of [bbRecv].  [disconnect] is what [DisconnectImpl] does. *)
Context (handle : delivery -> bytes -> A -> fate * Bytes.BBuffer * A) (disconnect : A -> A).

Definition set_recv (b : Bytes.BBuffer) (p : Peer) : Peer := MkPeer b (routingAddress p) (senderAddress p) (app p).
Definition set_sender (b : bytes) (p : Peer) : Peer := MkPeer (bbRecv p) (routingAddress p) b (app p).
Definition set_app (a : A) (p : Peer) : Peer := MkPeer (bbRecv p) (routingAddress p) (senderAddress p) a.

Definition on_recv {B} (m : M Bytes.BBuffer B) : M Peer B := fun p =>
  match m (bbRecv p) with
  | Done a b => Done a (set_recv b p)
  | Fail e b => Fail e (set_recv b p)
  | Undef => Undef
  end.

Definition clear_recv (p : Peer) : Peer := set_recv (set_offset 0 (set_dataLen 0 (bbRecv p))) p.

(** Call an event function, and whether to go on:
    [if (IsReleased(vn) || !bbRecv.dataLen) return; if (Disconnected()) { bbRecv.Clear(); return; }]. *)
Definition deliver (d : Bytes.BBuffer -> delivery) : M Peer bool := fun p =>
  let '(f, rb, a) := handle (d (bbRecv p)) (senderAddress p) (app p) in
  let p := set_app a (set_recv rb p) in
  match f with
  | Released => Done false p
  | _ =>
      if dataLen rb =? 0 then Done false p
      else match f with Disconnected => Done false (clear_recv p) | _ => Done true p end
  end.

(** [(buf[3] << 16) + (buf[4] << 24)], an [int]. *)
Definition high_len (b3 b4 : Z) : Z := i32 (Z.shiftl b3 16 + i32 (Z.shiftl b4 24)).

(** [typeId & n]. *)
Definition bit (n typeId : Z) : bool := 0 <? Z.land typeId n.

(** Length of the header and of the data; [None]: more bytes are needed. *)
Definition read_header (offset : Z) : M Bytes.BBuffer (option (Z * Z * Z)) :=
  bb ← get;
  typeId ← load offset; b1 ← load (offset + 1); b2 ← load (offset + 2);
  let n := u64 (b1 + Z.shiftl b2 8) in
  if bit 4 typeId then
    if dataLen bb <? u64 (offset + 5) then mret None
    else
      b3 ← load (offset + 3); b4 ← load (offset + 4);
      mret (Some (typeId, 5, u64 (n + u64 (high_len b3 b4))))
  else mret (Some (typeId, 3, n)).

(** From [LabAfterAddress] on: [offset] is behind the header.  (The position
    of the header also goes to [offsetRoot], the origin of object references,
    which this buffer does not have.) *)
Definition receive_package (typeId offset addrLen n : Z) : M Peer bool :=
  _ ← on_recv (modify (fun bb => MkBBuffer (cells bb) (dataLen bb) (u64 (offset + addrLen)) (u64 (offset + n))));
  let pkgType := Z.land typeId 3 in
  if pkgType =? 0 then deliver Package
  else
    fun p =>
      match on_recv (Bytes.Read (T := num U32)) p with
      | Done v p =>
          (if pkgType =? 1 then deliver (Request (num_val v))
           else if pkgType =? 2 then deliver (Response (num_val v))
           else mret true) p
      | Fail _ p => Done false (set_app (disconnect (app p)) p)
      | Undef => Undef
      end.

(** The [while] loop: the final [offset]; [None] when it has returned. *)
Fixpoint receive_loop (fuel : nat) (offset : Z) : M Peer (option Z) :=
  match fuel with
  | O => undef
  | S fuel =>
      p ← get;
      if dataLen (bbRecv p) <? u64 (offset + 3) then mret (Some offset)
      else
        h ← on_recv (read_header offset);
        match h with
        | None => mret (Some offset)
        | Some (typeId, headerLen, n) =>
            if n <=? 0 then _ ← modify (fun p => set_app (disconnect (app p)) p); mret None
            else if dataLen (bbRecv p) <? u64 (offset + headerLen + n) then mret (Some offset)
            else
              let pkgOffset := offset in
              let offset := u64 (offset + headerLen) in
              go ← (if bit 8 typeId then
                      let addrLen := Z.shiftr typeId 4 + 1 in
                      if 0 <? zlen (routingAddress p) then
                        a ← on_recv (load_range offset addrLen);
                        _ ← modify (set_sender a);
                        receive_package typeId offset addrLen n
                      else
                        _ ← on_recv (modify (set_offset pkgOffset));
                        deliver (fun rb => Routing rb (u64 (offset + n - pkgOffset)) offset addrLen)
                    else
                      _ ← modify (set_sender []);
                      receive_package typeId offset 0 n);
              if go : bool then receive_loop fuel (u64 (offset + n)) else mret None
        end
  end.

(** One round more than there are bytes. *)
Definition ReceiveImpl (recv : bytes) : M Peer unit :=
  _ ← on_recv (WriteBuf recv);
  p ← get;
  r ← receive_loop (S (Z.to_nat (dataLen (bbRecv p)))) 0;
  match r with
  | None => mret tt
  | Some offset =>
      p ← get;
      let bb := bbRecv p in
      _ ← (if offset <? dataLen bb
           then rest ← on_recv (load_range offset (dataLen bb - offset)); on_recv (store 0 rest)
           else mret tt);
      on_recv (modify (set_dataLen (u64 (dataLen bb - offset))))
  end.

Fixpoint receive_all (chunks : list bytes) : M Peer unit :=
  match chunks with
  | [] => mret tt
  | c :: cs => _ ← ReceiveImpl c; receive_all cs
  end.
End receive.
Arguments Peer : clear implicits.

(** ** Routing *)

(** [GetRoutingAddressLength(bb)]: the length of the package that is read. *)
Definition GetRoutingAddressLength : M Bytes.BBuffer Z :=
  bb ← get;
  b0 ← load (offset bb - 2); b1 ← load (offset bb - 1); mret (b0 + Z.shiftl b1 8).

(** The states of [bb], the buffer with the received package, and of
    [bbSend], that of the peer to which it goes. *)
Definition on_bb {B} (m : M Bytes.BBuffer B) : M (Bytes.BBuffer * Bytes.BBuffer) B := fun s =>
  match m s.1 with
  | Done a b => Done a (b, s.2)
  | Fail e b => Fail e (b, s.2)
  | Undef => Undef
  end.
Definition on_send {B} (m : M Bytes.BBuffer B) : M (Bytes.BBuffer * Bytes.BBuffer) B := fun s =>
  match m s.2 with
  | Done a b => Done a (s.1, b)
  | Fail e b => Fail e (s.1, b)
  | Undef => Undef
  end.

(** [p2[i]]: [p2] is a [char*], and [char] is signed.  (The other functions
    read headers through [uint8_t*].) *)
Definition load_char (i : Z) : M Bytes.BBuffer Z := b ← load i; mret (sint 8 b).

Definition SendRoutingByRouter (pkgLen addrOffset addrLen : Z) (senderAddr : bytes) : M (Bytes.BBuffer * Bytes.BBuffer) bytes :=
  s ← get;
  let p2 := offset s.1 in
  let senderAddrLen := zlen senderAddr in
  typeId ← on_bb (load p2);
  _ ← assert_ (bit 8 typeId);
  if senderAddrLen =? addrLen then
    _ ← on_bb (store addrOffset senderAddr);
    on_bb (load_range p2 (i32 pkgLen))
  else
    _ ← on_send (modify (fun bb => set_offset 0 (set_dataLen 0 bb)));
    let newPkgLen := u64 (pkgLen - addrLen + senderAddrLen) in
    _ ← on_send (Bytes.Reserve newPkgLen);
    b1 ← on_bb (load_char (p2 + 1)); b2 ← on_bb (load_char (p2 + 2));
    let low := u64 (b1 + Z.shiftl b2 8) in
    addr_serial_data_len ← (if bit 4 typeId
                            then b3 ← on_bb (load_char (p2 + 3)); b4 ← on_bb (load_char (p2 + 4));
                                 mret (u64 (u64 (low + u64 (Z.shiftl b3 16)) + u64 (Z.shiftl b4 24)))
                            else mret low);
    let serial_data_len := u64 (addr_serial_data_len - addrLen) in
    let n := u64 (serial_data_len + senderAddrLen) in
    let isBig := bit 4 typeId || (65535 <? n) in
    _ ← (if negb isBig then
           _ ← on_send (store 0 ([Z.land typeId 251; u8 n; u8 (Z.shiftr n 8)] ++ senderAddr));
           rest ← on_bb (load_range (p2 + 3 + addrLen) serial_data_len);
           on_send (store (3 + senderAddrLen) rest)
         else
           _ ← on_send (store 0 ([Z.lor typeId 4; u8 n; u8 (Z.shiftr n 8); u8 (Z.shiftr n 16); u8 (Z.shiftr n 24)] ++ senderAddr));
           rest ← on_bb (load_range (p2 + 5 + addrLen) serial_data_len);
           on_send (store (5 + senderAddrLen) rest));
    on_send (load_range 0 (i32 newPkgLen)).
