(* ===== verification/PacketsSpec.v ===== *)
(** * The format of packages; how a stream of them is sent and received *)

From Stdlib Require Import ZArith Lia.
From stdpp Require Import base numbers list gmap.
From S2P Require Import Prelude Util BBuffer Bytes BytesProps Packets.
Open Scope Z_scope.

(** ** The format *)

(** [kind]: 0 package, 1 request, 2 response. *)
Record packet := MkPacket {
  kind : Z;
  address : option bytes;
  serial : Z;
  content : bytes
}.

Definition payload (p : packet) : bytes :=
  default [] (address p) ++ (if kind p =? 0 then [] else num_enc U32 (serial p)) ++ content p.

Definition mask (p : packet) : Z :=
  match address p with
  | Some a => 8 + kind p + 16 * (zlen a - 1)
  | None => kind p
  end.

Definition len2 (n : Z) : bytes := le_bytes 2 n.
Definition packet_header (m n : Z) : bytes :=
  if n <=? 65535 then m :: le_bytes 2 n else m + 4 :: le_bytes 4 n.
Definition encode (p : packet) : bytes := packet_header (mask p) (zlen (payload p)) ++ payload p.

Record packet_ok (p : packet) : Prop := {
  ok_kind : 0 <= kind p <= 2;
  ok_address a : address p = Some a -> 1 <= zlen a <= 16 /\ Forall is_byte a;
  ok_serial : is_uint 32 (serial p);
  ok_content : Forall is_byte (content p);
  ok_some : 0 < zlen (payload p);
  ok_len : zlen (payload p) < 2 ^ 31 - 5
}.

(** ** Bits of the mask *)

(** The masks that occur, all of them checked. *)
Definition all_masks : list (Z * Z * bool) :=
  k ← seqZ 0 3; l ← seqZ 1 16; [(k, l, false); (k, l, true)].

Lemma in_all_masks k l b : 0 <= k <= 2 -> 1 <= l <= 16 -> (k, l, b) ∈ all_masks.
Proof.
  intros Hk Hl. unfold all_masks. apply list_elem_of_bind. exists k. split; [|apply elem_of_seqZ; lia].
  apply list_elem_of_bind. exists l. split; [|apply elem_of_seqZ; lia]. destruct b; set_solver.
Qed.

Lemma mask_table (P : Z -> Z -> bool -> bool) k l b :
  forallb (fun e => P e.1.1 e.1.2 e.2) all_masks = true -> 0 <= k <= 2 -> 1 <= l <= 16 -> P k l b = true.
Proof. intros H Hk Hl. rewrite forallb_forall in H. apply (H (k, l, b)). by apply list_elem_of_In, in_all_masks. Qed.

Definition raw_mask (k l : Z) (a big : bool) : Z := (if a then 8 + k + 16 * (l - 1) else k) + (if big then 4 else 0).

Definition mask_check (k l : Z) (a big : bool) : bool :=
  let m := raw_mask k l a big in
  (0 <=? m) && (m <? 256) && eqb (bit 4 m) big && eqb (bit 8 m) a && (Z.land m 3 =? k) &&
  (negb a || (Z.shiftr m 4 + 1 =? l)) && (u8 (raw_mask k l a false) =? raw_mask k l a false) &&
  (u8 (Z.lor (raw_mask k l a false) 4) =? raw_mask k l a true) && (routing_mask k l =? raw_mask k l true false) &&
  (Z.land (raw_mask k l a false) 251 =? raw_mask k l a false) && (Z.lor m 4 =? raw_mask k l a true).

Record mask_facts (k l : Z) (a big : bool) : Prop := {
  mf_byte : is_byte (raw_mask k l a big);
  mf_big : bit 4 (raw_mask k l a big) = big;
  mf_addr : bit 8 (raw_mask k l a big) = a;
  mf_kind : Z.land (raw_mask k l a big) 3 = k;
  mf_len : a = true -> Z.shiftr (raw_mask k l a big) 4 + 1 = l;
  mf_u8 : u8 (raw_mask k l a false) = raw_mask k l a false;
  mf_u8_big : u8 (Z.lor (raw_mask k l a false) 4) = raw_mask k l a true;
  mf_routing : routing_mask k l = raw_mask k l true false;
  mf_small : Z.land (raw_mask k l a false) 251 = raw_mask k l a false;
  mf_make_big : Z.lor (raw_mask k l a big) 4 = raw_mask k l a true
}.

Lemma raw_mask_bits k l a big : 0 <= k <= 2 -> 1 <= l <= 16 -> mask_facts k l a big.
Proof.
  intros Hk Hl.
  pose proof (mask_table (fun k l big => mask_check k l true big && mask_check k l false big) k l big ltac:(vm_compute; reflexivity) Hk Hl) as H.
  apply andb_true_iff in H as [Ht Hf]. assert (H : mask_check k l a big = true) by (by destruct a). clear Ht Hf.
  unfold mask_check in H. rewrite !andb_true_iff, !Z.eqb_eq, !eqb_true_iff, Z.leb_le, Z.ltb_lt in H.
  destruct H as ((((((((((H0 & H1) & H2) & H3) & H4) & H5) & H6) & H7) & H8) & H9) & H10).
  split; try done. intros ->. cbn [negb orb] in H5. by apply Z.eqb_eq.
Qed.

(** ** Cells *)

Lemma load_range_at bb a (b : bytes) c i n : cells bb = a ++ (Some <$> b) ++ c -> i = zlen a -> n = zlen b -> load_range i n bb = Done b bb.
Proof.
  intros E -> ->. unfold load_range. rewrite bind_get, E. rewrite <-(zlen_fmap Some b), zslice_mid. cbn [demand]. rewrite bind_mret.
  by rewrite mapM_Some.
Qed.

Lemma store_at bb a x c (bs : bytes) i : cells bb = a ++ x ++ c -> i = zlen a -> zlen x = zlen bs ->
  store i bs bb = Done tt (set_cells (a ++ (Some <$> bs) ++ c) bb).
Proof.
  intros E -> Hx. pose proof (zlen_nonneg a). pose proof (zlen_nonneg c). rewrite store_spec; [|done|].
  2:{ unfold bufLen. rewrite E, !zlen_app. lia. }
  do 2 f_equal. rewrite E. f_equal; [unfold zlen; by rewrite Nat2Z.id, take_app_length|]. f_equal.
  rewrite <-Hx, <-zlen_app, app_assoc. unfold zlen. by rewrite Nat2Z.id, drop_app_length.
Qed.

(** ** Sending *)

(** A function that appends [w]. *)
Definition appends (body : M Bytes.BBuffer unit) (w : bytes) : Prop :=
  forall bb, bb_wf bb -> dataLen bb + zlen w + 64 <= 2 ^ 62 ->
    exists n bb', body bb = Done tt bb' /\ zlen w <= n /\ wrote n w bb bb'.

Lemma appends_WriteBuf w : appends (WriteBuf w) w.
Proof. intros bb W Hl. destruct (write_raw_spec w bb W) as (bb' & E & H); [lia|]. by exists (zlen w), bb'. Qed.

Lemma appends_bind f g u v : appends f u -> appends g v -> appends (_ ← f; g) (u ++ v).
Proof.
  intros Hf Hg bb W Hl. pose proof (zlen_nonneg v). rewrite zlen_app in *. destruct (Hf bb W) as (n1 & bb1 & E1 & L1 & W1); [lia|].
  pose proof W1 as (Wf1 & D1 & _). destruct (Hg bb1 Wf1) as (n2 & bb2 & E2 & L2 & W2); [lia|].
  exists (Z.max n1 (zlen u + n2)), bb2. rewrite (bind_done _ _ _ _ _ E1). split; [done|]. split; [lia|].
  by apply (pool_wrote_trans n1 n2 u v bb bb1 bb2).
Qed.

Lemma appends_serial n : is_uint 32 n -> appends (write_serial n) (num_enc U32 n).
Proof.
  intros Hn bb W Hl. pose proof (num_enc_length U32 n (or_intror (or_intror (or_introl eq_refl))) Hn) as Hz. pose proof (zlen_nonneg (num_enc U32 n)).
  destruct (num_write U32 n bb) as (bb' & E & Wr); [by right; right; left|exact Hn|done|change (num_need U32) with 5 in *; lia|].
  exists (num_need U32), bb'. split; [|split; [done|exact Wr]]. unfold write_serial, Bytes.Write. rewrite (bind_done _ _ _ _ _ E), bind_get.
  destruct Wr as ([[? ?] ?] & _). by destruct (Z.leb_spec (dataLen bb') (bufLen bb')); [|lia].
Qed.

Lemma le2 n : 0 <= n -> [u8 n; u8 (Z.shiftr n 8)] = le_bytes 2 n.
Proof. intros. rewrite Z.shiftr_div_pow2 by lia. done. Qed.

Lemma le4 n : 0 <= n -> [u8 n; u8 (Z.shiftr n 8); u8 (Z.shiftr n 16); u8 (Z.shiftr n 24)] = le_bytes 4 n.
Proof.
  intros. rewrite !Z.shiftr_div_pow2 by lia. change (le_bytes 4 n) with [u8 n; u8 (n / 256); u8 (n / 256 / 256); u8 (n / 256 / 256 / 256)].
  change (2 ^ 8) with 256. change (2 ^ 16) with (256 * 256). change (2 ^ 24) with (256 * 256 * 256). by rewrite !Z.div_div by lia.
Qed.

Lemma set_cells_wf bb cs : bb_wf bb -> zlen cs = bufLen bb -> bb_wf (set_cells cs bb).
Proof. intros [[? ?] ?] E. split; unfold bufLen in *; cbn; rewrite E; [done|done]. Qed.

Lemma finish_send_spec bb pre d c m : bb_wf bb -> cells bb = pre ++ (Some <$> d) ++ c -> zlen pre = 5 -> dataLen bb = 5 + zlen d -> zlen d < 2 ^ 31 - 5 ->
  u8 m = m -> u8 (Z.lor m 4) = m + 4 -> exists bb', finish_send m bb = Done (packet_header m (zlen d) ++ d) bb' /\ bb_wf bb'.
Proof.
  intros Wf E Hp Hd Hl Em Em4. pose proof (zlen_nonneg d). unfold finish_send. rewrite bind_get. rewrite Hd. replace (5 + zlen d - 5) with (zlen d) by lia.
  rewrite uint_small by rng. rewrite Em, Em4. unfold packet_header.
  destruct pre as [|x0 [|x1 [|x2 [|x3 [|x4 [|]]]]]]; try done; try (unfold zlen in Hp; cbn in Hp; lia). clear Hp.
  destruct (Z.leb_spec (zlen d) 65535).
  - rewrite le2 by lia. rewrite (bind_done _ _ _ _ _ (store_at bb [x0; x1] [x2; x3; x4] ((Some <$> d) ++ c) (m :: le_bytes 2 (zlen d)) 2 E eq_refl eq_refl)).
    rewrite sint_small by (lia || rng). exists (set_cells ([x0; x1] ++ (Some <$> m :: le_bytes 2 (zlen d)) ++ (Some <$> d) ++ c) bb). split; [|apply (set_cells_wf bb _ Wf); unfold bufLen; rewrite E, !zlen_app, !zlen_fmap, !zlen_cons, ?le_bytes_zlen, zlen_nil; lia].
    refine (load_range_at _ [x0; x1] ((m :: le_bytes 2 (zlen d)) ++ d) c _ _ _ eq_refl _).
    + cbn [cells set_cells]. by rewrite fmap_app, <-app_assoc.
    + rewrite zlen_app, zlen_cons, le_bytes_zlen. lia.
  - rewrite le4 by lia. rewrite (bind_done _ _ _ _ _ (store_at bb [] [x0; x1; x2; x3; x4] ((Some <$> d) ++ c) (m + 4 :: le_bytes 4 (zlen d)) 0 E eq_refl eq_refl)).
    rewrite sint_small by (lia || rng). exists (set_cells ([] ++ (Some <$> m + 4 :: le_bytes 4 (zlen d)) ++ (Some <$> d) ++ c) bb). split; [|apply (set_cells_wf bb _ Wf); unfold bufLen; rewrite E, !zlen_app, !zlen_fmap, !zlen_cons, ?le_bytes_zlen, zlen_nil; lia].
    refine (load_range_at _ [] ((m + 4 :: le_bytes 4 (zlen d)) ++ d) c _ _ _ eq_refl _).
    + cbn [cells set_cells]. by rewrite fmap_app, <-app_assoc.
    + rewrite zlen_app, zlen_cons, le_bytes_zlen. lia.
Qed.

Lemma send_spec body w m bb : bb_wf bb -> appends body w -> zlen w < 2 ^ 31 - 5 -> u8 m = m -> u8 (Z.lor m 4) = m + 4 ->
  exists bb', (_ ← begin_send; _ ← body; finish_send m) bb = Done (packet_header m (zlen w) ++ w) bb' /\ bb_wf bb'.
Proof.
  intros W Hb Hw Em Em4. pose proof (zlen_nonneg w). unfold begin_send. rewrite bind_assoc, bind_modify.
  set (bb0 := set_offset 0 (set_dataLen 0 bb)).
  assert (W0 : bb_wf bb0) by (destruct W as [[? ?] ?]; split; [unfold bufLen in *; cbn; lia|done]).
  rewrite bind_assoc. destruct (pool_Reserve_spec 5 bb0 W0) as (bb1 & E1 & ((W1 & W1') & D1 & _) & Hc); [lia|].
  rewrite (bind_done _ _ _ _ _ E1), bind_modify. set (bb2 := set_dataLen 5 bb1).
  assert (W2 : bb_wf bb2) by (split; [unfold bufLen in *; cbn; lia|done]).
  destruct (Hb bb2 W2) as (n & bb3 & E3 & _ & (W3 & D3 & _ & _ & c & Ec & _)); [cbn; change (2 ^ 62) with 4611686018427387904; lia|].
  rewrite (bind_done _ _ _ _ _ E3). apply (finish_send_spec bb3 (take 5 (cells bb2)) w c m W3 Ec); try done.
  cbn. rewrite zlen_take. unfold bufLen in Hc. lia.
Qed.

(** What the sending functions hand to [SendBytes]. *)
Definition send_packet (p : packet) (body : M Bytes.BBuffer unit) : M Bytes.BBuffer bytes :=
  match address p, kind p with
  | None, 0 => Send body
  | None, 1 => request_packet (serial p) body
  | None, _ => SendResponse (serial p) body
  | Some a, 0 => SendRouting a body
  | Some a, 1 => routing_request_packet a (serial p) body
  | Some a, _ => SendRoutingResponse a (serial p) body
  end.

Lemma mask_raw p : packet_ok p -> exists l a, 1 <= l <= 16 /\ mask p = raw_mask (kind p) l a false /\ (a = true <-> is_Some (address p)) /\
  (forall ad, address p = Some ad -> l = zlen ad).
Proof.
  intros H. unfold mask, raw_mask. destruct (address p) as [ad|] eqn:E.
  - destruct (ok_address _ H ad E) as [Hl _]. exists (zlen ad), true. split; [done|]. split; [lia|]. split; [split; [by eexists|done]|by intros ? [= ->]].
  - exists 1, false. split; [lia|]. split; [lia|]. split; [split; [done|by intros [? ?]]|done].
Qed.

Lemma send_packet_spec p body bb : packet_ok p -> bb_wf bb -> appends body (content p) ->
  exists bb', send_packet p body bb = Done (encode p) bb' /\ bb_wf bb'.
Proof.
  intros H W Hb. pose proof (ok_kind _ H) as Hk. pose proof (ok_len _ H) as Hl. destruct (mask_raw p H) as (l & a & Hlr & Em & _ & Hla).
  destruct (raw_mask_bits (kind p) l a false ltac:(lia) Hlr) as [_ _ _ _ _ M1 M2 M3 _ _].
  assert (Hm4 : u8 (Z.lor (mask p) 4) = mask p + 4) by (rewrite Em, M2; unfold raw_mask; lia).
  assert (Hm1 : u8 (mask p) = mask p) by (by rewrite Em).
  assert (Ha : forall w, appends w (payload p) -> exists bb', (_ ← begin_send; _ ← w; finish_send (mask p)) bb = Done (encode p) bb' /\ bb_wf bb').
  { intros w Hw. destruct (send_spec w (payload p) (mask p) bb W Hw Hl Hm1 Hm4) as (bb' & E). exists bb'. exact E. }
  assert (Hs := appends_serial (serial p) (ok_serial _ H)).
  unfold send_packet. unfold payload in Ha. destruct (address p) as [ad|] eqn:Ead; cbn [default from_option id] in Ha.
  - specialize (Hla ad eq_refl). subst l. assert (Er : routing_mask (kind p) (zlen ad) = mask p) by (unfold mask; rewrite Ead, M3; unfold raw_mask; lia).
    assert (kind p = 0 \/ kind p = 1 \/ kind p = 2) as [Ek|[Ek|Ek]] by lia; rewrite Ek in *; cbn [Z.eqb Pos.eqb] in Ha; rewrite <-Er in Ha.
    + destruct (Ha (_ ← WriteBuf ad; body)) as (bb' & E); [by apply appends_bind; [apply appends_WriteBuf|]|].
      exists bb'. split; [|apply E]. rewrite <-(proj1 E). unfold SendRouting. apply bind_ext; [done|]. intros. by rewrite bind_assoc.
    + destruct (Ha (_ ← WriteBuf ad; _ ← write_serial (serial p); body)) as (bb' & E); [apply appends_bind; [apply appends_WriteBuf|by apply appends_bind]|].
      exists bb'. split; [|apply E]. rewrite <-(proj1 E). unfold routing_request_packet. apply bind_ext; [done|]. intros. rewrite bind_assoc. apply bind_ext; [done|]. intros. by rewrite bind_assoc.
    + destruct (Ha (_ ← WriteBuf ad; _ ← write_serial (serial p); body)) as (bb' & E); [apply appends_bind; [apply appends_WriteBuf|by apply appends_bind]|].
      exists bb'. split; [|apply E]. rewrite <-(proj1 E). unfold SendRoutingResponse. apply bind_ext; [done|]. intros. rewrite bind_assoc. apply bind_ext; [done|]. intros. by rewrite bind_assoc.
  - assert (Er : mask p = kind p) by (unfold mask; by rewrite Ead). rewrite Er in Ha.
    assert (kind p = 0 \/ kind p = 1 \/ kind p = 2) as [Ek|[Ek|Ek]] by lia; rewrite Ek in *; cbn [Z.eqb Pos.eqb app] in Ha.
    + by apply Ha.
    + destruct (Ha (_ ← write_serial (serial p); body)) as (bb' & E); [by apply (appends_bind _ _ _ _ Hs Hb)|].
      exists bb'. split; [|apply E]. rewrite <-(proj1 E). unfold request_packet. apply bind_ext; [done|]. intros. by rewrite bind_assoc.
    + destruct (Ha (_ ← write_serial (serial p); body)) as (bb' & E); [by apply (appends_bind _ _ _ _ Hs Hb)|].
      exists bb'. split; [|apply E]. rewrite <-(proj1 E). unfold SendResponse. apply bind_ext; [done|]. intros. by rewrite bind_assoc.
Qed.

(** ** Receiving: what the application can read *)

Inductive view :=
| VPackage (sender content : bytes)
| VRequest (serial : Z) (sender content : bytes)
| VResponse (serial : Z) (sender content : bytes)
| VRouting (package : bytes) (addrStart addrLen : Z).

Definition data_from (rb : Bytes.BBuffer) (i n : Z) : option bytes := zslice (cells rb) i n ≫= mapM id.
Definition unread (rb : Bytes.BBuffer) : option bytes := data_from rb (offset rb) (readLengthLimit rb - offset rb).

Definition view_of (d : delivery) (sender : bytes) : option view :=
  match d with
  | Package rb => VPackage sender <$> unread rb
  | Request n rb => VRequest n sender <$> unread rb
  | Response n rb => VResponse n sender <$> unread rb
  | Routing rb pkgLen addrOffset addrLen =>
      (fun b => VRouting b (addrOffset - offset rb) addrLen) <$> data_from rb (offset rb) pkgLen
  end.

Definition header_len (p : packet) : Z := if zlen (payload p) <=? 65535 then 3 else 5.

(** What a peer with routing address [r] makes of a package. *)
Definition package_view (sender : bytes) (p : packet) : view :=
  if kind p =? 0 then VPackage sender (content p)
  else if kind p =? 1 then VRequest (serial p) sender (content p)
  else VResponse (serial p) sender (content p).
Definition packet_view (r : bytes) (p : packet) : view :=
  match address p with
  | Some a => if 0 <? zlen r then package_view a p else VRouting (encode p) (header_len p) (zlen a)
  | None => package_view [] p
  end.

Lemma data_from_at bb a b c i n : holds (a ++ b ++ c) bb -> i = zlen a -> n = zlen b -> data_from bb i n = Some b.
Proof.
  intros [_ [rest E]] -> ->. unfold data_from. rewrite E, !fmap_app, <-!app_assoc, <-(zlen_fmap Some a), <-(zlen_fmap Some b), zslice_mid.
  apply mapM_Some.
Qed.

Lemma packet_header_zlen m n : zlen (packet_header m n) = if n <=? 65535 then 3 else 5.
Proof. unfold packet_header. destruct (n <=? 65535); by rewrite zlen_cons, le_bytes_zlen. Qed.

Lemma encode_zlen p : zlen (encode p) = header_len p + zlen (payload p).
Proof. unfold encode. by rewrite zlen_app, packet_header_zlen. Qed.

Lemma load_bytes pre (bs : bytes) post bb i k b : holds (pre ++ bs ++ post) bb -> bs !! k = Some b -> i = zlen pre + Z.of_nat k -> load i bb = Done b bb.
Proof.
  intros Hh Hk ->. pose proof (lookup_lt_Some _ _ _ Hk) as Hlt. pose proof (zlen_nonneg pre).
  destruct (load_spec _ bb (zlen pre + Z.of_nat k) Hh) as (b' & Hb & E).
  { rewrite !zlen_app. pose proof (zlen_nonneg post). unfold zlen in *. lia. }
  rewrite znth_app_r in Hb by lia. replace (zlen pre + Z.of_nat k - zlen pre) with (Z.of_nat k) in Hb by lia.
  rewrite znth_app_l in Hb by (unfold zlen; lia). unfold znth in Hb. destruct (Z.ltb_spec (Z.of_nat k) 0); [lia|]. rewrite Nat2Z.id, Hk in Hb. by injection Hb as <-.
Qed.

Lemma u64_pos z : 0 <= z < 2 ^ 63 -> u64 z = z.
Proof. intros. apply uint_small. rng. Qed.

Lemma low_len n : 0 <= n -> u64 (n mod 256 + Z.shiftl (n / 256 mod 256) 8) = n mod 65536.
Proof.
  intros. rewrite Z.shiftl_mul_pow2 by lia. change (2 ^ 8) with 256. change 65536 with (256 * 256). rewrite Z.rem_mul_r by lia.
  rewrite u64_pos; [lia|]. pose proof (Z.mod_pos_bound n 256). pose proof (Z.mod_pos_bound (n / 256) 256).
  change (2 ^ 63) with 9223372036854775808. lia.
Qed.

Lemma full_len n : 65535 < n < 2 ^ 31 ->
  u64 (n mod 65536 + u64 (high_len (n / 256 / 256 mod 256) (n / 256 / 256 / 256 mod 256))) = n.
Proof.
  change (2 ^ 31) with 2147483648. intros Hn. unfold high_len. rewrite !Z.shiftl_mul_pow2 by lia. change (2 ^ 16) with 65536. change (2 ^ 24) with 16777216.
  rewrite !Z.div_div by lia. change (256 * 256) with 65536. change (65536 * 256) with 16777216.
  pose proof (Z.div_mod n 65536 ltac:(lia)). pose proof (Z.div_mod (n / 65536) 256 ltac:(lia)). rewrite Z.div_div in * by lia. change (65536 * 256) with 16777216 in *.
  pose proof (Z.mod_pos_bound n 65536 ltac:(lia)). pose proof (Z.mod_pos_bound (n / 65536) 256 ltac:(lia)).
  assert (0 <= n / 16777216 < 128) by (split; [apply Z.div_pos; lia|apply Z.div_lt_upper_bound; lia]).
  rewrite (Z.mod_small (n / 16777216)) by lia.
  rewrite (sint_small 32 (n / 16777216 * _)) by (lia || rng). rewrite sint_small by (lia || rng).
  rewrite (u64_pos (_ * 65536 + _)) by (change (2 ^ 63) with 9223372036854775808; lia). rewrite u64_pos; change (2 ^ 63) with 9223372036854775808; lia.
Qed.

(** A mask and what its bits say, the length bit aside. *)
Definition mask_like (m : Z) : Prop := bit 4 m = false /\ bit 4 (m + 4) = true.

Lemma mask_mask_like p : packet_ok p -> mask_like (mask p).
Proof.
  intros H. pose proof (ok_kind _ H). destruct (mask_raw p H) as (l & a & Hl & -> & _).
  pose proof (mf_big _ _ _ _ (raw_mask_bits (kind p) l a false ltac:(lia) Hl)). pose proof (mf_big _ _ _ _ (raw_mask_bits (kind p) l a true ltac:(lia) Hl)).
  split; [done|]. by replace (raw_mask (kind p) l a false + 4) with (raw_mask (kind p) l a true) by (unfold raw_mask; lia).
Qed.

Definition sent_mask (m n : Z) : Z := if n <=? 65535 then m else m + 4.

Lemma read_header_spec pre m n post bb : holds (pre ++ packet_header m n ++ post) bb -> mask_like m -> 0 <= n < 2 ^ 31 ->
  zlen pre < 2 ^ 62 ->
  read_header (zlen pre) bb = Done (Some (sent_mask m n, if n <=? 65535 then 3 else 5, n)) bb.
Proof.
  intros Hh [Hs Hb] Hn Hp. pose proof (zlen_nonneg pre). unfold read_header, packet_header, sent_mask in *. rewrite bind_get.
  destruct (Z.leb_spec n 65535) as [Hle|Hgt].
  - change (m :: le_bytes 2 n) with [m; n mod 256; n / 256 mod 256] in Hh.
    rewrite (bind_done _ _ _ _ _ (load_bytes pre _ post bb (zlen pre) 0 _ Hh eq_refl ltac:(lia))).
    rewrite (bind_done _ _ _ _ _ (load_bytes pre _ post bb (zlen pre + 1) 1 _ Hh eq_refl ltac:(lia))).
    rewrite (bind_done _ _ _ _ _ (load_bytes pre _ post bb (zlen pre + 2) 2 _ Hh eq_refl ltac:(lia))).
    rewrite Hs, low_len, Z.mod_small by lia. done.
  - change (m + 4 :: le_bytes 4 n) with [m + 4; n mod 256; n / 256 mod 256; n / 256 / 256 mod 256; n / 256 / 256 / 256 mod 256] in Hh.
    rewrite (bind_done _ _ _ _ _ (load_bytes pre _ post bb (zlen pre) 0 _ Hh eq_refl ltac:(lia))).
    rewrite (bind_done _ _ _ _ _ (load_bytes pre _ post bb (zlen pre + 1) 1 _ Hh eq_refl ltac:(lia))).
    rewrite (bind_done _ _ _ _ _ (load_bytes pre _ post bb (zlen pre + 2) 2 _ Hh eq_refl ltac:(lia))).
    rewrite Hb, (proj1 Hh), u64_pos by (change (2 ^ 62) with 4611686018427387904 in *; change (2 ^ 63) with 9223372036854775808; lia).
    destruct (Z.ltb_spec (zlen (pre ++ [m + 4; n mod 256; n / 256 mod 256; n / 256 / 256 mod 256; n / 256 / 256 / 256 mod 256] ++ post)) (zlen pre + 5)) as [Hlt|].
    { rewrite !zlen_app in Hlt. pose proof (zlen_nonneg post). unfold zlen at 2 in Hlt. cbn in Hlt. lia. }
    rewrite (bind_done _ _ _ _ _ (load_bytes pre _ post bb (zlen pre + 3) 3 _ Hh eq_refl ltac:(lia))).
    rewrite (bind_done _ _ _ _ _ (load_bytes pre _ post bb (zlen pre + 4) 4 _ Hh eq_refl ltac:(lia))).
    rewrite low_len by lia. rewrite full_len by lia. done.
Qed.

(** ** Receiving one package *)

Definition buffer (d : delivery) : Bytes.BBuffer :=
  match d with Package rb | Request _ rb | Response _ rb | Routing rb _ _ _ => rb end.
Definition package_end (d : delivery) : Z :=
  match d with Package rb | Request _ rb | Response _ rb => readLengthLimit rb | Routing rb pkgLen _ _ => offset rb + pkgLen end.

(** The buffer is still there, and what is behind the package is the same. *)
Definition leaves (rb : Bytes.BBuffer) (e : Z) (rb' : Bytes.BBuffer) : Prop :=
  (bb_wf rb -> bb_wf rb') /\
  forall x post, holds (x ++ post) rb -> zlen x = e -> exists x', holds (x' ++ post) rb' /\ zlen x' = zlen x.

(** An application that takes what it is given, and goes on. *)
Definition goes_on {A} (accepts : view -> Prop) (handle : delivery -> bytes -> A -> fate * Bytes.BBuffer * A) (h : view -> A -> A) : Prop :=
  forall d sender a v, view_of d sender = Some v -> accepts v ->
    exists rb, handle d sender a = (Alive, rb, h v a) /\ leaves (buffer d) (package_end d) rb.

Lemma leaves_cursor rb e o l : leaves rb e (MkBBuffer (cells rb) (dataLen rb) o l).
Proof. split; [done|]. intros x post H Hx. by exists x. Qed.

Section receiving.
Context {A : Type} (handle : delivery -> bytes -> A -> fate * Bytes.BBuffer * A) (disconnect : A -> A) (h : view -> A -> A).
Context (accepts : view -> Prop) (keeps : goes_on accepts handle h).
Implicit Types (P : Peer A) (a : A) (data r : bytes).

Record ready data r a P : Prop := {
  rd_holds : holds data (bbRecv P);
  rd_wf : bb_wf (bbRecv P);
  rd_routing : routingAddress P = r;
  rd_app : app P = a
}.

Lemma on_recv_done {B} (m : M Bytes.BBuffer B) P v b : m (bbRecv P) = Done v b -> on_recv m P = Done v (set_recv b P).
Proof. unfold on_recv. by intros ->. Qed.

Lemma on_recv_same {B} (m : M Bytes.BBuffer B) P v : m (bbRecv P) = Done v (bbRecv P) -> on_recv m P = Done v P.
Proof. intros E. rewrite (on_recv_done _ _ _ _ E). by destruct P. Qed.

Lemma bind_recv_modify {B} f (g : M (Peer A) B) P : (_ ← on_recv (modify f); g) P = g (set_recv (f (bbRecv P)) P).
Proof. done. Qed.

(** [x]: what is in front and the package; the application can have changed it. *)
Lemma deliver_spec d P v data r a x post : ready data r a P -> view_of (d (bbRecv P)) (senderAddress P) = Some v -> accepts v ->
  buffer (d (bbRecv P)) = bbRecv P -> package_end (d (bbRecv P)) = zlen x -> data = x ++ post -> 0 < zlen data ->
  exists P' x', deliver handle d P = Done true P' /\ zlen x' = zlen x /\ ready (x' ++ post) r (h v a) P'.
Proof.
  intros [R1 R2 R3 R4] Hv Hacc Hb He -> Hpos. destruct (keeps _ _ (app P) v Hv Hacc) as (rb & E & Wf & Hd). rewrite Hb in *.
  destruct (Hd x post R1 (eq_sym He)) as (x' & H & Hz). unfold deliver. rewrite E, (proj1 H), zlen_app, Hz, <-zlen_app.
  destruct (Z.eqb_spec (zlen (x ++ post)) 0); [lia|]. eexists _, x'. split; [reflexivity|]. split; [done|]. split; cbn; try done; [by apply Wf|by rewrite R4].
Qed.

Lemma ready_cursor data r a P o l : ready data r a P ->
  ready data r a (set_recv (MkBBuffer (cells (bbRecv P)) (dataLen (bbRecv P)) o l) P).
Proof. intros [R1 R2 R3 R4]. by split. Qed.

(** [data] is what is in front, the rest of the package and what is behind. *)
Lemma receive_package_spec pre ad sr ct post data r a P k n typeId offset :
  data = pre ++ ad ++ sr ++ ct ++ post -> ready data r a P -> 0 < zlen data <= 2 ^ 62 -> Z.land typeId 3 = k -> 0 <= k <= 2 ->
  sr = (if k =? 0 then [] else num_enc U32 n) -> is_uint 32 n -> offset = zlen pre ->
  accepts (if k =? 0 then VPackage (senderAddress P) ct else if k =? 1 then VRequest n (senderAddress P) ct else VResponse n (senderAddress P) ct) ->
  exists P' x', receive_package handle disconnect typeId offset (zlen ad) (zlen (ad ++ sr ++ ct)) P = Done true P' /\
    zlen x' = zlen (pre ++ ad ++ sr ++ ct) /\ ready (x' ++ post) r (h (if k =? 0 then VPackage (senderAddress P) ct else if k =? 1 then VRequest n (senderAddress P) ct
                     else VResponse n (senderAddress P) ct) a) P'.
Proof.
  intros Ed R Hl Hk Hkr Es Hn -> Hacc. pose proof (zlen_nonneg pre). pose proof (zlen_nonneg ad). pose proof (zlen_nonneg sr). pose proof (zlen_nonneg ct).
  pose proof (zlen_nonneg post). assert (Hz : zlen data = zlen pre + zlen ad + zlen sr + zlen ct + zlen post) by (rewrite Ed, !zlen_app; lia).
  change (2 ^ 62) with 4611686018427387904 in Hl.
  unfold receive_package. rewrite bind_recv_modify, Hk.
  assert (Hx : zlen pre + (zlen ad + (zlen sr + zlen ct)) = zlen (pre ++ ad ++ sr ++ ct)) by (by rewrite !zlen_app).
  rewrite !zlen_app, !u64_pos by (change (2 ^ 63) with 9223372036854775808; lia).
  set (bb := MkBBuffer _ _ (zlen pre + zlen ad) _). pose proof (ready_cursor _ _ _ _ (zlen pre + zlen ad) (zlen pre + (zlen ad + (zlen sr + zlen ct))) R) as R1.
  fold bb in R1. assert (Hb : holds data bb) by (by destruct R as [[? ?] _ _ _]).
  assert (Hct : forall o, o = zlen pre + zlen ad + zlen sr -> unread (set_offset o bb) = Some ct).
  { intros o ->. unfold unread. eapply (data_from_at _ (pre ++ ad ++ sr) ct post); [|cbn; rewrite !zlen_app; lia|cbn; lia].
    rewrite <-!app_assoc. by rewrite <-Ed. }
  destruct (Z.eqb_spec k 0) as [->|Hk0].
  - subst sr. rewrite Hx. apply (deliver_spec Package _ _ data r a (pre ++ ad ++ [] ++ ct) post R1); [|exact Hacc|done|exact Hx|by rewrite Ed, <-!app_assoc|lia].
    cbn [view_of bbRecv set_recv senderAddress].
    specialize (Hct (zlen pre + zlen ad) ltac:(rewrite zlen_nil; lia)). change (set_offset (zlen pre + zlen ad) bb) with bb in Hct. by rewrite Hct.
  - assert (Er : Bytes.Read (T := num U32) bb = Done (Num n) (set_offset (zlen pre + zlen ad + zlen sr) bb)).
    { subst sr. unfold Bytes.Read. rewrite <-zlen_app. apply (num_read U32 n bb (pre ++ ad) (ct ++ post)); [by right; right; left|done| | |cbn; by rewrite zlen_app].
      - rewrite <-!app_assoc. by rewrite <-Ed.
      - rewrite <-!app_assoc, <-Ed. change (2 ^ 62) with 4611686018427387904; apply Hl. }
    unfold on_recv at 1. cbn [bbRecv set_recv]. rewrite Er, Hx. cbn [num_val].
    assert (R2 : ready data r a (set_recv (set_offset (zlen pre + zlen ad + zlen sr) bb) P)) by (by apply (ready_cursor data r a P)).
    specialize (Hct _ eq_refl).
    assert (Hd : forall d v, view_of (d (set_offset (zlen pre + zlen ad + zlen sr) bb)) (senderAddress P) = Some v -> accepts v ->
      (forall b, buffer (d b) = b /\ package_end (d b) = readLengthLimit b) ->
      exists P' x', deliver handle d (set_recv (set_offset (zlen pre + zlen ad + zlen sr) bb) P) = Done true P' /\
        zlen x' = zlen (pre ++ ad ++ sr ++ ct) /\ ready (x' ++ post) r (h v a) P').
    { intros d v Hv Hac Hbd. apply (deliver_spec d _ v data r a (pre ++ ad ++ sr ++ ct) post R2 Hv Hac); [apply Hbd| |by rewrite Ed, <-!app_assoc|lia].
      rewrite (proj2 (Hbd _)). exact Hx. }
    assert (k = 1 \/ k = 2) as [->| ->] by lia; cbn [Z.eqb Pos.eqb]; apply Hd; try done; cbn [view_of]; by rewrite Hct.
Qed.

Lemma sent_mask_facts p : packet_ok p -> let m := sent_mask (mask p) (zlen (payload p)) in
  Z.land m 3 = kind p /\ (bit 8 m = true <-> is_Some (address p)) /\ (forall ad, address p = Some ad -> Z.shiftr m 4 + 1 = zlen ad).
Proof.
  intros H m. pose proof (ok_kind _ H). destruct (mask_raw p H) as (l & a & Hl & Em & Ha & Hla).
  assert (E : m = raw_mask (kind p) l a (negb (zlen (payload p) <=? 65535))).
  { unfold m, sent_mask. rewrite Em. destruct (zlen (payload p) <=? 65535); [done|]. unfold raw_mask. cbn. lia. }
  destruct (raw_mask_bits (kind p) l a (negb (zlen (payload p) <=? 65535)) ltac:(lia) Hl) as [_ _ F1 F2 F3 _ _ _ _ _].
  rewrite E. split; [done|]. split; [by rewrite F1|]. intros ad Ead. rewrite (F3 (proj2 Ha (ex_intro _ ad Ead))). by apply Hla.
Qed.

Definition fits r p : Prop := packet_ok p /\ accepts (packet_view r p).

Lemma receive_step pre pk post data r a P fuel : fits r pk -> data = pre ++ encode pk ++ post -> ready data r a P -> zlen data <= 2 ^ 62 ->
  exists P' x, receive_loop handle disconnect (S fuel) (zlen pre) P = receive_loop handle disconnect fuel (zlen x) P' /\
    zlen x = zlen pre + zlen (encode pk) /\ ready (x ++ post) r (h (packet_view r pk) a) P'.
Proof.
  intros [Hok Hacc] Ed R Hl. pose proof (zlen_nonneg pre). pose proof (zlen_nonneg post). pose proof (ok_len _ Hok) as Hn. pose proof (ok_some _ Hok) as Hn0.
  change (2 ^ 31) with 2147483648 in Hn. change (2 ^ 62) with 4611686018427387904 in Hl.
  assert (Hz : zlen data = zlen pre + zlen (encode pk) + zlen post) by (rewrite Ed, !zlen_app; lia).
  pose proof (encode_zlen pk) as He. assert (Hh : header_len pk = 3 \/ header_len pk = 5) by (unfold header_len; destruct (_ <=? _); auto).
  pose proof (rd_holds _ _ _ _ R) as Hb. pose proof Hb as [Hd _].
  cbn [receive_loop]. rewrite bind_get, Hd, u64_pos by (change (2 ^ 63) with 9223372036854775808; lia).
  destruct (Z.ltb_spec (zlen data) (zlen pre + 3)); [lia|].
  assert (Hrh : read_header (zlen pre) (bbRecv P) = Done (Some (sent_mask (mask pk) (zlen (payload pk)), header_len pk, zlen (payload pk))) (bbRecv P)).
  { apply (read_header_spec pre (mask pk) (zlen (payload pk)) (payload pk ++ post)).
    - rewrite app_assoc in Ed. unfold encode in Ed. rewrite <-!app_assoc in Ed. by rewrite <-Ed.
    - by apply mask_mask_like. - change (2 ^ 31) with 2147483648. lia. - change (2 ^ 62) with 4611686018427387904. lia. }
  rewrite (bind_done _ _ _ _ _ (on_recv_same _ _ _ Hrh)). cbv beta iota.
  destruct (Z.leb_spec (zlen (payload pk)) 0); [lia|].
  rewrite (u64_pos (zlen pre + header_len pk)), (u64_pos (zlen pre + header_len pk + _)) by (change (2 ^ 63) with 9223372036854775808; lia).
  destruct (Z.ltb_spec (zlen data) (zlen pre + header_len pk + zlen (payload pk))); [lia|].
  destruct (sent_mask_facts pk Hok) as (F1 & F2 & F3). set (m := sent_mask _ _) in *.
  assert (Hgo : exists P' x, (if bit 8 m then
      let addrLen := Z.shiftr m 4 + 1 in
      if 0 <? zlen (routingAddress P)
      then a0 ← on_recv (load_range (zlen pre + header_len pk) addrLen); _ ← modify (set_sender a0);
           receive_package handle disconnect m (zlen pre + header_len pk) addrLen (zlen (payload pk))
      else _ ← on_recv (modify (set_offset (zlen pre)));
           deliver handle (fun rb => Routing rb (u64 (zlen pre + header_len pk + zlen (payload pk) - zlen pre)) (zlen pre + header_len pk) addrLen)
    else _ ← modify (set_sender []); receive_package handle disconnect m (zlen pre + header_len pk) 0 (zlen (payload pk))) P = Done true P' /\
    zlen x = zlen (pre ++ encode pk) /\ ready (x ++ post) r (h (packet_view r pk) a) P').
  { pose proof (packet_header_zlen (mask pk) (zlen (payload pk))) as Hph. fold (header_len pk) in Hph.
    assert (Ed2 : data = (pre ++ packet_header (mask pk) (zlen (payload pk))) ++ payload pk ++ post) by (rewrite Ed; unfold encode; by rewrite <-!app_assoc).
    assert (Ex : pre ++ encode pk = (pre ++ packet_header (mask pk) (zlen (payload pk))) ++ payload pk) by (unfold encode; by rewrite <-app_assoc).
    set (hdr := packet_header (mask pk) (zlen (payload pk))) in *.
    revert Hacc. unfold packet_view. destruct (address pk) as [ad|] eqn:Ead.
    - rewrite (proj2 F2) by eauto. rewrite (F3 ad eq_refl). cbv zeta. rewrite (rd_routing _ _ _ _ R). destruct (Z.ltb_spec 0 (zlen r)); intros Hacc.
      + set (sr := if kind pk =? 0 then [] else num_enc U32 (serial pk)).
        assert (Ep : payload pk = ad ++ sr ++ content pk) by (unfold payload; by rewrite Ead).
        rewrite (bind_done _ _ _ ad P).
        2:{ apply on_recv_same. destruct Hb as [_ [rest Ec]]. eapply (load_range_at _ (Some <$> (pre ++ hdr)) ad ((Some <$> (sr ++ content pk ++ post)) ++ rest)).
            - rewrite Ec, Ed2, Ep, !fmap_app, <-!app_assoc. done. - rewrite zlen_fmap, zlen_app, Hph. lia. - done. }
        rewrite bind_modify. assert (R' : ready data r a (set_sender ad P)) by (by destruct R).
        rewrite Ex, Ep. apply (receive_package_spec (pre ++ hdr) ad sr (content pk) post data r a (set_sender ad P)); try apply Hok; try done.
        * rewrite Ed2. f_equal. by rewrite Ep, <-!app_assoc. * change (2 ^ 62) with 4611686018427387904; lia. * rewrite zlen_app, Hph. done.
      + rewrite bind_recv_modify.
        apply (deliver_spec _ _ _ data r a (pre ++ encode pk) post); [by apply (ready_cursor data r a P)| |exact Hacc|done| |by rewrite <-app_assoc|lia].
        2:{ cbn. rewrite u64_pos by (change (2 ^ 63) with 9223372036854775808; lia). rewrite zlen_app. lia. }
        cbn [view_of bbRecv set_recv offset set_offset].
        rewrite u64_pos by (change (2 ^ 63) with 9223372036854775808; lia).
        rewrite (data_from_at _ pre (encode pk) post); [|by rewrite <-Ed|done|lia]. cbn. do 2 f_equal. lia.
    - intros Hacc. destruct (bit 8 m) eqn:E8; [by destruct (proj1 F2 eq_refl)|]. rewrite bind_modify.
      set (sr := if kind pk =? 0 then [] else num_enc U32 (serial pk)).
      assert (Ep : payload pk = [] ++ sr ++ content pk) by (unfold payload; by rewrite Ead).
      assert (R' : ready data r a (set_sender [] P)) by (by destruct R).
      rewrite Ex, Ep. change 0 with (zlen (@nil Z)). apply (receive_package_spec (pre ++ hdr) [] sr (content pk) post data r a (set_sender [] P)); try apply Hok; try done.
      * rewrite Ed2. f_equal. by rewrite Ep, <-!app_assoc. * change (2 ^ 62) with 4611686018427387904; lia. * rewrite zlen_app, Hph. done. }
  destruct Hgo as (P' & x & Eg & Hx & R'). exists P', x. rewrite zlen_app in Hx. split; [|done]. cbv zeta. rewrite (bind_done _ _ _ _ _ Eg). cbv iota. by rewrite Hx, He, Z.add_assoc.
Qed.

(** *** An unfinished package *)

(** The beginning of a package that is not there as a whole. *)
Definition partial (rest : bytes) : Prop := exists pk more, packet_ok pk /\ rest ++ more = encode pk /\ more <> [].

Lemma partial_nil : partial [].
Proof.
  exists (MkPacket 0 None 0 [1]), (encode (MkPacket 0 None 0 [1])). split; [|by vm_compute].
  split; cbn; try done; try lia. by repeat constructor.
Qed.

Lemma receive_stop pre rest data r a P fuel : partial rest -> data = pre ++ rest -> ready data r a P -> zlen data <= 2 ^ 62 ->
  receive_loop handle disconnect (S fuel) (zlen pre) P = Done (Some (zlen pre)) P.
Proof.
  intros (pk & more & Hok & Er & Hm) Ed R Hl. pose proof (zlen_nonneg pre). pose proof (zlen_nonneg rest). change (2 ^ 62) with 4611686018427387904 in Hl.
  assert (Hmp : 0 < zlen more) by (destruct more; [done|rewrite zlen_cons; pose proof (zlen_nonneg more); lia]).
  pose proof (ok_len _ Hok) as Hn. pose proof (ok_some _ Hok) as Hn0. change (2 ^ 31) with 2147483648 in Hn.
  assert (Hz : zlen data = zlen pre + zlen rest) by (rewrite Ed, zlen_app; lia).
  assert (Hz2 : zlen rest + zlen more = header_len pk + zlen (payload pk)) by (rewrite <-encode_zlen, <-Er, zlen_app; lia).
  pose proof (rd_holds _ _ _ _ R) as Hb. pose proof Hb as [Hd _].
  cbn [receive_loop]. rewrite bind_get, Hd, u64_pos by (change (2 ^ 63) with 9223372036854775808; lia).
  destruct (Z.ltb_spec (zlen data) (zlen pre + 3)); [done|].
  destruct (Z.leb_spec (header_len pk) (zlen rest)) as [Hfull|Hshort].
  - (* the header is there *)
    destruct (app_split_at rest more (packet_header (mask pk) (zlen (payload pk))) (payload pk)) as (rest' & Er1 & _).
    { exact Er. } { rewrite packet_header_zlen. exact Hfull. }
    assert (Hrh : read_header (zlen pre) (bbRecv P) = Done (Some (sent_mask (mask pk) (zlen (payload pk)), header_len pk, zlen (payload pk))) (bbRecv P)).
    { apply (read_header_spec pre (mask pk) (zlen (payload pk)) rest').
      - by rewrite <-Er1, <-Ed. - by apply mask_mask_like. - change (2 ^ 31) with 2147483648. lia. - change (2 ^ 62) with 4611686018427387904. lia. }
    rewrite (bind_done _ _ _ _ _ (on_recv_same _ _ _ Hrh)). cbv beta iota. destruct (Z.leb_spec (zlen (payload pk)) 0); [lia|].
    assert (Hh : header_len pk = 3 \/ header_len pk = 5) by (unfold header_len; destruct (_ <=? _); auto).
    rewrite u64_pos by (change (2 ^ 63) with 9223372036854775808; lia).
    by destruct (Z.ltb_spec (zlen data) (zlen pre + header_len pk + zlen (payload pk))); [|lia].
  - (* a big package of which only the first length bytes are there *)
    unfold header_len in Hshort. destruct (Z.leb_spec (zlen (payload pk)) 65535) as [Hs|Hs]; [lia|].
    set (n := zlen (payload pk)) in *.
    destruct (app_split_at rest more [mask pk + 4; n mod 256; n / 256 mod 256] ([n / 256 / 256 mod 256; n / 256 / 256 / 256 mod 256] ++ payload pk)) as (rest' & Er1 & _).
    { rewrite Er. unfold encode, packet_header. fold n. by destruct (Z.leb_spec n 65535); [lia|]. }
    { change (zlen [mask pk + 4; n mod 256; n / 256 mod 256]) with 3. lia. }
    assert (Hb2 : holds (pre ++ [mask pk + 4; n mod 256; n / 256 mod 256] ++ rest') (bbRecv P)) by (by rewrite <-Er1, <-Ed).
    rewrite (bind_done (on_recv (read_header (zlen pre))) _ P None P); [done|]. apply on_recv_same. unfold read_header. rewrite bind_get.
    rewrite (bind_done _ _ _ _ _ (load_bytes pre _ rest' _ (zlen pre) 0 _ Hb2 eq_refl ltac:(lia))).
    rewrite (bind_done _ _ _ _ _ (load_bytes pre _ rest' _ (zlen pre + 1) 1 _ Hb2 eq_refl ltac:(lia))).
    rewrite (bind_done _ _ _ _ _ (load_bytes pre _ rest' _ (zlen pre + 2) 2 _ Hb2 eq_refl ltac:(lia))).
    rewrite (proj2 (mask_mask_like _ Hok)), Hd, u64_pos by (change (2 ^ 63) with 9223372036854775808; lia).
    by destruct (Z.ltb_spec (zlen data) (zlen pre + 5)); [|lia].
Qed.

(** ** Streams *)

Definition stream (pks : list packet) : bytes := concat (encode <$> pks).
Definition views r (pks : list packet) a : A := foldl (fun a p => h (packet_view r p) a) a pks.

Lemma encode_pos p : packet_ok p -> 0 < zlen (encode p).
Proof. intros H. rewrite encode_zlen. pose proof (ok_some _ H). unfold header_len. destruct (_ <=? _); lia. Qed.

Lemma receive_loop_spec pks : forall pre rest data r a P fuel, Forall (fits r) pks -> partial rest -> data = pre ++ stream pks ++ rest ->
  ready data r a P -> zlen data <= 2 ^ 62 -> (length (stream pks) < fuel)%nat ->
  exists P' x, receive_loop handle disconnect fuel (zlen pre) P = Done (Some (zlen x)) P' /\ zlen x = zlen pre + zlen (stream pks) /\
    ready (x ++ rest) r (views r pks a) P'.
Proof.
  induction pks as [|pk pks IH]; intros pre rest data r a P fuel Hok Hp Ed R Hl Hf; (destruct fuel as [|fuel]; [lia|]).
  - rewrite (receive_stop pre rest data r a P fuel Hp Ed R Hl). exists P, pre. rewrite Z.add_0_r. split; [done|]. split; [done|]. by rewrite Ed in R.
  - apply Forall_cons in Hok as [Hok1 Hok]. unfold stream in *. cbn [fmap list_fmap concat] in *. rewrite <-app_assoc in Ed.
    destruct (receive_step pre pk (concat (encode <$> pks) ++ rest) data r a P fuel Hok1 Ed R Hl) as (P1 & x & E1 & Hx & R1). rewrite E1.
    assert (Hz : zlen (x ++ concat (encode <$> pks) ++ rest) = zlen data) by (rewrite Ed, !zlen_app, Hx; lia).
    destruct (IH x rest (x ++ concat (encode <$> pks) ++ rest) r (h (packet_view r pk) a) P1 fuel Hok Hp) as (P2 & y & E2 & Hy & R2); [done|done|by rewrite Hz| |].
    { pose proof (encode_pos pk (proj1 Hok1)). rewrite length_app in Hf. unfold zlen in *. lia. }
    exists P2, y. rewrite E2, zlen_app. split; [done|]. split; [lia|exact R2].
Qed.

Lemma ready_write recv data r a P : ready data r a P -> zlen data + zlen recv <= 2 ^ 62 ->
  exists P', on_recv (WriteBuf recv) P = Done tt P' /\ ready (data ++ recv) r a P'.
Proof.
  intros [R1 R2 R3 R4] Hl. destruct (write_raw_spec recv (bbRecv P) R2) as (b & E & Wr); [rewrite (proj1 R1); lia|].
  eexists. split; [by apply on_recv_done|]. split; cbn; try done; [by eapply wrote_holds|by destruct Wr].
Qed.

(** What [memmove] does to the rest. *)
Lemma keep_rest bb x rest c : cells bb = (Some <$> x) ++ (Some <$> rest) ++ c -> bb_wf bb ->
  exists c', load_range (zlen x) (zlen rest) bb = Done rest bb /\ store 0 rest bb = Done tt (set_cells ((Some <$> rest) ++ c') bb) /\
    zlen ((Some <$> rest) ++ c') = bufLen bb.
Proof.
  intros Ec W. set (front := (Some <$> x) ++ (Some <$> rest)). pose proof (zlen_nonneg x).
  assert (Ef : cells bb = [] ++ take (length rest) front ++ (drop (length rest) front ++ c)).
  { rewrite Ec, (app_assoc (Some <$> x)). fold front. rewrite (app_assoc (take _ _)), take_drop. done. }
  assert (Hfl : zlen (take (length rest) front) = zlen rest) by (rewrite zlen_take; unfold front; rewrite zlen_app, !zlen_fmap; unfold zlen in *; lia).
  exists (drop (length rest) front ++ c). split.
  2:{ rewrite (store_at _ _ _ _ rest 0 Ef eq_refl Hfl). split; [done|]. unfold bufLen. rewrite Ef. cbn [app]. rewrite !zlen_app, zlen_fmap, Hfl. done. }
  refine (load_range_at _ (Some <$> x) rest c _ _ Ec _ eq_refl). by rewrite zlen_fmap.
Qed.

Lemma ReceiveImpl_spec left recv pks rest r a P : ready left r a P -> left ++ recv = stream pks ++ rest -> Forall (fits r) pks -> partial rest ->
  zlen left + zlen recv <= 2 ^ 62 ->
  exists P', ReceiveImpl handle disconnect recv P = Done tt P' /\ ready rest r (views r pks a) P'.
Proof.
  intros R Ed Hok Hp Hl. unfold ReceiveImpl. destruct (ready_write recv left r a P R Hl) as (P1 & E1 & R1). rewrite (bind_done _ _ _ _ _ E1), bind_get.
  pose proof (zlen_nonneg rest). pose proof (zlen_nonneg (stream pks)).
  assert (Hz : zlen (left ++ recv) = zlen (stream pks) + zlen rest) by (by rewrite Ed, zlen_app).
  destruct (receive_loop_spec pks [] rest (left ++ recv) r a P1 (S (Z.to_nat (dataLen (bbRecv P1)))) Hok Hp Ed R1) as (P2 & x & E2 & Hx & R2).
  { rewrite zlen_app. lia. } { rewrite (proj1 (rd_holds _ _ _ _ R1)), Hz. unfold zlen. lia. }
  change (zlen []) with 0 in E2, Hx. rewrite (bind_done _ _ _ _ _ E2), bind_get.
  destruct R2 as [[D2 [c Ec]] W2 R3 R4]. rewrite D2, zlen_app. replace (zlen x + zlen rest - zlen x) with (zlen rest) by lia.
  rewrite zlen_app in Hz. change (2 ^ 62) with 4611686018427387904 in Hl.
  rewrite u64_pos by (change (2 ^ 63) with 9223372036854775808; lia). rewrite fmap_app, <-app_assoc in Ec.
  destruct (Z.ltb_spec (zlen x) (zlen x + zlen rest)) as [Hlt|Hge].
  - destruct (keep_rest _ x rest c Ec W2) as (c' & Eld & Est & Hbl).
    rewrite bind_assoc, (bind_done _ _ _ _ _ (on_recv_same _ _ _ Eld)), (bind_done _ _ _ _ _ (on_recv_done _ _ _ _ Est)).
    eexists. split; [reflexivity|]. split; cbn; try done.
    + split; [done|]. by exists c'.
    + destruct W2 as [[? ?] ?]. split; unfold bufLen in *; cbn; rewrite Hbl; [|lia]. split; [lia|]. rewrite <-Hbl, zlen_app, zlen_fmap. pose proof (zlen_nonneg c'). lia.
  - assert (zlen rest = 0) as ->%zlen_0 by lia. rewrite bind_mret. eexists. split; [reflexivity|]. split; cbn; try done.
    + split; [done|]. by exists (cells (bbRecv P2)).
    + destruct W2 as [[? ?] ?]. split; unfold bufLen in *; cbn; [|lia]. split; [lia|]. apply zlen_nonneg.
Qed.

Lemma le_bytes_app_inj k m n (x y : bytes) : le_bytes k m ++ x = le_bytes k n ++ y -> is_uint (8 * Z.of_nat k) m -> is_uint (8 * Z.of_nat k) n -> m = n.
Proof.
  intros [E _]%app_inj_1 Hm Hn; [|by rewrite !le_bytes_length]. by rewrite <-(le_val_bytes_small k m Hm), E, le_val_bytes_small.
Qed.

(** A whole package is never only the beginning of one: the mask decides the
    length of the header, the header that of the package. *)
Lemma encode_prefix_free p q x : packet_ok p -> packet_ok q -> encode p ++ x = encode q -> x = [].
Proof.
  intros Hp Hq E. destruct (mask_mask_like p Hp) as [P1 P2]. destruct (mask_mask_like q Hq) as [Q1 Q2].
  pose proof (ok_some _ Hp). pose proof (ok_some _ Hq). pose proof (ok_len _ Hp) as Lp. pose proof (ok_len _ Hq) as Lq.
  change (2 ^ 31) with 2147483648 in Lp, Lq.
  assert (Hn : zlen (payload p) = zlen (payload q)).
  { unfold encode, packet_header in E.
    destruct (Z.leb_spec (zlen (payload p)) 65535), (Z.leb_spec (zlen (payload q)) 65535); cbn [app] in E; pose proof (f_equal head E) as [= Em]; try congruence; apply (f_equal tail) in E; cbn [tail] in E; rewrite <-app_assoc in E.
    - apply (le_bytes_app_inj 2 _ _ _ _ E); unfold is_uint; change (2 ^ (8 * Z.of_nat 2)) with 65536; lia.
    - apply (le_bytes_app_inj 4 _ _ _ _ E); unfold is_uint; change (2 ^ (8 * Z.of_nat 4)) with 4294967296; lia. }
  apply (f_equal zlen) in E. rewrite zlen_app, !encode_zlen in E. unfold header_len in E. rewrite Hn in E. apply zlen_0. lia.
Qed.

(** A cut of the stream: the packages that are complete, and the beginning of
    the next. *)
Lemma cut_stream pks : forall x y rest, x ++ y = stream pks ++ rest -> partial rest -> Forall packet_ok pks ->
  exists ps1 ps2 l, pks = ps1 ++ ps2 /\ x = stream ps1 ++ l /\ l ++ y = stream ps2 ++ rest /\ partial l.
Proof.
  induction pks as [|pk pks IH]; intros x y rest E Hp Hok.
  - exists [], [], x. split; [done|]. split; [done|]. split; [done|]. destruct Hp as (pk & more & Hk & Er & Hm). exists pk, (y ++ more).
    split; [done|]. cbn in E. subst rest. rewrite app_assoc. split; [done|]. by intros [_ ->]%app_eq_nil.
  - apply Forall_cons in Hok as [Hk Hok]. unfold stream in E. cbn [fmap list_fmap concat] in E. rewrite <-app_assoc in E.
    destruct (Z.leb_spec (zlen (encode pk)) (zlen x)) as [Hge|Hlt].
    + destruct (app_split_at x y (encode pk) _ E Hge) as (x' & -> & E'). destruct (IH x' y rest E' Hp Hok) as (ps1 & ps2 & l & -> & -> & E2 & Hl).
      exists (pk :: ps1), ps2, l. split; [done|]. split; [|done]. unfold stream. cbn. by rewrite <-app_assoc.
    + exists [], (pk :: pks), x. split; [done|]. split; [done|]. split; [unfold stream; cbn [fmap list_fmap concat]; by rewrite <-app_assoc|].
      symmetry in E. destruct (app_split_at (encode pk) _ x y E) as (m & Em & _); [lia|]. exists pk, m. split; [done|]. split; [done|].
      intros ->. rewrite app_nil_r in Em. rewrite Em in Hlt. lia.
Qed.

Lemma receive_all_spec chunks : forall left pks rest r a P, ready left r a P -> left ++ concat chunks = stream pks ++ rest -> Forall (fits r) pks -> partial rest ->
  partial left -> zlen left + zlen (concat chunks) <= 2 ^ 62 ->
  exists P', receive_all handle disconnect chunks P = Done tt P' /\ ready rest r (views r pks a) P'.
Proof.
  induction chunks as [|c cs IH]; intros left pks rest r a P R E Hok Hp Hleft Hl; cbn [concat receive_all] in *.
  - rewrite app_nil_r in E. assert (Epk : pks = []).
    { destruct pks as [|pk pks]; [done|]. exfalso. apply Forall_cons in Hok as [Hk Hok]. unfold stream in E. cbn [fmap list_fmap concat] in E. subst left.
      (* a whole package is never the beginning of one *)
      destruct Hleft as (pk' & more & Hk' & Em & Hm). rewrite <-!app_assoc in Em.
      by apply (encode_prefix_free pk pk' _ (proj1 Hk) Hk') in Em as [_ [_ ->]%app_eq_nil]%app_eq_nil. }
    subst pks. cbn in E. subst left. by exists P.
  - rewrite app_assoc in E. destruct (cut_stream pks (left ++ c) (concat cs) rest E Hp (Forall_impl _ _ _ Hok (fun p H => proj1 H))) as (ps1 & ps2 & l & -> & E1 & E2 & Hl1).
    rewrite zlen_app in Hl. pose proof (zlen_nonneg (concat cs)). apply Forall_app in Hok as [Hok1 Hok2].
    destruct (ReceiveImpl_spec left c ps1 l r a P R E1 Hok1 Hl1) as (P1 & Ep & R1); [lia|]. rewrite (bind_done _ _ _ _ _ Ep).
    destruct (IH l ps2 rest r (views r ps1 a) P1 R1 E2 Hok2 Hp Hl1) as (P2 & Eq & R2).
    { assert (Hz : zlen (left ++ c) = zlen (stream ps1) + zlen l) by (by rewrite E1, zlen_app). rewrite zlen_app in Hz. pose proof (zlen_nonneg (stream ps1)). lia. }
    exists P2. split; [done|]. unfold views in *. by rewrite foldl_app.
Qed.
End receiving.

(** A peer that has not received anything yet. *)
Definition idle {A} (r : bytes) (P : Peer A) : Prop := bb_wf (bbRecv P) /\ dataLen (bbRecv P) = 0 /\ routingAddress P = r.

Lemma idle_ready {A} r (P : Peer A) : idle r P -> ready [] r (app P) P.
Proof. intros (W & D & R). split; try done. split; [done|]. by exists (cells (bbRecv P)). Qed.
