(* ===== verification/PacketsProps.v ===== *)
(** * Packages arrive as they were sent, also through a router *)

From Stdlib Require Import ZArith Lia.
From stdpp Require Import base numbers list gmap.
From S2P Require Import Prelude Util BBuffer Bytes BytesProps Packets PacketsSpec.
Open Scope Z_scope.

(** ** Sending a list of messages *)

Definition message : Type := packet * M Bytes.BBuffer unit.

(** The function that writes the message appends the content. *)
Definition message_ok (m : message) : Prop := packet_ok m.1 /\ appends m.2 (content m.1).

Fixpoint send_all (ms : list message) : M Bytes.BBuffer bytes :=
  match ms with
  | [] => mret []
  | (p, body) :: ms => b ← send_packet p body; bs ← send_all ms; mret (b ++ bs)
  end.

Lemma send_all_spec ms : forall bb, Forall message_ok ms -> bb_wf bb ->
  exists bb', send_all ms bb = Done (stream (fst <$> ms)) bb' /\ bb_wf bb'.
Proof.
  induction ms as [|[p body] ms IH]; intros bb Hok W; [by exists bb|].
  apply Forall_cons in Hok as [[Hp Hb] Hok]. destruct (send_packet_spec p body bb Hp W Hb) as (bb1 & E1 & W1).
  destruct (IH bb1 Hok W1) as (bb2 & E2 & W2). exists bb2. cbn [send_all]. by rewrite (bind_done _ _ _ _ _ E1), (bind_done _ _ _ _ _ E2).
Qed.

(** ** A router *)

(** The application of a router, at the connection of the peer with address
    [me], when every package goes to one other peer: its [bbSend], and what it
    has been given to send. *)
Definition forward (me : bytes) (d : delivery) (_ : bytes) (a : Bytes.BBuffer * bytes) : fate * Bytes.BBuffer * (Bytes.BBuffer * bytes) :=
  match d with
  | Routing rb pkgLen addrOffset addrLen =>
      match SendRoutingByRouter pkgLen addrOffset addrLen me (rb, a.1) with
      | Done out (rb, bs) => (Alive, rb, (bs, a.2 ++ out))
      | _ => (Disconnected, rb, a)
      end
  | Package rb | Request _ rb | Response _ rb => (Alive, rb, a)
  end.

(** A package with another address. *)
Definition readdress (me : bytes) (p : packet) : packet :=
  MkPacket (kind p) ((fun _ => me) <$> address p) (serial p) (content p).

(** A package with an address of the length of [me]. *)
Record routable (me : bytes) (p : packet) : Prop := {
  rt_ok : packet_ok p;
  rt_addr : exists a, address p = Some a /\ zlen a = zlen me
}.

Lemma readdress_payload me p a : address p = Some a -> zlen a = zlen me ->
  payload p = a ++ drop (length a) (payload p) /\ payload (readdress me p) = me ++ drop (length a) (payload p) /\
  zlen (payload (readdress me p)) = zlen (payload p) /\ mask (readdress me p) = mask p.
Proof.
  intros Ea Hz. unfold payload, mask, readdress. cbn. rewrite Ea. cbn [fmap option_fmap option_map default from_option id]. rewrite drop_app_length.
  split; [done|]. split; [done|]. split; [|by rewrite Hz]. by rewrite !zlen_app, Hz.
Qed.

Lemma readdress_encode me p a : address p = Some a -> zlen a = zlen me ->
  let hdr := packet_header (mask p) (zlen (payload p)) in let tl := drop (length a) (payload p) in
  encode p = hdr ++ a ++ tl /\ encode (readdress me p) = hdr ++ me ++ tl.
Proof.
  intros Ea Hz hdr tl. destruct (readdress_payload me p a Ea Hz) as (E1 & E2 & E3 & E4). unfold encode. rewrite E3, E4.
  split; f_equal; [exact E1|exact E2].
Qed.

Lemma readdress_ok me p : Forall is_byte me -> routable me p -> packet_ok (readdress me p).
Proof.
  intros Hb [Hok (a & Ea & Hz)]. destruct (readdress_payload me p a Ea Hz) as (_ & _ & E3 & _). destruct (ok_address _ Hok a Ea) as [Hl _].
  split; rewrite ?E3; [apply Hok| |apply Hok|exact (ok_content _ Hok)|apply Hok..]. unfold readdress. cbn. rewrite Ea. intros x [= <-]. split; [lia|done].
Qed.

Lemma on_bb_done {B} (m : M Bytes.BBuffer B) rb bs v rb' : m rb = Done v rb' -> on_bb m (rb, bs) = Done v (rb', bs).
Proof. unfold on_bb. cbn. by intros ->. Qed.

Lemma encode_head p : encode p !! 0%nat = Some (sent_mask (mask p) (zlen (payload p))).
Proof. unfold encode, packet_header, sent_mask. by destruct (_ <=? _). Qed.

Lemma load_cell bb a b c i : cells bb = a ++ Some b :: c -> i = zlen a -> load i bb = Done b bb.
Proof. intros E ->. unfold load. rewrite bind_get, E, znth_mid. done. Qed.

Lemma data_from_cells rb i n b : data_from rb i n = Some b ->
  exists pre post, cells rb = pre ++ (Some <$> b) ++ post /\ zlen pre = i /\ zlen b = n.
Proof.
  unfold data_from. intros H. destruct (zslice (cells rb) i n) as [cs|] eqn:E; [|done]. cbn in H.
  assert (Ec : cs = Some <$> b).
  { clear E. revert b H. induction cs as [|c cs IH]; intros b H; [by injection H as <-|].
    cbn in H. destruct c as [x|]; [|done]. cbn in H. destruct (mapM id cs) as [y|]; [|done]. injection H as <-. cbn. f_equal. by apply IH. }
  pose proof (zslice_len _ _ _ _ E) as Hn. unfold zslice in E. destruct (_ && _) eqn:Hb in E; [|done]. injection E as E.
  exists (take (Z.to_nat i) (cells rb)), (drop (Z.to_nat n) (drop (Z.to_nat i) (cells rb))). rewrite <-Ec, <-E, !take_drop.
  rewrite !andb_true_iff, !Z.leb_le in Hb. rewrite Ec, zlen_fmap in Hn. split; [done|]. split; [rewrite zlen_take; unfold zlen in *; lia|done].
Qed.

(** The short way through the router. *)
Lemma route_same_length me rb bs pre p a post : routable me p -> address p = Some a -> cells rb = pre ++ (Some <$> encode p) ++ post -> offset rb = zlen pre ->
  SendRoutingByRouter (zlen (encode p)) (zlen pre + header_len p) (zlen a) me (rb, bs) =
  Done (encode (readdress me p)) (set_cells (pre ++ (Some <$> encode (readdress me p)) ++ post) rb, bs).
Proof.
  intros [Hok (a' & Ea' & Hz)] Ea Hc Ho. rewrite Ea in Ea'. injection Ea' as <-.
  destruct (readdress_encode me p a Ea Hz) as [E1 E2]. set (hdr := packet_header _ _) in *. set (tl := drop _ _) in *.
  assert (Hhl : zlen hdr = header_len p) by apply packet_header_zlen. pose proof (zlen_nonneg (encode p)).
  assert (Hn : zlen (encode p) < 2 ^ 31) by (rewrite encode_zlen; pose proof (ok_len _ Hok); unfold header_len; destruct (_ <=? _); lia).
  assert (Hst : store (zlen pre + header_len p) me rb = Done tt (set_cells (pre ++ (Some <$> encode (readdress me p)) ++ post) rb)).
  { rewrite E1 in Hc. rewrite (store_at rb (pre ++ (Some <$> hdr)) (Some <$> a) ((Some <$> tl) ++ post)).
    - by rewrite E2, !fmap_app, <-!app_assoc. - by rewrite Hc, !fmap_app, <-!app_assoc. - rewrite zlen_app, zlen_fmap. lia. - by rewrite zlen_fmap. }
  assert (Hld : load (zlen pre) rb = Done (sent_mask (mask p) (zlen (payload p))) rb).
  { pose proof (encode_head p) as Hh. destruct (encode p) as [|x l]; [done|]. injection Hh as ->. by apply (load_cell rb pre _ ((Some <$> l) ++ post)). }
  unfold SendRoutingByRouter. rewrite bind_get. cbn [fst]. rewrite Ho, (bind_done _ _ _ _ _ (on_bb_done _ _ bs _ _ Hld)).
  rewrite (proj2 (proj1 (proj2 (sent_mask_facts p Hok)))) by eauto. unfold assert_ at 1. rewrite bind_mret.
  rewrite Hz, Z.eqb_refl, (bind_done _ _ _ _ _ (on_bb_done _ _ bs _ _ Hst)), sint_small by (lia || rng).
  apply on_bb_done. apply (load_range_at _ pre (encode (readdress me p)) post); [done|done|]. by rewrite E1, E2, !zlen_app, Hz.
Qed.

(** What the router accepts, and what it makes of it. *)
Definition router_accepts (me : bytes) (v : view) : Prop :=
  exists p a, routable me p /\ address p = Some a /\ v = VRouting (encode p) (header_len p) (zlen a).
Definition routed (me : bytes) (v : view) (st : Bytes.BBuffer * bytes) : Bytes.BBuffer * bytes :=
  match v with
  | VRouting b i n => (st.1, st.2 ++ take (Z.to_nat i) b ++ me ++ drop (Z.to_nat (i + n)) b)
  | _ => st
  end.

Lemma routed_packet me p a st : address p = Some a -> zlen a = zlen me ->
  routed me (VRouting (encode p) (header_len p) (zlen a)) st = (st.1, st.2 ++ encode (readdress me p)).
Proof.
  intros Ea Hz. destruct (readdress_encode me p a Ea Hz) as [E1 E2]. cbn [routed]. rewrite E2, E1.
  assert (Hh : header_len p = zlen (packet_header (mask p) (zlen (payload p)))) by (by rewrite packet_header_zlen).
  rewrite Hh. set (hdr := packet_header _ _). set (tl := drop _ _). f_equal. f_equal. f_equal; [unfold zlen; by rewrite Nat2Z.id, take_app_length|].
  f_equal. rewrite app_assoc, <-zlen_app. unfold zlen. by rewrite Nat2Z.id, drop_app_length.
Qed.

Lemma forward_goes_on me : goes_on (router_accepts me) (forward me) (routed me).
Proof.
  intros d sender st v Hv (p & a & Hr & Ea & ->). destruct d as [?|?|?|rb pkgLen ao al]; cbn [view_of] in Hv.
  1-3: by destruct (unread _).
  destruct (data_from rb (offset rb) pkgLen) as [b|] eqn:Ed; [|done]. injection Hv as -> Ho ->.
  destruct (data_from_cells _ _ _ _ Ed) as (pre & post & Ec & Hp & <-). destruct (rt_addr _ _ Hr) as (a' & Ea' & Hz). rewrite Ea in Ea'. injection Ea' as <-.
  cbn [forward]. replace ao with (zlen pre + header_len p) by lia. rewrite (route_same_length me rb st.1 pre p a post Hr Ea Ec (eq_sym Hp)), routed_packet by done.
  eexists. split; [reflexivity|]. cbn [buffer package_end]. destruct (readdress_encode me p a Ea Hz) as [E1 E2].
  assert (Hee : zlen (encode (readdress me p)) = zlen (encode p)) by (by rewrite E1, E2, !zlen_app, Hz).
  split.
  - intros W. apply set_cells_wf; [done|]. unfold bufLen. by rewrite Ec, !zlen_app, !zlen_fmap, Hee.
  - intros x more [Hd [c Hh]] Hx. rewrite Ec, fmap_app, <-app_assoc, (app_assoc pre) in Hh.
    apply app_inj_1 in Hh as [H1 H2]. 2:{ rewrite length_fmap, length_app, length_fmap. unfold zlen in *. lia. }
    symmetry in H1. apply fmap_app_inv in H1 as (pre' & b & -> & Eb%(inj (fmap Some)) & ->). subst b.
    exists (pre' ++ encode (readdress me p)). rewrite !zlen_app, Hee. split; [|done]. split.
    + cbn. rewrite Hd, !zlen_app, Hee. done.
    + exists c. cbn [cells set_cells]. by rewrite H2, !fmap_app, <-!app_assoc.
Qed.

(** ** Properties *)

(** What the application has seen is what was sent, in order. *)
Definition record_of {A} (h : view -> A -> A) (r : bytes) (pks : list packet) (a : A) : A := foldl (fun a p => h (packet_view r p) a) a pks.

(** C17. Packages, requests and responses that are sent with [Send] and its
    variants, addressed or not, arrive in their order, each once and with its
    kind, serial number, address and content, however the stream of bytes is
    cut into the pieces in which it is received; nothing is left over. *)
Theorem packages_arrive {A} accepts (handle : delivery -> bytes -> A -> fate * Bytes.BBuffer * A) disconnect h
    (ms : list message) (bs : Bytes.BBuffer) r (P : Peer A) :
  goes_on accepts handle h -> Forall message_ok ms -> Forall (fun m => accepts (packet_view r m.1)) ms -> bb_wf bs -> idle r P ->
  exists sent bs', send_all ms bs = Done sent bs' /\
    forall chunks, concat chunks = sent -> zlen sent <= 2 ^ 62 ->
      exists P', receive_all handle disconnect chunks P = Done tt P' /\ app P' = record_of h r (fst <$> ms) (app P) /\ idle r P'.
Proof.
  intros Hg Hok Hacc W Hi. destruct (send_all_spec ms bs Hok W) as (bs' & E & _). eexists _, bs'. split; [exact E|]. intros chunks Hc Hl.
  destruct (receive_all_spec handle disconnect h accepts Hg chunks [] (fst <$> ms) [] r (app P) P (idle_ready r P Hi)) as (P' & E' & [[D _] W' R Ha]).
  - by rewrite app_nil_r.
  - apply Forall_fmap, Forall_forall. intros m Hm. rewrite Forall_forall in Hok, Hacc. split; [by apply Hok|by apply Hacc].
  - apply partial_nil. - apply partial_nil. - rewrite Hc. change (zlen []) with 0. lia.
  - exists P'. split; [done|]. split; [exact Ha|]. by split.
Qed.

Lemma readdress_view me r p a : address p = Some a -> 0 < zlen r -> packet_view r (readdress me p) = package_view me p.
Proof. intros Ea Hr. unfold packet_view, readdress. cbn. rewrite Ea. cbn. destruct (Z.ltb_spec 0 (zlen r)); [done|lia]. Qed.

Lemma stream_readdress me pks : Forall (routable me) pks -> zlen (stream (readdress me <$> pks)) = zlen (stream pks).
Proof.
  induction pks as [|p pks IH]; [done|]. intros [Hp H]%Forall_cons. unfold stream in *. cbn [fmap list_fmap concat]. rewrite !zlen_app, IH by done.
  destruct (rt_addr _ _ Hp) as (a & Ea & Hz). destruct (readdress_encode me p a Ea Hz) as [-> ->]. by rewrite !zlen_app, Hz.
Qed.

(** C16. Routed packages go through a router: what a router with an empty
    routing address receives, in whatever pieces, it passes on with the address
    of their sender in the place of that of their receiver when the addresses
    are of equal length, and what the receiver then gets, in whatever pieces,
    are the packages that were sent, from that sender, in their order. *)
Theorem packages_are_routed {A} accepts (handle : delivery -> bytes -> A -> fate * Bytes.BBuffer * A) disconnect h leave
    (ms : list message) (bs bs' : Bytes.BBuffer) (me r : bytes) (R : Peer (Bytes.BBuffer * bytes)) (P : Peer A) sent chunks chunks' :
  Forall message_ok ms -> Forall (fun m => routable me m.1) ms -> Forall is_byte me -> bb_wf bs ->
  goes_on accepts handle h -> Forall (fun m => accepts (package_view me m.1)) ms ->
  idle [] R -> (app R).2 = [] -> 0 < zlen r -> idle r P ->
  send_all ms bs = Done sent bs' -> zlen sent <= 2 ^ 62 -> concat chunks = sent ->
  exists R', receive_all (forward me) leave chunks R = Done tt R' /\ idle [] R' /\
    (concat chunks' = (app R').2 ->
     exists P', receive_all handle disconnect chunks' P = Done tt P' /\ idle r P' /\
       app P' = foldl (fun a m => h (package_view me m.1) a) (app P) ms).
Proof.
  intros Hok Hrt Hme W Hg Hacc HR HR2 Hr HP Es Hl Hc.
  destruct (send_all_spec ms bs Hok W) as (bs1 & E1 & _). rewrite Es in E1. injection E1 as -> _.
  set (pks := fst <$> ms) in *.
  assert (Hrt' : Forall (routable me) pks) by (by apply Forall_fmap).
  destruct (receive_all_spec (forward me) leave (routed me) (router_accepts me) (forward_goes_on me) chunks [] pks [] [] (app R) R (idle_ready [] R HR)) as (R' & E2 & [[D2 C2] W2 R2 Ha2]).
  { by rewrite app_nil_r. }
  { eapply Forall_impl; [exact Hrt'|]. intros p Hp. split; [apply Hp|]. destruct (rt_addr _ _ Hp) as (a & Ea & Hz). exists p, a. split; [done|]. split; [done|].
    unfold packet_view. by rewrite Ea. }
  { apply partial_nil. } { apply partial_nil. } { rewrite Hc. change (zlen []) with 0. lia. }
  exists R'. split; [exact E2|]. split; [by split|]. intros Hc'.
  assert (Eout : forall qs st, Forall (routable me) qs -> (views (routed me) [] qs st).2 = st.2 ++ stream (readdress me <$> qs)).
  { induction qs as [|q qs IH]; intros st Hq; [by rewrite app_nil_r|]. apply Forall_cons in Hq as [Hq1 Hq]. unfold views in *. cbn [foldl].
    rewrite IH by done. destruct (rt_addr _ _ Hq1) as (a & Ea & Hz). unfold packet_view. rewrite Ea. cbn [zlen length]. change (0 <? 0) with false. cbn iota.
    rewrite (routed_packet me q a) by done. cbn. by rewrite <-app_assoc. }
  rewrite Ha2, Eout, HR2, app_nil_l in Hc' by done.
  destruct (receive_all_spec handle disconnect h accepts Hg chunks' [] (readdress me <$> pks) [] r (app P) P (idle_ready r P HP)) as (P' & E3 & [[D3 C3] W3 R3 Ha3]).
  { by rewrite app_nil_r. }
  { apply Forall_fmap. unfold pks. apply Forall_fmap, Forall_forall. intros m Hm. rewrite Forall_forall in Hrt, Hacc. specialize (Hrt m Hm).
    split; [by apply readdress_ok|]. destruct (rt_addr _ _ Hrt) as (a & Ea & Hz). cbn. rewrite (readdress_view me r m.1 a Ea Hr). by apply Hacc. }
  { apply partial_nil. } { apply partial_nil. }
  { change (zlen []) with 0. pose proof (stream_readdress me pks Hrt') as Hz. rewrite Hc', Hz. lia. }
  exists P'. split; [exact E3|]. split; [by split|]. rewrite Ha3. clear -Hrt Hr. unfold pks, views. generalize (app P).
  induction ms as [|m ms' IH]; intros a; [done|]. apply Forall_cons in Hrt as [Hm Hrt]. cbn [fmap list_fmap foldl]. destruct (rt_addr _ _ Hm) as (ad & Ea & Hz).
  rewrite (readdress_view me r m.1 ad Ea Hr). by apply IH.
Qed.

(** ** The address of a peer *)

Lemma SendRoutingAddress_spec buf bs : 1 <= zlen buf <= 16 -> bb_wf bs ->
  exists bs', SendRoutingAddress buf bs = Done (encode (MkPacket 0 None 0 buf)) bs'.
Proof.
  intros Hn W. unfold SendRoutingAddress. destruct (Z.leb_spec (zlen buf) 16); [|lia]. unfold assert_ at 1. rewrite bind_mret, bind_modify.
  set (b0 := set_offset 0 (set_dataLen 0 bs)).
  assert (W0 : bb_wf b0) by (destruct W as [[? ?] ?]; split; [unfold bufLen in *; cbn; lia|done]).
  rewrite (uint_small 64 (3 + _)) by rng. destruct (pool_Reserve_spec (3 + zlen buf) b0 W0) as (b1 & E1 & _ & Hc); [change (2 ^ 62) with 4611686018427387904; lia|].
  rewrite (bind_done _ _ _ _ _ E1).
  assert (Ee : encode (MkPacket 0 None 0 buf) = [0; u8 (zlen buf); u8 (Z.shiftr (zlen buf) 8)] ++ buf).
  { unfold encode, packet_header, payload, mask. cbn [address kind content default from_option id]. change (0 =? 0) with true. cbn iota. rewrite !app_nil_l.
    destruct (Z.leb_spec (zlen buf) 65535); [|lia]. by rewrite <-le2 by lia. }
  rewrite <-Ee. assert (Hz : zlen (encode (MkPacket 0 None 0 buf)) = 3 + zlen buf) by (rewrite Ee, zlen_app; change (zlen [_; _; _]) with 3; lia).
  set (e := encode _) in *.
  rewrite (bind_done _ _ _ _ _ (store_at b1 [] (take (Z.to_nat (3 + zlen buf)) (cells b1)) (drop (Z.to_nat (3 + zlen buf)) (cells b1)) e 0 ltac:(by rewrite app_nil_l, take_drop) eq_refl ltac:(rewrite zlen_take, Hz; unfold bufLen in Hc; lia))).
  rewrite sint_small by (lia || rng). eexists. refine (load_range_at _ [] e _ _ _ _ eq_refl _); [|by rewrite Hz]. reflexivity.
Qed.

Lemma GetRoutingAddressLength_spec pre buf post bb : zlen buf <= 65535 -> holds (pre ++ encode (MkPacket 0 None 0 buf) ++ post) bb -> offset bb = zlen pre + 3 ->
  GetRoutingAddressLength bb = Done (zlen buf) bb.
Proof.
  intros Hn Hh Ho. pose proof (zlen_nonneg buf).
  assert (Ee : encode (MkPacket 0 None 0 buf) = [0; zlen buf mod 256; zlen buf / 256 mod 256] ++ buf).
  { unfold encode, packet_header, payload, mask. cbn [address kind content default from_option id]. change (0 =? 0) with true. cbn iota. rewrite !app_nil_l.
    by destruct (Z.leb_spec (zlen buf) 65535); [|lia]. }
  rewrite Ee, <-app_assoc in Hh. unfold GetRoutingAddressLength. rewrite bind_get, Ho.
  rewrite (bind_done _ _ _ _ _ (load_bytes pre _ _ bb (zlen pre + 3 - 2) 1 _ Hh eq_refl ltac:(lia))).
  rewrite (bind_done _ _ _ _ _ (load_bytes pre _ _ bb (zlen pre + 3 - 1) 2 _ Hh eq_refl ltac:(lia))).
  unfold mret, M_ret. f_equal. pose proof (low_len (zlen buf) ltac:(lia)) as Hl. rewrite (Z.mod_small _ 65536) in Hl by lia.
  pose proof (Z.mod_pos_bound (zlen buf) 256 ltac:(lia)). pose proof (Z.mod_pos_bound (zlen buf / 256) 256 ltac:(lia)).
  rewrite Z.shiftl_mul_pow2 in * by lia. rewrite u64_pos in Hl; [done|]. change (2 ^ 8) with 256. change (2 ^ 63) with 9223372036854775808. lia.
Qed.

(** ** A length that wraps around *)

Lemma endless_step {A} (handle : delivery -> bytes -> A -> fate * Bytes.BBuffer * A) disconnect (f : A -> A) data (P : Peer A) fuel :
  (forall rb sender a, handle (Package rb) sender a = (Alive, rb, f a)) -> holds ([4; 251; 255; 255; 255] ++ data) (bbRecv P) -> zlen data <= 2 ^ 62 ->
  exists P', receive_loop handle disconnect (S fuel) 0 P = receive_loop handle disconnect fuel 0 P' /\ app P' = f (app P) /\
    holds ([4; 251; 255; 255; 255] ++ data) (bbRecv P').
Proof.
  intros Hh Hb Hl. change (2 ^ 62) with 4611686018427387904 in Hl. pose proof (zlen_nonneg data). pose proof (proj1 Hb) as Hd.
  rewrite zlen_app in Hd. change (zlen [4; 251; 255; 255; 255]) with 5 in Hd.
  cbn [receive_loop]. rewrite bind_get, Hd. change (u64 (0 + 3)) with 3. destruct (Z.ltb_spec (5 + zlen data) 3); [lia|].
  assert (Hr : read_header 0 (bbRecv P) = Done (Some (4, 5, 18446744073709551611)) (bbRecv P)).
  { unfold read_header. rewrite bind_get. change ([4; 251; 255; 255; 255] ++ data) with ([] ++ [4; 251; 255; 255; 255] ++ data) in Hb.
    rewrite (bind_done _ _ _ _ _ (load_bytes [] _ data _ 0 0 _ Hb eq_refl eq_refl)).
    rewrite (bind_done _ _ _ _ _ (load_bytes [] _ data _ (0 + 1) 1 _ Hb eq_refl eq_refl)).
    rewrite (bind_done _ _ _ _ _ (load_bytes [] _ data _ (0 + 2) 2 _ Hb eq_refl eq_refl)).
    change (bit 4 4) with true. cbn iota. rewrite Hd. change (u64 (0 + 5)) with 5. destruct (Z.ltb_spec (5 + zlen data) 5); [lia|].
    rewrite (bind_done _ _ _ _ _ (load_bytes [] _ data _ (0 + 3) 3 _ Hb eq_refl eq_refl)).
    by rewrite (bind_done _ _ _ _ _ (load_bytes [] _ data _ (0 + 4) 4 _ Hb eq_refl eq_refl)). }
  rewrite (bind_done _ _ _ _ _ (on_recv_same _ _ _ Hr)). cbv beta iota. change (18446744073709551611 <=? 0) with false.
  change (u64 (0 + 5 + 18446744073709551611)) with 0. cbn iota. destruct (Z.ltb_spec (5 + zlen data) 0); [lia|].
  change (bit 8 4) with false. cbv zeta iota. rewrite bind_assoc, bind_modify. unfold receive_package. rewrite bind_assoc, bind_recv_modify.
  change (Z.land 4 3 =? 0) with true. cbn iota. unfold mbind, M_bind, deliver. rewrite Hh. cbn [bbRecv set_recv set_sender dataLen]. rewrite Hd.
  destruct (Z.eqb_spec (5 + zlen data) 0); [lia|]. change (u64 (u64 (0 + 5) + 18446744073709551611)) with 0.
  eexists. split; [reflexivity|]. split; [done|]. split; [by rewrite zlen_app|exact (proj2 Hb)].
Qed.

(** A big package whose length is 2^64 - 5 (the bytes FB FF FF FF, which
    are extended with their sign) passes the test for a whole package, is
    delivered, and the next one is looked for at the same place: the loop calls
    the application again and again and never ends. *)
Theorem length_wraps_endless {A} (handle : delivery -> bytes -> A -> fate * Bytes.BBuffer * A) disconnect (f : A -> A) data (P : Peer A) :
  (forall rb sender a, handle (Package rb) sender a = (Alive, rb, f a)) -> holds ([4; 251; 255; 255; 255] ++ data) (bbRecv P) -> zlen data <= 2 ^ 62 ->
  (forall fuel, receive_loop handle disconnect fuel 0 P = Undef) /\
  (forall k fuel, exists P', receive_loop handle disconnect (k + fuel) 0 P = receive_loop handle disconnect fuel 0 P' /\ app P' = Nat.iter k f (app P)).
Proof.
  intros Hh Hb Hl.
  assert (Hk : forall k P, holds ([4; 251; 255; 255; 255] ++ data) (bbRecv P) -> forall fuel, exists P',
    receive_loop handle disconnect (k + fuel) 0 P = receive_loop handle disconnect fuel 0 P' /\ app P' = Nat.iter k f (app P)).
  { induction k as [|k IH]; intros Q HQ fuel; [by exists Q|]. destruct (endless_step handle disconnect f data Q (k + fuel) Hh HQ Hl) as (Q1 & E1 & A1 & H1).
    destruct (IH Q1 H1 fuel) as (Q2 & E2 & A2). exists Q2. cbn [Nat.add]. rewrite E1, E2. split; [done|]. by rewrite A2, A1, Nat.iter_succ_r. }
  split; [|intros k fuel; by apply Hk]. intros fuel. destruct (Hk fuel P Hb 0%nat) as (P' & E & _). by rewrite Nat.add_0_r in E.
Qed.

(** ** The long way through the router *)

Lemma on_send_done {B} (m : M Bytes.BBuffer B) rb bs v bs' : m bs = Done v bs' -> on_send m (rb, bs) = Done v (rb, bs').
Proof. unfold on_send. cbn. by intros ->. Qed.

Lemma store_two bb x y : zlen x + zlen y <= bufLen bb ->
  exists c, (forall B (k : M Bytes.BBuffer B), (_ ← store 0 x; _ ← store (zlen x) y; k) bb = k (set_cells ((Some <$> (x ++ y)) ++ c) bb)).
Proof.
  intros Hl. pose proof (zlen_nonneg x). pose proof (zlen_nonneg y). unfold bufLen in Hl. set (k := Z.to_nat (zlen x)). set (l := drop k (cells bb)).
  assert (Hk : zlen (take k (cells bb)) = zlen x) by (unfold k; rewrite zlen_take; lia).
  assert (Hk2 : zlen (take (Z.to_nat (zlen y)) l) = zlen y).
  { unfold l, k. rewrite zlen_take. rewrite zlen_drop. lia. }
  assert (El : cells bb = [] ++ take k (cells bb) ++ l) by (unfold l; by rewrite app_nil_l, take_drop).
  exists (drop (Z.to_nat (zlen y)) l). intros B m.
  rewrite (bind_done _ _ _ _ _ (store_at bb [] (take k (cells bb)) l x 0 El eq_refl Hk)).
  rewrite (bind_done _ _ _ _ _ (store_at (set_cells ([] ++ (Some <$> x) ++ l) bb) (Some <$> x) (take (Z.to_nat (zlen y)) l) (drop (Z.to_nat (zlen y)) l) y (zlen x) ltac:(cbn; by rewrite take_drop) ltac:(by rewrite zlen_fmap) Hk2)).
  unfold set_cells. cbn [cells dataLen offset readLengthLimit]. by rewrite fmap_app, <-app_assoc.
Qed.

(** A small package at the router, its length bytes read as [char]. *)
Section long_way.
Context (me : bytes) (p : packet) (a : bytes) (rb bs : Bytes.BBuffer) (pre post : list (option Z)).
Context (Hok : packet_ok p) (Ea : address p = Some a) (Hne : zlen me <> zlen a) (Hme : 1 <= zlen me <= 16).
Context (Hc : cells rb = pre ++ (Some <$> encode p) ++ post) (Ho : offset rb = zlen pre) (Wr : bb_wf rb) (Ws : bb_wf bs).
Context (Hs : zlen (payload p) <= 255).
Let n := zlen (payload p).
Let tl := drop (length a) (payload p).

Lemma small_encode : encode p = mask p :: [n; 0] ++ a ++ tl /\ n = zlen a + zlen tl.
Proof using All.
  assert (Ep : payload p = a ++ tl) by (unfold tl, payload; rewrite Ea; cbn [default from_option id]; by rewrite drop_app_length).
  split; [|unfold n; by rewrite Ep, zlen_app]. unfold encode, packet_header. fold n. destruct (Z.leb_spec n 65535); [|unfold n in *; lia].
  rewrite Ep. change (le_bytes 2 n) with [n mod 256; n / 256 mod 256]. pose proof (zlen_nonneg (payload p)). unfold n in *.
  rewrite (Z.div_small (zlen (payload p)) 256), (Z.mod_small (zlen (payload p)) 256) by lia. done.
Qed.

Lemma long_way_facts : load (zlen pre) rb = Done (mask p) rb /\ load_char (zlen pre + 1) rb = Done (sint 8 n) rb /\ load_char (zlen pre + 2) rb = Done 0 rb /\
  bit 4 (mask p) = false /\ bit 8 (mask p) = true /\ Z.land (mask p) 251 = mask p /\ 1 <= zlen a <= 16.
Proof using All.
  destruct small_encode as [Ee _]. rewrite Ee in Hc.
  assert (H1 : load (zlen pre + 1) rb = Done n rb).
  { apply (load_cell rb (pre ++ [Some (mask p)]) n (Some 0 :: (Some <$> a ++ tl) ++ post)); [by rewrite Hc, <-app_assoc|by rewrite zlen_app]. }
  assert (H2 : load (zlen pre + 2) rb = Done 0 rb).
  { apply (load_cell rb (pre ++ [Some (mask p); Some n]) 0 ((Some <$> a ++ tl) ++ post)); [by rewrite Hc, <-app_assoc|by rewrite zlen_app]. }
  unfold load_char. rewrite (bind_done _ _ _ _ _ H1), (bind_done _ _ _ _ _ H2).
  split; [by apply (load_cell rb pre (mask p) ((Some <$> [n; 0] ++ a ++ tl) ++ post))|]. split; [done|]. split; [done|].
  destruct (mask_raw p Hok) as (l & b & Hl & Em & Hb & Hla). pose proof (ok_kind _ Hok). destruct (raw_mask_bits (kind p) l b false ltac:(lia) Hl) as [_ M1 M2 _ _ _ _ _ M3 _].
  rewrite Em. split; [done|]. split; [rewrite M2; apply Hb; by eexists|]. split; [done|]. apply (ok_address _ Hok a Ea).
Qed.

(** Up to the length of the rest. *)
Lemma long_way_reserve : exists bs1, (_ ← modify (fun bb => set_offset 0 (set_dataLen 0 bb)); Bytes.Reserve (u64 (zlen (encode p) - zlen a + zlen me))) bs = Done tt bs1 /\
  3 + n - zlen a + zlen me <= bufLen bs1.
Proof using All.
  rewrite bind_modify. set (b0 := set_offset 0 (set_dataLen 0 bs)). destruct small_encode as [Ee En]. pose proof (zlen_nonneg tl). pose proof (zlen_nonneg a).
  assert (W0 : bb_wf b0) by (destruct Ws as [[? ?] ?]; split; [unfold bufLen in *; cbn; lia|done]).
  assert (Ez : zlen (encode p) - zlen a + zlen me = 3 + n - zlen a + zlen me).
  { rewrite Ee. change (mask p :: [n; 0] ++ a ++ tl) with ([mask p; n; 0] ++ a ++ tl). rewrite !zlen_app. change (zlen [mask p; n; 0]) with 3. lia. }
  rewrite Ez, uint_small by (unfold n in *; rng). destruct (pool_Reserve_spec (3 + n - zlen a + zlen me) b0 W0) as (b1 & E1 & _ & Hb).
  { change (2 ^ 62) with 4611686018427387904. unfold n in *. lia. }
  by exists b1.
Qed.
Lemma bind_on_send {B C} (m : M Bytes.BBuffer B) (f : B -> M (Bytes.BBuffer * Bytes.BBuffer) C) (r b : Bytes.BBuffer) v b' :
  m b = Done v b' -> (x ← on_send m; f x) (r, b) = f v (r, b').
Proof using Type. intros E. apply bind_done. by apply on_send_done. Qed.

Lemma bind_on_bb {B C} (m : M Bytes.BBuffer B) (f : B -> M (Bytes.BBuffer * Bytes.BBuffer) C) (r b : Bytes.BBuffer) v :
  m r = Done v r -> (x ← on_bb m; f x) (r, b) = f v (r, b).
Proof using Type. intros E. apply bind_done. by apply on_bb_done. Qed.

Lemma long_way_common : exists bs1, 3 + n - zlen a + zlen me <= bufLen bs1 /\
  SendRoutingByRouter (zlen (encode p)) (zlen pre + 3) (zlen a) me (rb, bs) =
  (let low := u64 (sint 8 n + Z.shiftl 0 8) in
   let m := u64 (low - zlen a) in
   let n' := u64 (m + zlen me) in
   _ ← (if negb (65535 <? n') then
          _ ← on_send (store 0 ([mask p; u8 n'; u8 (Z.shiftr n' 8)] ++ me));
          rest ← on_bb (load_range (zlen pre + 3 + zlen a) m);
          on_send (store (3 + zlen me) rest)
        else
          _ ← on_send (store 0 ([Z.lor (mask p) 4; u8 n'; u8 (Z.shiftr n' 8); u8 (Z.shiftr n' 16); u8 (Z.shiftr n' 24)] ++ me));
          rest ← on_bb (load_range (zlen pre + 5 + zlen a) m);
          on_send (store (5 + zlen me) rest));
   on_send (load_range 0 (i32 (u64 (zlen (encode p) - zlen a + zlen me))))) (rb, bs1).
Proof using All.
  destruct long_way_facts as (F0 & F1 & F2 & F3 & F4 & F5 & F6). destruct long_way_reserve as (bs1 & E1 & Hb). exists bs1. split; [done|].
  unfold SendRoutingByRouter. rewrite bind_get. cbn [fst]. rewrite Ho, (bind_on_bb _ _ _ _ _ F0), F4. unfold assert_ at 1. rewrite bind_mret.
  destruct (Z.eqb_spec (zlen me) (zlen a)); [done|]. rewrite bind_modify in E1.
  rewrite (bind_on_send _ _ rb bs tt (set_offset 0 (set_dataLen 0 bs)) eq_refl), (bind_on_send _ _ rb _ _ _ E1).
  rewrite (bind_on_bb _ _ _ _ _ F1), (bind_on_bb _ _ _ _ _ F2), F3, bind_mret, F5. done.
Qed.
Lemma long_way_short : n < 128 -> exists bs', SendRoutingByRouter (zlen (encode p)) (zlen pre + 3) (zlen a) me (rb, bs) =
  Done ((mask p :: le_bytes 2 (n - zlen a + zlen me)) ++ me ++ tl) (rb, bs').
Proof using All.
  intros Hn. destruct long_way_common as (bs1 & Hb & ->). destruct small_encode as [Ee En]. destruct long_way_facts as (_ & _ & _ & _ & _ & _ & Hla).
  pose proof (zlen_nonneg tl). set (n' := n - zlen a + zlen me) in *. cbv zeta. change (Z.shiftl 0 8) with 0. rewrite (sint_small 8) by (lia || rng).
  rewrite (uint_small 64 (n + 0)) by rng. replace (n + 0 - zlen a) with (zlen tl) by lia. rewrite (uint_small 64 (zlen tl)) by rng.
  replace (zlen tl + zlen me) with n' by lia. rewrite (uint_small 64 n') by rng. destruct (Z.ltb_spec 65535 n'); [lia|]. cbn [negb].
  assert (Ex : [mask p; u8 n'; u8 (Z.shiftr n' 8)] = mask p :: le_bytes 2 n') by (by rewrite <-le2 by lia). rewrite Ex.
  set (x := (mask p :: le_bytes 2 n') ++ me). assert (Hx : zlen x = 3 + zlen me) by (unfold x; by rewrite zlen_app).
  destruct (store_two bs1 x tl) as (c & Hst); [lia|].
  assert (El : load_range (zlen pre + 3 + zlen a) (zlen tl) rb = Done tl rb).
  { apply (load_range_at rb (pre ++ (Some <$> mask p :: [n; 0] ++ a)) tl post); [|rewrite zlen_app, zlen_fmap; change (mask p :: [n; 0] ++ a) with ([mask p; n; 0] ++ a); rewrite zlen_app; change (zlen [mask p; n; 0]) with 3; lia|done].
    rewrite Hc, Ee. cbn [fmap list_fmap]. rewrite !fmap_app, <-!app_assoc. cbn [List.app]. by rewrite <-!app_assoc. }
  assert (Ez : u64 (zlen (encode p) - zlen a + zlen me) = 3 + n').
  { rewrite Ee. change (mask p :: [n; 0] ++ a ++ tl) with ([mask p; n; 0] ++ a ++ tl). rewrite !zlen_app. change (zlen [mask p; n; 0]) with 3. rewrite uint_small by rng. lia. }
  rewrite Ez, sint_small by (lia || rng). exists (set_cells ((Some <$> x ++ tl) ++ c) bs1).
  assert (Hfin : (_ ← store 0 x; _ ← store (zlen x) tl; load_range 0 (3 + n')) bs1 = Done (x ++ tl) (set_cells ((Some <$> x ++ tl) ++ c) bs1)).
  { rewrite Hst. apply (load_range_at _ [] (x ++ tl) c); [done|done|]. rewrite zlen_app. lia. }
  assert (Ex2 : (mask p :: le_bytes 2 n') ++ me ++ tl = x ++ tl) by (unfold x; by rewrite <-app_assoc). rewrite Ex2, <-Hx. clear -Hfin El. clearbody x.
  unfold mbind, M_bind in *. unfold on_send at 1 2 3. unfold on_bb. cbn [fst snd].
  destruct (store 0 x bs1) as [[] b2|? ?|] eqn:E1; try discriminate. cbn [fst snd]. rewrite El. cbn [fst snd].
  destruct (store (zlen x) tl b2) as [[] b3|? ?|] eqn:E2; try discriminate. cbn [fst snd]. by rewrite Hfin.
Qed.

Lemma long_way_undef : 128 <= n -> n - 256 - zlen a + zlen me < 0 ->
  SendRoutingByRouter (zlen (encode p)) (zlen pre + 3) (zlen a) me (rb, bs) = Undef.
Proof using All.
  intros Hn Hneg. destruct long_way_common as (bs1 & Hb & ->). destruct long_way_facts as (_ & _ & _ & _ & _ & _ & Hla).
  assert (E8 : sint 8 n = n - 256).
  { unfold sint. change (2 ^ (8 - 1)) with 128. change (2 ^ 8) with 256. replace (n + 128) with (n - 128 + 1 * 256) by lia. rewrite Z.mod_add, Z.mod_small by (unfold n in *; lia). lia. }
  assert (E64 : forall z, - 2 ^ 64 <= z < 0 -> u64 z = z + 2 ^ 64).
  { intros z Hz. unfold uint. rewrite <-(Z.mod_add z 1) by lia. apply Z.mod_small. lia. }
  cbv zeta. change (Z.shiftl 0 8) with 0. rewrite E8. replace (n - 256 + 0) with (n - 256) by lia.
  change (2 ^ 64) with 18446744073709551616 in E64. unfold n in *. set (k := zlen (payload p)) in *.
  rewrite (E64 (k - 256)) by lia. rewrite (uint_small 64 (_ - zlen a)) by rng. rewrite (uint_small 64 (k - 256 + 18446744073709551616 - zlen a + zlen me)) by rng.
  destruct (Z.ltb_spec 65535 (k - 256 + 18446744073709551616 - zlen a + zlen me)); [|lia]. cbn [negb].
  unfold mbind, M_bind. destruct (on_send _ _) as [[] [r' b']|? ?|] eqn:E; [|unfold on_send, store in E; cbn [fst snd] in E; destruct (_ && _) in E; done|done].
  assert (r' = rb) as -> by (unfold on_send in E; cbn [fst snd] in E; destruct (store _ _ _) in E; by simplify_eq).
  unfold on_bb. cbn [fst snd]. unfold load_range. rewrite bind_get. unfold zslice. destruct (_ && _) eqn:Hz; [|done].
  rewrite !andb_true_iff, !Z.leb_le in Hz. destruct Wr as [_ Hw]. unfold bufLen in Hw. change (2 ^ 63) with 9223372036854775808 in Hw. pose proof (zlen_nonneg pre). lia.
Qed.
End long_way.

(** When the address of the sender and that of the receiver differ in
    length, the router does not change the length in the mask: the receiver
    takes the first bytes of address and message, as many as the old address
    had, as the address of the sender.  From 128 bytes on the length is read as
    a negative number and memory behind the package is copied. *)
Theorem route_other_length me p a (rb bs : Bytes.BBuffer) pre post :
  packet_ok p -> kind p = 0 -> address p = Some a -> zlen me <> zlen a -> 1 <= zlen me <= 16 -> zlen a <= zlen (me ++ content p) ->
  holds (pre ++ encode p ++ post) rb -> bb_wf rb -> bb_wf bs -> offset rb = zlen pre ->
  (zlen (payload p) < 128 ->
   let q := MkPacket 0 (Some (take (length a) (me ++ content p))) 0 (drop (length a) (me ++ content p)) in
   q <> readdress me p /\
   exists bs', SendRoutingByRouter (zlen (encode p)) (zlen pre + 3) (zlen a) me (rb, bs) = Done (encode q) (rb, bs')) /\
  (128 <= zlen (payload p) <= 255 -> zlen (payload p) - 256 - zlen a + zlen me < 0 ->
   SendRoutingByRouter (zlen (encode p)) (zlen pre + 3) (zlen a) me (rb, bs) = Undef).
Proof.
  intros Hok Hk Ea Hne Hme Hl [_ [rest Hc]] Wr Ws Ho. rewrite !fmap_app, <-!app_assoc in Hc. pose proof Ho as Ho'. rewrite <-(zlen_fmap Some pre) in Ho'.
  assert (Ep : payload p = a ++ content p) by (unfold payload; rewrite Ea, Hk; done).
  split.
  - intros Hn q.
    assert (Ea' : zlen (take (length a) (me ++ content p)) = zlen a) by (rewrite zlen_take; unfold zlen in *; lia).
    split.
    { intros E%(f_equal address). cbn in E. rewrite Ea in E. injection E as E. apply Hne. by rewrite <-Ea', E. }
    destruct (long_way_short me p a rb bs (Some <$> pre) ((Some <$> post) ++ rest) Hok Ea Hne Hme Hc Ho' Wr Ws ltac:(lia) Hn) as (bs' & E).
    rewrite zlen_fmap in E. exists bs'. rewrite E. f_equal. rewrite Ep, drop_app_length.
    assert (Eq : payload q = me ++ content p) by (unfold payload, q; cbn; by rewrite take_drop).
    assert (Em : mask q = mask p) by (unfold mask; rewrite Ea, Hk; unfold q; cbn; by rewrite Ea').
    unfold encode, packet_header. rewrite Eq, Em, !zlen_app. rewrite Ep, zlen_app in Hn. pose proof (zlen_nonneg a).
    destruct (Z.leb_spec (zlen me + zlen (content p)) 65535); [|lia]. by replace (zlen a + zlen (content p) - zlen a + zlen me) with (zlen me + zlen (content p)) by lia.
  - intros Hn Hneg. rewrite <-(zlen_fmap Some pre).
    apply (long_way_undef me p a rb bs (Some <$> pre) ((Some <$> post) ++ rest)); try done; lia.
Qed.

(** ** Witnesses *)

(** An application that keeps a record of what it gets. *)
Definition log_event (d : delivery) (sender : bytes) (a : list view) : fate * Bytes.BBuffer * list view :=
  (Alive, buffer d, match view_of d sender with Some v => a ++ [v] | None => a end).
Definition log_view (v : view) (a : list view) : list view := a ++ [v].

Lemma log_goes_on : goes_on (fun _ => True) log_event log_view.
Proof. intros d sender a v Hv _. exists (buffer d). unfold log_event. rewrite Hv. split; [done|]. split; [done|]. intros x post H _. by exists x. Qed.

Definition no_bytes : Bytes.BBuffer := Bytes.MkBBuffer [] 0 0 0.
Lemma no_bytes_wf : bb_wf no_bytes.
Proof. split; unfold bufLen; cbn; change (zlen []) with 0; lia. Qed.

Definition some_messages : list message :=
  [(MkPacket 0 (Some [9; 9]) 0 [1; 2; 3], WriteBuf [1; 2; 3]); (MkPacket 1 (Some [9; 9]) 7 [4], WriteBuf [4]); (MkPacket 2 (Some [9; 9]) 300 [5], WriteBuf [5])].

Ltac bytes_ok := repeat constructor; unfold is_byte, is_uint; try done; lia.

Lemma some_messages_ok : Forall message_ok some_messages.
Proof.
  repeat (apply Forall_cons; split; [split; [|apply appends_WriteBuf]|]); try done.
  all: split; [cbn; lia|intros a [= <-]; split; [by vm_compute|bytes_ok]|unfold is_uint; cbn; lia|bytes_ok|done|done].
Qed.

Lemma packages_arrive_witness :
  exists sent bs', send_all some_messages no_bytes = Done sent bs' /\
    forall chunks, concat chunks = sent -> zlen sent <= 2 ^ 62 ->
      exists P', receive_all log_event (fun a => a) chunks (MkPeer no_bytes [5] [] []) = Done tt P' /\
        app P' = [VPackage [9; 9] [1; 2; 3]; VRequest 7 [9; 9] [4]; VResponse 300 [9; 9] [5]] /\ idle [5] P'.
Proof.
  apply (packages_arrive (fun _ => True) log_event (fun a => a) log_view some_messages no_bytes [5] (MkPeer no_bytes [5] [] [])).
  - exact log_goes_on. - exact some_messages_ok. - by repeat constructor. - exact no_bytes_wf. - split; [exact no_bytes_wf|done].
Defined.

Lemma packages_are_routed_witness :
  exists sent bs', send_all some_messages no_bytes = Done sent bs' /\
  exists R', receive_all (forward [6; 7]) (fun a => a) [take 4 sent; drop 4 sent] (MkPeer no_bytes [] [] (no_bytes, [])) = Done tt R' /\ idle [] R' /\
    forall chunks, concat chunks = (app R').2 ->
      exists P', receive_all log_event (fun a => a) chunks (MkPeer no_bytes [5] [] []) = Done tt P' /\ idle [5] P' /\
        app P' = [VPackage [6; 7] [1; 2; 3]; VRequest 7 [6; 7] [4]; VResponse 300 [6; 7] [5]].
Proof.
  destruct (send_all_spec some_messages no_bytes some_messages_ok no_bytes_wf) as (bs' & E & _). eexists _, bs'. split; [exact E|].
  assert (Hr : Forall (fun m => routable [6; 7] m.1) some_messages).
  { assert (Ha : Forall (fun m : message => exists a, address m.1 = Some a /\ zlen a = zlen [6; 7]) some_messages).
    { repeat (apply Forall_cons; split; [exists [9; 9]; split; reflexivity|]). apply Forall_nil. exact I. }
    pose proof some_messages_ok as H. rewrite Forall_forall in *. intros m Hm. split; [apply (H m Hm)|apply (Ha m Hm)]. }
  pose proof (fun chunks => packages_are_routed (fun _ => True) log_event (fun a => a) log_view (fun a => a) some_messages no_bytes bs' [6; 7] [5]
    (MkPeer no_bytes [] [] (no_bytes, [])) (MkPeer no_bytes [5] [] []) (stream (fst <$> some_messages))
    [take 4 (stream (fst <$> some_messages)); drop 4 (stream (fst <$> some_messages))] chunks some_messages_ok Hr ltac:(bytes_ok) no_bytes_wf log_goes_on
    ltac:(by repeat constructor) (conj no_bytes_wf (conj eq_refl eq_refl)) eq_refl ltac:(by vm_compute) (conj no_bytes_wf (conj eq_refl eq_refl)) E
    ltac:(by vm_compute) ltac:(by vm_compute)) as H.
  destruct (H []) as (R' & E1 & I1 & _). exists R'. split; [exact E1|]. split; [exact I1|]. intros chunks Hc.
  destruct (H chunks) as (R2 & E2 & _ & H2). rewrite E1 in E2. injection E2 as <-. by apply H2.
Defined.

Lemma length_wraps_endless_witness :
  let P := MkPeer (Bytes.MkBBuffer (Some <$> [4; 251; 255; 255; 255]) 5 0 0) [] [] 0 in
  let handle (d : delivery) (_ : bytes) (a : Z) := (Alive, buffer d, a + 1) in
  (forall fuel, receive_loop handle (fun a => a) fuel 0 P = Undef) /\
  (forall k fuel, exists P', receive_loop handle (fun a => a) (k + fuel) 0 P = receive_loop handle (fun a => a) fuel 0 P' /\ app P' = Nat.iter k (fun a => a + 1) 0).
Proof.
  cbv zeta. apply (length_wraps_endless _ (fun a => a) (fun a => a + 1) [] (MkPeer (Bytes.MkBBuffer (Some <$> [4; 251; 255; 255; 255]) 5 0 0) [] [] 0)).
  - done. - split; [done|]. by exists []. - by vm_compute.
Defined.

Lemma route_other_length_witness :
  let p := MkPacket 0 (Some [9; 9]) 0 [1; 2; 3] in
  let rb := Bytes.MkBBuffer (Some <$> encode p) 8 0 0 in
  exists bs', SendRoutingByRouter 8 3 2 [6] (rb, no_bytes) = Done (encode (MkPacket 0 (Some [6; 1]) 0 [2; 3])) (rb, bs').
Proof.
  cbv zeta. pose (p := MkPacket 0 (Some [9; 9]) 0 [1; 2; 3]).
  assert (Hok : packet_ok p) by (split; [cbn; lia|intros a [= <-]; split; [by vm_compute|bytes_ok]|unfold is_uint; cbn; lia|bytes_ok|done|done]).
  destruct (route_other_length [6] p [9; 9] (Bytes.MkBBuffer (Some <$> encode p) 8 0 0) no_bytes [] [] Hok eq_refl eq_refl ltac:(by vm_compute) ltac:(by vm_compute) ltac:(by vm_compute)
    ltac:(split; [done|by exists []]) ltac:(split; [by vm_compute|by vm_compute]) no_bytes_wf eq_refl) as [H _].
  destruct (H eq_refl) as [_ (bs' & E)]. exists bs'. exact E.
Defined.
