(* ===== verification/Requests.v ===== *)
(** * xx_uv.hpp of test_uv_4: requests of a peer

    [SendRequest] registers the callback with the manager, sends the package
    under the number that it gets and, when that fails, calls the callback at
    once.  A response goes to the manager from the receiving side.  The state
    is [bbSend] with the manager. *)

From Stdlib Require Import ZArith Lia.
From stdpp Require Import base numbers list gmap.
From S2P Require Import Prelude Util BBuffer Bytes Dict Queue RpcManager Packets.
Open Scope Z_scope.

Section requests.
Context {K : Type} (dataSize pairSize : Z) (trivial : bool) (react : Z -> K -> option bytes -> list (call K bytes)) (depth : nat).
Implicit Types (cb : K) (interval : Z) (body : M Bytes.BBuffer unit).

Definition on_bbSend {A} (m : M Bytes.BBuffer A) : M (Bytes.BBuffer * UvRpcManager K bytes) A := fun s =>
  match m s.1 with
  | Done a b => Done a (b, s.2)
  | Fail e b => Fail e (b, s.2)
  | Undef => Undef
  end.
Definition on_rpcMgr {A} (m : M (UvRpcManager K bytes) A) : M (Bytes.BBuffer * UvRpcManager K bytes) A := fun s =>
  match m s.2 with
  | Done a q => Done a (s.1, q)
  | Fail e q => Fail e (s.1, q)
  | Undef => Undef
  end.

(** [SendBytes], a virtual function: the code that it returns for a package. *)
Context (SendBytes : bytes -> Z).

(** The callback is registered and the package is made: its number and its
    bytes. *)
Definition make_request body cb interval : M (Bytes.BBuffer * UvRpcManager K bytes) (Z * bytes) :=
  _ ← on_bbSend begin_send;
  serial ← on_rpcMgr (Register dataSize pairSize trivial cb interval);
  _ ← on_bbSend (write_serial serial);
  _ ← on_bbSend body;
  b ← on_bbSend (finish_send 1);
  mret (serial, b).

(** The number, or 0, and what was handed to [SendBytes]. *)
Definition SendRequest body cb interval : M (Bytes.BBuffer * UvRpcManager K bytes) (Z * bytes) :=
  r ← make_request body cb interval;
  if negb (SendBytes r.2 =? 0) then
    _ ← on_rpcMgr (Callback react (exec dataSize pairSize trivial react depth) r.1 None);
    mret (0, r.2)
  else mret r.

(** When sending fails [cb] has been moved into the manager and cannot be
    called. *)
Definition SendRoutingRequest (addr : bytes) body cb interval : M (Bytes.BBuffer * UvRpcManager K bytes) (Z * bytes) :=
  _ ← on_bbSend begin_send;
  _ ← on_bbSend (WriteBuf addr);
  serial ← on_rpcMgr (Register dataSize pairSize trivial cb interval);
  _ ← on_bbSend (write_serial serial);
  _ ← on_bbSend body;
  b ← on_bbSend (finish_send (routing_mask 1 (zlen addr)));
  if negb (SendBytes b =? 0) then undef else mret (serial, b).

(** The receiving peer: [loop.rpcMgr->Callback(serial, &bbRecv)] for a
    response; other events go to the application [handle], which has a state
    of its own. *)
Context {A : Type} (handle : delivery -> bytes -> A -> fate * Bytes.BBuffer * A).
(** What the callback reads of the package. *)
Context (read : Bytes.BBuffer -> bytes).

Definition receive_event (d : delivery) (sender : bytes) (a : option (UvRpcManager K bytes) * A) : fate * Bytes.BBuffer * (option (UvRpcManager K bytes) * A) :=
  match d, a.1 with
  | Response serial rb, Some q =>
      (Alive, rb, (match Callback react (exec dataSize pairSize trivial react depth) serial (Some (read rb)) q with
                   | Done _ q => Some q
                   | _ => None
                   end, a.2))
  | Response _ rb, None => (Alive, rb, a)
  | _, _ => let '(f, rb, x) := handle d sender a.2 in (f, rb, (a.1, x))
  end.
End requests.
