(* ===== verification/RequestsProps.v ===== *)
(** * A request and its response: sending, two streams and the manager *)

From Stdlib Require Import ZArith Lia.
From stdpp Require Import base numbers list gmap.
From S2P Require Import Prelude Util BBuffer Bytes BytesProps HashUtils Dict DictMap DictOps Queue QueueProps RpcManager RpcManagerProps Packets PacketsSpec PacketsProps Requests.
Open Scope Z_scope.

(** What the callback reads: the rest of the package. *)
Definition read_rest (rb : Bytes.BBuffer) : bytes := default [] (unread rb).

Lemma encode_short p : packet_ok p -> zlen (@nil Z) + zlen (encode p) <= 2 ^ 62.
Proof.
  intros H. rewrite encode_zlen. change (zlen []) with 0. pose proof (ok_len _ H). unfold header_len. change (2 ^ 31) with 2147483648 in *.
  change (2 ^ 62) with 4611686018427387904. destruct (_ <=? _); lia.
Qed.

Section requests.
Context {K A : Type} (dataSize pairSize : Z) (trivial : bool) (react : Z -> K -> option bytes -> list (call K bytes)) (depth : nat) (limit : Z).
Context (SendBytes : bytes -> Z).
Context (Hsize : 8 <= dataSize <= 512) (Hgrows : no_shrink dataSize = true) (Hpair : 0 < pairSize <= 2 ^ 16).
Context (Hlimit : 0 <= limit /\ limit * 2 * dataSize < 2 ^ 31).
Abbreviation rep := (RpcManagerProps.rep limit trivial).
Abbreviation State := (Bytes.BBuffer * UvRpcManager K bytes)%type.

Lemma bind_bbSend {B C} (m : M Bytes.BBuffer B) (f : B -> M State C) b q v b' : m b = Done v b' -> (x ← on_bbSend m; f x) (b, q) = f v (b', q).
Proof using Type. intros E. apply bind_done. unfold on_bbSend. cbn. by rewrite E. Qed.

Lemma bind_rpcMgr {B C} (m : M (UvRpcManager K bytes) B) (f : B -> M State C) b q v q' : m q = Done v q' -> (x ← on_rpcMgr m; f x) (b, q) = f v (b, q').
Proof using Type. intros E. apply bind_done. unfold on_rpcMgr. cbn. by rewrite E. Qed.

(** Sending with the manager in between is sending the package. *)
Lemma split_send body n bs out bs' : request_packet n body bs = Done out bs' ->
  exists b1 b2 b3, begin_send bs = Done tt b1 /\ write_serial n b1 = Done tt b2 /\ body b2 = Done tt b3 /\ finish_send 1 b3 = Done out bs'.
Proof using Type.
  unfold request_packet, mbind, M_bind. destruct (begin_send bs) as [[] b1| |] eqn:E1; try done. destruct (write_serial n b1) as [[] b2| |] eqn:E2; try done.
  destruct (body b2) as [[] b3| |] eqn:E3; try done. intros E4. by exists b1, b2, b3.
Qed.

Lemma make_request_spec body (cb : K) interval ct bs s (a a' : Desk K bytes) :
  rep s a -> desk_register limit cb interval a = Some a' -> appends body ct -> packet_ok (MkPacket 1 None (last a') ct) -> bb_wf bs ->
  exists bs' s', bb_wf bs' /\ rep s' a' /\
    make_request dataSize pairSize trivial body cb interval (bs, s) = Done (last a', encode (MkPacket 1 None (last a') ct)) (bs', s').
Proof using Hsize Hgrows Hpair Hlimit.
  intros Hr Hd Hb Hok W. destruct (send_packet_spec (MkPacket 1 None (last a') ct) body bs Hok W Hb) as (bs' & E & W').
  destruct (split_send body (last a') bs _ bs' E) as (b1 & b2 & b3 & E1 & E2 & E3 & E4).
  destruct (Register_rep limit dataSize pairSize trivial Hsize Hgrows Hpair Hlimit s a cb interval a' Hr Hd) as (s' & Er & Hr').
  exists bs', s'. split; [done|]. split; [done|]. unfold make_request.
  rewrite (bind_bbSend _ _ _ _ _ _ E1), (bind_rpcMgr _ _ _ _ _ _ Er), (bind_bbSend _ _ _ _ _ _ E2), (bind_bbSend _ _ _ _ _ _ E3).
  by rewrite (bind_bbSend _ _ _ _ _ _ E4).
Qed.

Lemma SendRequest_spec body cb interval ct bs s a a' :
  rep s a -> desk_register limit cb interval a = Some a' -> appends body ct -> packet_ok (MkPacket 1 None (last a') ct) -> bb_wf bs ->
  let out := encode (MkPacket 1 None (last a') ct) in
  exists bs' s', bb_wf bs' /\ rep s' a' /\
    (SendBytes out = 0 -> SendRequest dataSize pairSize trivial react depth SendBytes body cb interval (bs, s) = Done (last a', out) (bs', s')) /\
    (SendBytes out <> 0 -> forall a'', desk_callback react (desk_exec react limit depth) (last a') None a' = Some a'' ->
      exists s'', SendRequest dataSize pairSize trivial react depth SendBytes body cb interval (bs, s) = Done (0, out) (bs', s'') /\ rep s'' a'').
Proof using Hsize Hgrows Hpair Hlimit.
  intros Hr Hd Hb Hok W out. destruct (make_request_spec body cb interval ct bs s a a' Hr Hd Hb Hok W) as (bs' & s' & W' & Hr' & Es).
  exists bs', s'. split; [done|]. split; [done|]. unfold SendRequest. rewrite (bind_done _ _ _ _ _ Es). cbn [fst snd]. fold out.
  split; intros Hc; destruct (Z.eqb_spec (SendBytes out) 0); try done.
  intros a'' Hcb. cbn [negb].
  destruct (Callback_rep react limit trivial _ _ (exec_rep react limit dataSize pairSize trivial Hsize Hgrows Hpair Hlimit depth) _ _ s' a' a'' Hr' Hcb) as (s'' & Ec & Hr'').
  exists s''. by rewrite (bind_rpcMgr _ _ _ _ _ _ Ec).
Qed.

(** ** The receiving side *)

Context (handle : delivery -> bytes -> A -> fate * Bytes.BBuffer * A) (disconnect : option (UvRpcManager K bytes) * A -> option (UvRpcManager K bytes) * A).
Abbreviation event_of := (receive_event dataSize pairSize trivial react depth handle read_rest).

Definition answered (v : view) (st : option (UvRpcManager K bytes) * A) : option (UvRpcManager K bytes) * A :=
  match v, st.1 with
  | VResponse n _ ct, Some q =>
      (match Callback react (exec dataSize pairSize trivial react depth) n (Some ct) q with Done _ q => Some q | _ => None end, st.2)
  | _, _ => st
  end.

Lemma responses_go_on : goes_on (fun v => exists n sender ct, v = VResponse n sender ct) event_of answered.
Proof using Type.
  intros d sender st v Hv (n & sd & ct & ->). destruct d as [rb|k rb|k rb|rb ? ? ?]; cbn [view_of] in Hv;
    try (destruct (unread rb) as [u|] eqn:E; [|done]; discriminate); try (destruct (data_from rb _ _); discriminate).
  destruct (unread rb) as [u|] eqn:E; [|done]. injection Hv as -> <- ->. exists rb.
  assert (Er : read_rest rb = ct) by (unfold read_rest; by rewrite E).
  split; [|split; [done|intros x post H _; by exists x]]. unfold receive_event, answered. destruct st as [[q|] x]; cbn [fst snd]; [by rewrite Er|done].
Qed.

Lemma response_called n reply chunks (P : Peer (option (UvRpcManager K bytes) * A)) r q a a' :
  packet_ok (MkPacket 2 None n reply) -> rep q a -> desk_callback react (desk_exec react limit depth) n (Some reply) a = Some a' ->
  ready [] r (app P) P -> (app P).1 = Some q -> concat chunks = encode (MkPacket 2 None n reply) ->
  exists P' q', receive_all event_of disconnect chunks P = Done tt P' /\ app P' = (Some q', (app P).2) /\ rep q' a'.
Proof using Hsize Hgrows Hpair Hlimit.
  intros Hok Hr Hc HP Hq Ech. set (pk := MkPacket 2 None n reply) in *.
  destruct (receive_all_spec event_of disconnect answered _ responses_go_on chunks [] [pk] [] r (app P) P HP) as (P' & E & [_ _ _ Ea]).
  { unfold stream. cbn [fmap list_fmap concat]. by rewrite !app_nil_r, app_nil_l. }
  { apply Forall_singleton. split; [done|]. by eexists _, _, _. }
  { apply partial_nil. } { apply partial_nil. }
  { rewrite Ech. by apply encode_short. }
  destruct (Callback_rep react limit trivial _ _ (exec_rep react limit dataSize pairSize trivial Hsize Hgrows Hpair Hlimit depth) _ _ q a a' Hr Hc) as (q' & Ec & Hr').
  exists P', q'. split; [exact E|]. split; [|done]. rewrite Ea. unfold views, packet_view, package_view, pk. cbn [foldl address kind serial content Z.eqb Pos.eqb].
  unfold answered. rewrite Hq. by rewrite Ec.
Qed.
End requests.

Lemma desk_seen_grows {K R : Type} (react : Z -> K -> option R -> list (call K R)) limit :
  (forall depth c a a', desk_exec react limit depth c a = Some a' -> seen a `prefix_of` seen a') /\
  (forall depth n bb a a', desk_callback react (desk_exec react limit depth) n bb a = Some a' -> seen a `prefix_of` seen a').
Proof.
  apply (desk_exec_ind react limit (fun a a' => seen a `prefix_of` seen a')).
  - done. - intros a1 a2 a3 H1 H2. by etrans. - intros cb i a a' E. destruct (desk_register_inv _ _ _ _ _ E) as (_ & _ & _ & _ & _ & ->). cbn. by apply prefix_app_r.
  - intros n a. cbn. by apply prefix_app_r. - intros n cb bb a _. cbn. by apply prefix_app_r.
Qed.

Lemma desk_called_first {K R : Type} (react : Z -> K -> option R -> list (call K R)) limit depth n bb cb a a' :
  waiting a !! n = Some cb -> desk_callback react (desk_exec react limit depth) n bb a = Some a' -> seen a ++ [Called n cb bb] `prefix_of` seen a'.
Proof.
  intros Hw. unfold desk_callback. rewrite Hw. change (seen a ++ [Called n cb bb]) with (seen (see (Called n cb bb) (set_waiting (delete n (waiting a)) a))).
  apply (desk_each_ind (fun a a' => seen a `prefix_of` seen a')); [done|intros a1 a2 a3 H1 H2; by etrans|apply desk_seen_grows].
Qed.

Lemma serial_packet_ok k n ct : k = 1 \/ k = 2 -> is_uint 32 n -> Forall is_byte ct -> zlen ct <= 2 ^ 30 -> packet_ok (MkPacket k None n ct).
Proof.
  intros Hk Hn Hb Hl. change (2 ^ 30) with 1073741824 in Hl. pose proof (num_enc_length U32 n (or_intror (or_intror (or_introl eq_refl))) Hn) as Hz. change (num_need U32) with 5 in Hz.
  assert (Hp : payload (MkPacket k None n ct) = num_enc U32 n ++ ct) by (unfold payload; destruct Hk as [-> | ->]; done).
  assert (Hpos : 0 < zlen (num_enc U32 n)).
  { change (num_enc U32 n) with (VarWrite7 5 (var_of U32 n)). cbn [VarWrite7]. destruct (negb _); rewrite zlen_cons; [|done]. match goal with |- context [zlen ?l] => pose proof (zlen_nonneg l) end. lia. }
  change (2 ^ 31) with 2147483648. pose proof (zlen_nonneg ct). split; try done; rewrite ?Hp, ?zlen_app; cbn [kind]; change (2 ^ 31) with 2147483648; lia.
Qed.

(** ** Property *)

(** C14. A request of a peer gets a number from the manager, arrives as it was
    sent, and the response under that number, however both streams are cut into
    pieces, makes the manager call the callback that was given for it, first of
    all and with what the response holds. *)
Theorem request_round_trip {K A B : Type} (dataSize pairSize : Z) (trivial : bool) (react : Z -> K -> option bytes -> list (call K bytes))
    (depth : nat) (limit : Z) (SendBytes : bytes -> Z) body cb interval ct (bs : Bytes.BBuffer) s a a1 a2
    (accepts : view -> Prop) (serve : delivery -> bytes -> B -> fate * Bytes.BBuffer * B) (close : B -> B) h rS (S : Peer B) bodyS reply (bsS : Bytes.BBuffer)
    (handle : delivery -> bytes -> A -> fate * Bytes.BBuffer * A) disconnect :
  8 <= dataSize <= 512 -> no_shrink dataSize = true -> 0 < pairSize <= 2 ^ 16 -> 0 <= limit -> limit * 2 * dataSize < 2 ^ 31 ->
  rep limit trivial s a -> desk_register limit cb interval a = Some a1 ->
  appends body ct -> Forall is_byte ct -> zlen ct <= 2 ^ 30 -> bb_wf bs -> (forall b, SendBytes b = 0) ->
  goes_on accepts serve h -> (forall n, accepts (VRequest n [] ct)) -> idle rS S ->
  appends bodyS reply -> Forall is_byte reply -> zlen reply <= 2 ^ 30 -> bb_wf bsS ->
  desk_callback react (desk_exec react limit depth) (last a1) (Some reply) a1 = Some a2 ->
  exists out bs' s1 out' bsS',
    SendRequest dataSize pairSize trivial react depth SendBytes body cb interval (bs, s) = Done (last a1, out) (bs', s1) /\
    (forall chunks, concat chunks = out -> exists S', receive_all serve close chunks S = Done tt S' /\ app S' = h (VRequest (last a1) [] ct) (app S)) /\
    SendResponse (last a1) bodyS bsS = Done out' bsS' /\
    (forall chunks (P : Peer (option (UvRpcManager K bytes) * A)) r x, concat chunks = out' -> idle r P -> app P = (Some s1, x) ->
      exists P' s2, receive_all (receive_event dataSize pairSize trivial react depth handle read_rest) disconnect chunks P = Done tt P' /\
        app P' = (Some s2, x) /\ log s ++ [Registered (last a1) cb (now a + span a interval); Called (last a1) cb (Some reply)] `prefix_of` log s2).
Proof.
  intros Hd Hg Hp Hl1 Hl2 Hr Er Hb Hct Hctl W HSB Hgo Hacc HS Hbr Hrep Hrepl WS Ec.
  destruct (desk_register_inv _ _ _ _ _ Er) as (_ & Hn & _ & _ & _ & Ea1).
  assert (Hn32 : is_uint 32 (last a1)).
  { rewrite Ea1. cbn [last]. pose proof (rep_pos _ _ _ _ Hr). unfold is_uint. lia. }
  pose proof (serial_packet_ok 1 (last a1) ct (or_introl eq_refl) Hn32 Hct Hctl) as Hok1.
  pose proof (serial_packet_ok 2 (last a1) reply (or_intror eq_refl) Hn32 Hrep Hrepl) as Hok2.
  destruct (SendRequest_spec dataSize pairSize trivial react depth limit SendBytes Hd Hg Hp (conj Hl1 Hl2) body cb interval ct bs s a a1 Hr Er Hb Hok1 W) as (bs' & s1 & _ & Hr1 & Es & _).
  destruct (send_packet_spec (MkPacket 2 None (last a1) reply) bodyS bsS Hok2 WS Hbr) as (bsS' & Esr & _).
  eexists _, bs', s1, _, bsS'. split; [apply Es, HSB|]. split; [|split; [exact Esr|]].
  - intros chunks Hch. destruct (receive_all_spec serve close h accepts Hgo chunks [] [MkPacket 1 None (last a1) ct] [] rS (app S) S (idle_ready rS S HS)) as (S' & E & [_ _ _ Ea]).
    { unfold stream. cbn [fmap list_fmap concat]. by rewrite !app_nil_r, app_nil_l. } { apply Forall_singleton. split; [done|apply Hacc]. }
    { apply partial_nil. } { apply partial_nil. } { rewrite Hch. by apply encode_short. }
    exists S'. split; [exact E|exact Ea].
  - intros chunks P r x Hch HP Hap. assert (HP1 : (app P).1 = Some s1) by (by rewrite Hap).
    destruct (response_called dataSize pairSize trivial react depth limit Hd Hg Hp (conj Hl1 Hl2) handle disconnect (last a1) reply chunks P r s1 a1 a2 Hok2 Hr1 Ec (idle_ready r P HP) HP1 Hch)
      as (P' & s2 & E & Eap & Hr2).
    exists P', s2. split; [exact E|]. split; [by rewrite Eap, Hap|]. rewrite (rep_log _ _ _ _ Hr2), (rep_log _ _ _ _ Hr).
    etrans; [|apply (desk_called_first react limit depth (last a1) (Some reply) cb a1 a2); [|exact Ec]].
    + rewrite Ea1. cbn [seen last]. by rewrite <-app_assoc.
    + rewrite Ea1. cbn [waiting last]. apply lookup_insert_eq.
Qed.

(** The application of a client that has no other events. *)
Definition quiet (d : delivery) (sender : bytes) (x : unit) : fate * Bytes.BBuffer * unit := (Alive, buffer d, x).

Lemma request_round_trip_witness : exists (s0 s1 : UvRpcManager Z bytes) out bs' out' bsS',
  new_UvRpcManager 48 8 2 = Some s0 /\
  SendRequest 48 8 true (fun _ _ _ => []) 1 (fun _ => 0) (WriteBuf [1; 2]) 10 0 (no_bytes, s0) = Done (1, out) (bs', s1) /\
  (forall chunks, concat chunks = out -> exists S', receive_all log_event (fun l => l) chunks (MkPeer no_bytes [] [] []) = Done tt S' /\ app S' = [VRequest 1 [] [1; 2]]) /\
  SendResponse 1 (WriteBuf [3]) no_bytes = Done out' bsS' /\
  (forall chunks, concat chunks = out' -> exists P' s2,
    receive_all (receive_event 48 8 true (fun _ _ _ => []) 1 quiet read_rest) (fun a => a) chunks (MkPeer no_bytes [] [] (Some s1, tt)) = Done tt P' /\
    app P' = (Some s2, tt) /\ log s0 ++ [Registered 1 10 2; Called 1 10 (Some [3])] `prefix_of` log s2).
Proof.
  assert (H0 : exists s0, new_UvRpcManager (K := Z) (R := bytes) 48 8 2 = Some s0) by (eexists; vm_compute; reflexivity). destruct H0 as [s0 E0].
  pose proof (new_manager_rep 100 48 8 true 2 s0 ltac:(by vm_compute) ltac:(by vm_compute) ltac:(by vm_compute) E0) as R0.
  assert (I : idle [] (MkPeer no_bytes [] [] (@nil view))) by (split; [exact no_bytes_wf|done]).
  assert (Hb : forall b, Forall is_byte b -> Forall is_byte b) by done.
  destruct (request_round_trip (K := Z) (A := unit) (B := list view) 48 8 true (fun _ _ _ => []) 1 100 (fun _ => 0) (WriteBuf [1; 2]) 10 0 [1; 2] no_bytes s0
    (MkDesk 0 ∅ [] 2 0 []) (MkDesk 1 {[1 := 10]} [(2, 1)] 2 0 [Registered 1 10 2]) (MkDesk 1 ∅ [(2, 1)] 2 0 [Registered 1 10 2; Called 1 10 (Some [3])])
    (fun _ => True) log_event (fun l => l) log_view [] (MkPeer no_bytes [] [] []) (WriteBuf [3]) [3] no_bytes quiet (fun a => a))
    as (out & bs' & s1 & out' & bsS' & H1 & H2 & H3 & H4);
    [lia|by vm_compute|lia|lia|lia|exact R0|by vm_compute|apply appends_WriteBuf|by repeat constructor|by vm_compute|exact no_bytes_wf|done|exact log_goes_on|done|exact I
    |apply appends_WriteBuf|by repeat constructor|by vm_compute|exact no_bytes_wf|by vm_compute|].
  exists s0, s1, out, bs', out', bsS'. split; [exact E0|]. split; [exact H1|]. split; [exact H2|]. split; [exact H3|].
  intros chunks Hc. apply (H4 chunks (MkPeer no_bytes [] [] (Some s1, tt)) [] tt Hc); [split; [exact no_bytes_wf|done]|reflexivity].
Defined.
