(* ===== verification/PeerRpc.v ===== *)
(** * xx_uv.hpp, xx_uv.cpp of test_uv_4: the requests that a peer waits for

    [SendRequestEx] wraps the application's callback: the wrapper takes the
    number out of [rpcSerials], reads the package of the response and calls the
    application with it, or with none.  [RpcTraceCallback] calls every wrapper
    that still waits when the peer goes: it iterates over [rpcSerials] while the
    wrappers remove from it and the application may send again.

    The state is [bbSend], the manager of the loop, which other peers use too,
    [rpcSerials], and what the application of this peer has heard. *)

From Stdlib Require Import ZArith Lia.
From stdpp Require Import base numbers list gmap.
From S2P Require Import Prelude Util BBuffer Bytes Dict HashSet Queue RpcManager Packets Requests.
Open Scope Z_scope.

(** A callback in the manager: that of another user of the manager, or the
    wrapper of this peer around [k]. *)
Inductive rpc_callback (K : Type) :=
| Other (k : K)
| Ex (k : K).
Arguments Other {K}.
Arguments Ex {K}.

Record PeerRpc (K P : Type) := MkPeerRpc {
  bbSend : Bytes.BBuffer;
  rpcMgr : UvRpcManager (rpc_callback K) bytes;
  rpcSerials : option (HashSet Z);
  heard : list (K * option P)
}.
Arguments MkPeerRpc {K P}.
Arguments bbSend {K P}.
Arguments rpcMgr {K P}.
Arguments rpcSerials {K P}.
Arguments heard {K P}.

Section peer.
(** Callbacks and the packages that they are given. *)
Context {K P : Type}.
(** [sizeof] of the elements of the manager's table and queue and of the set. *)
Context (dataSize pairSize : Z) (trivial : bool) (nodeSize : Z).
(** [SendBytes], a virtual function, and [ReadRoot] for the classes of the
    application ([None] when it fails). *)
Context (SendBytes : bytes -> Z) (ReadRoot : bytes -> option P).

(** What the application does in a callback: it sends more requests. *)
Inductive reaction :=
| Send (body : M Bytes.BBuffer unit) (cb : K) (interval : Z).
Context (react : K -> option P -> list reaction).
Implicit Types s : PeerRpc K P.

Definition on_send {A} (m : M (Bytes.BBuffer * UvRpcManager (rpc_callback K) bytes) A) : M (PeerRpc K P) A := fun s =>
  match m (bbSend s, rpcMgr s) with
  | Done a (b, q) => Done a (MkPeerRpc b q (rpcSerials s) (heard s))
  | Fail e (b, q) => Fail e (MkPeerRpc b q (rpcSerials s) (heard s))
  | Undef => Undef
  end.
Definition on_rpcMgr {A} (m : M (UvRpcManager (rpc_callback K) bytes) A) : M (PeerRpc K P) A := on_send (Requests.on_rpcMgr m).
Definition on_rpcSerials {A} (m : M (HashSet Z) A) : M (PeerRpc K P) A := fun s =>
  match rpcSerials s with
  | None => Undef
  | Some h =>
      match m h with
      | Done a h => Done a (MkPeerRpc (bbSend s) (rpcMgr s) (Some h) (heard s))
      | Fail e h => Fail e (MkPeerRpc (bbSend s) (rpcMgr s) (Some h) (heard s))
      | Undef => Undef
      end
  end.
Definition set_rpcSerials (h : HashSet Z) s := MkPeerRpc (bbSend s) (rpcMgr s) (Some h) (heard s).
Definition hear (e : K * option P) s := MkPeerRpc (bbSend s) (rpcMgr s) (rpcSerials s) (heard s ++ [e]).

Definition call_fn : Type := Z -> rpc_callback K -> option bytes -> M (PeerRpc K P) unit.

(** [loop.rpcMgr->Callback(serial, bb)], with what a callback does. *)
Definition Callback (call : call_fn) (n : Z) (bb : option bytes) : M (PeerRpc K P) unit :=
  a ← on_rpcMgr (take_callback n);
  match a with
  | Some a => call n a bb
  | None => mret tt
  end.

Definition SendRequestEx (call : call_fn) (body : M Bytes.BBuffer unit) (cb : K) (interval : Z) : M (PeerRpc K P) Z :=
  r ← on_send (make_request dataSize pairSize trivial body (Ex cb) interval);
  serial ← (if negb (SendBytes r.2 =? 0) then _ ← Callback call r.1 None; mret 0 else mret r.1);
  if serial =? 0 then mret 0
  else
    s ← get;
    _ ← (match rpcSerials s with
         | Some _ => mret tt
         | None => h ← demand (new_HashSet nodeSize 16); modify (set_rpcSerials h)
         end);
    _ ← on_rpcSerials (Add nodeSize true serial);
    mret serial.

Fixpoint react_each (send : reaction -> M (PeerRpc K P) Z) (rs : list reaction) : M (PeerRpc K P) unit :=
  match rs with
  | [] => mret tt
  | r :: rs => _ ← send r; react_each send rs
  end.

(** A callback runs; the wrapper of [SendRequestEx] for those of this peer.
    [depth] bounds how deep callbacks nest. *)
Fixpoint invoke (depth : nat) (n : Z) (a : rpc_callback K) (bb : option bytes) : M (PeerRpc K P) unit :=
  match depth with
  | O => undef
  | S depth =>
      _ ← on_rpcMgr (modify (add_log (Called n a bb)));
      match a with
      | Other _ => mret tt
      | Ex k =>
          s ← get;
          _ ← (match rpcSerials s with Some _ => _ ← on_rpcSerials (Remove n); mret tt | None => mret tt end);
          let inPkg := b ← bb; ReadRoot b in
          _ ← modify (hear (k, inPkg));
          react_each (fun r => match r with Send body cb i => SendRequestEx (invoke depth) body cb i end) (react k inPkg)
      end
  end.

(** The loop of [RpcTraceCallback]: [e] is the end of the set as it was when
    the loop began. *)
Fixpoint trace_loop (call : call_fn) (fuel : nat) (i e : Z) : M (PeerRpc K P) unit :=
  if i =? e then mret tt
  else
    match fuel with
    | O => undef
    | S fuel =>
        serial ← on_rpcSerials (deref i);
        _ ← Callback call serial None;
        i ← on_rpcSerials (incr i);
        trace_loop call fuel i e
    end.

(** [versionNumber]: of the peer, 0 once it is being released. *)
Definition RpcTraceCallback (call : call_fn) (versionNumber : Z) : M (PeerRpc K P) unit :=
  s ← get;
  match rpcSerials s with
  | None => mret tt
  | Some _ =>
      i ← on_rpcSerials begin_;
      e ← on_rpcSerials end_;
      _ ← trace_loop call (Z.to_nat e) i e;
      if versionNumber =? 0 then mret tt else b ← on_rpcSerials HashSet.Empty; assert_ b
  end.

(** A tick of the manager. *)
Fixpoint process_loop (call : call_fn) (fuel : nat) : M (PeerRpc K P) unit :=
  match fuel with
  | O => undef
  | S fuel =>
      s ← get;
      if Queue.Empty (serials (rpcMgr s)) then mret tt
      else
        top ← on_rpcMgr (on_serials Top);
        if top.1 <=? ticks (rpcMgr s) then
          _ ← Callback call top.2 None;
          _ ← on_rpcMgr (on_serials (Queue.Pop trivial));
          process_loop call fuel
        else mret tt
  end.

Definition Process (call : call_fn) : M (PeerRpc K P) unit :=
  s ← get;
  _ ← assert_ (ticks (rpcMgr s) + 1 <? 2 ^ 31);
  _ ← on_rpcMgr (modify (set_ticks (ticks (rpcMgr s) + 1)));
  s ← get;
  if Queue.Empty (serials (rpcMgr s)) then mret tt
  else process_loop call (S (Z.to_nat (RpcManager.Count (rpcMgr s)))).

(** What happens to the peer: it sends, a response comes, another user of the
    manager registers or is answered, the manager's timer ticks. *)
Inductive rpc_input :=
| ISend (body : M Bytes.BBuffer unit) (cb : K) (interval : Z)
| IOther (cb : K) (interval : Z)
| IResponse (serial : Z) (bb : bytes)
| ITick.

Definition rpc_step (call : call_fn) (i : rpc_input) : M (PeerRpc K P) unit :=
  match i with
  | ISend body cb interval => _ ← SendRequestEx call body cb interval; mret tt
  | IOther cb interval => _ ← on_rpcMgr (Register dataSize pairSize trivial (Other cb) interval); mret tt
  | IResponse n bb => Callback call n (Some bb)
  | ITick => Process call
  end.

Fixpoint rpc_run (call : call_fn) (is_ : list rpc_input) : M (PeerRpc K P) unit :=
  match is_ with
  | [] => mret tt
  | i :: is_ => _ ← rpc_step call i; rpc_run call is_
  end.
End peer.
Arguments reaction : clear implicits.
Arguments rpc_input : clear implicits.
