(* ===== verification/PeerRpcProps.v ===== *)
(** * When a peer goes, its requests are answered

    For callbacks that do not send again, the numbers in [rpcSerials] are those
    of the wrappers that wait in the manager, so that [RpcTraceCallback] calls
    them all; and what happens when a callback does send again. *)

From Stdlib Require Import ZArith Lia.
From stdpp Require Import base numbers list gmap.
From S2P Require Import Prelude Util BBuffer Bytes BytesProps HashUtils Dict DictMap DictOps DictProps HashSet HashSetProps.
From S2P Require Import Queue QueueProps RpcManager RpcManagerProps Packets PacketsSpec PacketsProps Requests RequestsProps PeerRpc.
Open Scope Z_scope.

Section peer.
Context {K P : Type} (dataSize pairSize : Z) (trivial : bool) (nodeSize : Z) (limit : Z).
Context (SendBytes : bytes -> Z) (ReadRoot : bytes -> option P).
Abbreviation Desk := (RpcManagerProps.Desk (rpc_callback K) bytes).
Abbreviation call := (PeerRpc.invoke (P := P) dataSize pairSize trivial nodeSize SendBytes ReadRoot (fun _ _ => []) 1).
Implicit Types (s : PeerRpc K P) (a : Desk) (X H : gset Z) (n c : Z).

(** What the application of the peer hears of an event. *)
Definition heard_of (e : event (rpc_callback K) bytes) : option (K * option P) :=
  match e with
  | Called _ (Ex k) bb => Some (k, b ← bb; ReadRoot b)
  | _ => None
  end.

(** The manager is [a]; the set has the numbers [X] of the wrappers that wait,
    but for those in [H], in at most [c] elements. *)
Record peer_rep s a X H c : Prop := {
  pr_bb : bb_wf (bbSend s);
  pr_mgr : rep limit trivial (rpcMgr s) a;
  pr_set : match rpcSerials s with Some h => set_repr h X /\ count h <= c | None => X = ∅ end;
  pr_pending n : n ∈ X <-> (exists k, waiting a !! n = Some (Ex k)) /\ n ∉ H;
  pr_heard : heard s = omap heard_of (seen a);
  pr_count : 0 <= c
}.

(** A callback is called, if it waits. *)
Definition answer n (bb : option bytes) a : Desk :=
  match waiting a !! n with
  | Some cb => see (Called n cb bb) (set_waiting (delete n (waiting a)) a)
  | None => a
  end.

Lemma answer_desk f n bb a : desk_callback (fun _ _ _ => []) f n bb a = Some (answer n bb a).
Proof. unfold desk_callback, answer. by destruct (waiting a !! n). Qed.

Lemma on_rpcMgr_done {A} (m : M (UvRpcManager (rpc_callback K) bytes) A) s v q : m (rpcMgr s) = Done v q ->
  on_rpcMgr m s = Done v (MkPeerRpc (bbSend s) q (rpcSerials s) (heard s)).
Proof. intros E. unfold on_rpcMgr, on_send, Requests.on_rpcMgr. cbn. by rewrite E. Qed.

Lemma on_rpcSerials_done {A} (m : M (HashSet Z) A) s h v h' : rpcSerials s = Some h -> m h = Done v h' ->
  on_rpcSerials m s = Done v (MkPeerRpc (bbSend s) (rpcMgr s) (Some h') (heard s)).
Proof. intros E Em. unfold on_rpcSerials. by rewrite E, Em. Qed.

(** The element of [n] is gone from the set, the others are where they were. *)
Definition freed n s s' : Prop :=
  match rpcSerials s, rpcSerials s' with
  | Some h, Some h' => count h' = count h /\
      forall j, 0 <= j < count h -> key_at h' j = if decide (key_at h j = Some n) then None else key_at h j
  | None, None => True
  | _, _ => False
  end.

Lemma freed_absent n s a X H c s' : peer_rep s a X H c -> n ∉ X -> rpcSerials s' = rpcSerials s -> freed n s s'.
Proof.
  intros R Hn E. unfold freed. rewrite E. pose proof (pr_set _ _ _ _ _ R) as Hs. destruct (rpcSerials s) as [h|]; [|done].
  split; [done|]. intros j Hj. case_decide as Ek; [|done]. destruct Hn. apply elem_of_elements.
  destruct Hs as [Hs _]. rewrite <-(keys_repr h X Hs). apply list_elem_of_omap. exists j. split; [apply elem_of_seqZ; lia|done].
Qed.

Lemma answer_pending a n bb X H : (forall m, m ∈ X <-> (exists k, waiting a !! m = Some (Ex k)) /\ m ∉ H) ->
  forall m, m ∈ X ∖ {[n]} <-> (exists k, waiting (answer n bb a) !! m = Some (Ex k)) /\ m ∉ H ∖ {[n]}.
Proof.
  intros HX m. unfold answer. destruct (waiting a !! n) as [cb|] eqn:E.
  - cbn [waiting see set_waiting]. rewrite elem_of_difference, HX, elem_of_singleton, lookup_delete. case_decide as Hm; [naive_solver|].
    set_solver.
  - rewrite elem_of_difference, HX, elem_of_singleton. destruct (decide (m = n)) as [->|Hne]; [rewrite E; naive_solver|]. set_solver.
Qed.

Lemma Callback_peer s a X H c n bb : peer_rep s a X H c ->
  exists s', PeerRpc.Callback call n bb s = Done tt s' /\ peer_rep s' (answer n bb a) (X ∖ {[n]}) (H ∖ {[n]}) c /\ freed n s s'.
Proof.
  intros R. unfold PeerRpc.Callback. destruct (take_callback_rep limit trivial (rpcMgr s) a n (pr_mgr _ _ _ _ _ R)) as (q & Eq & Hq).
  rewrite (bind_done _ _ _ _ _ (on_rpcMgr_done _ s _ q Eq)).
  pose proof (answer_pending a n bb X H (pr_pending _ _ _ _ _ R)) as Hp. unfold answer in *.
  destruct (waiting a !! n) as [cb|] eqn:E.
  - cbn [PeerRpc.invoke]. set (s1 := MkPeerRpc _ _ _ _).
    rewrite (bind_done _ _ s1 _ _ (on_rpcMgr_done _ s1 tt (add_log (Called n cb bb) q) eq_refl)).
    assert (Hq1 : rep limit trivial (add_log (Called n cb bb) q) (see (Called n cb bb) (set_waiting (delete n (waiting a)) a))) by by apply rep_see.
    destruct cb as [k|k].
    + assert (Hn : n ∉ X) by (intros ((k' & Ek) & _)%(pr_pending _ _ _ _ _ R); congruence).
      eexists. split; [reflexivity|]. split; [|by eapply freed_absent].
      split; try done; cbn [rpcSerials PeerRpc.hear heard s1 seen see set_waiting]; try apply R.
      * replace (X ∖ {[n]}) with X by set_solver. apply R.
      * rewrite omap_app, (pr_heard _ _ _ _ _ R). cbn. by rewrite app_nil_r.
    + rewrite bind_get. cbn [rpcSerials s1]. pose proof (pr_set _ _ _ _ _ R) as Hs. unfold freed. destruct (rpcSerials s) as [h|] eqn:Eh.
      * destruct Hs as [Hs Hc]. destruct (Remove_at h X n Hs) as (h' & Er & Ec & Hs' & Hk).
        rewrite bind_assoc. rewrite (bind_done _ _ _ _ _ (on_rpcSerials_done (Remove n) (MkPeerRpc (bbSend s1) (add_log (Called n (Ex k) bb) q) (Some h) (heard s1)) h _ h' eq_refl Er)).
        rewrite bind_mret, bind_modify. eexists. split; [reflexivity|]. split; [|by cbn].
        split; try done; cbn [rpcSerials PeerRpc.hear heard s1 seen see set_waiting]; try apply R.
        -- split; [done|lia].
        -- by rewrite omap_app, (pr_heard _ _ _ _ _ R).
      * rewrite bind_mret, bind_modify. eexists. split; [reflexivity|]. split; [|done].
        split; try done; cbn [rpcSerials PeerRpc.hear heard s1 seen see set_waiting]; try apply R.
        -- subst X. set_solver.
        -- by rewrite omap_app, (pr_heard _ _ _ _ _ R).
  - assert (Hn : n ∉ X) by (intros ((k' & Ek) & _)%(pr_pending _ _ _ _ _ R); congruence).
    eexists. split; [reflexivity|]. split; [|by eapply freed_absent]. replace (X ∖ {[n]}) with X in Hp |- * by set_solver.
    assert (Ha : set_waiting (delete n (waiting a)) a = a) by (rewrite delete_id by done; by destruct a). rewrite Ha in Hq.
    split; try done; apply R.
Qed.

(** ** The trace *)

Definition answers (ks : list Z) a : Desk := foldl (fun a n => answer n None a) a ks.

Lemma keys_from_freed (h h' : HashSet Z) k i : count h' = count h -> 0 <= i ->
  (forall j, 0 <= j < count h -> key_at h' j = if decide (key_at h j = Some k) then None else key_at h j) ->
  k ∉ keys_from h i -> keys_from h' i = keys_from h i.
Proof.
  intros Ec Hi Hk Hn. unfold keys_from in *. rewrite Ec. assert (Hin : forall j, j ∈ seqZ i (count h - i) -> 0 <= j < count h).
  { intros j Hj%elem_of_seqZ. lia. }
  induction (seqZ i (count h - i)) as [|j l IH]; [done|]. cbn [omap list_omap] in *.
  rewrite Hk by (apply Hin; left). destruct (key_at h j) as [k'|] eqn:Ej; case_decide as E; try done.
  - injection E as ->. set_solver.
  - f_equal. apply IH; [set_solver|]. intros ??. apply Hin. by right.
  - apply IH; [done|]. intros ??. apply Hin. by right.
Qed.

Lemma trace_loop_peer fuel : forall i s a X c h, peer_rep s a X ∅ c -> rpcSerials s = Some h -> 0 <= i <= count h ->
  (i < count h -> is_Some (key_at h i)) -> X = list_to_set (keys_from h i) -> NoDup (keys_from h i) ->
  count h - i <= Z.of_nat fuel ->
  exists s', trace_loop call fuel i (count h) s = Done tt s' /\ peer_rep s' (answers (keys_from h i) a) ∅ ∅ c /\ is_Some (rpcSerials s').
Proof.
  induction fuel as [|fuel IH]; intros i s a X c h R Eh Hi Hu HX Hnd Hf; cbn [trace_loop];
    destruct (Z.eqb_spec i (count h)) as [->|Hne]; try lia; try (rewrite keys_from_end in *; subst X; exists s; by rewrite Eh).
  destruct (Hu ltac:(lia)) as [k Ek]. pose proof (key_at_deref h i k Ek) as Ed.
  rewrite (bind_done _ _ s k s). 2:{ rewrite (on_rpcSerials_done _ s h k h Eh Ed), <-Eh. by destruct s. }
  destruct (Callback_peer s a X ∅ c k None R) as (s1 & E1 & R1 & Hf1). replace (∅ ∖ {[k]}) with (∅ : gset Z) in R1 by set_solver. rewrite (bind_done _ _ _ _ _ E1).
  unfold freed in Hf1. rewrite Eh in Hf1. destruct (rpcSerials s1) as [h1|] eqn:Eh1; [|done]. destruct Hf1 as [Ec Hk].
  rewrite (keys_from_cons h i), Ek in Hnd, HX |- * by lia. apply NoDup_cons in Hnd as [Hkn Hnd].
  assert (Ek1 : keys_from h1 (i + 1) = keys_from h (i + 1)) by (apply (keys_from_freed h h1 k); [done|lia|done|done]).
  pose proof (pr_set _ _ _ _ _ R1) as Hs1. rewrite Eh1 in Hs1. destruct Hs1 as [Hs1 _].
  destruct (incr_set h1 _ i Hs1) as (j & Ej & Hj & Er & Hu'); [lia|].
  rewrite (bind_done _ _ s1 j s1). 2:{ rewrite (on_rpcSerials_done _ s1 h1 j h1 Eh1 Ej), <-Eh1. by destruct s1. }
  rewrite Ek1 in Er. cbn [answers foldl]. rewrite Er, <-Ec.
  apply (IH j s1 _ (X ∖ {[k]}) c h1); try done; try lia.
  - rewrite <-Er, HX. rewrite list_to_set_cons. apply set_eq. intros x. rewrite elem_of_difference, elem_of_union, elem_of_singleton, elem_of_list_to_set. naive_solver.
  - by rewrite <-Er.
Qed.

(** The set as it is when the loop begins gives the order of the calls. *)
Lemma RpcTraceCallback_peer s a X c v : peer_rep s a X ∅ c ->
  exists ks s', ks ≡ₚ elements X /\ RpcTraceCallback call v s = Done tt s' /\ peer_rep s' (answers ks a) ∅ ∅ c.
Proof.
  intros R. pose proof (pr_set _ _ _ _ _ R) as Hs. unfold RpcTraceCallback. rewrite bind_get. destruct (rpcSerials s) as [h|] eqn:Eh.
  - destruct Hs as [Hs Hc]. pose proof (keys_repr h X Hs) as Hp. exists (keys_from h 0).
    destruct (begin_set h X Hs) as (i & Ei & Hi & E & Hu). rewrite E in Hp |- *.
    rewrite (bind_done _ _ s i s). 2:{ rewrite (on_rpcSerials_done _ s h i h Eh Ei), <-Eh. by destruct s. }
    rewrite (bind_done _ _ s (count h) s). 2:{ rewrite (on_rpcSerials_done end_ s h (count h) h Eh eq_refl), <-Eh. by destruct s. }
    destruct (trace_loop_peer (Z.to_nat (count h)) i s a X c h R Eh) as (s' & Et & R' & [h' Eh']); [lia|done| | |lia|].
    { apply set_eq. intros x. by rewrite elem_of_list_to_set, Hp, elem_of_elements. }
    { rewrite Hp. apply NoDup_elements. }
    exists s'. split; [done|]. rewrite (bind_done _ _ _ _ _ Et). split; [|done]. destruct (v =? 0); [done|].
    pose proof (pr_set _ _ _ _ _ R') as Hs'. rewrite Eh' in Hs'. destruct Hs' as [Hs' _].
    rewrite (bind_done _ _ s' true s'); [done|]. rewrite (on_rpcSerials_done _ s' h' _ h' Eh' (Empty_set h' ∅ Hs')), <-Eh'. by destruct s'.
  - exists [], s. subst X. by rewrite elements_empty.
Qed.

(** ** Ticks *)

Lemma peer_manager s a a' X c q : peer_rep s a X ∅ c -> rep limit trivial q a' -> waiting a' = waiting a -> omap heard_of (seen a') = omap heard_of (seen a) ->
  peer_rep (MkPeerRpc (bbSend s) q (rpcSerials s) (heard s)) a' X ∅ c.
Proof. intros [] Hq Hw Hs. split; try done; cbn; [by rewrite Hw|by rewrite Hs]. Qed.

Abbreviation no_calls := (fun (_ : Z) (_ : rpc_callback K) (_ : option bytes) => @nil (RpcManager.call (rpc_callback K) bytes)).

Lemma process_loop_peer l : forall fuel new s a a' X c, peer_rep s a X ∅ c -> entries a = l ++ new -> Forall (fun e => now a < e.1) new ->
  desk_process no_calls limit 0 l a = Some a' -> (length l < fuel)%nat ->
  exists s' X', PeerRpc.process_loop trivial call fuel s = Done tt s' /\ peer_rep s' a' X' ∅ c.
Proof.
  induction l as [|[d n] l IH]; intros fuel new s a a' X c R El Hn E Hf; (destruct fuel as [|fuel]; [cbn in Hf; lia|]); cbn [PeerRpc.process_loop desk_process app] in *;
    rewrite bind_get; pose proof (rep_serials _ _ _ _ (pr_mgr _ _ _ _ _ R)) as Hq; rewrite El in Hq; destruct (Queue.Empty (serials (rpcMgr s))) eqn:Ee.
  - injection E as <-. by exists s, X.
  - injection E as <-. destruct new as [|e new].
    { assert (head (serials (rpcMgr s)) = Queue.tail (serials (rpcMgr s))) as Eh by (by apply (Empty_nil _ _ _ Hq)). unfold Queue.Empty in Ee. by apply Z.eqb_neq in Ee. }
    rewrite (bind_done _ _ _ _ _ (on_rpcMgr_done _ s _ _ (on_serials_same _ _ _ (Queue_Top_spec _ _ _ _ Hq)))).
    apply Forall_cons in Hn as [Hn _]. rewrite (rep_ticks _ _ _ _ (pr_mgr _ _ _ _ _ R)). destruct (Z.leb_spec e.1 (now a)); [lia|].
    exists s, X. split; [by destruct s|done].
  - unfold Queue.Empty in Ee. apply Z.eqb_eq in Ee. by apply (Empty_nil _ _ _ Hq) in Ee.
  - rewrite (bind_done _ _ _ _ _ (on_rpcMgr_done _ s _ _ (on_serials_same _ _ _ (Queue_Top_spec _ _ _ _ Hq)))). cbn [fst snd].
    rewrite (rep_ticks _ _ _ _ (pr_mgr _ _ _ _ _ R)). replace (MkPeerRpc _ _ _ _) with s by by destruct s.
    destruct (d <=? now a); [|injection E as <-; by exists s, X].
    rewrite answer_desk in E. cbn in E. destruct (Callback_peer s a X ∅ c n None R) as (s1 & E1 & R1 & _).
    replace (∅ ∖ {[n]}) with (∅ : gset Z) in R1 by set_solver. rewrite (bind_done _ _ _ _ _ E1).
    assert (Ea : entries (answer n None a) = (d, n) :: l ++ new /\ now (answer n None a) = now a).
    { unfold answer. by destruct (waiting a !! n). }
    destruct Ea as [Ea En]. rewrite Ea in E. cbn [List.tl] in E.
    destruct (pop_rep limit trivial _ _ (d, n) (l ++ new) (pr_mgr _ _ _ _ _ R1) Ea) as (q & Ep & Hq1).
    rewrite (bind_done _ _ _ _ _ (on_rpcMgr_done _ s1 _ _ Ep)).
    eapply (IH fuel new); [by eapply (peer_manager s1 (answer n None a))|done|by cbn [now set_entries]; rewrite En|exact E|cbn in Hf; lia].
Qed.

Lemma Process_peer s a a' X c : peer_rep s a X ∅ c -> now a + 1 < 2 ^ 31 -> desk_process no_calls limit 0 (entries a) (set_now (now a + 1) a) = Some a' ->
  exists s' X', PeerRpc.Process trivial call s = Done tt s' /\ peer_rep s' a' X' ∅ c.
Proof.
  intros R Hnow E. unfold PeerRpc.Process. pose proof (pr_mgr _ _ _ _ _ R) as Hm. rewrite bind_get, (rep_ticks _ _ _ _ Hm).
  destruct (Z.ltb_spec (now a + 1) (2 ^ 31)); [|lia]. cbn [assert_]. rewrite bind_mret.
  rewrite (bind_done _ _ s _ _ (on_rpcMgr_done _ s tt (set_ticks (now a + 1) (rpcMgr s)) eq_refl)), bind_get.
  set (s1 := MkPeerRpc _ _ _ _). assert (R1 : peer_rep s1 (set_now (now a + 1) a) X ∅ c).
  { apply (peer_manager s a); try done. split; try apply Hm; cbn; [done|]. pose proof (rep_pos _ _ _ _ Hm). lia. }
  pose proof (rep_serials _ _ _ _ Hm) as Hq. destruct (Queue.Empty _) eqn:Ee.
  - unfold Queue.Empty in Ee. cbn in Ee. apply Z.eqb_eq, (Empty_nil _ _ _ Hq) in Ee. rewrite Ee in E. cbn in E. injection E as <-. by exists s1, X.
  - eapply (process_loop_peer (entries a) _ []); [exact R1|by rewrite app_nil_r|done|exact E|].
    unfold Count. cbn [serials set_ticks s1 rpcMgr]. rewrite (Count_length _ _ _ Hq). unfold zlen. lia.
Qed.

(** ** Sending *)

Lemma on_send_peer {A} (m : M (Bytes.BBuffer * UvRpcManager (rpc_callback K) bytes) A) s v b q : m (bbSend s, rpcMgr s) = Done v (b, q) ->
  on_send m s = Done v (MkPeerRpc b q (rpcSerials s) (heard s)).
Proof. intros E. unfold on_send. by rewrite E. Qed.

Context (Hsize : 8 <= dataSize <= 512) (Hgrows : no_shrink dataSize = true) (Hpair : 0 < pairSize <= 2 ^ 16).
Context (Hlimit : 0 <= limit /\ limit * 2 * dataSize < 2 ^ 31).
Context (Hnode : 8 <= nodeSize <= 512) (Hngrows : no_shrink nodeSize = true).

Lemma SendRequestEx_peer s a X c body ct cb interval a1 : peer_rep s a X ∅ c -> (c + 1) * 2 * nodeSize < 2 ^ 31 ->
  appends body ct -> Forall is_byte ct -> zlen ct <= 2 ^ 30 -> inv a ->
  desk_register limit (Ex cb) interval a = Some a1 ->
  let failed := negb (SendBytes (encode (MkPacket 1 None (last a1) ct)) =? 0) in
  exists n s' X', SendRequestEx dataSize pairSize trivial nodeSize SendBytes call body cb interval s = Done n s' /\
    peer_rep s' (if failed then answer (last a1) None a1 else a1) X' ∅ (c + 1).
Proof using Hsize Hgrows Hpair Hlimit Hnode Hngrows.
  intros R Hc Hb Hby Hl I E failed. destruct (desk_register_inv _ _ _ _ _ E) as (_ & Hn & _ & _ & _ & Ea1).
  pose proof (rep_pos _ _ _ _ (pr_mgr _ _ _ _ _ R)) as [Hpos _].
  assert (El : last a1 = last a + 1) by by rewrite Ea1. assert (Hu : is_uint 32 (last a1)) by rng.
  destruct (make_request_spec dataSize pairSize trivial limit Hsize Hgrows Hpair Hlimit body (Ex cb) interval ct
    (bbSend s) (rpcMgr s) a a1 (pr_mgr _ _ _ _ _ R) E Hb (serial_packet_ok 1 _ ct (or_introl eq_refl) Hu Hby Hl) (pr_bb _ _ _ _ _ R)) as (b & q & Wb & Hq & Em).
  unfold SendRequestEx. rewrite (bind_done _ _ _ _ _ (on_send_peer _ s _ b q Em)). cbn [fst snd]. fold failed.
  set (s1 := MkPeerRpc b q (rpcSerials s) (heard s)). destruct (inv_fresh a (last a1) I) as (Fw & _); [lia|].
  assert (R1 : peer_rep s1 a1 X {[last a1]} c).
  { split; try done; cbn [rpcSerials heard s1]; try apply R.
    - intros m. rewrite (pr_pending _ _ _ _ _ R m), elem_of_singleton, Ea1. cbn [waiting]. rewrite lookup_insert. case_decide as Hm; [subst m; rewrite <-El, Fw; naive_solver|].
      rewrite <-El in Hm. set_solver.
    - rewrite (pr_heard _ _ _ _ _ R), Ea1. cbn [seen]. by rewrite omap_app, app_nil_r. }
  destruct failed.
  - destruct (Callback_peer s1 a1 X _ c (last a1) None R1) as (s2 & E2 & R2 & _).
    replace ({[last a1]} ∖ {[last a1]}) with (∅ : gset Z) in R2 by set_solver.
    rewrite bind_assoc, (bind_done _ _ _ _ _ E2), bind_mret. cbn [Z.eqb]. eexists _, s2, _. split; [done|].
    destruct R2 as [? ? Hs ? ? ?]. split; try done; [|lia]. destruct (rpcSerials s2); [|done]. split; [apply Hs|]. destruct Hs. lia.
  - rewrite bind_mret. destruct (Z.eqb_spec (last a1) 0); [lia|]. rewrite bind_get.
    assert (Hset : exists h0, (match rpcSerials s1 with
         | Some _ => mret tt
         | None => h ← demand (new_HashSet nodeSize 16); modify (set_rpcSerials h)
         end) s1 = Done tt (set_rpcSerials h0 s1) /\ set_repr h0 X /\ count h0 <= c).
    { pose proof (pr_set _ _ _ _ _ R1) as Hs. pose proof (pr_count _ _ _ _ _ R). cbn [rpcSerials s1] in *. destruct (rpcSerials s) as [h|] eqn:Eh.
      - exists h. by unfold set_rpcSerials.
      - assert (Hnew : exists h, new_HashSet (K := Z) nodeSize 16 = Some h).
        { unfold new_HashSet. destruct (GetPrime_total 16 nodeSize) as (p & -> & _); [lia|done|lia|]. by eexists. }
        destruct Hnew as [h En]. rewrite En. exists h. split; [done|]. subst X. destruct (new_HashSet_repr nodeSize Hnode 16 h En) as [? ->]. done. }
    destruct Hset as (h0 & E0 & Hs0 & Hc0). rewrite (bind_done _ _ _ _ _ E0).
    destruct (Add_set nodeSize Hnode Hngrows h0 X (last a1) Hs0) as (h1 & E1 & Hc1 & Hs1); [nia|].
    rewrite (bind_done _ _ _ _ _ (on_rpcSerials_done _ (set_rpcSerials h0 s1) h0 _ h1 eq_refl E1)).
    eexists _, _, ({[last a1]} ∪ X). split; [reflexivity|]. destruct R1 as [Rb Rm _ Hp Rh Rc].
    split; [exact Rb|exact Rm|split; [exact Hs1|lia]| |exact Rh|lia].
    intros m. rewrite elem_of_union, elem_of_singleton, Hp, elem_of_singleton. split.
    2:{ intros [Hk _]. destruct (decide (m = last a1)) as [->|Hm]; [by left|right; by split]. }
    intros [->|[? ?]]; [|done]. split; [|set_solver]. exists cb. rewrite El, Ea1. cbn [waiting]. apply lookup_insert_eq.
Qed.

(** ** Sessions *)

(** What a body writes. *)
Context (content_of : M Bytes.BBuffer unit -> bytes).

Definition desk_input (i : rpc_input K) a : option Desk :=
  match i with
  | ISend body cb interval =>
      a1 ← desk_register limit (Ex cb) interval a;
      Some (if negb (SendBytes (encode (MkPacket 1 None (last a1) (content_of body))) =? 0) then answer (last a1) None a1 else a1)
  | IOther cb interval => desk_register limit (Other cb) interval a
  | IResponse n bb => Some (answer n (Some bb) a)
  | ITick => desk_step no_calls limit 0 Tick a
  end.

Fixpoint desk_inputs (is_ : list (rpc_input K)) a : option Desk :=
  match is_ with
  | [] => Some a
  | i :: is_ => a ← desk_input i a; desk_inputs is_ a
  end.

Definition input_ok (i : rpc_input K) : Prop :=
  match i with
  | ISend body _ _ => appends body (content_of body) /\ Forall is_byte (content_of body) /\ zlen (content_of body) <= 2 ^ 30
  | _ => True
  end.

Lemma peer_rep_mono s a X c : peer_rep s a X ∅ c -> peer_rep s a X ∅ (c + 1).
Proof.
  intros [Rb Rm Rs Rp Rh Rc]. split; [exact Rb|exact Rm| |exact Rp|exact Rh|lia].
  destruct (rpcSerials s); [|done]. destruct Rs. split; [done|lia].
Qed.

Lemma rpc_step_peer s a a' X c i : peer_rep s a X ∅ c -> inv a -> (c + 1) * 2 * nodeSize < 2 ^ 31 -> input_ok i -> desk_input i a = Some a' ->
  exists s' X', rpc_step dataSize pairSize trivial nodeSize SendBytes call i s = Done tt s' /\ peer_rep s' a' X' ∅ (c + 1).
Proof using Hsize Hgrows Hpair Hlimit Hnode Hngrows.
  intros R I Hc Hok E. destruct i as [body cb interval|cb interval|n bb|]; cbn [rpc_step desk_input input_ok] in *.
  - destruct (desk_register limit (Ex cb) interval a) as [a1|] eqn:E1; [|done]. injection E as <-. destruct Hok as (Hb & Hby & Hl).
    destruct (SendRequestEx_peer s a X c body (content_of body) cb interval a1 R Hc Hb Hby Hl I E1) as (n & s' & X' & Es & R').
    rewrite (bind_done _ _ _ _ _ Es). by exists s', X'.
  - destruct (Register_rep limit dataSize pairSize trivial Hsize Hgrows Hpair Hlimit (rpcMgr s) a (Other cb) interval a' (pr_mgr _ _ _ _ _ R) E) as (q & Eq & Hq).
    rewrite (bind_done _ _ _ _ _ (on_rpcMgr_done _ s _ q Eq)). eexists _, X. split; [reflexivity|]. apply peer_rep_mono.
    destruct (desk_register_inv _ _ _ _ _ E) as (_ & _ & _ & _ & _ & ->). destruct (inv_fresh a (last a + 1) I) as (Fw & _); [lia|].
    destruct R as [Rb Rm Rs Rp Rh Rc]. split; [exact Rb|exact Hq|exact Rs| | |exact Rc].
    + intros m. rewrite Rp. cbn [waiting]. rewrite lookup_insert. case_decide as Hm; [subst m; rewrite Fw|done].
      split; intros [(k & Ek) _]; congruence.
    + cbn [heard seen]. by rewrite omap_app, app_nil_r.
  - injection E as <-. destruct (Callback_peer s a X ∅ c n (Some bb) R) as (s' & Es & R' & _).
    replace (∅ ∖ {[n]}) with (∅ : gset Z) in R' by set_solver. exists s', (X ∖ {[n]}). split; [done|by apply peer_rep_mono].
  - cbn [desk_step] in E. destruct (Z.ltb_spec (now a + 1) (2 ^ 31)) as [Hnow|]; [|done].
    destruct (Process_peer s a a' X c R Hnow E) as (s' & X' & Es & R'). exists s', X'. split; [done|by apply peer_rep_mono].
Qed.

(** ** Invariants of the manager *)

Definition uncancelled a : Prop := forall n, Unregistered n ∉ seen a.

Lemma answer_inv n bb a : inv a -> uncancelled a -> inv (answer n bb a) /\ uncancelled (answer n bb a).
Proof.
  intros I U. unfold answer. destruct (waiting a !! n) as [cb|] eqn:E; [|by split]. split; [by apply (inv_call no_calls)|].
  intros m. cbn. rewrite elem_of_app, list_elem_of_singleton. intros [Hm|Hm]; [by apply (U m)|done].
Qed.

Lemma register_inv cb i a a' : desk_register limit cb i a = Some a' -> inv a -> uncancelled a -> inv a' /\ uncancelled a'.
Proof.
  intros E I U. split; [by eapply (inv_register no_calls limit)|]. destruct (desk_register_inv _ _ _ _ _ E) as (_ & _ & _ & _ & _ & ->).
  intros m. cbn. rewrite elem_of_app, list_elem_of_singleton. intros [Hm|Hm]; [by apply (U m)|done].
Qed.

Lemma process_uncancelled l : forall a a', desk_process no_calls limit 0 l a = Some a' -> uncancelled a -> uncancelled a'.
Proof.
  induction l as [|[d n] l IH]; intros a a' E U; cbn [desk_process] in E; [by injection E as <-|].
  destruct (_ <=? _); [|by injection E as <-]. rewrite answer_desk in E. cbn in E. apply IH in E; [done|].
  intros m. unfold answer. destruct (waiting a !! n); [|apply (U m)]. cbn. rewrite elem_of_app, list_elem_of_singleton.
  intros [Hm|Hm]; [by apply (U m)|done].
Qed.

Lemma input_inv i a a' : desk_input i a = Some a' -> inv a /\ uncancelled a -> inv a' /\ uncancelled a'.
Proof.
  intros E [I U]. destruct i as [body cb interval|cb interval|n bb|]; cbn [desk_input] in E.
  - destruct (desk_register limit (Ex cb) interval a) as [a1|] eqn:E1; [|done]. injection E as <-.
    destruct (register_inv _ _ _ _ E1 I U). destruct (negb _); [by apply answer_inv|done].
  - by eapply register_inv.
  - injection E as <-. by apply answer_inv.
  - cbn [desk_step] in E. destruct (now a + 1 <? 2 ^ 31); [|done]. split; [|by eapply process_uncancelled].
    assert (I1 : inv (set_now (now a + 1) a)) by (destruct I; by split).
    destruct (inv_process no_calls limit 0 (entries a) [] (set_now (now a + 1) a) a' I1) as [? _]; [cbn; by rewrite app_nil_r|done|done|done].
Qed.

Lemma inputs_inv is_ : forall a a', desk_inputs is_ a = Some a' -> inv a /\ uncancelled a -> inv a' /\ uncancelled a'.
Proof.
  induction is_ as [|i is_ IH]; intros a a' E H; cbn [desk_inputs] in E; [by injection E as <-|].
  destruct (desk_input i a) as [a1|] eqn:E1; [|done]. cbn in E. apply (IH a1 a' E). by eapply input_inv.
Qed.

Lemma answers_inv ks : forall a, inv a -> uncancelled a -> inv (answers ks a) /\ uncancelled (answers ks a).
Proof.
  induction ks as [|n ks IH]; intros a I U; cbn [answers foldl]; [done|]. destruct (answer_inv n None a I U). by apply IH.
Qed.

Lemma rpc_run_peer is_ : forall s a a' X c, peer_rep s a X ∅ c -> inv a -> uncancelled a -> (c + zlen is_) * 2 * nodeSize < 2 ^ 31 ->
  Forall input_ok is_ -> desk_inputs is_ a = Some a' ->
  exists s' X' c', rpc_run dataSize pairSize trivial nodeSize SendBytes call is_ s = Done tt s' /\ peer_rep s' a' X' ∅ c'.
Proof using Hsize Hgrows Hpair Hlimit Hnode Hngrows.
  induction is_ as [|i is_ IH]; intros s a a' X c R I U Hc Hok E; cbn [rpc_run desk_inputs] in *; [injection E as <-; by exists s, X, c|].
  rewrite zlen_cons in Hc. pose proof (zlen_nonneg is_). apply Forall_cons in Hok as [Hi Hok].
  destruct (desk_input i a) as [a1|] eqn:E1; [|done]. cbn in E.
  destruct (rpc_step_peer s a a1 X c i R I) as (s1 & X1 & Es & R1); [nia|done|done|]. rewrite (bind_done _ _ _ _ _ Es).
  apply (IH s1 a1 a' X1 (c + 1) R1); [by eapply (input_inv i a a1)|by eapply (input_inv i a a1)|nia|done|done].
Qed.
End peer.

(** C15. A peer sends requests with [SendRequestEx] (sending may fail), others
    use the same manager, responses come and the manager's clock ticks; then
    the peer goes and [RpcTraceCallback] runs.  The functions that are called
    back do not send again (if they do, a request can stay unanswered:
    [trace_new_request_survives]).  Nothing goes wrong on the way,
    [rpcSerials] is empty afterwards, every request that the peer has made has
    been called back exactly once, with its response or with none, the
    application has heard just these calls, and the requests of others that
    were not answered still wait. *)
Theorem peer_requests_answered {K P : Type} (dataSize pairSize : Z) (trivial : bool) (nodeSize limit : Z)
    (SendBytes : bytes -> Z) (ReadRoot : bytes -> option P) (content_of : M Bytes.BBuffer unit -> bytes)
    (interval versionNumber : Z) (is_ : list (rpc_input K)) (q0 : UvRpcManager (rpc_callback K) bytes) (bb : Bytes.BBuffer)
    (a : Desk (rpc_callback K) bytes) :
  8 <= dataSize <= 512 -> no_shrink dataSize = true -> 0 < pairSize <= 2 ^ 16 -> 0 <= limit /\ limit * 2 * dataSize < 2 ^ 31 ->
  8 <= nodeSize <= 512 -> no_shrink nodeSize = true -> zlen is_ * 2 * nodeSize < 2 ^ 31 ->
  new_UvRpcManager dataSize pairSize interval = Some q0 -> bb_wf bb ->
  Forall (input_ok content_of) is_ ->
  desk_inputs limit SendBytes content_of is_ (MkDesk 0 ∅ [] interval 0 []) = Some a ->
  let call := PeerRpc.invoke dataSize pairSize trivial nodeSize SendBytes ReadRoot (fun _ _ => []) 1 in
  exists s, (_ ← rpc_run dataSize pairSize trivial nodeSize SendBytes call is_; RpcTraceCallback call versionNumber)
      (MkPeerRpc bb q0 None []) = Done tt s /\
    (forall h, rpcSerials s = Some h -> HashSet.Empty h = Done true h) /\
    NoDup (called (log (rpcMgr s))) /\
    (forall n k due, Registered n (Ex k) due ∈ log (rpcMgr s) -> exists b, Called n (Ex k) b ∈ log (rpcMgr s)) /\
    heard s = omap (heard_of ReadRoot) (log (rpcMgr s)) /\
    (forall n k due, Registered n (Other k) due ∈ log (rpcMgr s) -> n ∈ called (log (rpcMgr s)) \/
      TryGetValue n (mapping (rpcMgr s)) = Done (Some (Other k)) (mapping (rpcMgr s))).
Proof.
  intros Hd Hg Hp Hl Hn Hng Hz E0 Hb Hok E call. set (a0 := MkDesk 0 ∅ [] interval 0 []) in *.
  pose proof (new_manager_rep limit dataSize pairSize trivial interval q0 Hd Hp (proj1 Hl) E0) as R0. fold a0 in R0.
  assert (I0 : inv a0) by (split; cbn; try done; try (by intros; set_solver); try constructor).
  assert (U0 : uncancelled a0) by (intros n; cbn; set_solver).
  assert (P0 : peer_rep trivial limit ReadRoot (MkPeerRpc bb q0 None []) a0 ∅ ∅ 0).
  { split; try done. intros n. cbn. rewrite lookup_empty. set_solver. }
  destruct (inputs_inv limit SendBytes content_of is_ a0 a E (conj I0 U0)) as [Ia Ua].
  destruct (rpc_run_peer dataSize pairSize trivial nodeSize limit SendBytes ReadRoot Hd Hg Hp Hl Hn Hng content_of is_ _ a0 a ∅ 0 P0 I0 U0) as (s1 & X & c & E1 & R1); [lia|done|done|].
  fold call in E1. rewrite (bind_done _ _ _ _ _ E1).
  destruct (RpcTraceCallback_peer dataSize pairSize trivial nodeSize limit SendBytes ReadRoot s1 a X c versionNumber R1) as (ks & s & _ & Es & R).
  exists s. split; [exact Es|]. destruct (answers_inv ks a Ia Ua) as [I U]. set (b := answers ks a) in *.
  destruct R as [_ Rm Rs Rp Rh _]. pose proof (rep_mapping _ _ _ _ Rm) as Hm. rewrite (rep_log _ _ _ _ Rm).
  split; [intros h Eh; rewrite Eh in Rs; destruct Rs as [Rs _]; by rewrite (Empty_set h ∅ Rs)|]. split; [apply I|].
  assert (Hreg : forall n cb due, Registered n cb due ∈ seen b -> waiting b !! n = Some cb \/ n ∈ called (seen b)).
  { intros n cb due Hi. destruct (inv_registered _ I n cb due Hi) as (_ & [?|[?|Hu]]); [by left|by right|by destruct (U n)]. }
  split; [|split; [exact Rh|]].
  - intros n k due Hi. destruct (Hreg n (Ex k) due Hi) as [Hw|(cb & bb' & Hc)%called_elem].
    + assert (Hin : n ∈ (∅ : gset Z)) by (apply Rp; split; [by exists k|set_solver]). set_solver.
    + exists bb'. destruct (inv_called _ I n cb bb' Hc) as (_ & due' & Hi'). by rewrite (registered_same b n (Ex k) cb due due' I Hi Hi').
  - intros n k due Hi. destruct (Hreg n (Other k) due Hi) as [Hw|Hc]; [right|by left]. by rewrite (TryGetValue_repr _ _ n Hm), Hw.
Qed.

(** Three requests of the peer, one of another; the first is answered, the
    second cannot be sent, the third waits when the peer goes. *)
Definition peer_session : list (rpc_input Z) :=
  [ISend (WriteBuf [1; 2]) 10 0; ISend (WriteBuf [1; 2]) 20 0; IOther 30 0; IResponse 1 [7]; ITick; ISend (WriteBuf [1; 2]) 40 0].

(** The second package is refused: its fourth byte is the number 2. *)
Definition refuses_second (b : bytes) : Z := match b with [_; _; _; 2; _; _] => -1 | _ => 0 end.

Lemma peer_requests_answered_witness : exists (q0 : UvRpcManager (rpc_callback Z) bytes) s,
  new_UvRpcManager 48 8 5 = Some q0 /\
  (_ ← rpc_run 48 8 true 16 refuses_second (PeerRpc.invoke 48 8 true 16 refuses_second Some (fun _ _ => []) 1) peer_session;
   RpcTraceCallback (PeerRpc.invoke 48 8 true 16 refuses_second Some (fun _ _ => []) 1) 1) (MkPeerRpc no_bytes q0 None []) = Done tt s /\
  heard s = [(20, None); (10, Some [7]); (40, None)] /\ NoDup (called (log (rpcMgr s))).
Proof.
  assert (H0 : exists q0, new_UvRpcManager (K := rpc_callback Z) (R := bytes) 48 8 5 = Some q0) by (eexists; vm_compute; reflexivity). destruct H0 as [q0 E0].
  assert (Ha : exists a, desk_inputs 100 refuses_second (fun _ => [1; 2]) peer_session (MkDesk 0 ∅ [] 5 0 []) = Some a) by (eexists; vm_compute; reflexivity).
  destruct Ha as [a Ea].
  destruct (peer_requests_answered (P := bytes) 48 8 true 16 100 refuses_second Some (fun _ => [1; 2]) 5 1 peer_session q0 no_bytes a) as (s & Es & _ & Hn & _ & _ & _);
    [lia|by vm_compute|lia|lia|lia|by vm_compute|by vm_compute|exact E0|exact no_bytes_wf| |exact Ea|].
  { assert (Hs : forall k i, input_ok (K := Z) (fun _ => [1; 2]) (ISend (WriteBuf [1; 2]) k i)).
    { intros k i. split; [apply appends_WriteBuf|]. split; [by repeat constructor|by vm_compute]. }
    unfold peer_session. repeat (apply Forall_cons; split; [first [apply Hs|exact I]|]). constructor. }
  exists q0, s. split; [exact E0|]. split; [exact Es|]. split; [|exact Hn].
  vm_compute in E0. injection E0 as <-. vm_compute in Es. by injection Es as <-.
Defined.

(** A callback that sends again while the peer is being released leaves a
    request behind that refers to the peer; if the peer lives on, the
    assertion at the end fails. *)
Theorem trace_new_request_survives :
  let again := fun (k : Z) (_ : option bytes) => if k =? 10 then [Send (WriteBuf [9]) 50 0] else [] in
  let call := PeerRpc.invoke 48 8 true 16 (fun _ => 0) Some again 2 in
  exists (q0 : UvRpcManager (rpc_callback Z) bytes) s s',
    new_UvRpcManager 48 8 5 = Some q0 /\
    rpc_run 48 8 true 16 (fun _ => 0) call [ISend (WriteBuf [1]) 10 0] (MkPeerRpc no_bytes q0 None []) = Done tt s /\
    RpcTraceCallback call 0 s = Done tt s' /\ heard s' = [(10, None)] /\
    TryGetValue 2 (mapping (rpcMgr s')) = Done (Some (Ex 50)) (mapping (rpcMgr s')) /\
    RpcTraceCallback call 1 s = Undef.
Proof.
  eexists _, _, _. split; [vm_compute; reflexivity|]. split; [vm_compute; reflexivity|]. split; [vm_compute; reflexivity|].
  repeat (split; [vm_compute; reflexivity|]). vm_compute. reflexivity.
Qed.
