(* ===== verification/PacketsRel.v ===== *)
(** * [ReceiveImpl] and the application behind it

    [ReceiveImpl] treats the state of the application as a value that it hands
    on: related applications are told the same.  [dead] marks states of the
    second application from which nothing is asked any more. *)

From Stdlib Require Import ZArith Lia.
From stdpp Require Import base numbers list gmap.
From S2P Require Import Prelude Util BBuffer Bytes Packets.
Open Scope Z_scope.

Section related.
Context {A A' : Type} (R : A -> A' -> Prop) (dead : A' -> Prop).
Context (handle : delivery -> bytes -> A -> fate * Bytes.BBuffer * A) (disconnect : A -> A).
Context (handle' : delivery -> bytes -> A' -> fate * Bytes.BBuffer * A') (disconnect' : A' -> A').
Context (Hdead : forall d sa a, dead a -> dead (handle' d sa a).2) (Hdead' : forall a, dead a -> dead (disconnect' a)).
Context (Hhandle : forall d sa a a', R a a' -> dead (handle' d sa a').2 \/ (handle d sa a).1 = (handle' d sa a').1 /\ R (handle d sa a).2 (handle' d sa a').2).
Context (Hdisconnect : forall a a', R a a' -> dead (disconnect' a') \/ R (disconnect a) (disconnect' a')).
Context `{!Inhabited A}.
Implicit Types (p : Peer A) (q : Peer A').

Definition alike p q : Prop :=
  bbRecv p = bbRecv q /\ routingAddress p = routingAddress q /\ senderAddress p = senderAddress q /\ R (app p) (app q).

Definition follows {X} (m : M (Peer A) X) (m' : M (Peer A') X) : Prop :=
  (forall q, dead (app q) -> after (fun _ q' => dead (app q')) q (m' q)) /\
  (forall p q, alike p q ->
    match m' q with
    | Done x q' => dead (app q') \/ exists p', m p = Done x p' /\ alike p' q'
    | Fail e q' => dead (app q') \/ exists p', m p = Fail e p' /\ alike p' q'
    | Undef => True
    end).

Lemma follows_ret {X} (x : X) : follows (mret x) (mret x).
Proof. split; [done|]. intros p q H. right. by exists p. Qed.

Lemma follows_undef {X} : follows (X := X) undef undef.
Proof. done. Qed.

Lemma follows_bind {X Y} (m : M _ X) m' (f : X -> M _ Y) f' : follows m m' -> (forall x, follows (f x) (f' x)) -> follows (m ≫= f) (m' ≫= f').
Proof.
  intros [D H] Hf. assert (Dd : forall x q, dead (app q) -> after (fun _ q' => dead (app q')) q (f' x q)) by (intros x; apply (Hf x)).
  unfold mbind, M_bind. split.
  - intros q Hq. specialize (D q Hq). destruct (m' q) as [x q1|e q1|]; [by apply Dd|done|done].
  - intros p q Hpq. specialize (H p q Hpq). destruct (m' q) as [x q1|e q1|]; [| |done].
    + destruct H as [H|(p1 & -> & H1)].
      * specialize (Dd x q1 H). destruct (f' x q1); [by left|by left|done].
      * by apply (Hf x).
    + destruct H as [H|(p1 & -> & H1)]; [by left|]. right. by exists p1.
Qed.

Lemma follows_get {X} (f : Peer A -> M (Peer A) X) (f' : Peer A' -> M (Peer A') X) :
  (forall p q, bbRecv p = bbRecv q -> routingAddress p = routingAddress q -> follows (f p) (f' q)) ->
  follows (p ← get; f p) (q ← get; f' q).
Proof.
  intros Hf. split.
  - intros q Hq. by apply (Hf (MkPeer (bbRecv q) (routingAddress q) [] inhabitant) q).
  - intros p q Hpq. pose proof Hpq as (E1 & E2 & _). by apply (Hf p q E1 E2).
Qed.

Lemma follows_on_recv {X} (m : M Bytes.BBuffer X) : follows (on_recv m) (on_recv m).
Proof.
  split.
  - intros q Hq. unfold on_recv. by destruct (m (bbRecv q)).
  - intros p q (E1 & E2 & E3 & E4). unfold on_recv. rewrite E1. destruct (m (bbRecv q)); try done; right; eexists; split; done.
Qed.

Lemma follows_sender a : follows (modify (set_sender a)) (modify (set_sender a)).
Proof. split; [done|]. intros p q (E1 & E2 & E3 & E4). right. eexists. split; done. Qed.

Lemma follows_disconnect : follows (modify (fun p => set_app (disconnect (app p)) p)) (modify (fun q => set_app (disconnect' (app q)) q)).
Proof.
  split; [intros q Hq; by apply Hdead'|]. intros p q (E1 & E2 & E3 & E4). cbn.
  destruct (Hdisconnect _ _ E4) as [H|H]; [by left|right]. eexists. split; done.
Qed.

Lemma follows_if {X} (b : bool) (m1 m2 : M (Peer A) X) m1' m2' : follows m1 m1' -> follows m2 m2' -> follows (if b then m1 else m2) (if b then m1' else m2').
Proof. by destruct b. Qed.

Lemma follows_deliver d : follows (deliver handle d) (deliver handle' d).
Proof.
  split.
  - intros q Hq. unfold deliver. pose proof (Hdead (d (bbRecv q)) (senderAddress q) (app q) Hq) as H.
    destruct (handle' _ _ _) as [[f rb] a]. destruct f; [..|done]; destruct (_ =? 0); done.
  - intros p q (E1 & E2 & E3 & E4). unfold deliver. rewrite E1, E3. pose proof (Hhandle (d (bbRecv q)) (senderAddress q) _ _ E4) as H.
    destruct (handle' _ _ _) as [[f' rb'] a'], (handle _ _ _) as [[f rb] a]. cbn in H. destruct H as [H|[[= -> ->] H]].
    + destruct f'; [..|by left]; destruct (_ =? 0); by left.
    + destruct f'; [..|right; eexists; split; done]; (destruct (_ =? 0); right; eexists; split; done).
Qed.

Lemma follows_package typeId offset addrLen n : follows (receive_package handle disconnect typeId offset addrLen n) (receive_package handle' disconnect' typeId offset addrLen n).
Proof.
  unfold receive_package. apply follows_bind; [apply follows_on_recv|]. intros _. cbv zeta. apply follows_if; [apply follows_deliver|].
  set (m := Bytes.Read (T := num U32)).
  assert (Hk : forall v : num U32, follows (if Z.land typeId 3 =? 1 then deliver handle (Request (num_val v))
           else if Z.land typeId 3 =? 2 then deliver handle (Response (num_val v)) else mret true)
     (if Z.land typeId 3 =? 1 then deliver handle' (Request (num_val v))
           else if Z.land typeId 3 =? 2 then deliver handle' (Response (num_val v)) else mret true)).
  { intros v. repeat apply follows_if; [apply follows_deliver..|apply follows_ret]. }
  split.
  - intros q Hq. destruct (follows_on_recv m) as [D _]. specialize (D q Hq). destruct (on_recv m q) as [v q1|e q1|]; [by apply (Hk v)|by apply Hdead'|done].
  - intros p q Hpq. destruct (follows_on_recv m) as [_ H]. specialize (H p q Hpq). destruct (on_recv m q) as [v q1|e q1|]; [| |done].
    + destruct H as [H|(p1 & -> & H1)]; [|by apply (Hk v)]. pose proof (proj1 (Hk v) q1 H) as Hd. cbv zeta in *.
      match goal with |- match ?o with _ => _ end => destruct o end; [by left|by left|done].
    + destruct H as [H|(p1 & -> & (F1 & F2 & F3 & F4))]; [left; by apply Hdead'|]. destruct (Hdisconnect _ _ F4) as [H|H]; [by left|right]. eexists. split; done.
Qed.

Lemma follows_loop fuel offset : follows (receive_loop handle disconnect fuel offset) (receive_loop handle' disconnect' fuel offset).
Proof.
  revert offset. induction fuel as [|fuel IH]; intros offset; cbn [receive_loop]; [apply follows_undef|].
  apply follows_get. intros p q -> ->.
  apply follows_if; [apply follows_ret|]. apply follows_bind; [apply follows_on_recv|]. intros [[[typeId headerLen] n]|]; [|apply follows_ret].
  apply follows_if; [apply follows_bind; [apply follows_disconnect|intros _; apply follows_ret]|].
  apply follows_if; [apply follows_ret|]. cbv zeta. apply follows_bind.
  - apply follows_if.
    + apply follows_if.
      * apply follows_bind; [apply follows_on_recv|]. intros a. apply follows_bind; [apply follows_sender|]. intros _. apply follows_package.
      * apply follows_bind; [apply follows_on_recv|]. intros _. apply follows_deliver.
    + apply follows_bind; [apply follows_sender|]. intros _. apply follows_package.
  - intros go. apply follows_if; [apply IH|apply follows_ret].
Qed.

Lemma follows_ReceiveImpl recv : follows (ReceiveImpl handle disconnect recv) (ReceiveImpl handle' disconnect' recv).
Proof.
  unfold ReceiveImpl. apply follows_bind; [apply follows_on_recv|]. intros _.
  apply follows_get. intros p q -> _. apply follows_bind; [apply follows_loop|]. intros [offset|]; [|apply follows_ret].
  apply follows_get. intros p' q' -> _. cbv zeta. apply follows_bind; [|intros _; apply follows_on_recv].
  apply follows_if; [|apply follows_ret]. apply follows_bind; [apply follows_on_recv|]. intros rest. apply follows_on_recv.
Qed.
End related.

(** What every event function keeps is kept by [ReceiveImpl]. *)
Lemma ReceiveImpl_keeps {A} (P : A -> Prop) handle disconnect recv (p : Peer A) :
  (forall d sa a, P a -> P (handle d sa a).2) -> (forall a, P a -> P (disconnect a)) -> P (app p) ->
  after (fun _ p' => P (app p')) p (ReceiveImpl handle disconnect recv p).
Proof.
  intros Hh Hd Hp. pose proof (populate (app p) : Inhabited A) as Hi. set (R := fun a a' : A => a = a' /\ P a).
  destruct (follows_ReceiveImpl R (fun _ => False) handle disconnect handle disconnect) with (recv := recv) as [_ H]; try done.
  - intros d sa a _ [<- Ha]. right. split; [done|]. split; [done|by apply Hh].
  - intros a _ [<- Ha]. right. split; [done|by apply Hd].
  - specialize (H p p). destruct (ReceiveImpl handle disconnect recv p); [| |done];
      (destruct H as [[]|(p' & [= <-] & H)]; [done|]); apply H.
Qed.
