(* ===== verification/UdpPeers.v ===== *)
(** * xx_uv.h, xx_uv.cpp of test_uv_4: KCP over UDP

    [UvUdpListener] keeps the peers of one socket in a [Dict] from connection
    numbers to pointers; a peer enters itself in its constructor, remembers its
    index, and takes itself out in its destructor.  A datagram goes to the peer
    whose number it carries; the timer of the loop updates every peer, which
    may call the application, which may release peers, send, make new peers or
    close the listener.

    Peers are objects of the memory pool, here numbered in the order of their
    creation; an object is in [heap] until its destructor ends, and access to
    any other is undefined.  The application holds weak pointers, which tell it
    whether an object is still there. *)

From Stdlib Require Import ZArith Lia.
From stdpp Require Import base numbers list gmap.
From S2P Require Import Prelude Util BBuffer KcpState KcpOps Kcp4 HashUtils Dict Bytes Packets.
Open Scope Z_scope.

(** [HashFunc<Guid>] of xx_guid.hpp. *)
#[export] Instance hash_Guid : HashFunc Guid := fun g =>
  Z.lxor (Z.lxor (Z.lxor (u32 (part1 g)) (Z.shiftr (part1 g) 32)) (u32 (part2 g))) (Z.shiftr (part2 g) 32).

(** [UvUdpPeer]; a socket address is a number, and [None] until the first
    datagram, since the constructor leaves the memory behind [addrPtr] as it
    is. *)
Record UdpPeer := MkUdpPeer {
  kcp : IKCPCB;  (* ptr *)
  address : option Z;  (* addrPtr *)
  nextUpdateTicks : Z;
  index_at_container : Z;
  bbRecv : Bytes.BBuffer;
  senderAddress : bytes
}.

Definition set_kcp (k : IKCPCB) (p : UdpPeer) :=
  MkUdpPeer k (address p) (nextUpdateTicks p) (index_at_container p) (bbRecv p) (senderAddress p).
Definition set_address (a : Z) (p : UdpPeer) :=
  MkUdpPeer (kcp p) (Some a) (nextUpdateTicks p) (index_at_container p) (bbRecv p) (senderAddress p).
Definition set_nextUpdateTicks (t : Z) (p : UdpPeer) :=
  MkUdpPeer (kcp p) (address p) t (index_at_container p) (bbRecv p) (senderAddress p).
Definition set_index (i : Z) (p : UdpPeer) :=
  MkUdpPeer (kcp p) (address p) (nextUpdateTicks p) i (bbRecv p) (senderAddress p).
Definition set_received (b : Bytes.BBuffer) (sa : bytes) (p : UdpPeer) :=
  MkUdpPeer (kcp p) (address p) (nextUpdateTicks p) (index_at_container p) b sa.

(** The listener and its peers.  [T] is the table of peers; [B] is the state of
    the application; [disposed] are the peers whose [OnDispose] was called. *)
Record Udp (T B : Type) := MkUdp {
  peers : T;
  heap : gmap Z UdpPeer;
  made : Z;
  listening : bool;  (* the listener has not been released *)
  udpTicks : Z;
  wire : list (Z * bytes);
  disposed : gset Z;
  user : B
}.
Arguments MkUdp {T B}.
Arguments peers {T B}.
Arguments heap {T B}.
Arguments made {T B}.
Arguments listening {T B}.
Arguments udpTicks {T B}.
Arguments wire {T B}.
Arguments disposed {T B}.
Arguments user {T B}.

(** What the application does in an event function. *)
Inductive action :=
| Release (id : Z)
| SendBytes (id : Z) (bs : bytes)
| CreatePeer (g : Guid)
| Close.

(** What an application can do to the listener and its peers. *)
Class Peers (W : Type) := {
  release : Z -> M W unit;
  create : Guid -> M W (option Z);
  close : M W unit
}.

Section peer.
Context {T B : Type} (malloc : Z -> bool) `{!Peers (Udp T B)}.
(** [routingAddress] is the same for all peers of a listener. *)
Context (routingAddress : bytes).
(** The event functions of a peer: what becomes of [bbRecv] and of the
    application, and what it does. *)
Context (OnReceive : Z -> delivery -> bytes -> B -> Bytes.BBuffer * B * list action).
Implicit Types s : Udp T B.

Definition set_heap (h : gmap Z UdpPeer) s :=
  MkUdp (peers s) h (made s) (listening s) (udpTicks s) (wire s) (disposed s) (user s).
Definition set_user (b : B) s :=
  MkUdp (peers s) (heap s) (made s) (listening s) (udpTicks s) (wire s) (disposed s) b.
Definition add_wire (l : list (Z * bytes)) s :=
  MkUdp (peers s) (heap s) (made s) (listening s) (udpTicks s) (wire s ++ l) (disposed s) (user s).
Definition set_udpTicks (t : Z) s :=
  MkUdp (peers s) (heap s) (made s) (listening s) t (wire s) (disposed s) (user s).

Definition peer (id : Z) : M (Udp T B) UdpPeer := s ← get; demand (heap s !! id).
Definition alive (id : Z) s : bool := bool_decide (is_Some (heap s !! id)).
Definition put_peer (id : Z) (p : UdpPeer) : M (Udp T B) unit := modify (fun s => set_heap (<[id := p]> (heap s)) s).

(** [OutputImpl] for the datagrams that [k] has put out: they go to the address
    of the peer. *)
Definition OutputImpl (id : Z) (k : IKCPCB) : M (Udp T B) unit :=
  p ← peer id;
  _ ← (match sent k with
       | [] => mret tt
       | l => a ← demand (address p); modify (add_wire ((fun d => (a, d)) <$> l))
       end);
  put_peer id (set_kcp (set_sent [] k) p).

Definition on_kcp {A} (id : Z) (m : M IKCPCB A) : M (Udp T B) A :=
  p ← peer id;
  match m (kcp p) with
  | Done a k => _ ← OutputImpl id k; mret a
  | Fail e k => _ ← OutputImpl id k; fail e
  | Undef => undef
  end.

(** The error code of a call, 0 if it succeeds. *)
Definition error_of {A} (m : M (Udp T B) A) : M (Udp T B) Z := fun s =>
  match m s with
  | Done _ s => Done 0 s
  | Fail e s => Done e s
  | Undef => Undef
  end.

(** [UvUdpPeer::SendBytes], and [Input]. *)
Definition send_bytes (id : Z) (bs : bytes) : M (Udp T B) Z :=
  _ ← assert_ (0 <? zlen bs);
  error_of (on_kcp id (Kcp4.ikcp_send malloc bs)).
Definition Input (id : Z) (bs : bytes) : M (Udp T B) Z := error_of (on_kcp id (Kcp4.ikcp_input malloc bs)).

Definition act (a : action) : M (Udp T B) unit :=
  s ← get;
  match a with
  | Release id => if alive id s then release id else mret tt
  | SendBytes id bs => if alive id s then _ ← send_bytes id bs; mret tt else mret tt
  | CreatePeer g => if listening s then _ ← create g; mret tt else mret tt
  | Close => if listening s then close else mret tt
  end.

Fixpoint act_all (l : list action) : M (Udp T B) unit :=
  match l with
  | [] => mret tt
  | a :: l => _ ← act a; act_all l
  end.

(** ** Receiving packages

    [UvTcpUdpBase::ReceiveImpl] of [Packets], with this state as that of the
    application: [None] once something undefined has happened. *)

Definition run_in (m : M (Udp T B) unit) (o : option (Udp T B)) : option (Udp T B) :=
  s ← o;
  match m s with
  | Done _ s | Fail _ s => Some s
  | Undef => None
  end.

Definition handle (id : Z) (d : delivery) (sender : bytes) (o : option (Udp T B)) : fate * Bytes.BBuffer * option (Udp T B) :=
  match o with
  | None => (Released, Bytes.MkBBuffer [] 0 0 0, None)
  | Some s =>
      let '(rb, b, l) := OnReceive id d sender (user s) in
      let o := run_in (act_all l) (Some (set_user b s)) in
      (* [Disconnected()] is always false. *)
      (match o with Some s => if alive id s then Alive else Released | None => Released end, rb, o)
  end.

(** [DisconnectImpl]. *)
Definition disconnect (id : Z) : option (Udp T B) -> option (Udp T B) := run_in (release id).

Definition receive (id : Z) (d : bytes) : M (Udp T B) unit :=
  p ← peer id;
  s ← get;
  match ReceiveImpl (handle id) (disconnect id) d (MkPeer (bbRecv p) routingAddress (senderAddress p) (Some s)) with
  | Done _ q | Fail _ q =>
      s ← demand (app q);
      _ ← put s;
      match heap s !! id with
      | Some p => put_peer id (set_received (Packets.bbRecv q) (Packets.senderAddress q) p)
      | None => mret tt
      end
  | Undef => undef
  end.

(** [do { int len = ikcp_recv(...); if (len <= 0) break; ReceiveImpl(...); } while (!IsReleased(vn));] *)
Fixpoint recv_loop (fuel : nat) (id : Z) : M (Udp T B) unit :=
  match fuel with
  | O => undef
  | S fuel => fun s =>
      match on_kcp id (Kcp4.ikcp_recv 65536) s with
      | Fail _ s => Done tt s
      | Done (n, d) s =>
          if n <=? 0 then Done tt s
          else (_ ← receive id d; s ← get; if alive id s then recv_loop fuel id else mret tt) s
      | Undef => Undef
      end
  end.

(** Every round but the last takes a segment. *)
Definition recv_fuel (k : IKCPCB) : nat := S (length (rcv_queue k) + length (rcv_buf k)).

Definition Update (id current : Z) : M (Udp T B) unit :=
  p ← peer id;
  if current <? nextUpdateTicks p then mret tt
  else
    _ ← on_kcp id (Kcp4.ikcp_update current);
    p ← peer id;
    _ ← put_peer id (set_nextUpdateTicks (Kcp4.ikcp_check current (kcp p)) p);
    recv_loop (recv_fuel (kcp p)) id.

(** ** Event functions of the listener *)

(** A call of an event function. *)
Definition call (f : B -> B * list action) : M (Udp T B) unit :=
  s ← get;
  let '(b, l) := f (user s) in
  _ ← put (set_user b s);
  act_all l.

(** The peer for a number that the table does not have; [None]: the listener
    ignores the datagram.  [OnCreatePeer], when it is set: what it does, and
    whether it returns a new peer or none. *)
Definition make_peer (OnCreatePeer : option (Guid -> B -> B * list action * bool)) (g : Guid) : M (Udp T B) (option Z) :=
  match OnCreatePeer with
  | None =>
      p ← create g;
      p ← demand p;  (* a null pointer is used *)
      mret (Some p)
  | Some f =>
      s ← get;
      _ ← call (fun b => (f g b).1);
      p ← (if (f g (user s)).2 : bool then create g else mret None);
      s ← get;
      mret (if listening s then p else None)
  end.
End peer.

(** ** The listener *)

Section listener.
Context {B : Type} (malloc : Z -> bool).
(** [loop.kcpInterval], which [InitKcpFlushInterval] sets. *)
Context (kcpInterval : Z).
Abbreviation W := (Udp (Dict Guid Z) B).
Implicit Types s : W.

(** [sizeof(Data)] of the table, on a 64-bit target. *)
Definition dataSize : Z := 32.

(** Access to the members of the listener. *)
Definition on_peers {A} (m : M (Dict Guid Z) A) : M W A := fun s =>
  if listening s then
    match m (peers s) with
    | Done a d => Done a (MkUdp d (heap s) (made s) true (udpTicks s) (wire s) (disposed s) (user s))
    | Fail e d => Fail e (MkUdp d (heap s) (made s) true (udpTicks s) (wire s) (disposed s) (user s))
    | Undef => Undef
    end
  else Undef.

(** [UvUdpPeer::UvUdpPeer] with the arguments of [CreatePeer], without the
    table; [None]: it throws. *)
Definition new_UdpPeer (g : Guid) : option UdpPeer :=
  if kcpInterval =? 0 then None
  else
    k ← Kcp4.ikcp_create malloc g;
    let k := Kcp4.ikcp_wndsize 128 128 k in
    let k := Kcp4.ikcp_nodelay 1 (i32 kcpInterval) 2 1 k in
    let k := Kcp4.ikcp_setoutput (set_rx_minrto 100 k) in
    Some (MkUdpPeer k None 0 (-1) (Bytes.MkBBuffer [] 0 0 0) []).

Definition add_peer (id : Z) (p : UdpPeer) s : W :=
  MkUdp (peers s) (<[id := p]> (heap s)) (id + 1) (listening s) (udpTicks s) (wire s) (disposed s) (user s).

(** [UvUdpListener::CreatePeer]; an exception makes a null pointer. *)
Definition listener_CreatePeer (g : Guid) : M W (option Z) :=
  match new_UdpPeer g with
  | None => mret None
  | Some p =>
      s ← get;
      r ← on_peers (Add dataSize g (made s) false);
      _ ← modify (add_peer (made s) (set_index r.2 p));
      mret (Some (made s))
  end.

Definition dispose {T} (id : Z) (s : Udp T B) : Udp T B :=
  MkUdp (peers s) (heap s) (made s) (listening s) (udpTicks s) (wire s) ({[ id ]} ∪ disposed s) (user s).

(** [UvUdpPeer::~UvUdpPeer]. *)
Definition peer_Release (id : Z) : M W unit :=
  p ← peer id;
  _ ← modify (dispose id);
  _ ← on_peers (RemoveAt (index_at_container p));
  modify (fun s => set_heap (delete id (heap s)) s).

(** [kv.value] of an iterator. *)
Definition deref (i : Z) : M W Z := it ← on_peers (item i); e ← demand (kv it); mret e.2.

(** [for (decltype(auto) kv : peers) body(kv.value);] *)
Fixpoint for_peers (body : Z -> M W unit) (fuel : nat) (i e : Z) : M W unit :=
  if i =? e then mret tt
  else
    match fuel with
    | O => undef
    | S fuel =>
        id ← deref i;
        _ ← body id;
        i ← on_peers (Iter_incr i);
        for_peers body fuel i e
    end.
Definition for_each_peer (body : Z -> M W unit) : M W unit :=
  i ← on_peers Iter_begin;
  e ← on_peers Iter_end;
  for_peers body (Z.to_nat e) i e.

Definition set_closed s : W :=
  MkUdp (peers s) (heap s) (made s) false (udpTicks s) (wire s) (disposed s) (user s).

(** [UvUdpListener::~UvUdpListener]. *)
Definition listener_Release : M W unit :=
  _ ← for_each_peer peer_Release;
  _ ← on_peers Clear;
  modify set_closed.

#[export] Instance Peers_Dict : Peers W := {
  release := peer_Release;
  create := listener_CreatePeer;
  close := listener_Release
}.

Context (routingAddress : bytes).
Context (OnReceive : Z -> delivery -> bytes -> B -> Bytes.BBuffer * B * list action).
(** [OnAccept] gets the new peer. *)
Context (OnCreatePeer : option (Guid -> B -> B * list action * bool)) (OnAccept : Z -> B -> B * list action).

Definition OnReceiveImpl (bs : bytes) (addr : Z) : M W unit :=
  if zlen bs <? 36 then mret tt
  else
    g ← demand (Fill bs);
    idx ← on_peers (Find g);
    p ← (if idx <? 0 then
           p ← make_peer malloc OnCreatePeer g;
           match p with
           | Some p => _ ← on_peers (Add dataSize g p false); mret (Some p)
           | None => mret None
           end
         else p ← on_peers (ValueAt idx); mret (Some p));
    match p with
    | None => mret tt
    | Some id =>
        p ← peer id;
        _ ← put_peer id (set_address addr p);
        _ ← (if idx <? 0 then call malloc (OnAccept id) else mret tt);
        s ← get;
        if (idx <? 0) && negb (listening s) then mret tt
        else
          r ← Input malloc id bs;
          if negb (r =? 0) then peer_Release id else mret tt
    end.

(** The timer of [InitKcpFlushInterval], for a loop with this listener. *)
Definition timer : M W unit :=
  s ← get;
  _ ← put (set_udpTicks (u32 (udpTicks s + kcpInterval)) s);
  if listening s then
    for_each_peer (fun id => s ← get; Update malloc routingAddress OnReceive id (udpTicks s))
  else mret tt.

(** What happens to the listener; the events of a closed socket are gone. *)
Inductive event :=
| Datagram (bs : bytes) (addr : Z)
| Tick
| Act (a : action).

Definition step (e : event) : M W unit :=
  match e with
  | Datagram bs addr => s ← get; if listening s then OnReceiveImpl bs addr else mret tt
  | Tick => timer
  | Act a => act malloc a
  end.

Fixpoint run (es : list event) : M W unit :=
  match es with
  | [] => mret tt
  | e :: es => _ ← step e; run es
  end.
End listener.

Definition new_Udp {T B} (t : T) (b : B) : Udp T B := MkUdp t ∅ 0 true 0 [] ∅ b.
