(* ===== verification/UdpPeersProps.v ===== *)
(** * The listener of xx_uv.cpp as a map from connection numbers to peers

    [net_run] is the listener with a finite map in the place of the table, and
    without the indices that peers remember.  It is undefined where the
    application breaks the rules of the code: it makes a peer with a number in
    use, makes a peer or closes the listener while the timer runs over the
    table, or releases in [OnAccept] the peer that it gets. *)

From Stdlib Require Import ZArith Lia.
From stdpp Require Import base numbers list gmap.
From S2P Require Import Prelude Util BBuffer UvUdp KcpState KcpOps KcpRecv KcpConv KcpPeer Kcp4 HashUtils Dict DictTable Bytes Packets PacketsRel UdpPeers.
Open Scope Z_scope.

Record Names := MkNames { by_guid : gmap Guid Z; locked : bool }.

Section net.
Context {B : Type} (malloc : Z -> bool) (kcpInterval : Z).
Abbreviation N := (Udp Names B).
Implicit Types a : N.

Definition set_peers (t : Names) a : N :=
  MkUdp t (heap a) (made a) (listening a) (udpTicks a) (wire a) (disposed a) (user a).
Definition lock (b : bool) a : N := set_peers (MkNames (by_guid (peers a)) b) a.

(** Fewer than [2^25] peers are ever made, so that the table stays within 2 GB. *)
Definition may_create (g : Guid) a : bool :=
  listening a && negb (locked (peers a)) && bool_decide (by_guid (peers a) !! g = None) && (made a <? 2 ^ 25).

Definition net_create (g : Guid) : M N (option Z) :=
  match new_UdpPeer malloc kcpInterval g with
  | None => mret None
  | Some p =>
      a ← get;
      _ ← assert_ (may_create g a);
      _ ← put (set_peers (MkNames (<[g := made a]> (by_guid (peers a))) false)
                 (MkUdp (peers a) (<[made a := p]> (heap a)) (made a + 1) (listening a) (udpTicks a) (wire a) (disposed a) (user a)));
      mret (Some (made a))
  end.

Definition net_release (id : Z) : M N unit :=
  p ← peer id;
  modify (fun a => set_heap (delete id (heap a)) (set_peers (MkNames (delete (conv (kcp p)) (by_guid (peers a))) (locked (peers a))) (dispose id a))).

Definition net_close : M N unit :=
  a ← get;
  _ ← assert_ (listening a && negb (locked (peers a)));
  put (MkUdp (MkNames ∅ false) ∅ (made a) false (udpTicks a) (wire a) (dom (heap a) ∪ disposed a) (user a)).

#[export] Instance Peers_Names : Peers N := {
  release := net_release;
  create := net_create;
  close := net_close
}.

Context (routingAddress : bytes).
Context (OnReceive : Z -> delivery -> bytes -> B -> Bytes.BBuffer * B * list action).
Context (OnCreatePeer : option (Guid -> B -> B * list action * bool)) (OnAccept : Z -> B -> B * list action).

(** A datagram goes to the peer of its number; a new number makes a peer. *)
Definition net_receive (bs : bytes) (addr : Z) : M N unit :=
  if zlen bs <? 36 then mret tt
  else
    g ← demand (Fill bs);
    a ← get;
    let known := by_guid (peers a) !! g in
    p ← (match known with Some id => mret (Some id) | None => make_peer malloc OnCreatePeer g end);
    match p with
    | None => mret tt
    | Some id =>
        p ← peer id;
        _ ← put_peer id (set_address addr p);
        _ ← (match known with None => call malloc (OnAccept id) | Some _ => mret tt end);
        a ← get;
        if match known with None => negb (listening a) | Some _ => false end then mret tt
        else
          r ← Input malloc id bs;
          if negb (r =? 0) then net_release id else mret tt
    end.

(** Every peer that is still there when its turn comes is updated. *)
Fixpoint net_update (ids : list Z) : M N unit :=
  match ids with
  | [] => mret tt
  | id :: ids =>
      a ← get;
      _ ← (if alive id a then Update malloc routingAddress OnReceive id (udpTicks a) else mret tt);
      net_update ids
  end.

Definition while_locked (m : M N unit) : M N unit := fun a =>
  match m (lock true a) with
  | Done _ a => Done tt (lock false a)
  | Fail e a => Fail e (lock false a)
  | Undef => Undef
  end.

(** [order]: the order in which the peers get their turn. *)
Definition net_timer (order : list Z -> list Z) : M N unit :=
  a ← get;
  _ ← put (set_udpTicks (u32 (udpTicks a + kcpInterval)) a);
  if listening a then
    while_locked (net_update (order (elements (dom (heap a)))))
  else mret tt.

Definition net_step (order : list Z -> list Z) (e : event) : M N unit :=
  match e with
  | Datagram bs addr => a ← get; if listening a then net_receive bs addr else mret tt
  | Tick => net_timer order
  | Act x => act malloc x
  end.

Fixpoint net_run (orders : list (list Z -> list Z)) (es : list event) : M N unit :=
  match es, orders with
  | e :: es, o :: orders => _ ← net_step o e; net_run orders es
  | _, _ => mret tt
  end.
End net.

(** ** The relation *)

Section sim.
Context {B : Type} (malloc : Z -> bool) (kcpInterval : Z).
Abbreviation W := (Udp (Dict Guid Z) B).
Abbreviation N := (Udp Names B).
Implicit Types (s : W) (a : N) (r : gmap Z (Guid * Z)) (h : gmap Z UdpPeer).
#[local] Instance PW : Peers W := Peers_Dict malloc kcpInterval.
#[local] Instance PN : Peers N := Peers_Names malloc kcpInterval.

(** While the timer runs ([lk]), the table only loses elements of [lim], and
    its array keeps the length [len]. *)
Context (lk : bool) (lim : gmap Z (Guid * Z)) (len : Z).

Definition entered h r : Prop := forall i g id, r !! i = Some (g, id) <-> exists p, h !! id = Some p /\ conv (kcp p) = g /\ index_at_container p = i.

Definition tabled (d : Dict Guid Z) h (m : Z) (n : Names) r : Prop :=
  (exists st, table d st r) /\ count d <= m /\ entered h r /\
  (forall g id, by_guid n !! g = Some id <-> exists i, r !! i = Some (g, id)) /\
  (lk = true -> r ⊆ lim /\ count d = len).

Record rel s a : Prop := {
  rel_heap : heap a = set_index (-1) <$> heap s;
  rel_made : made a = made s;
  rel_listening : listening a = listening s;
  rel_udpTicks : udpTicks a = udpTicks s;
  rel_wire : wire a = wire s;
  rel_disposed : disposed a = disposed s;
  rel_user : user a = user s;
  rel_locked : locked (peers a) = lk;
  rel_lock : lk = true -> listening s = true;
  rel_ids : forall id, is_Some (heap s !! id) -> id < made s;
  rel_table : if listening s then exists r, tabled (peers s) (heap s) (made s) (peers a) r else heap s = ∅
}.

Definition meets {A} (R : W -> N -> Prop) (o : outcome W A) (o' : outcome N A) : Prop :=
  match o' with
  | Done x a => exists s, o = Done x s /\ R s a
  | Fail e a => exists s, o = Fail e s /\ R s a
  | Undef => True
  end.
Definition sim {A} (m : M W A) (m' : M N A) : Prop := forall s a, rel s a -> meets rel (m s) (m' a).

Lemma meets_done {A} (R : W -> N -> Prop) (x : A) s a : R s a -> meets R (Done x s) (Done x a).
Proof. intros H. by exists s. Qed.

Lemma net_sim_ret {A} (x : A) : sim (mret x) (mret x).
Proof. intros s a H. by exists s. Qed.

Lemma net_sim_undef {A} (m : M W A) : sim m undef.
Proof. done. Qed.

Lemma meets_bind {A C} (m : M W A) (m' : M N A) (f : A -> M W C) f' s a :
  meets rel (m s) (m' a) -> (forall x, sim (f x) (f' x)) -> meets rel ((m ≫= f) s) ((m' ≫= f') a).
Proof.
  unfold mbind, M_bind, meets at 1. intros H Hf. destruct (m' a) as [x a1|e a1|]; [| |done].
  - destruct H as (s1 & -> & H). by apply Hf.
  - destruct H as (s1 & -> & H). by exists s1.
Qed.

Lemma net_sim_bind {A C} (m : M W A) (m' : M N A) (f : A -> M W C) f' : sim m m' -> (forall x, sim (f x) (f' x)) -> sim (m ≫= f) (m' ≫= f').
Proof. intros Hm Hf s a H. apply meets_bind; [by apply Hm|done]. Qed.

Lemma net_sim_if {A} (b : bool) (m1 m2 : M W A) m1' m2' : sim m1 m1' -> sim m2 m2' -> sim (if b then m1 else m2) (if b then m1' else m2').
Proof. by destruct b. Qed.

Lemma net_sim_demand {A} (o : option A) : sim (demand o) (demand o).
Proof. destruct o; [apply net_sim_ret|done]. Qed.

Lemma rel_alive s a id : rel s a -> alive id a = alive id s.
Proof. intros H. unfold alive. rewrite (rel_heap _ _ H), lookup_fmap. by destruct (heap s !! id). Qed.
(** ** Peers *)

Lemma entered_put h r id p p' : h !! id = Some p -> conv (kcp p') = conv (kcp p) -> index_at_container p' = index_at_container p ->
  entered h r -> entered (<[id := p']> h) r.
Proof.
  intros Hp Ec Ei He i g j. rewrite (He i g j). destruct (decide (id = j)) as [<-|Hne].
  - rewrite lookup_insert_eq, Hp. split; intros (x & [= <-] & <- & <-); eexists; (split; [done|]); by rewrite Ec, Ei.
  - by rewrite lookup_insert_ne.
Qed.

Lemma rel_put s a id p p' : rel s a -> heap s !! id = Some p -> conv (kcp p') = conv (kcp p) -> index_at_container p' = index_at_container p ->
  rel (set_heap (<[id := p']> (heap s)) s) (set_heap (<[id := set_index (-1) p']> (heap a)) a).
Proof.
  intros [R1 R2 R3 R4 R5 R6 R7 R8 R9 R10 R11] Hp Ec Ei. split; try done; cbn.
  - by rewrite R1, fmap_insert.
  - intros j Hj. apply R10. destruct (decide (id = j)) as [<-|Hne]; [by rewrite Hp|by rewrite lookup_insert_ne in Hj].
  - destruct (listening s); [|by rewrite R11 in Hp]. destruct R11 as (r & T1 & T2 & T3 & T4 & T5). exists r. split_and!; try done. by eapply entered_put.
Qed.

Lemma meets_peer {A} (f : UdpPeer -> M W A) f' id s a : rel s a ->
  (forall p, heap s !! id = Some p -> meets rel (f p s) (f' (set_index (-1) p) a)) -> meets rel ((peer id ≫= f) s) ((peer id ≫= f') a).
Proof.
  intros H Hf. unfold peer. rewrite !bind_assoc, !bind_get, (rel_heap _ _ H), lookup_fmap. destruct (heap s !! id) as [p|] eqn:E; [|done]. by apply Hf.
Qed.

Lemma rel_wires s a l : rel s a -> rel (add_wire l s) (add_wire l a).
Proof. intros []. split; try done. cbn. congruence. Qed.

Lemma OutputImpl_meets id k s a p : rel s a -> heap s !! id = Some p -> conv k = conv (kcp p) -> meets rel (OutputImpl id k s) (OutputImpl id k a).
Proof.
  intros H Hp Hk. unfold OutputImpl. apply meets_peer; [done|]. intros p' Hp'. assert (p' = p) as -> by congruence. clear Hp'.
  assert (Hput : forall s1 a1, rel s1 a1 -> heap s1 !! id = Some p ->
    meets rel (put_peer id (set_kcp (set_sent [] k) p) s1) (put_peer id (set_kcp (set_sent [] k) (set_index (-1) p)) a1)).
  { intros s1 a1 H1 Hp1. apply meets_done. by apply (rel_put s1 a1 id p (set_kcp (set_sent [] k) p)). }
  destruct (sent k) as [|x l]; [by apply Hput|]. cbn [address set_index]. destruct (address p) as [z|]; [|done].
  exact (Hput _ _ (rel_wires _ _ ((fun d => (z, d)) <$> x :: l) H) Hp).
Qed.

Lemma net_sim_on_kcp {A} id (m : M IKCPCB A) : (forall k, after same_conv k (m k)) -> sim (on_kcp id m) (on_kcp id m).
Proof.
  intros Hm s a H. unfold on_kcp. apply meets_peer; [done|]. intros p Hp. cbn [kcp set_index]. specialize (Hm (kcp p)).
  destruct (m (kcp p)) as [x k|e k|]; [| |done]; (apply meets_bind; [by eapply OutputImpl_meets|]); intros [].
  - apply net_sim_ret.
  - intros s1 a1 H1. by exists s1.
Qed.

Lemma net_sim_error_of {A} (m : M W A) m' : sim m m' -> sim (error_of m) (error_of m').
Proof.
  intros Hm s a H. specialize (Hm s a H). unfold error_of. destruct (m' a); [| |done]; destruct Hm as (s1 & -> & H1); by apply meets_done.
Qed.

Lemma net_sim_send_bytes id bs : sim (send_bytes malloc id bs) (send_bytes malloc id bs).
Proof.
  unfold send_bytes. apply net_sim_bind; [unfold assert_; apply net_sim_if; [apply net_sim_ret|done]|]. intros _.
  apply net_sim_error_of, net_sim_on_kcp. intros k. apply ikcp_send_conv.
Qed.

Lemma net_sim_Input id bs : sim (Input malloc id bs) (Input malloc id bs).
Proof. apply net_sim_error_of, net_sim_on_kcp. intros k. apply (ikcp_input_conv (overhead := Overhead_24)). Qed.
(** ** The table *)

Lemma on_peers_done {A} (m : M (Dict Guid Z) A) s x d : listening s = true -> m (peers s) = Done x d ->
  on_peers m s = Done x (MkUdp d (heap s) (made s) true (udpTicks s) (wire s) (disposed s) (user s)).
Proof. intros E Em. unfold on_peers. by rewrite E, Em. Qed.

Lemma on_peers_read {A} (m : M (Dict Guid Z) A) s x : listening s = true -> m (peers s) = Done x (peers s) -> on_peers m s = Done x s.
Proof. intros E Em. rewrite (on_peers_done m s x _ E Em). destruct s. cbn in *. by subst. Qed.

Lemma entered_delete h r i g id st d : table d st r -> entered h r -> r !! i = Some (g, id) -> entered (delete id h) (delete i r).
Proof.
  intros Ht He Hi j g' id'. pose proof (proj1 (He i g id) Hi) as (p & Hp & Eg & Ei). rewrite lookup_delete_Some, (He j g' id'). split.
  - intros (Hj & p' & Hp' & E1 & E2). exists p'. split; [|done]. apply lookup_delete_Some. split; [|done]. intros <-. congruence.
  - intros (p' & [Hne Hp']%lookup_delete_Some & E1 & E2). split; [|by exists p']. intros <-.
    assert (r !! i = Some (g', id')) by (apply He; by exists p'). congruence.
Qed.

(** The destructor of a peer that is there. *)
Lemma release_spec s r st i g id : listening s = true -> table (peers s) st r -> entered (heap s) r -> r !! i = Some (g, id) ->
  exists d st', peer_Release id s = Done tt (MkUdp d (delete id (heap s)) (made s) true (udpTicks s) (wire s) ({[ id ]} ∪ disposed s) (user s)) /\
    table d st' (delete i r) /\ count d = count (peers s) /\ entered (delete id (heap s)) (delete i r).
Proof.
  intros Hl Ht He Hi. pose proof (proj1 (He i g id) Hi) as (p & Hp & Eg & Ei).
  destruct (table_RemoveAt _ _ _ _ _ Ht Hi) as (d & E & Ht' & Hc). eexists d, _. split; [|split; [exact Ht'|split; [done|by eapply entered_delete]]].
  unfold peer_Release, peer. rewrite bind_assoc, bind_get, Hp. cbn [demand]. rewrite bind_mret, bind_modify, Ei.
  by rewrite (bind_done _ _ _ _ _ (on_peers_done (RemoveAt i) (dispose id s) tt d Hl E)).
Qed.

Lemma entered_none h r : entered h r -> r = ∅ -> h = ∅.
Proof.
  intros He ->. apply map_eq. intros id. rewrite lookup_empty. destruct (h !! id) as [p|] eqn:E; [|done].
  assert (Hr : (∅ : gmap Z (Guid * Z)) !! index_at_container p = Some (conv (kcp p), id)) by (apply He; by exists p). done.
Qed.

Lemma rel_listening_peer s a id p : rel s a -> heap s !! id = Some p -> listening s = true.
Proof. intros H Hp. pose proof (rel_table _ _ H) as Ht. destruct (listening s); [done|]. by rewrite Ht in Hp. Qed.

Lemma net_sim_release id : sim (peer_Release id) (net_release id).
Proof.
  intros s a H. pose proof H as [R1 R2 R3 R4 R5 R6 R7 R8 R9 R10 R11]. unfold net_release, peer.
  rewrite bind_assoc, bind_get, R1, lookup_fmap. destruct (heap s !! id) as [p|] eqn:Hp; [|done]. pose proof (rel_listening_peer s a id p H Hp) as Hl.
  rewrite Hl in R11. destruct R11 as (r & [st T1] & T2 & T3 & T4 & T5).
  assert (Hi : r !! index_at_container p = Some (conv (kcp p), id)) by (apply T3; by exists p).
  destruct (release_spec s r st _ _ _ Hl T1 T3 Hi) as (d & st' & -> & U1 & U2 & U3). apply meets_done. split; try done; cbn.
  - by rewrite R1, fmap_delete.
  - congruence.
  - by rewrite R6.
  - intros j [q [_ Hj]%lookup_delete_Some]. apply R10. by exists q.
  - exists (delete (index_at_container p) r). split; [by exists st'|]. split; [lia|]. split; [done|]. split.
    + intros g j. cbn. rewrite lookup_delete_Some, (T4 g j). split.
      * intros (Hne & i & Hij). exists i. apply lookup_delete_Some. split; [|done]. intros <-. congruence.
      * intros (i & [Hne Hij]%lookup_delete_Some). split; [|by exists i]. intros <-. apply Hne. exact (table_uniq _ _ _ _ _ _ _ T1 Hi Hij eq_refl).
    + intros Ek. destruct (T5 Ek) as [T6 T7]. split; [|lia]. etrans; [apply delete_subseteq|done].
Qed.
Lemma new_UdpPeer_inv g p : new_UdpPeer malloc kcpInterval g = Some p -> conv (kcp p) = g /\ index_at_container p = -1.
Proof.
  unfold new_UdpPeer, Kcp4.ikcp_create, KcpOps.ikcp_create. destruct (_ =? 0); [done|]. destruct (malloc _); [|done]. destruct (malloc _); [|done].
  cbn [mbind option_bind]. intros [= <-]. split; [|done]. unfold Kcp4.ikcp_nodelay, Kcp4.ikcp_wndsize, KcpOps.ikcp_nodelay, KcpOps.ikcp_wndsize. cbn.
  by destruct (0 <=? i32 kcpInterval).
Qed.

Lemma entered_insert h r i g id p : h !! id = None -> r !! i = None -> conv (kcp p) = g -> index_at_container p = i -> entered h r ->
  entered (<[id := p]> h) (<[i := (g, id)]> r).
Proof.
  intros Hh Hr Eg Ei He j g' id'. rewrite lookup_insert_Some. split.
  - intros [[<- [= <- <-]]|[Hj Hr']]; [exists p; by rewrite lookup_insert_eq|]. apply He in Hr' as (q & Hq & E1 & E2).
    exists q. rewrite lookup_insert_ne by congruence. done.
  - intros (q & Hq & E1 & E2). apply lookup_insert_Some in Hq as [[<- <-]|[Hne Hq]]; [left; by subst|].
    assert (Hj : r !! j = Some (g', id')) by (apply He; by exists q). right. split; [congruence|done].
Qed.

Lemma net_sim_create g : sim (listener_CreatePeer malloc kcpInterval g) (net_create malloc kcpInterval g).
Proof.
  intros s a H. pose proof H as [R1 R2 R3 R4 R5 R6 R7 R8 R9 R10 R11]. unfold listener_CreatePeer, net_create.
  destruct (new_UdpPeer malloc kcpInterval g) as [p|] eqn:Ep; [|by apply meets_done]. apply new_UdpPeer_inv in Ep as [Eg Ei].
  rewrite !bind_get. destruct (may_create g a) eqn:Em; [|done]. unfold may_create in Em. rewrite !andb_true_iff in Em.
  destruct Em as [[[Hl Hk] Hg%bool_decide_eq_true] Hm%Z.ltb_lt]. rewrite R3 in Hl. rewrite R8 in Hk. rewrite R2 in Hm. rewrite Hl in R11.
  destruct R11 as (r & [st T1] & T2 & T3 & T4 & T5). assert (Hnew : heap s !! made s = None).
  { destruct (heap s !! made s) eqn:E; [|done]. assert (made s < made s) by (apply R10; by rewrite E). lia. }
  destruct (table_Add_new dataSize (peers s) st r g (made s) ltac:(unfold dataSize; lia) ltac:(by vm_compute) ltac:(unfold dataSize; lia) T1) as (d & E & T1' & Hc).
  { intros i [g' id] Hi E. cbn in E. subst g'. assert (by_guid (peers a) !! g = Some id) by (apply T4; by exists i). congruence. }
  pose proof (table_free _ _ _ T1) as [Hfree _]. rewrite (bind_done _ _ _ _ _ (on_peers_done (Add dataSize g (made s) false) s _ d Hl E)). cbn [assert_ snd].
  unfold mbind, M_bind, modify, put, mret, M_ret. cbn. rewrite R2. apply meets_done. split; try done; cbn.
  - rewrite R1, fmap_insert. f_equal. destruct p. cbn in *. by subst.
  - congruence.
  - destruct lk; [by cbn in Hk|done].
  - intros j Hj. destruct (decide (made s = j)) as [<-|Hne]; [lia|]. rewrite lookup_insert_ne in Hj by done. pose proof (R10 j Hj). lia.
  - exists (<[st 0%nat := (g, made s)]> r). split; [by eexists|]. split; [lia|]. split; [by apply entered_insert|]. split; [|intros ->; by cbn in Hk].
    intros g' id. cbn. rewrite lookup_insert_Some. split.
    + intros [[<- <-]|[Hne Hn]]; [exists (st 0%nat); by rewrite lookup_insert_eq|]. apply T4 in Hn as [i Hi]. exists i.
      apply lookup_insert_Some. right. split; [congruence|done].
    + intros [i Hi]. apply lookup_insert_Some in Hi as [[_ [= <- <-]]|[Hne Hi]]; [by left|]. assert (Hn : by_guid (peers a) !! g' = Some id) by (apply T4; by exists i).
      right. split; [congruence|done].
Qed.

Lemma peer_deref_spec s r st i g id : listening s = true -> table (peers s) st r -> r !! i = Some (g, id) -> deref i s = Done id s.
Proof.
  intros Hl Ht Hi. destruct (table_entry _ _ _ _ _ _ Ht Hi) as (_ & it & Eit & Ekv & _). unfold deref.
  rewrite (bind_done _ _ _ _ _ (on_peers_read (item i) s it Hl ltac:(unfold item; rewrite bind_get; by rewrite Eit))). by rewrite Ekv.
Qed.

(** The loop of the destructor of the listener. *)
Lemma release_loop fuel s r st i : listening s = true -> table (peers s) st r -> entered (heap s) r -> stops (peers s) r 0 i ->
  count (peers s) - i <= Z.of_nat fuel ->
  exists d st', for_peers peer_Release fuel i (count (peers s)) s =
    Done tt (MkUdp d ∅ (made s) true (udpTicks s) (wire s) (dom (heap s) ∪ disposed s) (user s)) /\ table d st' ∅.
Proof.
  revert s r st i. induction fuel as [|fuel IH]; intros s r st i Hl Ht He (Hi & Hn & Hs) Hf; cbn [for_peers].
  all: destruct (Z.eqb_spec i (count (peers s))) as [E|E].
  1,3: assert (r = ∅) as Er by (apply map_eq; intros x; rewrite lookup_empty; destruct (r !! x) as [e|] eqn:Ex; [|done];
         pose proof (table_index _ _ _ _ _ Ht Ex); rewrite Hn in Ex by lia; done);
       pose proof (entered_none _ _ He Er) as Eh; exists (peers s), st; (split; [|by rewrite <-Er]); destruct s; cbn in *; subst; by rewrite dom_empty_L, union_empty_l_L.
  1: lia.
  destruct (Hs ltac:(lia)) as [[g id] Hgi]. rewrite (bind_done _ _ _ _ _ (peer_deref_spec s r st i g id Hl Ht Hgi)).
  destruct (release_spec s r st i g id Hl Ht He Hgi) as (d & st1 & E1 & Ht1 & Hc & He1). rewrite (bind_done _ _ _ _ _ E1).
  destruct (table_incr d st1 (delete i r) i Ht1) as (j & Ej & Hj & Hn' & Hs'); [lia|]. set (s1 := MkUdp d _ _ _ _ _ _ _).
  rewrite (bind_done _ _ _ _ _ (on_peers_read (Iter_incr i) s1 j eq_refl Ej)).
  destruct (IH s1 (delete i r) st1 j) as (d2 & st2 & E2 & Ht2); cbn [listening peers heap s1]; try done; [|lia|].
  { split; [lia|]. split; [|done]. intros x Hx. destruct (decide (x = i)) as [->|]; [apply lookup_delete_eq|]. destruct (decide (x < i)); [|apply Hn'; lia].
    rewrite lookup_delete_ne by done. apply Hn. lia. }
  cbn [peers s1] in E2. rewrite Hc in E2. exists d2, st2. split; [|done]. rewrite E2. cbn. do 2 f_equal.
  apply He in Hgi as (p & Hp & _). rewrite dom_delete_L, union_assoc_L. f_equal.
  assert (id ∈ dom (heap s)) by (by apply elem_of_dom_2 in Hp). apply set_eq. intros x. destruct (decide (x = id)); set_solver.
Qed.

Lemma listener_Release_spec s r st : listening s = true -> table (peers s) st r -> entered (heap s) r ->
  exists d, listener_Release s = Done tt (MkUdp d ∅ (made s) false (udpTicks s) (wire s) (dom (heap s) ∪ disposed s) (user s)).
Proof.
  intros Hl Ht He. unfold listener_Release, for_each_peer. destruct (table_begin _ _ _ Ht) as (i & Ei & Hi).
  rewrite bind_assoc, (bind_done _ _ _ _ _ (on_peers_read Iter_begin s i Hl Ei)), bind_assoc, (bind_done _ _ _ _ _ (on_peers_read Iter_end s (count (peers s)) Hl eq_refl)).
  destruct (release_loop (Z.to_nat (count (peers s))) s r st i Hl Ht He Hi) as (d & st' & E & Ht'); [destruct Hi as [? _]; lia|].
  rewrite (bind_done _ _ _ _ _ E). destruct (table_Clear _ _ _ Ht') as (d' & Ec & _). set (s1 := MkUdp d _ _ _ _ _ _ _).
  rewrite (bind_done _ _ _ _ _ (on_peers_done Clear s1 tt d' eq_refl Ec)). by exists d'.
Qed.

Lemma net_sim_close : sim listener_Release net_close.
Proof.
  intros s a H. pose proof H as [R1 R2 R3 R4 R5 R6 R7 R8 R9 R10 R11]. unfold net_close. rewrite bind_get, R3, R8.
  destruct (listening s) eqn:Hl; [|done]. destruct lk eqn:Ek; [done|]. cbn [assert_ andb negb]. rewrite bind_mret.
  destruct R11 as (r & [st T1] & T2 & T3 & T4 & T5). destruct (listener_Release_spec s r st Hl T1 T3) as (d & ->). apply meets_done.
  split; try done; cbn. { by rewrite R1, dom_fmap_L, R6. } { by rewrite Ek. } by intros id [x Hx].
Qed.
(** ** The application *)

Lemma net_sim_act x : sim (act malloc x) (act malloc x).
Proof.
  intros s a H. unfold act. rewrite !bind_get. destruct x as [id|id bs|g|]; rewrite ?(rel_alive s a id H), ?(rel_listening _ _ H);
    [destruct (alive id s)|destruct (alive id s)|destruct (listening s)|destruct (listening s)]; try by apply net_sim_ret.
  - by apply net_sim_release.
  - by apply meets_bind; [apply net_sim_send_bytes|intros; apply net_sim_ret].
  - by apply meets_bind; [apply net_sim_create|intros; apply net_sim_ret].
  - by apply net_sim_close.
Qed.

Lemma net_sim_act_all l : sim (act_all malloc l) (act_all malloc l).
Proof. induction l as [|x l IH]; cbn [act_all]; [apply net_sim_ret|]. apply net_sim_bind; [apply net_sim_act|]. intros _. apply IH. Qed.

Lemma rel_user_set s a b : rel s a -> rel (set_user b s) (set_user b a).
Proof. intros []. by split. Qed.

Lemma net_sim_call f : sim (call malloc f) (call malloc f).
Proof.
  intros s a H. unfold call. rewrite !bind_get, (rel_user _ _ H). destruct (f (user s)) as [b l].
  exact (net_sim_act_all l _ _ (rel_user_set s a b H)).
Qed.

Lemma net_sim_make_peer o g : sim (make_peer malloc o g) (make_peer malloc o g).
Proof.
  unfold make_peer. destruct o as [f|].
  - intros s a H. rewrite !bind_get, (rel_user _ _ H). apply meets_bind; [by apply net_sim_call|]. intros _. apply net_sim_bind.
    + apply net_sim_if; [apply net_sim_create|apply net_sim_ret].
    + intros p s1 a1 H1. rewrite !bind_get, (rel_listening _ _ H1). by apply net_sim_ret.
  - apply net_sim_bind; [apply net_sim_create|]. intros p. apply net_sim_bind; [apply net_sim_demand|]. intros x. apply net_sim_ret.
Qed.

Context (routingAddress : bytes).
Context (OnReceive : Z -> delivery -> bytes -> B -> Bytes.BBuffer * B * list action).

Definition both (o : option W) (o' : option N) : Prop :=
  match o, o' with Some s, Some a => rel s a | _, _ => False end.

Lemma both_run m m' o o' : sim m m' -> both o o' -> run_in m' o' = None \/ both (run_in m o) (run_in m' o').
Proof.
  intros Hm. destruct o as [s|], o' as [a|]; cbn; try done. intros H. specialize (Hm s a H).
  destruct (m' a); [destruct Hm as (s1 & -> & ?)..|]; by auto.
Qed.

Lemma net_sim_receive id d : sim (receive malloc routingAddress OnReceive id d) (receive malloc routingAddress OnReceive id d).
Proof.
  intros s a H. unfold receive. apply meets_peer; [done|]. intros p Hp. rewrite !bind_get.
  assert (Hf : follows both (fun o => o = None) (ReceiveImpl (handle malloc OnReceive id) (disconnect id) d)
    (ReceiveImpl (handle malloc OnReceive id) (disconnect id) d)).
  { apply follows_ReceiveImpl.
    - by intros d0 sa o ->.
    - by intros o ->.
    - intros d0 sa o o' Ho. destruct o as [s0|], o' as [a0|]; try done. cbn in Ho. unfold handle. rewrite (rel_user _ _ Ho).
      destruct (OnReceive id d0 sa (user s0)) as [[rb b] l]. 
      destruct (both_run _ _ (Some (set_user b s0)) (Some (set_user b a0)) (net_sim_act_all l) (rel_user_set s0 a0 b Ho)) as [E|E]; [left; exact E|right].
      cbn [fst snd]. split; [|exact E]. destruct (run_in (act_all malloc l) (Some (set_user b s0))) as [s1|], (run_in (act_all malloc l) (Some (set_user b a0))) as [a1|]; try done.
      by rewrite (rel_alive s1 a1 id E).
    - intros o o' Ho. by apply both_run; [apply net_sim_release|].
    - exact (populate None). }
  apply proj2 in Hf. specialize (Hf (MkPeer (bbRecv p) routingAddress (senderAddress p) (Some s)) (MkPeer (bbRecv p) routingAddress (senderAddress p) (Some a))).
  cbn [bbRecv senderAddress set_index].
  destruct (ReceiveImpl _ _ d (MkPeer _ _ _ (Some a))) as [[] q|e q|]; [| |done];
    (destruct Hf as [Hf|(q0 & -> & E1 & _ & E3 & E4)]; [done|by rewrite Hf|]).
  all: unfold both in E4; destruct (app q0) as [s1|], (app q) as [a1|]; try done; cbn [demand]; rewrite !bind_mret.
  all: unfold put; rewrite !(bind_done (fun _ => Done tt _) _ _ _ _ eq_refl), (rel_heap _ _ E4), lookup_fmap.
  all: destruct (heap s1 !! id) as [p1|] eqn:Hp1; cbn [fmap option_fmap option_map]; [|by apply meets_done].
  all: rewrite E1, E3; apply meets_done; exact (rel_put s1 a1 id p1 (set_received _ _ p1) E4 Hp1 eq_refl eq_refl).
Qed.

Lemma net_sim_recv_loop fuel id : sim (recv_loop malloc routingAddress OnReceive fuel id) (recv_loop malloc routingAddress OnReceive fuel id).
Proof.
  induction fuel as [|fuel IH]; intros s a H; cbn [recv_loop]; [done|].
  pose proof (net_sim_on_kcp id (Kcp4.ikcp_recv 65536) (ikcp_recv_conv 65536) s a H) as Hr.
  destruct (on_kcp id (Kcp4.ikcp_recv 65536) a) as [[n d] a1|e a1|]; [| |done]; destruct Hr as (s1 & -> & H1); [|by apply meets_done].
  destruct (n <=? 0); [by apply meets_done|]. apply meets_bind; [by apply net_sim_receive|]. intros _ s2 a2 H2. rewrite !bind_get, (rel_alive s2 a2 id H2).
  destruct (alive id s2); [by apply IH|by apply meets_done].
Qed.

Lemma net_sim_Update id now : sim (Update malloc routingAddress OnReceive id now) (Update malloc routingAddress OnReceive id now).
Proof.
  intros s a H. unfold Update. apply meets_peer; [done|]. intros p Hp. cbn [nextUpdateTicks set_index].
  destruct (now <? nextUpdateTicks p); [by apply meets_done|].
  apply meets_bind; [by apply net_sim_on_kcp; [intros k; apply (ikcp_update_conv (overhead := Overhead_24))|]|]. intros [] s1 a1 H1.
  apply meets_peer; [done|]. intros p1 Hp1. cbn [kcp set_index]. apply meets_bind; [|intros _; apply net_sim_recv_loop].
  apply meets_done. exact (rel_put s1 a1 id p1 (set_nextUpdateTicks (Kcp4.ikcp_check now (kcp p1)) p1) H1 Hp1 eq_refl eq_refl).
Qed.
(** ** Datagrams *)

Context (OnCreatePeer : option (Guid -> B -> B * list action * bool)) (OnAccept : Z -> B -> B * list action).

(** What is done with a datagram for peer [id]; [fresh]: it is new. *)
Definition passed_on {T} `{!Peers (Udp T B)} (fresh : bool) (id : Z) (bs : bytes) (addr : Z) : M (Udp T B) unit :=
  p ← peer id;
  _ ← put_peer id (set_address addr p);
  _ ← (if fresh then call malloc (OnAccept id) else mret tt);
  s ← get;
  if fresh && negb (listening s) then mret tt
  else
    r ← Input malloc id bs;
    if negb (r =? 0) then release id else mret tt.

Lemma net_sim_passed_on fresh id bs addr : sim (passed_on fresh id bs addr) (passed_on fresh id bs addr).
Proof.
  intros s a H. unfold passed_on. apply meets_peer; [done|]. intros p Hp. apply meets_bind.
  { apply meets_done. exact (rel_put s a id p (set_address addr p) H Hp eq_refl eq_refl). }
  intros _. apply net_sim_bind; [apply net_sim_if; [apply net_sim_call|apply net_sim_ret]|]. intros _ s1 a1 H1. rewrite !bind_get, (rel_listening _ _ H1).
  destruct (fresh && _); [by apply meets_done|]. apply meets_bind; [by apply net_sim_Input|]. intros e. apply net_sim_if; [apply net_sim_release|apply net_sim_ret].
Qed.

Lemma net_create_named g a id a' : net_create malloc kcpInterval g a = Done (Some id) a' -> by_guid (peers a') !! g = Some id /\ listening a' = true.
Proof.
  unfold net_create. destruct (new_UdpPeer malloc kcpInterval g); [|done]. rewrite bind_get. destruct (may_create g a) eqn:Em; [|done].
  unfold mbind, M_bind, put, assert_, mret, M_ret. intros [= <- <-]. cbn. split; [apply lookup_insert_eq|].
  unfold may_create in Em. by destruct (listening a).
Qed.

Lemma make_peer_named g a id a' : make_peer malloc OnCreatePeer g a = Done (Some id) a' -> by_guid (peers a') !! g = Some id /\ listening a' = true.
Proof.
  unfold make_peer. destruct OnCreatePeer as [f|].
  - rewrite bind_get. intros (u & a1 & _ & (p & a2 & E2 & E3)%bind_inv_done)%bind_inv_done. rewrite bind_get in E3.
    unfold mret, M_ret in E3. injection E3 as E3 <-. destruct (listening a2) eqn:El; [|done]. subst p.
    destruct (f g (user a)).2; [|by injection E2]. by split; [apply (net_create_named _ _ _ _ E2)|].
  - intros (p & a1 & E1 & (x & a2 & E2 & E3)%bind_inv_done)%bind_inv_done. destruct p as [p|]; [|done]. injection E2 as <- <-. injection E3 as <- <-.
    by eapply net_create_named.
Qed.

Lemma rel_registered s a g id : rel s a -> listening s = true -> by_guid (peers a) !! g = Some id ->
  exists st r i, table (peers s) st r /\ r !! i = Some (g, id).
Proof.
  intros H Hl Hg. pose proof (rel_table _ _ H) as Ht. rewrite Hl in Ht. destruct Ht as (r & [st T1] & _ & _ & T4 & _).
  pose proof (proj1 (T4 g id) Hg) as [i Hi]. by exists st, r, i.
Qed.

Lemma OnReceiveImpl_meets bs addr s a : rel s a -> listening s = true ->
  meets rel (OnReceiveImpl malloc kcpInterval OnCreatePeer OnAccept bs addr s) (net_receive malloc kcpInterval OnCreatePeer OnAccept bs addr a).
Proof.
  intros H Hl. unfold OnReceiveImpl, net_receive. destruct (zlen bs <? 36); [by apply meets_done|].
  destruct (Fill bs) as [g|]; [|done]. cbn [demand]. rewrite !bind_mret, bind_get.
  pose proof (rel_table _ _ H) as Ht. rewrite Hl in Ht. destruct Ht as (r & [st T1] & _ & _ & T4 & _).
  destruct (table_Find _ _ _ g T1) as (i & Ei & Hi). rewrite (bind_done _ _ _ _ _ (on_peers_read (Find g) s i Hl Ei)).
  destruct Hi as [[-> Hn]|(Hi & id & Hg)].
  - assert (by_guid (peers a) !! g = None) as ->.
    { destruct (by_guid (peers a) !! g) as [id|] eqn:E; [|done]. apply T4 in E as [i E]. by destruct (Hn i (g, id) E). }
    cbn [Z.ltb Z.compare]. rewrite bind_assoc. pose proof (net_sim_make_peer OnCreatePeer g s a H) as Hm. unfold meets in Hm.
    destruct (make_peer malloc OnCreatePeer g a) as [[id|] a1|e a1|] eqn:Em; [| | |by rewrite (bind_undef _ _ _ Em)]; destruct Hm as (s1 & Es & H1);
      [rewrite (bind_done _ _ _ _ _ Em), (bind_done _ _ _ _ _ Es)..|rewrite (bind_fail _ _ _ _ _ Em), (bind_fail _ _ _ _ _ Es)].
    + apply make_peer_named in Em as [Hg1 Hl1]. rewrite (rel_listening _ _ H1) in Hl1.
      destruct (rel_registered s1 a1 g id H1 Hl1 Hg1) as (st1 & r1 & i & T1' & Hi).
      rewrite bind_assoc, (bind_done _ _ _ _ _ (on_peers_read (Add dataSize g id false) s1 (false, i) Hl1 (table_Add_taken dataSize _ _ _ i g id id T1' Hi))), bind_mret.
      exact (net_sim_passed_on true id bs addr s1 a1 H1).
    + by apply meets_done.
    + by exists s1.
  - assert (by_guid (peers a) !! g = Some id) as -> by (apply T4; by exists i). rewrite bind_mret.
    destruct (Z.ltb_spec i 0); [lia|]. rewrite bind_assoc, (bind_done _ _ _ _ _ (on_peers_read (ValueAt i) s id Hl (table_ValueAt _ _ _ _ _ _ T1 Hg))), bind_mret.
    exact (net_sim_passed_on false id bs addr s a H).
Qed.
End sim.
Arguments rel {B}.
Arguments meets {B A}.

(** ** The timer *)

Lemma bind_put {S A} (s s' : S) (f : unit -> M S A) : (x ← put s'; f x) s = f tt s'.
Proof. done. Qed.

Section timer.
Context {B : Type} (malloc : Z -> bool) (kcpInterval : Z).
Abbreviation W := (Udp (Dict Guid Z) B).
Abbreviation N := (Udp Names B).
Implicit Types (s : W) (a : N) (r lim : gmap Z (Guid * Z)).
#[local] Instance PW' : Peers W := Peers_Dict malloc kcpInterval.
#[local] Instance PN' : Peers N := Peers_Names malloc kcpInterval.
Context (routingAddress : bytes).
Context (OnReceive : Z -> delivery -> bytes -> B -> Bytes.BBuffer * B * list action).

(** The peers in the order of their indices, from [i] on. *)
Definition in_order (lim : gmap Z (Guid * Z)) (len i : Z) : list Z := omap (fun x => snd <$> lim !! x) (seqZ i (len - i)).

Lemma in_order_cons lim len i : i < len ->
  in_order lim len i = match lim !! i with Some e => e.2 :: in_order lim len (i + 1) | None => in_order lim len (i + 1) end.
Proof.
  intros Hi. unfold in_order. rewrite (seqZ_cons i) by lia. replace (Z.pred (len - i)) with (len - (i + 1)) by lia. rewrite <-Z.add_1_r.
  cbn [omap list_omap]. by destruct (lim !! i).
Qed.

Definition one_index lim : Prop := forall i j g g' id, lim !! i = Some (g, id) -> lim !! j = Some (g', id) -> i = j.

(** Peers that are gone are passed over. *)
Lemma net_update_skip lim len s a st r i j : rel true lim len s a -> one_index lim -> table (peers s) st r -> entered (heap s) r -> r ⊆ lim ->
  i <= j <= len -> (forall x, i <= x < j -> r !! x = None) ->
  net_update malloc kcpInterval routingAddress OnReceive (in_order lim len i) a = net_update malloc kcpInterval routingAddress OnReceive (in_order lim len j) a.
Proof.
  intros H Hu Ht He Hr Hij Hn. remember (Z.to_nat (j - i)) as n eqn:En. revert i Hij Hn En. induction n as [|n IH]; intros i Hij Hn En.
  { by replace j with i by lia. }
  rewrite in_order_cons by lia. rewrite <-(IH (i + 1)); [|lia|intros x Hx; apply Hn; lia|lia]. destruct (lim !! i) as [[g id]|] eqn:Ei; [|done].
  cbn [snd net_update]. rewrite bind_get. rewrite (rel_alive _ _ _ s a id H). unfold alive. rewrite bool_decide_false; [done|].
  intros [p Hp]. assert (Hx : r !! index_at_container p = Some (conv (kcp p), id)) by (apply He; by exists p).
  assert (index_at_container p = i) as E by (eapply Hu; [by eapply lookup_weaken|done]). rewrite E, Hn in Hx by lia. done.
Qed.

Lemma timer_loop fuel lim len s a i : rel true lim len s a -> one_index lim -> 0 <= i <= len -> len - i <= Z.of_nat fuel ->
  (forall st r, table (peers s) st r -> i < len -> is_Some (r !! i)) ->
  meets (rel true lim len) (for_peers (fun id => s ← get; Update malloc routingAddress OnReceive id (udpTicks s)) fuel i len s)
    (net_update malloc kcpInterval routingAddress OnReceive (in_order lim len i) a).
Proof.
  revert s a i. induction fuel as [|fuel IH]; intros s a i H Hu Hi Hf Hs; cbn [for_peers].
  all: destruct (Z.eqb_spec i len) as [->|Hne]; [unfold in_order; rewrite Z.sub_diag; by apply meets_done|].
  1: lia.
  pose proof (rel_table _ _ _ _ _ H) as Ht. rewrite (rel_lock _ _ _ _ _ H eq_refl) in Ht.
  destruct Ht as (r & [st T1] & _ & T3 & _ & T5). destruct (T5 eq_refl) as [T6 T7]. destruct (Hs st r T1 ltac:(lia)) as [[g id] Hgi].
  rewrite (bind_done _ _ _ _ _ (peer_deref_spec s r st i g id (rel_lock _ _ _ _ _ H eq_refl) T1 Hgi)).
  rewrite in_order_cons by lia. assert (lim !! i = Some (g, id)) as -> by (by eapply lookup_weaken). cbn [snd net_update].
  rewrite bind_assoc, !bind_get, (rel_alive _ _ _ s a id H). pose proof (proj1 (T3 i g id) Hgi) as (p & Hp & _).
  assert (alive id s = true) as -> by (unfold alive; apply bool_decide_eq_true; by exists p).
  rewrite (rel_udpTicks _ _ _ _ _ H). pose proof (net_sim_Update malloc kcpInterval true lim len routingAddress OnReceive id (udpTicks s) s a H) as Hm. unfold meets in Hm.
  destruct (Update malloc routingAddress OnReceive id (udpTicks s) a) as [[] a1|e a1|] eqn:Ea; [| |by rewrite (bind_undef _ _ _ Ea)]; destruct Hm as (s1 & Es & H1).
  2: { rewrite (bind_fail _ _ _ _ _ Ea), (bind_fail _ _ _ _ _ Es). by exists s1. }
  rewrite (bind_done _ _ _ _ _ Ea), (bind_done _ _ _ _ _ Es). clear Ea Es.
  pose proof (rel_table _ _ _ _ _ H1) as Ht. pose proof (rel_lock _ _ _ _ _ H1 eq_refl) as Hl1. rewrite Hl1 in Ht.
  destruct Ht as (r1 & [st1 U1] & _ & U3 & _ & U5). destruct (U5 eq_refl) as [U6 U7].
  destruct (table_incr _ _ _ i U1) as (j & Ej & Hj & Hn & Hsj); [lia|]. rewrite (bind_done _ _ _ _ _ (on_peers_read (Iter_incr i) s1 j Hl1 Ej)).
  rewrite (net_update_skip lim len s1 a1 st1 r1 (i + 1) j H1 Hu U1 U3 U6) by (done || lia).
  apply IH; [done|done|lia|lia|]. intros st2 r2 V1 Hlt. destruct (table_incr _ _ _ i V1) as (j2 & Ej2 & _ & _ & Hs2); [lia|].
  rewrite Ej in Ej2. injection Ej2 as <-. apply Hs2. lia.
Qed.

(** Every order in which the indices can be is one of the peers. *)
Lemma in_order_peers (d : Dict Guid Z) st r (h : gmap Z UdpPeer) : table d st r -> entered h r -> in_order r (count d) 0 ≡ₚ elements (dom h).
Proof.
  intros Ht He. unfold in_order. rewrite Z.sub_0_r. apply NoDup_Permutation; [|apply NoDup_elements|].
  - apply NoDup_omap_inj; [|apply NoDup_seqZ]. intros x y id _ _ Hx Hy.
    destruct (r !! x) as [[g1 id1]|] eqn:Ex, (r !! y) as [[g2 id2]|] eqn:Ey; try done. cbn in Hx, Hy. simplify_eq.
    apply He in Ex as (p & Hp & _ & <-), Ey as (q & Hq & _ & <-). by simplify_eq.
  - intros id. rewrite list_elem_of_omap, elem_of_elements, elem_of_dom. split.
    + intros (i & _ & Hi). destruct (r !! i) as [[g id']|] eqn:E; [|done]. cbn in Hi. simplify_eq. apply He in E as (p & Hp & _). by exists p.
    + intros [p Hp]. exists (index_at_container p). assert (E : r !! index_at_container p = Some (conv (kcp p), id)) by (apply He; by exists p).
      rewrite E. split; [|done]. apply elem_of_seqZ. pose proof (table_index _ _ _ _ _ Ht E). lia.
Qed.

Lemma rel_ticks lk lim len s a t : rel lk lim len s a -> rel lk lim len (set_udpTicks t s) (set_udpTicks t a).
Proof. intros []. by split. Qed.

(** [f] is a way to order lists. *)
Definition reorders (f : list Z -> list Z) : Prop := forall l, f l ≡ₚ l.

Lemma timer_meets s a : rel false ∅ 0 s a -> exists order, reorders order /\
  meets (rel false ∅ 0) (timer malloc kcpInterval routingAddress OnReceive s) (net_timer malloc kcpInterval routingAddress OnReceive order a).
Proof.
  intros H. pose proof (rel_ticks _ _ _ s a (u32 (udpTicks s + kcpInterval)) H) as H1. unfold timer.
  rewrite bind_get. destruct (listening s) eqn:Hl.
  2: { exists (fun l => l). split; [by intros l|]. unfold net_timer. rewrite bind_get, (rel_udpTicks _ _ _ _ _ H), (rel_listening _ _ _ _ _ H), Hl. by apply meets_done. }
  set (s1 := set_udpTicks _ s) in *. pose proof (rel_table _ _ _ _ _ H1) as Ht. change (listening s1) with (listening s) in Ht. rewrite Hl in Ht.
  destruct Ht as (r & [st T1] & T2 & T3 & T4 & _). set (l := in_order r (count (peers s1)) 0).
  exists (fun l0 => if decide (l ≡ₚ l0) then l else l0). split; [intros l0; by destruct (decide _)|].
  unfold net_timer. rewrite bind_get, (rel_udpTicks _ _ _ _ _ H), (rel_listening _ _ _ _ _ H), Hl. set (a1 := set_udpTicks _ a) in *.
  rewrite !bind_put, decide_True.
  2: { rewrite (rel_heap _ _ _ _ _ H), dom_fmap_L. by apply (in_order_peers (peers s1) st). }
  assert (H2 : rel true r (count (peers s1)) s1 (lock true a1)).
  { destruct H1. split; try done. change (listening s1) with (listening s). rewrite Hl. exists r. split; [by exists st|]. by split_and!. }
  assert (Hu : one_index r) by (intros i j g g' id (p & Hp & _ & <-)%T3 (q & Hq & _ & <-)%T3; by simplify_eq).
  unfold for_each_peer. destruct (table_begin _ _ _ T1) as (i & Ei & Hi & Hn & Hs).
  rewrite (bind_done _ _ _ _ _ (on_peers_read Iter_begin s1 i Hl Ei)), (bind_done _ _ _ _ _ (on_peers_read Iter_end s1 (count (peers s1)) Hl eq_refl)).
  pose proof (net_update_skip r _ s1 (lock true a1) st r 0 i H2 Hu T1 T3 (reflexivity r) Hi Hn) as Hskip. fold l in Hskip.
  pose proof (timer_loop (Z.to_nat (count (peers s1))) r (count (peers s1)) s1 (lock true a1) i H2 Hu ltac:(lia) ltac:(lia)) as Hm.
  rewrite <-Hskip in Hm. unfold meets at 1 in Hm. unfold while_locked.
  assert (Hback : forall s2 a2, rel true r (count (peers s1)) s2 a2 -> rel false ∅ 0 s2 (lock false a2)).
  { intros s2 a2 []. split; try done. destruct (listening s2); [|done]. destruct rel_table0 as (r2 & ? & ? & ? & ? & _). exists r2. by split_and!. }
  assert (Hs' : forall st0 r0, table (peers s1) st0 r0 -> i < count (peers s1) -> is_Some (r0 !! i)).
  { intros st0 r0 V1. destruct (table_begin _ _ _ V1) as (i' & Ei' & _ & _ & Hs'). rewrite Ei in Ei'. by injection Ei' as <-. }
  specialize (Hm Hs'). unfold PW', PN' in *. destruct (net_update _ _ _ _ l (lock true a1)) as [[] a2|e a2|]; [..|done]; destruct Hm as (s2 & -> & H3); eexists; (split; [done|by apply Hback]).
Qed.

(** ** Events *)

Context (OnCreatePeer : option (Guid -> B -> B * list action * bool)) (OnAccept : Z -> B -> B * list action).

Lemma step_meets e s a : rel false ∅ 0 s a -> exists order, reorders order /\
  meets (rel false ∅ 0) (step malloc kcpInterval routingAddress OnReceive OnCreatePeer OnAccept e s)
    (net_step malloc kcpInterval routingAddress OnReceive OnCreatePeer OnAccept order e a).
Proof.
  intros H. destruct e as [bs addr| |x]; [|by apply timer_meets|]; exists (fun l => l); (split; [by intros l|]); cbn [step net_step].
  - rewrite !bind_get, (rel_listening _ _ _ _ _ H). destruct (listening s) eqn:Hl; [by apply OnReceiveImpl_meets|by apply meets_done].
  - by apply net_sim_act.
Qed.

Lemma run_meets es s a : rel false ∅ 0 s a -> exists orders, length orders = length es /\ Forall reorders orders /\
  meets (rel false ∅ 0) (run malloc kcpInterval routingAddress OnReceive OnCreatePeer OnAccept es s)
    (net_run malloc kcpInterval routingAddress OnReceive OnCreatePeer OnAccept orders es a).
Proof.
  revert s a. induction es as [|e es IH]; intros s a H; [by exists []; split; [|split; [|apply meets_done]]|].
  destruct (step_meets e s a H) as (o & Ho & Hm). unfold meets in Hm. cbn [run].
  destruct (net_step malloc kcpInterval routingAddress OnReceive OnCreatePeer OnAccept o e a) as [[] a1|err a1|] eqn:Ea.
  - destruct Hm as (s1 & Es & H1). destruct (IH s1 a1 H1) as (os & Hl & Hos & Hm). exists (o :: os). split; [cbn; by rewrite Hl|]. split; [by constructor|].
    cbn [net_run]. by rewrite (bind_done _ _ _ _ _ Ea), (bind_done _ _ _ _ _ Es).
  - destruct Hm as (s1 & Es & H1). exists (o :: repeat o (length es)). cbn [net_run]. rewrite (bind_fail _ _ _ _ _ Ea).
    split; [cbn; by rewrite repeat_length|]. split; [by constructor; [|apply Forall_forall; intros x Hx%list_elem_of_In%repeat_spec; subst]|]. rewrite (bind_fail _ _ _ _ _ Es). by exists s1.
  - exists (o :: repeat o (length es)). cbn [net_run]. rewrite (bind_undef _ _ _ Ea).
    split; [cbn; by rewrite repeat_length|]. split; [by constructor; [|apply Forall_forall; intros x Hx%list_elem_of_In%repeat_spec; subst]|done].
Qed.
End timer.

(** ** The fuel of [recv_loop] *)

Definition waiting (k : IKCPCB) : nat := (length (rcv_queue k) + length (rcv_buf k))%nat.

Lemma ikcp_recv_waiting len k r k' : 0 <= len -> KcpOps.ikcp_recv len k = Done r k' -> (waiting k' < waiting k)%nat.
Proof.
  intros Hlen. unfold KcpOps.ikcp_recv, mbind, M_bind, get, reject_if, assert_, put, mret, M_ret, fail, undef.
  destruct (rcv_queue k) as [|s0 q0] eqn:Eq; [done|]. destruct (KcpOps.ikcp_peeksize k <? 0); [done|]. destruct (_ <? KcpOps.ikcp_peeksize k); [done|].
  destruct (recv_merge (s0 :: q0)) as [[[d n] q] c] eqn:E. destruct (Z.ltb_spec len 0); [lia|]. destruct (n =? KcpOps.ikcp_peeksize k); [|done].
  assert (Hq : (length q < length (s0 :: q0))%nat).
  { cbn [recv_merge] in E. destruct (frg s0 =? 0); [injection E as <- <- <- <-; cbn; lia|].
    destruct (recv_merge q0) as [[[d1 n1] q1] c1] eqn:E1. injection E as <- <- <- <-. apply recv_merge_spec in E1 as (t & -> & _).
    cbn [length]. rewrite length_app. lia. }
  set (k1 := set_nrcv_que _ _). pose proof (f_equal length (move_loop_app (length (rcv_buf k1)) k1)) as Hm. rewrite !length_app in Hm.
  fold (move_available k1) in Hm. unfold waiting. rewrite Eq. change (rcv_queue k1) with q in Hm. change (rcv_buf k1) with (rcv_buf k) in Hm.
  intros [= <- <-]. destruct (_ && _); cbn in *; lia.
Qed.

Section fuel.
Context {B : Type} (malloc : Z -> bool) (kcpInterval : Z).
Abbreviation W := (Udp (Dict Guid Z) B).
Implicit Types s : W.
#[local] Instance PW'' : Peers W := Peers_Dict malloc kcpInterval.

(** The peers that stay have received what they had received. *)
Definition keeps s s' : Prop := made s <= made s' /\
  forall id p', heap s' !! id = Some p' -> id < made s -> exists p, heap s !! id = Some p /\ same_rcv (kcp p) (kcp p').

#[export] Instance keeps_preorder : PreOrder keeps.
Proof.
  split.
  - intros s. split; [lia|]. intros id p Hp _. by exists p.
  - intros s1 s2 s3 [L1 H1] [L2 H2]. split; [lia|]. intros id p3 Hp3 Hid. destruct (H2 id p3 Hp3) as (p2 & Hp2 & S2); [lia|].
    destruct (H1 id p2 Hp2 Hid) as (p1 & Hp1 & S1). exists p1. split; [done|by etrans].
Qed.

Lemma keeps_same s s' : heap s' = heap s -> made s' = made s -> keeps s s'.
Proof. intros E1 E2. split; [lia|]. rewrite E1. intros id p Hp _. by exists p. Qed.

Lemma keeps_put s id p p' : heap s !! id = Some p -> same_rcv (kcp p) (kcp p') -> keeps s (set_heap (<[id := p']> (heap s)) s).
Proof.
  intros Hp Hs. split; [done|]. intros j q Hq _. cbn in Hq. destruct (decide (id = j)) as [<-|Hne].
  - rewrite lookup_insert_eq in Hq. simplify_eq. by exists p.
  - rewrite lookup_insert_ne in Hq by done. by exists q.
Qed.

Lemma keeps_on_peers {A} (m : M (Dict Guid Z) A) s : after keeps s (on_peers m s).
Proof. unfold on_peers. destruct (listening s); [|done]. destruct (m (peers s)); try done; by apply keeps_same. Qed.

Lemma keeps_peer {A} id (f : UdpPeer -> M W A) s : (forall p, heap s !! id = Some p -> after keeps s (f p s)) -> after keeps s ((peer id ≫= f) s).
Proof. intros H. unfold peer. rewrite bind_assoc, bind_get. destruct (heap s !! id) as [p|] eqn:E; [|done]. by apply H. Qed.

Lemma keeps_output id k s p : heap s !! id = Some p -> same_rcv (kcp p) k -> after keeps s (OutputImpl id k s).
Proof.
  intros Hp Hk. unfold OutputImpl. apply keeps_peer. intros p' Hp'. assert (p' = p) as -> by congruence.
  assert (Hput : forall s1, heap s1 = heap s -> made s1 = made s -> after keeps s (put_peer id (set_kcp (set_sent [] k) p) s1)).
  { intros s1 E1 E2. cbn. etrans; [|apply (keeps_put s1 id p); [by rewrite E1|done]]. by apply keeps_same. }
  destruct (sent k) as [|x l]; [by apply Hput|]. destruct (address p) as [z|]; [|done]. exact (Hput (add_wire ((fun d => (z, d)) <$> x :: l) s) eq_refl eq_refl).
Qed.

Lemma keeps_on_kcp {A} id (m : M IKCPCB A) s : (forall k, after same_rcv k (m k)) -> after keeps s (on_kcp id m s).
Proof.
  intros Hm. unfold on_kcp. apply keeps_peer. intros p Hp. specialize (Hm (kcp p)). destruct (m (kcp p)); [| |done];
    (apply (after_bind _); [by eapply keeps_output|]); intros [] s1 _; cbn; reflexivity.
Qed.

Lemma keeps_release id s : after keeps s (peer_Release id s).
Proof.
  unfold peer_Release. apply keeps_peer. intros p Hp. effects.
  - by apply keeps_same.
  - apply keeps_on_peers.
  - split; [done|]. intros j q Hq _. cbn in Hq. apply lookup_delete_Some in Hq as [_ Hq]. by exists q.
Qed.

Lemma keeps_create g s : after keeps s (listener_CreatePeer malloc kcpInterval g s).
Proof.
  unfold listener_CreatePeer. destruct (new_UdpPeer malloc kcpInterval g) as [p|]; [|apply (after_ret _)]. rewrite bind_get.
  unfold mbind at 1, M_bind at 1. pose proof (keeps_on_peers (Add dataSize g (made s) false) s) as H. unfold on_peers in *.
  destruct (listening s); [|done]. destruct (Add _ _ _ _ _) as [r d|e d|]; [|done|done]. cbn. split; [cbn; lia|].
  intros id q Hq Hid. cbn in Hq. rewrite lookup_insert_ne in Hq by lia. by exists q.
Qed.

Lemma keeps_for_peers body fuel i e s : (forall id s, after keeps s (body id s)) -> after keeps s (for_peers body fuel i e s).
Proof.
  intros Hb. revert i s. induction fuel as [|fuel IH]; intros i s; cbn [for_peers]; (destruct (i =? e); [apply (after_ret _)|]); [done|].
  unfold deref. effects; [apply keeps_on_peers|apply Hb|apply keeps_on_peers|apply IH].
Qed.

Lemma keeps_close s : after keeps s (listener_Release s).
Proof.
  unfold listener_Release, for_each_peer. effects; [apply keeps_on_peers..|apply keeps_for_peers, keeps_release|apply keeps_on_peers|by apply keeps_same].
Qed.

Lemma keeps_act x s : after keeps s (act malloc x s).
Proof.
  unfold act. rewrite bind_get. destruct x as [id|id bs|g|]; (case_match; [|apply (after_ret _)]).
  - apply keeps_release.
  - unfold send_bytes. effects. unfold error_of. pose proof (keeps_on_kcp id (Kcp4.ikcp_send malloc bs) s (ikcp_send_rcv malloc bs)) as Hk.
    by destruct (on_kcp id (Kcp4.ikcp_send malloc bs) s).
  - effects. apply keeps_create.
  - apply keeps_close.
Qed.

Lemma keeps_act_all l s : after keeps s (act_all malloc l s).
Proof. revert s. induction l as [|x l IH]; intros s; cbn [act_all]; effects; [apply keeps_act|apply IH]. Qed.

Context (routingAddress : bytes).
Context (OnReceive : Z -> delivery -> bytes -> B -> Bytes.BBuffer * B * list action).

Lemma keeps_receive id d s : after keeps s (receive malloc routingAddress OnReceive id d s).
Proof.
  unfold receive. apply keeps_peer. intros p Hp. rewrite bind_get. set (P := fun o : option W => match o with Some s' => keeps s s' | None => True end).
  assert (Hrun : forall (m : M W unit) o, (forall s, after keeps s (m s)) -> P o -> P (run_in m o)).
  { intros m o Hm Ho. destruct o as [s1|]; [|done]. cbn. specialize (Hm s1). destruct (m s1); cbn in *; [by etrans|by etrans|done]. }
  pose proof (ReceiveImpl_keeps P (handle malloc OnReceive id) (disconnect id) d (MkPeer (bbRecv p) routingAddress (senderAddress p) (Some s))) as H.
  assert (Ho : after (fun _ q => P (app q)) (MkPeer (bbRecv p) routingAddress (senderAddress p) (Some s))
    (ReceiveImpl (handle malloc OnReceive id) (disconnect id) d (MkPeer (bbRecv p) routingAddress (senderAddress p) (Some s)))).
  { apply H; [|intros a; apply Hrun; intros s2; apply keeps_release|apply (reflexivity (R := keeps))].
    intros d0 sa [s2|] H2; [|done]. cbn. destruct (OnReceive id d0 sa (user s2)) as [[rb b] l]. apply (Hrun _ (Some (set_user b s2))); [apply keeps_act_all|].
    unfold P in H2 |- *; etrans; [exact H2|by apply keeps_same]. }
  clear H. destruct (ReceiveImpl _ _ _ _) as [[] q|e q|]; [| |done]; unfold after at 1 in Ho; destruct (app q) as [s1|]; try done.
  all: cbn [demand]; rewrite bind_mret; unfold mbind, M_bind, put; destruct (heap s1 !! id) as [p1|] eqn:E1; [|done]; cbn; (etrans; [exact Ho|]); by apply (keeps_put s1 id p1).
Qed.

(** More fuel does not change anything. *)
Theorem recv_loop_fuel fuel id s p : heap s !! id = Some p -> id < made s -> (recv_fuel (kcp p) <= fuel)%nat ->
  recv_loop malloc routingAddress OnReceive fuel id s = recv_loop malloc routingAddress OnReceive (recv_fuel (kcp p)) id s.
Proof.
  enough (Hn : forall n m s p, heap s !! id = Some p -> id < made s -> (waiting (kcp p) < n)%nat -> (waiting (kcp p) < m)%nat ->
    recv_loop malloc routingAddress OnReceive n id s = recv_loop malloc routingAddress OnReceive m id s).
  { unfold recv_fuel. fold (waiting (kcp p)). intros Hp Hid Hf. apply (Hn _ _ s p); [done|done|lia|lia]. }
  clear fuel s p. induction n as [|n IH]; intros m s p Hp Hid Hn Hm; [lia|]. destruct m as [|m]; [lia|]. cbn [recv_loop].
  destruct (on_kcp id (Kcp4.ikcp_recv 65536) s) as [[k d] s1|e s1|] eqn:E; [|done|done]. destruct (k <=? 0); [done|].
  assert (H1 : exists p1, heap s1 !! id = Some p1 /\ (waiting (kcp p1) < waiting (kcp p))%nat /\ id < made s1).
  { revert E. unfold on_kcp, peer. rewrite bind_assoc, bind_get, Hp. cbn [demand]. rewrite bind_mret.
    destruct (Kcp4.ikcp_recv 65536 (kcp p)) as [r k'|e k'|] eqn:Ek; [| |done].
    - apply ikcp_recv_waiting in Ek; [|lia]. unfold OutputImpl, peer. rewrite !bind_assoc, bind_get, Hp. cbn [demand]. rewrite bind_mret.
      destruct (sent k'); [|destruct (address p); [|done]]; intros [= -> <-]; eexists; (split; [apply lookup_insert_eq|done]).
    - intros (u & s2 & _ & ?)%bind_inv_done. done. }
  destruct H1 as (p1 & Hp1 & Hlt & Hid1). apply bind_ext; [done|]. intros u s2 E2. rewrite !bind_get. destruct (alive id s2) eqn:Ea; [|done].
  apply bool_decide_eq_true in Ea as [p2 Hp2]. pose proof (keeps_receive id d s1) as Hk. rewrite E2 in Hk. destruct Hk as [Hk1 Hk2].
  destruct (Hk2 id p2 Hp2 Hid1) as (p1' & Hp1' & [Q1 Q2]). assert (p1' = p1) as -> by congruence.
  assert (waiting (kcp p2) = waiting (kcp p1)) by (unfold waiting; by rewrite Q1, Q2). apply (IH m s2 p2); [done|lia|lia|lia].
Qed.
End fuel.

(** ** The listener and its specification *)

Lemma new_rel {B} (d : Dict Guid Z) (b : B) : new_Dict dataSize 16 = Some d -> rel false ∅ 0 (new_Udp d b) (new_Udp (MkNames ∅ false) b).
Proof.
  intros E. destruct (table_new dataSize 16 d ltac:(unfold dataSize; lia) E) as [Ht Hc]. split; try done; cbn.
  { intros id [p Hp]. done. }
  exists ∅. split; [by eexists|]. split; [lia|]. split; [|split; [|done]].
  - intros i g id. split; [done|]. by intros (p & Hp & _).
  - intros g id. split; [done|]. by intros (i & Hi).
Qed.

(** C18. For every application and every sequence of datagrams, ticks of the
    timer and calls of the application, the listener does what the map from
    connection numbers to peers does, for some order of the peers at every tick:
    every datagram goes to the peer of its number, which is made when it is new
    and gets the address of the sender; every peer is updated in a tick, unless
    it has gone before its turn; and released peers are forgotten.  Wherever the
    specification is defined, the table is never used with the index of another
    peer, iterated past its end or overrun. *)
Theorem udp_refines_net {B : Type} (malloc : Z -> bool) (kcpInterval : Z) (routingAddress : bytes)
    (OnReceive : Z -> delivery -> bytes -> B -> Bytes.BBuffer * B * list action)
    (OnCreatePeer : option (Guid -> B -> B * list action * bool)) (OnAccept : Z -> B -> B * list action)
    (es : list event) (b : B) (d : Dict Guid Z) :
  new_Dict dataSize 16 = Some d ->
  exists orders, length orders = length es /\ Forall reorders orders /\
    match net_run malloc kcpInterval routingAddress OnReceive OnCreatePeer OnAccept orders es (new_Udp (MkNames ∅ false) b) with
    | Done _ a => exists s, run malloc kcpInterval routingAddress OnReceive OnCreatePeer OnAccept es (new_Udp d b) = Done tt s /\ rel false ∅ 0 s a
    | Fail e a => exists s, run malloc kcpInterval routingAddress OnReceive OnCreatePeer OnAccept es (new_Udp d b) = Fail e s /\ rel false ∅ 0 s a
    | Undef => True
    end.
Proof.
  intros E. destruct (run_meets malloc kcpInterval routingAddress OnReceive OnCreatePeer OnAccept es _ _ (new_rel d b E)) as (os & Hl & Ho & Hm).
  exists os. split; [done|]. split; [done|]. unfold meets in Hm. destruct (net_run _ _ _ _ _ _ _ _ _) as [[] a|e a|]; exact Hm.
Qed.

(** ** Example: two clients and a server that answers *)

Module UdpDemo.
Definition alloc (n : Z) : bool := true.
Definition g1 : Guid := MkGuid 1 0.
Definition g2 : Guid := MkGuid 2 0.

(** The datagrams of a client that sends one message. *)
Definition datagrams (g : Guid) (msg : bytes) : list bytes :=
  match Kcp4.ikcp_create alloc g with
  | None => []
  | Some k =>
      match Kcp4.ikcp_send alloc msg (Kcp4.ikcp_setoutput (Kcp4.ikcp_nodelay 1 10 2 1 k)) with
      | Done _ k => match Kcp4.ikcp_update 0 k with Done _ k => sent k | _ => [] end
      | _ => []
      end
  end.

(** A package with three bytes of content. *)
Definition package (a b c : Z) : bytes := [0; 3; 0; a; b; c].

(** The server notes who has sent what, and answers with an empty package of
    one byte; a peer that sends 9 is released. *)
Definition contents (d : delivery) : bytes :=
  match d with
  | Package rb => omap id (take (Z.to_nat (readLengthLimit rb - offset rb)) (drop (Z.to_nat (offset rb)) (cells rb)))
  | _ => []
  end.
Definition serve (id : Z) (d : delivery) (sender : bytes) (b : list (Z * bytes)) : Bytes.BBuffer * list (Z * bytes) * list action :=
  let rb := match d with Package rb | Request _ rb | Response _ rb | Routing rb _ _ _ => rb end in
  (rb, b ++ [(id, contents d)], match contents d with 9 :: _ => [Release id] | _ => [SendBytes id [0; 1; 0; 7]] end).

Definition events : list event :=
  ((fun d => Datagram d 1001) <$> datagrams g1 (package 1 2 3)) ++ ((fun d => Datagram d 1002) <$> datagrams g2 (package 9 9 9)) ++ [Tick; Tick].
Definition go (es : list event) d := run alloc 10 [] serve None (fun id b => (b, [])) es (new_Udp d []).
End UdpDemo.

Lemma udp_refines_net_witness : exists d s orders,
  new_Dict (K := Guid) (V := Z) dataSize 16 = Some d /\ UdpDemo.go UdpDemo.events d = Done tt s /\
  user s = [(0, [1; 2; 3]); (1, [9; 9; 9])] /\ fst <$> wire s = [1001; 1002; 1001] /\ disposed s = {[1]} /\ made s = 2 /\
  length orders = length UdpDemo.events /\ Forall reorders orders /\
  match net_run UdpDemo.alloc 10 [] UdpDemo.serve None (fun id b => (b, [])) orders UdpDemo.events (new_Udp (MkNames ∅ false) []) with
  | Done _ a => exists s', UdpDemo.go UdpDemo.events d = Done tt s' /\ rel false ∅ 0 s' a
  | Fail e a => exists s', UdpDemo.go UdpDemo.events d = Fail e s' /\ rel false ∅ 0 s' a
  | Undef => True
  end.
Proof.
  assert (Hd : exists d, new_Dict (K := Guid) (V := Z) dataSize 16 = Some d) by (eexists; vm_compute; reflexivity). destruct Hd as [d Hd].
  destruct (udp_refines_net UdpDemo.alloc 10 [] UdpDemo.serve None (fun id b => (b, [])) UdpDemo.events [] d Hd) as (os & Hl & Ho & Hm).
  vm_compute in Hd. injection Hd as <-. eexists _, _, os. split; [vm_compute; reflexivity|]. split; [vm_compute; reflexivity|].
  split; [vm_compute; reflexivity|]. split; [vm_compute; reflexivity|]. split; [vm_compute; reflexivity|]. split; [vm_compute; reflexivity|].
  split; [exact Hl|]. split; [exact Ho|exact Hm].
Defined.

(** The specification is defined on this run. *)
Example net_serves : exists a, net_run UdpDemo.alloc 10 [] UdpDemo.serve None (fun id b => (b, [])) (repeat reverse 4) UdpDemo.events
  (new_Udp (MkNames ∅ false) []) = Done tt a /\ user a = [(0, [1; 2; 3]); (1, [9; 9; 9])].
Proof. eexists. split; vm_compute; reflexivity. Qed.

(** ** Where the rules are broken *)

(** [OnAccept] may not release the peer that it is given: [Input] is called on
    it afterwards. *)
Theorem accept_release_dangles :
  (d ← new_Dict dataSize 16; Some (run UdpDemo.alloc 10 [] UdpDemo.serve None (fun id b => (b, [Release id])) UdpDemo.events (new_Udp d []))) = Some Undef.
Proof. by vm_compute. Qed.

(** A second peer with the same number gets the index of the first, and its
    destructor finds the element gone. *)
Theorem create_twice_dangles :
  (d ← new_Dict dataSize 16; Some (UdpDemo.go [Act (CreatePeer UdpDemo.g1); Act (CreatePeer UdpDemo.g1); Act (Release 0); Act (Release 1)] d)) = Some Undef.
Proof. by vm_compute. Qed.

(** Before [InitKcpFlushInterval], the constructor of a peer throws, and the
    listener uses the null pointer that it gets. *)
Theorem no_interval_null_peer :
  (d ← new_Dict dataSize 16; Some (run UdpDemo.alloc 0 [] UdpDemo.serve None (fun id b => (b, [])) UdpDemo.events (new_Udp d []))) = Some Undef.
Proof. by vm_compute. Qed.

(** A callback of the timer that makes two peers and releases the first: the
    iterator, which compares with the end as it was, runs past the array. *)
Definition breed (id : Z) (d : delivery) (sender : bytes) (b : list (Z * bytes)) : Bytes.BBuffer * list (Z * bytes) * list action :=
  let rb := match d with Package rb | Request _ rb | Response _ rb | Routing rb _ _ _ => rb end in
  (rb, b, [CreatePeer (MkGuid 3 0); CreatePeer (MkGuid 4 0); Release (id + 1)]).
Theorem timer_overruns (fuel : nat) :
  match (d ← new_Dict dataSize 16;
         Some (run UdpDemo.alloc 10 [] breed None (fun id b => (b, [])) ((fun d => Datagram d 1001) <$> UdpDemo.datagrams UdpDemo.g1 (UdpDemo.package 1 2 3)) (new_Udp d []))) with
  | Some (Done _ s) =>
      on_peers Iter_begin s = Done 0 s /\ on_peers Iter_end s = Done 1 s /\
      for_peers (fun id => Update (Peers0 := Peers_Dict UdpDemo.alloc 10) UdpDemo.alloc [] breed id 10) fuel 0 1 s = Undef
  | _ => False
  end.
Proof. destruct fuel as [|[|[|fuel]]]; vm_compute; done. Qed.

(** A message that is longer than [udpRecvBuf] is never taken out, nor is any
    message behind it. *)
Theorem long_message_blocks {B : Type} (malloc : Z -> bool) (routingAddress : bytes) `{!Peers (Udp (Dict Guid Z) B)}
    (OnReceive : Z -> delivery -> bytes -> B -> Bytes.BBuffer * B * list action) (fuel : nat) (id : Z) (s : Udp (Dict Guid Z) B) (p : UdpPeer) :
  heap s !! id = Some p -> sent (kcp p) = [] -> rcv_queue (kcp p) <> [] -> 65536 < KcpOps.ikcp_peeksize (kcp p) ->
  exists s', recv_loop malloc routingAddress OnReceive (S fuel) id s = Done tt s' /\ kcp <$> heap s' !! id = Some (kcp p) /\ user s' = user s.
Proof.
  intros Hp Hs Hq Hl. cbn [recv_loop]. unfold on_kcp, peer. rewrite bind_assoc, bind_get, Hp. cbn [demand]. rewrite bind_mret.
  assert (E : Kcp4.ikcp_recv 65536 (kcp p) = Fail (-3) (kcp p)).
  { unfold Kcp4.ikcp_recv, KcpOps.ikcp_recv. rewrite bind_get. destruct (rcv_queue (kcp p)) eqn:Eq; [done|]. unfold reject_if. rewrite bind_mret.
    destruct (Z.ltb_spec (KcpOps.ikcp_peeksize (kcp p)) 0); [lia|]. rewrite bind_mret. cbn [Z.ltb Z.compare].
    by destruct (Z.ltb_spec 65536 (KcpOps.ikcp_peeksize (kcp p))); [|lia]. }
  rewrite E. unfold OutputImpl, peer. rewrite !bind_assoc, bind_get, Hp. cbn [demand]. rewrite bind_mret, Hs. eexists. split; [reflexivity|]. cbn.
  rewrite lookup_insert_eq. cbn. split; [|done]. do 2 f_equal. destruct (kcp p). cbn in Hs. by subst.
Qed.
