(* ===== verification/UdpClient.v ===== *)
(** * xx_uv.cpp of test_uv_4: UDP clients, and the lists of the loop

    [UvUdpClient] is one KCP connection over a socket of its own.  The loop
    keeps its listeners, clients, timers and asyncs in lists; every object
    remembers its index, and takes itself out when it is destroyed: by
    exchange with the last element, or, for UDP clients, by moving the
    elements behind it. *)

From Stdlib Require Import ZArith Lia.
From stdpp Require Import base numbers list gmap.
From S2P Require Import Prelude Util BBuffer KcpState KcpOps Kcp4 Bytes Packets.
Open Scope Z_scope.

(** ** The lists of the loop *)

Record Registry := MkRegistry { objects : list Z; index_at_container : gmap Z Z }.

(** [index_at_container = list.dataLen; list.Add(this);] *)
Definition enter (id : Z) : M Registry unit :=
  modify (fun r => MkRegistry (objects r ++ [id]) (<[id := zlen (objects r)]> (index_at_container r))).

Definition index_of (id : Z) : M Registry Z := r ← get; demand (index_at_container r !! id).
Definition object (i : Z) : M Registry Z := r ← get; demand (znth (objects r) i).

(** [list[list.dataLen - 1]->index_at_container = index_at_container;
    list.SwapRemoveAt(index_at_container);] *)
Definition leave_swap (id : Z) : M Registry unit :=
  i ← index_of id;
  r ← get;
  last ← object (zlen (objects r) - 1);
  put (MkRegistry (take (length (objects r) - 1) (<[Z.to_nat i := last]> (objects r)))
         (delete id (<[last := i]> (index_at_container r)))).

(** [list.RemoveAt(index_at_container)], which asserts that the index is in the
    list. *)
Definition leave_shift (id : Z) : M Registry unit :=
  i ← index_of id;
  r ← get;
  _ ← assert_ (i <? zlen (objects r));
  put (MkRegistry (delete (Z.to_nat i) (objects r)) (delete id (index_at_container r))).

(** ** The client *)

Record UvUdpClient (B : Type) := MkClient {
  ptr : bool;  (* is there a handle? *)
  kcpPtr : option IKCPCB;
  guid : Guid;
  addrPtr : option Z;
  nextUpdateTicks : Z;
  bbRecv : Bytes.BBuffer;
  senderAddress : bytes;
  overwritten : option Z;  (* written into the handle at the offset of [rx_minrto] *)
  wire : list (Z * bytes);
  user : B
}.
Arguments MkClient {B}.
Arguments ptr {B}.
Arguments kcpPtr {B}.
Arguments guid {B}.
Arguments addrPtr {B}.
Arguments nextUpdateTicks {B}.
Arguments bbRecv {B}.
Arguments senderAddress {B}.
Arguments overwritten {B}.
Arguments wire {B}.
Arguments user {B}.

(** What the application does in an event function. *)
Inductive client_action :=
| CSend (bs : bytes)
| CDisconnect.

Section client.
Context {B : Type} (malloc : Z -> bool).
(** [loop.kcpInterval], whether memory for the handle was found, and the
    results of the calls of libuv. *)
Context (kcpInterval : Z) (found : bool) (uv_udp_init uv_udp_recv_start : Z).
Context (routingAddress : bytes) (OnReceive : delivery -> bytes -> B -> Bytes.BBuffer * B * list client_action).
Implicit Types c : UvUdpClient B.

Definition new_client (b : B) : UvUdpClient B :=
  MkClient false None Guid_zero None 0 (Bytes.MkBBuffer [] 0 0 0) [] None [] b.

Definition set_kcp (k : option IKCPCB) c :=
  MkClient (ptr c) k (guid c) (addrPtr c) (nextUpdateTicks c) (bbRecv c) (senderAddress c) (overwritten c) (wire c) (user c).
Definition set_user (b : B) c :=
  MkClient (ptr c) (kcpPtr c) (guid c) (addrPtr c) (nextUpdateTicks c) (bbRecv c) (senderAddress c) (overwritten c) (wire c) b.
Definition set_received (rb : Bytes.BBuffer) (sa : bytes) c :=
  MkClient (ptr c) (kcpPtr c) (guid c) (addrPtr c) (nextUpdateTicks c) rb sa (overwritten c) (wire c) (user c).
Definition set_nextUpdateTicks (t : Z) c :=
  MkClient (ptr c) (kcpPtr c) (guid c) (addrPtr c) t (bbRecv c) (senderAddress c) (overwritten c) (wire c) (user c).
Definition add_wire (l : list (Z * bytes)) c :=
  MkClient (ptr c) (kcpPtr c) (guid c) (addrPtr c) (nextUpdateTicks c) (bbRecv c) (senderAddress c) (overwritten c) (wire c ++ l) (user c).

(** [SetAddress] with an address that parses. *)
Definition SetAddress (a : Z) c :=
  MkClient (ptr c) (kcpPtr c) (guid c) (Some a) (nextUpdateTicks c) (bbRecv c) (senderAddress c) (overwritten c) (wire c) (user c).

(** The last lines write [rx_minrto] through [ptr], the handle, and not through
    [kcpPtr]. *)
Definition Connect (g : Guid) (sndwnd rcvwnd nodelay resend nc minrto : Z) : M (UvUdpClient B) Z :=
  c ← get;
  if kcpInterval =? 0 then mret (-1)
  else if ptr c then mret (-2)
  else if negb found then mret (-3)
  else if negb (uv_udp_init =? 0) then mret uv_udp_init
  else if negb (uv_udp_recv_start =? 0) then mret uv_udp_recv_start
  else
    let connected k h := MkClient h k g (addrPtr c) (nextUpdateTicks c) (bbRecv c) (senderAddress c) (if h : bool then Some minrto else None) (wire c) (user c) in
    match Kcp4.ikcp_create malloc g with
    | None => _ ← put (connected None false); mret (-4)
    | Some k =>
        let k := Kcp4.ikcp_wndsize sndwnd rcvwnd k in
        let k := Kcp4.ikcp_nodelay nodelay (i32 kcpInterval) resend nc k in
        _ ← put (connected (Some (Kcp4.ikcp_setoutput k)) true); mret 0
    end.

Definition Disconnect : M (UvUdpClient B) unit :=
  c ← get;
  if ptr c then
    put (MkClient false None (guid c) (addrPtr c) (nextUpdateTicks c) (bbRecv c) (senderAddress c) None (wire c) (user c))
  else mret tt.

(** [bool Disconnected() { return kcpPtr != nullptr; }] *)
Definition Disconnected c : bool := match kcpPtr c with Some _ => true | None => false end.

(** [OutputImpl] for what the connection has put out. *)
Definition OutputImpl (k : IKCPCB) : M (UvUdpClient B) unit :=
  c ← get;
  _ ← (match sent k with
       | [] => mret tt
       | l => a ← demand (addrPtr c); modify (add_wire ((fun d => (a, d)) <$> l))
       end);
  modify (set_kcp (Some (set_sent [] k))).

(** A call of KCP through [kcpPtr]; through a null pointer it is undefined. *)
Definition on_kcp {A} (m : M IKCPCB A) : M (UvUdpClient B) A :=
  c ← get;
  k ← demand (kcpPtr c);
  match m k with
  | Done a k => _ ← OutputImpl k; mret a
  | Fail e k => _ ← OutputImpl k; fail e
  | Undef => undef
  end.

Definition error_of {A} (m : M (UvUdpClient B) A) : M (UvUdpClient B) Z := fun c =>
  match m c with
  | Done _ c => Done 0 c
  | Fail e c => Done e c
  | Undef => Undef
  end.

Definition SendBytes (bs : bytes) : M (UvUdpClient B) Z :=
  _ ← assert_ (0 <? zlen bs);
  error_of (on_kcp (Kcp4.ikcp_send malloc bs)).

Definition OnReceiveImpl (bs : bytes) : M (UvUdpClient B) unit :=
  if zlen bs <? 36 then mret tt
  else
    r ← error_of (on_kcp (Kcp4.ikcp_input malloc bs));
    if negb (r =? 0) then Disconnect else mret tt.

Definition client_act (a : client_action) : M (UvUdpClient B) unit :=
  match a with
  | CSend bs => _ ← SendBytes bs; mret tt
  | CDisconnect => Disconnect
  end.
Fixpoint client_acts (l : list client_action) : M (UvUdpClient B) unit :=
  match l with
  | [] => mret tt
  | a :: l => _ ← client_act a; client_acts l
  end.

(** [ReceiveImpl] of [Packets]; [None] once something undefined has happened. *)
Definition run_in (m : M (UvUdpClient B) unit) (o : option (UvUdpClient B)) : option (UvUdpClient B) :=
  c ← o;
  match m c with
  | Done _ c | Fail _ c => Some c
  | Undef => None
  end.

Definition client_handle (d : delivery) (sender : bytes) (o : option (UvUdpClient B)) : fate * Bytes.BBuffer * option (UvUdpClient B) :=
  match o with
  | None => (Released, Bytes.MkBBuffer [] 0 0 0, None)
  | Some c =>
      let '(rb, b, l) := OnReceive d sender (user c) in
      let o := run_in (client_acts l) (Some (set_user b c)) in
      (match o with
       | Some c => if Disconnected c then Packets.Disconnected else Alive
       | None => Released
       end, rb, o)
  end.

Definition receive (d : bytes) : M (UvUdpClient B) unit :=
  c ← get;
  match ReceiveImpl client_handle (run_in Disconnect) d (MkPeer (bbRecv c) routingAddress (senderAddress c) (Some c)) with
  | Done _ q | Fail _ q => c ← demand (app q); put (set_received (Packets.bbRecv q) (Packets.senderAddress q) c)
  | Undef => undef
  end.

Fixpoint recv_loop (fuel : nat) : M (UvUdpClient B) unit :=
  match fuel with
  | O => undef
  | S fuel => fun c =>
      match on_kcp (Kcp4.ikcp_recv 65536) c with
      | Fail _ c => Done tt c
      | Done (n, d) c => if n <=? 0 then Done tt c else (_ ← receive d; recv_loop fuel) c
      | Undef => Undef
      end
  end.

Definition Update (current : Z) : M (UvUdpClient B) unit :=
  c ← get;
  if current <? nextUpdateTicks c then mret tt
  else
    _ ← on_kcp (Kcp4.ikcp_update current);
    c ← get;
    k ← demand (kcpPtr c);
    _ ← modify (set_nextUpdateTicks (Kcp4.ikcp_check current k));
    recv_loop (S (length (rcv_queue k) + length (rcv_buf k))).

Definition GetSendQueueSize : M (UvUdpClient B) Z :=
  c ← get; k ← demand (kcpPtr c); mret (Kcp4.ikcp_waitsnd k).
End client.

(** ** Indices *)

(** Every object knows where it is. *)
Definition indexed (r : Registry) : Prop :=
  (forall (i : nat) id, objects r !! i = Some id -> index_at_container r !! id = Some (Z.of_nat i)) /\
  (forall id, is_Some (index_at_container r !! id) -> id ∈ objects r).

Lemma enter_indexed r id : indexed r -> id ∉ objects r ->
  exists r', enter id r = Done tt r' /\ indexed r' /\ objects r' = objects r ++ [id].
Proof.
  intros [H1 H2] Hid. eexists. split; [reflexivity|]. split; [|done]. split; cbn.
  - intros i x Hx. apply lookup_app_Some in Hx as [Hx|[Hl Hx]].
    + rewrite lookup_insert_ne; [by apply H1|]. intros <-. apply Hid. by eapply list_elem_of_lookup_2.
    + apply list_lookup_singleton_Some in Hx as [Hi <-]. rewrite lookup_insert_eq. f_equal. unfold zlen. lia.
  - intros x Hx. apply elem_of_app. destruct (decide (id = x)) as [<-|Hne]; [right; by left|].
    rewrite lookup_insert_ne in Hx by done. left. by apply H2.
Qed.

(** Taking out by exchange: the others keep their places, the last one gets
    that of the one that goes. *)
Theorem leave_swap_indexed r id : indexed r -> id ∈ objects r ->
  exists r', leave_swap id r = Done tt r' /\ indexed r' /\ forall x, x ∈ objects r' <-> x ∈ objects r /\ x <> id.
Proof.
  intros [H1 H2] [i Hi]%list_elem_of_lookup_1. pose proof (lookup_lt_Some _ _ _ Hi) as Hlt.
  destruct (lookup_lt_is_Some_2 (objects r) (length (objects r) - 1)) as [l Hl]; [lia|].
  assert (Hinj : forall j k x, objects r !! j = Some x -> objects r !! k = Some x -> j = k).
  { intros j k x Hj Hk. apply H1 in Hj, Hk. rewrite Hj in Hk. injection Hk. lia. }
  set (r' := MkRegistry (take (length (objects r) - 1) (<[i := l]> (objects r))) (delete id (<[l := Z.of_nat i]> (index_at_container r)))).
  assert (Hr : forall j x, objects r' !! j = Some x <-> (j < length (objects r) - 1)%nat /\ (j = i /\ x = l \/ j <> i /\ objects r !! j = Some x)).
  { intros j x. cbn. rewrite lookup_take_Some, list_lookup_insert_Some. intuition (subst; auto). }
  assert (Hnot : forall j x, objects r' !! j = Some x -> x <> id).
  { intros j x [Hj [[-> ->]|[Hne Hx]]]%Hr ->; [|apply Hne; by eapply Hinj]. pose proof (Hinj _ _ _ Hi Hl). lia. }
  exists r'. split; [|split; [split|]].
  - unfold leave_swap, index_of. rewrite bind_assoc, bind_get, (H1 i id Hi). cbn [demand]. rewrite bind_mret, bind_get. unfold object.
    rewrite bind_assoc, bind_get. assert (znth (objects r) (zlen (objects r) - 1) = Some l) as ->.
    { unfold znth, zlen. destruct (Z.ltb_spec (Z.of_nat (length (objects r)) - 1) 0); [lia|]. rewrite <-Hl. f_equal. lia. }
    cbn [demand]. rewrite bind_mret, Nat2Z.id. done.
  - intros j x Hx. pose proof (Hnot j x Hx) as Hne. apply Hr in Hx as [Hj [[-> ->]|[Hji Hx]]]; cbn; rewrite lookup_delete_ne by done; [apply lookup_insert_eq|].
    rewrite lookup_insert_ne; [by apply H1|]. intros ->. pose proof (Hinj _ _ _ Hx Hl). lia.
  - intros x [z Hx]. cbn in Hx. apply lookup_delete_Some in Hx as [Hne Hx]. apply lookup_insert_Some in Hx as [[<- _]|[Hxl Hx]].
    + apply (list_elem_of_lookup_2 _ i). apply Hr. split; [|by left]. destruct (decide (i = length (objects r) - 1)%nat) as [E|]; [|lia].
      rewrite <-E, Hi in Hl. congruence.
    + destruct (list_elem_of_lookup_1 _ _ (H2 x (ex_intro _ z Hx))) as [j Hj]. apply (list_elem_of_lookup_2 _ j). apply Hr. pose proof (lookup_lt_Some _ _ _ Hj). split.
      * destruct (decide (j = length (objects r) - 1)%nat) as [->|]; [|lia]. congruence.
      * right. split; [|done]. intros ->. congruence.
  - intros x. split.
    + intros [j Hj]%list_elem_of_lookup_1. split; [|by apply (Hnot j)]. apply Hr in Hj as [_ [[-> ->]|[_ Hj]]]; by eapply list_elem_of_lookup_2.
    + intros [[j Hj]%list_elem_of_lookup_1 Hne]. pose proof (lookup_lt_Some _ _ _ Hj). destruct (decide (j = length (objects r) - 1)%nat) as [->|Hjl].
      * apply (list_elem_of_lookup_2 _ i). apply Hr. assert (x = l) as -> by congruence. split; [|by left].
        destruct (decide (i = length (objects r) - 1)%nat) as [E|]; [|lia]. rewrite <-E in Hl. congruence.
      * apply (list_elem_of_lookup_2 _ j). apply Hr. split; [lia|]. right. split; [|done]. intros ->. congruence.
Qed.

Fixpoint enter_all (ids : list Z) : M Registry unit :=
  match ids with [] => mret tt | id :: ids => _ ← enter id; enter_all ids end.

(** UDP clients: after the first of three has gone, the index of the third is
    outside the list, and that of the second is the third. *)
Theorem client_indices_stale :
  (_ ← enter_all [10; 20; 30]; _ ← leave_shift 10; leave_shift 30) (MkRegistry [] ∅) = Undef /\
  exists r, (_ ← enter_all [10; 20; 30]; _ ← leave_shift 10; leave_shift 20) (MkRegistry [] ∅) = Done tt r /\ objects r = [20].
Proof. split; [by vm_compute|]. eexists. split; vm_compute; reflexivity. Qed.

(** ** Clients *)

(** The timer of the loop updates every client, also one that is not connected. *)
Theorem unconnected_update_undefined {B : Type} malloc routingAddress OnReceive (c : UvUdpClient B) (now : Z) :
  kcpPtr c = None -> nextUpdateTicks c <= now -> Update malloc routingAddress OnReceive now c = Undef.
Proof.
  intros Hk Hn. unfold Update. rewrite bind_get. destruct (Z.ltb_spec now (nextUpdateTicks c)); [lia|].
  apply bind_undef. unfold on_kcp. rewrite bind_get. by rewrite Hk.
Qed.

(** The connection does not get [minrto]; the handle is written to. *)
Theorem connect_minrto {B : Type} malloc kcpInterval found uv_init uv_start g sndwnd rcvwnd nodelay resend nc minrto (c c' : UvUdpClient B) :
  Connect malloc kcpInterval found uv_init uv_start g sndwnd rcvwnd nodelay resend nc minrto c = Done 0 c' -> 0 < nodelay ->
  overwritten c' = Some minrto /\ exists k, kcpPtr c' = Some k /\ conv k = g /\ rx_minrto k = IKCP_RTO_NDL.
Proof.
  unfold Connect. rewrite bind_get. destruct (_ =? 0); [done|]. destruct (ptr c); [done|]. destruct (negb found); [done|].
  destruct (Z.eqb_spec uv_init 0) as [->|Hi]; cbn [negb]; [|by intros [= E]]. destruct (Z.eqb_spec uv_start 0) as [->|Hs]; cbn [negb]; [|by intros [= E]].
  unfold Kcp4.ikcp_create, KcpOps.ikcp_create. destruct (malloc _); [|done]. destruct (malloc _); [|done]. intros E Hn. injection E as <-. split; [done|].
  eexists. split; [done|]. unfold Kcp4.ikcp_setoutput, Kcp4.ikcp_nodelay, KcpOps.ikcp_setoutput, KcpOps.ikcp_nodelay, Kcp4.ikcp_wndsize, KcpOps.ikcp_wndsize.
  destruct (Z.leb_spec 0 nodelay); [|lia]. destruct (Z.eqb_spec nodelay 0); [lia|].
  destruct (0 <? sndwnd), (0 <? rcvwnd), (0 <=? i32 kcpInterval), (0 <=? resend), (0 <=? nc); done.
Qed.

(** ** Example: a server that sends one message *)

Module ClientDemo.
Definition alloc (n : Z) : bool := true.
Definition g : Guid := MkGuid 1 0.

(** The datagrams for a message. *)
Definition datagrams (msg : bytes) : list bytes :=
  match Kcp4.ikcp_create alloc g with
  | None => []
  | Some k =>
      match Kcp4.ikcp_send alloc msg (Kcp4.ikcp_setoutput (Kcp4.ikcp_nodelay 1 10 2 1 k)) with
      | Done _ k => match Kcp4.ikcp_update 0 k with Done _ k => sent k | _ => [] end
      | _ => []
      end
  end.

(** The client notes what it gets; [l] is what it does. *)
Definition note (l : list client_action) (d : delivery) (sender : bytes) (b : list bytes) : Bytes.BBuffer * list bytes * list client_action :=
  match d with
  | Package rb => (rb, b ++ [omap id (take (Z.to_nat (readLengthLimit rb - offset rb)) (drop (Z.to_nat (offset rb)) (cells rb)))], l)
  | Request _ rb | Response _ rb | Routing rb _ _ _ => (rb, b, l)
  end.

Fixpoint receive_each (ds : list bytes) : M (UvUdpClient (list bytes)) unit :=
  match ds with [] => mret tt | d :: ds => _ ← OnReceiveImpl alloc d; receive_each ds end.

(** Connect, get a message, and one tick of the timer. *)
Definition session (l : list client_action) (msg : bytes) : M (UvUdpClient (list bytes)) unit :=
  _ ← modify (SetAddress 1001);
  _ ← Connect alloc 10 true 0 0 g 128 128 1 2 1 100;
  _ ← receive_each (datagrams msg);
  Update alloc [] (note l) 10.
End ClientDemo.

(** A message with one package arrives, and is acknowledged. *)
Example client_receives : exists c, ClientDemo.session [] [0; 2; 0; 7; 8] (new_client []) = Done tt c /\ user c = [[7; 8]] /\ length (wire c) = 1%nat.
Proof. eexists. split; [vm_compute; reflexivity|]. split; vm_compute; reflexivity. Qed.

(** [Disconnected()] is true of a connected client, so [ReceiveImpl] throws away
    what follows the first package of a message. *)
Theorem client_drops_rest : exists c, ClientDemo.session [] [0; 2; 0; 7; 8; 0; 1; 0; 9] (new_client []) = Done tt c /\ user c = [[7; 8]] /\ dataLen (bbRecv c) = 0.
Proof. eexists. split; [vm_compute; reflexivity|]. split; vm_compute; reflexivity. Qed.

(** It is false of a client that has disconnected in an event function: the
    other packages are delivered, and [ikcp_recv] is called on a null pointer. *)
Theorem client_disconnect_undefined : ClientDemo.session [CDisconnect] [0; 2; 0; 7; 8] (new_client []) = Undef.
Proof. by vm_compute. Qed.
