(* ===== verification/HttpUrl.v ===== *)
(** * xx_uv.cpp of test_uv_4: the address of an HTTP request

    [ParseUrl] decodes the escapes of [url] into [urlDecoded] and cuts that text
    in place: it writes a zero over each delimiter, and [path], [fragment] and
    the pairs of [queries] are pointers into it, here indices. *)

From Stdlib Require Import ZArith Lia.
From stdpp Require Import base numbers list sets.
From S2P Require Import Prelude.
Open Scope Z_scope.

(** ** Decoding *)

Definition FromHex (c : Z) : Z :=
  if (65 <=? c) && (c <=? 90) then u8 (c - 65 + 10)
  else if (97 <=? c) && (c <=? 122) then u8 (c - 97 + 10)
  else if (48 <=? c) && (c <=? 57) then u8 (c - 48)
  else 0.

(** From [src[i]] on; the text that is appended to [dst].  [src[++i]] asserts
    that the index is in the string. *)
Fixpoint UrlDecode (src : bytes) : option bytes :=
  match src with
  | [] => Some []
  | c :: src =>
      if c =? 43 then cons 32 <$> UrlDecode src
      else if c =? 37 then
        match src with
        | high :: low :: src => cons (u8 (FromHex high * 16 + FromHex low)) <$> UrlDecode src
        | _ => None
        end
      else cons c <$> UrlDecode src
  end.

(** ** The text and the pointers into it *)

Record HttpUrl := MkHttpUrl {
  urlDecoded : bytes;  (* with the zero of [c_str] *)
  path : option Z;
  queries : list (Z * option Z);
  fragment : option Z
}.

Definition set_text (t : bytes) (h : HttpUrl) := MkHttpUrl t (path h) (queries h) (fragment h).
Definition set_queries (l : list (Z * option Z)) (h : HttpUrl) := MkHttpUrl (urlDecoded h) (path h) l (fragment h).

(** The first [c] before the terminator; [None]: the text ends without one. *)
Fixpoint chr_from (c i : Z) (l : bytes) : option (option Z) :=
  match l with
  | [] => None
  | x :: l => if x =? c then Some (Some i) else if x =? 0 then Some None else chr_from c (i + 1) l
  end.

Definition strchr (s c : Z) : M HttpUrl (option Z) :=
  h ← get; demand (chr_from c s (drop (Z.to_nat s) (urlDecoded h))).

(** [*p = '\0';] *)
Definition terminate (p : Z) : M HttpUrl unit :=
  h ← get;
  _ ← assert_ ((0 <=? p) && (p <? zlen (urlDecoded h)));
  put (set_text (<[Z.to_nat p := 0]> (urlDecoded h)) h).

Definition FindAndTerminate (s c : Z) : M HttpUrl (option Z) :=
  r ← strchr s c;
  match r with
  | None => mret None
  | Some p => _ ← terminate p; mret (Some (p + 1))
  end.

(** [if (second = strchr(first, '=')) *second++ = '\0';] *)
Definition split_value (first : Z) : M HttpUrl (option Z) := FindAndTerminate first 61.

(** The loop over the pairs: [first] is that of the last pair so far, and [q],
    where the next [strchr] begins, is the same pointer. *)
Fixpoint query_loop (fuel : nat) (first : Z) : M HttpUrl unit :=
  match fuel with
  | O => undef
  | S fuel =>
      r ← strchr first 38;
      match r with
      | None =>
          second ← split_value first;
          modify (fun h => set_queries (queries h ++ [(first, second)]) h)
      | Some q =>
          _ ← terminate q;
          second ← split_value first;
          _ ← modify (fun h => set_queries (queries h ++ [(first, second)]) h);
          query_loop fuel (q + 1)
      end
  end.

(** [urlDecoded] is empty before, as [on_message_begin] leaves it. *)
Definition ParseUrl (url : bytes) : M HttpUrl unit :=
  u ← demand (UrlDecode url);
  _ ← modify (fun h => set_text (urlDecoded h ++ u ++ [0]) h);
  fragment ← FindAndTerminate 0 35;
  q ← FindAndTerminate 0 63;
  path ← FindAndTerminate 0 47;
  _ ← modify (fun h => MkHttpUrl (urlDecoded h) path [] fragment);
  match q with
  | None => mret tt
  | Some q =>
      h ← get;
      c ← demand (znth (urlDecoded h) q);
      if c =? 0 then mret tt else query_loop (length (urlDecoded h)) q
  end.

Definition no_url : HttpUrl := MkHttpUrl [] None [] None.

(** ** Reference: cutting a text *)

(** What is before the first [c], and what is behind it. *)
Fixpoint cut (c : Z) (l : bytes) : bytes * option bytes :=
  match l with
  | [] => ([], None)
  | x :: l => if x =? c then ([], Some l) else let '(a, b) := cut c l in (x :: a, b)
  end.

Fixpoint split (c : Z) (l : bytes) : list bytes :=
  match l with
  | [] => [[]]
  | x :: l => if x =? c then [] :: split c l else match split c l with p :: ps => (x :: p) :: ps | [] => [] end
  end.

(** The string at [p]. *)
Definition reads (t : bytes) (p : Z) (s : bytes) : Prop := exists a b, t = a ++ s ++ 0 :: b /\ zlen a = p /\ 0 ∉ s.
Definition reads_option (t : bytes) (p : option Z) (s : option bytes) : Prop :=
  match p, s with Some p, Some s => reads t p s | None, None => True | _, _ => False end.
Definition reads_pair (t : bytes) (p : Z * option Z) (s : bytes * option bytes) : Prop := reads t p.1 s.1 /\ reads_option t p.2 s.2.

(** Fragment, query and path of a decoded text. *)
Definition fragment_of (u : bytes) : option bytes := (cut 35 u).2.
Definition query_of (u : bytes) : option bytes := (cut 63 (cut 35 u).1).2.
Definition path_of (u : bytes) : option bytes := (cut 47 (cut 63 (cut 35 u).1).1).2.
Definition pairs_of (u : bytes) : list (bytes * option bytes) :=
  match query_of u with
  | None | Some [] => []
  | Some q => cut 61 <$> split 38 q
  end.

(** ** Lemmas *)

Lemma cut_spec c l : match cut c l with
  | (a, None) => l = a /\ c ∉ l
  | (a, Some b) => l = a ++ c :: b /\ c ∉ a
  end.
Proof.
  induction l as [|x l IH]; cbn; [split; [done|set_solver]|]. destruct (Z.eqb_spec x c) as [->|Hne]; [split; [done|set_solver]|].
  destruct (cut c l) as [a [b|]]; destruct IH as [-> H]; (split; [done|set_solver]).
Qed.

Lemma cut_app c a b : c ∉ a -> cut c (a ++ c :: b) = (a, Some b).
Proof.
  induction a as [|x a IH]; cbn; intros H; [by rewrite Z.eqb_refl|]. destruct (Z.eqb_spec x c) as [->|]; [set_solver|]. rewrite IH; [done|set_solver].
Qed.

Lemma cut_none c a : c ∉ a -> cut c a = (a, None).
Proof. induction a as [|x a IH]; cbn; intros H; [done|]. destruct (Z.eqb_spec x c) as [->|]; [set_solver|]. rewrite IH; [done|set_solver]. Qed.

Lemma split_cut c l : split c l = match cut c l with (a, None) => [a] | (a, Some b) => a :: split c b end.
Proof.
  induction l as [|x l IH]; cbn; [done|]. destruct (x =? c); [done|]. rewrite IH. by destruct (cut c l) as [a [b|]].
Qed.

Lemma chr_from_cut c l post i : 0 ∉ l -> c <> 0 ->
  chr_from c i (l ++ 0 :: post) = Some (match cut c l with (a, None) => None | (a, Some _) => Some (i + zlen a) end).
Proof.
  revert i. induction l as [|x l IH]; intros i H0 Hc; cbn [chr_from app cut].
  - destruct (Z.eqb_spec 0 c); [lia|done].
  - destruct (x =? c); [by rewrite zlen_nil, Z.add_0_r|]. destruct (Z.eqb_spec x 0) as [->|]; [set_solver|]. rewrite IH by (done || set_solver).
    destruct (cut c l) as [a [b|]]; [|done]. rewrite zlen_cons. do 2 f_equal. lia.
Qed.

Lemma FindAndTerminate_spec h pre seg post c : urlDecoded h = pre ++ seg ++ 0 :: post -> 0 ∉ seg -> c <> 0 ->
  FindAndTerminate (zlen pre) c h = match cut c seg with
    | (_, None) => Done None h
    | (a, Some b) => Done (Some (zlen pre + zlen a + 1)) (set_text (pre ++ a ++ 0 :: b ++ 0 :: post) h)
    end.
Proof.
  intros Ht H0 Hc. unfold FindAndTerminate, strchr. rewrite bind_assoc, bind_get, Ht. replace (Z.to_nat (zlen pre)) with (length pre) by (unfold zlen; lia).
  rewrite drop_app_length, chr_from_cut by done. cbn [demand]. rewrite bind_mret. pose proof (cut_spec c seg) as Hs.
  destruct (cut c seg) as [a [b|]]; [|done]. destruct Hs as [-> _]. unfold terminate. rewrite bind_assoc, bind_get, Ht.
  pose proof (zlen_nonneg pre). pose proof (zlen_nonneg a). rewrite !zlen_app, zlen_cons.
  destruct (Z.leb_spec 0 (zlen pre + zlen a)); [|lia]. pose proof (zlen_nonneg b). pose proof (zlen_nonneg (0 :: post)).
  destruct (Z.ltb_spec (zlen pre + zlen a) (zlen pre + (zlen a + (1 + zlen b) + zlen (0 :: post)))); [|lia].
  cbn [andb assert_]. rewrite bind_assoc, bind_mret. unfold mbind, M_bind, put, mret, M_ret. do 3 f_equal.
  replace (Z.to_nat (zlen pre + zlen a)) with (length pre + length a)%nat by (unfold zlen; lia).
  rewrite insert_app_r, <-app_assoc, insert_app_r_alt by lia. by rewrite Nat.sub_diag.
Qed.

Lemma reads_at a s b : 0 ∉ s -> reads (a ++ s ++ 0 :: b) (zlen a) s.
Proof. intros H. by exists a, b. Qed.

Lemma reads_option_cut pre x : 0 ∉ x ->
  match cut 61 x with
  | (a, None) => x = a /\ forall post, reads_pair (pre ++ x ++ 0 :: post) (zlen pre, None) (x, None)
  | (a, Some b) => x = a ++ 61 :: b /\ forall post, reads_pair (pre ++ (a ++ 0 :: b) ++ 0 :: post) (zlen pre, Some (zlen pre + zlen a + 1)) (a, Some b)
  end.
Proof.
  intros H0. pose proof (cut_spec 61 x) as Hs. destruct (cut 61 x) as [a [b|]].
  - destruct Hs as [-> _]. split; [done|]. intros post. rewrite <-app_assoc. split; cbn [fst snd reads_option app].
    + apply reads_at. set_solver.
    + replace (zlen pre + zlen a + 1) with (zlen (pre ++ a ++ [0])) by (unfold zlen; rewrite !length_app; cbn; lia).
      replace (pre ++ a ++ 0 :: b ++ 0 :: post) with ((pre ++ a ++ [0]) ++ b ++ 0 :: post) by (by rewrite <-!app_assoc). apply reads_at. set_solver.
  - destruct Hs as [-> _]. split; [done|]. intros post. split; [by apply reads_at|done].
Qed.

(** The text of a pair, after its [=] has been overwritten. *)
Lemma split_value_spec h pre x post : urlDecoded h = pre ++ x ++ 0 :: post -> 0 ∉ x ->
  exists x' o, split_value (zlen pre) h = Done o (set_text (pre ++ x' ++ 0 :: post) h) /\ length x' = length x /\
    forall post', reads_pair (pre ++ x' ++ 0 :: post') (zlen pre, o) (cut 61 x).
Proof.
  intros Ht H0. pose proof (FindAndTerminate_spec h pre x post 61 Ht H0 ltac:(done)) as E. pose proof (reads_option_cut pre x H0) as Hr.
  unfold split_value. destruct (cut 61 x) as [a [b|]]; destruct Hr as [-> Hr].
  - exists (a ++ 0 :: b), (Some (zlen pre + zlen a + 1)). rewrite E, <-app_assoc. split; [done|]. split; [by rewrite !length_app|]. apply Hr.
  - exists a, None. rewrite E. split; [|split; [done|apply Hr]]. f_equal. rewrite <-Ht. by destruct h.
Qed.

Lemma query_loop_spec fuel h pre cur post : urlDecoded h = pre ++ cur ++ 0 :: post -> 0 ∉ cur -> (length cur < fuel)%nat ->
  exists cur' qs, query_loop fuel (zlen pre) h = Done tt (MkHttpUrl (pre ++ cur' ++ 0 :: post) (path h) (queries h ++ qs) (fragment h)) /\
    length cur' = length cur /\ Forall2 (reads_pair (pre ++ cur' ++ 0 :: post)) qs (cut 61 <$> split 38 cur).
Proof.
  revert h pre cur. induction fuel as [|fuel IH]; intros h pre cur Ht H0 Hf; [lia|]. cbn [query_loop]. rewrite split_cut.
  assert (Es : strchr (zlen pre) 38 h = Done (match cut 38 cur with (a, None) => None | (a, Some _) => Some (zlen pre + zlen a) end) h).
  { unfold strchr. rewrite bind_get, Ht. replace (Z.to_nat (zlen pre)) with (length pre) by (unfold zlen; lia).
    by rewrite drop_app_length, chr_from_cut by done. }
  rewrite (bind_done _ _ _ _ _ Es). pose proof (cut_spec 38 cur) as Hs. pose proof (FindAndTerminate_spec h pre cur post 38 Ht H0 ltac:(done)) as Ef.
  unfold FindAndTerminate in Ef. rewrite (bind_done _ _ _ _ _ Es) in Ef. destruct (cut 38 cur) as [x [y|]].
  - destruct Hs as [-> _]. cbn beta iota in Ef |- *. apply bind_inv_done in Ef as ([] & h1 & E1 & Ef). unfold mret, M_ret in Ef. injection Ef as Eh. subst h1.
    rewrite (bind_done _ _ _ _ _ E1).
    destruct (split_value_spec (set_text (pre ++ x ++ 0 :: y ++ 0 :: post) h) pre x (y ++ 0 :: post) eq_refl) as (x' & o & Ev & Hlx & Hr); [set_solver|].
    rewrite (bind_done _ _ _ _ _ Ev), bind_modify. set (h2 := set_queries _ _).
    replace (zlen pre + zlen x + 1) with (zlen (pre ++ x' ++ [0])) by (unfold zlen; rewrite !length_app, Hlx; cbn; lia).
    destruct (IH h2 (pre ++ x' ++ [0]) y) as (y' & qs & El & Hly & Hq); [cbn; by rewrite <-!app_assoc|set_solver|rewrite length_app in Hf; cbn in Hf; lia|].
    assert (Et : (pre ++ x' ++ [0]) ++ y' ++ 0 :: post = pre ++ (x' ++ 0 :: y') ++ 0 :: post) by (by rewrite <-!app_assoc).
    exists (x' ++ 0 :: y'), ((zlen pre, o) :: qs). rewrite El, Et. split; [|split].
    + cbn [path queries fragment h2 set_queries set_text]. by rewrite <-(app_assoc (queries h)).
    + rewrite !length_app. cbn. lia.
    + rewrite Et in Hq. cbn [fmap list_fmap]. constructor; [|done]. rewrite <-app_assoc. apply Hr.
  - destruct (split_value_spec h pre cur post Ht H0) as (x' & o & Ev & Hlx & Hr). rewrite (bind_done _ _ _ _ _ Ev).
    exists x', [(zlen pre, o)]. split; [done|]. split; [done|]. destruct Hs as [-> _]. constructor; [apply Hr|constructor].
Qed.

(** Behind the cut: what follows the delimiter, and the rest. *)
Definition behind (o : option bytes) (post : bytes) : bytes := match o with Some b => b ++ 0 :: post | None => post end.

Lemma cut_step h seg post c : urlDecoded h = seg ++ 0 :: post -> 0 ∉ seg -> c <> 0 ->
  FindAndTerminate 0 c h = Done (match (cut c seg).2 with Some _ => Some (zlen (cut c seg).1 + 1) | None => None end)
    (set_text ((cut c seg).1 ++ 0 :: behind (cut c seg).2 post) h).
Proof.
  intros Ht H0 Hc. pose proof (FindAndTerminate_spec h [] seg post c Ht H0 Hc) as E. change (zlen []) with 0 in E. rewrite E.
  pose proof (cut_spec c seg) as Hs. destruct (cut c seg) as [a [b|]]; cbn [fst snd behind app]; [by rewrite Z.add_0_l|].
  destruct Hs as [-> _]. f_equal. rewrite <-Ht. by destruct h.
Qed.

Lemma cut_clean c l : 0 ∉ l -> (0 ∉ (cut c l).1) /\ match (cut c l).2 with Some b => 0 ∉ b | None => True end.
Proof. intros H0. pose proof (cut_spec c l) as Hs. destruct (cut c l) as [a [b|]]; destruct Hs as [-> _]; cbn; set_solver. Qed.

Lemma reads_behind a o post : match o with Some b => 0 ∉ b | None => True end ->
  reads_option (a ++ 0 :: behind o post) (match o with Some _ => Some (zlen a + 1) | None => None end) o.
Proof.
  intros Ho. destruct o as [b|]; [|done]. cbn. replace (zlen a + 1) with (zlen (a ++ [0])) by (unfold zlen; rewrite length_app; cbn; lia).
  replace (a ++ 0 :: b ++ 0 :: post) with ((a ++ [0]) ++ b ++ 0 :: post) by (by rewrite <-app_assoc). by apply reads_at.
Qed.

Lemma behind_app o (l : bytes) : behind o l = behind o [] ++ l.
Proof. destruct o as [b|]; [|done]. cbn. by rewrite <-app_assoc. Qed.

Lemma cut_length c l : zlen l = zlen (cut c l).1 + match (cut c l).2 with Some b => 1 + zlen b | None => 0 end.
Proof.
  pose proof (cut_spec c l) as Hs. destruct (cut c l) as [a [b|]]; destruct Hs as [-> _]; cbn [fst snd]; [|lia].
  unfold zlen. rewrite length_app. cbn [length]. lia.
Qed.

(** [ParseUrl] finds the parts of the decoded text. *)
Theorem url_parts (url u : bytes) : UrlDecode url = Some u -> 0 ∉ u ->
  exists t p qs f, ParseUrl url no_url = Done tt (MkHttpUrl t p qs f) /\
    reads_option t p (path_of u) /\ reads_option t f (fragment_of u) /\ Forall2 (reads_pair t) qs (pairs_of u).
Proof.
  intros Eu H0. unfold ParseUrl. rewrite Eu. cbn [demand]. rewrite bind_mret, bind_modify. cbn [urlDecoded no_url app].
  unfold path_of, fragment_of, pairs_of, query_of. set (h1 := set_text _ _).
  rewrite (bind_done _ _ _ _ _ (cut_step h1 u [] 35 eq_refl H0 ltac:(done))). destruct (cut_clean 35 u H0) as [Ha Hf].
  destruct (cut 35 u) as [a fo]. cbn [fst snd] in *. set (h2 := set_text _ h1).
  rewrite (bind_done _ _ _ _ _ (cut_step h2 a (behind fo []) 63 eq_refl Ha ltac:(done))). destruct (cut_clean 63 a Ha) as [Hb Hq].
  pose proof (cut_length 63 a) as La. destruct (cut 63 a) as [b qo]. cbn [fst snd] in *. set (h3 := set_text _ h2).
  rewrite (bind_done _ _ _ _ _ (cut_step h3 b (behind qo (behind fo [])) 47 eq_refl Hb ltac:(done))). destruct (cut_clean 47 b Hb) as [Hd Hp].
  pose proof (cut_length 47 b) as Lb. destruct (cut 47 b) as [d po]. cbn [fst snd] in *. set (h4 := set_text _ h3). rewrite bind_modify.
  assert (Hend : forall q', zlen q' = match qo with Some q => zlen q | None => 0 end ->
    let t := d ++ 0 :: behind po (match qo with Some _ => q' ++ 0 :: behind fo [] | None => behind fo [] end) in
    reads_option t (match po with Some _ => Some (zlen d + 1) | None => None end) po /\
    reads_option t (match fo with Some _ => Some (zlen a + 1) | None => None end) fo).
  { intros q' Hq'. cbv zeta. split; [by apply reads_behind|]. destruct qo as [q|].
    - replace (zlen a) with (zlen (d ++ 0 :: behind po q')).
      2: { rewrite La, Lb, zlen_app, zlen_cons. destruct po as [p|]; cbn [behind]; rewrite ?zlen_app, ?zlen_cons; lia. }
      replace (d ++ 0 :: behind po (q' ++ 0 :: behind fo [])) with ((d ++ 0 :: behind po q') ++ 0 :: behind fo []); [by apply reads_behind|].
      rewrite (behind_app po q'), (behind_app po (q' ++ _)), <-!app_assoc. cbn. by rewrite <-!app_assoc.
    - destruct po as [p|]; cbn [behind].
      + replace (zlen a) with (zlen (d ++ 0 :: p)) by (rewrite La, Lb, zlen_app, zlen_cons; lia).
        replace (d ++ 0 :: p ++ 0 :: behind fo []) with ((d ++ 0 :: p) ++ 0 :: behind fo []) by (by rewrite <-app_assoc). by apply reads_behind.
      + replace (zlen a) with (zlen d) by lia. by apply reads_behind. }
  destruct qo as [q|]; cbn [behind] in *.
  2: { eexists _, _, _, _. split; [reflexivity|]. split; [|split; [|constructor]]; by apply (Hend []). }
  rewrite bind_get. set (X := d ++ 0 :: behind po []).
  assert (Et : d ++ 0 :: behind po (q ++ 0 :: behind fo []) = X ++ q ++ 0 :: behind fo []) by (unfold X; rewrite (behind_app po (q ++ _)), <-app_assoc; done).
  assert (EX : zlen b + 1 = zlen X) by (unfold X; rewrite Lb, zlen_app, zlen_cons; destruct po as [p|]; cbn [behind]; rewrite ?zlen_app, ?zlen_cons, ?zlen_nil; change (zlen (@nil Z)) with 0; lia).
  rewrite EX. set (h5 := MkHttpUrl _ _ _ _). assert (E5 : urlDecoded h5 = X ++ q ++ 0 :: behind fo []) by exact Et. rewrite E5, znth_app_r, Z.sub_diag by lia.
  destruct q as [|x q].
  { change (znth ([] ++ 0 :: behind fo []) 0) with (Some 0). eexists _, _, _, _. split; [reflexivity|]. split; [|split; [|constructor]]; by apply (Hend []). }
  change (znth ((x :: q) ++ 0 :: behind fo []) 0) with (Some x). cbn [demand]. rewrite bind_mret. destruct (Z.eqb_spec x 0) as [->|Hx]; [set_solver|].
  destruct (query_loop_spec (length (X ++ (x :: q) ++ 0 :: behind fo [])) h5 X (x :: q) (behind fo []) E5 Hq) as (q' & qs & El & Hlq & Hqs).
  { rewrite !length_app. cbn. lia. }
  rewrite El. eexists _, _, _, _. split; [reflexivity|].
  assert (Et' : X ++ q' ++ 0 :: behind fo [] = d ++ 0 :: behind po (q' ++ 0 :: behind fo [])) by (unfold X; rewrite (behind_app po (q' ++ _)), <-app_assoc; done).
  rewrite Et' in *. destruct (Hend q') as [H1 H2]; [unfold zlen; by rewrite Hlq|]. split; [exact H1|]. split; [exact H2|exact Hqs].
Qed.

(** ** Escapes *)

Definition hex_digit (n : Z) : Z := if n <? 10 then 48 + n else 55 + n.

(** A byte as it is, or escaped; [keep] says which are left as they are. *)
Definition encode_byte (keep : Z -> bool) (c : Z) : bytes :=
  if keep c && negb (c =? 43) && negb (c =? 37) then [c] else [37; hex_digit (c / 16); hex_digit (c mod 16)].
Definition encode (keep : Z -> bool) (u : bytes) : bytes := concat (encode_byte keep <$> u).

(** A text that decodes to [u], whatever follows. *)
Definition decodes (x u : bytes) : Prop := forall rest, UrlDecode (x ++ rest) = app u <$> UrlDecode rest.

Lemma decodes_nil : decodes [] [].
Proof. intros rest. cbn. by destruct (UrlDecode rest). Qed.

Lemma decodes_app x u y v : decodes x u -> decodes y v -> decodes (x ++ y) (u ++ v).
Proof. intros Hx Hy rest. rewrite <-app_assoc, Hx, Hy. destruct (UrlDecode rest); cbn; [by rewrite app_assoc|done]. Qed.

Lemma decodes_plain c x u : c <> 43 -> c <> 37 -> decodes x u -> decodes (c :: x) (c :: u).
Proof.
  intros H1 H2 Hx rest. cbn [app UrlDecode]. destruct (Z.eqb_spec c 43); [done|]. destruct (Z.eqb_spec c 37); [done|]. rewrite Hx. by destruct (UrlDecode rest).
Qed.

Lemma FromHex_digit n : 0 <= n < 16 -> FromHex (hex_digit n) = n.
Proof.
  intros Hn. assert (H : Forall (fun n => FromHex (hex_digit n) = n) (seqZ 0 16)) by (vm_compute; repeat constructor).
  rewrite Forall_forall in H. apply H, elem_of_seqZ. lia.
Qed.

Lemma decodes_byte keep c : is_byte c -> decodes (encode_byte keep c) [c].
Proof.
  intros Hc. unfold encode_byte. destruct (keep c && _ && _) eqn:E.
  - rewrite !andb_true_iff, !negb_true_iff, !Z.eqb_neq in E. apply decodes_plain; [tauto|tauto|apply decodes_nil].
  - intros rest. cbn [app UrlDecode]. change (37 =? 43) with false. change (37 =? 37) with true. cbn iota.
    unfold is_byte, is_uint in Hc. rewrite !FromHex_digit.
    2: { apply Z.mod_pos_bound. lia. } 2: { split; [apply Z.div_pos; lia|apply Z.div_lt_upper_bound; lia]. }
    replace (c / 16 * 16 + c mod 16) with c by (pose proof (Z.div_mod c 16); lia). rewrite uint_small by (split; lia). by destruct (UrlDecode rest).
Qed.

Lemma decodes_encode keep u : Forall is_byte u -> decodes (encode keep u) u.
Proof.
  induction 1 as [|c u Hc _ IH]; [apply decodes_nil|]. change (encode keep (c :: u)) with (encode_byte keep c ++ encode keep u).
  change (c :: u) with ([c] ++ u). apply decodes_app; [by apply decodes_byte|done].
Qed.

(** ** Addresses *)

Definition join (c : Z) (ps : list bytes) : bytes := match ps with [] => [] | p :: ps => p ++ concat (cons c <$> ps) end.

(** A path, pairs and a fragment as a text; [e] is applied to every component. *)
Definition pair_text (e : bytes -> bytes) (q : bytes * bytes) : bytes := e q.1 ++ 61 :: e q.2.
Definition url_of (e : bytes -> bytes) (pth : bytes) (qs : list (bytes * bytes)) (frag : option bytes) : bytes :=
  47 :: e pth ++ (match qs with [] => [] | _ => 63 :: join 38 (pair_text e <$> qs) end) ++
  (match frag with None => [] | Some f => 35 :: e f end).

(** Bytes other than those of [l]. *)
Definition free (l : list Z) (x : bytes) : Prop := Forall (fun c => is_byte c /\ c ∉ l) x.

Lemma free_byte l x : free l x -> Forall is_byte x.
Proof. intros H. eapply Forall_impl; [exact H|by intros ? [? _]]. Qed.
Lemma free_not l x c : free l x -> c ∈ l -> c ∉ x.
Proof. unfold free. rewrite Forall_forall. intros H Hc Hx. by apply (H c Hx). Qed.

Lemma not_in_concat c d (ps : list bytes) : c <> d -> Forall (fun p => c ∉ p) ps -> c ∉ concat (cons d <$> ps).
Proof. intros Hd. induction 1 as [|p ps Hp _ IH]; cbn; set_solver. Qed.

Lemma not_in_join c d ps : c <> d -> Forall (fun p => c ∉ p) ps -> c ∉ join d ps.
Proof. intros Hd H. destruct H as [|p ps Hp H]; cbn; [set_solver|]. pose proof (not_in_concat c d ps Hd H). set_solver. Qed.

Lemma split_join c ps : ps <> [] -> Forall (fun p => c ∉ p) ps -> split c (join c ps) = ps.
Proof.
  intros Hne H. destruct H as [|p ps Hp H]; [done|]. clear Hne. cbn [join]. revert p Hp. induction H as [|q ps Hq _ IH]; intros p Hp; cbn [fmap list_fmap concat].
  - rewrite app_nil_r, split_cut. by rewrite cut_none.
  - rewrite split_cut. change ((c :: q) ++ concat (cons c <$> ps)) with (c :: q ++ concat (cons c <$> ps)). rewrite cut_app by done. by rewrite IH.
Qed.

Lemma decodes_join ps us : Forall2 decodes ps us -> decodes (join 38 ps) (join 38 us).
Proof.
  destruct 1 as [|p u ps us Hp H]; [apply decodes_nil|]. cbn [join]. apply decodes_app; [done|].
  induction H as [|q v ps us Hq _ IH]; [apply decodes_nil|]. cbn [fmap list_fmap concat]. apply decodes_app; [by apply decodes_plain|done].
Qed.

(** A well-formed address: no component has a zero or a delimiter that would
    end it. *)
Definition well_formed (pth : bytes) (qs : list (bytes * bytes)) (frag : option bytes) : Prop :=
  free [0; 35; 63] pth /\ Forall (fun q => free [0; 35; 38; 61] q.1 /\ free [0; 35; 38] q.2) qs /\ match frag with Some f => free [0] f | None => True end.

Lemma url_decodes keep pth qs frag : well_formed pth qs frag -> UrlDecode (url_of (encode keep) pth qs frag) = Some (url_of id pth qs frag).
Proof.
  intros (Hp & Hq & Hf). assert (H : decodes (url_of (encode keep) pth qs frag) (url_of id pth qs frag)).
  { unfold url_of. apply decodes_plain; [done..|]. apply decodes_app; [by eapply decodes_encode, free_byte|]. apply decodes_app.
    - destruct qs as [|q0 qs0]; [apply decodes_nil|]. apply decodes_plain; [done..|]. apply decodes_join. apply Forall2_fmap_2, Forall_Forall2_diag.
      eapply Forall_impl; [exact Hq|]. intros [k v] [Hk Hv]. unfold pair_text. cbn [fst snd] in *. apply decodes_app; [by eapply decodes_encode, free_byte|].
      apply decodes_plain; [done..|]. by eapply decodes_encode, free_byte.
    - destruct frag as [f|]; [|apply decodes_nil]. apply decodes_plain; [done..|]. by eapply decodes_encode, free_byte. }
  specialize (H []). rewrite app_nil_r in H. rewrite H. cbn. by rewrite app_nil_r.
Qed.

(** What a byte must be for not to be in the query. *)
Lemma not_in_query c qs : c ∉ [63; 38; 61] -> Forall (fun q => (c ∉ q.1) /\ (c ∉ q.2)) qs ->
  c ∉ (match qs with [] => [] | _ => 63 :: join 38 (pair_text id <$> qs) end : bytes).
Proof.
  intros Hc Hq. destruct qs as [|q0 qs0]; [set_solver|]. intros [->|Hin]%elem_of_cons; [set_solver|]. revert Hin. apply not_in_join; [set_solver|].
  apply Forall_fmap. eapply Forall_impl; [exact Hq|]. intros [k v] [Hk Hv]. cbn in *. unfold pair_text. cbn. set_solver.
Qed.

Lemma url_of_parts pth qs frag : well_formed pth qs frag -> let u := url_of id pth qs frag in
  (0 ∉ u) /\ path_of u = Some pth /\ fragment_of u = frag /\ pairs_of u = (fun q => (q.1, Some q.2)) <$> qs.
Proof.
  intros (Hp & Hq & Hf). cbv zeta. set (Q := match qs with [] => [] | _ => 63 :: join 38 (pair_text id <$> qs) end : bytes).
  assert (HQ : forall c, c ∉ [63; 38; 61] -> c ∈ [0; 35] -> c ∉ Q).
  { intros c Hc Hin. apply not_in_query; [done|]. eapply Forall_impl; [exact Hq|]. intros [k v] [Hk Hv]. cbn in *.
    split; [eapply free_not; [exact Hk|]|eapply free_not; [exact Hv|]]; set_solver. }
  assert (Hp0 : forall c, c ∈ [0; 35; 63] -> c ∉ pth) by (intros c; by apply free_not).
  assert (Hcut : cut 35 (url_of id pth qs frag) = (47 :: pth ++ Q, frag)).
  { unfold url_of. fold Q. replace (47 :: id pth ++ Q ++ match frag with None => [] | Some f => 35 :: id f end)
      with ((47 :: pth ++ Q) ++ match frag with None => [] | Some f => 35 :: f end) by (cbn; by rewrite <-app_assoc).
    assert (Hn : 35 ∉ (47 :: pth ++ Q)) by (pose proof (HQ 35 ltac:(set_solver) ltac:(set_solver)); pose proof (Hp0 35 ltac:(set_solver)); set_solver).
    destruct frag as [f|]; [by apply cut_app|]. rewrite app_nil_r. by apply cut_none. }
  assert (Hcut2 : cut 63 (47 :: pth ++ Q) = (47 :: pth, match qs with [] => None | _ => Some (join 38 (pair_text id <$> qs)) end)).
  { assert (Hn : 63 ∉ (47 :: pth)) by (pose proof (Hp0 63 ltac:(set_solver)); set_solver). unfold Q. destruct qs as [|q0 qs0].
    - rewrite app_nil_r. by apply cut_none.
    - by apply (cut_app 63 (47 :: pth)). }
  split; [|split; [|split]].
  - unfold url_of. fold Q. pose proof (HQ 0 ltac:(set_solver) ltac:(set_solver)). pose proof (Hp0 0 ltac:(set_solver)).
    destruct frag as [f|]; [pose proof (free_not [0] f 0 Hf ltac:(set_solver))|]; unfold id; set_solver.
  - unfold path_of. rewrite Hcut. cbn [fst]. rewrite Hcut2. cbn [fst cut]. by rewrite Z.eqb_refl.
  - unfold fragment_of. by rewrite Hcut.
  - unfold pairs_of, query_of. rewrite Hcut. cbn [fst]. rewrite Hcut2. cbn [snd]. destruct qs as [|[k0 v0] qs0]; [done|].
    set (T := join 38 _). assert (HT : T <> []) by (unfold T, pair_text; cbn; by destruct k0).
    assert (Es : split 38 T = pair_text id <$> ((k0, v0) :: qs0)).
    { unfold T. apply split_join; [done|]. apply Forall_fmap. eapply Forall_impl; [exact Hq|]. intros [k v] [Hk Hv]. cbn in *. unfold pair_text. cbn.
      pose proof (free_not _ _ 38 Hk ltac:(set_solver)). pose proof (free_not _ _ 38 Hv ltac:(set_solver)). unfold id. set_solver. }
    rewrite Es. destruct T; [done|]. rewrite <-list_fmap_compose. apply list_fmap_ext. intros i [k v] Hi. apply (Forall_lookup_1 _ _ _ _ Hq) in Hi as [Hk Hv].
    cbn [fst snd compose] in *. unfold pair_text, compose. cbn [fst snd id]. apply cut_app. eapply free_not; [exact Hk|set_solver].
Qed.

(** C20. An address that is put together from a path, pairs of names and values
    and a fragment, each with any of its bytes escaped, is taken apart again by
    [ParseUrl]: [path], [queries] and [fragment] point to the components, ended
    by zeros, as long as no component holds a zero byte or a delimiter that ends
    it, be it escaped or not. *)
Theorem url_round_trip (keep : Z -> bool) (pth : bytes) (qs : list (bytes * bytes)) (frag : option bytes) :
  well_formed pth qs frag ->
  exists t p ps f, ParseUrl (url_of (encode keep) pth qs frag) no_url = Done tt (MkHttpUrl t p ps f) /\
    reads_option t p (Some pth) /\ Forall2 (reads_pair t) ps ((fun q => (q.1, Some q.2)) <$> qs) /\ reads_option t f frag.
Proof.
  intros H. destruct (url_of_parts pth qs frag H) as (H0 & E1 & E2 & E3).
  destruct (url_parts _ _ (url_decodes keep pth qs frag H) H0) as (t & p & ps & f & E & Hp & Hf & Hq). exists t, p, ps, f.
  split; [exact E|]. rewrite E1 in Hp. rewrite E2 in Hf. rewrite E3 in Hq. by split; [|split].
Qed.

(** [/a?k=v%20&n=#x], with the letters left as they are. *)
Lemma url_round_trip_witness : exists t p ps f,
  ParseUrl [47; 97; 63; 107; 61; 118; 37; 50; 48; 38; 110; 61; 35; 120] no_url = Done tt (MkHttpUrl t p ps f) /\
  reads_option t p (Some [97]) /\ Forall2 (reads_pair t) ps [([107], Some [118; 32]); ([110], Some [])] /\ reads_option t f (Some [120]).
Proof.
  apply (url_round_trip (fun c => 96 <? c) [97] [([107], [118; 32]); ([110], [])] (Some [120])).
  unfold well_formed, free, is_byte, is_uint. repeat (split || constructor); cbn; try lia; set_solver.
Defined.

(** Escapes are decoded before the text is cut: an escaped [&] in a value ends
    it.  [?a=1%262] has two pairs. *)
Theorem escaped_delimiter_cuts : exists t p ps f,
  ParseUrl [47; 63; 97; 61; 49; 37; 50; 54; 50] no_url = Done tt (MkHttpUrl t p ps f) /\ Forall2 (reads_pair t) ps [([97], Some [49]); ([50], None)].
Proof.
  destruct (url_parts [47; 63; 97; 61; 49; 37; 50; 54; 50] [47; 63; 97; 61; 49; 38; 50] eq_refl ltac:(set_solver)) as (t & p & ps & f & E & _ & _ & Hq).
  by exists t, p, ps, f.
Qed.

(** An escape that is cut off by the end of the address fails the assertion of
    [operator[]]; letters behind F count on, so that [%ZZ] is a byte too. *)
Theorem short_escape_undefined : ParseUrl [47; 37; 52] no_url = Undef.
Proof. done. Qed.
Theorem letters_behind_F : UrlDecode [37; 90; 90] = Some [u8 (35 * 16 + 35)].
Proof. done. Qed.
