(* ===== verification/Http.v ===== *)
(** * xx_uv.cpp of test_uv_4: HTTP requests

    [http_parser] calls the functions of its settings as it goes through the
    bytes of a connection; [UvHttpPeer] puts the pieces of a request together
    in them, the headers in a [Dict] of strings.  The value of a header is
    appended to through a pointer into the table, here the index of the
    element.  [UvHttpClient] does the same with the pieces of a response. *)

From Stdlib Require Import ZArith Lia.
From stdpp Require Import base numbers list gmap.
From S2P Require Import Prelude Util HashUtils Charsutils Dict.
Open Scope Z_scope.

(** [HashFunc<String>] of xx_string.hpp. *)
#[export] Instance hash_String : HashFunc bytes := fun s => if zlen s =? 0 then 0 else hash_buf s.

(** A request as [OnReceiveHttp] finds it. *)
Record HttpPeer := MkHttpPeer {
  method : bytes;
  headers : Dict bytes bytes;
  keepAlive : bool;
  body : bytes;
  url : bytes;
  urlDecoded : bytes;
  status : bytes;
  lastKey : bytes;
  lastValue : option Z;
  s : bytes
}.

(** The state of a connection: the request in the making, and those that
    [OnReceiveHttp] was called for. *)
Record Http := MkHttp { self : HttpPeer; served : list HttpPeer }.

Definition update (f : HttpPeer -> HttpPeer) : M Http unit := modify (fun h => MkHttp (f (self h)) (served h)).

Definition with_headers (d : Dict bytes bytes) (p : HttpPeer) :=
  MkHttpPeer (method p) d (keepAlive p) (body p) (url p) (urlDecoded p) (status p) (lastKey p) (lastValue p) (s p).
Definition with_last (k : bytes) (v : option Z) (p : HttpPeer) :=
  MkHttpPeer (method p) (headers p) (keepAlive p) (body p) (url p) (urlDecoded p) (status p) k v (s p).

Definition on_headers {A} (m : M (Dict bytes bytes) A) : M Http A := fun h =>
  match m (headers (self h)) with
  | Done a d => Done a (MkHttp (with_headers d (self h)) (served h))
  | Fail e d => Fail e (MkHttp (with_headers d (self h)) (served h))
  | Undef => Undef
  end.

(** [sizeof(Data)] of the table: two strings of 40 bytes and a link. *)
Definition headerSize : Z := 88.

Definition on_message_begin : M Http unit :=
  _ ← on_headers Clear;
  update (fun p => MkHttpPeer [] (headers p) false [] [] [] [] [] None []).

Definition on_url (buf : bytes) : M Http unit :=
  update (fun p => MkHttpPeer (method p) (headers p) (keepAlive p) (body p) (url p ++ buf) (urlDecoded p) (status p) (lastKey p) (lastValue p) (s p)).
Definition on_status (buf : bytes) : M Http unit :=
  update (fun p => MkHttpPeer (method p) (headers p) (keepAlive p) (body p) (url p) (urlDecoded p) (status p ++ buf) (lastKey p) (lastValue p) (s p)).
Definition on_body (buf : bytes) : M Http unit :=
  update (fun p => MkHttpPeer (method p) (headers p) (keepAlive p) (body p ++ buf) (url p) (urlDecoded p) (status p) (lastKey p) (lastValue p) (s p)).

Definition on_header_field (buf : bytes) : M Http unit :=
  update (fun p => with_last (lastKey p ++ buf) None p).

(** [lastValue->AddRange(buf, length)]. *)
Definition append_value (i : Z) (buf : bytes) : M (Dict bytes bytes) unit :=
  it ← item i;
  e ← demand (kv it);
  put_item i (MkData (Some (e.1, e.2 ++ buf)) (prev it)).

(** [Add] takes the string out of [lastKey] when it makes an element; when the
    key is there it leaves it. *)
Definition on_header_value (buf : bytes) : M Http unit :=
  h ← get;
  i ← (match lastValue (self h) with
       | Some i => mret i
       | None =>
           r ← on_headers (Add headerSize (lastKey (self h)) [] false);
           _ ← on_headers (ValueAt r.2);
           _ ← update (fun p => with_last (if r.1 : bool then [] else lastKey p) (Some r.2) p);
           mret r.2
       end);
  on_headers (append_value i buf).

(** [method] and [keepAlive] are what [http_method_str] and
    [http_should_keep_alive] return. *)
Definition on_headers_complete (m : bytes) (keep : bool) : M Http unit :=
  update (fun p => MkHttpPeer m (headers p) keep (body p) (url p) (urlDecoded p) (status p) (lastKey p) None (s p)).

(** [OnReceiveHttp] sees the request as it is. *)
Definition on_message_complete : M Http unit := modify (fun h => MkHttp (self h) (served h ++ [self h])).

(** The calls of [http_parser]. *)
Inductive http_event :=
| MessageBegin
| Url (buf : bytes)
| Status (buf : bytes)
| HeaderField (buf : bytes)
| HeaderValue (buf : bytes)
| HeadersComplete (m : bytes) (keep : bool)
| Body (buf : bytes)
| MessageComplete.

Definition on_event (e : http_event) : M Http unit :=
  match e with
  | MessageBegin => on_message_begin
  | Url buf => on_url buf
  | Status buf => on_status buf
  | HeaderField buf => on_header_field buf
  | HeaderValue buf => on_header_value buf
  | HeadersComplete m keep => on_headers_complete m keep
  | Body buf => on_body buf
  | MessageComplete => on_message_complete
  end.

Fixpoint on_events (es : list http_event) : M Http unit :=
  match es with
  | [] => mret tt
  | e :: es => _ ← on_event e; on_events es
  end.

Definition new_Http : option Http :=
  d ← new_Dict headerSize 16;
  Some (MkHttp (MkHttpPeer [] d false [] [] [] [] [] None []) []).

(** ** [SendHttpResponse] *)

Definition responsePartialHeader_text : bytes :=
  [72; 84; 84; 80; 47; 49; 46; 49; 32; 50; 48; 48; 32; 79; 75; 13; 10] ++
  [67; 111; 110; 116; 101; 110; 116; 45; 84; 121; 112; 101; 58; 32; 116; 101; 120; 116; 47; 112; 108; 97; 105; 110; 59;
   99; 104; 97; 114; 115; 101; 116; 61; 117; 116; 102; 45; 56; 13; 10] ++
  [67; 111; 110; 116; 101; 110; 116; 45; 76; 101; 110; 103; 116; 104; 58; 32].

(** What [SendBytes] is called with: [bbSend], and its length as an [int].
    The length of the body is put together in [lastKey]. *)
Definition SendHttpResponse (buf : bytes) : M Http (bytes * Z) :=
  _ ← update (fun p => with_last (StrFunc_unsigned 8 (zlen buf)) (lastValue p) p);
  h ← get;
  let bbSend := responsePartialHeader_text ++ lastKey (self h) ++ [13; 10; 13; 10] ++ buf in
  mret (bbSend, i32 (zlen bbSend)).

(** [SendHttpResponse()]: the text that was put together in [s]. *)
Definition SendHttpResponse_s : M Http (bytes * Z) := h ← get; SendHttpResponse (s (self h)).

(** ** [UvHttpClient] *)

Module Client.

Record HttpClient := MkHttpClient {
  headers : Dict bytes bytes;
  keepAlive : bool;
  body : bytes;
  url : bytes;
  status : bytes;
  lastKey : bytes;
  lastValue : option Z
}.

Record Http := MkHttp { self : HttpClient; served : list HttpClient }.

Definition update (f : HttpClient -> HttpClient) : M Http unit := modify (fun h => MkHttp (f (self h)) (served h)).
Definition with_headers (d : Dict bytes bytes) (p : HttpClient) :=
  MkHttpClient d (keepAlive p) (body p) (url p) (status p) (lastKey p) (lastValue p).
Definition with_last (k : bytes) (v : option Z) (p : HttpClient) :=
  MkHttpClient (headers p) (keepAlive p) (body p) (url p) (status p) k v.
Definition on_headers {A} (m : M (Dict bytes bytes) A) : M Http A := fun h =>
  match m (headers (self h)) with
  | Done a d => Done a (MkHttp (with_headers d (self h)) (served h))
  | Fail e d => Fail e (MkHttp (with_headers d (self h)) (served h))
  | Undef => Undef
  end.

Definition on_message_begin : M Http unit :=
  _ ← on_headers Clear;
  update (fun p => MkHttpClient (headers p) false [] [] [] [] None).
Definition on_url (buf : bytes) : M Http unit :=
  update (fun p => MkHttpClient (headers p) (keepAlive p) (body p) (url p ++ buf) (status p) (lastKey p) (lastValue p)).
Definition on_status (buf : bytes) : M Http unit :=
  update (fun p => MkHttpClient (headers p) (keepAlive p) (body p) (url p) (status p ++ buf) (lastKey p) (lastValue p)).
Definition on_body (buf : bytes) : M Http unit :=
  update (fun p => MkHttpClient (headers p) (keepAlive p) (body p ++ buf) (url p) (status p) (lastKey p) (lastValue p)).
Definition on_header_field (buf : bytes) : M Http unit :=
  update (fun p => with_last (lastKey p ++ buf) None p).
Definition on_header_value (buf : bytes) : M Http unit :=
  h ← get;
  i ← (match lastValue (self h) with
       | Some i => mret i
       | None =>
           r ← on_headers (Add headerSize (lastKey (self h)) [] false);
           _ ← on_headers (ValueAt r.2);
           _ ← update (fun p => with_last (if r.1 : bool then [] else lastKey p) (Some r.2) p);
           mret r.2
       end);
  on_headers (append_value i buf).
Definition on_headers_complete (keep : bool) : M Http unit :=
  update (fun p => MkHttpClient (headers p) keep (body p) (url p) (status p) (lastKey p) None).
Definition on_message_complete : M Http unit := modify (fun h => MkHttp (self h) (served h ++ [self h])).

Definition on_event (e : http_event) : M Http unit :=
  match e with
  | MessageBegin => on_message_begin
  | Url buf => on_url buf
  | Status buf => on_status buf
  | HeaderField buf => on_header_field buf
  | HeaderValue buf => on_header_value buf
  | HeadersComplete _ keep => on_headers_complete keep
  | Body buf => on_body buf
  | MessageComplete => on_message_complete
  end.

Fixpoint on_events (es : list http_event) : M Http unit :=
  match es with
  | [] => mret tt
  | e :: es => _ ← on_event e; on_events es
  end.

Definition new_Http : option Http :=
  d ← new_Dict headerSize 16;
  Some (MkHttp (MkHttpClient d false [] [] [] [] None) []).

End Client.
