(* ===== verification/HttpProps.v ===== *)
(** * Properties of the HTTP requests

    However [http_parser] cuts the bytes of a connection, [OnReceiveHttp] sees
    each message whole. *)

From Stdlib Require Import ZArith Lia.
From stdpp Require Import base numbers list gmap.
From S2P Require Import Prelude Util HashUtils Charsutils CharsutilsProps Dict DictMap DictOps DictTable Http.
Open Scope Z_scope.

(** ** Messages *)

(** A message, each text in the pieces it comes in. *)
Record message := Message {
  msg_url : list bytes;
  msg_status : list bytes;
  msg_headers : list (list bytes * list bytes);
  msg_method : bytes;
  msg_keep : bool;
  msg_body : list bytes
}.

Definition header_events (x : list bytes * list bytes) : list http_event := (HeaderField <$> x.1) ++ (HeaderValue <$> x.2).

Definition events_of (m : message) : list http_event :=
  MessageBegin :: (Url <$> msg_url m) ++ (Status <$> msg_status m) ++ (msg_headers m ≫= header_events) ++
  HeadersComplete (msg_method m) (msg_keep m) :: (Body <$> msg_body m) ++ [MessageComplete].

Definition header_of (x : list bytes * list bytes) : bytes * bytes := (concat x.1, concat x.2).

(** What becomes of the headers, one after the other: the name that is left over
    in [lastKey], and the map.  A name that comes again has its value put behind
    the first one, and stays in [lastKey], before the next name. *)
Fixpoint collect (pending : bytes) (m : gmap bytes bytes) (xs : list (list bytes * list bytes)) : gmap bytes bytes :=
  match xs with
  | [] => m
  | x :: xs =>
      let k := pending ++ (header_of x).1 in
      match m !! k with
      | None => collect [] (<[k := (header_of x).2]> m) xs
      | Some v => collect k (<[k := v ++ (header_of x).2]> m) xs
      end
  end.

(** Each header has at least one piece of name and one of value, and there are
    not so many that the size of the table overflows. *)
Definition fair_header (x : list bytes * list bytes) : Prop := x.1 <> [] /\ x.2 <> [].
Definition fair (m : message) : Prop := Forall fair_header (msg_headers m) /\ zlen (msg_headers m) * 2 * headerSize < 2 ^ 31.

Definition seen (m : message) (p : HttpPeer) : Prop :=
  url p = concat (msg_url m) /\ status p = concat (msg_status m) /\ body p = concat (msg_body m) /\
  method p = msg_method m /\ keepAlive p = msg_keep m /\ repr (headers p) (collect [] ∅ (msg_headers m)).

(** Headers with different names are all there as they are. *)
Lemma collect_distinct xs : forall m, NoDup (header_of <$> xs).*1 -> (forall x, x ∈ xs -> m !! (header_of x).1 = None) ->
  collect [] m xs = list_to_map (header_of <$> xs) ∪ m.
Proof.
  induction xs as [|x xs IH]; intros m Hnd Hm; cbn [collect]; [cbn; by rewrite map_empty_union|]. cbn in Hnd. apply NoDup_cons in Hnd as [Hx Hnd].
  cbn [app]. rewrite (Hm x) by left. rewrite IH; [|done|].
  - rewrite fmap_cons. destruct (header_of x) as [k v] eqn:E. cbn [list_to_map fst snd foldr]. cbn in Hx |- *.
    rewrite <-insert_union_l. symmetry. apply insert_union_r. injection E as <- _. by apply not_elem_of_list_to_map_1.
  - intros y Hy. rewrite lookup_insert_ne; [apply Hm; by right|]. intros E. apply Hx. change (concat x.1) with ((header_of x).1). rewrite E. apply list_elem_of_fmap. exists (header_of y). split; [done|].
    by apply list_elem_of_fmap_2.
Qed.

(** ** The table of headers *)

Implicit Types (d : Dict bytes bytes) (hs : list (bytes * bytes)) (r : gmap Z (bytes * bytes)).

Lemma append_value_spec d s r i k v buf : table d s r -> r !! i = Some (k, v) ->
  exists d', append_value i buf d = Done tt d' /\ table d' s (<[i := (k, v ++ buf)]> r) /\ count d' = count d.
Proof.
  intros Ht Hi. destruct (table_entry d s r i k v Ht Hi) as (_ & it & Eit & Ekv & _). pose proof Ht as (ch & fl & Hw & Hr & Hs).
  pose proof Hi as Hu. apply Hr in Hu as [Hl He]. pose proof (linked_range _ _ _ (wf_chains _ _ _ _ Hw) Hl) as Hrange.
  destruct (entry_data _ _ _ He) as (nd & it' & End & Eit' & Enh & _). assert (it' = it) as -> by congruence.
  destruct (wf_rekey d ch fl i (k, v) (k, v ++ buf) Hw Hl He eq_refl (or_introl eq_refl)) as [Hw' Hu'].
  exists (rekey i (k, v ++ buf) d). split; [|split; [|done]].
  - unfold append_value. unfold item at 1. dict_run. rewrite Eit. cbn. rewrite Ekv. cbn. rewrite in_array_true by done. cbn.
    rewrite (rekey_data i (k, v ++ buf) d nd it End Eit). unfold set_items. cbn. f_equal. f_equal. rewrite insert_id; [done|]. rewrite End. f_equal. destruct nd. cbn in *. by rewrite Enh.
  - exists ch, fl. split; [done|]. split; [|done]. intros j e. rewrite Hu', lookup_insert_Some, Hr. naive_solver.
Qed.

Definition holds_headers d (m : gmap bytes bytes) (n : Z) : Prop := exists s r, table d s r /\ (map_to_list r).*2 ≡ₚ map_to_list m /\ count d <= n.

Lemma holds_headers_repr d m n : holds_headers d m n -> repr d m.
Proof.
  intros (s & r & Ht & Hp & _). destruct (table_repr d s r Ht) as (m' & Hm & Hl). assert (m' = m) as <-; [|done].
  rewrite <-(list_to_map_to_list m'), <-(list_to_map_to_list m). apply list_to_map_proper; [apply NoDup_fst_map_to_list|by rewrite Hl].
Qed.

(** The map has an element for each of the table, and the other way round. *)
Lemma table_has r m k v : (map_to_list r).*2 ≡ₚ map_to_list m -> m !! k = Some v -> exists i, r !! i = Some (k, v).
Proof.
  intros Hp Hk. apply elem_of_map_to_list in Hk. rewrite <-Hp in Hk. apply list_elem_of_fmap in Hk as ([i e] & -> & Hi). exists i. by apply elem_of_map_to_list.
Qed.

Lemma table_has_not r m k i e : (map_to_list r).*2 ≡ₚ map_to_list m -> m !! k = None -> r !! i = Some e -> e.1 <> k.
Proof.
  intros Hp Hk Hi E. assert (Hin : e ∈ map_to_list m) by (rewrite <-Hp; apply list_elem_of_fmap; exists (i, e); split; [done|by apply elem_of_map_to_list]).
  destruct e as [k' v]. cbn in E. subst. apply elem_of_map_to_list in Hin. congruence.
Qed.

Lemma table_append r m i k v w : (map_to_list r).*2 ≡ₚ map_to_list m -> r !! i = Some (k, v) -> m !! k = Some v ->
  (map_to_list (<[i := (k, w)]> r)).*2 ≡ₚ map_to_list (<[k := w]> m).
Proof.
  intros Hp Hi Hk. rewrite <-(insert_delete_id r i (k, v) Hi), <-(insert_delete_id m k v Hk) in Hp. rewrite !map_to_list_insert in Hp by apply lookup_delete_eq.
  cbn in Hp. apply Permutation_cons_inv in Hp. rewrite <-(insert_delete_eq r), <-(insert_delete_eq m). rewrite !map_to_list_insert by apply lookup_delete_eq. cbn. by rewrite Hp.
Qed.

(** [Add] for a name: an element to which a value can be appended. *)
Lemma header_added d m n k : holds_headers d m n -> n * 2 * headerSize < 2 ^ 31 ->
  exists (fresh : bool) d' s i r v, Add headerSize k [] false d = Done (fresh, i) d' /\ table d' s r /\ r !! i = Some (k, v) /\ count d' <= n + 1 /\
    (forall w, (map_to_list (<[i := (k, v ++ w)]> r)).*2 ≡ₚ map_to_list (<[k := v ++ w]> m)) /\
    match m !! k with None => fresh = true /\ v = [] | Some v0 => fresh = false /\ v = v0 end.
Proof.
  intros (s & r & Ht & Hp & Hc) Hb. destruct (m !! k) as [v|] eqn:Hk.
  - destruct (table_has r m k v Hp Hk) as [i Hi]. exists false, d, s, i, r, v. split; [by apply (table_Add_taken headerSize d s r i k [] v)|].
    split_and!; try done; [lia|]. intros w. by apply (table_append r m i k v).
  - destruct (table_free _ _ _ Ht) as [Hfr _].
    destruct (table_Add_new headerSize d s r k [] ltac:(done) ltac:(by vm_compute) ltac:(unfold headerSize in *; lia) Ht) as (d' & E & Ht' & Hc').
    { intros i e Hi. by apply (table_has_not r m k i e). }
    exists true, d', (fun n => s (S n)), (s 0%nat), (<[s 0%nat := (k, [])]> r), []. split_and!; try done; [apply lookup_insert_eq|lia|].
    intros w. rewrite insert_insert_eq, !map_to_list_insert by done. cbn. by rewrite Hp.
Qed.

(** ** Runs of the handlers *)

Lemma on_events_app es es' h h' : on_events es h = Done tt h' -> on_events (es ++ es') h = on_events es' h'.
Proof.
  revert h. induction es as [|e es IH]; intros h; cbn [on_events app]; [by intros [= <-]|].
  unfold mbind, M_bind. destruct (on_event e h) as [[] h1| |]; [apply IH|done..].
Qed.

Lemma on_events_cons e es h h' : on_event e h = Done tt h' -> on_events (e :: es) h = on_events es h'.
Proof. intros E. cbn [on_events]. by rewrite (bind_done _ _ _ _ _ E). Qed.

(** Pieces that are appended to a text. *)
Lemma run_pieces (f : bytes -> http_event) (g : bytes -> HttpPeer -> HttpPeer) :
  (forall b h, on_event (f b) h = Done tt (MkHttp (g b (self h)) (served h))) -> (forall b b' p, g b' (g b p) = g (b ++ b') p) -> (forall p, g [] p = p) ->
  forall bs h, on_events (f <$> bs) h = Done tt (MkHttp (g (concat bs) (self h)) (served h)).
Proof.
  intros Hf Hg H0. induction bs as [|b bs IH]; intros h; cbn [concat].
  - rewrite H0. by destruct h.
  - rewrite fmap_cons, (on_events_cons _ _ _ _ (Hf b h)), IH. cbn [self served]. by rewrite Hg.
Qed.

Definition add_url (buf : bytes) (p : HttpPeer) :=
  MkHttpPeer (method p) (headers p) (keepAlive p) (body p) (url p ++ buf) (urlDecoded p) (status p) (lastKey p) (lastValue p) (s p).
Definition add_status (buf : bytes) (p : HttpPeer) :=
  MkHttpPeer (method p) (headers p) (keepAlive p) (body p) (url p) (urlDecoded p) (status p ++ buf) (lastKey p) (lastValue p) (s p).
Definition add_body (buf : bytes) (p : HttpPeer) :=
  MkHttpPeer (method p) (headers p) (keepAlive p) (body p ++ buf) (url p) (urlDecoded p) (status p) (lastKey p) (lastValue p) (s p).

Ltac pieces g := apply (run_pieces _ g); [done|intros b b' []; unfold g; cbn; by rewrite <-app_assoc|intros []; unfold g; cbn; by rewrite app_nil_r].

Lemma run_url bs h : on_events (Url <$> bs) h = Done tt (MkHttp (add_url (concat bs) (self h)) (served h)).
Proof. revert bs h. pieces add_url. Qed.
Lemma run_status bs h : on_events (Status <$> bs) h = Done tt (MkHttp (add_status (concat bs) (self h)) (served h)).
Proof. revert bs h. pieces add_status. Qed.
Lemma run_body bs h : on_events (Body <$> bs) h = Done tt (MkHttp (add_body (concat bs) (self h)) (served h)).
Proof. revert bs h. pieces add_body. Qed.

(** A name, and the state it is put together in. *)
Lemma run_field fs h : fs <> [] ->
  on_events (HeaderField <$> fs) h = Done tt (MkHttp (with_last (lastKey (self h) ++ concat fs) None (self h)) (served h)).
Proof.
  destruct fs as [|f fs]; [done|intros _]. revert f h. induction fs as [|f' fs IH]; intros f h.
  - cbn. by rewrite app_nil_r.
  - rewrite fmap_cons. erewrite on_events_cons by done. rewrite IH. cbn [self served lastKey with_last concat]. by rewrite <-!app_assoc.
Qed.

Definition at_header d (k : bytes) (v : option Z) (p : HttpPeer) (sv : list HttpPeer) : Http := MkHttp (with_headers d (with_last k v p)) sv.

Lemma run_values vs d s r i k v l p sv : table d s r -> r !! i = Some (k, v) -> exists d',
  on_events (HeaderValue <$> vs) (at_header d l (Some i) p sv) = Done tt (at_header d' l (Some i) p sv) /\
  table d' s (<[i := (k, v ++ concat vs)]> r) /\ count d' = count d.
Proof.
  revert d r v. induction vs as [|b vs IH]; intros d r v Ht Hi.
  - exists d. cbn. rewrite app_nil_r, insert_id; [done|done].
  - destruct (append_value_spec d s r i k v b Ht Hi) as (d1 & E1 & Ht1 & Hc1).
    destruct (IH d1 _ (v ++ b) Ht1) as (d2 & E2 & Ht2 & Hc2); [apply lookup_insert_eq|].
    rewrite insert_insert_eq, <-app_assoc in Ht2. exists d2. split; [|split; [done|lia]]. rewrite fmap_cons.
    erewrite on_events_cons; [exact E2|]. cbn [on_event]. unfold on_header_value. cbn. unfold mbind, M_bind, get, on_headers. cbn. by rewrite E1.
Qed.

Lemma run_header x d m n pending v p sv : fair_header x -> holds_headers d m n -> n * 2 * headerSize < 2 ^ 31 ->
  let k := pending ++ (header_of x).1 in
  exists d' v', on_events (header_events x) (at_header d pending v p sv) = Done tt (at_header d' (if m !! k is None then [] else k) v' p sv) /\
    holds_headers d' (<[k := default [] (m !! k) ++ (header_of x).2]> m) (n + 1).
Proof.
  destruct x as [fs vs]. intros [Hf Hv] Hh Hb k. cbn in Hf, Hv, k. destruct vs as [|b vs]; [done|].
  destruct (header_added d m n k Hh Hb) as (fresh & d1 & s1 & i & r & v0 & E1 & Ht1 & Hi & Hc1 & Hp & Hk).
  destruct (append_value_spec d1 s1 r i k v0 b Ht1 Hi) as (d2 & E2 & Ht2 & Hc2).
  set (l := if fresh then [] else k). destruct (run_values vs d2 s1 _ i k (v0 ++ b) l p sv Ht2) as (d3 & E3 & Ht3 & Hc3); [apply lookup_insert_eq|].
  rewrite insert_insert_eq, <-app_assoc in Ht3. exists d3, (Some i). split.
  - unfold header_events. cbn [fst snd]. erewrite on_events_app by by apply run_field. rewrite fmap_cons.
    replace (if m !! k is None then [] else k) with l by (unfold l; destruct (m !! k); by destruct Hk as [-> _]).
    erewrite on_events_cons; [exact E3|]. cbn [on_event]. unfold on_header_value. cbn. unfold mbind, M_bind, get, on_headers. cbn. fold k. rewrite E1. cbn.
    rewrite (table_ValueAt d1 s1 _ i k v0 Ht1 Hi). cbn. rewrite E2. by destruct fresh.
  - exists s1, (<[i := (k, v0 ++ b ++ concat vs)]> r). split; [exact Ht3|]. split; [|lia]. rewrite Hp. cbn.
    replace (default [] (m !! k)) with v0; [done|]. destruct (m !! k); by destruct Hk as [_ ->].
Qed.

Lemma run_headers xs : forall d m n pending v p sv, Forall fair_header xs -> (n + zlen xs) * 2 * headerSize < 2 ^ 31 -> holds_headers d m n ->
  exists d' k' v', on_events (xs ≫= header_events) (at_header d pending v p sv) = Done tt (at_header d' k' v' p sv) /\ holds_headers d' (collect pending m xs) (n + zlen xs).
Proof.
  induction xs as [|x xs IH]; intros d m n pending v p sv Hf Hb Hh.
  - exists d, pending, v. cbn. by rewrite Z.add_0_r.
  - apply Forall_cons in Hf as [Hx Hf]. rewrite zlen_cons in *. pose proof (zlen_nonneg xs).
    destruct (run_header x d m n pending v p sv Hx Hh) as (d1 & v1 & E1 & Hh1); [unfold headerSize in *; lia|]. set (k := pending ++ _) in *.
    rewrite bind_cons, (on_events_app _ _ _ _ E1). replace (n + (1 + zlen xs)) with (n + 1 + zlen xs) in * by lia. cbn [collect]. fold k.
    destruct (m !! k); by apply IH.
Qed.

(** ** Messages *)

(** The table is in order, whatever it holds. *)
Definition ready (h : Http) : Prop := exists s r, table (headers (self h)) s r.

Lemma message_seen m h : fair m -> ready h ->
  exists h', on_events (events_of m) h = Done tt h' /\ ready h' /\ served h' = served h ++ [self h'] /\ seen m (self h').
Proof.
  intros (Hf & Hb) (s0 & r0 & Ht0). destruct (table_Clear _ _ _ Ht0) as (d0 & E0 & Ht & Hc). unfold events_of.
  erewrite on_events_cons by (cbn [on_event]; unfold on_message_begin, mbind, M_bind, on_headers; rewrite E0; reflexivity).
  erewrite on_events_app by apply run_url. erewrite on_events_app by apply run_status. cbn [self served].
  set (p := MkHttpPeer [] d0 false [] (concat (msg_url m)) [] (concat (msg_status m)) [] None []).
  assert (Hh : holds_headers d0 ∅ 0) by (exists Z.of_nat, ∅; split; [done|]; by rewrite !map_to_list_empty, Hc).
  destruct (run_headers (msg_headers m) d0 ∅ 0 [] None p (served h) Hf) as (d1 & k1 & v1 & E1 & Hh1); [done|done|].
  change (MkHttp (add_status _ (add_url _ _)) (served h)) with (at_header d0 [] None p (served h)).
  erewrite on_events_app by exact E1. erewrite on_events_cons by done. erewrite on_events_app by apply run_body.
  eexists. split; [reflexivity|]. cbn [self served]. split; [|split; [done|]].
  - destruct Hh1 as (s1 & r1 & Ht1 & _). by exists s1, r1.
  - unfold seen. cbn. repeat split. by eapply holds_headers_repr.
Qed.

Lemma messages_seen ms h : Forall fair ms -> ready h ->
  exists h' ps, on_events (ms ≫= events_of) h = Done tt h' /\ ready h' /\ served h' = served h ++ ps /\ Forall2 seen ms ps.
Proof.
  intros Hm. revert h. induction Hm as [|m ms Hf Hm IH]; intros h Hr.
  - exists h, []. rewrite app_nil_r. repeat split; [done|constructor].
  - destruct (message_seen m h Hf Hr) as (h1 & E1 & Hr1 & Hs1 & Hp1). destruct (IH h1 Hr1) as (h2 & ps & E2 & Hr2 & Hs2 & Hp2).
    exists h2, (self h1 :: ps). rewrite bind_cons, (on_events_app _ _ _ _ E1), Hs2, Hs1, <-app_assoc. repeat split; [done..|by constructor].
Qed.

(** C19. For the messages of a connection, however the texts of each come in
    pieces: [OnReceiveHttp] is called once per message, in their order, and the
    address, the status, the body, the method and [keepAlive] it finds are
    those of that message — nothing is left of the one before.  [headers] is
    the map from its names to its values when the names differ; when a name
    comes again, it is what [collect] says: the values are joined and the name
    is put before the next one. *)
Theorem http_messages (h : Http) (ms : list message) : new_Http = Some h -> Forall fair ms ->
  (exists h', on_events (ms ≫= events_of) h = Done tt h' /\ Forall2 seen ms (served h')) /\
  forall m, NoDup (header_of <$> msg_headers m).*1 -> collect [] ∅ (msg_headers m) = list_to_map (header_of <$> msg_headers m).
Proof.
  intros Hnew Hall. split; [revert Hnew Hall|intros m Hnd; rewrite collect_distinct by done; apply map_union_empty].
  unfold new_Http. destruct (new_Dict headerSize 16) as [d|] eqn:E; [|done]. intros [= <-] Hm.
  destruct (table_new headerSize 16 d ltac:(done) E) as [Ht _].
  destruct (messages_seen ms (MkHttp (MkHttpPeer [] d false [] [] [] [] [] None []) []) Hm) as (h' & ps & Er & _ & Hs & Hp); [by exists Z.of_nat, ∅|].
  exists h'. split; [done|]. by rewrite Hs.
Qed.

(** A request in pieces, and one behind it that leaves nothing of it. *)
Definition request_in_pieces : message :=
  Message [[47; 97]; []; [63; 98]] [] [([[65]; [66]], [[49]; [50; 51]]); ([[67]], [[]])] [71; 69; 84] true [[120]; [121]].
Definition plain_request : message := Message [[47]] [] [] [80] false [].

Lemma http_messages_witness : exists h h', new_Http = Some h /\ on_events ([request_in_pieces; plain_request] ≫= events_of) h = Done tt h' /\
  Forall2 seen [request_in_pieces; plain_request] (served h').
Proof.
  eexists. assert (E : new_Http = Some ltac:(let e := eval vm_compute in new_Http in lazymatch e with Some ?h => exact h end)) by (vm_compute; reflexivity).
  destruct (http_messages _ [request_in_pieces; plain_request] E) as [(h' & Er & Hs) _].
  { repeat constructor; cbn; try done; try set_solver. }
  exists h'. split; [exact E|]. split; [exact Er|exact Hs].
Defined.

(** The value of a header that comes again is put behind the first value, and
    [lastKey] keeps the name, which is then put before the next one. *)
Theorem repeated_header_spoils_next : exists h h',
  new_Http = Some h /\
  on_events (MessageBegin :: ([([[97]], [[49]]); ([[97]], [[50]]); ([[98]], [[51]])] ≫= header_events) ++ [HeadersComplete [] true; MessageComplete]) h = Done tt h' /\
  (fun k => TryGetValue k (headers (self h'))) <$> [[97]; [98]; [97; 98]] =
    [Done (Some [49; 50]) (headers (self h')); Done None (headers (self h')); Done (Some [51]) (headers (self h'))].
Proof. eexists _, _. split; [vm_compute; reflexivity|]. split; vm_compute; reflexivity. Qed.

(** ** The answer *)

(** [SendHttpResponse] sends the head with the length of the text in decimal,
    an empty line and the text. *)
Theorem response_sent (h : Http) (buf : bytes) : zlen buf < 2 ^ 31 - 128 ->
  exists h', SendHttpResponse buf h =
    Done (responsePartialHeader_text ++ decimal (zlen buf) ++ [13; 10; 13; 10] ++ buf,
          zlen (responsePartialHeader_text ++ decimal (zlen buf) ++ [13; 10; 13; 10] ++ buf)) h'.
Proof.
  intros Hl. pose proof (zlen_nonneg buf). destruct (text_is_decimal 8 (zlen buf) ltac:(auto)) as [Ht _].
  destruct Ht as [Ht Hr]; [unfold is_uint; lia|]. eexists. unfold SendHttpResponse, mbind, M_bind, update, modify, get, mret, M_ret. cbn [self served with_last lastKey].
  rewrite Ht in *. do 2 f_equal. assert (0 <= zlen (decimal (zlen buf)) <= 32) by (split; [apply zlen_nonneg|exact Hr]).
  set (t := decimal (zlen buf)) in *. rewrite !zlen_app. change (zlen responsePartialHeader_text) with 73. change (zlen [13; 10; 13; 10]) with 4.
  unfold sint. rewrite Z.mod_small; lia.
Qed.

(** ** The client *)

(** What [UvHttpClient] keeps of a message. *)
Definition view (p : HttpPeer) : Client.HttpClient :=
  Client.MkHttpClient (headers p) (keepAlive p) (body p) (url p) (status p) (lastKey p) (lastValue p).
Definition view_all (h : Http) : Client.Http := Client.MkHttp (view (self h)) (view <$> served h).
Definition view_result {A} (r : outcome Http A) : outcome Client.Http A :=
  match r with Done a h => Done a (view_all h) | Fail e h => Fail e (view_all h) | Undef => Undef end.

Lemma view_bind {A B} (m : M Http A) (m' : M Client.Http A) (f : A -> M Http B) (f' : A -> M Client.Http B) h :
  m' (view_all h) = view_result (m h) -> (forall a h', f' a (view_all h') = view_result (f a h')) ->
  (x ← m'; f' x) (view_all h) = view_result ((x ← m; f x) h).
Proof. intros E Ef. unfold mbind, M_bind. rewrite E. by destruct (m h) as [a h'| |]; cbn. Qed.

Lemma view_headers {A} (m : M (Dict bytes bytes) A) h : Client.on_headers m (view_all h) = view_result (on_headers m h).
Proof. unfold Client.on_headers, on_headers. cbn. by destruct (m (headers (self h))). Qed.

(** The handlers of [UvHttpClient] are those of [UvHttpPeer], less what it does
    not keep. *)
Lemma view_event e h : Client.on_event e (view_all h) = view_result (on_event e h).
Proof.
  destruct e; cbn [Client.on_event on_event]; try done.
  - apply view_bind; [apply view_headers|done].
  - unfold Client.on_header_value, on_header_value. rewrite !(bind_done get _ _ _ _ eq_refl). cbn [Client.self view_all Client.lastValue view Client.lastKey].
    apply view_bind; [|intros; apply view_headers]. destruct (lastValue (self h)); [done|].
    apply view_bind; [apply view_headers|intros r h1]. apply view_bind; [apply view_headers|done].
  - unfold Client.on_message_complete, on_message_complete, modify, view_result, view_all. cbn. by rewrite fmap_app.
Qed.

Lemma view_events es h : Client.on_events es (view_all h) = view_result (on_events es h).
Proof.
  revert h. induction es as [|e es IH]; intros h; [done|]. cbn [Client.on_events on_events]. apply view_bind; [apply view_event|intros _; apply IH].
Qed.

Definition received (m : message) (p : Client.HttpClient) : Prop :=
  Client.url p = concat (msg_url m) /\ Client.status p = concat (msg_status m) /\ Client.body p = concat (msg_body m) /\
  Client.keepAlive p = msg_keep m /\ repr (Client.headers p) (collect [] ∅ (msg_headers m)).

(** The client sees each answer whole too. *)
Theorem client_messages (c : Client.Http) (ms : list message) : Client.new_Http = Some c -> Forall fair ms ->
  exists c', Client.on_events (ms ≫= events_of) c = Done tt c' /\ Forall2 received ms (Client.served c').
Proof.
  unfold Client.new_Http. destruct (new_Dict headerSize 16) as [d|] eqn:E; [|done]. intros [= <-] Hm.
  destruct (table_new headerSize 16 d ltac:(done) E) as [Ht _]. set (h := MkHttp (MkHttpPeer [] d false [] [] [] [] [] None []) []).
  destruct (messages_seen ms h Hm) as (h' & ps & Er & _ & Hs & Hp); [by exists Z.of_nat, ∅|].
  exists (view_all h'). split; [change (Client.MkHttp _ _) with (view_all h); by rewrite view_events, Er|].
  cbn. rewrite Hs. cbn. apply Forall2_fmap_r. eapply Forall2_impl; [exact Hp|]. intros m p (? & ? & ? & ? & ? & ?). by repeat split.
Qed.
